(* ===== verification/_CoqProject ===== *)
-Q . S2P
Prelude.v
BlockStore.v
BufferCache.v
BufferCacheLinks.v
BufferCacheSpec.v
BufferCacheOps.v
BufferCacheStore.v
RamDisk.v
StoreRefinement.v
BufferCacheProps.v
FsLayout.v
FileSystem.v
FileSystemSpec.v
FileSystemFormat.v
Inode.v
InodeMap.v
InodeSpec.v
FileBytes.v
InodeData.v
InodeTable.v
FileSystemProps.v
Directory.v
Path.v
DirectorySpec.v
PathSpec.v
NamesProps.v
Pmm.v
Keyboard.v
File.v
FileProps.v
Kstring.v
CrtStubs.v
Console.v
Heap.v
HeapSpec.v
HeapOps.v
HeapProps.v
Vmm.v
VmmSpec.v
VmmMap.v
VmmVisit.v
VmmCopy.v
VmmSpace.v
VmmKernel.v
VmmProps.v
VmmPmm.v
Process.v
ProcessSpec.v
ProcessSched.v
ProcessTable.v
ProcessOps.v
ProcessFork.v
ProcessProps.v
ProcessExamples.v
Systemcall.v
Printf.v
SystemcallProps.v
KernelFiles.v
SystemcallExamples.v
Cpu.v
Pci.v
Virtio.v
VirtioSpec.v
VirtioOps.v
VirtioInit.v
VirtioProps.v
Boot.v
VirtioSim.v
Serial.v
Vga.v
VgaProps.v
UserMode.v
Pic.v
Multiboot2.v
KernelMemory.v
Machine.v
Gdt.v
Idt.v
CpuExamples.v
Exception.v
