(* ===== verification/Prelude.v ===== *)
(** * A verification of the kernel unixv6-x86_64-cpp

    The kernel boots on one processor, sets up its memory, its descriptor tables and
    its devices, mounts a file system in the style of UNIX V6 from a virtio disk, and
    runs processes that reach it through system calls. This development models its
    C++ code (directories include/, kernel/ and user/) and proves it correct part by
    part. This file is the root of the library and, below, its prelude: machine
    integers, bytes, and the monad the stateful code is written in.

    ** How the code is modelled

    A function that changes state is a computation [M St A]: [None] is undefined
    behaviour (an access out of bounds, a null dereference, a signed overflow) or a
    loop that does not end, so that [wp m s Q], "[m] run in [s] returns, and [Q] holds
    of the result and the new state", is total correctness. Integers are [Z], their
    width written out where it matters ([u8] ... [u64]). A pointer is an index of the
    table it points into, or an address where the code computes with addresses; a list
    of structures threaded with pointers keeps its pointers. A failure the code
    reports is an [option] or an inductive type, with the constructors of the source.
    What a component calls is a class of operations; what it relies on is a second
    class of laws, and the component that is called has instances of both. So each part
    is proved against the contracts of its neighbours, and the instances put the parts
    together.

    ** The parts, from the disk upwards

    - Block stores (block_store.hpp): BlockStore.v. [IBlockStore] is the interface of
      the file system to its blocks, [BlockRef] the guard that borrows one,
      [BlockStoreSpec] its contract with the array of blocks as the abstract state.
      StoreRefinement.v: clients cannot distinguish two stores of equal contents.
    - Buffer cache (buffer_cache.cpp): BufferCache.v has the operations,
      BufferCacheLinks.v the list of the least recently used buffers as a sequence,
      BufferCacheSpec.v and BufferCacheOps.v the invariant and the specifications
      over any device ([DeviceSpec]) and over a reliable one ([ReliableDevice]),
      BufferCacheStore.v the instance of [BlockStoreSpec], RamDisk.v a device in
      memory, BufferCacheProps.v the properties.
    - File system (file_system.cpp, file_system_internal.cpp, inode.cpp): FsLayout.v
      (bytes on the disk), FileSystem.v (blocks, inodes on the disk),
      FileSystemSpec.v, FileSystemFormat.v (formatting and mounting), Inode.v (table
      of inodes, block maps, data), InodeMap.v, InodeSpec.v, FileBytes.v, InodeData.v,
      InodeTable.v (what these operations do to the bytes of files) and
      FileSystemProps.v.
    - Names (directory.cpp, path.cpp): Directory.v, Path.v, with DirectorySpec.v,
      PathSpec.v and NamesProps.v: directories as lists of entries, paths as walks in
      the tree.
    - Open files (file.cpp): File.v, FileProps.v; the console reads from the keyboard
      (keyboard.cpp: Keyboard.v).
    - Physical pages (pmm.cpp): Pmm.v. Page tables (vmm.cpp): Vmm.v over
      [FrameAllocator]; VmmSpec.v gives each frame an owner, VmmMap.v, VmmVisit.v,
      VmmCopy.v, VmmSpace.v and VmmKernel.v specify the operations, VmmProps.v has the
      properties and VmmPmm.v the instance over [Pmm]. Heap (heap.cpp): Heap.v over
      [PageServices]; HeapSpec.v, HeapOps.v, HeapProps.v. KernelMemory.v puts the three
      together: the heap on the page tables on the frame allocator, as [kernel_main]
      starts them from the information of the boot loader (multiboot2.cpp:
      Multiboot2.v).
    - Processes (process.cpp, scheduler.cpp): Process.v over [Services];
      ProcessSpec.v, ProcessSched.v, ProcessTable.v, ProcessOps.v, ProcessFork.v
      (contracts and invariant), ProcessProps.v (properties), ProcessExamples.v (a
      concrete kernel). A switch of contexts ends an operation; the rest of it is
      kept with the saved context as a [Point] and follows when it runs again.
      [start_processes] and [idle_turn] are what [kernel_main] does with them.
    - System calls (systemcall.cpp): Systemcall.v over [SystemFiles],
      SystemcallProps.v; KernelFiles.v discharges [Services] and [SystemFiles] with
      the open files over a [Core] (heap, address spaces, task state, the user's
      memory); SystemcallExamples.v runs a process over a simple core.
    - The whole (Machine.v): the core made of the heap, the page tables and the frame
      allocator of the model, so that the theorems about processes and system calls
      hold for the kernel on its own memory; its steps are operations of the
      processes, system calls, preparations of user spaces, stores of user code and
      input.
    - User mode and the first process (usermode.cpp, init.cpp, user/init.cpp):
      UserMode.v.
    - Disk driver (pci.cpp, virtioblock.cpp): Pci.v, Virtio.v over ports and memory
      shared with the device ([Platform]); VirtioSpec.v (what a virtio device does),
      VirtioOps.v, VirtioInit.v, VirtioProps.v, VirtioSim.v (a simulated disk). Boot.v
      puts driver, cache and file system together as [kernel_main] does.
    - Processor (gdt.cpp, idt.cpp, exception.cpp, pic.cpp): Cpu.v (what is reached
      with assembly, and ports), Gdt.v, Idt.v, Exception.v, Pic.v, CpuExamples.v.
    - Output (vga.cpp, serial.cpp, console.cpp): Vga.v, VgaProps.v, Serial.v,
      Console.v ([vprintf]), Printf.v (the grammar and the types of its formats,
      and what they mean in C).
    - Library code (kstring.hpp, crt_stubs.cpp): Kstring.v, CrtStubs.v.

    ** What the theorems show

    Each group starts from the invariant of its component, shows that every operation
    keeps it, and states on every branch, failures included, what the operation does.

    - Storage: the cache over a device is an array of blocks
      ([cache_is_block_array]); so is the driver over a virtio disk
      ([requests_correct]); the file system over them allocates blocks that nobody
      owns, reads back what was written, mounts what is formatted, and resolves paths
      as a search in a tree ([write_data_correct], [resolve_path_correct],
      [boot_storage_correct]).
    - Memory: frames have one owner each; mapping changes one translation, in the
      lower and in the kernel's half ([map_then_translate]); a copy of an address
      space is separate and destroying one gives back each frame once
      ([no_frame_leaks], [copy_user_pages_correct]); blocks of the heap in use are
      disjoint, mapped and aligned ([heap_client_safe]); after the start of the memory
      all this holds on the real page tables ([start_memory_correct]); user mode
      reaches its program through all four levels of the tables and cannot write it
      ([map_user_space_correct]).
    - Processes: in every reachable state exactly one process runs, resources are
      neither lost nor shared and no process waits for a child that has ended
      ([reachable_ok]); on the model's own memory the address spaces, their frames
      and the blocks of the heap in use are those of the processes, and every other
      frame is free but for those the heap has taken, in every state that is reached
      ([memory_of_processes]); round robin starves nobody
      ([yield_round_robin]); fork, exit and wait, with their failures; system calls end
      and report their result ([handle_syscall_correct]).
    - Devices: the keyboard is a bounded queue, the screen a tape, [vprintf]
      writes what its format means in C and is defined on the well-typed formats, the
      descriptor tables are what the processor expects.

    ** Loops and fuel

    A loop without an obvious measure takes fuel, and running out of it is stuck, so
    that every [wp] says the fuel is enough. Walks over the cache take 31 steps for 30
    buffers; scans of directories one more than there are entries; walks over the heap
    as many as there are headers, and an allocation that grows the heap starts over
    once; numbers have at most 64 digits; [vprintf] steps at least once per byte of
    the format. A poll of a device is bounded by a horizon of the device, a number of
    polls after which its laws promise an answer, and reading the keyboard by the
    interrupts to come.

    ** Not modelled

    - Assembly (boot/, interrupt/, syscall/, io/, switch.asm): ports and registers are
      classes, a switch of contexts ends an operation, the change to user mode ends
      [enter].
    - The tests (tests/).
    - The parts of [kernel_main] that print, enable interrupts and call the
      initialisation of the devices one after the other: each initialisation is
      modelled, their order is not. [hlt] and [sti] in its final loop change nothing.
    - The translation buffer of the processor: an address is translated by the tables
      as they are. Reordering by the compiler or the processor is not modelled.
    - The bytes of the kernel's heap as bytes of frames: the headers of its blocks and
      the contents of the kernel stacks are maps of their own ([headers], [memory]); that
      they lie on mapped pages is proved, what is in the frames is not followed.
    - Interrupts between two instructions, but for those inside [getchar]
      (Keyboard.v) and those of the timer at a [yield].
    - operator delete, the handler of pure virtual calls and the other functions that
      only halt. *)

(** * Prelude

    Machine integers at their width, byte lists (memcpy, memset, little-endian
    integers, bitmaps), the state monad in which the stateful code is written
    and its total-correctness weakest precondition. *)
From Stdlib Require Export ZArith Lia.
From stdpp Require Export base gmap list numbers fin_maps.

#[global] Open Scope Z_scope.

Ltac Zify.zify_post_hook ::= Z.div_mod_to_equations.

(** ** Machine integers *)

(** Conversion to an unsigned type of 8, 16, 32 or 64 bits. *)
Definition u8 (x : Z) : Z := x `mod` 256.
Definition u16 (x : Z) : Z := x `mod` 65536.
Definition u32 (x : Z) : Z := x `mod` 4294967296.
Definition u64 (x : Z) : Z := x `mod` 18446744073709551616.

(** Value range of the signed 32-bit type [int]. *)
Definition INT_MAX : Z := 2147483647.

Lemma u8_small x : 0 <= x < 256 → u8 x = x.
Proof. apply Z.mod_small. Qed.
Lemma u16_small x : 0 <= x < 65536 → u16 x = x.
Proof. apply Z.mod_small. Qed.
Lemma u32_small x : 0 <= x < 4294967296 → u32 x = x.
Proof. apply Z.mod_small. Qed.
Lemma u64_small x : 0 <= x < 18446744073709551616 → u64 x = x.
Proof. apply Z.mod_small. Qed.

Lemma u8_range x : 0 <= u8 x < 256.
Proof. unfold u8. lia. Qed.
Lemma u16_range x : 0 <= u16 x < 65536.
Proof. unfold u16. lia. Qed.
Lemma u32_range x : 0 <= u32 x < 4294967296.
Proof. unfold u32. lia. Qed.
Lemma u64_range x : 0 <= u64 x < 18446744073709551616.
Proof. unfold u64. lia. Qed.

(** [x & ~mask] clears the low [k] bits: rounding down to a multiple of [2 ^ k]. *)
Lemma land_lnot_ones x k : 0 <= x < 18446744073709551616 → 0 <= k → Z.land x (u64 (Z.lnot (Z.ones k))) = x / 2 ^ k * 2 ^ k.
Proof.
  intros Hx Hk. unfold u64. change 18446744073709551616 with (2 ^ 64) in *. rewrite <- Z.land_ones by lia.
  rewrite (Z.land_comm (Z.lnot _)), Z.land_assoc, Z.land_ones, Z.mod_small by lia.
  rewrite <- Z.ldiff_land, Z.ldiff_ones_r, Z.shiftl_mul_pow2, Z.shiftr_div_pow2 by lia. done.
Qed.

(** ** The state monad

    [M St A] is a computation over the state [St]: [None] means that the code
    is stuck (undefined behaviour such as an access out of bounds, a null
    dereference or a signed overflow) or does not return; [Some (a, s)] that it
    returns [a] in the state [s]. *)
Definition M (St A : Type) : Type := St → option (A * St).

#[export] Instance M_ret {St} : MRet (M St) := λ A a s, Some (a, s).
#[export] Instance M_bind {St} : MBind (M St) := λ A B f m s,
  match m s with
  | Some (a, s') => f a s'
  | None => None
  end.

Definition get {St} : M St St := λ s, Some (s, s).
Definition put {St} (s : St) : M St () := λ _, Some ((), s).
Definition modify {St} (f : St → St) : M St () := λ s, Some ((), f s).
Definition gets {St A} (f : St → A) : M St A := λ s, Some (f s, s).
Definition stuck {St A} : M St A := λ _, None.
(** A partial operation of the language: undefined behaviour when [None]. *)
Definition defined {St A} (o : option A) : M St A := λ s, (λ a, (a, s)) <$> o.

(** Total correctness: [m] returns from [s], and its result and final state
    satisfy [Q]. *)
Definition wp {St A} (m : M St A) (s : St) (Q : A → St → Prop) : Prop :=
  ∃ a s', m s = Some (a, s') ∧ Q a s'.

Section wp.
Context {St : Type}.
Implicit Types s : St.

Lemma wp_ret {A} (a : A) s (Q : A → St → Prop) : Q a s → wp (mret a) s Q.
Proof. intros HQ. by exists a, s. Qed.

Lemma wp_bind {A B} (m : M St A) (f : A → M St B) s (Q : B → St → Prop) :
  wp m s (λ a s', wp (f a) s' Q) → wp (m ≫= f) s Q.
Proof.
  intros (a & s' & Hm & b & s'' & Hf & HQ). exists b, s''. split; [|done].
  unfold mbind, M_bind. by rewrite Hm.
Qed.

Lemma wp_get s (Q : St → St → Prop) : Q s s → wp get s Q.
Proof. intros HQ. by exists s, s. Qed.

Lemma wp_gets {A} (f : St → A) s (Q : A → St → Prop) : Q (f s) s → wp (gets f) s Q.
Proof. intros HQ. by exists (f s), s. Qed.

Lemma wp_put s s' (Q : () → St → Prop) : Q () s' → wp (put s') s Q.
Proof. intros HQ. by exists (), s'. Qed.

Lemma wp_modify (f : St → St) s (Q : () → St → Prop) : Q () (f s) → wp (modify f) s Q.
Proof. intros HQ. by exists (), (f s). Qed.

Lemma wp_defined {A} (o : option A) a s (Q : A → St → Prop) :
  o = Some a → Q a s → wp (defined o) s Q.
Proof. intros -> HQ. by exists a, s. Qed.

Lemma wp_mono {A} (m : M St A) s (P Q : A → St → Prop) :
  wp m s P → (∀ a s', P a s' → Q a s') → wp m s Q.
Proof. intros (a & s' & Hm & HP) HPQ. exists a, s'. auto. Qed.

Lemma wp_elim {A} (m : M St A) s (Q : A → St → Prop) a s' :
  wp m s Q → m s = Some (a, s') → Q a s'.
Proof. intros (a0 & s0 & Hm & HQ) Heq. by simplify_eq. Qed.

(** The postcondition may speak of the run itself. *)
Lemma wp_ran {A} (m : M St A) s (Q : A → St → Prop) :
  wp m s Q → wp m s (λ a s', m s = Some (a, s') ∧ Q a s').
Proof. intros (a & s' & Hm & HQ). by exists a, s'. Qed.

Lemma wp_intro {A} (m : M St A) s (Q : A → St → Prop) a s' :
  m s = Some (a, s') → Q a s' → wp m s Q.
Proof. intros. by exists a, s'. Qed.
End wp.

(** One symbolic step of a monadic program in a [wp] goal. *)
Ltac wp_step :=
  lazymatch goal with
  | |- wp (_ ≫= _) _ _ => apply wp_bind
  | |- wp (mret _) _ _ => apply wp_ret
  | |- wp get _ _ => apply wp_get
  | |- wp (gets _) _ _ => apply wp_gets
  | |- wp (put _) _ _ => apply wp_put
  | |- wp (modify _) _ _ => apply wp_modify
  | |- wp (defined (Some _)) _ _ => eapply wp_defined; [reflexivity|]
  | H : ?o = Some _ |- wp (defined ?o) _ _ => eapply wp_defined; [exact H|]
  end.
Ltac wp_steps := repeat (wp_step; cbn beta iota).
(** Use a proved triple for the program at the head of the goal. *)
Tactic Notation "wp_use" uconstr(H) := eapply wp_mono; [eapply H|].

(** Run a computation on a component of the state. *)
Definition zoom {S T A} (getter : S → T) (setter : T → S → S) (m : M T A) : M S A := λ s,
  match m (getter s) with
  | Some (a, t) => Some (a, setter t s)
  | None => None
  end.

Lemma wp_zoom {S T A} (getter : S → T) setter (m : M T A) s (Q : A → S → Prop) :
  wp m (getter s) (λ a t, Q a (setter t s)) → wp (zoom getter setter m) s Q.
Proof.
  intros (a & t & Hm & HQ). exists a, (setter t s). unfold zoom. by rewrite Hm.
Qed.

(** ** Byte lists *)

Definition byte_ok (b : Z) : Prop := 0 <= b < 256.
Abbreviation bytes := (Forall byte_ok).

#[export] Instance byte_ok_dec b : Decision (byte_ok b).
Proof. unfold byte_ok. apply _. Defined.

(** Contents of [n] bytes at [off] (the source side of memcpy). *)
Definition slice (off n : nat) (l : list Z) : list Z := take n (drop off l).
(** [l] with the bytes [src] copied over it at [off] (the destination side). *)
Definition splice (off : nat) (src l : list Z) : list Z :=
  take off l ++ src ++ drop (off + length src) l.

Lemma length_slice off n l : (off + n <= length l)%nat → length (slice off n l) = n.
Proof. intros. unfold slice. rewrite length_take, length_drop. lia. Qed.

Lemma length_splice off src l :
  (off + length src <= length l)%nat → length (splice off src l) = length l.
Proof. intros. unfold splice. rewrite !length_app, length_take, length_drop. lia. Qed.

Lemma lookup_slice off n (l : list Z) i :
  (i < n)%nat → slice off n l !! i = l !! (off + i)%nat.
Proof. intros. unfold slice. rewrite lookup_take_lt by lia. by rewrite lookup_drop. Qed.

Lemma lookup_splice_in off src (l : list Z) i :
  (off + length src <= length l)%nat → (off <= i < off + length src)%nat →
  splice off src l !! i = src !! (i - off)%nat.
Proof.
  intros. unfold splice. rewrite lookup_app_r; rewrite length_take; [|lia].
  rewrite lookup_app_l by lia. f_equal. lia.
Qed.

Lemma lookup_splice_out off src (l : list Z) i :
  (off + length src <= length l)%nat → (i < off \/ off + length src <= i)%nat →
  splice off src l !! i = l !! i.
Proof.
  intros ? [?|?]; unfold splice.
  - rewrite lookup_app_l by (rewrite length_take; lia). by rewrite lookup_take_lt by lia.
  - rewrite lookup_app_r; rewrite length_take; [|lia].
    rewrite lookup_app_r by lia. rewrite lookup_drop. f_equal. lia.
Qed.

Lemma slice_splice_same off src (l : list Z) :
  (off + length src <= length l)%nat → slice off (length src) (splice off src l) = src.
Proof.
  intros. apply list_eq. intros i. destruct (decide (i < length src)%nat).
  - rewrite lookup_slice, lookup_splice_in by lia. f_equal. lia.
  - rewrite !lookup_ge_None_2; [done|lia|]. rewrite length_slice; rewrite ?length_splice; lia.
Qed.

Lemma slice_splice_disjoint off src off' n (l : list Z) :
  (off + length src <= length l)%nat → (off' + n <= length l)%nat →
  (off' + n <= off \/ off + length src <= off')%nat →
  slice off' n (splice off src l) = slice off' n l.
Proof.
  intros. apply list_eq. intros i. destruct (decide (i < n)%nat).
  - rewrite !lookup_slice, lookup_splice_out by lia. done.
  - rewrite !lookup_ge_None_2; [done| |]; rewrite length_slice; rewrite ?length_splice; lia.
Qed.

Lemma bytes_slice off n l : bytes l → bytes (slice off n l).
Proof. intros. by apply Forall_take, Forall_drop. Qed.

Lemma bytes_splice off src l : bytes src → bytes l → bytes (splice off src l).
Proof. intros. repeat apply Forall_app_2; auto using Forall_take, Forall_drop. Qed.

Lemma bytes_replicate n b : byte_ok b → bytes (replicate n b).
Proof. apply Forall_replicate. Qed.

(** ** Little-endian integers *)

(** The [n] bytes of [x] in memory on this little-endian machine. *)
Fixpoint le_bytes (n : nat) (x : Z) : list Z :=
  match n with
  | O => []
  | S n => x `mod` 256 :: le_bytes n (x / 256)
  end.

(** The integer whose memory representation is [l]. *)
Definition le_value (l : list Z) : Z := foldr (λ b acc, b + 256 * acc) 0 l.

Lemma length_le_bytes n x : length (le_bytes n x) = n.
Proof. revert x. induction n; intros; simpl; auto. Qed.

Lemma bytes_le_bytes n x : bytes (le_bytes n x).
Proof. revert x. induction n; intros; simpl; constructor; auto. unfold byte_ok. lia. Qed.

Lemma le_value_range l : bytes l → 0 <= le_value l < 256 ^ Z.of_nat (length l).
Proof.
  induction 1 as [|b l Hb Hl IH]; [simpl; lia|]. unfold byte_ok in Hb.
  cbn [length le_value foldr]. rewrite Nat2Z.inj_succ, Z.pow_succ_r by lia.
  fold (le_value l). lia.
Qed.

Lemma le_value_le_bytes n x : 0 <= x < 256 ^ Z.of_nat n → le_value (le_bytes n x) = x.
Proof.
  revert x. induction n as [|n IH]; intros x Hx; [simpl in *; lia|].
  rewrite Nat2Z.inj_succ, Z.pow_succ_r in Hx by lia.
  cbn [le_bytes le_value foldr]. fold (le_value (le_bytes n (x / 256))).
  rewrite IH; [lia|]. split; [lia|]. apply Z.div_lt_upper_bound; lia.
Qed.

Lemma le_bytes_le_value l : bytes l → le_bytes (length l) (le_value l) = l.
Proof.
  induction 1 as [|b l Hb Hl IH]; simpl; [done|]. unfold byte_ok in Hb.
  replace ((b + 256 * le_value l) / 256) with (le_value l) by lia.
  rewrite IH. f_equal. lia.
Qed.

(** ** Bitmaps stored in bytes: bit [i] is bit [i mod 8] of byte [i / 8] *)

(** [1 << (i % 8)], as a [uint8_t]. *)
Definition bit_mask (i : Z) : Z := u8 (Z.shiftl 1 (i `mod` 8)).

(** [l[i / 8] & (1 << (i % 8))] as a truth value; [None] out of bounds. *)
Definition get_bit (l : list Z) (i : Z) : option bool :=
  b ← l !! Z.to_nat (i / 8); Some (negb (Z.land b (bit_mask i) =? 0)).
(** [l[i / 8] |= 1 << (i % 8)] *)
Definition set_bit (l : list Z) (i : Z) : option (list Z) :=
  b ← l !! Z.to_nat (i / 8); Some (<[Z.to_nat (i / 8) := u8 (Z.lor b (bit_mask i))]> l).
(** [l[i / 8] &= ~(1 << (i % 8))] *)
Definition clear_bit (l : list Z) (i : Z) : option (list Z) :=
  b ← l !! Z.to_nat (i / 8);
  Some (<[Z.to_nat (i / 8) := u8 (Z.land b (u8 (Z.lnot (bit_mask i))))]> l).

(** Mathematical reading of the bitmap: bit [i] of the list. *)
Definition bit (l : list Z) (i : Z) : bool :=
  Z.testbit (nth (Z.to_nat (i / 8)) l 0) (i `mod` 8).

Lemma bit_mask_pow i : bit_mask i = 2 ^ (i `mod` 8).
Proof.
  unfold bit_mask. rewrite Z.shiftl_1_l. apply u8_small.
  split; [apply Z.pow_nonneg; lia|].
  change 256 with (2 ^ 8). apply Z.pow_lt_mono_r; lia.
Qed.

Lemma testbit_bit_mask i k : 0 <= k → Z.testbit (bit_mask i) k = (i `mod` 8 =? k).
Proof. intros. rewrite bit_mask_pow. apply Z.pow2_bits_eqb. lia. Qed.

Lemma testbit_byte_high b k : byte_ok b → 8 <= k → Z.testbit b k = false.
Proof.
  intros [Hb Hb'] Hk. destruct (decide (b = 0)) as [->|]; [apply Z.testbit_0_l|].
  apply Z.bits_above_log2; [done|]. apply Z.log2_lt_pow2; [lia|].
  apply Z.lt_le_trans with (2 ^ 8); [done|]. by apply Z.pow_le_mono_r.
Qed.

Lemma testbit_u8 x k : 0 <= k < 8 → Z.testbit (u8 x) k = Z.testbit x k.
Proof. intros. unfold u8. change 256 with (2 ^ 8). apply Z.mod_pow2_bits_low. lia. Qed.

Lemma land_bit_mask b i :
  negb (Z.land b (bit_mask i) =? 0) = Z.testbit b (i `mod` 8).
Proof.
  destruct (Z.testbit b (i `mod` 8)) eqn:Hb.
  - apply negb_true_iff, Z.eqb_neq. intros H0.
    assert (Z.testbit (Z.land b (bit_mask i)) (i `mod` 8) = true) as Ht.
    { rewrite Z.land_spec, Hb, testbit_bit_mask by lia. simpl. lia. }
    rewrite H0, Z.testbit_0_l in Ht. done.
  - apply negb_false_iff, Z.eqb_eq, Z.bits_inj'. intros k Hk.
    rewrite Z.land_spec, testbit_bit_mask, Z.testbit_0_l by lia.
    destruct (i `mod` 8 =? k) eqn:E; [|by rewrite andb_false_r].
    apply Z.eqb_eq in E. subst k. by rewrite Hb.
Qed.

Lemma get_bit_spec l i :
  0 <= i < 8 * Z.of_nat (length l) → get_bit l i = Some (bit l i).
Proof.
  intros Hi. unfold get_bit, bit.
  destruct (lookup_lt_is_Some_2 l (Z.to_nat (i / 8))) as [b Hb]; [lia|].
  rewrite Hb, (nth_lookup_Some _ _ _ _ Hb). simpl. by rewrite land_bit_mask.
Qed.

(** Reading one bit after one byte of the list has been replaced. *)
Lemma bit_insert l i b j :
  0 <= i < 8 * Z.of_nat (length l) → 0 <= j →
  bit (<[Z.to_nat (i / 8) := b]> l) j =
  if decide (j / 8 = i / 8) then Z.testbit b (j `mod` 8) else bit l j.
Proof.
  intros Hi Hj. unfold bit. rewrite !nth_lookup.
  case_decide as E.
  - rewrite E, list_lookup_insert_eq by lia. done.
  - rewrite list_lookup_insert_ne; [done|]. lia.
Qed.

Lemma set_bit_spec l i :
  0 <= i < 8 * Z.of_nat (length l) →
  ∃ l', set_bit l i = Some l' ∧ length l' = length l ∧ (bytes l → bytes l') ∧
    ∀ j, 0 <= j → bit l' j = (bit l j || (j =? i)).
Proof.
  intros Hi. unfold set_bit.
  destruct (lookup_lt_is_Some_2 l (Z.to_nat (i / 8))) as [b Hb]; [lia|].
  rewrite Hb. simpl. eexists. split; [done|]. rewrite length_insert.
  split; [done|]. split; [intros; apply Forall_insert; [done|apply u8_range]|].
  intros j Hj. rewrite bit_insert by done. case_decide as E.
  - rewrite testbit_u8, Z.lor_spec, testbit_bit_mask by lia.
    unfold bit. rewrite E, (nth_lookup_Some _ _ _ _ Hb). f_equal. lia.
  - replace (j =? i) with false by lia. by rewrite orb_false_r.
Qed.

Lemma clear_bit_spec l i :
  0 <= i < 8 * Z.of_nat (length l) →
  ∃ l', clear_bit l i = Some l' ∧ length l' = length l ∧ (bytes l → bytes l') ∧
    ∀ j, 0 <= j → bit l' j = (bit l j && negb (j =? i)).
Proof.
  intros Hi. unfold clear_bit.
  destruct (lookup_lt_is_Some_2 l (Z.to_nat (i / 8))) as [b Hb]; [lia|].
  rewrite Hb. simpl. eexists. split; [done|]. rewrite length_insert.
  split; [done|]. split; [intros; apply Forall_insert; [done|apply u8_range]|].
  intros j Hj. rewrite bit_insert by done. case_decide as E.
  - rewrite testbit_u8, Z.land_spec, testbit_u8, Z.lnot_spec, testbit_bit_mask by lia.
    unfold bit. rewrite E, (nth_lookup_Some _ _ _ _ Hb). f_equal. f_equal. lia.
  - replace (j =? i) with false by lia. by rewrite andb_true_r.
Qed.

Lemma bit_replicate_0 n j : bit (replicate n 0) j = false.
Proof.
  unfold bit. rewrite nth_lookup. destruct (replicate n 0 !! _) as [x|] eqn:E; simpl.
  - apply lookup_replicate_1 in E as [-> _]. apply Z.testbit_0_l.
  - apply Z.testbit_0_l.
Qed.

(** ** Lists *)
Lemma Forall_elem {A} (P : A → Prop) l x : Forall P l → x ∈ l → P x.
Proof. rewrite Forall_forall. auto. Qed.

(** ** Automation

    [machine] collects what the ranges and lengths of machine data need: as hints for
    [auto] where a value must be a byte or in the range of its type, as rewrite rules
    where a conversion does nothing or a length is that of the list before. *)
Create HintDb machine.
Create Rewrite HintDb machine.
#[export] Hint Resolve u8_range u16_range u32_range u64_range : machine.
#[export] Hint Resolve bytes_slice bytes_splice bytes_replicate bytes_le_bytes : machine.
#[export] Hint Rewrite u8_small u16_small u32_small u64_small using lia : machine.
#[export] Hint Rewrite @length_slice @length_splice length_le_bytes using lia : machine.

(** * Bit fields

    Packing fields into a word with shifts and [|], and taking them out again:
    what the encodings of descriptors, registers and addresses share. *)

Lemma land_low_shift a b k : 0 <= k → 0 <= a < 2 ^ k → Z.land a (Z.shiftl b k) = 0.
Proof.
  intros Hk Ha. apply Z.bits_inj'. intros n Hn. rewrite Z.land_spec, Z.bits_0.
  destruct (decide (n < k)).
  - rewrite Z.shiftl_spec_low by done. apply andb_false_r.
  - rewrite <- (Z.mod_small a (2 ^ k)) by done. rewrite Z.mod_pow2_bits_high by lia. done.
Qed.

(** A field above the low [k] bits. *)
Lemma lor_field a b k : 0 <= k → 0 <= a < 2 ^ k → Z.lor (Z.shiftl b k) a = b * 2 ^ k + a.
Proof.
  intros Hk Ha. rewrite <- Z.shiftl_mul_pow2 by done. rewrite Z.add_nocarry_lxor, Z.lxor_lor; [done| |];
    rewrite Z.land_comm; by apply land_low_shift.
Qed.
Lemma lor_field' a b k : 0 <= k → 0 <= a < 2 ^ k → Z.lor a (Z.shiftl b k) = a + b * 2 ^ k.
Proof. intros. rewrite Z.lor_comm, lor_field by done. lia. Qed.

(** The bits [k .. k + n) of a word. *)
Definition field (x k n : Z) : Z := (x / 2 ^ k) `mod` 2 ^ n.
Lemma shiftr_land_field x k n : 0 <= k → 0 <= n → Z.land (Z.shiftr x k) (Z.ones n) = field x k n.
Proof. intros. unfold field. rewrite Z.land_ones, Z.shiftr_div_pow2 by done. done. Qed.
