(* ===== verification/BlockStore.v ===== *)
(** * The block storage interface (include/block_store.hpp)

    [IBlockStore] is the interface through which the file system reaches its
    blocks, [BlockRef] the guard that lends out one block, [with_block] the
    scope of a local [BlockRef] variable.  [BlockStoreSpec] states what an
    implementation promises to the file system; it is discharged by the buffer
    cache (BufferCache.v) and by [RamStore] below. *)
From S2P Require Import Prelude.

(** Block numbers are [uint32_t] values kept as [Z]; [FSBLOCK_SIZE] is the
    length of every block. *)
Definition FSBLOCK_SIZE : Z := 512.
Abbreviation BSIZE := 512%nat.

(** What a [BlockRef] object holds: the block number, whether [store_] is
    non-null, and [data_], the pointer to the bytes ([None] is nullptr). *)
Record BlockRef := mkBlockRef {
  block_number_ : Z;
  store_ : bool;
  data_ : option nat;
}.

(** [BlockRef{}], the default constructor. *)
Definition BlockRef_default : BlockRef := mkBlockRef 0 false None.

(** The abstract class, with the memory behind the [data()] pointers: [peek]
    and [poke] read and overwrite the bytes a data pointer points to. *)
Class IBlockStore (T : Type) := {
  acquire : Z → M T BlockRef;
  write_back : Z → M T bool;
  release : Z → M T ();
  peek : nat → M T (list Z);
  poke : nat → list Z → M T ();
}.

Section BlockRef.
Context {T : Type} `{IBlockStore T}.

(** [operator!] *)
Definition is_null (r : BlockRef) : bool :=
  match data_ r with None => true | Some _ => false end.

(** [BlockRef::write_back] *)
Definition ref_write_back (r : BlockRef) : M T bool :=
  if negb (store_ r) then mret false
  else match data_ r with
       | None => mret false
       | Some _ => write_back (block_number_ r)
       end.

(** [BlockRef::reset], also what the destructor runs; returns the object
    as it is left. *)
Definition ref_reset (r : BlockRef) : M T BlockRef :=
  match store_ r, data_ r with
  | true, Some _ =>
      _ ← release (block_number_ r);
      mret (mkBlockRef (block_number_ r) false None)
  | _, _ => mret r
  end.

(** The move constructor: the new object, and [other] as it is left. *)
Definition ref_move (other : BlockRef) : BlockRef * BlockRef :=
  (other, mkBlockRef (block_number_ other) false None).

(** The move assignment [*this = std::move(other)] of two distinct objects:
    [this] gives back what it holds first. *)
Definition ref_move_assign (this other : BlockRef) : M T (BlockRef * BlockRef) :=
  _ ← ref_reset this;
  mret (ref_move other).

(** [block.data()], dereferenced for reading and for writing all bytes. *)
Definition ref_load (r : BlockRef) : M T (list Z) :=
  match data_ r with None => stuck | Some p => peek p end.
Definition ref_store (r : BlockRef) (d : list Z) : M T () :=
  match data_ r with None => stuck | Some p => poke p d end.

(** The scope of [auto block = store->acquire(b); if (!block) return e; ...]:
    [body] runs with the reference and leaves it in its final state; the
    destructor runs on every path. *)
Definition with_block {A} (b : Z) (on_null : A) (body : BlockRef → M T (A * BlockRef)) : M T A :=
  r ← acquire b;
  if is_null r then
    _ ← ref_reset r; mret on_null
  else
    '(a, r') ← body r;
    _ ← ref_reset r';
    mret a.
End BlockRef.

(** [NullBlockStore] of include/file_system.hpp: the object without state. *)
Inductive NullBlockStore := NullBlockStore_instance.

#[export] Instance NullBlockStore_IBlockStore : IBlockStore NullBlockStore := {|
  acquire := λ _, mret BlockRef_default;
  write_back := λ _, mret false;
  release := λ _, mret ();
  peek := λ _, stuck;
  poke := λ _ _, stuck;
|}.

(** ** An [IBlockStore *]: virtual calls go to the object pointed to *)

(** The object: a store [T], or the [null_block_store]. *)
Definition StorePtr (T : Type) : Type := (T + NullBlockStore)%type.

Definition on_real {T A} (m : M T A) (n : A) : M (StorePtr T) A := λ p,
  match p with
  | inl s => match m s with Some (a, s') => Some (a, inl s') | None => None end
  | inr o => Some (n, inr o)
  end.
Definition on_real_only {T A} (m : M T A) : M (StorePtr T) A := λ p,
  match p with
  | inl s => match m s with Some (a, s') => Some (a, inl s') | None => None end
  | inr o => None
  end.

#[export] Instance StorePtr_IBlockStore {T} `{IBlockStore T} : IBlockStore (StorePtr T) := {|
  acquire := λ b, on_real (acquire b) BlockRef_default;
  write_back := λ b, on_real (write_back b) false;
  release := λ b, on_real (release b) ();
  peek := λ p, on_real_only (peek p);
  poke := λ p d, on_real_only (poke p d);
|}.

(** ** What a store promises

    [bs_view s b] are the bytes a client sees in block [b]; [bs_ok hs s] that
    the store is consistent and lends out exactly the blocks [hs] (innermost
    first, with multiplicity); [bs_ptr s b p] that [p] points to the bytes of
    the borrowed block [b]. [bs_blocks] is the number of blocks that exist and
    [bs_limit] how many can be borrowed at once. *)
Definition block_ok (d : list Z) : Prop := length d = BSIZE ∧ bytes d.

Lemma filled_ok x : byte_ok x → block_ok (replicate BSIZE x).
Proof. intros Hx. split; [apply length_replicate|by apply bytes_replicate]. Qed.

Class BlockStoreSpec (T : Type) `{IBlockStore T} := {
  bs_blocks : Z;
  bs_limit : nat;
  bs_view : T → Z → list Z;
  bs_ok : list Z → T → Prop;
  bs_ptr : T → Z → nat → Prop;

  bs_view_ok hs s b : bs_ok hs s → 0 <= b < bs_blocks → block_ok (bs_view s b);
  bs_held hs s b : bs_ok hs s → b ∈ hs → 0 <= b < bs_blocks;

  (** Borrowing a block succeeds while few are borrowed, changes no contents
      and moves no borrowed block. *)
  bs_acquire hs s b :
    bs_ok hs s → 0 <= b < bs_blocks → (length hs < bs_limit)%nat →
    wp (acquire b) s (λ r s',
      ∃ p, r = mkBlockRef b true (Some p) ∧ bs_ok (b :: hs) s' ∧ bs_ptr s' b p ∧
        (∀ c, 0 <= c < bs_blocks → bs_view s' c = bs_view s c) ∧
        (∀ c q, c ∈ hs → bs_ptr s c q → bs_ptr s' c q));

  (** The data pointer shows the contents. *)
  bs_peek hs s b p :
    bs_ok hs s → b ∈ hs → bs_ptr s b p →
    wp (peek p) s (λ d s', d = bs_view s b ∧ s' = s);

  (** Overwriting the bytes of a borrowed block and writing it back changes
      that block, and no other. *)
  bs_poke_write_back hs s b p d :
    bs_ok hs s → b ∈ hs → bs_ptr s b p → block_ok d →
    wp (_ ← poke p d; write_back b) s (λ ok s',
      ok = true ∧ bs_ok hs s' ∧
      (∀ c, 0 <= c < bs_blocks → bs_view s' c = if decide (c = b) then d else bs_view s c) ∧
      (∀ c q, c ∈ hs → bs_ptr s c q → bs_ptr s' c q));

  (** Giving back the innermost borrowed block changes no contents. *)
  bs_release hs s b :
    bs_ok (b :: hs) s →
    wp (release b) s (λ _ s',
      bs_ok hs s' ∧
      (∀ c, 0 <= c < bs_blocks → bs_view s' c = bs_view s c) ∧
      (∀ c q, c ∈ hs → bs_ptr s c q → bs_ptr s' c q));
}.

(** A pointer to a store keeps what the store promises. *)
#[refine] Definition StorePtr_spec {T} `{HT : IBlockStore T} (ST : BlockStoreSpec T) :
    BlockStoreSpec (StorePtr T) := {|
  bs_blocks := bs_blocks;
  bs_limit := bs_limit;
  bs_view p b := match p with inl s => bs_view s b | inr _ => [] end;
  bs_ok hs p := match p with inl s => bs_ok hs s | inr _ => False end;
  bs_ptr p b q := match p with inl s => bs_ptr s b q | inr _ => False end;
|}.
Proof.
  - intros hs [s|?] b Hok; [by apply (bs_view_ok hs)|done].
  - intros hs [s|?] b Hok; [by apply (bs_held hs s)|done].
  - intros hs [s|?] b Hok Hb Hlt; [|done].
    destruct (bs_acquire hs s b Hok Hb Hlt) as (r & s' & Hrun & HQ).
    apply (wp_intro _ _ _ r (inl s')); [cbn; by rewrite Hrun|exact HQ].
  - intros hs [s|?] b p Hok Hb Hp; [|done].
    destruct (bs_peek hs s b p Hok Hb Hp) as (d & s' & Hrun & -> & ->).
    apply (wp_intro _ _ _ (bs_view s b) (inl s)); [cbn; by rewrite Hrun|done].
  - intros hs [s|?] b p d Hok Hb Hp Hd; [|done].
    destruct (bs_poke_write_back hs s b p d Hok Hb Hp Hd) as (ok & s' & Hrun & HQ).
    apply (wp_intro _ _ _ ok (inl s')); [|exact HQ]. unfold mbind, M_bind in *.
    cbn [poke write_back StorePtr_IBlockStore]. unfold on_real, on_real_only.
    destruct (poke p d s) as [[u s1]|]; [|done]. by rewrite Hrun.
  - intros hs [s|?] b Hok; [|done].
    destruct (bs_release hs s b Hok) as (u & s' & Hrun & HQ).
    apply (wp_intro _ _ _ u (inl s')); [cbn; by rewrite Hrun|exact HQ].
Defined.

(** ** The reference store: an array of blocks in memory

    The simplest object that keeps the promises: every block is always there.
    The witnesses of the file system theorems run on it. *)
Record RamStore := mkRamStore { ram_blocks : list (list Z) }.

Definition ram_peek (p : nat) : M RamStore (list Z) :=
  s ← get; defined (ram_blocks s !! p).
Definition ram_poke (p : nat) (d : list Z) : M RamStore () :=
  modify (λ s, mkRamStore (<[p := d]> (ram_blocks s))).

#[export] Instance RamStore_IBlockStore : IBlockStore RamStore := {|
  acquire := λ b, mret (mkBlockRef b true (Some (Z.to_nat b)));
  write_back := λ _, mret true;
  release := λ _, mret ();
  peek := ram_peek;
  poke := ram_poke;
|}.

Definition ram_view (s : RamStore) (b : Z) : list Z := nth (Z.to_nat b) (ram_blocks s) [].

(** [n] zeroed blocks. *)
Definition ram_zero (n : nat) : RamStore := mkRamStore (replicate n (replicate BSIZE 0)).

Section RamStore.
Context (n : nat).

Definition ram_ok (hs : list Z) (s : RamStore) : Prop :=
  length (ram_blocks s) = n ∧ Forall block_ok (ram_blocks s) ∧
  Forall (λ b, 0 <= b < Z.of_nat n) hs.

Lemma ram_view_lookup hs s b :
  ram_ok hs s → 0 <= b < Z.of_nat n → ram_blocks s !! Z.to_nat b = Some (ram_view s b).
Proof.
  intros (Hlen & _ & _) Hb. unfold ram_view. rewrite nth_lookup.
  destruct (lookup_lt_is_Some_2 (ram_blocks s) (Z.to_nat b)) as [d Hd]; [lia|].
  by rewrite Hd.
Qed.

Lemma ram_view_ok hs s b : ram_ok hs s → 0 <= b < Z.of_nat n → block_ok (ram_view s b).
Proof.
  intros Hok Hb. pose proof (ram_view_lookup _ _ _ Hok Hb) as Hl.
  destruct Hok as (_ & Hall & _). by eapply Forall_lookup_1.
Qed.

Lemma ram_zero_ok : ram_ok [] (ram_zero n).
Proof.
  split; [apply length_replicate|]. split; [|constructor].
  apply Forall_replicate. split; [apply length_replicate|].
  apply bytes_replicate. done.
Qed.

(** Any array of [n] blocks is a store with [n] blocks. *)
#[refine] Definition RamStore_spec : BlockStoreSpec RamStore := {|
  bs_blocks := Z.of_nat n;
  bs_limit := 16;
  bs_view := ram_view;
  bs_ok := ram_ok;
  bs_ptr := λ _ b p, p = Z.to_nat b;
|}.
Proof.
  - exact ram_view_ok.
  - intros hs s b (_ & _ & Hhs) Hb. by eapply Forall_elem in Hhs.
  - intros hs s b (Hlen & Hall & Hhs) Hb _. simpl. wp_steps.
    exists (Z.to_nat b). repeat split; auto.
  - intros hs s b p Hok Hb ->. unfold peek, RamStore_IBlockStore, ram_peek. wp_steps.
    eapply wp_defined; [|done]. eapply ram_view_lookup; [done|].
    destruct Hok as (_ & _ & Hhs). by eapply Forall_elem in Hhs.
  - intros hs s b p d (Hlen & Hall & Hhs) Hb -> Hd. simpl. unfold ram_poke. wp_steps.
    assert (0 <= b < Z.of_nat n) by (by eapply Forall_elem in Hhs).
    repeat split; simpl; auto.
    + by rewrite length_insert.
    + by apply Forall_insert.
    + intros c Hc. unfold ram_view; simpl. rewrite !nth_lookup.
      case_decide as E; [subst|rewrite list_lookup_insert_ne by lia; done].
      rewrite list_lookup_insert_eq by lia. done.
  - intros hs s b (Hlen & Hall & Hhs). simpl. wp_steps.
    apply Forall_cons in Hhs as [? ?]. repeat split; auto.
Defined.
End RamStore.
