(* ===== verification/BufferCache.v ===== *)
(** * The buffer cache (include/buffer_cache.hpp, include/buffer_cache.cpp)

    Thirty buffers of one block each, threaded on a circular doubly linked list
    in order of last use. The list is modelled with its pointers; the proofs
    relate it to the list of buffer indices from most to least recently used. *)
From S2P Require Import Prelude BlockStore.

Definition BLOCK_SIZE : Z := 512.
Definition NBUF : Z := 30.

(** A [Buffer *]: nullptr, [&head] or [&buffers[i]]. *)
Inductive BufPtr := Null | Head | Buf (i : nat).

#[export] Instance BufPtr_eq_dec : EqDecision BufPtr.
Proof. solve_decision. Defined.

Record Buffer := mkBuffer {
  block_number : Z;
  valid : bool;
  dirty : bool;
  refcnt : Z;
  prev : BufPtr;
  next : BufPtr;
  data : list Z;
}.

(** Assignments to the fields of a buffer. *)
Definition set_block_number v b := mkBuffer v (valid b) (dirty b) (refcnt b) (prev b) (next b) (data b).
Definition set_valid v b := mkBuffer (block_number b) v (dirty b) (refcnt b) (prev b) (next b) (data b).
Definition set_dirty v b := mkBuffer (block_number b) (valid b) v (refcnt b) (prev b) (next b) (data b).
Definition set_refcnt v b := mkBuffer (block_number b) (valid b) (dirty b) v (prev b) (next b) (data b).
Definition set_prev v b := mkBuffer (block_number b) (valid b) (dirty b) (refcnt b) v (next b) (data b).
Definition set_next v b := mkBuffer (block_number b) (valid b) (dirty b) (refcnt b) (prev b) v (data b).
Definition set_data v b := mkBuffer (block_number b) (valid b) (dirty b) (refcnt b) (prev b) (next b) v.

Record Statistics := mkStatistics { hits : Z; misses : Z; evictions : Z; writebacks : Z }.

(** The counters are [uint32_t]. *)
Definition count_hit s := mkStatistics (u32 (hits s + 1)) (misses s) (evictions s) (writebacks s).
Definition count_miss s := mkStatistics (hits s) (u32 (misses s + 1)) (evictions s) (writebacks s).
Definition count_eviction s := mkStatistics (hits s) (misses s) (u32 (evictions s + 1)) (writebacks s).
Definition count_writeback s := mkStatistics (hits s) (misses s) (evictions s) (u32 (writebacks s + 1)).

Section BufferCache.
(** The state of the device behind the two functions. *)
Context {D : Type}.

(** [BlockDevice]: two function pointers, [None] being null. Reading takes
    the old bytes of the destination, and returns whether it succeeded and
    the bytes it leaves there. *)
Record BlockDevice := mkBlockDevice {
  read_block : option (Z → list Z → D → bool * list Z * D);
  write_block : option (Z → list Z → D → bool * D);
}.

(** The static variables of buffer_cache.cpp, and the device. *)
Record Cache := mkCache {
  buffers : list Buffer;
  head : Buffer;
  device : BlockDevice;
  initialized : bool;
  stats : Statistics;
  disk : D;
}.

Definition set_buffers v c := mkCache v (head c) (device c) (initialized c) (stats c) (disk c).
Definition set_head v c := mkCache (buffers c) v (device c) (initialized c) (stats c) (disk c).
Definition set_device v c := mkCache (buffers c) (head c) v (initialized c) (stats c) (disk c).
Definition set_initialized v c := mkCache (buffers c) (head c) (device c) v (stats c) (disk c).
Definition set_stats v c := mkCache (buffers c) (head c) (device c) (initialized c) v (disk c).
Definition set_disk v c := mkCache (buffers c) (head c) (device c) (initialized c) (stats c) v.

Definition zero_buffer : Buffer := mkBuffer 0 false false 0 Null Null (replicate BSIZE 0).

(** The state after static initialisation: [head] points to itself. *)
Definition initial_cache (d : D) : Cache :=
  mkCache (replicate 30 zero_buffer)
    (mkBuffer 0 false false 0 Head Head (replicate BSIZE 0))
    (mkBlockDevice None None) false (mkStatistics 0 0 0 0) d.

(** ** Memory access through [Buffer *] *)
Definition lookup_node (c : Cache) (p : BufPtr) : option Buffer :=
  match p with
  | Null => None
  | Head => Some (head c)
  | Buf i => buffers c !! i
  end.

Definition insert_node (p : BufPtr) (b : Buffer) (c : Cache) : Cache :=
  match p with
  | Null => c
  | Head => set_head b c
  | Buf i => set_buffers (<[i := b]> (buffers c)) c
  end.

(** [*p], stuck on a null pointer. *)
Definition deref (p : BufPtr) : M Cache Buffer :=
  c ← get; defined (lookup_node c p).

(** [p->field = v], given as the function that assigns the field. *)
Definition assign (p : BufPtr) (f : Buffer → Buffer) : M Cache () :=
  b ← deref p; modify (insert_node p (f b)).

(** ** The anonymous namespace *)
Definition unlink (buffer : BufPtr) : M Cache () :=
  b ← deref buffer;
  _ ← assign (prev b) (set_next (next b));
  b ← deref buffer;
  assign (next b) (set_prev (prev b)).

Definition link_as_most_recent (buffer : BufPtr) : M Cache () :=
  h ← deref Head;
  _ ← assign buffer (set_next (next h));
  _ ← assign buffer (set_prev Head);
  h ← deref Head;
  _ ← assign (next h) (set_prev buffer);
  assign Head (set_next buffer).

(** [device.write_block(n, data)]; calling a null pointer is stuck. *)
Definition device_write (n : Z) (d : list Z) : M Cache bool :=
  c ← get;
  f ← defined (write_block (device c));
  let '(ok, dk) := f n d (disk c) in
  _ ← put (set_disk dk c);
  mret ok.

(** [device.read_block(n, buffer->data.data())] *)
Definition device_read (n : Z) (buffer : BufPtr) : M Cache bool :=
  b ← deref buffer;
  c ← get;
  f ← defined (read_block (device c));
  let '(ok, d, dk) := f n (data b) (disk c) in
  _ ← put (set_disk dk c);
  _ ← assign buffer (set_data d);
  mret ok.

Definition write_back_buffer (buffer : BufPtr) : M Cache bool :=
  b ← deref buffer;
  ok ← device_write (block_number b) (data b);
  if negb ok then mret false
  else
    _ ← assign buffer (set_dirty false);
    _ ← modify (λ c, set_stats (count_writeback (stats c)) c);
    mret true.

(** The loop of [lookup], from the node [p] on. *)
Fixpoint lookup_loop (fuel : nat) (n : Z) (p : BufPtr) : M Cache BufPtr :=
  match fuel with
  | O => stuck
  | S fuel =>
      if decide (p = Head) then mret Null
      else
        b ← deref p;
        if valid b && (block_number b =? n) then mret p
        else lookup_loop fuel n (next b)
  end.

(** One step more than there are buffers reaches [head] again. *)
Definition list_fuel : nat := 31.

Definition lookup (n : Z) : M Cache BufPtr :=
  h ← deref Head; lookup_loop list_fuel n (next h).

(** [refcnt++] on an [int]: stuck on overflow. *)
Definition increment_refcnt (p : BufPtr) : M Cache () :=
  b ← deref p;
  if refcnt b =? INT_MAX then stuck else assign p (set_refcnt (refcnt b + 1)).

(** The second loop of [find_cached]: from the node [p] towards the most
    recently used buffers. *)
Fixpoint recycle_loop (fuel : nat) (n : Z) (p : BufPtr) : M Cache BufPtr :=
  match fuel with
  | O => stuck
  | S fuel =>
      if decide (p = Head) then mret Null
      else
        b ← deref p;
        if negb (refcnt b =? 0) then recycle_loop fuel n (prev b)
        else
          ok ← (if dirty b then write_back_buffer p else mret true);
          if negb ok then mret Null
          else
            b ← deref p;
            _ ← (if valid b then modify (λ c, set_stats (count_eviction (stats c)) c) else mret ());
            _ ← assign p (set_block_number n);
            _ ← assign p (set_valid false);
            _ ← assign p (set_dirty false);
            _ ← assign p (set_refcnt 1);
            mret p
  end.

Definition find_cached (n : Z) : M Cache BufPtr :=
  cached ← lookup n;
  match cached with
  | Null =>
      h ← deref Head;
      recycle_loop list_fuel n (prev h)
  | _ =>
      _ ← increment_refcnt cached;
      mret cached
  end.

(** ** namespace BufferCache *)

(** The loop of [initialize] over the buffers from index [i] on. *)
Fixpoint initialize_loop (count i : nat) : M Cache () :=
  match count with
  | O => mret ()
  | S count =>
      _ ← assign (Buf i) (set_block_number 0);
      _ ← assign (Buf i) (set_valid false);
      _ ← assign (Buf i) (set_dirty false);
      _ ← assign (Buf i) (set_refcnt 0);
      _ ← link_as_most_recent (Buf i);
      initialize_loop count (S i)
  end.

Definition initialize (block_device : BlockDevice) : M Cache bool :=
  c ← get;
  if initialized c then mret false
  else
    match read_block block_device, write_block block_device with
    | Some _, Some _ =>
        _ ← modify (set_device block_device);
        _ ← assign Head (set_next Head);
        _ ← assign Head (set_prev Head);
        _ ← initialize_loop (Z.to_nat NBUF) 0;
        _ ← modify (set_stats (mkStatistics 0 0 0 0));
        _ ← modify (set_initialized true);
        mret true
    | _, _ => mret false
    end.

Definition cache_release (buffer : BufPtr) : M Cache () :=
  match buffer with
  | Null => mret ()
  | _ =>
      b ← deref buffer;
      if refcnt b <=? 0 then mret ()
      else
        _ ← assign buffer (set_refcnt (refcnt b - 1));
        if refcnt b - 1 >? 0 then mret ()
        else
          _ ← unlink buffer;
          link_as_most_recent buffer
  end.

Definition read (n : Z) : M Cache BufPtr :=
  buffer ← find_cached n;
  match buffer with
  | Null => mret Null
  | _ =>
      b ← deref buffer;
      if valid b then
        _ ← modify (λ c, set_stats (count_hit (stats c)) c);
        mret buffer
      else
        _ ← modify (λ c, set_stats (count_miss (stats c)) c);
        ok ← device_read n buffer;
        if negb ok then
          _ ← cache_release buffer;
          mret Null
        else
          _ ← assign buffer (set_valid true);
          mret buffer
  end.

Definition mark_dirty (buffer : BufPtr) : M Cache () :=
  match buffer with
  | Null => mret ()
  | _ => assign buffer (set_dirty true)
  end.

Definition write (buffer : BufPtr) : M Cache bool :=
  match buffer with
  | Null => mret false
  | _ =>
      b ← deref buffer;
      if negb (valid b) then mret false else write_back_buffer buffer
  end.

Fixpoint flush_loop (count i : nat) (all_succeeded : bool) : M Cache bool :=
  match count with
  | O => mret all_succeeded
  | S count =>
      b ← deref (Buf i);
      ok ← (if valid b && dirty b then write_back_buffer (Buf i) else mret true);
      flush_loop count (S i) (if negb ok then false else all_succeeded)
  end.

Definition flush : M Cache bool := flush_loop (Z.to_nat NBUF) 0 true.

Definition statistics : M Cache Statistics := gets stats.

(** ** [class BufferRef]: the pointer [buffer_] it owns *)

(** [BufferRef::reset], also the destructor: the pointer it is left with. *)
Definition BufferRef_reset (this : BufPtr) : M Cache BufPtr :=
  match this with
  | Null => mret Null
  | _ => _ ← cache_release this; mret Null
  end.

(** The move constructor: the new object, and [other] as it is left. *)
Definition BufferRef_move (other : BufPtr) : BufPtr * BufPtr := (other, Null).

(** The move assignment of two distinct objects. *)
Definition BufferRef_move_assign (this other : BufPtr) : M Cache (BufPtr * BufPtr) :=
  _ ← BufferRef_reset this; mret (BufferRef_move other).

Definition BufferRef_bool (this : BufPtr) : bool := bool_decide (this ≠ Null).
Definition BufferRef_mark_dirty (this : BufPtr) : M Cache () := mark_dirty this.
Definition BufferRef_write (this : BufPtr) : M Cache bool := write this.

(** [BufferCache::acquire] *)
Definition acquire_ref (n : Z) : M Cache BufPtr := read n.

(** ** [class BlockStore final : public IBlockStore] *)
Definition BlockStore_acquire (n : Z) : M Cache BlockRef :=
  buffer ← read n;
  match buffer with
  | Buf i => mret (mkBlockRef n true (Some i))
  | _ => mret (mkBlockRef n true None)
  end.

Definition BlockStore_write_back (n : Z) : M Cache bool :=
  buffer ← lookup n; write buffer.

Definition BlockStore_release (n : Z) : M Cache () :=
  buffer ← lookup n; cache_release buffer.

(** The bytes behind [buffer->data.data()]. *)
Definition peek_data (i : nat) : M Cache (list Z) :=
  b ← deref (Buf i); mret (data b).
Definition poke_data (i : nat) (d : list Z) : M Cache () :=
  assign (Buf i) (set_data d).

#[export] Instance BlockStore_IBlockStore : IBlockStore Cache := {|
  BlockStore.acquire := BlockStore_acquire;
  BlockStore.write_back := BlockStore_write_back;
  BlockStore.release := BlockStore_release;
  peek := peek_data;
  poke := poke_data;
|}.
End BufferCache.
Arguments BlockDevice : clear implicits.
Arguments Cache : clear implicits.
