(* ===== verification/BufferCacheLinks.v ===== *)
(** * The LRU list of the buffer cache

    The pointer manipulations of include/buffer_cache.cpp seen as operations on
    the sequence of buffers from most to least recently used ([lru]). *)
From S2P Require Import Prelude BlockStore BufferCache.

(** ** Circular doubly linked lists

    Nodes of any type, linked by a function [n] of next pointers and a function
    [p] of previous pointers: what taking a node out and putting it behind the
    head do to the sequence of nodes. *)
Section DList.
Context {N : Type} `{EqDecision N}.
Implicit Types (n p : N → N) (x y z h i : N) (l : list N).

(** [seg n p x l y]: following the next pointers [n] from [x] visits the nodes
    [l] and arrives at [y], and the previous pointers [p] lead back. *)
Fixpoint seg (n p : N → N) (x : N) (l : list N) (y : N) : Prop :=
  match l with
  | [] => n x = y ∧ p y = x
  | a :: l => n x = a ∧ p a = x ∧ seg n p a l y
  end.

Lemma seg_app n p x l1 a l2 y :
  seg n p x (l1 ++ a :: l2) y ↔ seg n p x l1 a ∧ seg n p a l2 y.
Proof. revert x. induction l1 as [|b l1 IH]; intros x; simpl; [tauto|]. rewrite IH. tauto. Qed.

Lemma seg_frame n p n' p' x l y :
  seg n p x l y → (∀ q, q ∈ x :: l → n' q = n q) → (∀ q, q ∈ l ++ [y] → p' q = p q) →
  seg n' p' x l y.
Proof.
  revert x. induction l as [|a l IH]; intros x; simpl.
  - intros [Hn Hp] Hn' Hp'. rewrite Hn', Hp' by set_solver. done.
  - intros (Hn & Hp & Hs) Hn' Hp'. rewrite Hn', Hp' by set_solver.
    split; [done|]. split; [done|]. apply IH; set_solver.
Qed.

(** Read backwards, the segment follows the previous pointers. *)
Lemma seg_rev n p x l y : seg n p x l y → seg p n y (reverse l) x.
Proof.
  revert x. induction l as [|a l IH]; intros x; simpl; [tauto|].
  intros (Hn & Hp & Hs). rewrite reverse_cons. apply seg_app. split; [by apply IH|done].
Qed.

Lemma seg_last n p x l y : seg n p x l y → p y ∈ x :: l ∧ n (p y) = y.
Proof.
  revert x. induction l as [|a l IH]; intros x; simpl.
  - intros [Hn ->]. split; [left|done].
  - intros (_ & _ & [Hin Hy]%IH). split; [by right|done].
Qed.

(** The end of a segment redirected from [y] to [z]. *)
Lemma seg_redirect_end n p n' p' x l y z :
  seg n p x l y → NoDup (x :: l) →
  (∀ q, q ∈ x :: l → q ≠ p y → n' q = n q) → n' (p y) = z →
  (∀ q, q ∈ l → p' q = p q) → p' z = p y →
  seg n' p' x l z.
Proof.
  revert x. induction l as [|a l IH]; intros x; simpl.
  - intros [Hn Hp] _ _ <- _ ->. by rewrite Hp.
  - intros (Hn & Hp & Hs) [Hx Hnd]%NoDup_cons Hn' Hz Hp' Hpz.
    pose proof (seg_last _ _ _ _ _ Hs) as [Hin _].
    rewrite Hn', Hp' by first [left | intros ->; done].
    split; [done|]. split; [done|].
    apply IH; auto; intros q Hq; [intros ?; apply Hn'; [by right|done]|].
    apply Hp'. by right.
Qed.

(** The start of a segment redirected from [y] to [z]. *)
Lemma seg_redirect_start n p n' p' y l h z :
  seg n p y l h →
  n' z = n y → p' (n y) = z → (∀ q, q ∈ l → n' q = n q) →
  (∀ q, q ∈ l ++ [h] → q ≠ n y → p' q = p q) → NoDup (l ++ [h]) →
  seg n' p' z l h.
Proof.
  destruct l as [|a l]; simpl.
  - intros [Hn Hp] -> Hp' _ _ _. by rewrite <- Hn.
  - intros (Hn & Hp & Hs) -> Hpz Hn' Hp' [Ha Hnd]%NoDup_cons. rewrite Hn in *.
    split; [done|]. split; [done|]. eapply seg_frame; [exact Hs|done|].
    intros q Hq. apply Hp'; [by right|]. intros ->. done.
Qed.

(** Taking the node [i] out of a circular list. *)
Lemma seg_unlink n p n' p' h l1 i l2 :
  seg n p h (l1 ++ i :: l2) h → NoDup (h :: l1 ++ i :: l2) →
  (∀ q, n' q = if decide (q = p i) then n i else n q) →
  (∀ q, p' q = if decide (q = n i) then p i else p q) →
  seg n' p' h (l1 ++ l2) h.
Proof.
  intros [H1 H2]%seg_app Hnd Hn' Hp'.
  pose proof (seg_last _ _ _ _ _ H1) as [Hpi _].
  apply NoDup_cons in Hnd as [Hh (Hnd1 & Hdisj & [Hi Hnd2]%NoDup_cons)%NoDup_app].
  assert (NoDup (h :: l1)) by (apply NoDup_cons; set_solver).
  assert (∀ q, q ∈ l1 → q ≠ n i) as Hni_l1.
  { intros q Hq ->. destruct l2 as [|z l2]; destruct H2 as [Hni _]; rewrite Hni in Hq.
    - apply Hh, elem_of_app. by left.
    - apply (Hdisj z Hq). right. left. }
  assert (seg n' p' h l1 (n i)) as Hleft.
  { eapply seg_redirect_end; [exact H1|done|..].
    - intros q _ Hq. by rewrite Hn', decide_False.
    - by rewrite Hn', decide_True.
    - intros q Hq. rewrite Hp', decide_False by auto. done.
    - by rewrite Hp', decide_True. }
  destruct l2 as [|z l2]; simpl in H2.
  - destruct H2 as [Hni _]. rewrite Hni in Hleft. by rewrite app_nil_r.
  - destruct H2 as (Hni & Hpz & H2). apply seg_app. rewrite Hni in *. split; [done|].
    apply NoDup_cons in Hnd2 as [Hz Hnd2].
    eapply seg_frame; [exact H2| |]; intros q Hq.
    + rewrite Hn', decide_False; [done|]. set_solver.
    + rewrite Hp', decide_False; [done|]. set_solver.
Qed.

(** Putting the node [i] right behind the head. *)
Lemma seg_link n p n' p' h i l :
  seg n p h l h → NoDup (h :: i :: l) →
  (∀ q, n' q = if decide (q = h) then i else if decide (q = i) then n h else n q) →
  (∀ q, p' q = if decide (q = n h) then i else if decide (q = i) then h else p q) →
  seg n' p' h (i :: l) h.
Proof.
  intros H [Hh [Hi Hnd]%NoDup_cons]%NoDup_cons Hn' Hp'.
  apply not_elem_of_cons in Hh as [Hhi Hhl].
  assert (n h ≠ i) as Hne.
  { destruct l as [|a l]; destruct H as [Hn _]; rewrite Hn; [done|].
    intros ->. apply Hi. left. }
  split; [by rewrite Hn', decide_True|].
  split; [by rewrite Hp', decide_False, decide_True|].
  eapply seg_redirect_start; [exact H|..].
  - by rewrite Hn', decide_False, decide_True.
  - by rewrite Hp', decide_True.
  - intros q Hq. rewrite Hn', !decide_False; [done|set_solver..].
  - intros q Hq Hq'. rewrite Hp', !decide_False; [done|set_solver..].
  - apply NoDup_app. split; [done|]. split; [|apply NoDup_singleton]. set_solver.
Qed.
End DList.

(** ** The pointers of the buffers *)

Section links.
Context {D : Type}.
Implicit Types (c : Cache D) (p q : BufPtr) (order : list nat).

(** What a buffer holds apart from its links. *)
Definition strip (b : Buffer) : Buffer := set_prev Null (set_next Null b).
Definition payloads c : list Buffer := strip <$> buffers c.

Definition nxt c p : BufPtr := match lookup_node c p with Some b => next b | None => Null end.
Definition prv c p : BufPtr := match lookup_node c p with Some b => prev b | None => Null end.

(** The state apart from the buffers and the list. *)
Definition same_rest c c' : Prop :=
  device c' = device c ∧ initialized c' = initialized c ∧ stats c' = stats c ∧ disk c' = disk c.

(** [c] and [c'] differ at most in their links. *)
Definition same_payloads c c' : Prop := payloads c' = payloads c ∧ same_rest c c'.

(** [order] lists the buffers from most to least recently used. *)
Definition lru c order : Prop :=
  length (buffers c) = 30%nat ∧ order ≡ₚ seq 0 30 ∧
  seg (nxt c) (prv c) Head (Buf <$> order) Head.

#[export] Instance same_payloads_preorder : PreOrder same_payloads.
Proof.
  split.
  - intros c. by repeat split.
  - intros c1 c2 c3 (H1 & H2 & H3 & H4 & H5) (H6 & H7 & H8 & H9 & H10).
    repeat split; congruence.
Qed.

Lemma payloads_lookup c i b : buffers c !! i = Some b → payloads c !! i = Some (strip b).
Proof. intros H. unfold payloads. by rewrite list_lookup_fmap, H. Qed.

Lemma payloads_lookup_inv c i b :
  payloads c !! i = Some b → ∃ b0, buffers c !! i = Some b0 ∧ b = strip b0.
Proof. intros (b0 & -> & H)%list_lookup_fmap_Some_1. eauto. Qed.

Lemma length_payloads c : length (payloads c) = length (buffers c).
Proof. apply length_fmap. Qed.

Lemma lru_elem c order i : lru c order → i ∈ order ↔ (i < 30)%nat.
Proof. intros (_ & Hp & _). rewrite Hp, elem_of_seq. lia. Qed.

Lemma lru_NoDup c order : lru c order → NoDup (Head :: (Buf <$> order)).
Proof.
  intros (_ & Hp & _). apply NoDup_cons. split.
  - intros (i & Hi & _)%list_elem_of_fmap. done.
  - apply NoDup_fmap_2; [by intros ?? [=]|]. rewrite Hp. apply NoDup_seq.
Qed.

(** Every node of the list can be dereferenced. *)
Lemma lru_defined c order q :
  lru c order → q ∈ Head :: (Buf <$> order) → is_Some (lookup_node c q).
Proof.
  intros Hl [->|(i & -> & Hi)%list_elem_of_fmap]%elem_of_cons; [by eexists|].
  simpl. apply lookup_lt_is_Some_2. rewrite (lru_elem _ _ _ Hl) in Hi.
  destruct Hl as (-> & _). done.
Qed.

(** ** Assignments through pointers *)
Lemma lookup_node_insert c p q b :
  is_Some (lookup_node c p) →
  lookup_node (insert_node p b c) q = if decide (q = p) then Some b else lookup_node c q.
Proof.
  intros Hp. destruct p as [| |i]; simpl in Hp.
  - by apply is_Some_None in Hp.
  - by destruct q.
  - destruct q as [| |j]; [done|done|]. simpl lookup_node.
    destruct (decide (i = j)) as [->|Hij].
    + rewrite decide_True, list_lookup_insert_eq; [done| |done].
      by apply lookup_lt_is_Some_1.
    + rewrite decide_False, list_lookup_insert_ne by naive_solver. done.
Qed.

Lemma wp_deref c p b (Q : Buffer → Cache D → Prop) :
  lookup_node c p = Some b → Q b c → wp (deref p) c Q.
Proof. intros Hb HQ. unfold deref. wp_steps. exact HQ. Qed.

Lemma wp_assign c p f b (Q : () → Cache D → Prop) :
  lookup_node c p = Some b → Q () (insert_node p (f b) c) → wp (assign p f) c Q.
Proof.
  intros Hb HQ. unfold assign. wp_step. eapply wp_deref; [exact Hb|]. wp_steps. exact HQ.
Qed.

Lemma insert_node_twice c p b b' : insert_node p b' (insert_node p b c) = insert_node p b' c.
Proof. destruct p as [| |i]; [done|done|]. unfold insert_node; simpl. by rewrite list_insert_insert_eq. Qed.

(** A second assignment through the same pointer. *)
Lemma wp_assign_again c p f b (Q : () → Cache D → Prop) :
  is_Some (lookup_node c p) → Q () (insert_node p (f b) c) →
  wp (assign p f) (insert_node p b c) Q.
Proof.
  intros Hp HQ. eapply wp_assign; [by rewrite lookup_node_insert, decide_True by done|].
  by rewrite insert_node_twice.
Qed.

Lemma insert_node_same_rest c p b : same_rest c (insert_node p b c).
Proof. by destruct p. Qed.

Lemma payloads_insert_node c i b :
  payloads (insert_node (Buf i) b c) = <[i := strip b]> (payloads c).
Proof. unfold payloads. simpl. apply list_fmap_insert. Qed.

Lemma insert_node_same_payloads c p b b' :
  lookup_node c p = Some b → strip b' = strip b → same_payloads c (insert_node p b' c).
Proof.
  intros Hb Hs. split; [|apply insert_node_same_rest].
  destruct p as [| |i]; [done|done|]. rewrite payloads_insert_node, Hs.
  apply list_insert_id, payloads_lookup, Hb.
Qed.

(** Assigning a next pointer changes that pointer only. *)
Lemma wp_assign_next c p v (Q : () → Cache D → Prop) :
  is_Some (lookup_node c p) →
  (∀ c', same_payloads c c' →
    (∀ q, nxt c' q = if decide (q = p) then v else nxt c q) →
    (∀ q, prv c' q = prv c q) →
    (∀ q, is_Some (lookup_node c' q) ↔ is_Some (lookup_node c q)) → Q () c') →
  wp (assign p (set_next v)) c Q.
Proof.
  intros Hp HQ. pose proof Hp as [b Hb].
  eapply wp_assign; [exact Hb|]. apply HQ.
  - by eapply insert_node_same_payloads.
  - intros q. unfold nxt. rewrite lookup_node_insert by done. by case_decide.
  - intros q. unfold prv. rewrite lookup_node_insert by done. case_decide; [subst|done].
    by rewrite Hb.
  - intros q. rewrite lookup_node_insert by done. case_decide; [subst|done]. by split.
Qed.

(** Assigning a previous pointer changes that pointer only. *)
Lemma wp_assign_prev c p v (Q : () → Cache D → Prop) :
  is_Some (lookup_node c p) →
  (∀ c', same_payloads c c' →
    (∀ q, prv c' q = if decide (q = p) then v else prv c q) →
    (∀ q, nxt c' q = nxt c q) →
    (∀ q, is_Some (lookup_node c' q) ↔ is_Some (lookup_node c q)) → Q () c') →
  wp (assign p (set_prev v)) c Q.
Proof.
  intros Hp HQ. pose proof Hp as [b Hb].
  eapply wp_assign; [exact Hb|]. apply HQ.
  - by eapply insert_node_same_payloads.
  - intros q. unfold prv. rewrite lookup_node_insert by done. by case_decide.
  - intros q. unfold nxt. rewrite lookup_node_insert by done. case_decide; [subst|done].
    by rewrite Hb.
  - intros q. rewrite lookup_node_insert by done. case_decide; [subst|done]. by split.
Qed.

(** ** unlink and link_as_most_recent *)

Lemma wp_unlink c l1 i l2 (Q : () → Cache D → Prop) :
  lru c (l1 ++ i :: l2) →
  (∀ c', same_payloads c c' → is_Some (lookup_node c' (Buf i)) →
    (∀ q, is_Some (lookup_node c' q) ↔ is_Some (lookup_node c q)) →
    seg (nxt c') (prv c') Head (Buf <$> l1 ++ l2) Head → Q () c') →
  wp (unlink (Buf i)) c Q.
Proof.
  intros Hl HQ. pose proof (lru_NoDup _ _ Hl) as Hnd. pose proof Hl as (_ & _ & Hseg).
  rewrite fmap_app, fmap_cons in Hseg, Hnd. pose proof (proj1 (seg_app _ _ _ _ _ _ _) Hseg) as [H1 H2].
  assert (is_Some (lookup_node c (Buf i))) as [b Hb].
  { eapply lru_defined; [exact Hl|]. right. apply list_elem_of_fmap_2, elem_of_app. right. left. }
  assert (prev b = prv c (Buf i)) as Hpb by (unfold prv; by rewrite Hb).
  assert (next b = nxt c (Buf i)) as Hnb by (unfold nxt; by rewrite Hb).
  assert (prv c (Buf i) ≠ Buf i) as Hne.
  { pose proof (seg_last _ _ _ _ _ H1) as [Hin _]. intros E. rewrite E in Hin.
    rewrite app_comm_cons in Hnd. apply NoDup_app in Hnd as (_ & Hd & _).
    apply (Hd _ Hin). left. }
  unfold unlink. wp_step. eapply wp_deref; [exact Hb|]. wp_step. apply wp_assign_next.
  { rewrite Hpb. eapply lru_defined; [exact Hl|].
    pose proof (seg_last _ _ _ _ _ H1) as [Hin _].
    rewrite fmap_app, app_comm_cons. apply elem_of_app. by left. }
  intros c1 Hs1 Hn1 Hp1 Hd1. wp_step.
  assert (is_Some (lookup_node c1 (Buf i))) as [b1 Hb1] by (apply Hd1; by exists b).
  assert (prev b1 = prv c1 (Buf i)) as Hpb1 by (unfold prv; by rewrite Hb1).
  assert (next b1 = nxt c1 (Buf i)) as Hnb1 by (unfold nxt; by rewrite Hb1).
  rewrite Hp1 in Hpb1. rewrite Hn1, decide_False in Hnb1 by (rewrite Hpb; auto).
  eapply wp_deref; [exact Hb1|]. apply wp_assign_prev.
  { rewrite Hnb1. apply Hd1. eapply lru_defined; [exact Hl|]. rewrite fmap_app.
    rewrite app_comm_cons, fmap_cons. destruct (Buf <$> l2) as [|z l2']; destruct H2 as [-> _].
    - left.
    - apply elem_of_app. right. right. left. }
  intros c2 Hs2 Hp2 Hn2 Hd2. apply HQ.
  - by etrans.
  - apply Hd2, Hd1. by exists b.
  - intros q. by rewrite Hd2, Hd1.
  - rewrite fmap_app. eapply seg_unlink; [exact Hseg|exact Hnd|..]; intros q.
    + rewrite Hn2, Hn1, Hpb, Hnb. done.
    + rewrite Hp2, Hp1, Hnb1, Hpb1. done.
Qed.

Lemma wp_link c i l (Q : () → Cache D → Prop) :
  seg (nxt c) (prv c) Head (Buf <$> l) Head → NoDup (i :: l) →
  (∀ q, q ∈ Buf i :: (Buf <$> l) → is_Some (lookup_node c q)) →
  (∀ c', same_payloads c c' →
    (∀ q, is_Some (lookup_node c' q) ↔ is_Some (lookup_node c q)) →
    seg (nxt c') (prv c') Head (Buf <$> i :: l) Head → Q () c') →
  wp (link_as_most_recent (Buf i)) c Q.
Proof.
  intros Hseg Hnd Hdef HQ. unfold link_as_most_recent.
  assert (next (head c) = nxt c Head) as Hh by done.
  wp_step. eapply wp_deref; [done|]. wp_step. apply wp_assign_next; [apply Hdef; left|].
  intros c1 Hs1 Hn1 Hp1 Hd1. wp_step. apply wp_assign_prev; [apply Hd1, Hdef; left|].
  intros c2 Hs2 Hp2 Hn2 Hd2. wp_step. eapply wp_deref; [done|]. wp_step.
  assert (next (head c2) = nxt c Head) as Hh2.
  { change (next (head c2)) with (nxt c2 Head). by rewrite Hn2, Hn1, decide_False. }
  apply wp_assign_prev.
  { rewrite Hh2. apply Hd2, Hd1. destruct (Buf <$> l) as [|a l'] eqn:E.
    - destruct Hseg as [-> _]. by eexists.
    - destruct Hseg as [-> _]. apply Hdef. right. left. }
  intros c3 Hs3 Hp3 Hn3 Hd3. apply wp_assign_next; [by eexists|].
  intros c4 Hs4 Hn4 Hp4 Hd4. apply HQ.
  - etrans; [exact Hs1|]. etrans; [exact Hs2|]. by etrans.
  - intros q. by rewrite Hd4, Hd3, Hd2, Hd1.
  - rewrite fmap_cons. eapply (seg_link (nxt c) (prv c)); [exact Hseg|..].
    + apply NoDup_cons. split; [intros [|(j & ? & _)%list_elem_of_fmap]%elem_of_cons; done|].
      rewrite <- fmap_cons. apply NoDup_fmap_2; [by intros ?? [=]|done].
    + intros q. rewrite Hn4, Hn3, Hn2, Hn1, Hh. done.
    + intros q. rewrite Hp4, Hp3, Hp2, Hp1, Hh2. done.
Qed.

(** Together they move a buffer to the front of the list. *)
Lemma wp_move_to_front c l1 i l2 (Q : () → Cache D → Prop) :
  lru c (l1 ++ i :: l2) →
  (∀ c', same_payloads c c' → lru c' (i :: l1 ++ l2) → Q () c') →
  wp (_ ← unlink (Buf i); link_as_most_recent (Buf i)) c Q.
Proof.
  intros Hl HQ. wp_step. eapply wp_unlink; [exact Hl|].
  intros c1 Hs1 Hi1 Hd1 Hseg1. pose proof Hl as (Hlen & Hperm & _).
  assert (i :: l1 ++ l2 ≡ₚ seq 0 30) as Hperm'.
  { rewrite <- Hperm. by rewrite Permutation_middle. }
  eapply wp_link; [exact Hseg1| |..].
  - rewrite Hperm'. apply NoDup_seq.
  - intros q Hq. apply Hd1. eapply lru_defined; [exact Hl|]. rewrite <- fmap_cons in Hq.
    rewrite <- Permutation_middle. by right.
  - intros c2 Hs2 Hd2 Hseg2. apply HQ; [by etrans|]. split; [|done].
    assert (payloads c2 = payloads c) as Hp by (destruct Hs1, Hs2; congruence).
    by rewrite <- length_payloads, Hp, length_payloads.
Qed.

(** ** Following the pointers *)

(** [path f p l]: from [p], the pointers [f] visit the buffers [l] and reach [head]. *)
Fixpoint path (f : BufPtr → BufPtr) (p : BufPtr) (l : list nat) : Prop :=
  match l with
  | [] => p = Head
  | i :: l => p = Buf i ∧ path f (f (Buf i)) l
  end.

Lemma seg_path_next (n p' : BufPtr → BufPtr) x l : seg n p' x (Buf <$> l) Head → path n (n x) l.
Proof.
  revert x. induction l as [|i l IH]; intros x; simpl; [naive_solver|].
  intros (Hn & _ & Hs). split; [done|]. by apply IH.
Qed.

Lemma lru_path_next c order : lru c order → path (nxt c) (nxt c Head) order.
Proof. intros (_ & _ & Hs). by eapply seg_path_next. Qed.

Lemma lru_path_prev c order : lru c order → path (prv c) (prv c Head) (reverse order).
Proof.
  intros (_ & _ & Hs). eapply seg_path_next. rewrite fmap_reverse. by apply seg_rev.
Qed.

(** Modifying what the buffers hold leaves the list as it is. *)
Lemma lru_same_links c c' order :
  length (buffers c') = length (buffers c) →
  (∀ q, nxt c' q = nxt c q) → (∀ q, prv c' q = prv c q) → lru c order → lru c' order.
Proof.
  intros Hlen Hn Hp (H1 & H2 & H3). split; [congruence|]. split; [done|].
  eapply seg_frame; [exact H3|done..].
Qed.
End links.
