(* ===== verification/BufferCacheSpec.v ===== *)
(** * What the buffer cache guarantees

    The invariant of the cache, the contents of the disk as its clients see
    them ([view]), and the specification of every operation; the cache then
    keeps the promises of [BlockStoreSpec]. *)
From S2P Require Import Prelude BlockStore BufferCache BufferCacheLinks.

(** ** What is assumed of the device

    Both functions return when the device is done. A successful read delivers
    the block, a successful write replaces it, and no operation touches another
    block; nothing is said of the block of a failed write. *)
Class DeviceSpec {D : Type} (dev : BlockDevice D) := {
  dev_read : Z → list Z → D → bool * list Z * D;
  dev_write : Z → list Z → D → bool * D;
  dev_content : D → Z → list Z;
  dev_ok : D → Prop;
  dev_read_ptr : read_block dev = Some dev_read;
  dev_write_ptr : write_block dev = Some dev_write;
  dev_content_ok d n : dev_ok d → block_ok (dev_content d n);
  dev_read_spec n buf d ok buf' d' :
    dev_ok d → block_ok buf → dev_read n buf d = (ok, buf', d') →
    dev_ok d' ∧ block_ok buf' ∧ (∀ m, dev_content d' m = dev_content d m) ∧
    (ok = true → buf' = dev_content d n);
  dev_write_spec n buf d ok d' :
    dev_ok d → block_ok buf → dev_write n buf d = (ok, d') →
    dev_ok d' ∧ (∀ m, m ≠ n → dev_content d' m = dev_content d m) ∧
    (ok = true → dev_content d' n = buf);
}.

(** A device whose blocks [0 .. dev_blocks - 1] can always be read and written. *)
Class ReliableDevice {D : Type} (dev : BlockDevice D) `{!DeviceSpec dev} := {
  dev_blocks : Z;
  dev_read_reliable n buf d ok buf' d' :
    dev_ok d → 0 <= n < dev_blocks → dev_read n buf d = (ok, buf', d') → ok = true;
  dev_write_reliable n buf d ok d' :
    dev_ok d → block_ok buf → 0 <= n < dev_blocks → dev_write n buf d = (ok, d') → ok = true;
}.

Section spec.
Context {D : Type} {dev : BlockDevice D} `{!DeviceSpec dev}.
Implicit Types (c : Cache D) (order : list nat) (n m : Z) (i j : nat) (b : Buffer).

(** ** Invariant and abstraction *)

Definition buffer_ok b : Prop :=
  0 <= refcnt b <= INT_MAX ∧ block_ok (data b) ∧ (dirty b = true → valid b = true).

(** Buffer [i] holds block [n]. *)
Definition cached c n i b : Prop :=
  payloads c !! i = Some b ∧ valid b = true ∧ block_number b = n.

Record inv c order : Prop := {
  inv_lru : lru c order;
  inv_buf : ∀ i b, payloads c !! i = Some b → buffer_ok b;
  inv_unique : ∀ n i j bi bj, cached c n i bi → cached c n j bj → i = j;
  inv_clean : ∀ n i b, cached c n i b → refcnt b = 0 → dirty b = false →
    data b = dev_content (disk c) n;
  inv_device : device c = dev;
  inv_disk : dev_ok (disk c);
  inv_initialized : initialized c = true;
}.

(** The buffer that holds block [n], if any. *)
Definition find_block c n : option (nat * Buffer) :=
  list_find (λ b, valid b = true ∧ block_number b = n) (payloads c).

(** The contents of block [n]: the cached ones if there are, else those on
    the device. *)
Definition view c n : list Z :=
  match find_block c n with
  | Some (_, b) => data b
  | None => dev_content (disk c) n
  end.

(** How many references to block [n] are held. *)
Definition refs c n : Z :=
  match find_block c n with
  | Some (_, b) => refcnt b
  | None => 0
  end.

Lemma find_block_Some c n i b : find_block c n = Some (i, b) → cached c n i b.
Proof. intros (? & [? ?] & _)%list_find_Some. done. Qed.

Lemma find_block_None c n : find_block c n = None → ∀ i b, ¬ cached c n i b.
Proof.
  intros H%list_find_None i b (Hi & Hv & Hn). rewrite Forall_lookup in H.
  by apply (H _ _ Hi).
Qed.

Lemma find_block_cached c order n i b :
  inv c order → cached c n i b → find_block c n = Some (i, b).
Proof.
  intros Hinv Hc. destruct (find_block c n) as [[j b']|] eqn:E.
  - apply find_block_Some in E. pose proof (inv_unique _ _ Hinv _ _ _ _ _ E Hc) as ->.
    destruct E as [E _], Hc as [Hc _]. by simplify_eq.
  - by apply find_block_None in Hc.
Qed.

Lemma find_block_uncached c n : (∀ i b, ¬ cached c n i b) → find_block c n = None.
Proof.
  intros H. destruct (find_block c n) as [[j b']|] eqn:E; [|done].
  apply find_block_Some in E. by apply H in E.
Qed.

Lemma cached_dec c n : (∃ i b, cached c n i b) ∨ (∀ i b, ¬ cached c n i b).
Proof.
  destruct (find_block c n) as [[i b]|] eqn:E.
  - left. exists i, b. by apply find_block_Some.
  - right. by apply find_block_None.
Qed.

Lemma inv_lookup c order i : inv c order → (i < 30)%nat → ∃ b, buffers c !! i = Some b.
Proof.
  intros Hinv Hi. apply lookup_lt_is_Some_2. by destruct (inv_lru _ _ Hinv) as (-> & _).
Qed.

Lemma inv_lookup_lt c order i b : inv c order → payloads c !! i = Some b → (i < 30)%nat.
Proof.
  intros Hinv Hb%lookup_lt_Some. rewrite length_payloads in Hb.
  by destruct (inv_lru _ _ Hinv) as (<- & _).
Qed.

(** Buffers and payloads differ in their links only. *)
Lemma cached_buffer c n i b :
  cached c n i b ↔ ∃ b0, buffers c !! i = Some b0 ∧ b = strip b0 ∧
    valid b0 = true ∧ block_number b0 = n.
Proof.
  split.
  - intros ((b0 & Hb & ->)%payloads_lookup_inv & Hv & Hn). eauto 10.
  - intros (b0 & Hb & -> & Hv & Hn). split; [by apply payloads_lookup|done].
Qed.

(** Changing the links only preserves all of this. *)
Lemma same_payloads_find c c' n : same_payloads c c' → find_block c' n = find_block c n.
Proof. intros [H _]. unfold find_block. by rewrite H. Qed.

Lemma same_payloads_view c c' n : same_payloads c c' → view c' n = view c n.
Proof.
  intros H. unfold view. rewrite (same_payloads_find _ _ _ H).
  by destruct H as (_ & _ & _ & _ & ->).
Qed.

Lemma inv_same_payloads c c' order order' :
  inv c order → same_payloads c c' → lru c' order' → inv c' order'.
Proof.
  intros [_ Hbuf Hu Hcl Hdev Hdisk Hinit] (Hp & Hd & Hi & _ & Hk) Hl.
  split; unfold cached in *; rewrite ?Hp, ?Hd, ?Hi, ?Hk; auto.
Qed.

Lemma inv_set_stats c order st : inv c order → inv (set_stats st c) order.
Proof. by intros [? ? ? ? ? ? ?]. Qed.

(** ** One buffer changes *)

(** [c'] is [c] with the payload of buffer [i] replaced by [b'] and another
    disk; the list is the same. *)
Definition updated c i b' c' : Prop :=
  payloads c' = <[i := b']> (payloads c) ∧ (∀ order, lru c order → lru c' order) ∧
  device c' = device c ∧ initialized c' = initialized c.

Lemma updated_lookup c order i b' c' j :
  inv c order → (i < 30)%nat → updated c i b' c' →
  payloads c' !! j = if decide (i = j) then Some b' else payloads c !! j.
Proof.
  intros Hinv Hi [-> _]. case_decide as E; [subst|by apply list_lookup_insert_ne].
  apply list_lookup_insert_eq. rewrite length_payloads.
  by destruct (inv_lru _ _ Hinv) as (-> & _).
Qed.

(** The conditions under which the invariant survives. *)
Record change_ok c i b' c' : Prop := {
  change_index : (i < 30)%nat;
  change_updated : updated c i b' c';
  change_buf : buffer_ok b';
  change_unique : valid b' = true → ∀ j bj, j ≠ i → ¬ cached c (block_number b') j bj;
  change_clean : valid b' = true → refcnt b' = 0 → dirty b' = false →
    data b' = dev_content (disk c') (block_number b');
  change_disk : dev_ok (disk c');
  change_content : ∀ n j bj, j ≠ i → cached c n j bj →
    dev_content (disk c') n = dev_content (disk c) n;
}.

Lemma change_cached c order i b' c' n j bj :
  inv c order → change_ok c i b' c' →
  cached c' n j bj ↔
    (j = i ∧ bj = b' ∧ valid b' = true ∧ block_number b' = n) ∨ (j ≠ i ∧ cached c n j bj).
Proof.
  intros Hinv Hc. unfold cached.
  rewrite (updated_lookup _ _ _ _ _ j Hinv (change_index _ _ _ _ Hc) (change_updated _ _ _ _ Hc)).
  case_decide; naive_solver.
Qed.

Lemma inv_change c order i b' c' : inv c order → change_ok c i b' c' → inv c' order.
Proof.
  intros Hinv Hc. pose proof (change_updated _ _ _ _ Hc) as (Hp & Hl & Hd & Hi).
  pose proof (λ n j bj, proj1 (change_cached c order i b' c' n j bj Hinv Hc)) as Hcc.
  split.
  - apply Hl, Hinv.
  - intros j bj. erewrite updated_lookup; [|done|by eapply change_index|by eapply change_updated].
    case_decide; [intros [= <-]; by eapply change_buf|by eapply inv_buf].
  - intros n j k bj bk [(-> & -> & Hv & <-)|[Hj Hcj]]%Hcc [(-> & -> & Hv' & Hn)|[Hk Hck]]%Hcc; auto.
    + exfalso. by eapply change_unique.
    + subst n. exfalso. by eapply change_unique.
    + by eapply inv_unique.
  - intros n j bj [(-> & -> & Hv & <-)|[Hj Hcj]]%Hcc Hr Hdt; [by eapply change_clean|].
    erewrite change_content by done. by eapply inv_clean.
  - rewrite Hd. by eapply inv_device.
  - by eapply change_disk.
  - rewrite Hi. by eapply inv_initialized.
Qed.

(** The contents of block [n] after the change. *)
Lemma view_change c order i b' c' n :
  inv c order → change_ok c i b' c' →
  (valid b' = true → block_number b' = n → data b' = view c n) →
  ((∀ j bj, j ≠ i → ¬ cached c n j bj) → (valid b' = true → block_number b' ≠ n) →
    dev_content (disk c') n = view c n) →
  view c' n = view c n.
Proof.
  intros Hinv Hc H1 H2. pose proof (inv_change _ _ _ _ _ Hinv Hc) as Hinv'.
  pose proof (λ n j bj, change_cached c order i b' c' n j bj Hinv Hc) as Hcc.
  destruct (cached_dec c' n) as [(j & bj & Hj)|Hn].
  - unfold view at 1. rewrite (find_block_cached _ _ _ _ _ Hinv' Hj).
    apply Hcc in Hj. destruct Hj as [(-> & -> & Hv & Hn)|[Hji Hj]]; [by apply H1|].
    unfold view. by rewrite (find_block_cached _ _ _ _ _ Hinv Hj).
  - unfold view at 1. rewrite (find_block_uncached _ _ Hn). apply H2.
    + intros j bj Hj Hcj. apply (Hn j bj). apply Hcc. by right.
    + intros Hv Hb. apply (Hn i b'). apply Hcc. by left.
Qed.

(** ** The loops over the list *)

Lemma lookup_node_payload c i b : buffers c !! i = Some b → payloads c !! i = Some (strip b).
Proof. apply payloads_lookup. Qed.

Lemma wp_lookup_loop c n fuel p l :
  path (nxt c) p l → (length l < fuel)%nat → (∀ i, i ∈ l → is_Some (buffers c !! i)) →
  wp (lookup_loop fuel n p) c (λ r c', c' = c ∧
    ((r = Null ∧ ∀ i b, i ∈ l → ¬ cached c n i b) ∨ ∃ i b, r = Buf i ∧ cached c n i b)).
Proof.
  revert p l. induction fuel as [|fuel IH]; intros p l Hp Hlen Hdef; [lia|]. simpl.
  destruct l as [|i l]; simpl in Hp.
  - subst p. rewrite decide_True by done. apply wp_ret. split; [done|]. left. split; [done|].
    intros i b Hi. by apply not_elem_of_nil in Hi.
  - destruct Hp as [-> Hp]. rewrite decide_False by done.
    destruct (Hdef i) as [b Hb]; [left|]. wp_step. eapply wp_deref; [exact Hb|].
    destruct (valid b && (block_number b =? n)) eqn:E.
    + apply andb_true_iff in E as [Hv Hn%Z.eqb_eq]. apply wp_ret. split; [done|]. right.
      exists i, (strip b). split; [done|]. apply cached_buffer. eauto.
    + replace (next b) with (nxt c (Buf i)) by (unfold nxt; simpl; by rewrite Hb).
      eapply wp_mono; [eapply (IH _ l); [done|simpl in *; lia|]|].
      { intros j Hj. apply Hdef. by right. }
      intros r c' [-> [[-> Hn]|(j & bj & -> & Hj)]]; (split; [done|]); [left|right; eauto].
      split; [done|]. intros j bj [->|Hj]%elem_of_cons; [|by apply Hn].
      intros (b0 & Hb0 & -> & Hv & Hn')%cached_buffer. simplify_eq.
      rewrite Hv, Z.eqb_refl in E. done.
Qed.

Lemma inv_order_defined c order i : inv c order → i ∈ order → is_Some (buffers c !! i).
Proof.
  intros Hinv Hi. rewrite (lru_elem c) in Hi by apply Hinv.
  destruct (inv_lookup _ _ _ Hinv Hi) as [b Hb]. by exists b.
Qed.

Lemma inv_order_length c order : inv c order → length order = 30%nat.
Proof.
  intros Hinv. destruct (inv_lru _ _ Hinv) as (_ & Hp & _). by rewrite (Permutation_length Hp).
Qed.

(** [lookup] finds the buffer that holds the block. *)
Lemma wp_lookup c order n :
  inv c order →
  wp (lookup n) c (λ r c', c' = c ∧
    r = match find_block c n with Some (i, _) => Buf i | None => Null end).
Proof.
  intros Hinv. pose proof (inv_lru _ _ Hinv) as Hl. unfold lookup.
  wp_step. eapply wp_deref; [done|].
  eapply wp_mono; [eapply (wp_lookup_loop _ _ _ _ order)|].
  - apply (lru_path_next _ _ Hl).
  - rewrite (inv_order_length _ _ Hinv). unfold list_fuel. lia.
  - intros i. by apply inv_order_defined.
  - intros r c' [-> [[-> Hn]|(i & b & -> & Hc)]]; (split; [done|]).
    + rewrite find_block_uncached; [done|]. intros i b Hc. eapply (Hn i b); [|done].
      rewrite (lru_elem c) by done. destruct Hc as [Hc _]. by eapply inv_lookup_lt.
    + by rewrite (find_block_cached _ _ _ _ _ Hinv Hc).
Qed.

(** ** Writing a buffer back *)

(** Changing a payload through a pointer. *)
Lemma updated_insert_node c i b b' :
  buffers c !! i = Some b → next b' = next b → prev b' = prev b →
  updated c i (strip b') (insert_node (Buf i) b' c).
Proof.
  intros Hb Hn Hp. split; [apply payloads_insert_node|]. split; [|done].
  assert (is_Some (lookup_node c (Buf i))) as Hi by by exists b.
  intros order. apply lru_same_links; [simpl; apply length_insert| |]; intros q;
    unfold nxt, prv; rewrite lookup_node_insert by done; case_decide; subst; simpl;
    rewrite ?Hb, ?Hn, ?Hp; done.
Qed.

Lemma updated_trans_disk c i b c1 c2 :
  updated c i b c1 → buffers c2 = buffers c1 → head c2 = head c1 → device c2 = device c1 →
  initialized c2 = initialized c1 → updated c i b c2.
Proof.
  intros (Hp & Hl & Hd & Hi) Hb Hh Hd' Hi'. split; [unfold payloads in *; congruence|].
  split; [|split; congruence]. intros order Ho. apply (lru_same_links c1); [congruence| | |by apply Hl].
  - intros q. unfold nxt. destruct q; simpl; by rewrite ?Hb, ?Hh.
  - intros q. unfold prv. destruct q; simpl; by rewrite ?Hb, ?Hh.
Qed.

Lemma wp_device_write c n d (Q : bool → Cache D → Prop) :
  device c = dev →
  (∀ ok dk, dev_write n d (disk c) = (ok, dk) → Q ok (set_disk dk c)) →
  wp (device_write n d) c Q.
Proof.
  intros Hdev HQ. unfold device_write. wp_steps. rewrite Hdev, dev_write_ptr. wp_steps.
  destruct (dev_write n d (disk c)) as [ok dk] eqn:E. wp_steps. by apply HQ.
Qed.

(** A failed write may have spoilt the block on the device only. *)
Lemma inv_failed_write c order n i b dk :
  inv c order → cached c n i b → refcnt b ≠ 0 ∨ dirty b = true →
  dev_ok dk → (∀ m, m ≠ n → dev_content dk m = dev_content (disk c) m) →
  inv (set_disk dk c) order ∧ (∀ m, view (set_disk dk c) m = view c m).
Proof.
  intros Hinv Hc Hpd Hok Hdk. split.
  - destruct Hinv as [Hl Hb Hu Hcl Hd _ Hi]. split; auto.
    intros m j bj Hj Hr Hdj. simpl. rewrite Hdk; [by eapply Hcl|]. intros ->.
    assert (j = i) as -> by by eapply Hu. destruct Hc as [Hc _], Hj as [Hj _].
    change (payloads (set_disk dk c)) with (payloads c) in Hj. rewrite Hc in Hj.
    injection Hj as <-. destruct Hpd; congruence.
  - intros m. unfold view. change (find_block (set_disk dk c) m) with (find_block c m).
    destruct (find_block c m) as [[]|] eqn:E; [done|]. simpl. apply Hdk. intros ->.
    by apply find_block_None in Hc.
Qed.

(** What is left of the cache when buffer [i] has been written back. *)
Lemma change_written c order i b dk st :
  inv c order → buffers c !! i = Some b → valid b = true →
  dev_ok dk → (∀ m, m ≠ block_number b → dev_content dk m = dev_content (disk c) m) →
  dev_content dk (block_number b) = data b →
  change_ok c i (strip (set_dirty false b))
    (set_stats st (insert_node (Buf i) (set_dirty false b) (set_disk dk c))).
Proof.
  intros Hinv Hb Hv Hok Hdk Hdb.
  assert (cached c (block_number b) i (strip b)) as Hc by (apply cached_buffer; eauto).
  pose proof (inv_buf _ _ Hinv _ _ (payloads_lookup _ _ _ Hb)) as (? & ? & ?).
  assert (∀ m j bj, j ≠ i → cached c m j bj → m ≠ block_number b) as Hne.
  { intros m j bj Hj Hcj ->. by apply Hj; eapply inv_unique. }
  split.
  - eapply inv_lookup_lt; [done|]. by apply payloads_lookup.
  - eapply updated_trans_disk; [by eapply (updated_insert_node c i b)|done..].
  - split; [done|]. split; [done|]. done.
  - intros _ j bj Hj Hcj. by eapply Hne.
  - done.
  - done.
  - intros m j bj Hj Hcj. apply Hdk. by eapply Hne.
Qed.

Lemma wp_write_back_buffer c order i b :
  inv c order → buffers c !! i = Some b → valid b = true → refcnt b ≠ 0 ∨ dirty b = true →
  wp (write_back_buffer (Buf i)) c (λ ok c',
    inv c' order ∧ (∀ m, view c' m = view c m) ∧
    (if ok then
       change_ok c i (strip (set_dirty false b)) c' ∧
       buffers c' !! i = Some (set_dirty false b) ∧
       dev_content (disk c') (block_number b) = data b ∧
       (∀ m, m ≠ block_number b → dev_content (disk c') m = dev_content (disk c) m) ∧
       stats c' = count_writeback (stats c)
     else ∃ dk, c' = set_disk dk c ∧ dev_write (block_number b) (data b) (disk c) = (false, dk))).
Proof.
  intros Hinv Hb Hv Hpd. unfold write_back_buffer.
  pose proof (inv_buf _ _ Hinv _ _ (payloads_lookup _ _ _ Hb)) as (_ & Hdok & _).
  wp_step. eapply wp_deref; [exact Hb|]. wp_step.
  apply wp_device_write; [apply Hinv|]. intros ok dk Hw.
  destruct (dev_write_spec _ _ _ _ _ (inv_disk _ _ Hinv) Hdok Hw) as (Hok & Hother & Hsame).
  destruct ok; cbn [negb].
  - wp_step. eapply (wp_assign _ _ _ b); [exact Hb|]. wp_steps.
    pose proof (change_written _ _ _ _ _ (count_writeback (stats c)) Hinv Hb Hv Hok Hother (Hsame eq_refl)) as Hch.
    split; [by eapply inv_change|]. split.
    + intros m. eapply view_change; [done..| |].
      * intros _ <-. unfold view. rewrite (find_block_cached c order _ i (strip b)); [done|done|].
        apply cached_buffer. eauto.
      * intros Hn Hm. simpl. rewrite Hother by (intros ->; by apply Hm).
        unfold view. rewrite find_block_uncached; [done|]. intros j bj Hj.
        destruct (decide (j = i)) as [->|]; [|by eapply Hn].
        apply cached_buffer in Hj as (b0 & Hb0 & _ & Hv0 & <-). simplify_eq. by apply Hm.
    + split; [exact Hch|]. split; [|by auto]. simpl.
      apply list_lookup_insert_eq. by apply lookup_lt_Some in Hb.
  - wp_step. assert (cached c (block_number b) i (strip b)) as Hc by (apply cached_buffer; eauto).
    destruct (inv_failed_write _ _ _ _ _ dk Hinv Hc Hpd Hok Hother) as [Hi Hview].
    split; [done|]. split; [done|]. by exists dk.
Qed.

(** ** Recycling a buffer *)

(** A buffer just taken over for block [n]: nothing read yet, one reference. *)
Definition recycled n b : Buffer := mkBuffer n false false 1 Null Null (data b).

Definition unused c i : Prop := ∀ b, payloads c !! i = Some b → refcnt b = 0.
Definition in_use c i : Prop := ∀ b, payloads c !! i = Some b → refcnt b ≠ 0.

(** The dirty contents of an unused buffer could not be written back. *)
Definition write_back_failed c c' : Prop :=
  ∃ i b dk, payloads c !! i = Some b ∧ refcnt b = 0 ∧ dirty b = true ∧
    dev_write (block_number b) (data b) (disk c) = (false, dk) ∧ c' = set_disk dk c.

Lemma change_evicted c order i b b' st n :
  inv c order → buffers c !! i = Some b → refcnt b = 0 → dirty b = false →
  strip b' = recycled n b → next b' = next b → prev b' = prev b →
  change_ok c i (recycled n b) (insert_node (Buf i) b' (set_stats st c)).
Proof.
  intros Hinv Hb Hr Hd Hs Hn Hp. split.
  - eapply inv_lookup_lt; [done|]. by apply payloads_lookup.
  - rewrite <- Hs. eapply (updated_trans_disk c i _ (insert_node (Buf i) b' c)); [|done..].
    by eapply updated_insert_node.
  - pose proof (inv_buf _ _ Hinv _ _ (payloads_lookup _ _ _ Hb)) as (_ & ? & _).
    split; [|done]. simpl. unfold INT_MAX. lia.
  - done.
  - done.
  - apply Hinv.
  - done.
Qed.

(** Evicting a clean buffer changes no contents. *)
Lemma view_evicted c order i b n c' m :
  inv c order → buffers c !! i = Some b → refcnt b = 0 → dirty b = false →
  change_ok c i (recycled n b) c' → disk c' = disk c → view c' m = view c m.
Proof.
  intros Hinv Hb Hr Hd Hch Hdisk. eapply view_change; [done..|].
  intros Hn _. rewrite Hdisk. unfold view.
  destruct (find_block c m) as [[j bj]|] eqn:E; [|done]. apply find_block_Some in E.
  destruct (decide (j = i)) as [->|Hj]; [|by apply Hn in E].
  pose proof E as (b0 & Hb0 & -> & Hv & <-)%cached_buffer. simplify_eq.
  symmetry. by eapply inv_clean.
Qed.

Lemma wp_evict c order i b n (Q : BufPtr → Cache D → Prop) :
  inv c order → buffers c !! i = Some b → refcnt b = 0 → dirty b = false →
  (∀ c', inv c' order → (∀ m, view c' m = view c m) → change_ok c i (recycled n b) c' →
    disk c' = disk c → Q (Buf i) c') →
  wp (b ← deref (Buf i);
      _ ← (if valid b then modify (λ c, set_stats (count_eviction (stats c)) c) else mret ());
      _ ← assign (Buf i) (set_block_number n);
      _ ← assign (Buf i) (set_valid false);
      _ ← assign (Buf i) (set_dirty false);
      _ ← assign (Buf i) (set_refcnt 1);
      mret (Buf i)) c Q.
Proof.
  intros Hinv Hb Hr Hd HQ. wp_step. eapply wp_deref; [exact Hb|]. wp_step.
  apply (wp_mono _ _ (λ _ c', ∃ st, c' = set_stats st c)).
  { destruct (valid b); wp_steps; [by eexists|]. exists (stats c). by destruct c. }
  intros _ c' [st ->].
  assert (is_Some (lookup_node (set_stats st c) (Buf i))) as Hi by by exists b.
  wp_step. eapply (wp_assign _ _ _ b); [exact Hb|].
  wp_step. apply wp_assign_again; [exact Hi|]. wp_step. apply wp_assign_again; [exact Hi|].
  wp_step. apply wp_assign_again; [exact Hi|]. apply wp_ret.
  pose proof (change_evicted c order i b
    (set_refcnt 1 (set_dirty false (set_valid false (set_block_number n b)))) st n
    Hinv Hb Hr Hd eq_refl eq_refl eq_refl) as Hch.
  apply HQ; [by eapply inv_change| |done|done].
  intros m. by eapply view_evicted.
Qed.

(** The outcome of the search for a buffer to recycle among the buffers [l],
    the least recently used first. *)
Inductive recycle_outcome c n l : BufPtr → Cache D → Prop :=
| recycle_ok i b c' l1 l2 :
    l = l1 ++ i :: l2 → (∀ j, j ∈ l1 → in_use c j) →
    payloads c !! i = Some b → refcnt b = 0 →
    payloads c' = <[i := recycled n b]> (payloads c) →
    (dirty b = false → disk c' = disk c) →
    recycle_outcome c n l (Buf i) c'
| recycle_none : (∀ j, j ∈ l → in_use c j) → recycle_outcome c n l Null c
| recycle_failed c' : write_back_failed c c' → recycle_outcome c n l Null c'.

Lemma recycle_found c n i b l c1 b1 c2 :
  buffers c !! i = Some b → refcnt b = 0 →
  (c1 = c ∧ b1 = b ∨
   change_ok c i (strip b1) c1 ∧ b1 = set_dirty false b ∧ dirty b = true) →
  change_ok c1 i (recycled n b1) c2 → disk c2 = disk c1 →
  recycle_outcome c n (i :: l) (Buf i) c2.
Proof.
  intros Hb Hr Hc1 Hch2 Hd2. pose proof (change_updated _ _ _ _ Hch2) as (Hp2 & _).
  apply (recycle_ok c n (i :: l) i (strip b) c2 [] l);
    [done|by intros j ?%not_elem_of_nil|by apply payloads_lookup|done|..].
  - destruct Hc1 as [[-> ->]|(Hch & -> & _)]; [done|].
    pose proof (change_updated _ _ _ _ Hch) as (Hp1 & _).
    by rewrite Hp2, Hp1, list_insert_insert_eq.
  - intros Hdt. destruct Hc1 as [[-> ->]|(_ & _ & Hdt')]; [done|]. simpl in Hdt. congruence.
Qed.

Lemma recycle_skip c n i l r c' :
  in_use c i → recycle_outcome c n l r c' → recycle_outcome c n (i :: l) r c'.
Proof.
  intros Hi [j b c'' l1 l2 -> Hl1 Hb Hr Hp Hd|Hall|c'' Hf].
  - apply (recycle_ok _ _ _ j b c'' (i :: l1) l2); [done| |done..].
    intros k [->|Hk]%elem_of_cons; auto.
  - apply recycle_none. intros k [->|Hk]%elem_of_cons; auto.
  - by apply recycle_failed.
Qed.

Lemma wp_recycle_loop c order n fuel p l :
  inv c order → path (prv c) p l → (length l < fuel)%nat →
  (∀ i, i ∈ l → is_Some (buffers c !! i)) →
  wp (recycle_loop fuel n p) c (λ r c',
    inv c' order ∧ (∀ m, view c' m = view c m) ∧ recycle_outcome c n l r c').
Proof.
  intros Hinv. revert p l. induction fuel as [|fuel IH]; intros p l Hp Hlen Hdef; [lia|]. simpl.
  destruct l as [|i l]; simpl in Hp.
  { subst p. rewrite decide_True by done. apply wp_ret. split; [done|]. split; [done|].
    apply recycle_none. by intros j ?%not_elem_of_nil. }
  destruct Hp as [-> Hp]. rewrite decide_False by done.
  destruct (Hdef i) as [b Hb]; [left|]. wp_step. eapply wp_deref; [exact Hb|].
  destruct (refcnt b =? 0) eqn:Er; cbn [negb].
  - apply Z.eqb_eq in Er. wp_step. destruct (dirty b) eqn:Ed.
    + pose proof (inv_buf _ _ Hinv _ _ (payloads_lookup _ _ _ Hb)) as (_ & _ & Hdv).
      wp_use wp_write_back_buffer; [exact Hinv|exact Hb|by apply Hdv|by right|].
      intros [] c1 (Hinv1 & Hv1 & Hok); cbn [negb].
      * destruct Hok as (Hch & Hb1 & _ & _).
        eapply wp_evict; [exact Hinv1|exact Hb1|done|done|]. intros c2 Hinv2 Hv2 Hch2 Hd2.
        split; [done|]. split; [intros m; by rewrite Hv2|].
        eapply recycle_found; [exact Hb|done|right|exact Hch2|done]. done.
      * destruct Hok as (dk & -> & Hw). apply wp_ret. split; [done|]. split; [done|].
        apply recycle_failed. exists i, (strip b), dk. by rewrite (payloads_lookup _ _ _ Hb).
    + apply wp_ret. cbn [negb]. eapply wp_evict; [exact Hinv|exact Hb|done|done|].
      intros c2 Hinv2 Hv2 Hch2 Hd2. split; [done|]. split; [done|].
      eapply recycle_found; [exact Hb|done|by left|exact Hch2|done].
  - replace (prev b) with (prv c (Buf i)) by (unfold prv; simpl; by rewrite Hb).
    wp_use (IH _ l); [exact Hp|simpl in *; lia|intros j Hj; apply Hdef; by right|].
    intros r c' (Hinv' & Hv' & Hout). split; [done|]. split; [done|].
    apply recycle_skip; [|done]. intros b0 Hb0. apply payloads_lookup_inv in Hb0 as (b1 & Hb1 & ->).
    simplify_eq. simpl. lia.
Qed.

(** ** Reference counts *)

(** A change that keeps what the buffer holds. *)
Lemma view_keep c order i b b' c' m :
  inv c order → buffers c !! i = Some b → change_ok c i b' c' → disk c' = disk c →
  valid b' = valid b → block_number b' = block_number b → data b' = data b →
  view c' m = view c m.
Proof.
  intros Hinv Hb Hch Hdisk Hv Hn Hd. eapply view_change; [done..| |].
  - rewrite Hv, Hn, Hd. intros Hv' <-. unfold view.
    rewrite (find_block_cached c order _ i (strip b)); [done|done|]. apply cached_buffer. eauto.
  - intros Hother Hi. rewrite Hdisk. unfold view. rewrite find_block_uncached; [done|].
    intros j bj Hj. destruct (decide (j = i)) as [->|]; [|by eapply Hother].
    apply cached_buffer in Hj as (b0 & Hb0 & _ & Hv0 & Hn0). simplify_eq.
    rewrite Hv, Hn in Hi. by apply Hi.
Qed.

Lemma change_refcnt c order i b r :
  inv c order → buffers c !! i = Some b → 0 <= r <= INT_MAX →
  (valid b = true → r = 0 → dirty b = false → data b = dev_content (disk c) (block_number b)) →
  change_ok c i (set_refcnt r (strip b)) (insert_node (Buf i) (set_refcnt r b) c).
Proof.
  intros Hinv Hb Hr Hcl. pose proof (payloads_lookup _ _ _ Hb) as Hpb.
  destruct (inv_buf _ _ Hinv _ _ Hpb) as (_ & ? & ?). split.
  - by eapply inv_lookup_lt.
  - by eapply (updated_insert_node c i b).
  - done.
  - intros Hv j bj Hj Hcj. apply Hj. eapply inv_unique; [done|exact Hcj|].
    apply cached_buffer. eauto.
  - exact Hcl.
  - apply Hinv.
  - done.
Qed.

(** [i] becomes the most recently used buffer when its last reference goes. *)
Definition order_after_release order i (last : bool) order' : Prop :=
  if last then ∃ l1 l2, order = l1 ++ i :: l2 ∧ order' = i :: l1 ++ l2 else order' = order.

Lemma wp_cache_release c order i b :
  inv c order → buffers c !! i = Some b →
  (valid b = true → refcnt b = 1 → dirty b = false →
    data b = dev_content (disk c) (block_number b)) →
  wp (cache_release (Buf i)) c (λ _ c', ∃ order',
    inv c' order' ∧ order_after_release order i (refcnt b =? 1) order' ∧
    (∀ m, view c' m = view c m) ∧ disk c' = disk c ∧
    payloads c' = <[i := set_refcnt (Z.max 0 (refcnt b - 1)) (strip b)]> (payloads c)).
Proof.
  intros Hinv Hb Hcl. pose proof (payloads_lookup _ _ _ Hb) as Hpb.
  destruct (inv_buf _ _ Hinv _ _ Hpb) as (Hr & _ & _). simpl in Hr.
  unfold cache_release. wp_step. eapply wp_deref; [exact Hb|].
  destruct (refcnt b <=? 0) eqn:E0.
  { apply wp_ret. exists order. assert (refcnt b = 0) as Hr0 by lia. rewrite Hr0.
    split; [done|]. split; [done|]. split; [done|]. split; [done|].
    rewrite list_insert_id; [done|]. rewrite Hpb. destruct b; simpl in *; by subst. }
  wp_step. eapply wp_assign; [exact Hb|].
  assert (change_ok c i (set_refcnt (refcnt b - 1) (strip b))
    (insert_node (Buf i) (set_refcnt (refcnt b - 1) b) c)) as Hch.
  { eapply change_refcnt; [done|done|lia|]. intros. apply Hcl; [done|lia|done]. }
  pose proof (inv_change _ _ _ _ _ Hinv Hch) as Hinv1.
  assert (∀ m, view (insert_node (Buf i) (set_refcnt (refcnt b - 1) b) c) m = view c m) as Hv1.
  { intros m. by eapply view_keep. }
  rewrite (Z.max_r 0 (refcnt b - 1)) by lia.
  pose proof (change_updated _ _ _ _ Hch) as (Hp1 & _).
  destruct (refcnt b - 1 >? 0) eqn:E1.
  - apply wp_ret. exists order. replace (refcnt b =? 1) with false by lia. done.
  - replace (refcnt b =? 1) with true by lia.
    assert (i ∈ order) as (l1 & l2 & Ho)%list_elem_of_split.
    { rewrite (lru_elem c order) by apply Hinv. exact (inv_lookup_lt _ _ _ _ Hinv Hpb). }
    pose proof (inv_lru _ _ Hinv1) as Hl1. rewrite Ho in Hl1.
    eapply wp_move_to_front; [exact Hl1|]. intros c2 Hs2 Hl2. exists (i :: l1 ++ l2).
    split; [by eapply inv_same_payloads|]. split; [by exists l1, l2|].
    split; [intros m; by rewrite (same_payloads_view _ _ _ Hs2)|].
    destruct Hs2 as (Hp2 & _ & _ & _ & Hd2). split; [by rewrite Hd2|]. by rewrite Hp2.
Qed.

Lemma wp_increment_refcnt c order i b (Q : () → Cache D → Prop) :
  inv c order → buffers c !! i = Some b → refcnt b < INT_MAX →
  (∀ c', inv c' order → (∀ m, view c' m = view c m) → disk c' = disk c →
    c' = insert_node (Buf i) (set_refcnt (refcnt b + 1) b) c →
    change_ok c i (set_refcnt (refcnt b + 1) (strip b)) c' → Q () c') →
  wp (increment_refcnt (Buf i)) c Q.
Proof.
  intros Hinv Hb Hmax HQ.
  destruct (inv_buf _ _ Hinv _ _ (payloads_lookup _ _ _ Hb)) as (Hr & _ & _). simpl in Hr.
  unfold increment_refcnt. wp_step. eapply wp_deref; [exact Hb|].
  replace (refcnt b =? INT_MAX) with false by lia. eapply wp_assign; [exact Hb|].
  assert (change_ok c i (set_refcnt (refcnt b + 1) (strip b))
    (insert_node (Buf i) (set_refcnt (refcnt b + 1) b) c)) as Hch.
  { eapply change_refcnt; [done|done|lia|lia]. }
  apply HQ; [by eapply inv_change|intros m; by eapply view_keep|done|done|done].
Qed.

(** ** Reading a block into a recycled buffer *)

Lemma change_filled c order i b n v d dk st ok :
  inv c order → buffers c !! i = Some b → valid b = false → dirty b = false →
  refcnt b = 1 → block_number b = n → find_block c n = None →
  dev_read n (data b) (disk c) = (ok, d, dk) →
  change_ok c i (mkBuffer n v false 1 Null Null d)
    (insert_node (Buf i) (set_valid v (set_data d b)) (set_disk dk (set_stats st c))).
Proof.
  intros Hinv Hb Hv Hdt Hr <- Hnone Hread. pose proof (payloads_lookup _ _ _ Hb) as Hpb.
  destruct (inv_buf _ _ Hinv _ _ Hpb) as (_ & Hd & _).
  destruct (dev_read_spec _ _ _ _ _ _ (inv_disk _ _ Hinv) Hd Hread) as (Hok & Hd' & Hsame & _).
  split; [| | | | |done|intros; apply Hsame].
  - by eapply inv_lookup_lt.
  - eapply (updated_trans_disk c i _ (insert_node (Buf i) (set_valid v (set_data d b)) c)); [|done..].
    replace (mkBuffer _ _ _ _ _ _ _) with (strip (set_valid v (set_data d b)))
      by (destruct b; simpl in *; by subst).
    by eapply updated_insert_node.
  - split; [simpl; unfold INT_MAX; lia|]. done.
  - intros _ j bj _ Hj. by apply find_block_None in Hj.
  - done.
Qed.

Lemma view_filled c order i b n c' v d m :
  inv c order → find_block c n = None →
  change_ok c i (mkBuffer n v false 1 Null Null d) c' → payloads c !! i = Some b → valid b = false →
  (v = true → d = dev_content (disk c) n) →
  (∀ m, dev_content (disk c') m = dev_content (disk c) m) →
  view c' m = view c m.
Proof.
  intros Hinv Hnone Hch Hb Hv Hd Hsame. eapply view_change; [done..| |]; simpl.
  - intros Hv' <-. unfold view. rewrite Hnone. by apply Hd.
  - intros Hother _. rewrite Hsame. unfold view. rewrite find_block_uncached; [done|].
    intros j bj Hj. destruct (decide (j = i)) as [->|]; [|by eapply Hother].
    destruct Hj as (Hj & Hvj & _). congruence.
Qed.

Lemma wp_fill c order i b n :
  inv c order → buffers c !! i = Some b → valid b = false → dirty b = false →
  refcnt b = 1 → block_number b = n → find_block c n = None →
  wp (_ ← modify (λ c, set_stats (count_miss (stats c)) c);
      ok ← device_read n (Buf i);
      if negb ok then _ ← cache_release (Buf i); mret Null
      else _ ← assign (Buf i) (set_valid true); mret (Buf i)) c (λ r c', ∃ order',
    inv c' order' ∧ (∀ m, view c' m = view c m) ∧
    (∀ m, dev_content (disk c') m = dev_content (disk c) m) ∧
    ((r = Buf i ∧ order' = order ∧
      payloads c' = <[i := mkBuffer n true false 1 Null Null (view c n)]> (payloads c)) ∨
     (r = Null ∧ ∃ d dk, dev_read n (data b) (disk c) = (false, d, dk) ∧
      payloads c' = <[i := mkBuffer n false false 0 Null Null d]> (payloads c)))).
Proof.
  intros Hinv Hb Hv Hdt Hr Hn Hnone. pose proof (payloads_lookup _ _ _ Hb) as Hpb.
  destruct (inv_buf _ _ Hinv _ _ Hpb) as (_ & Hd & _).
  do 2 wp_step. wp_step. unfold device_read. wp_step. eapply (wp_deref _ _ b); [exact Hb|]. wp_steps.
  change (device (set_stats _ c)) with (device c). rewrite (inv_device _ _ Hinv), dev_read_ptr. wp_steps.
  change (disk (set_stats _ c)) with (disk c).
  destruct (dev_read n (data b) (disk c)) as [[ok d] dk] eqn:Hread. wp_steps.
  destruct (dev_read_spec _ _ _ _ _ _ (inv_disk _ _ Hinv) Hd Hread) as (_ & _ & Hsame & Hok).
  pose proof (λ v, change_filled _ _ _ _ _ v _ _ (count_miss (stats c)) _ Hinv Hb Hv Hdt Hr Hn Hnone Hread) as Hch.
  assert (is_Some (buffers c !! i)) as Hi by by exists b.
  eapply (wp_assign _ _ _ b); [exact Hb|]. wp_steps. destruct ok; cbn [negb].
  - wp_step. apply wp_assign_again; [exact Hi|]. wp_step. exists order.
    pose proof (Hok eq_refl) as ->. specialize (Hch true).
    split; [by eapply inv_change|]. split; [|split; [done|left]].
    + intros m. eapply view_filled; [done|done|exact Hch|done|done|done|done].
    + split; [done|]. split; [done|]. unfold view. rewrite Hnone.
      by destruct (change_updated _ _ _ _ Hch) as (-> & _).
  - specialize (Hch false). pose proof (inv_change _ _ _ _ _ Hinv Hch) as Hinv1.
    replace (set_data d b) with (set_valid false (set_data d b)) by (destruct b; simpl in *; by subst).
    wp_step. wp_use wp_cache_release; [exact Hinv1|simpl; apply list_lookup_insert_eq; by apply lookup_lt_Some in Hb|done|].
    intros _ c2 (order2 & Hinv2 & _ & Hv2 & Hd2 & Hp2). apply wp_ret. exists order2.
    split; [done|]. split; [|split; [|right]].
    + intros m. rewrite Hv2. eapply view_filled; [done|done|exact Hch|done|done|done|done].
    + intros m. by rewrite Hd2.
    + split; [done|]. exists d, dk. split; [done|]. rewrite Hp2.
      destruct (change_updated _ _ _ _ Hch) as (-> & _). rewrite list_insert_insert_eq.
      destruct b; simpl in *; by subst.
Qed.

(** ** read *)

(** All the ways in which [read n] can end, from the cache [c] with the
    buffers in the order [order]. *)
Inductive read_outcome c order n : BufPtr → Cache D → Prop :=
| read_hit i b c' :
    cached c n i b → disk c' = disk c →
    payloads c' = <[i := set_refcnt (refcnt b + 1) b]> (payloads c) →
    read_outcome c order n (Buf i) c'
| read_miss i b c' l1 l2 :
    find_block c n = None →
    order = l1 ++ i :: l2 → payloads c !! i = Some b → refcnt b = 0 →
    (∀ j, j ∈ l2 → in_use c j) →
    payloads c' = <[i := mkBuffer n true false 1 Null Null (view c n)]> (payloads c) →
    (dirty b = false → ∀ m, dev_content (disk c') m = dev_content (disk c) m) →
    read_outcome c order n (Buf i) c'
| read_exhausted :
    find_block c n = None → (∀ j, j ∈ order → in_use c j) →
    read_outcome c order n Null c
| read_write_failed c' :
    find_block c n = None → write_back_failed c c' →
    read_outcome c order n Null c'
| read_device_failed i b c' d dk dk' :
    find_block c n = None → payloads c !! i = Some b → refcnt b = 0 →
    dev_read n (data b) dk = (false, d, dk') → dev_ok dk → (dirty b = false → dk = disk c) →
    payloads c' = <[i := mkBuffer n false false 0 Null Null d]> (payloads c) →
    read_outcome c order n Null c'.

Lemma find_block_recycled c c' order i b n :
  inv c order → payloads c' = <[i := recycled n b]> (payloads c) →
  find_block c n = None → find_block c' n = None.
Proof.
  intros Hinv Hp Hnone. apply find_block_uncached. intros j bj (Hj & Hv & Hn).
  rewrite Hp in Hj. apply list_lookup_insert_Some in Hj as [(<- & <- & _)|(Hij & Hj)]; [done|].
  by eapply (find_block_None _ _ Hnone j bj).
Qed.

Lemma read_outcome_recycled c c1 c2 order i b n l1 l2 r :
  find_block c n = None → reverse order = l1 ++ i :: l2 → (∀ j, j ∈ l1 → in_use c j) →
  payloads c !! i = Some b → refcnt b = 0 → dev_ok (disk c1) →
  payloads c1 = <[i := recycled n b]> (payloads c) → (dirty b = false → disk c1 = disk c) →
  (∀ m, view c1 m = view c m) →
  (∀ m, dev_content (disk c2) m = dev_content (disk c1) m) →
  ((r = Buf i ∧
    payloads c2 = <[i := mkBuffer n true false 1 Null Null (view c1 n)]> (payloads c1)) ∨
   (r = Null ∧ ∃ d dk, dev_read n (data b) (disk c1) = (false, d, dk) ∧
    payloads c2 = <[i := mkBuffer n false false 0 Null Null d]> (payloads c1))) →
  read_outcome c order n r c2.
Proof.
  intros Hnone Ho Hl1 Hb Hr Hok Hp1 Hd1 Hv1 Hd2 [[-> Hp2]|(-> & d & dk & Hread & Hp2)].
  - apply (read_miss _ _ _ i b c2 (reverse l2) (reverse l1)); [done| |done|done|..].
    + rewrite <- (reverse_involutive order), Ho, reverse_app, reverse_cons, <- app_assoc. done.
    + intros j Hj. apply Hl1. by rewrite <- elem_of_reverse.
    + by rewrite Hp2, Hp1, list_insert_insert_eq, Hv1.
    + intros Hdt m. by rewrite Hd2, Hd1.
  - eapply (read_device_failed _ _ _ i b c2 d (disk c1) dk); [done..|].
    by rewrite Hp2, Hp1, list_insert_insert_eq.
Qed.

(** What [read] does once it has a buffer. *)
Definition read_rest n (buffer : BufPtr) : M (Cache D) BufPtr :=
  match buffer with
  | Null => mret Null
  | _ =>
      b ← deref buffer;
      if valid b then
        _ ← modify (λ c, set_stats (count_hit (stats c)) c);
        mret buffer
      else
        _ ← modify (λ c, set_stats (count_miss (stats c)) c);
        ok ← device_read n buffer;
        if negb ok then _ ← cache_release buffer; mret Null
        else _ ← assign buffer (set_valid true); mret buffer
  end.

Lemma wp_read_miss c order n :
  inv c order → find_block c n = None →
  wp (recycle_loop list_fuel n (prev (head c))) c (λ buffer c1,
    wp (read_rest n buffer) c1 (λ r c', ∃ order',
      inv c' order' ∧ (∀ m, view c' m = view c m) ∧ read_outcome c order n r c')).
Proof.
  intros Hinv Hnone. pose proof (inv_lru _ _ Hinv) as Hl.
  wp_use (wp_recycle_loop c order n _ _ (reverse order)); [done|exact (lru_path_prev _ _ Hl)| | |].
  { rewrite length_reverse, (inv_order_length _ _ Hinv). unfold list_fuel. lia. }
  { intros i Hi. rewrite elem_of_reverse in Hi. exact (inv_order_defined _ _ _ Hinv Hi). }
  intros r c1 (Hinv1 & Hv1 & Hout).
  destruct Hout as [i b c1 l1 l2 Ho Hl1 Hb Hr Hp1 Hd1|Hall|c1 Hf].
  - assert (payloads c1 !! i = Some (recycled n b)) as Hi.
    { rewrite Hp1. apply list_lookup_insert_eq. by eapply lookup_lt_Some. }
    destruct (payloads_lookup_inv _ _ _ Hi) as (b1 & Hb1 & Hs1).
    assert (valid b1 = false ∧ dirty b1 = false ∧ refcnt b1 = 1 ∧ block_number b1 = n ∧ data b1 = data b)
      as (Hbv & Hbd & Hbr & Hbn & Hbdt) by (destruct b1; injection Hs1; intros; by subst).
    unfold read_rest. wp_step. eapply (wp_deref _ _ b1); [exact Hb1|]. rewrite Hbv.
    wp_use (wp_fill c1 order i b1 n); [done|done|done|done|done|done|..].
    { exact (find_block_recycled _ _ _ _ _ _ Hinv Hp1 Hnone). }
    intros r c2 (order2 & Hinv2 & Hv2 & Hd2 & Hcase). exists order2. split; [done|].
    split; [intros m; by rewrite Hv2|]. rewrite Hbdt in Hcase.
    eapply (read_outcome_recycled c c1 c2 order i b n l1 l2 r);
      [done..|apply Hinv1|done|done|done|done|naive_solver].
  - apply wp_ret. exists order. split; [done|]. split; [done|]. apply read_exhausted; [done|].
    intros j Hj. apply Hall. by rewrite elem_of_reverse.
  - apply wp_ret. exists order. split; [done|]. split; [done|]. by apply read_write_failed.
Qed.

(** [read] keeps the invariant and the contents of every block, and ends in
    one of the ways of [read_outcome]. *)
Lemma wp_read c order n :
  inv c order → (∀ i b, cached c n i b → refcnt b < INT_MAX) →
  wp (read n) c (λ r c', ∃ order',
    inv c' order' ∧ (∀ m, view c' m = view c m) ∧ read_outcome c order n r c').
Proof.
  intros Hinv Hmax. change (read n) with (buffer ← find_cached n; read_rest n buffer).
  unfold find_cached. wp_step. wp_step.
  wp_use wp_lookup; [exact Hinv|]. intros r c' [-> ->].
  destruct (find_block c n) as [[i b]|] eqn:E.
  - apply find_block_Some in E. pose proof E as (b0 & Hb0 & -> & Hv & Hn)%cached_buffer.
    wp_step. eapply wp_increment_refcnt; [done|done|by apply (Hmax _ _ E)|].
    intros c1 Hinv1 Hv1 Hd1 -> Hch. apply wp_ret. unfold read_rest. wp_steps.
    eapply wp_deref; [simpl; apply list_lookup_insert_eq; by apply lookup_lt_Some in Hb0|].
    simpl valid. rewrite Hv. wp_steps. exists order.
    split; [by apply inv_set_stats|]. split; [done|].
    eapply read_hit; [exact E|done|]. apply (change_updated _ _ _ _ Hch).
  - wp_step. eapply wp_deref; [done|]. exact (wp_read_miss c order n Hinv E).
Qed.

(** ** Changing and writing back a borrowed buffer *)

(** What the clean buffers hold is on the device. *)
Definition settled c : Prop :=
  ∀ n i b, cached c n i b → dirty b = false → data b = dev_content (disk c) n.

Lemma change_poked c order i b d :
  inv c order → buffers c !! i = Some b → valid b = true → refcnt b ≠ 0 → block_ok d →
  change_ok c i (set_data d (strip b)) (insert_node (Buf i) (set_data d b) c).
Proof.
  intros Hinv Hb Hv Hr Hd. pose proof (payloads_lookup _ _ _ Hb) as Hpb.
  destruct (inv_buf _ _ Hinv _ _ Hpb) as (? & _ & ?). split.
  - by eapply inv_lookup_lt.
  - by eapply (updated_insert_node c i b).
  - done.
  - intros _ j bj Hj Hcj. apply Hj. eapply inv_unique; [done|exact Hcj|].
    apply cached_buffer. eauto.
  - done.
  - apply Hinv.
  - done.
Qed.

(** Overwriting the bytes of a borrowed buffer changes that block only. *)
Lemma wp_poke_data c order i b d :
  inv c order → buffers c !! i = Some b → valid b = true → refcnt b ≠ 0 → block_ok d →
  wp (poke_data i d) c (λ _ c',
    inv c' order ∧ c' = insert_node (Buf i) (set_data d b) c ∧
    change_ok c i (set_data d (strip b)) c' ∧
    (∀ m, view c' m = if decide (m = block_number b) then d else view c m)).
Proof.
  intros Hinv Hb Hv Hr Hd. eapply wp_assign; [exact Hb|].
  pose proof (change_poked _ _ _ _ _ Hinv Hb Hv Hr Hd) as Hch.
  pose proof (inv_change _ _ _ _ _ Hinv Hch) as Hinv'.
  split; [done|]. split; [done|]. split; [done|]. intros m. case_decide as Hm.
  - subst m. assert (cached (insert_node (Buf i) (set_data d b) c) (block_number b) i
      (set_data d (strip b))) as Hc.
    { apply (change_cached c order i _ _ _ i _ Hinv Hch). by left. }
    unfold view. by rewrite (find_block_cached _ order _ i _ Hinv' Hc).
  - eapply view_change; [done..| |]; simpl.
    + intros _ <-. done.
    + intros Hn _. unfold view. rewrite find_block_uncached; [done|].
      intros j bj Hj. destruct (decide (j = i)) as [->|]; [|by eapply Hn].
      apply cached_buffer in Hj as (b0 & Hb0 & _ & _ & <-). simplify_eq.
Qed.

(** [write] puts the contents of a borrowed buffer on the device; when the
    device fails, no contents are lost. *)
Lemma wp_write c order i b :
  inv c order → buffers c !! i = Some b → valid b = true → refcnt b ≠ 0 →
  wp (write (Buf i)) c (λ ok c',
    inv c' order ∧ (∀ m, view c' m = view c m) ∧
    if ok then
      payloads c' = <[i := set_dirty false (strip b)]> (payloads c) ∧
      dev_content (disk c') (block_number b) = data b ∧ 
      (∀ m, m ≠ block_number b → dev_content (disk c') m = dev_content (disk c) m)
    else ∃ dk, c' = set_disk dk c ∧ dev_write (block_number b) (data b) (disk c) = (false, dk)).
Proof.
  intros Hinv Hb Hv Hr. unfold write. wp_step. eapply wp_deref; [exact Hb|].
  rewrite Hv. cbn [negb]. wp_use wp_write_back_buffer; [exact Hinv|exact Hb|done|by left|].
  intros [] c' (Hi & Hview & Hok); (split; [done|]); (split; [done|]); [|done].
  destruct Hok as (Hch & _ & Hdisk & Hother & _).
  by destruct (change_updated _ _ _ _ Hch) as (-> & _).
Qed.
End spec.
