(* ===== verification/BufferCacheOps.v ===== *)
(** * Initialising and flushing the buffer cache

    [initialize] establishes the invariant, [flush] puts every change on the
    device, and [mark_dirty] leaves a change to them. *)
From S2P Require Import Prelude BlockStore BufferCache BufferCacheLinks BufferCacheSpec.

Section ops.
Context {D : Type} {dev : BlockDevice D} `{!DeviceSpec dev}.
Implicit Types (c : Cache D) (order : list nat) (n m : Z) (i j : nat) (b : Buffer).

(** ** initialize *)

Definition cleared b : Prop :=
  block_number b = 0 ∧ valid b = false ∧ dirty b = false ∧ refcnt b = 0.

(** The buffers before index [i] are cleared and on the list. *)
Definition initializing c i : Prop :=
  length (buffers c) = 30%nat ∧
  (∀ j b, payloads c !! j = Some b → block_ok (data b) ∧ ((j < i)%nat → cleared b)) ∧
  seg (nxt c) (prv c) Head (Buf <$> reverse (seq 0 i)) Head.

Lemma initializing_clear c i b :
  initializing c i → buffers c !! i = Some b →
  let b' := set_refcnt 0 (set_dirty false (set_valid false (set_block_number 0 b))) in
  let c' := insert_node (Buf i) b' c in
  (∀ j bj, payloads c' !! j = Some bj → block_ok (data bj) ∧ ((j < S i)%nat → cleared bj)) ∧
  seg (nxt c') (prv c') Head (Buf <$> reverse (seq 0 i)) Head.
Proof.
  intros (Hlen & Hpay & Hseg) Hb b' c'. split.
  - intros j bj. unfold c'. rewrite payloads_insert_node.
    intros [(<- & <- & _)|(Hij & Hj)]%list_lookup_insert_Some.
    + split; [exact (proj1 (Hpay _ _ (payloads_lookup _ _ _ Hb)))|done].
    + destruct (Hpay _ _ Hj) as [? Hcl]. split; [done|]. intros ?. apply Hcl. lia.
  - assert (is_Some (lookup_node c (Buf i))) as Hi by by exists b.
    eapply seg_frame; [exact Hseg|..]; intros q _; unfold nxt, prv, c';
      rewrite lookup_node_insert by done; case_decide; subst; simpl; by rewrite ?Hb.
Qed.

Lemma initializing_step c i (k : M (Cache D) ()) (Q : () → Cache D → Prop) :
  initializing c i → (i < 30)%nat →
  (∀ c', initializing c' (S i) → same_rest c c' → wp k c' Q) →
  wp (_ ← assign (Buf i) (set_block_number 0);
      _ ← assign (Buf i) (set_valid false);
      _ ← assign (Buf i) (set_dirty false);
      _ ← assign (Buf i) (set_refcnt 0);
      _ ← link_as_most_recent (Buf i);
      k) c Q.
Proof.
  intros Hinit Hi30 HQ. pose proof Hinit as (Hlen & _ & _).
  destruct (lookup_lt_is_Some_2 (buffers c) i) as [b Hb]; [lia|].
  assert (is_Some (lookup_node c (Buf i))) as Hi by by exists b.
  wp_step. eapply (wp_assign _ _ _ b); [exact Hb|].
  do 3 (wp_step; apply wp_assign_again; [exact Hi|]).
  destruct (initializing_clear _ _ _ Hinit Hb) as [Hpay Hseg].
  wp_step. eapply wp_link; [exact Hseg|..].
  - apply NoDup_cons. split; [rewrite elem_of_reverse, elem_of_seq; lia|].
    rewrite reverse_Permutation. apply NoDup_seq.
  - intros q [->|(j & -> & Hj)%list_elem_of_fmap]%elem_of_cons; simpl;
      apply lookup_lt_is_Some_2; rewrite length_insert; [lia|].
    rewrite elem_of_reverse, elem_of_seq in Hj. lia.
  - intros c2 [Hp2 Hr2] _ Hseg2. apply HQ; [|exact Hr2].
    assert (length (buffers c2) = 30%nat) as Hlen2.
    { rewrite <- length_payloads, Hp2, length_payloads. simpl. by rewrite length_insert. }
    split; [done|]. split; [by rewrite Hp2|].
    by rewrite seq_S, reverse_app.
Qed.

Lemma wp_initialize_loop count i c (Q : () → Cache D → Prop) :
  initializing c i → (i + count = 30)%nat →
  (∀ c', initializing c' 30 → same_rest c c' → Q () c') →
  wp (initialize_loop count i) c Q.
Proof.
  revert i c. induction count as [|count IH]; intros i c Hinit Hi HQ; simpl.
  { wp_step. apply HQ; [by replace 30%nat with i by lia|done]. }
  eapply initializing_step; [done|lia|]. intros c1 Hinit1 (? & ? & ? & ?).
  apply IH; [done|lia|]. intros c2 Hinit2 (? & ? & ? & ?). apply HQ; [done|].
  repeat split; congruence.
Qed.

(** The cache just after it has been initialised. *)
Definition fresh c : Prop :=
  inv c (reverse (seq 0 30)) ∧ (∀ i b, payloads c !! i = Some b → cleared b) ∧
  stats c = mkStatistics 0 0 0 0.

Lemma cleared_uncached c :
  (∀ i b, payloads c !! i = Some b → cleared b) → ∀ n i b, ¬ cached c n i b.
Proof. intros Hall n i b (Hb & Hv & _). destruct (Hall _ _ Hb) as (_ & ? & _). congruence. Qed.

Lemma wp_initialize c :
  initialized c = false → length (buffers c) = 30%nat →
  (∀ i b, buffers c !! i = Some b → block_ok (data b)) → dev_ok (disk c) →
  wp (initialize dev) c (λ ok c',
    ok = true ∧ fresh c' ∧ disk c' = disk c ∧ ∀ n, view c' n = dev_content (disk c) n).
Proof.
  intros Hi Hlen Hdata Hdisk. unfold initialize. wp_steps. rewrite Hi, dev_read_ptr, dev_write_ptr.
  wp_steps. eapply wp_assign; [done|]. wp_steps. eapply wp_assign; [done|]. wp_steps.
  eapply (wp_initialize_loop _ 0); [|done|].
  { split; [done|]. split; [|done]. intros j b (b0 & Hb0 & ->)%payloads_lookup_inv.
    split; [exact (Hdata _ _ Hb0)|intros; lia]. }
  intros c1 (Hlen1 & Hpay1 & Hseg1) (Hd1 & _ & _ & Hk1). wp_steps.
  set (c2 := set_initialized true (set_stats (mkStatistics 0 0 0 0) c1)).
  assert (∀ i b, payloads c2 !! i = Some b → block_ok (data b) ∧ cleared b) as Hpay.
  { intros i b Hb. pose proof Hb as Hlt%lookup_lt_Some. rewrite length_payloads in Hlt.
    simpl in Hlt. destruct (Hpay1 _ _ Hb) as [? Hcl]. split; [done|]. apply Hcl. lia. }
  assert (∀ n i b, ¬ cached c2 n i b) as Hnc.
  { apply cleared_uncached. intros i b Hb. by apply (Hpay i b). }
  split; [done|]. split; [|split; [by simpl; rewrite Hk1|]].
  - split; [|split; [intros i b Hb; by apply (Hpay i b)|done]]. split; simpl.
    + split; [done|]. split; [|done]. by rewrite reverse_Permutation.
    + intros i b Hb. destruct (Hpay _ _ Hb) as (? & ? & ? & ? & Hr).
      split; [rewrite Hr; unfold INT_MAX; lia|]. split; [done|]. congruence.
    + intros n i j bi bj Hci. by apply Hnc in Hci.
    + intros n i b Hci. by apply Hnc in Hci.
    + by rewrite Hd1.
    + by rewrite Hk1.
    + done.
  - intros n. unfold view. rewrite (find_block_uncached _ _ (Hnc n)). simpl. by rewrite Hk1.
Qed.

(** ** flush *)

(** No change waits in the buffers before index [i]. *)
Definition clean_below c i : Prop :=
  ∀ j b, (j < i)%nat → payloads c !! j = Some b → valid b = true → dirty b = false.

Definition clean c : Prop := clean_below c 30.

Lemma settled_written c order i b c' :
  inv c order → settled c → buffers c !! i = Some b → valid b = true →
  change_ok c i (strip (set_dirty false b)) c' →
  dev_content (disk c') (block_number b) = data b →
  (∀ m, m ≠ block_number b → dev_content (disk c') m = dev_content (disk c) m) →
  settled c'.
Proof.
  intros Hinv Hs Hb Hv Hch Hd Hother n j bj Hj Hdt.
  apply (change_cached c order i _ _ _ _ _ Hinv Hch) in Hj as [(-> & -> & _ & <-)|[Hji Hj]]; [done|].
  rewrite Hother; [by eapply Hs|]. intros ->. apply Hji.
  eapply inv_unique; [exact Hinv|exact Hj|]. apply cached_buffer. eauto.
Qed.

Lemma settled_failed_write c order i b dk :
  inv c order → settled c → buffers c !! i = Some b → valid b = true → dirty b = true →
  (∀ m, m ≠ block_number b → dev_content dk m = dev_content (disk c) m) →
  settled (set_disk dk c).
Proof.
  intros Hinv Hs Hb Hv Hdt Hother n j bj Hj Hdj. change (cached c n j bj) in Hj. simpl.
  rewrite Hother; [by eapply Hs|]. intros ->.
  assert (cached c (block_number b) i (strip b)) as Hc by (apply cached_buffer; eauto).
  pose proof (inv_unique _ _ Hinv _ _ _ _ _ Hj Hc) as ->.
  destruct Hj as [Hj _], Hc as [Hc _]. rewrite Hj in Hc. injection Hc as ->. simpl in Hdj. congruence.
Qed.

(** What one iteration of [flush] achieves. *)
Lemma wp_flush_step c order i b :
  inv c order → settled c → buffers c !! i = Some b →
  wp (if valid b && dirty b then write_back_buffer (Buf i) else mret true) c (λ ok c',
    inv c' order ∧ settled c' ∧ (∀ m, view c' m = view c m) ∧
    (if ok then clean_below c i → clean_below c' (S i)
     else ∃ dk, c' = set_disk dk c ∧ valid b = true ∧
       dev_write (block_number b) (data b) (disk c) = (false, dk))).
Proof.
  intros Hinv Hs Hb. destruct (valid b && dirty b) eqn:E.
  - apply andb_true_iff in E as [Hv Hd].
    wp_use wp_write_back_buffer; [exact Hinv|exact Hb|done|by right|].
    intros ok c' (Hinv' & Hview & Hok). split; [done|]. destruct ok.
    + destruct Hok as (Hch & _ & Hc1 & Hc2 & _).
      split; [exact (settled_written _ _ _ _ _ Hinv Hs Hb Hv Hch Hc1 Hc2)|]. split; [done|].
      intros Hcl j bj Hj Hbj Hvj.
      rewrite (updated_lookup _ _ _ _ _ j Hinv (change_index _ _ _ _ Hch) (change_updated _ _ _ _ Hch)) in Hbj.
      case_decide; [by injection Hbj as <-|]. eapply Hcl; [|done|done]. lia.
    + destruct Hok as (dk & -> & Hw).
      pose proof (inv_buf _ _ Hinv _ _ (payloads_lookup _ _ _ Hb)) as (_ & Hdok & _).
      destruct (dev_write_spec _ _ _ _ _ (inv_disk _ _ Hinv) Hdok Hw) as (_ & Hother & _).
      split; [exact (settled_failed_write _ _ _ _ _ Hinv Hs Hb Hv Hd Hother)|]. split; [done|]. by exists dk.
  - wp_step. split; [done|]. split; [done|]. split; [done|].
    intros Hcl j bj Hj Hbj Hvj. destruct (decide (j = i)) as [->|]; [|eapply Hcl; [|done|done]; lia].
    apply payloads_lookup_inv in Hbj as (b0 & Hb0 & ->). simplify_eq. simpl in *. by rewrite Hvj in E.
Qed.

(** The device refused to write some block. *)
Definition a_write_fails : Prop :=
  ∃ n d dk dk', dev_ok dk ∧ block_ok d ∧ dev_write n d dk = (false, dk').

Lemma wp_flush_loop count i c order acc :
  inv c order → settled c → (i + count = 30)%nat →
  (acc = true → clean_below c i) → (acc = false → a_write_fails) →
  wp (flush_loop count i acc) c (λ ok c',
    inv c' order ∧ settled c' ∧ (∀ m, view c' m = view c m) ∧
    (ok = true → clean c') ∧ (ok = false → a_write_fails)).
Proof.
  revert i c acc. induction count as [|count IH]; intros i c acc Hinv Hs Hi Hcl Hf; simpl.
  { wp_step. assert (i = 30%nat) as -> by lia. done. }
  destruct (inv_lookup _ _ i Hinv) as [b Hb]; [lia|].
  wp_step. eapply wp_deref; [exact Hb|]. wp_step.
  wp_use wp_flush_step; [exact Hinv|exact Hs|exact Hb|].
  intros ok c1 (Hinv1 & Hs1 & Hv1 & Hok).
  wp_use (IH (S i) c1 (if negb ok then false else acc)); [done|done|lia|..].
  - destruct ok; [|done]. simpl. intros Hacc. by apply Hok, Hcl.
  - destruct ok; [done|]. intros _. destruct Hok as (dk & _ & Hv & Hw).
    pose proof (inv_buf _ _ Hinv _ _ (payloads_lookup _ _ _ Hb)) as (_ & Hdok & _).
    exists (block_number b), (data b), (disk c), dk. split; [apply Hinv|done].
  - intros r c2 (? & ? & Hv2 & ?). split; [done|]. split; [done|].
    split; [intros m; by rewrite Hv2|done].
Qed.

Lemma wp_flush c order :
  inv c order → settled c →
  wp flush c (λ ok c',
    inv c' order ∧ settled c' ∧ (∀ m, view c' m = view c m) ∧
    (ok = true → clean c') ∧ (ok = false → a_write_fails)).
Proof. intros. apply wp_flush_loop; [done|done|done| |done]. intros _ j b Hj. lia. Qed.

(** When no change waits, the device holds what the clients see. *)
Lemma clean_content c order n :
  inv c order → settled c → clean c → view c n = dev_content (disk c) n.
Proof.
  intros Hinv Hs Hcl. unfold view. destruct (find_block c n) as [[i b]|] eqn:E; [|done].
  apply find_block_Some in E. eapply Hs; [exact E|].
  pose proof (inv_lookup_lt _ _ _ _ Hinv (proj1 E)).
  destruct E as (? & ? & _). by eapply Hcl.
Qed.

(** ** mark_dirty *)

Lemma wp_mark_dirty c order i b :
  inv c order → buffers c !! i = Some b → valid b = true →
  wp (mark_dirty (Buf i)) c (λ _ c',
    inv c' order ∧ (∀ m, view c' m = view c m) ∧ disk c' = disk c ∧
    payloads c' = <[i := set_dirty true (strip b)]> (payloads c)).
Proof.
  intros Hinv Hb Hv. eapply wp_assign; [exact Hb|].
  pose proof (payloads_lookup _ _ _ Hb) as Hpb.
  destruct (inv_buf _ _ Hinv _ _ Hpb) as (? & ? & _).
  assert (change_ok c i (set_dirty true (strip b)) (insert_node (Buf i) (set_dirty true b) c)) as Hch.
  { split; [by eapply inv_lookup_lt|by eapply (updated_insert_node c i b)|done| |done|apply Hinv|done].
    intros _ j bj Hj Hcj. apply Hj. eapply inv_unique; [done|exact Hcj|].
    apply cached_buffer. eauto. }
  split; [by eapply inv_change|]. split; [intros m; by eapply view_keep|].
  split; [done|]. apply (change_updated _ _ _ _ Hch).
Qed.
End ops.
