(* ===== verification/BufferCacheStore.v ===== *)
(** * The buffer cache is a block store

    [class BlockStore] of include/buffer_cache.hpp over a reliable device keeps
    the promises of [BlockStoreSpec]: what it lends out are the blocks of the
    device, as long as at most thirty are borrowed at once. *)
From S2P Require Import Prelude BlockStore BufferCache BufferCacheLinks BufferCacheSpec BufferCacheOps.

(** How often [n] occurs in [hs]. *)
Definition holds (hs : list Z) (n : Z) : Z := Z.of_nat (length (filter (n =.) hs)).

Lemma holds_cons b hs n : holds (b :: hs) n = holds hs n + (if decide (n = b) then 1 else 0).
Proof. unfold holds. rewrite filter_cons. case_decide; cbn [length]; lia. Qed.

Lemma holds_elem hs n : n ∈ hs ↔ 0 < holds hs n.
Proof.
  unfold holds. split.
  - intros Hn. destruct (filter (n =.) hs) eqn:E; [|simpl; lia].
    assert (n ∈ filter (n =.) hs) as H by (by apply list_elem_of_filter).
    rewrite E in H. by apply not_elem_of_nil in H.
  - destruct (filter (n =.) hs) as [|m l] eqn:E; [simpl; lia|]. intros _.
    assert (m ∈ filter (n =.) hs) as [-> H]%list_elem_of_filter by (rewrite E; left). done.
Qed.

Section store.
Context {D : Type} {dev : BlockDevice D} `{!DeviceSpec dev, !ReliableDevice dev}.
Implicit Types (c : Cache D) (order : list nat) (n m : Z) (i j : nat) (b : Buffer) (hs : list Z).

(** The cache lends out exactly the blocks [hs], and no change waits in it. *)
Record lending hs c : Prop := {
  lending_inv : ∃ order, inv c order;
  lending_settled : settled c;
  lending_clean : clean c;
  lending_refs : ∀ n, refs c n = holds hs n;
  lending_pinned : ∀ i b, payloads c !! i = Some b → refcnt b ≠ 0 → valid b = true;
  lending_range : Forall (λ n, 0 <= n < dev_blocks) hs;
  lending_few : (length hs <= 30)%nat;
}.

(** ** One payload changes *)

Lemma cached_insert c c' order i b' n j bj :
  inv c order → (i < 30)%nat → payloads c' = <[i := b']> (payloads c) →
  cached c' n j bj ↔
    (j = i ∧ bj = b' ∧ valid b' = true ∧ block_number b' = n) ∨ (j ≠ i ∧ cached c n j bj).
Proof.
  intros Hinv Hi Hp. unfold cached. rewrite Hp.
  assert (i < length (payloads c))%nat as Hlen.
  { rewrite length_payloads. by destruct (inv_lru _ _ Hinv) as (-> & _). }
  destruct (decide (j = i)) as [->|Hji].
  - rewrite list_lookup_insert_eq by done. naive_solver.
  - rewrite list_lookup_insert_ne by done. naive_solver.
Qed.

Lemma refs_cached c order n i b : inv c order → cached c n i b → refs c n = refcnt b.
Proof. intros Hinv Hc. unfold refs. by rewrite (find_block_cached _ _ _ _ _ Hinv Hc). Qed.

Lemma refs_uncached c n : (∀ i b, ¬ cached c n i b) → refs c n = 0.
Proof. intros H. unfold refs. by rewrite (find_block_uncached _ _ H). Qed.

Lemma refs_pos c n : 0 < refs c n → ∃ i b, cached c n i b ∧ refcnt b = refs c n.
Proof.
  unfold refs. destruct (find_block c n) as [[i b]|] eqn:E; [|lia].
  intros _. exists i, b. split; [by apply find_block_Some|done].
Qed.

(** The count of references to the blocks after payload [i], which held [b],
    has become [b'], when [b] and [b'] hold the same block or [b] was unused. *)
Lemma refs_insert c c' order order' i b b' n :
  inv c order → inv c' order' → payloads c !! i = Some b →
  payloads c' = <[i := b']> (payloads c) → valid b' = true →
  (refcnt b = 0 ∨ (valid b = true ∧ block_number b = block_number b')) →
  refs c' n = if decide (n = block_number b') then refcnt b' else refs c n.
Proof.
  intros Hinv Hinv' Hb Hp Hv Hold.
  pose proof (inv_lookup_lt _ _ _ _ Hinv Hb) as Hi.
  pose proof (λ n j bj, cached_insert c c' order i b' n j bj Hinv Hi Hp) as Hcc.
  case_decide as Hn.
  - apply (refs_cached _ order' _ i); [done|]. apply Hcc. by left.
  - destruct (cached_dec c n) as [(j & bj & Hj)|Hnone].
    + rewrite (refs_cached c order n j bj Hinv Hj). destruct (decide (j = i)) as [->|Hji].
      * destruct Hj as (Hj & Hvj & Hnj). rewrite Hb in Hj. injection Hj as <-.
        destruct Hold as [->|[_ Hold]]; [|congruence].
        apply refs_uncached. intros k bk [(-> & -> & _ & ?)|[Hk Hck]]%Hcc; [congruence|].
        apply Hk. by eapply (inv_unique _ _ Hinv n k i bk b).
      * apply (refs_cached _ order' _ j); [done|]. apply Hcc. by right.
    + rewrite (refs_uncached c n Hnone). apply refs_uncached.
      intros k bk [(-> & -> & _ & ?)|[Hk Hck]]%Hcc; [congruence|]. by eapply Hnone.
Qed.

(** A borrowed block keeps its buffer when an unused one is taken over. *)
Lemma cached_elsewhere c c' order i b b' n j bj :
  inv c order → payloads c !! i = Some b → payloads c' = <[i := b']> (payloads c) →
  refcnt b = 0 → 0 < refs c n → cached c n j bj → cached c' n j bj.
Proof.
  intros Hinv Hb Hp Hr Hn Hc. pose proof (inv_lookup_lt _ _ _ _ Hinv Hb) as Hi.
  apply (cached_insert c c' order i b' n j bj Hinv Hi Hp). right. split; [|done].
  intros ->. rewrite (refs_cached _ _ _ _ _ Hinv Hc) in Hn.
  destruct Hc as (Hc & _). rewrite Hb in Hc. injection Hc as <-. lia.
Qed.

(** ** There is an unused buffer while fewer than thirty blocks are borrowed *)

Lemma in_use_injects c order hs l :
  inv c order → (∀ n, refs c n = holds hs n) →
  (∀ i b, payloads c !! i = Some b → refcnt b ≠ 0 → valid b = true) →
  NoDup l → (∀ j, j ∈ l → (j < 30)%nat ∧ in_use c j) → (length l <= length hs)%nat.
Proof.
  intros Hinv Hrefs Hpin Hnd Hl.
  set (num j := match payloads c !! j with Some b => block_number b | None => 0 end).
  assert (∀ j, j ∈ l → ∃ b, cached c (num j) j b ∧ refcnt b ≠ 0) as Hcj.
  { intros j Hj. destruct (Hl _ Hj) as [Hlt Hu].
    destruct (inv_lookup _ _ _ Hinv Hlt) as [b0 Hb0%payloads_lookup].
    exists (strip b0). split; [|by apply Hu]. unfold num. rewrite Hb0.
    split; [done|]. split; [|done]. apply (Hpin _ _ Hb0). by apply Hu. }
  rewrite <- (length_fmap num l). apply submseteq_length, NoDup_submseteq.
  - apply NoDup_fmap_2_strong; [|done]. intros i j Hi Hj E.
    destruct (Hcj _ Hi) as (bi & Hbi & _), (Hcj _ Hj) as (bj & Hbj & _).
    rewrite E in Hbi. by eapply inv_unique.
  - intros n (j & -> & Hj)%list_elem_of_fmap. destruct (Hcj _ Hj) as (b & Hb & Hr).
    apply holds_elem. rewrite <- Hrefs, (refs_cached _ _ _ _ _ Hinv Hb).
    destruct (inv_buf _ _ Hinv _ _ (proj1 Hb)) as ((? & _) & _). lia.
Qed.

Lemma not_exhausted c order hs :
  inv c order → lending hs c → (length hs < 30)%nat → ¬ (∀ j, j ∈ order → in_use c j).
Proof.
  intros Hinv Hl Hlt Hall.
  assert (length order <= length hs)%nat; [|rewrite (inv_order_length _ _ Hinv) in *; lia].
  destruct (inv_lru _ _ Hinv) as (_ & Hperm & _).
  eapply in_use_injects; [exact Hinv|apply Hl|apply Hl| |].
  - rewrite Hperm. apply NoDup_seq.
  - intros j Hj. split; [|by apply Hall]. rewrite Hperm, elem_of_seq in Hj. lia.
Qed.

(** ** acquire *)

Lemma lending_hit hs c c' order order' i b n :
  lending hs c → 0 <= n < dev_blocks → (length hs < 30)%nat →
  inv c order → inv c' order' → cached c n i b → disk c' = disk c →
  payloads c' = <[i := set_refcnt (refcnt b + 1) b]> (payloads c) →
  lending (n :: hs) c'.
Proof.
  intros Hl Hn Hlt Hinv Hinv' Hc Hd Hp. pose proof Hc as (Hb & Hv & Hbn).
  pose proof (inv_lookup_lt _ _ _ _ Hinv Hb) as Hi.
  pose proof (λ n j bj, cached_insert c c' order i _ n j bj Hinv Hi Hp) as Hcc.
  split.
  - by exists order'.
  - intros m j bj [(-> & -> & _ & Hm)|[_ Hj]]%Hcc Hdt; rewrite Hd.
    + simpl in *. rewrite <- Hm, Hbn. by eapply (lending_settled _ _ Hl).
    + by eapply (lending_settled _ _ Hl).
  - intros j bj Hj. rewrite Hp. intros [(<- & <- & _)|(_ & Hbj)]%list_lookup_insert_Some Hvj.
    + by eapply (lending_clean _ _ Hl i b).
    + by eapply (lending_clean _ _ Hl j bj).
  - intros m. rewrite (refs_insert c c' order order' i b _ m Hinv Hinv' Hb Hp) by auto.
    rewrite holds_cons. simpl. rewrite Hbn. case_decide; [|rewrite (lending_refs _ _ Hl); lia].
    subst m. rewrite <- (lending_refs _ _ Hl), (refs_cached _ _ _ _ _ Hinv Hc). done.
  - intros j bj. rewrite Hp. intros [(<- & <- & _)|(_ & Hbj)]%list_lookup_insert_Some; [done|].
    by apply (lending_pinned _ _ Hl j).
  - constructor; [done|apply Hl].
  - simpl. lia.
Qed.

Lemma lending_miss hs c c' order order' i b n :
  lending hs c → 0 <= n < dev_blocks → (length hs < 30)%nat →
  inv c order → inv c' order' → find_block c n = None → payloads c !! i = Some b → refcnt b = 0 →
  payloads c' = <[i := mkBuffer n true false 1 Null Null (view c n)]> (payloads c) →
  (∀ m, dev_content (disk c') m = dev_content (disk c) m) →
  lending (n :: hs) c'.
Proof.
  intros Hl Hn Hlt Hinv Hinv' Hnone Hb Hr Hp Hd.
  pose proof (inv_lookup_lt _ _ _ _ Hinv Hb) as Hi.
  pose proof (λ n j bj, cached_insert c c' order i _ n j bj Hinv Hi Hp) as Hcc.
  split.
  - by exists order'.
  - intros m j bj [(-> & -> & _ & <-)|[_ Hj]]%Hcc Hdt; rewrite Hd.
    + simpl. unfold view. by rewrite Hnone.
    + by eapply (lending_settled _ _ Hl).
  - intros j bj Hj. rewrite Hp. intros [(<- & <- & _)|(_ & Hbj)]%list_lookup_insert_Some Hvj; [done|].
    by eapply (lending_clean _ _ Hl j bj).
  - intros m. rewrite (refs_insert c c' order order' i b _ m Hinv Hinv' Hb Hp) by auto.
    rewrite holds_cons. simpl. case_decide; [|rewrite (lending_refs _ _ Hl); lia].
    subst m. rewrite <- (lending_refs _ _ Hl), refs_uncached; [done|]. by apply find_block_None.
  - intros j bj. rewrite Hp. intros [(<- & <- & _)|(_ & Hbj)]%list_lookup_insert_Some; [done|].
    by apply (lending_pinned _ _ Hl j).
  - constructor; [done|apply Hl].
  - simpl. lia.
Qed.

(** With a reliable device and unused buffers, [read] finds the block in the
    cache or fills a buffer with it. *)
Lemma read_outcome_lending hs c order n r c' order' :
  lending hs c → 0 <= n < dev_blocks → (length hs < 30)%nat → inv c order → inv c' order' →
  read_outcome c order n r c' →
  ∃ i bi, r = Buf i ∧ lending (n :: hs) c' ∧ cached c' n i bi ∧
    (∀ m j bj, m ∈ hs → cached c m j bj → ∃ bj', cached c' m j bj').
Proof.
  intros Hl Hn Hlt Hinv Hinv' Hout.
  assert (∀ m, m ∈ hs → 0 < refs c m) as Href.
  { intros m. by rewrite (lending_refs _ _ Hl), holds_elem. }
  destruct Hout as [i b c' Hc Hd Hp|i b c' l1 l2 Hnone _ Hb Hr _ Hp Hd|Hnone Hall|c' Hnone Hf
    |i b c' d dk dk' Hnone Hb Hr Hread Hok Hdk Hp].
  - pose proof (inv_lookup_lt _ _ _ _ Hinv (proj1 Hc)) as Hi. exists i, (set_refcnt (refcnt b + 1) b).
    split; [done|]. split; [by eapply lending_hit|].
    pose proof (λ n j bj, cached_insert c c' order i _ n j bj Hinv Hi Hp) as Hcc.
    split; [apply Hcc; left; by destruct Hc as (? & ? & ?)|]. intros m j bj _ Hj.
    destruct (decide (j = i)) as [->|Hji]; [|exists bj; apply Hcc; by right].
    eexists. apply Hcc. left. split; [done|]. split; [done|].
    destruct Hc as (Hb & ? & ?), Hj as (Hj & ? & ?). rewrite Hb in Hj. by injection Hj as <-.
  - pose proof (inv_lookup_lt _ _ _ _ Hinv Hb) as Hi.
    assert (dirty b = false) as Hdt.
    { destruct (inv_buf _ _ Hinv _ _ Hb) as (_ & _ & Hdv).
      destruct (dirty b) eqn:E; [|done]. rewrite <- E.
      by eapply (lending_clean _ _ Hl i b); [|done|apply Hdv]. }
    exists i, (mkBuffer n true false 1 Null Null (view c n)). split; [done|].
    split; [exact (lending_miss hs c c' order order' i b n Hl Hn Hlt Hinv Hinv' Hnone Hb Hr Hp (Hd Hdt))|].
    split; [apply (cached_insert c c' order i _ n i _ Hinv Hi Hp); by left|].
    intros m j bj Hm Hj. exists bj. exact (cached_elsewhere c c' order i b _ m j bj Hinv Hb Hp Hr (Href _ Hm) Hj).
  - exfalso. exact (not_exhausted _ _ _ Hinv Hl Hlt Hall).
  - exfalso. destruct Hf as (i & b & dk & Hb & _ & Hdt & _).
    destruct (inv_buf _ _ Hinv _ _ Hb) as (_ & _ & Hdv).
    pose proof (lending_clean _ _ Hl i b (inv_lookup_lt _ _ _ _ Hinv Hb) Hb (Hdv Hdt)). congruence.
  - exfalso. by pose proof (dev_read_reliable _ _ _ _ _ _ Hok Hn Hread).
Qed.

Lemma lending_max hs c order n i b :
  lending hs c → inv c order → cached c n i b → refcnt b < INT_MAX.
Proof.
  intros Hl Hinv Hc. rewrite <- (refs_cached _ _ _ _ _ Hinv Hc), (lending_refs _ _ Hl).
  unfold holds. pose proof (lending_few _ _ Hl). pose proof (length_filter (n =.) hs).
  unfold INT_MAX. lia.
Qed.

Lemma wp_BlockStore_acquire hs c n :
  lending hs c → 0 <= n < dev_blocks → (length hs < 30)%nat →
  wp (BlockStore_acquire n) c (λ r c', ∃ i bi,
    r = mkBlockRef n true (Some i) ∧ lending (n :: hs) c' ∧ cached c' n i bi ∧
    (∀ m, view c' m = view c m) ∧
    (∀ m j bj, m ∈ hs → cached c m j bj → ∃ bj', cached c' m j bj')).
Proof.
  intros Hl Hn Hlt. destruct (lending_inv _ _ Hl) as [order Hinv].
  unfold BlockStore_acquire. wp_step. wp_use wp_read; [exact Hinv| |].
  { intros i b Hc. exact (lending_max _ _ _ _ _ _ Hl Hinv Hc). }
  intros r c' (order' & Hinv' & Hv & Hout).
  destruct (read_outcome_lending _ _ _ _ _ _ _ Hl Hn Hlt Hinv Hinv' Hout) as (i & bi & -> & Hl' & Hc' & Hk).
  wp_steps. exists i, bi. done.
Qed.

(** ** Changing a borrowed block *)

Lemma lending_held hs c order n i b :
  lending hs c → inv c order → n ∈ hs → cached c n i b → refcnt b ≠ 0.
Proof.
  intros Hl Hinv Hn Hc. rewrite <- (refs_cached _ _ _ _ _ Hinv Hc), (lending_refs _ _ Hl).
  apply holds_elem in Hn. lia.
Qed.

Lemma lending_rewritten hs c c' order n i b d :
  lending hs c → n ∈ hs → inv c order → inv c' order → cached c n i b →
  payloads c' = <[i := set_dirty false (set_data d b)]> (payloads c) →
  dev_content (disk c') n = d →
  (∀ m, m ≠ n → dev_content (disk c') m = dev_content (disk c) m) →
  lending hs c'.
Proof.
  intros Hl Hn Hinv Hinv' Hc Hp Hd Hother. pose proof Hc as (Hb & Hv & Hbn).
  pose proof (inv_lookup_lt _ _ _ _ Hinv Hb) as Hi.
  pose proof (λ n j bj, cached_insert c c' order i _ n j bj Hinv Hi Hp) as Hcc.
  split.
  - by exists order.
  - intros m j bj [(-> & -> & _ & <-)|[Hji Hj]]%Hcc Hdt; [simpl; by rewrite Hbn|].
    rewrite Hother; [by eapply (lending_settled _ _ Hl)|]. intros ->. apply Hji.
    exact (inv_unique _ _ Hinv n j i bj b Hj Hc).
  - intros j bj Hj. rewrite Hp. intros [(<- & <- & _)|(_ & Hbj)]%list_lookup_insert_Some Hvj; [done|].
    by eapply (lending_clean _ _ Hl j bj).
  - intros m. rewrite (refs_insert c c' order order i b _ m Hinv Hinv' Hb Hp) by auto.
    rewrite <- (lending_refs _ _ Hl). simpl. case_decide as Hm; [|done].
    by rewrite Hm, Hbn, (refs_cached _ _ _ _ _ Hinv Hc).
  - intros j bj. rewrite Hp. intros [(<- & <- & _)|(_ & Hbj)]%list_lookup_insert_Some; [done|].
    by apply (lending_pinned _ _ Hl j).
  - apply Hl.
  - apply Hl.
Qed.

Lemma wp_poke_write_back hs c n i b d :
  lending hs c → n ∈ hs → cached c n i b → block_ok d →
  wp (_ ← poke_data i d; BlockStore_write_back n) c (λ ok c',
    ok = true ∧ lending hs c' ∧
    (∀ m, view c' m = if decide (m = n) then d else view c m) ∧
    (∀ m j bj, cached c m j bj → ∃ bj', cached c' m j bj')).
Proof.
  intros Hl Hn Hc Hd. destruct (lending_inv _ _ Hl) as [order Hinv].
  pose proof (lending_held _ _ _ _ _ _ Hl Hinv Hn Hc) as Hr.
  pose proof Hc as (b0 & Hb0 & -> & Hv & Hbn)%cached_buffer.
  wp_step. wp_use wp_poke_data; [exact Hinv|exact Hb0|done|done|done|].
  intros _ c1 (Hinv1 & -> & Hch1 & Hv1). unfold BlockStore_write_back. wp_step.
  wp_use wp_lookup; [exact Hinv1|]. intros r c1 [-> ->].
  assert (buffers (insert_node (Buf i) (set_data d b0) c) !! i = Some (set_data d b0)) as Hb1.
  { simpl. apply list_lookup_insert_eq. by apply lookup_lt_Some in Hb0. }
  assert (cached (insert_node (Buf i) (set_data d b0) c) n i (strip (set_data d b0))) as Hc1.
  { apply cached_buffer. eauto. }
  rewrite (find_block_cached _ _ _ _ _ Hinv1 Hc1).
  wp_use wp_write; [exact Hinv1|exact Hb1|done|done|].
  intros ok c2 (Hinv2 & Hv2 & Hok). destruct ok.
  - destruct Hok as (Hp2 & Hd2 & Hother). destruct (change_updated _ _ _ _ Hch1) as (Hp1 & _).
    rewrite Hp1, list_insert_insert_eq in Hp2. simpl in Hd2, Hother. rewrite Hbn in Hd2, Hother, Hv1.
    split; [done|]. split; [exact (lending_rewritten _ _ _ _ _ _ _ d Hl Hn Hinv Hinv2 Hc Hp2 Hd2 Hother)|].
    split; [intros m; by rewrite Hv2|]. intros m j bj Hj.
    pose proof (λ n j bj, cached_insert c c2 order i _ n j bj Hinv (inv_lookup_lt _ _ _ _ Hinv (proj1 Hc)) Hp2) as Hcc.
    destruct (decide (j = i)) as [->|Hji]; [|exists bj; apply Hcc; by right].
    eexists. apply Hcc. left. split; [done|]. split; [done|]. split; [done|]. simpl. rewrite Hbn.
    destruct Hj as (Hj & _ & <-), Hc as (Hc & _ & <-). rewrite Hj in Hc. by injection Hc as ->.
  - destruct Hok as (dk & -> & Hw). exfalso.
    pose proof (Forall_elem _ _ _ (lending_range _ _ Hl) Hn) as Hrange. simpl in Hw. rewrite Hbn in Hw.
    by pose proof (dev_write_reliable _ _ _ _ _ (inv_disk _ _ Hinv) Hd Hrange Hw).
Qed.

(** ** release *)

Lemma lending_released hs c c' order order' n i b :
  lending (n :: hs) c → inv c order → inv c' order' → cached c n i b → disk c' = disk c →
  payloads c' = <[i := set_refcnt (Z.max 0 (refcnt b - 1)) b]> (payloads c) →
  lending hs c'.
Proof.
  intros Hl Hinv Hinv' Hc Hd Hp. pose proof Hc as (Hb & Hv & Hbn).
  pose proof (inv_lookup_lt _ _ _ _ Hinv Hb) as Hi.
  pose proof (λ n j bj, cached_insert c c' order i _ n j bj Hinv Hi Hp) as Hcc.
  split.
  - by exists order'.
  - intros m j bj [(-> & -> & _ & Hm)|[_ Hj]]%Hcc Hdt; rewrite Hd.
    + simpl in *. rewrite <- Hm, Hbn. by eapply (lending_settled _ _ Hl).
    + by eapply (lending_settled _ _ Hl).
  - intros j bj Hj. rewrite Hp. intros [(<- & <- & _)|(_ & Hbj)]%list_lookup_insert_Some Hvj.
    + by eapply (lending_clean _ _ Hl i b).
    + by eapply (lending_clean _ _ Hl j bj).
  - intros m. rewrite (refs_insert c c' order order' i b _ m Hinv Hinv' Hb Hp) by auto.
    pose proof (lending_refs _ _ Hl m) as Hm. rewrite holds_cons in Hm. simpl. rewrite Hbn.
    case_decide; [|lia]. subst m. rewrite (refs_cached _ _ _ _ _ Hinv Hc) in Hm. unfold holds in *. lia.
  - intros j bj. rewrite Hp. intros [(<- & <- & _)|(_ & Hbj)]%list_lookup_insert_Some; [done|].
    by apply (lending_pinned _ _ Hl j).
  - apply (Forall_cons_1 _ _ _ (lending_range _ _ Hl)).
  - pose proof (lending_few _ _ Hl). simpl in *. lia.
Qed.

Lemma wp_BlockStore_release hs c n :
  lending (n :: hs) c →
  wp (BlockStore_release n) c (λ _ c',
    lending hs c' ∧ (∀ m, view c' m = view c m) ∧
    (∀ m j bj, cached c m j bj → ∃ bj', cached c' m j bj')).
Proof.
  intros Hl. destruct (lending_inv _ _ Hl) as [order Hinv].
  assert (0 < refs c n) as (i & b & Hc & _)%refs_pos.
  { rewrite (lending_refs _ _ Hl), holds_cons, decide_True by done. unfold holds. lia. }
  unfold BlockStore_release. wp_step. wp_use wp_lookup; [exact Hinv|]. intros r c1 [-> ->].
  rewrite (find_block_cached _ _ _ _ _ Hinv Hc).
  pose proof Hc as (b0 & Hb0 & -> & Hv & Hbn)%cached_buffer.
  wp_use wp_cache_release; [exact Hinv|exact Hb0| |].
  { intros _ _ Hdt. rewrite Hbn. exact (lending_settled _ _ Hl _ _ _ Hc Hdt). }
  intros _ c' (order' & Hinv' & _ & Hv' & Hd' & Hp').
  split; [exact (lending_released _ _ _ _ _ _ _ _ Hl Hinv Hinv' Hc Hd' Hp')|]. split; [done|].
  intros m j bj Hj.
  pose proof (λ n j bj, cached_insert c c' order i _ n j bj Hinv (inv_lookup_lt _ _ _ _ Hinv (proj1 Hc)) Hp') as Hcc.
  destruct (decide (j = i)) as [->|Hji]; [|exists bj; apply Hcc; by right].
  eexists. apply Hcc. left. split; [done|]. split; [done|]. split; [done|].
  destruct Hj as (Hj & _ & <-), Hc as (Hc & _ & _). rewrite Hj in Hc. by injection Hc as ->.
Qed.

(** ** The instance *)

Lemma lending_view_ok hs c n : lending hs c → 0 <= n < dev_blocks → block_ok (view c n).
Proof.
  intros Hl _. destruct (lending_inv _ _ Hl) as [order Hinv]. unfold view.
  destruct (find_block c n) as [[i b]|] eqn:E; [|apply dev_content_ok, Hinv].
  apply find_block_Some in E as (Hb & _). by apply (inv_buf _ _ Hinv _ _ Hb).
Qed.

#[refine] Definition BufferCache_spec : BlockStoreSpec (Cache D) := {|
  bs_blocks := dev_blocks;
  bs_limit := 30;
  bs_view := view;
  bs_ok := lending;
  bs_ptr := λ c n i, ∃ b, cached c n i b;
|}.
Proof.
  - exact lending_view_ok.
  - intros hs c n Hl Hn. exact (Forall_elem _ _ _ (lending_range _ _ Hl) Hn).
  - intros hs c n Hl Hn Hlt. wp_use wp_BlockStore_acquire; [exact Hl|done|done|].
    intros r c' (i & bi & -> & Hl' & Hc' & Hv & Hk). exists i.
    split; [done|]. split; [done|]. split; [by exists bi|]. split; [done|].
    intros m j Hm [bj Hj]. by eapply Hk.
  - intros hs c n i Hl Hn [b Hc]. pose proof Hc as (b0 & Hb0 & -> & _)%cached_buffer.
    destruct (lending_inv _ _ Hl) as [order Hinv].
    simpl. unfold peek_data. wp_step. eapply (wp_deref _ _ b0); [exact Hb0|]. wp_step.
    split; [|done]. unfold view. by rewrite (find_block_cached _ _ _ _ _ Hinv Hc).
  - intros hs c n i d Hl Hn [b Hc] Hd.
    wp_use wp_poke_write_back; [exact Hl|exact Hn|exact Hc|exact Hd|].
    intros ok c' (-> & Hl' & Hv & Hk). split; [done|]. split; [done|]. split; [done|].
    intros m j _ [bj Hj]. by eapply Hk.
  - intros hs c n Hl. wp_use wp_BlockStore_release; [exact Hl|].
    intros _ c' (Hl' & Hv & Hk). split; [done|]. split; [done|].
    intros m j _ [bj Hj]. by eapply Hk.
Defined.

(** An initialised cache lends out nothing. *)
Lemma fresh_lending c : fresh (dev := dev) c → lending [] c.
Proof.
  intros (Hinv & Hcl & _). pose proof (cleared_uncached c Hcl) as Hnc. split.
  - by eexists.
  - intros n i b Hc. by apply Hnc in Hc.
  - intros i b _ Hb Hv. exfalso. by apply (Hnc (block_number b) i b).
  - intros n. rewrite refs_uncached; [done|apply Hnc].
  - intros i b Hb Hr. destruct (Hcl _ _ Hb) as (_ & _ & _ & ?). done.
  - constructor.
  - simpl. lia.
Qed.
End store.
