(* ===== verification/RamDisk.v ===== *)
(** * A reliable device: blocks kept in memory

    The device the tests of the repository put under the cache: a static array
    of blocks, whose functions fail on a block number out of range. *)
From S2P Require Import Prelude BlockStore BufferCache BufferCacheSpec.

Abbreviation Disk := (list (list Z)).

Definition disk_read (n : Z) (buffer : list Z) (d : Disk) : bool * list Z * Disk :=
  match d !! Z.to_nat n with
  | Some b => if 0 <=? n then (true, b, d) else (false, buffer, d)
  | None => (false, buffer, d)
  end.

Definition disk_write (n : Z) (buffer : list Z) (d : Disk) : bool * Disk :=
  if (0 <=? n) && (n <? Z.of_nat (length d)) then (true, <[Z.to_nat n := buffer]> d)
  else (false, d).

Definition disk_content (d : Disk) (n : Z) : list Z :=
  if 0 <=? n then default (replicate BSIZE 0) (d !! Z.to_nat n) else replicate BSIZE 0.

Definition disk_device : BlockDevice Disk :=
  mkBlockDevice (Some disk_read) (Some disk_write).

Lemma zero_block_ok : block_ok (replicate BSIZE 0).
Proof. by apply filled_ok. Qed.

Section RamDisk.
Context (size : nat).

Definition disk_ok (d : Disk) : Prop := length d = size ∧ Forall block_ok d.

#[refine] Definition disk_spec : DeviceSpec disk_device := {|
  dev_read := disk_read;
  dev_write := disk_write;
  dev_content := disk_content;
  dev_ok := disk_ok;
|}.
Proof.
  - done.
  - done.
  - intros d n [_ Hall]. unfold disk_content. destruct (0 <=? n); [|apply zero_block_ok].
    destruct (d !! Z.to_nat n) as [b|] eqn:E; [|apply zero_block_ok]. by eapply Forall_lookup_1.
  - intros n buf d ok buf' d' Hd Hb. unfold disk_read, disk_content. pose proof Hd as [_ Hall].
    destruct (d !! Z.to_nat n) as [b|] eqn:E; [destruct (0 <=? n)|]; intros [= <- <- <-]; try done.
    split; [done|]. split; [by eapply Forall_lookup_1|]. done.
  - intros n buf d ok d' [Hlen Hall] Hb. unfold disk_write, disk_content.
    destruct ((0 <=? n) && (n <? Z.of_nat (length d))) eqn:E; intros [= <- <-]; [|done].
    split; [split; [by rewrite length_insert|by apply Forall_insert]|]. split.
    + intros m Hm. destruct (0 <=? m) eqn:Em; [|done].
      by rewrite list_lookup_insert_ne by lia.
    + intros _. replace (0 <=? n) with true by lia. by rewrite list_lookup_insert_eq by lia.
Defined.

#[refine] Definition disk_reliable : @ReliableDevice _ disk_device disk_spec := {|
  dev_blocks := Z.of_nat size;
|}.
Proof.
  - intros n buf d ok buf' d' [Hlen _] Hn. simpl. unfold disk_read.
    destruct (lookup_lt_is_Some_2 d (Z.to_nat n)) as [b ->]; [lia|].
    replace (0 <=? n) with true by lia. by intros [= <- _ _].
  - intros n buf d ok d' [Hlen _] _ Hn. simpl. unfold disk_write.
    replace ((0 <=? n) && (n <? Z.of_nat (length d))) with true by lia. by intros [= <- _].
Defined.

Definition zero_disk : Disk := replicate size (replicate BSIZE 0).

Lemma zero_disk_ok : disk_ok zero_disk.
Proof. split; [apply length_replicate|]. apply Forall_replicate, zero_block_ok. Qed.
End RamDisk.
