(* ===== verification/StoreRefinement.v ===== *)
(** * Block stores are interchangeable

    A client of [IBlockStore] that borrows and returns blocks in nested scopes,
    reads and rewrites them, cannot tell two stores with the same contents
    apart. *)
From S2P Require Import Prelude BlockStore.

(** * Borrowing blocks in nested scopes

    What the client code relies on: the rules for [with_block] over any store
    that keeps the promises of [BlockStoreSpec]. *)

(** The disk contents [f] with block [b] replaced. *)
Definition upd (f : Z → list Z) (b : Z) (d : list Z) : Z → list Z :=
  λ c, if decide (c = b) then d else f c.

Lemma upd_eq f b d : upd f b d b = d.
Proof. unfold upd. by rewrite decide_True. Qed.
Lemma upd_ne f b d c : c ≠ b → upd f b d c = f c.
Proof. intros. unfold upd. by rewrite decide_False. Qed.

Lemma wp_bind_assoc {St A B C} (m : M St A) (w : A → M St B) (k : B → M St C) s
    (Q : C → St → Prop) :
  wp (a ← m; w a) s (λ b s', wp (k b) s' Q) → wp (a ← m; b ← w a; k b) s Q.
Proof.
  intros (b & s1 & Hm & c & s2 & Hk & HQ). exists c, s2. split; [|done].
  unfold mbind, M_bind in *. destruct (m s) as [[a s0]|]; [|done]. by rewrite Hm.
Qed.

Section scopes.
Context {T : Type} `{HT : IBlockStore T} {S : BlockStoreSpec T}.
Implicit Types (hs : list Z) (s : T) (f : Z → list Z).

(** [s] shows the contents [f]. *)
Definition same_view s f : Prop := ∀ b, 0 <= b < bs_blocks → bs_view s b = f b.

(** The data pointers of the blocks [hs] stay valid. *)
Definition kept hs s s' : Prop := ∀ c q, c ∈ hs → bs_ptr s c q → bs_ptr s' c q.

(** [s'] follows [s], with the blocks [hs] still borrowed, and shows [f]. *)
Definition becomes hs s s' f : Prop := bs_ok hs s' ∧ same_view s' f ∧ kept hs s s'.

Lemma kept_trans hs s1 s2 s3 : kept hs s1 s2 → kept hs s2 s3 → kept hs s1 s3.
Proof. unfold kept. auto. Qed.

Lemma kept_tail b hs s s' : kept (b :: hs) s s' → kept hs s s'.
Proof. intros H c q Hc. apply H. by right. Qed.

Lemma becomes_refl hs s : bs_ok hs s → becomes hs s s (bs_view s).
Proof. intros Hok. split; [done|]. split; [done|]. by intros c q. Qed.

Lemma becomes_ext hs s s' f g :
  becomes hs s s' f → (∀ b, 0 <= b < bs_blocks → f b = g b) → becomes hs s s' g.
Proof. intros (? & Hv & ?) Hfg. split; [done|]. split; [|done]. intros b Hb. by rewrite Hv, Hfg. Qed.

Lemma becomes_trans hs s1 s2 s3 f g :
  becomes hs s1 s2 f → becomes hs s2 s3 g → becomes hs s1 s3 g.
Proof. intros (_ & _ & H1) (H2 & H3 & H4). split; [done|]. split; [done|]. by eapply kept_trans. Qed.

Lemma becomes_after hs s1 s2 s3 f :
  same_view s2 f → kept hs s1 s2 → becomes hs s2 s3 (bs_view s2) → becomes hs s1 s3 f.
Proof.
  intros Hv Hk (Hok & Hv3 & Hk3). split; [done|]. split; [|by eapply kept_trans].
  intros b Hb. by rewrite Hv3, Hv.
Qed.

(** A second step that changes nothing, and one that changes one block. *)
Lemma becomes_same hs s1 s2 s3 f :
  becomes hs s1 s2 f → becomes hs s2 s3 (bs_view s2) → becomes hs s1 s3 f.
Proof. intros (_ & Hv & Hk). by apply becomes_after. Qed.

Lemma becomes_upd hs s1 s2 s3 f b d :
  becomes hs s1 s2 f → becomes hs s2 s3 (upd (bs_view s2) b d) → becomes hs s1 s3 (upd f b d).
Proof.
  intros H1 H2. eapply becomes_ext; [by eapply becomes_trans|].
  intros c Hc. unfold upd. case_decide; [done|]. by apply H1.
Qed.

(** The state [s] at the end of the scope of the reference [r] to block [b]:
    after the destructor, [Q] holds. *)
Definition scope_end hs b (r : BlockRef) s (Q : T → Prop) : Prop :=
  ((∃ p, r = mkBlockRef b true (Some p)) ∧ bs_ok (b :: hs) s ∧
    ∀ s', becomes hs s s' (bs_view s) → Q s') ∨
  (is_null r = true ∧ store_ r = false ∧ Q s).

(** The first step of a scope: the block is borrowed. *)
Lemma wp_with_block {A} hs s b (on_null : A) body (Q : A → T → Prop) :
  bs_ok hs s → 0 <= b < bs_blocks → (length hs < bs_limit)%nat →
  (∀ p s1, bs_ok (b :: hs) s1 → bs_ptr s1 b p → same_view s1 (bs_view s) → kept hs s s1 →
    wp (body (mkBlockRef b true (Some p))) s1 (λ ar s2, scope_end hs b ar.2 s2 (Q ar.1))) →
  wp (with_block b on_null body) s Q.
Proof.
  intros Hok Hb Hlt Hbody. unfold with_block. wp_step. wp_use bs_acquire; [exact Hok|done|done|].
  intros r s1 (p & -> & Hok1 & Hp & Hv1 & Hk1). cbn [is_null data_]. wp_step.
  wp_use Hbody; [done|done|done|done|]. intros [a r] s2 Hend. cbn [fst snd] in *.
  wp_step. destruct Hend as [((q & ->) & Hok2 & HQ)|(Hnull & Hst & HQ)]; unfold ref_reset.
  - cbn [store_ data_ block_number_]. wp_step. wp_use bs_release; [exact Hok2|].
    intros _ s3 (Hok3 & Hv3 & Hk3). wp_steps. by apply HQ.
  - rewrite Hst. by wp_steps.
Qed.

(** A scope that reads the block. *)
Lemma wp_read_scope {A} hs s b (on_null : A) (g : list Z → A) (Q : A → T → Prop) :
  bs_ok hs s → 0 <= b < bs_blocks → (length hs < bs_limit)%nat →
  (∀ s', becomes hs s s' (bs_view s) → Q (g (bs_view s b)) s') →
  wp (with_block b on_null (λ r, d ← ref_load r; mret (g d, r))) s Q.
Proof.
  intros Hok Hb Hlt HQ. eapply wp_with_block; [exact Hok|done|done|].
  intros p s1 Hok1 Hp Hv1 Hk1. wp_step. assert (b ∈ b :: hs) as Hin by left.
  wp_use bs_peek; [exact Hok1|exact Hin|exact Hp|]. intros d s2 [-> ->]. wp_step.
  left. split; [by exists p|]. split; [done|]. intros s3 H3. cbn [fst]. rewrite Hv1 by done.
  apply HQ. by eapply becomes_after.
Qed.

(** Overwriting the borrowed block and writing it back. *)
Lemma wp_save {A} hs s b p d (k : bool → M T A) (Q : A → T → Prop) :
  bs_ok hs s → b ∈ hs → bs_ptr s b p → block_ok d →
  (∀ s', becomes hs s s' (upd (bs_view s) b d) → wp (k true) s' Q) →
  wp (_ ← ref_store (mkBlockRef b true (Some p)) d;
      ok ← ref_write_back (mkBlockRef b true (Some p)); k ok) s Q.
Proof.
  intros Hok Hb Hp Hd HQ. apply wp_bind_assoc.
  wp_use bs_poke_write_back; [exact Hok|exact Hb|exact Hp|exact Hd|].
  intros ok s' (-> & Hok' & Hv' & Hk'). by apply HQ.
Qed.

(** A scope that replaces the bytes of the block by a function of them. *)
Lemma wp_update_scope {A} hs s b (on_null : A) (g : list Z → option (list Z)) d'
    (h : bool → A) (Q : A → T → Prop) :
  bs_ok hs s → 0 <= b < bs_blocks → (length hs < bs_limit)%nat →
  g (bs_view s b) = Some d' → block_ok d' →
  (∀ s', becomes hs s s' (upd (bs_view s) b d') → Q (h true) s') →
  wp (with_block b on_null (λ r,
    d ← ref_load r; d' ← defined (g d); _ ← ref_store r d'; ok ← ref_write_back r;
    mret (h ok, r))) s Q.
Proof.
  intros Hok Hb Hlt Hg Hd' HQ. eapply wp_with_block; [exact Hok|done|done|].
  intros p s1 Hok1 Hp Hv1 Hk1. wp_step. assert (b ∈ b :: hs) as Hin by left.
  wp_use bs_peek; [exact Hok1|exact Hin|exact Hp|]. intros d s2 [-> ->].
  rewrite <- Hv1 in Hg by done. wp_step. eapply wp_defined; [exact Hg|].
  eapply wp_save; [exact Hok1|exact Hin|exact Hp|exact Hd'|]. intros s2 (Hok2 & Hv2 & Hk2).
  wp_step. left. split; [by exists p|]. split; [done|]. intros s3 H3. cbn [fst].
  apply HQ. eapply becomes_after; [| |exact H3].
  - intros c Hc. rewrite Hv2 by done. unfold upd. case_decide; [done|]. by apply Hv1.
  - eapply kept_trans; [exact Hk1|]. by eapply kept_tail.
Qed.

Lemma wp_modify_scope {A} hs s b (on_null : A) (g : list Z → list Z)
    (h : bool → A) (Q : A → T → Prop) :
  bs_ok hs s → 0 <= b < bs_blocks → (length hs < bs_limit)%nat → block_ok (g (bs_view s b)) →
  (∀ s', becomes hs s s' (upd (bs_view s) b (g (bs_view s b))) → Q (h true) s') →
  wp (with_block b on_null (λ r,
    d ← ref_load r; _ ← ref_store r (g d); ok ← ref_write_back r; mret (h ok, r))) s Q.
Proof.
  intros Hok Hb Hlt Hd' HQ.
  exact (wp_update_scope hs s b on_null (λ d, Some (g d)) _ h Q Hok Hb Hlt eq_refl Hd' HQ).
Qed.

(** The same without reading first. *)
Lemma wp_overwrite_scope {A} hs s b (on_null : A) d' (h : bool → A) (Q : A → T → Prop) :
  bs_ok hs s → 0 <= b < bs_blocks → (length hs < bs_limit)%nat → block_ok d' →
  (∀ s', becomes hs s s' (upd (bs_view s) b d') → Q (h true) s') →
  wp (with_block b on_null (λ r,
    _ ← ref_store r d'; ok ← ref_write_back r; mret (h ok, r))) s Q.
Proof.
  intros Hok Hb Hlt Hd' HQ. eapply wp_with_block; [exact Hok|done|done|].
  intros p s1 Hok1 Hp Hv1 Hk1. assert (b ∈ b :: hs) as Hin by left.
  eapply wp_save; [exact Hok1|exact Hin|exact Hp|exact Hd'|]. intros s2 (Hok2 & Hv2 & Hk2).
  wp_step. left. split; [by exists p|]. split; [done|]. intros s3 H3. cbn [fst].
  apply HQ. eapply becomes_after; [| |exact H3].
  - intros c Hc. rewrite Hv2 by done. unfold upd. case_decide; [done|]. by apply Hv1.
  - eapply kept_trans; [exact Hk1|]. by eapply kept_tail.
Qed.
End scopes.


(** The client: [Load i] and [Save i d] use the [i]th borrowed block, the
    innermost first; what it does next may depend on what it has read. *)
Inductive client :=
| Return
| Borrow (b : Z) (k : client)
| Give_back (k : client)
| Load (i : nat) (k : list Z → client)
| Save (i : nat) (d : list Z) (k : bool → client).

(** What a client sees: the bytes it reads and whether its writes succeed. *)
Inductive observation := Saw (d : list Z) | Saved (ok : bool) | Refused.

Section run.
Context {T : Type} `{IBlockStore T}.

(** The execution of a client holding the references [rs]. *)
Fixpoint run (p : client) (rs : list BlockRef) : M T (list observation) :=
  match p with
  | Return => mret []
  | Borrow b k =>
      r ← acquire b;
      if is_null r then mret [Refused] else run k (r :: rs)
  | Give_back k =>
      match rs with
      | r :: rs => _ ← ref_reset r; run k rs
      | [] => stuck
      end
  | Load i k =>
      match rs !! i with
      | Some r => d ← ref_load r; os ← run (k d) rs; mret (Saw d :: os)
      | None => stuck
      end
  | Save i d k =>
      match rs !! i with
      | Some r =>
          ok ← (_ ← ref_store r d; ref_write_back r);
          os ← run (k ok) rs; mret (Saved ok :: os)
      | None => stuck
      end
  end.
End run.

(** The clients that borrow existing blocks, at most [limit] at once. *)
Fixpoint well_behaved (blocks : Z) (limit depth : nat) (p : client) : Prop :=
  match p with
  | Return => True
  | Borrow b k => 0 <= b < blocks ∧ (depth < limit)%nat ∧ well_behaved blocks limit (S depth) k
  | Give_back k => ∃ depth', depth = S depth' ∧ well_behaved blocks limit depth' k
  | Load i k => (i < depth)%nat ∧ ∀ d, block_ok d → well_behaved blocks limit depth (k d)
  | Save i d k => (i < depth)%nat ∧ block_ok d ∧ ∀ ok, well_behaved blocks limit depth (k ok)
  end.

Section refinement.
Context {T : Type} `{HT : IBlockStore T} (S : @BlockStoreSpec T HT).

(** The references [rs] are those of the blocks [hs] lent out. *)
Definition holding (s : T) (hs : list Z) (rs : list BlockRef) : Prop :=
  bs_ok hs s ∧
  Forall2 (λ b r, ∃ p, r = mkBlockRef b true (Some p) ∧ bs_ptr s b p) hs rs.

Lemma holding_mono s s' hs rs :
  Forall2 (λ b r, ∃ p, r = mkBlockRef b true (Some p) ∧ bs_ptr s b p) hs rs →
  (∀ c q, c ∈ hs → bs_ptr s c q → bs_ptr s' c q) →
  Forall2 (λ b r, ∃ p, r = mkBlockRef b true (Some p) ∧ bs_ptr s' b p) hs rs.
Proof.
  intros Hall Hk. induction Hall as [|b r hs rs (p & Hr & Hp) Hall IH]; constructor.
  - exists p. split; [done|]. apply Hk; [left|done].
  - apply IH. intros c q Hc. apply Hk. by right.
Qed.

(** The contents of an array of blocks [f] after the client. *)
Fixpoint array_run (p : client) (f : Z → list Z) (hs : list Z) : list observation * (Z → list Z) :=
  match p with
  | Return => ([], f)
  | Borrow b k => array_run k f (b :: hs)
  | Give_back k => array_run k f (tail hs)
  | Load i k =>
      let d := f (nth i hs 0) in
      let '(os, f') := array_run (k d) f hs in (Saw d :: os, f')
  | Save i d k =>
      let b := nth i hs 0 in
      let '(os, f') := array_run (k true) (λ c, if decide (c = b) then d else f c) hs in
      (Saved true :: os, f')
  end.

Lemma wp_run p s hs rs f :
  well_behaved bs_blocks bs_limit (length hs) p → holding s hs rs → same_view s f →
  wp (run p rs) s (λ os s', os = (array_run p f hs).1 ∧ same_view s' (array_run p f hs).2 ∧
    ∃ hs', bs_ok hs' s').
Proof.
  revert s hs rs f. induction p as [|b p IH|p IH|i k IH|i d k IH];
    intros s hs rs f Hwb [Hok Hrs] Hv; simpl in *.
  - wp_step. split; [done|]. split; [done|]. by exists hs.
  - destruct Hwb as (Hb & Hd & Hwb). wp_step. wp_use bs_acquire; [exact Hok|done|done|].
    intros r s' (p' & -> & Hok' & Hp' & Hv' & Hk). simpl. apply IH; [done| |].
    + split; [done|]. constructor; [by exists p'|]. eapply holding_mono; eauto.
    + intros c Hc. rewrite Hv' by done. by apply Hv.
  - destruct Hwb as (depth & Hlen & Hwb). destruct Hrs as [|b r hs rs (q & -> & Hq) Hrs]; [done|].
    wp_step. unfold ref_reset. simpl. wp_step. wp_use bs_release; [exact Hok|].
    intros _ s' (Hok' & Hv' & Hk). wp_step. apply IH.
    + by injection Hlen as ->.
    + split; [done|]. eapply holding_mono; eauto.
    + intros c Hc. rewrite Hv' by done. by apply Hv.
  - destruct Hwb as [Hi Hwb]. destruct (lookup_lt_is_Some_2 hs i Hi) as [b Hb].
    destruct (Forall2_lookup_l _ _ _ _ _ Hrs Hb) as (r & Hr & q & -> & Hq).
    assert (b ∈ hs) as Hbh by by eapply list_elem_of_lookup_2.
    rewrite Hr, (nth_lookup_Some _ _ _ _ Hb). wp_step. wp_use bs_peek; [exact Hok|exact Hbh|exact Hq|].
    intros d s' [-> ->]. pose proof (bs_held _ _ _ Hok Hbh) as Hrange. wp_step.
    rewrite <- Hv by done. wp_use (IH (bs_view s b) s hs rs f); [apply Hwb; exact (bs_view_ok _ _ _ Hok Hrange)|by split|done|].
    intros os s' [-> Hv']. wp_step. destruct (array_run _ f hs). done.
  - destruct Hwb as (Hi & Hd & Hwb). destruct (lookup_lt_is_Some_2 hs i Hi) as [b Hb].
    destruct (Forall2_lookup_l _ _ _ _ _ Hrs Hb) as (r & Hr & q & -> & Hq).
    assert (b ∈ hs) as Hbh by by eapply list_elem_of_lookup_2.
    rewrite Hr, (nth_lookup_Some _ _ _ _ Hb). wp_step.
    wp_use bs_poke_write_back; [exact Hok|exact Hbh|exact Hq|exact Hd|].
    intros ok s' (-> & Hok' & Hv' & Hk). wp_step.
    wp_use (IH true s' hs rs (λ c, if decide (c = b) then d else f c)); [done| | |].
    + split; [done|]. eapply holding_mono; eauto.
    + intros c Hc. rewrite Hv' by done. cbn. destruct (decide (c = b)); [done|]. by apply Hv.
    + intros os s2 [-> Hv2]. wp_step. destruct (array_run _ _ hs). done.
Qed.
End refinement.
