(* ===== verification/BufferCacheProps.v ===== *)
(** * The properties of the buffer cache *)
From S2P Require Import Prelude BlockStore BufferCache BufferCacheLinks BufferCacheSpec BufferCacheOps.
From S2P Require Import BufferCacheStore RamDisk StoreRefinement.

Section properties.
Context {D : Type} {dev : BlockDevice D} `{!DeviceSpec dev}.
Implicit Types (c : Cache D) (order : list nat) (n m : Z) (i j : nat) (b : Buffer).

(** C1: Over a reliable device, a client that borrows blocks through [class
    BlockStore] in nested scopes, at most thirty at once, observes an array of
    blocks: every read returns the last bytes saved, every save succeeds, no block
    is refused; and at the end every block of the device holds the bytes of the
    array (no change is left in the cache). *)
Theorem cache_is_block_array `{!ReliableDevice dev} c (p : client) :
  lending [] c → well_behaved dev_blocks 30 0 p →
  wp (run p []) c (λ os c',
    os = (array_run p (view c) []).1 ∧
    ∀ n, 0 <= n < dev_blocks →
      view c' n = (array_run p (view c) []).2 n ∧ dev_content (disk c') n = view c' n).
Proof.
  intros Hl Hp.
  wp_use (wp_run BufferCache_spec p c [] [] (view c)); [exact Hp|by split|done|].
  intros os c' (-> & Hv & hs' & Hl'). split; [done|]. intros n Hn. split; [by apply Hv|].
  destruct (lending_inv _ _ Hl') as [order Hinv]. symmetry.
  by apply (clean_content c' order); [|apply Hl'|apply Hl'].
Qed.

(** C7: [read], over any device: it keeps the invariant of the cache (list,
    reference counts, one buffer per block, clean unused buffers agree with the
    device) and the contents of every block, and ends in one of the ways of
    [read_outcome]: a hit counts one more reference; a miss fills, with the contents
    of the block, the least recently used buffer among the unused ones; nullptr is
    returned only when all buffers are in use, when the dirty victim cannot be
    written, or when the block cannot be read. *)
Theorem read_correct c order n :
  inv c order → (∀ i b, cached c n i b → refcnt b < INT_MAX) →
  wp (read n) c (λ r c', ∃ order',
    inv c' order' ∧ (∀ m, view c' m = view c m) ∧ read_outcome c order n r c').
Proof. exact (wp_read c order n). Qed.

(** [flush] keeps the contents of every block, and when it returns true the device
    holds them all; it returns false only when the device has refused a write. *)
Theorem flush_correct c order :
  inv c order → settled c →
  wp flush c (λ ok c',
    inv c' order ∧ (∀ m, view c' m = view c m) ∧
    (ok = true → ∀ n, dev_content (disk c') n = view c n) ∧
    (ok = false → a_write_fails (dev := dev))).
Proof.
  intros Hinv Hs. wp_use wp_flush; [exact Hinv|exact Hs|].
  intros ok c' (Hinv' & Hs' & Hv & Hcl & Hf). split; [done|]. split; [done|]. split; [|done].
  intros Hok n. rewrite <- Hv. symmetry. apply (clean_content c' order); auto.
Qed.

(** [write] of a borrowed buffer puts its bytes on the device, changes no other
    block and no contents; when the device fails the buffer keeps them. *)
Theorem write_correct c order i b :
  inv c order → buffers c !! i = Some b → valid b = true → refcnt b ≠ 0 →
  wp (write (Buf i)) c (λ ok c',
    inv c' order ∧ (∀ m, view c' m = view c m) ∧
    if ok then
      payloads c' = <[i := set_dirty false (strip b)]> (payloads c) ∧
      dev_content (disk c') (block_number b) = data b ∧
      (∀ m, m ≠ block_number b → dev_content (disk c') m = dev_content (disk c) m)
    else ∃ dk, c' = set_disk dk c ∧ dev_write (block_number b) (data b) (disk c) = (false, dk)).
Proof. exact (wp_write c order i b). Qed.

(** [release] drops one reference, none below zero; with the last one the buffer
    moves to the most recently used end of the list, otherwise the list stays as it
    is; no contents change. *)
Theorem release_correct c order i b :
  inv c order → buffers c !! i = Some b →
  (valid b = true → refcnt b = 1 → dirty b = false →
    data b = dev_content (disk c) (block_number b)) →
  wp (cache_release (Buf i)) c (λ _ c', ∃ order',
    inv c' order' ∧ order_after_release order i (refcnt b =? 1) order' ∧
    (∀ m, view c' m = view c m) ∧ disk c' = disk c ∧
    payloads c' = <[i := set_refcnt (Z.max 0 (refcnt b - 1)) (strip b)]> (payloads c)).
Proof. exact (wp_cache_release c order i b). Qed.

(** [initialize] succeeds once: from the static state it establishes the invariant
    with nothing cached; a device without both functions, or a second call, is
    refused and changes nothing. Before it, [read] finds no buffer. *)
Theorem initialize_correct (d : D) :
  dev_ok d →
  wp (initialize dev) (initial_cache d) (λ ok c,
    ok = true ∧ fresh c ∧ (∀ n, view c n = dev_content d n) ∧
    ∀ dev', initialize dev' c = Some (false, c)) ∧
  (∀ dev', read_block dev' = None ∨ write_block dev' = None →
    initialize dev' (initial_cache d) = Some (false, initial_cache d)) ∧
  (∀ n, read n (initial_cache d) = Some (Null, initial_cache d)).
Proof.
  intros Hd. split; [|split; [|done]].
  - wp_use wp_initialize; [done|done| |exact Hd|].
    + intros i b [-> _]%lookup_replicate_1. apply zero_block_ok.
    + intros ok c (-> & Hf & _ & Hv). split; [done|]. split; [done|]. split; [done|].
      intros dev'. unfold initialize, get, mbind, M_bind.
      destruct Hf as (Hinv & _). by rewrite (inv_initialized _ _ Hinv).
  - intros dev' Hnull. unfold initialize, get, mbind, M_bind. simpl.
    destruct (read_block dev'), (write_block dev'); try reflexivity.
    destruct Hnull; discriminate.
Qed.
End properties.

(** ** The cache over a RAM disk of forty blocks *)
#[local] Instance disk40_spec : DeviceSpec disk_device := disk_spec 40.
#[local] Instance disk40_reliable : ReliableDevice disk_device := disk_reliable 40.

Lemma boot :
  ∃ c, initialize disk_device (initial_cache (zero_disk 40)) = Some (true, c) ∧
    fresh (dev := disk_device) c.
Proof.
  destruct (wp_initialize (dev := disk_device) (initial_cache (zero_disk 40)))
    as (ok & c & Hrun & -> & Hf & _).
  - reflexivity.
  - reflexivity.
  - intros i b [-> _]%lookup_replicate_1. apply zero_block_ok.
  - exact (zero_disk_ok 40).
  - exists c. split; [exact Hrun|exact Hf].
Qed.

(** Block 7 is filled with ones and read again in a second scope, while
    block 7 is borrowed in the first. *)
Definition example_client : client :=
  Borrow 7 (Save 0 (replicate BSIZE 1) (λ _, Borrow 7 (Load 0 (λ _, Give_back (Give_back Return))))).

Lemma example_client_well_behaved : well_behaved 40 30 0 example_client.
Proof.
  unfold example_client. cbn [well_behaved]. split; [lia|]. split; [lia|]. split; [lia|].
  split; [by apply filled_ok|]. intros _. split; [lia|]. split; [lia|]. split; [lia|].
  intros _ _. exists 1%nat. split; [done|]. by exists 0%nat.
Qed.

Lemma cache_is_block_array_witness :
  ∃ c, initialize disk_device (initial_cache (zero_disk 40)) = Some (true, c) ∧
    wp (run example_client []) c (λ os _, os = [Saved true; Saw (replicate BSIZE 1)]).
Proof.
  destruct boot as (c & Hrun & Hf). exists c. split; [exact Hrun|].
  eapply wp_mono; [apply (cache_is_block_array (dev := disk_device) c example_client)|].
  - by apply fresh_lending.
  - exact example_client_well_behaved.
  - intros os c' [-> _]. cbn [array_run example_client fst nth]. by rewrite decide_True.
Defined.

Lemma read_correct_witness :
  ∃ c, initialize disk_device (initial_cache (zero_disk 40)) = Some (true, c) ∧
    wp (read 3) c (λ r c', ∃ order',
      inv (dev := disk_device) c' order' ∧
      (∀ m, view (dev := disk_device) c' m = view (dev := disk_device) c m) ∧
      read_outcome (dev := disk_device) c (reverse (seq 0 30)) 3 r c').
Proof.
  destruct boot as (c & Hrun & Hf). exists c. split; [exact Hrun|].
  apply (read_correct (dev := disk_device) c (reverse (seq 0 30)) 3).
  - apply Hf.
  - intros i b Hc. exfalso. destruct Hf as (_ & Hf & _). by eapply cleared_uncached in Hc.
Defined.

Lemma flush_correct_witness :
  ∃ c, initialize disk_device (initial_cache (zero_disk 40)) = Some (true, c) ∧
    wp flush c (λ ok c', ok = true → dev_content (disk c') 5 = view (dev := disk_device) c 5).
Proof.
  destruct boot as (c & Hrun & Hf). exists c. split; [exact Hrun|].
  eapply wp_mono; [apply (flush_correct (dev := disk_device) c (reverse (seq 0 30)))|].
  - apply Hf.
  - apply (fresh_lending (dev := disk_device) c Hf).
  - intros ok c' (_ & _ & H & _) Hok. by apply H.
Defined.

(** Block 3 is borrowed. *)
Lemma borrowed :
  ∃ c order i b, lending (dev := disk_device) [3] c ∧ inv (dev := disk_device) c order ∧
    buffers c !! i = Some b ∧ valid b = true ∧ block_number b = 3 ∧ refcnt b ≠ 0.
Proof.
  destruct boot as (c & _ & Hf%fresh_lending).
  destruct (wp_BlockStore_acquire (dev := disk_device) [] c 3 Hf) as (r & c' & _ & i & bi & _ & Hl & Hc & _).
  { cbn. lia. }
  { simpl. lia. }
  destruct (lending_inv _ _ Hl) as [order Hinv].
  assert (3 ∈ [3]) as H3 by left.
  pose proof (lending_held _ _ _ _ _ _ Hl Hinv H3 Hc) as Hr.
  apply cached_buffer in Hc as (b & Hb & -> & Hv & Hn). exists c', order, i, b. done.
Qed.

Lemma write_correct_witness :
  ∃ (c : Cache Disk) i b, buffers c !! i = Some b ∧ block_number b = 3 ∧
    wp (write (Buf i)) c (λ ok c', ok = true → dev_content (disk c') 3 = data b).
Proof.
  destruct borrowed as (c & order & i & b & _ & Hinv & Hb & Hv & Hn & Hr).
  exists c, i, b. split; [exact Hb|]. split; [exact Hn|].
  eapply wp_mono; [apply (write_correct (dev := disk_device) c order i b Hinv Hb Hv Hr)|].
  intros ok c' (_ & _ & H) ->. rewrite <- Hn. apply H.
Defined.

Lemma release_correct_witness :
  ∃ (c : Cache Disk) i b, buffers c !! i = Some b ∧ block_number b = 3 ∧
    wp (cache_release (Buf i)) c (λ _ c', disk c' = disk c ∧
      payloads c' = <[i := set_refcnt (Z.max 0 (refcnt b - 1)) (strip b)]> (payloads c)).
Proof.
  destruct borrowed as (c & order & i & b & Hl & Hinv & Hb & Hv & Hn & _).
  exists c, i, b. split; [exact Hb|]. split; [exact Hn|].
  eapply wp_mono; [apply (release_correct (dev := disk_device) c order i b Hinv Hb)|].
  - intros _ _ Hdt. assert (cached c (block_number b) i (strip b)) as Hc by (apply cached_buffer; eauto).
    exact (lending_settled _ _ Hl _ _ _ Hc Hdt).
  - intros u c' (order' & _ & _ & _ & Hd & Hp). split; [exact Hd|exact Hp].
Defined.

Lemma initialize_correct_witness :
  wp (initialize disk_device) (initial_cache (zero_disk 40)) (λ ok c, ok = true ∧ fresh (dev := disk_device) c).
Proof.
  assert (dev_ok (dev := disk_device) (zero_disk 40)) as Hd by exact (zero_disk_ok 40).
  eapply wp_mono; [apply (initialize_correct (dev := disk_device) (zero_disk 40) Hd)|].
  intros ok c (Hok & Hf & _). split; [exact Hok|exact Hf].
Defined.
