(* ===== verification/FsLayout.v ===== *)
(** * The on-disk layout (include/file_system.hpp)

    The structures that file_system.cpp and inode.cpp overlay on blocks, as
    records with their byte representation, and the round trips between the
    two. Multi-byte fields are little-endian. *)
From S2P Require Import Prelude BlockStore.

(** ** Constants *)
Definition ROOT_INODE : Z := 1.
Definition FS_MAGIC : Z := 270544960. (* 0x10203040 *)
Definition NDIRECT : Z := 12.
Definition INDIRECT_INDEX : nat := 12.
Definition NINDIRECT : Z := 128.
Definition MAXFILE : Z := 140.
Definition DIRECTORY_NAME_SIZE : Z := 14.
Definition INODES_PER_BLOCK : Z := 8.
Definition BITS_PER_BYTE : Z := 8.
Definition BLOCKS_PER_BITMAP_BLOCK : Z := 4096.

(** [enum class InodeType : uint16_t]: every 16-bit value is a value of it. *)
Definition kUnused : Z := 0.
Definition kDirectory : Z := 1.
Definition kFile : Z := 2.

(** ** Structures *)
Record SuperBlock := mkSuperBlock {
  magic : Z;
  sb_size : Z;
  nblocks : Z;
  ninodes : Z;
  inode_start : Z;
  bitmap_start : Z;
}.

Record DiskInode := mkDiskInode {
  type : Z;
  major : Z;
  minor : Z;
  nlink : Z;
  size : Z;
  addrs : list Z;
}.

Record DirectoryEntry := mkDirectoryEntry {
  entry_inode : Z;
  entry_name : list Z;
}.

(** [DiskInode{}] *)
Definition DiskInode_zero : DiskInode := mkDiskInode 0 0 0 0 0 (replicate 13 0).
Definition SuperBlock_zero : SuperBlock := mkSuperBlock 0 0 0 0 0 0.

Definition set_type v d := mkDiskInode v (major d) (minor d) (nlink d) (size d) (addrs d).
Definition set_size v d := mkDiskInode (type d) (major d) (minor d) (nlink d) v (addrs d).
Definition set_addrs v d := mkDiskInode (type d) (major d) (minor d) (nlink d) (size d) v.

(** ** Representation in bytes *)

(** Consecutive [uint32_t]s. *)
Fixpoint words_bytes (ws : list Z) : list Z :=
  match ws with
  | [] => []
  | w :: ws => le_bytes 4 w ++ words_bytes ws
  end.
Fixpoint bytes_words (n : nat) (l : list Z) : list Z :=
  match n with
  | O => []
  | S n => le_value (take 4 l) :: bytes_words n (drop 4 l)
  end.

Definition superblock_bytes (s : SuperBlock) : list Z :=
  words_bytes [magic s; sb_size s; nblocks s; ninodes s; inode_start s; bitmap_start s].
Definition bytes_superblock (l : list Z) : SuperBlock :=
  match bytes_words 6 l with
  | [m; s; nb; ni; ist; bst] => mkSuperBlock m s nb ni ist bst
  | _ => SuperBlock_zero
  end.

Definition inode_bytes (d : DiskInode) : list Z :=
  le_bytes 2 (type d) ++ le_bytes 2 (major d) ++ le_bytes 2 (minor d) ++ le_bytes 2 (nlink d) ++
  le_bytes 4 (size d) ++ words_bytes (addrs d).
Definition bytes_inode (l : list Z) : DiskInode :=
  mkDiskInode (le_value (slice 0 2 l)) (le_value (slice 2 2 l)) (le_value (slice 4 2 l))
    (le_value (slice 6 2 l)) (le_value (slice 8 4 l)) (bytes_words 13 (drop 12 l)).

Definition entry_bytes (e : DirectoryEntry) : list Z := le_bytes 2 (entry_inode e) ++ entry_name e.
Definition bytes_entry (l : list Z) : DirectoryEntry :=
  mkDirectoryEntry (le_value (slice 0 2 l)) (slice 2 14 l).

(** ** Well-formed structures *)
Definition is_u16 (x : Z) : Prop := 0 <= x < 65536.
Definition is_u32 (x : Z) : Prop := 0 <= x < 4294967296.

Definition superblock_wf (s : SuperBlock) : Prop :=
  Forall is_u32 [magic s; sb_size s; nblocks s; ninodes s; inode_start s; bitmap_start s].
Definition inode_wf (d : DiskInode) : Prop :=
  is_u16 (type d) ∧ is_u16 (major d) ∧ is_u16 (minor d) ∧ is_u16 (nlink d) ∧ is_u32 (size d) ∧
  length (addrs d) = 13%nat ∧ Forall is_u32 (addrs d).
Definition entry_wf (e : DirectoryEntry) : Prop :=
  is_u16 (entry_inode e) ∧ length (entry_name e) = 14%nat ∧ bytes (entry_name e).

(** ** Round trips *)

Lemma le_value_u16 x : is_u16 x → le_value (le_bytes 2 x) = x.
Proof. exact (le_value_le_bytes 2 x). Qed.
Lemma le_value_u32 x : is_u32 x → le_value (le_bytes 4 x) = x.
Proof. exact (le_value_le_bytes 4 x). Qed.

Lemma length_words_bytes ws : length (words_bytes ws) = (4 * length ws)%nat.
Proof. induction ws; cbn [words_bytes length]; rewrite ?length_app, ?length_le_bytes; lia. Qed.

Lemma bytes_words_bytes ws : bytes (words_bytes ws).
Proof. induction ws; cbn [words_bytes]; [constructor|]. apply Forall_app_2; auto using bytes_le_bytes. Qed.

Lemma length_bytes_words n l : length (bytes_words n l) = n.
Proof. revert l. induction n; intros; simpl; auto. Qed.

Lemma words_roundtrip ws rest :
  Forall is_u32 ws → bytes_words (length ws) (words_bytes ws ++ rest) = ws.
Proof.
  induction 1 as [|w ws Hw Hws IH]; [done|]. cbn [length bytes_words words_bytes].
  rewrite <- app_assoc.
  rewrite take_app_length' by by rewrite length_le_bytes.
  rewrite drop_app_length' by by rewrite length_le_bytes.
  by rewrite le_value_u32, IH.
Qed.

Lemma bytes_words_wf n l : bytes l → Forall is_u32 (bytes_words n l).
Proof.
  revert l. induction n as [|n IH]; intros l Hl; simpl; constructor; [|by apply IH, Forall_drop].
  pose proof (le_value_range (take 4 l) (Forall_take _ _ _ Hl)) as Hr. unfold is_u32.
  rewrite length_take in Hr. split; [lia|]. eapply Z.lt_le_trans; [apply Hr|].
  change 4294967296 with (256 ^ 4). apply Z.pow_le_mono_r; lia.
Qed.

Lemma lookup_bytes_words n l i :
  (i < n)%nat → bytes_words n l !! i = Some (le_value (slice (4 * i) 4 l)).
Proof.
  revert l i. induction n as [|n IH]; intros l i Hi; [lia|]. cbn [bytes_words].
  destruct i as [|i]; [done|]. cbn [lookup list_lookup]. rewrite IH by lia.
  unfold slice. rewrite drop_drop. do 4 f_equal. lia.
Qed.


Lemma superblock_roundtrip s rest :
  superblock_wf s → bytes_superblock (superblock_bytes s ++ rest) = s.
Proof.
  intros Hs. unfold bytes_superblock, superblock_bytes.
  pose proof (words_roundtrip _ rest Hs) as H. cbn [length] in H. rewrite H. by destruct s.
Qed.

Lemma length_superblock_bytes s : length (superblock_bytes s) = 24%nat.
Proof. unfold superblock_bytes. by rewrite length_words_bytes. Qed.

Lemma bytes_superblock_bytes s : bytes (superblock_bytes s).
Proof. apply bytes_words_bytes. Qed.

Lemma length_inode_bytes d : inode_wf d → length (inode_bytes d) = 64%nat.
Proof.
  intros (_ & _ & _ & _ & _ & Hlen & _). unfold inode_bytes.
  rewrite !length_app, !length_le_bytes, length_words_bytes, Hlen. done.
Qed.

Lemma bytes_inode_bytes d : bytes (inode_bytes d).
Proof. unfold inode_bytes. repeat apply Forall_app_2; auto using bytes_le_bytes, bytes_words_bytes. Qed.

(** A field in the middle of a structure. *)
Lemma slice_app off n (l1 l2 l3 : list Z) :
  length l1 = off → length l2 = n → slice off n (l1 ++ l2 ++ l3) = l2.
Proof.
  intros <- <-. unfold slice. rewrite drop_app_length. by rewrite take_app_length.
Qed.

Lemma slice_app_0 n (l2 l3 : list Z) : length l2 = n → slice 0 n (l2 ++ l3) = l2.
Proof. exact (slice_app 0 n [] l2 l3 eq_refl). Qed.

Lemma inode_roundtrip d : inode_wf d → bytes_inode (inode_bytes d) = d.
Proof.
  intros (Ht & Hmj & Hmn & Hnl & Hs & Hlen & Ha).
  unfold bytes_inode, inode_bytes.
  set (t := le_bytes 2 (type d)). set (mj := le_bytes 2 (major d)).
  set (mn := le_bytes 2 (minor d)). set (nl := le_bytes 2 (nlink d)).
  set (sz := le_bytes 4 (size d)). set (ws := words_bytes (addrs d)).
  rewrite (slice_app_0 2 t), (slice_app 2 2 t mj) by done.
  replace (t ++ mj ++ mn ++ nl ++ sz ++ ws) with ((t ++ mj) ++ mn ++ nl ++ sz ++ ws)
    by by rewrite <- !app_assoc.
  rewrite (slice_app 4 2 (t ++ mj) mn) by done.
  replace ((t ++ mj) ++ mn ++ nl ++ sz ++ ws) with ((t ++ mj ++ mn) ++ nl ++ sz ++ ws)
    by by rewrite <- !app_assoc.
  rewrite (slice_app 6 2 (t ++ mj ++ mn) nl) by done.
  replace ((t ++ mj ++ mn) ++ nl ++ sz ++ ws) with ((t ++ mj ++ mn ++ nl) ++ sz ++ ws)
    by by rewrite <- !app_assoc.
  rewrite (slice_app 8 4 (t ++ mj ++ mn ++ nl) sz) by done.
  rewrite app_assoc, drop_app_length' by done.
  pose proof (words_roundtrip (addrs d) [] Ha) as Hw. rewrite app_nil_r, Hlen in Hw.
  fold ws in Hw. rewrite Hw. unfold t, mj, mn, nl, sz.
  rewrite !le_value_u16, le_value_u32 by done. by destruct d.
Qed.

Lemma bytes_inode_wf l : bytes l → inode_wf (bytes_inode l).
Proof.
  intros Hl.
  assert (∀ off n k, (n <= k)%nat → 0 <= le_value (slice off n l) < 256 ^ Z.of_nat k) as Hr.
  { intros off n k Hk. pose proof (le_value_range _ (bytes_slice off n l Hl)) as Hr.
    split; [lia|]. eapply Z.lt_le_trans; [apply Hr|]. apply Z.pow_le_mono_r; [lia|].
    unfold slice. rewrite length_take. lia. }
  unfold inode_wf, is_u16, is_u32. simpl.
  split; [by apply (Hr 0%nat 2%nat 2%nat)|]. split; [by apply (Hr 2%nat 2%nat 2%nat)|].
  split; [by apply (Hr 4%nat 2%nat 2%nat)|]. split; [by apply (Hr 6%nat 2%nat 2%nat)|].
  split; [by apply (Hr 8%nat 4%nat 4%nat)|].
  split; [done|]. by apply (bytes_words_wf 13), Forall_drop.
Qed.

Lemma length_entry_bytes e : entry_wf e → length (entry_bytes e) = 16%nat.
Proof. intros (_ & Hlen & _). unfold entry_bytes. by rewrite length_app, length_le_bytes, Hlen. Qed.

Lemma bytes_entry_bytes e : entry_wf e → bytes (entry_bytes e).
Proof. intros (_ & _ & Hn). apply Forall_app_2; auto using bytes_le_bytes. Qed.

Lemma entry_roundtrip e : entry_wf e → bytes_entry (entry_bytes e) = e.
Proof.
  intros (Hi & Hlen & _). unfold bytes_entry, entry_bytes.
  rewrite (slice_app_0 2 (le_bytes 2 (entry_inode e))) by done.
  rewrite <- (app_nil_r (entry_name e)) at 1. rewrite (slice_app 2 14) by done.
  rewrite le_value_u16 by done. by destruct e.
Qed.

