(* ===== verification/FileSystem.v ===== *)
(** * The block level of the file system (include/file_system.cpp,
      include/file_system_internal.cpp)

    Superblock, block bitmap and inode blocks over any [IBlockStore]. *)
From stdpp Require Import strings.
From S2P Require Import Prelude BlockStore FsLayout.

(** The bytes of a string literal. *)
Definition string_bytes (s : string) : list Z :=
  (λ a, Z.of_N (Ascii.N_of_ascii a)) <$> String.list_ascii_of_string s.

(** An [IConsole *]: the null console, or one that keeps what is written. *)
Inductive Console := NullConsole | LogConsole (output : list Z).

Definition console_write (s : list Z) (c : Console) : Console :=
  match c with
  | NullConsole => NullConsole
  | LogConsole out => LogConsole (out ++ s)
  end.

(** [struct Inode] of include/inode.hpp. *)
Record Inode := mkInode {
  inode_number : Z;
  inode_refcnt : Z;
  inode_valid : bool;
  disk : DiskInode;
}.

(** [internal::State fs], and the inode table of inode.cpp. *)
Record Fs (T : Type) := mkFs {
  block_store : T;
  console : Console;
  superblock : SuperBlock;
  inode_table : list Inode;
}.
Arguments mkFs {T}. Arguments block_store {T}. Arguments console {T}.
Arguments superblock {T}. Arguments inode_table {T}.

Section setters.
Context {T : Type}.
Definition set_block_store (v : T) (s : Fs T) := mkFs v (console s) (superblock s) (inode_table s).
Definition set_console v (s : Fs T) := mkFs (block_store s) v (superblock s) (inode_table s).
Definition set_superblock v (s : Fs T) := mkFs (block_store s) (console s) v (inode_table s).
Definition set_inode_table v (s : Fs T) := mkFs (block_store s) (console s) (superblock s) v.
End setters.

(** [fs.block_store->f(...)] *)
#[export] Instance Fs_IBlockStore {T} `{IBlockStore T} : IBlockStore (Fs T) := {|
  acquire := λ b, zoom block_store set_block_store (acquire b);
  write_back := λ b, zoom block_store set_block_store (write_back b);
  release := λ b, zoom block_store set_block_store (release b);
  peek := λ p, zoom block_store set_block_store (peek p);
  poke := λ p d, zoom block_store set_block_store (poke p d);
|}.

Section FileSystem.
Context {T : Type} `{IBlockStore T}.

(** ** file_system_internal.cpp *)
Definition inode_block (sb : SuperBlock) (inode_number : Z) : Z :=
  u32 (inode_start sb + inode_number / INODES_PER_BLOCK).

Definition bitmap_block (sb : SuperBlock) (block_number : Z) : Z :=
  u32 (bitmap_start sb + block_number / BLOCKS_PER_BITMAP_BLOCK).

Definition load_superblock : M (Fs T) bool :=
  with_block 1 false (λ block,
    d ← ref_load block;
    _ ← modify (set_superblock (bytes_superblock d));
    s ← gets superblock;
    mret (magic s =? FS_MAGIC, block)).

Definition zero_block (block_number : Z) : M (Fs T) bool :=
  with_block block_number false (λ block,
    _ ← ref_store block (replicate BSIZE 0);
    ok ← ref_write_back block;
    mret (ok, block)).

Definition mark_block_used (block_number : Z) : M (Fs T) bool :=
  sb ← gets superblock;
  with_block (bitmap_block sb block_number) false (λ block,
    let bit_index := block_number `mod` BLOCKS_PER_BITMAP_BLOCK in
    d ← ref_load block;
    d' ← defined (set_bit d bit_index);
    _ ← ref_store block d';
    ok ← ref_write_back block;
    mret (ok, block)).

(** [entries[n]] of a block of inodes. *)
Definition nth_inode (n : Z) (d : list Z) : DiskInode :=
  bytes_inode (slice (64 * Z.to_nat n) 64 d).

Definition write_disk_inode (inode_number : Z) (inode : DiskInode) : M (Fs T) bool :=
  sb ← gets superblock;
  with_block (inode_block sb inode_number) false (λ block,
    d ← ref_load block;
    _ ← ref_store block
      (splice (64 * Z.to_nat (inode_number `mod` INODES_PER_BLOCK)) (inode_bytes inode) d);
    ok ← ref_write_back block;
    mret (ok, block)).

Definition get_disk_inode (inode_number : Z) : M (Fs T) (option DiskInode) :=
  sb ← gets superblock;
  with_block (inode_block sb inode_number) None (λ block,
    d ← ref_load block;
    mret (Some (nth_inode (inode_number `mod` INODES_PER_BLOCK) d), block)).

(** ** file_system.cpp *)

(** The inner loop of [allocate_block]: the first offset from [offset] on
    whose bit is clear. *)
Fixpoint find_clear (fuel : nat) (sb : SuperBlock) (base : Z) (bitmap : list Z) (offset : Z)
    : option (option Z) :=
  match fuel with
  | O => None
  | S fuel =>
      if (offset <? BLOCKS_PER_BITMAP_BLOCK) && (u32 (base + offset) <? sb_size sb) then
        used ← get_bit bitmap offset;
        if negb used then Some (Some offset)
        else find_clear fuel sb base bitmap (offset + 1)
      else Some None
  end.

(** The loop ends after [BLOCKS_PER_BITMAP_BLOCK] offsets. *)
Definition bitmap_fuel : nat := Z.to_nat 4097.

(** The outer loop, from the bitmap block of [base] on. *)
Fixpoint allocate_loop (fuel : nat) (base : Z) : M (Fs T) (option Z) :=
  match fuel with
  | O => stuck
  | S fuel =>
      sb ← gets superblock;
      if base <? sb_size sb then
        found ← with_block (bitmap_block sb base) (Some None) (λ block,
          bitmap ← ref_load block;
          clear ← defined (find_clear bitmap_fuel sb base bitmap 0);
          match clear with
          | Some offset =>
              bitmap' ← defined (set_bit bitmap offset);
              _ ← ref_store block bitmap';
              ok ← ref_write_back block;
              if negb ok then mret (Some None, block)
              else
                block ← ref_reset block;
                let block_number := u32 (base + offset) in
                ok ← zero_block block_number;
                if negb ok then mret (Some None, block)
                else mret (Some (Some block_number), block)
          | None => mret (None, block)
          end);
        match found with
        | Some result => mret result
        | None => allocate_loop fuel (u32 (base + BLOCKS_PER_BITMAP_BLOCK))
        end
      else mret None
  end.

(** One step more than there are bitmap blocks. *)
Definition allocate_fuel (sb : SuperBlock) : nat := Z.to_nat (sb_size sb / BLOCKS_PER_BITMAP_BLOCK + 2).

Definition allocate_block : M (Fs T) (option Z) :=
  sb ← gets superblock; allocate_loop (allocate_fuel sb) 0.

Definition free_block (block_number : Z) : M (Fs T) () :=
  sb ← gets superblock;
  with_block (bitmap_block sb block_number) () (λ block,
    let bit_index := block_number `mod` BLOCKS_PER_BITMAP_BLOCK in
    d ← ref_load block;
    d' ← defined (clear_bit d bit_index);
    _ ← ref_store block d';
    ok ← ref_write_back block;
    mret ((), block)).

(** The loop over the slots of the root directory, from slot [i] on. *)
Fixpoint root_slot (fuel : nat) (i : nat) (d : list Z) : option nat :=
  match fuel with
  | O => None
  | S fuel =>
      if negb (le_value (slice (16 * i) 2 d) =? 0) then root_slot fuel (S i) d else Some i
  end.

(** [add_root_entry] once the directory has its block; [root] is passed by
    reference, so its final value is returned too. [name] is the C string
    without its terminator. *)
Definition add_root_entry_at (root_address : Z) (root : DiskInode) (inode_number : Z)
    (name : list Z) : M (Fs T) (bool * DiskInode) :=
  with_block root_address (false, root) (λ block,
    d ← ref_load block;
    match root_slot 32 0 d with
    | Some i =>
        let length := Nat.min (length name) 14 in
        let entry := mkDirectoryEntry (u16 inode_number) (take length name ++ replicate (14 - length) 0) in
        _ ← ref_store block (splice (16 * i) (entry_bytes entry) d);
        ok ← ref_write_back block;
        if negb ok then mret ((false, root), block)
        else mret ((true, set_size (u32 (size root + 16)) root), block)
    | None => mret ((false, root), block)
    end).

Definition add_root_entry (root : DiskInode) (inode_number : Z) (name : list Z)
    : M (Fs T) (bool * DiskInode) :=
  root_address ← defined (addrs root !! 0%nat);
  if root_address =? 0 then
    block_number ← allocate_block;
    match block_number with
    | None => mret (false, root)
    | Some b => add_root_entry_at b (set_addrs (<[0%nat := b]> (addrs root)) root) inode_number name
    end
  else add_root_entry_at root_address root inode_number name.

(** [for (b; b.value < stop; b.value++) if (!f(b)) return false;] *)
Fixpoint for_blocks (fuel : nat) (f : Z → M (Fs T) bool) (b stop : Z) : M (Fs T) bool :=
  match fuel with
  | O => stuck
  | S fuel =>
      if b <? stop then
        ok ← f b;
        if negb ok then mret false else for_blocks fuel f (u32 (b + 1)) stop
      else mret true
  end.

Definition NUM_INODES : Z := 200.

(** The superblock that [format] sets up for [total_blocks] blocks, and
    where its data blocks begin. *)
Definition format_superblock (total_blocks : Z) : SuperBlock * Z :=
  let inode_blocks := (NUM_INODES + INODES_PER_BLOCK - 1) / INODES_PER_BLOCK in
  let bitmap_blocks := u32 (total_blocks + BLOCKS_PER_BITMAP_BLOCK - 1) / BLOCKS_PER_BITMAP_BLOCK in
  let bitmap_start := u32 (2 + inode_blocks) in
  let data_start := u32 (bitmap_start + bitmap_blocks) in
  (mkSuperBlock FS_MAGIC total_blocks (u32 (total_blocks - data_start)) NUM_INODES 2 bitmap_start,
   data_start).

(** The superblock goes to block 1, the rest of which is zeroed. *)
Definition write_superblock : M (Fs T) bool :=
  sb ← gets superblock;
  with_block 1 false (λ block,
    _ ← ref_store block (splice 0 (superblock_bytes sb) (replicate BSIZE 0));
    ok ← ref_write_back block;
    mret (ok, block)).

(** The root directory, with its two entries. *)
Definition create_root : M (Fs T) bool :=
  let root_inode := mkDiskInode kDirectory 0 0 1 0 (replicate 13 0) in
  '(ok, root_inode) ← add_root_entry root_inode ROOT_INODE (string_bytes ".");
  if negb ok then mret false
  else
    '(ok, root_inode) ← add_root_entry root_inode ROOT_INODE (string_bytes "..");
    if negb ok then mret false
    else
      ok ← write_disk_inode ROOT_INODE root_inode;
      if negb ok then mret false else mret true.

Definition format (total_blocks : Z) : M (Fs T) bool :=
  let '(sb, data_start) := format_superblock total_blocks in
  _ ← modify (set_superblock sb);
  ok ← for_blocks (S (Z.to_nat data_start)) zero_block (inode_start sb) data_start;
  if negb ok then mret false
  else
    ok ← for_blocks (S (Z.to_nat data_start)) mark_block_used 0 data_start;
    if negb ok then mret false
    else
      ok ← write_superblock;
      if negb ok then mret false else create_root.

Definition not_formatted : list Z :=
  string_bytes "[FS]   not formatted, creating filesystem..." ++ [10].

Definition mount (total_blocks : Z) : M (Fs T) bool :=
  loaded ← load_superblock;
  if (loaded : bool) then mret true
  else
    _ ← modify (λ s, set_console (console_write not_formatted (console s)) s);
    ok ← format total_blocks;
    if negb ok then mret false else load_superblock.
End FileSystem.

(** [FileSystem::initialize]; a null pointer is [None]. *)
Definition initialize {T} `{IBlockStore T} (total_blocks : Z) (store : option T)
    (con : option Console) : M (Fs (StorePtr T)) bool :=
  _ ← modify (set_block_store
        match store with Some s => inl s | None => inr NullBlockStore_instance end);
  _ ← modify (set_console (default NullConsole con));
  mount total_blocks.

(** The static state before [initialize]: all zero, no store. *)
Definition initial_fs {T} (p : StorePtr T) : Fs (StorePtr T) :=
  mkFs p NullConsole SuperBlock_zero (replicate 10 (mkInode 0 0 false DiskInode_zero)).
