(* ===== verification/FileSystemSpec.v ===== *)
(** * What the block level of the file system guarantees

    The file system's state is itself a block store (its store, with the other
    fields fixed), so the rules of BlockStore.v apply to its code; the
    geometry of the disk, the block bitmap, and the specifications of the
    operations of FileSystem.v. *)
From S2P Require Import Prelude BlockStore StoreRefinement FsLayout FileSystem.

Section store.
Context {T : Type} `{HT : IBlockStore T} (ST : BlockStoreSpec T).
Context (con : Console) (sb : SuperBlock) (tbl : list Inode).

Definition framed (s : Fs T) : Prop := console s = con ∧ superblock s = sb ∧ inode_table s = tbl.

Lemma wp_zoom_store {A} (m : M T A) (s : Fs T) (Q : A → Fs T → Prop) :
  wp m (block_store s) (λ a t, Q a (set_block_store t s)) →
  wp (zoom block_store set_block_store m) s Q.
Proof. apply wp_zoom. Qed.

(** The state as a block store, the other fields being [con], [sb], [tbl]. *)
#[refine] Definition fs_store : BlockStoreSpec (Fs T) := {|
  bs_blocks := bs_blocks;
  bs_limit := bs_limit;
  bs_view s := bs_view (block_store s);
  bs_ok hs s := bs_ok hs (block_store s) ∧ framed s;
  bs_ptr s := bs_ptr (block_store s);
|}.
Proof.
  - intros hs s b [Hok _]. by apply (bs_view_ok hs).
  - intros hs s b [Hok _]. by apply (bs_held hs (block_store s)).
  - intros hs s b [Hok Hf] Hb Hlt. apply wp_zoom_store.
    wp_use bs_acquire; [exact Hok|done|done|]. intros r t (p & -> & Hok' & Hrest). exists p. done.
  - intros hs s b p [Hok Hf] Hb Hp. apply wp_zoom_store.
    wp_use bs_peek; [exact Hok|exact Hb|exact Hp|]. intros d t [-> ->]. by destruct s.
  - intros hs s b p d [Hok Hf] Hb Hp Hd.
    destruct (bs_poke_write_back hs (block_store s) b p d Hok Hb Hp Hd)
      as (ok & t & Hrun & -> & Hok' & Hrest).
    unfold mbind, M_bind in Hrun. destruct (poke p d (block_store s)) as [[u t1]|] eqn:E1; [|done].
    apply (wp_intro _ _ _ true (set_block_store t s)); [|done].
    unfold mbind, M_bind. cbn [poke write_back Fs_IBlockStore]. unfold zoom. rewrite E1.
    cbn [block_store set_block_store]. by rewrite Hrun.
  - intros hs s b [Hok Hf]. apply wp_zoom_store.
    wp_use bs_release; [exact Hok|]. intros _ t (Hok' & Hrest). done.
Defined.
End store.

(** ** The geometry of the disk *)

(** The number of bitmap blocks and the first data block. *)
Definition bitmap_blocks (sb : SuperBlock) : Z := (sb_size sb + 4095) / 4096.
Definition data_start (sb : SuperBlock) : Z := bitmap_start sb + bitmap_blocks sb.

(** The regions follow each other, and block numbers do not wrap around. *)
Record geometry (sb : SuperBlock) : Prop := {
  geo_inode_start : 2 <= inode_start sb;
  geo_ninodes : 0 <= ninodes sb;
  geo_inodes : inode_start sb + (ninodes sb + 7) / 8 <= bitmap_start sb;
  geo_data : data_start sb <= sb_size sb;
  geo_size : sb_size sb <= 4294967296 - 4096;
}.

(** Whether block [b] is in use according to the bitmap. *)
Definition used (sb : SuperBlock) (f : Z → list Z) (b : Z) : bool :=
  bit (f (bitmap_start sb + b / 4096)) (b `mod` 4096).

Lemma bitmap_block_small sb b :
  geometry sb → 0 <= b < sb_size sb → bitmap_block sb b = bitmap_start sb + b / 4096.
Proof.
  intros Hg Hb. unfold bitmap_block, BLOCKS_PER_BITMAP_BLOCK. apply u32_small.
  destruct Hg. unfold data_start, bitmap_blocks in *. lia.
Qed.

Lemma bitmap_block_range sb b :
  geometry sb → 0 <= b < sb_size sb →
  bitmap_start sb <= bitmap_start sb + b / 4096 < data_start sb.
Proof. intros Hg Hb. unfold data_start, bitmap_blocks. lia. Qed.

Lemma inode_block_range sb n :
  geometry sb → 0 <= n < ninodes sb →
  inode_block sb n = inode_start sb + n / 8 ∧
  2 <= inode_block sb n < bitmap_start sb.
Proof.
  intros Hg Hn. unfold inode_block, INODES_PER_BLOCK. destruct Hg.
  unfold data_start, bitmap_blocks in *. rewrite u32_small by lia. lia.
Qed.

(** The bitmap after the bit of block [b] has changed. *)
Lemma used_upd sb f b d x :
  geometry sb → 0 <= b < sb_size sb → block_ok (f (bitmap_start sb + b / 4096)) →
  (∀ j, 0 <= j → bit d j = if decide (j = b `mod` 4096) then x else bit (f (bitmap_start sb + b / 4096)) j) →
  ∀ c, 0 <= c < sb_size sb →
  used sb (upd f (bitmap_start sb + b / 4096) d) c = if decide (c = b) then x else used sb f c.
Proof.
  intros Hg Hb Hok Hd c Hc. unfold used, upd.
  destruct (decide (bitmap_start sb + c / 4096 = bitmap_start sb + b / 4096)) as [E|E].
  - rewrite Hd by lia. destruct (decide (c = b)) as [->|Hcb]; [by rewrite decide_True|].
    rewrite decide_False by lia. by rewrite E.
  - rewrite decide_False; [done|]. intros ->. done.
Qed.

Lemma used_upd_other sb f b d c :
  geometry sb → data_start sb <= b → 0 <= c < sb_size sb → used sb (upd f b d) c = used sb f c.
Proof.
  intros Hg Hb Hc. pose proof (bitmap_block_range _ _ Hg Hc). unfold used. rewrite upd_ne; [done|lia].
Qed.

(** ** The search for a clear bit *)
Lemma find_clear_spec sb base bm fuel offset :
  length bm = BSIZE → 0 <= base → base + 4096 <= 4294967296 →
  0 <= offset <= 4096 → 4096 < offset + Z.of_nat fuel →
  ∃ r, find_clear fuel sb base bm offset = Some r ∧
    match r with
    | Some o => offset <= o < 4096 ∧ base + o < sb_size sb ∧ bit bm o = false ∧
        ∀ k, offset <= k < o → bit bm k = true
    | None => ∀ k, offset <= k < 4096 → base + k < sb_size sb → bit bm k = true
    end.
Proof.
  intros Hlen Hbase Hmax. revert offset. induction fuel as [|fuel IH]; intros offset Ho Hf; [lia|].
  cbn [find_clear]. unfold BLOCKS_PER_BITMAP_BLOCK.
  destruct (offset <? 4096) eqn:E1; cbn [andb].
  2:{ exists None. split; [done|]. intros k Hk. lia. }
  rewrite u32_small by lia. destruct (base + offset <? sb_size sb) eqn:E2.
  2:{ exists None. split; [done|]. intros k Hk Hs. lia. }
  rewrite get_bit_spec by (rewrite Hlen; lia). cbn [mbind option_bind].
  destruct (bit bm offset) eqn:Eb; cbn [negb].
  2:{ exists (Some offset). split; [done|]. split; [lia|].
      split; [lia|]. split; [done|]. intros k Hk. lia. }
  destruct (IH (offset + 1)) as (r & -> & Hr); [lia|lia|]. exists r. split; [done|].
  destruct r as [o|].
  - destruct Hr as (? & ? & ? & Hall). split; [lia|]. split; [lia|]. split; [done|]. intros k Hk.
    destruct (decide (k = offset)) as [->|]; [done|]. apply Hall. lia.
  - intros k Hk Hs. destruct (decide (k = offset)) as [->|]; [done|]. apply Hr; lia.
Qed.

Lemma set_bit_block d i :
  block_ok d → 0 <= i < 4096 →
  ∃ d', set_bit d i = Some d' ∧ block_ok d' ∧
    ∀ j, 0 <= j → bit d' j = if decide (j = i) then true else bit d j.
Proof.
  intros [Hlen Hb] Hi. destruct (set_bit_spec d i) as (d' & Hd' & Hl & Hb' & Hbit); [lia|].
  exists d'. split; [done|]. split; [split; [congruence|by apply Hb']|].
  intros j Hj. rewrite Hbit by done. case_decide; [subst; rewrite Z.eqb_refl; by rewrite orb_true_r|].
  replace (j =? i) with false by lia. by rewrite orb_false_r.
Qed.

Lemma clear_bit_block d i :
  block_ok d → 0 <= i < 4096 →
  ∃ d', clear_bit d i = Some d' ∧ block_ok d' ∧
    ∀ j, 0 <= j → bit d' j = if decide (j = i) then false else bit d j.
Proof.
  intros [Hlen Hb] Hi. destruct (clear_bit_spec d i) as (d' & Hd' & Hl & Hb' & Hbit); [lia|].
  exists d'. split; [done|]. split; [split; [congruence|by apply Hb']|].
  intros j Hj. rewrite Hbit by done. case_decide; [subst; rewrite Z.eqb_refl; by rewrite andb_false_r|].
  replace (j =? i) with false by lia. by rewrite andb_true_r.
Qed.

(** ** The operations *)
Section ops.
Context {T : Type} `{HT : IBlockStore T} (ST : BlockStoreSpec T).
Context (con : Console) (sb : SuperBlock) (tbl : list Inode).
#[local] Hint Extern 0 (BlockStoreSpec (Fs T)) => exact (fs_store ST con sb tbl) : typeclass_instances.
Context (Hg : geometry sb) (Hsize : sb_size sb <= @bs_blocks (Fs T) _ (fs_store ST con sb tbl)).
Implicit Types (hs : list Z) (s : Fs T) (b n : Z).

Lemma fs_framed hs s : bs_ok hs s → framed con sb tbl s.
Proof. by intros [_ ?]. Qed.

Lemma wp_superblock hs s {A} (k : SuperBlock → M (Fs T) A) (Q : A → Fs T → Prop) :
  bs_ok hs s → wp (k sb) s Q → wp (sb ← gets superblock; k sb) s Q.
Proof. intros Hok HQ. wp_step. wp_step. by destruct (fs_framed _ _ Hok) as (_ & -> & _). Qed.

Lemma fs_block_ok hs s b : bs_ok hs s → 0 <= b < sb_size sb → block_ok (bs_view s b).
Proof. intros Hok Hb. apply (bs_view_ok hs); [done|lia]. Qed.

Lemma bitmap_block_ok hs s b :
  bs_ok hs s → 0 <= b < sb_size sb →
  block_ok (bs_view s (bitmap_start sb + b / 4096)) ∧ 0 <= bitmap_start sb + b / 4096 < data_start sb.
Proof.
  intros Hok Hb. pose proof (bitmap_block_range _ _ Hg Hb). pose proof (geo_data _ Hg).
  pose proof (geo_inode_start _ Hg). pose proof (geo_inodes _ Hg). pose proof (geo_ninodes _ Hg).
  split; [apply (fs_block_ok hs); [done|]|]; lia.
Qed.

(** What the bitmap says depends on the contents of the disk only. *)
Lemma used_view s f c :
  same_view s f → 0 <= c < sb_size sb → used sb (bs_view s) c = used sb f c.
Proof.
  intros Hv Hc. unfold used. rewrite Hv; [done|].
  pose proof (bitmap_block_range _ _ Hg Hc). pose proof (geo_data _ Hg).
  pose proof (geo_inode_start _ Hg). pose proof (geo_inodes _ Hg). pose proof (geo_ninodes _ Hg). lia.
Qed.

Lemma used_after hs s s' b d x :
  bs_ok hs s → 0 <= b < sb_size sb →
  becomes hs s s' (upd (bs_view s) (bitmap_start sb + b / 4096) d) →
  (∀ j, 0 <= j → bit d j = if decide (j = b `mod` 4096) then x
    else bit (bs_view s (bitmap_start sb + b / 4096)) j) →
  ∀ c, 0 <= c < sb_size sb →
  used sb (bs_view s') c = if decide (c = b) then x else used sb (bs_view s) c.
Proof.
  intros Hok Hb (_ & Hv & _) Hd c Hc. destruct (bitmap_block_ok _ _ _ Hok Hb) as [Hbo _].
  rewrite (used_view _ _ _ Hv Hc). exact (used_upd sb _ b d x Hg Hb Hbo Hd c Hc).
Qed.

Lemma wp_zero_block hs s b (Q : bool → Fs T → Prop) :
  bs_ok hs s → 0 <= b < sb_size sb → (length hs < bs_limit)%nat →
  (∀ s', becomes hs s s' (upd (bs_view s) b (replicate BSIZE 0)) → Q true s') →
  wp (zero_block b) s Q.
Proof.
  intros Hok Hb Hlt HQ.
  apply (wp_overwrite_scope hs s b false (replicate BSIZE 0) (λ ok, ok)); [done|lia|done| |done].
  by apply filled_ok.
Qed.

(** [mark_block_used] and [free_block] change one bit of the bitmap. *)
Lemma wp_mark_block_used hs s b (Q : bool → Fs T → Prop) :
  bs_ok hs s → 0 <= b < sb_size sb → (length hs < bs_limit)%nat →
  (∀ s' d, becomes hs s s' (upd (bs_view s) (bitmap_start sb + b / 4096) d) →
    (∀ c, 0 <= c < sb_size sb →
      used sb (bs_view s') c = if decide (c = b) then true else used sb (bs_view s) c) →
    Q true s') →
  wp (mark_block_used b) s Q.
Proof.
  intros Hok Hb Hlt HQ. destruct (bitmap_block_ok _ _ _ Hok Hb) as [Hbo Hbr].
  destruct (set_bit_block _ (b `mod` 4096) Hbo) as (d & Hd & Hdo & Hbit); [lia|].
  pose proof (geo_data _ Hg). eapply wp_superblock; [exact Hok|]. rewrite bitmap_block_small by done.
  apply (wp_update_scope hs s _ false (λ d, set_bit d (b `mod` 4096)) d (λ ok, ok)); [done|lia|done|done|done|].
  intros s' Hs'. apply (HQ s' d); [done|]. by eapply used_after.
Qed.

Lemma wp_free_block hs s b (Q : () → Fs T → Prop) :
  bs_ok hs s → 0 <= b < sb_size sb → (length hs < bs_limit)%nat →
  (∀ s' d, becomes hs s s' (upd (bs_view s) (bitmap_start sb + b / 4096) d) →
    (∀ c, 0 <= c < sb_size sb →
      used sb (bs_view s') c = if decide (c = b) then false else used sb (bs_view s) c) →
    Q () s') →
  wp (free_block b) s Q.
Proof.
  intros Hok Hb Hlt HQ. destruct (bitmap_block_ok _ _ _ Hok Hb) as [Hbo Hbr].
  destruct (clear_bit_block _ (b `mod` 4096) Hbo) as (d & Hd & Hdo & Hbit); [lia|].
  pose proof (geo_data _ Hg). eapply wp_superblock; [exact Hok|]. rewrite bitmap_block_small by done.
  apply (wp_update_scope hs s _ () (λ d, clear_bit d (b `mod` 4096)) d (λ ok, ())); [done|lia|done|done|done|].
  intros s' Hs'. apply (HQ s' d); [done|]. by eapply used_after.
Qed.

(** ** Inodes on the disk *)

(** The inode [n] of the disk. *)
Definition inode_at (f : Z → list Z) n : DiskInode := nth_inode (n `mod` 8) (f (inode_block sb n)).

Lemma inode_block_blocks n : 0 <= n < ninodes sb → 2 <= inode_block sb n < sb_size sb.
Proof.
  intros Hn. destruct (inode_block_range _ _ Hg Hn) as [_ ?]. pose proof (geo_data _ Hg).
  unfold data_start, bitmap_blocks in *. pose proof (geo_inode_start _ Hg). lia.
Qed.

Lemma wp_get_disk_inode hs s n (Q : option DiskInode → Fs T → Prop) :
  bs_ok hs s → 0 <= n < ninodes sb → (length hs < bs_limit)%nat →
  (∀ s', becomes hs s s' (bs_view s) → Q (Some (inode_at (bs_view s) n)) s') →
  wp (get_disk_inode n) s Q.
Proof.
  intros Hok Hn Hlt HQ. pose proof (inode_block_blocks _ Hn). eapply wp_superblock; [exact Hok|].
  apply (wp_read_scope hs s _ None (λ d, Some (nth_inode (n `mod` INODES_PER_BLOCK) d)));
    [done|lia|done|exact HQ].
Qed.

(** The disk with inode [n] replaced. *)
Definition upd_inode (f : Z → list Z) n (di : DiskInode) : Z → list Z :=
  upd f (inode_block sb n) (splice (64 * Z.to_nat (n `mod` 8)) (inode_bytes di) (f (inode_block sb n))).

Lemma splice_block_ok off l d :
  block_ok d → bytes l → (off + length l <= BSIZE)%nat → block_ok (splice off l d).
Proof.
  intros [Hlen Hb] Hl Hle. split; [rewrite length_splice; lia|by apply bytes_splice].
Qed.

Lemma inode_at_upd_inode f n m di :
  0 <= n < ninodes sb → 0 <= m < ninodes sb → inode_wf di → block_ok (f (inode_block sb n)) →
  inode_at (upd_inode f n di) m = if decide (m = n) then di else inode_at f m.
Proof.
  intros Hn Hm Hwf [Hlen Hby]. unfold inode_at, upd_inode, upd, nth_inode.
  destruct (inode_block_range _ _ Hg Hn) as [En _], (inode_block_range _ _ Hg Hm) as [Em _].
  pose proof (length_inode_bytes _ Hwf) as Hl.
  destruct (decide (inode_block sb m = inode_block sb n)) as [E|E].
  - destruct (decide (m = n)) as [->|Hmn].
    + pose proof (slice_splice_same (64 * Z.to_nat (n `mod` 8)) (inode_bytes di)
        (f (inode_block sb n))) as Hs. rewrite Hl in Hs. rewrite Hs by lia. by rewrite inode_roundtrip.
    + rewrite E. rewrite slice_splice_disjoint; [done|rewrite Hl; lia|lia|]. rewrite Hl. lia.
  - rewrite decide_False; [done|]. by intros ->.
Qed.

Lemma wp_write_disk_inode hs s n di (Q : bool → Fs T → Prop) :
  bs_ok hs s → 0 <= n < ninodes sb → (length hs < bs_limit)%nat → inode_wf di →
  (∀ s', becomes hs s s' (upd_inode (bs_view s) n di) → Q true s') →
  wp (write_disk_inode n di) s Q.
Proof.
  intros Hok Hn Hlt Hwf HQ. pose proof (inode_block_blocks _ Hn). eapply wp_superblock; [exact Hok|].
  apply (wp_modify_scope hs s _ false
    (splice (64 * Z.to_nat (n `mod` INODES_PER_BLOCK)) (inode_bytes di)) (λ ok, ok));
    [done|lia|done| |exact HQ].
  apply splice_block_ok; [apply (fs_block_ok hs); [done|lia]|apply bytes_inode_bytes|].
  rewrite (length_inode_bytes _ Hwf). unfold INODES_PER_BLOCK. lia.
Qed.

(** ** Allocating a block *)

(** The metadata blocks are marked. *)
Definition metadata_used (f : Z → list Z) : Prop := ∀ b, 0 <= b < data_start sb → used sb f b = true.

(** Block [b], the first free one, has been marked and zeroed; [d] is the
    bitmap block that has changed. *)
Definition allocated hs s b s' : Prop :=
  data_start sb <= b < sb_size sb ∧ used sb (bs_view s) b = false ∧
  (∀ c, 0 <= c < b → used sb (bs_view s) c = true) ∧
  (∃ d, block_ok d ∧ becomes hs s s'
    (upd (upd (bs_view s) (bitmap_start sb + b / 4096) d) b (replicate BSIZE 0))) ∧
  (∀ c, 0 <= c < sb_size sb →
    used sb (bs_view s') c = if decide (c = b) then true else used sb (bs_view s) c).

Lemma allocated_intro hs s b s1 s2 d :
  bs_ok hs s → metadata_used (bs_view s) → 0 <= b < sb_size sb → used sb (bs_view s) b = false →
  (∀ c, 0 <= c < b → used sb (bs_view s) c = true) → block_ok d →
  becomes hs s s1 (upd (bs_view s) (bitmap_start sb + b / 4096) d) →
  (∀ j, 0 <= j → bit d j = if decide (j = b `mod` 4096) then true
    else bit (bs_view s (bitmap_start sb + b / 4096)) j) →
  becomes hs s1 s2 (upd (bs_view s1) b (replicate BSIZE 0)) →
  allocated hs s b s2.
Proof.
  intros Hok Hmeta Hb Hfree Hbelow Hd H1 Hbit H2.
  assert (data_start sb <= b) as Hds.
  { destruct (decide (b < data_start sb)); [|lia]. rewrite Hmeta in Hfree; [done|lia]. }
  split; [lia|]. split; [done|]. split; [done|]. split.
  - exists d. split; [done|]. by eapply becomes_upd.
  - intros c Hc. rewrite <- (used_after _ _ _ _ _ true Hok Hb H1 Hbit c Hc).
    destruct H2 as (_ & Hv & _). rewrite (used_view _ _ _ Hv Hc). by apply used_upd_other.
Qed.

(** The body of the outer loop: from the bitmap block of [base], with [None]
    when all its blocks are in use. *)
Definition allocate_step (base : Z) : M (Fs T) (option (option Z)) :=
  with_block (bitmap_block sb base) (Some None) (λ block,
    bitmap ← ref_load block;
    clear ← defined (find_clear bitmap_fuel sb base bitmap 0);
    match clear with
    | Some offset =>
        bitmap' ← defined (set_bit bitmap offset);
        _ ← ref_store block bitmap';
        ok ← ref_write_back block;
        if negb ok then mret (Some None, block)
        else
          block ← ref_reset block;
          let block_number := u32 (base + offset) in
          ok ← zero_block block_number;
          if negb ok then mret (Some None, block)
          else mret (Some (Some block_number), block)
    | None => mret (None, block)
    end).

Lemma wp_allocate_step hs s base (Q : option (option Z) → Fs T → Prop) :
  bs_ok hs s → (length hs < bs_limit)%nat → metadata_used (bs_view s) →
  0 <= base < sb_size sb → base `mod` 4096 = 0 →
  (∀ c, 0 <= c < base → used sb (bs_view s) c = true) →
  (∀ s', (∀ c, 0 <= c < Z.min (base + 4096) (sb_size sb) → used sb (bs_view s) c = true) →
    becomes hs s s' (bs_view s) → Q None s') →
  (∀ b s', allocated hs s b s' → Q (Some (Some b)) s') →
  wp (allocate_step base) s Q.
Proof.
  intros Hok Hlt Hmeta Hbase Hmod Hbelow HNone HSome. pose proof (geo_data _ Hg). pose proof (geo_size _ Hg).
  destruct (bitmap_block_ok _ _ _ Hok Hbase) as [Hbo Hbr]. unfold allocate_step.
  rewrite bitmap_block_small by done.
  eapply wp_with_block; [exact Hok|lia|done|]. intros p s1 Hok1 Hp Hv1 Hk1.
  set (blk := bitmap_start sb + base / 4096) in *.
  assert (blk ∈ blk :: hs) as Hin by left. wp_step.
  wp_use bs_peek; [exact Hok1|exact Hin|exact Hp|]. intros d s' [-> ->]. rewrite (Hv1 blk) by lia.
  destruct (find_clear_spec sb base (bs_view s blk) bitmap_fuel 0) as (r & Hr & Hspec);
    [apply Hbo|lia|lia|lia|unfold bitmap_fuel; lia|].
  wp_step. eapply wp_defined; [exact Hr|].
  assert (∀ k, 0 <= k < 4096 → base + k < sb_size sb → used sb (bs_view s) (base + k) = bit (bs_view s blk) k) as Hused.
  { intros k Hk Hs. unfold used, blk. do 2 f_equal; [f_equal; lia|lia]. }
  destruct r as [o|].
  - destruct Hspec as (Ho & Hs & Hclear & Hall).
    destruct (set_bit_block (bs_view s blk) o Hbo) as (d' & Hd' & Hdo & Hbit); [lia|].
    wp_step. eapply wp_defined; [exact Hd'|].
    eapply wp_save; [exact Hok1|exact Hin|exact Hp|exact Hdo|]. intros s2 (Hok2 & Hv2 & Hk2).
    cbn [negb]. wp_step. unfold ref_reset. cbn [store_ data_ block_number_]. wp_step.
    wp_use bs_release; [exact Hok2|]. intros _ s3 (Hok3 & Hv3 & Hk3). wp_step.
    rewrite u32_small by lia. wp_step.
    assert (becomes hs s s3 (upd (bs_view s) blk d')) as H3.
    { eapply becomes_after; [| |split; [exact Hok3|by split]].
      - intros c Hc. rewrite Hv2 by done. unfold upd. case_decide; [done|]. by apply Hv1.
      - eapply kept_trans; [exact Hk1|]. by eapply kept_tail. }
    apply (wp_zero_block hs); [done|lia|done|]. intros s4 H4. cbn [negb]. wp_step.
    right. split; [done|]. split; [done|]. apply HSome.
    assert (blk = bitmap_start sb + (base + o) / 4096) as Eblk by (unfold blk; lia).
    assert (o = (base + o) `mod` 4096) as Eo by lia.
    assert (∀ j, 0 <= j → bit d' j = if decide (j = (base + o) `mod` 4096) then true
      else bit (bs_view s (bitmap_start sb + (base + o) / 4096)) j) as Hbit'.
    { rewrite <- Eo, <- Eblk. exact Hbit. }
    rewrite Eblk in H3.
    apply (allocated_intro hs s (base + o) s3 s4 d' Hok Hmeta); [lia|by rewrite Hused by lia| |done..].
    intros c Hc. destruct (decide (c < base)); [apply Hbelow; lia|].
    replace c with (base + (c - base)) by lia. rewrite Hused by lia. apply Hall. lia.
  - wp_step. left. split; [by exists p|]. split; [done|]. intros s2 H2. cbn [fst].
    apply HNone; [|by eapply becomes_after]. intros c Hc.
    destruct (decide (c < base)); [apply Hbelow; lia|].
    replace c with (base + (c - base)) by lia. rewrite Hused by lia. apply Hspec; lia.
Qed.

Lemma metadata_view s f : same_view s f → metadata_used (bs_view s) ↔ metadata_used f.
Proof.
  intros Hv. pose proof (geo_data _ Hg).
  split; intros Hm b Hb; specialize (Hm b Hb); rewrite (used_view s f b Hv) in *; auto; lia.
Qed.

Lemma allocated_from hs s0 s b s' :
  becomes hs s0 s (bs_view s0) → allocated hs s b s' → allocated hs s0 b s'.
Proof.
  intros Hs (Hb & Hfree & Hbelow & (d & Hd & Hs') & Hused). pose proof Hs as (_ & Hv & Hk).
  pose proof (geo_data _ Hg). pose proof (geo_inode_start _ Hg). pose proof (geo_inodes _ Hg).
  pose proof (geo_ninodes _ Hg). unfold data_start, bitmap_blocks in *.
  split; [done|]. split; [rewrite <- (used_view s) by (done || lia); done|].
  split; [intros c Hc; rewrite <- (used_view s) by (done || lia); auto|]. split.
  - exists d. split; [done|]. eapply becomes_ext; [by eapply becomes_trans|]. intros c Hc.
    unfold upd. case_decide; [done|]. case_decide; [done|]. by apply Hv.
  - intros c Hc. rewrite Hused by done. by rewrite (used_view s (bs_view s0) c Hv Hc).
Qed.

(** Enough fuel for the rest of the loop. *)
Lemma wp_allocate_loop hs s0 s fuel base (Q : option Z → Fs T → Prop) :
  bs_ok hs s0 → becomes hs s0 s (bs_view s0) → (length hs < bs_limit)%nat →
  metadata_used (bs_view s0) → 0 <= base <= sb_size sb + 4095 → base `mod` 4096 = 0 →
  sb_size sb + 4096 <= base + 4096 * Z.of_nat fuel →
  (∀ c, 0 <= c < Z.min base (sb_size sb) → used sb (bs_view s0) c = true) →
  ((∀ c, 0 <= c < sb_size sb → used sb (bs_view s0) c = true) →
    ∀ s', becomes hs s0 s' (bs_view s0) → Q None s') →
  (∀ b s', allocated hs s0 b s' → Q (Some b) s') →
  wp (allocate_loop fuel base) s Q.
Proof.
  intros Hok0. revert s base. induction fuel as [|fuel IH];
    intros s base Hs Hlt Hmeta Hbase Hmod Hfuel Hbelow HNone HSome; [lia|].
  pose proof Hs as (Hok & Hv & _). pose proof (geo_size _ Hg).
  cbn [allocate_loop]. eapply wp_superblock; [exact Hok|]. destruct (base <? sb_size sb) eqn:E.
  - wp_step. apply (wp_allocate_step hs s base); [done|done|by rewrite metadata_view|lia|done| | |].
    + intros c Hc. rewrite (used_view s (bs_view s0)) by (done || lia). apply Hbelow. lia.
    + intros s1 Hall H1. unfold BLOCKS_PER_BITMAP_BLOCK. rewrite u32_small by lia.
      apply IH; try done; [by eapply becomes_same|lia..|].
      intros c Hc. rewrite <- (used_view s (bs_view s0)) by (done || lia). apply Hall. lia.
    + intros b s1 H1. wp_step. apply HSome. by eapply allocated_from.
  - wp_step. apply HNone; [|done]. intros c Hc. apply Hbelow. lia.
Qed.

Lemma wp_allocate_block hs s (Q : option Z → Fs T → Prop) :
  bs_ok hs s → (length hs < bs_limit)%nat → metadata_used (bs_view s) →
  ((∀ c, 0 <= c < sb_size sb → used sb (bs_view s) c = true) →
    ∀ s', becomes hs s s' (bs_view s) → Q None s') →
  (∀ b s', allocated hs s b s' → Q (Some b) s') →
  wp allocate_block s Q.
Proof.
  intros Hok Hlt Hmeta HNone HSome. eapply wp_superblock; [exact Hok|].
  pose proof (geo_data _ Hg). pose proof (geo_inode_start _ Hg). pose proof (geo_inodes _ Hg).
  pose proof (geo_ninodes _ Hg). unfold data_start, bitmap_blocks in *.
  apply (wp_allocate_loop hs s s); try done; [by apply becomes_refl|lia| |].
  - unfold allocate_fuel, BLOCKS_PER_BITMAP_BLOCK. lia.
  - intros c Hc. lia.
Qed.
End ops.
