(* ===== verification/FileSystemFormat.v ===== *)
(** * Formatting and mounting

    [format] produces the disk described in the comments of
    include/file_system.hpp, and [mount] (the body of [initialize]) formats a
    disk that is not formatted and leaves one that is. *)
From stdpp Require Import strings.
From S2P Require Import Prelude BlockStore StoreRefinement FsLayout FileSystem FileSystemSpec.

Section loops.
Context {T : Type} `{HT : IBlockStore T}.

(** The rule of the loops of [format]. *)
Lemma wp_for_blocks (I : Z → Fs T → Prop) fuel f b stop s (Q : bool → Fs T → Prop) :
  0 <= b <= stop → stop < 4294967296 → stop < b + Z.of_nat fuel → I b s →
  (∀ b s, 0 <= b < stop → I b s → wp (f b) s (λ ok s', ok = true ∧ I (b + 1) s')) →
  (∀ s', I stop s' → Q true s') →
  wp (for_blocks fuel f b stop) s Q.
Proof.
  intros Hb Hmax. revert b s Hb. induction fuel as [|fuel IH]; intros b s Hb Hf HI Hstep HQ; [lia|].
  cbn [for_blocks]. destruct (b <? stop) eqn:E.
  - wp_step. wp_use Hstep; [lia|exact HI|]. intros ok s' [-> HI']. cbn [negb].
    rewrite u32_small by lia. apply IH; auto with lia.
  - wp_step. apply HQ. by replace stop with b by lia.
Qed.
End loops.

(** ** Zeroed blocks *)
Lemma slice_replicate off n k (x : Z) :
  (off + n <= k)%nat → slice off n (replicate k x) = replicate n x.
Proof. intros. unfold slice. rewrite drop_replicate, take_replicate. f_equal. lia. Qed.

Lemma nth_inode_zero n : 0 <= n < 8 → nth_inode n (replicate BSIZE 0) = DiskInode_zero.
Proof. intros. unfold nth_inode. rewrite slice_replicate by lia. vm_compute. done. Qed.

Lemma used_zero sb f c : f (bitmap_start sb + c / 4096) = replicate BSIZE 0 → used sb f c = false.
Proof. intros Hf. unfold used. rewrite Hf. apply bit_replicate_0. Qed.

(** ** The geometry of a formatted disk *)
Lemma format_geometry n :
  27 + (n + 4095) / 4096 <= n <= 4294967296 - 4096 →
  let sb := (format_superblock n).1 in
  (format_superblock n).2 = data_start sb ∧ geometry sb ∧ superblock_wf sb ∧ magic sb = FS_MAGIC ∧
  sb_size sb = n ∧ inode_start sb = 2 ∧ bitmap_start sb = 27 ∧ ninodes sb = 200 ∧
  nblocks sb = n - data_start sb.
Proof.
  intros Hn sb. assert (format_superblock n = (mkSuperBlock FS_MAGIC n (n - (27 + (n + 4095) / 4096)) 200 2 27,
    27 + (n + 4095) / 4096)) as E.
  { unfold format_superblock, NUM_INODES, INODES_PER_BLOCK, BLOCKS_PER_BITMAP_BLOCK.
    replace (u32 (n + 4096 - 1)) with (n + 4095) by (rewrite u32_small; lia).
    change (u32 (2 + (200 + 8 - 1) / 8)) with 27.
    rewrite (u32_small (27 + _)) by lia. rewrite u32_small by lia. done. }
  subst sb. rewrite E. cbn [fst snd]. unfold data_start, bitmap_blocks. cbn [sb_size bitmap_start].
  split; [done|]. split; [|split; [|done]].
  - split; cbn [inode_start ninodes bitmap_start sb_size]; unfold data_start, bitmap_blocks;
      cbn [bitmap_start sb_size]; lia.
  - unfold superblock_wf, is_u32. cbn. unfold FS_MAGIC. repeat constructor; lia.
Qed.

(** The root directory of a formatted disk, and its inode. *)
Definition root_entries : list DirectoryEntry :=
  [ mkDirectoryEntry 1 (string_bytes "." ++ replicate 13 0);
    mkDirectoryEntry 1 (string_bytes ".." ++ replicate 12 0) ].
Definition root_block : list Z :=
  splice 16 (entry_bytes (mkDirectoryEntry 1 (string_bytes ".." ++ replicate 12 0)))
    (splice 0 (entry_bytes (mkDirectoryEntry 1 (string_bytes "." ++ replicate 13 0))) (replicate BSIZE 0)).
Definition root_inode (b : Z) : DiskInode :=
  mkDiskInode kDirectory 0 0 1 32 (b :: replicate 12 0).

Lemma root_inode_wf b : is_u32 b → inode_wf (root_inode b).
Proof.
  intros Hb. unfold inode_wf, root_inode. cbn [type major minor nlink size addrs].
  do 4 (split; [by vm_compute|]). split; [by vm_compute|]. split; [done|].
  constructor; [done|]. apply Forall_replicate. by vm_compute.
Qed.

(** The contents of a formatted disk. *)
Record formatted (sb : SuperBlock) (f : Z → list Z) : Prop := {
  formatted_superblock : bytes_superblock (f 1) = sb;
  formatted_used : ∀ c, 0 <= c < sb_size sb → used sb f c = (c <=? data_start sb);
  formatted_root : inode_at sb f ROOT_INODE = root_inode (data_start sb);
  formatted_inodes : ∀ n, 0 <= n < ninodes sb → n ≠ ROOT_INODE → inode_at sb f n = DiskInode_zero;
  formatted_directory : f (data_start sb) = root_block;
}.

Lemma formatted_ext sb f g :
  geometry sb → data_start sb < sb_size sb → 1 < ninodes sb → formatted sb f →
  (∀ c, 0 <= c < sb_size sb → g c = f c) → formatted sb g.
Proof.
  intros Hg Hds Hni [H1 H2 H3 H4 H5] Hfg.
  pose proof (geo_data _ Hg). pose proof (geo_inode_start _ Hg). pose proof (geo_inodes _ Hg).
  unfold data_start, bitmap_blocks in Hds.
  assert (∀ m, 0 <= m < ninodes sb → inode_at sb g m = inode_at sb f m) as Hi.
  { intros m Hm. unfold inode_at. destruct (inode_block_range _ _ Hg Hm) as [_ ?].
    unfold data_start, bitmap_blocks in *. rewrite Hfg by lia. done. }
  split.
  - rewrite Hfg by lia. done.
  - intros c Hc. unfold used. pose proof (bitmap_block_range _ _ Hg Hc). rewrite Hfg by lia. by apply H2.
  - rewrite Hi by (unfold ROOT_INODE; lia). done.
  - intros m Hm Hne. rewrite Hi by done. by apply H4.
  - rewrite Hfg; [done|]. unfold data_start, bitmap_blocks. lia.
Qed.

Section format.
Context {T : Type} `{HT : IBlockStore T} (ST : BlockStoreSpec T).
Context (con : Console) (tbl : list Inode) (n : Z).
Context (Hn : 27 + (n + 4095) / 4096 < n <= 4294967296 - 4096) (Hblocks : n <= bs_blocks).
Context (Hlimit : (0 < bs_limit)%nat).

Context (sb : SuperBlock) (Hsb : (format_superblock n).1 = sb).
#[local] Hint Extern 0 (BlockStoreSpec (Fs T)) => exact (fs_store ST con sb tbl) : typeclass_instances.
Implicit Types s : Fs T.

Lemma format_facts :
  (format_superblock n).2 = data_start sb ∧ geometry sb ∧ superblock_wf sb ∧ magic sb = FS_MAGIC ∧
  sb_size sb = n ∧ inode_start sb = 2 ∧ bitmap_start sb = 27 ∧ ninodes sb = 200 ∧
  data_start sb = 27 + (n + 4095) / 4096.
Proof.
  destruct (format_geometry n) as (H1 & H2 & H3 & H4 & H5 & H6 & H7 & H8 & _); [lia|].
  rewrite Hsb in *. unfold data_start, bitmap_blocks in *. rewrite H5, H7 in *. done.
Qed.

Lemma format_size : sb_size sb <= @bs_blocks (Fs T) _ (fs_store ST con sb tbl).
Proof. destruct format_facts as (_ & _ & _ & _ & -> & _). exact Hblocks. Qed.

(** *** The two loops *)
Lemma wp_zero_metadata s (Q : bool → Fs T → Prop) :
  bs_ok [] s →
  (∀ s', bs_ok [] s' → (∀ c, 2 <= c < data_start sb → bs_view s' c = replicate BSIZE 0) → Q true s') →
  wp (for_blocks (S (Z.to_nat (data_start sb))) zero_block 2 (data_start sb)) s Q.
Proof.
  intros Hok HQ. destruct format_facts as (_ & Hg & _ & _ & Es & _ & _ & _ & Ed).
  apply (wp_for_blocks (λ b s, bs_ok [] s ∧ ∀ c, 2 <= c < b → bs_view s c = replicate BSIZE 0));
    [lia|lia|lia|split; [done|lia]| |intros s' [? ?]; by apply HQ].
  intros b s1 Hb [Hok1 Hz]. pose proof format_size.
  apply (wp_zero_block ST con sb tbl format_size []); [done|lia|done|].
  intros s2 (Hok2 & Hv2 & _). split; [done|]. split; [done|]. intros c Hc.
  rewrite Hv2 by lia. unfold upd. case_decide; [done|]. apply Hz. lia.
Qed.

(** The blocks outside the bitmap. *)
Definition outside_bitmap (c : Z) : Prop := 0 <= c < 27 ∨ data_start sb <= c < n.

Lemma wp_mark_metadata s (Q : bool → Fs T → Prop) :
  bs_ok [] s → (∀ c, 2 <= c < data_start sb → bs_view s c = replicate BSIZE 0) →
  (∀ s', bs_ok [] s' → (∀ c, 0 <= c < n → used sb (bs_view s') c = (c <? data_start sb)) →
    (∀ c, outside_bitmap c → bs_view s' c = bs_view s c) → Q true s') →
  wp (for_blocks (S (Z.to_nat (data_start sb))) mark_block_used 0 (data_start sb)) s Q.
Proof.
  intros Hok Hz HQ. destruct format_facts as (_ & Hg & _ & _ & Es & _ & Eb & _ & Ed). pose proof format_size.
  apply (wp_for_blocks (λ b s', bs_ok [] s' ∧ (∀ c, 0 <= c < n → used sb (bs_view s') c = (c <? b)) ∧
    (∀ c, outside_bitmap c → bs_view s' c = bs_view s c))); [lia|lia|lia| | |].
  - split; [done|]. split; [|done]. intros c Hc. rewrite used_zero; [lia|]. apply Hz. lia.
  - intros b s1 Hb (Hok1 & Hu1 & Hv1).
    apply (wp_mark_block_used ST con sb tbl Hg format_size []); [done|lia|done|].
    intros s2 d (Hok2 & Hv2 & _) Hu2. split; [done|]. split; [done|]. split.
    + intros c Hc. rewrite Hu2 by lia. rewrite Hu1 by done. case_decide; lia.
    + intros c Hc. unfold outside_bitmap in Hc. rewrite Hv2 by lia. rewrite upd_ne by lia. by apply Hv1.
  - intros s' (? & ? & ?). by apply HQ.
Qed.

(** *** The superblock and the root directory *)

(** The state before [create_root]. *)
Definition prepared (f : Z → list Z) : Prop :=
  (∀ c, 0 <= c < n → used sb f c = (c <? data_start sb)) ∧
  (∀ c, 2 <= c < 27 → f c = replicate BSIZE 0) ∧ bytes_superblock (f 1) = sb.

Lemma wp_write_superblock s (Q : bool → Fs T → Prop) :
  bs_ok [] s → (∀ c, 0 <= c < n → used sb (bs_view s) c = (c <? data_start sb)) →
  (∀ c, 2 <= c < 27 → bs_view s c = replicate BSIZE 0) →
  (∀ s', bs_ok [] s' → prepared (bs_view s') → Q true s') →
  wp write_superblock s Q.
Proof.
  intros Hok Hu Hz HQ. destruct format_facts as (_ & Hg & Hwf & _ & Es & _ & Eb & _ & Ed). pose proof format_size.
  eapply (wp_superblock ST con sb tbl); [exact Hok|].
  apply (wp_overwrite_scope [] s 1 false (splice 0 (superblock_bytes sb) (replicate BSIZE 0)) (λ ok, ok));
    [done|lia|done| |].
  { apply splice_block_ok; [by apply filled_ok|apply bytes_superblock_bytes|].
    rewrite length_superblock_bytes. lia. }
  intros s1 (Hok1 & Hv1 & _). apply HQ; [done|]. split; [|split].
  - intros c Hc. rewrite (used_view ST con sb tbl Hg format_size s1 _ c Hv1) by lia.
    unfold used in *. rewrite upd_ne by lia. by apply Hu.
  - intros c Hc. rewrite Hv1 by lia. rewrite upd_ne by lia. by apply Hz.
  - rewrite Hv1 by lia. rewrite upd_eq. unfold splice. rewrite take_0. by apply superblock_roundtrip.
Qed.

Lemma wp_add_root_entry_at s b root m name i (Q : bool * DiskInode → Fs T → Prop) :
  let l := Nat.min (length name) 14 in
  let entry := mkDirectoryEntry (u16 m) (take l name ++ replicate (14 - l) 0) in
  bs_ok [] s → 0 <= b < n → root_slot 32 0 (bs_view s b) = Some i →
  block_ok (splice (16 * i) (entry_bytes entry) (bs_view s b)) →
  (∀ s', becomes [] s s' (upd (bs_view s) b (splice (16 * i) (entry_bytes entry) (bs_view s b))) →
    Q (true, set_size (u32 (size root + 16)) root) s') →
  wp (add_root_entry_at b root m name) s Q.
Proof.
  intros l entry Hok Hb Hslot Hd HQ. pose proof format_size.
  destruct format_facts as (_ & Hg & _ & _ & Es & _ & _ & _ & _).
  eapply wp_with_block; [exact Hok|lia|done|]. intros p s1 Hok1 Hp Hv1 Hk1.
  assert (b ∈ [b]) as Hin by left. wp_step.
  wp_use bs_peek; [exact Hok1|exact Hin|exact Hp|]. intros d s' [-> ->].
  rewrite (Hv1 b) by lia. rewrite Hslot.
  eapply wp_save; [exact Hok1|exact Hin|exact Hp|exact Hd|]. intros s2 (Hok2 & Hv2 & Hk2).
  cbn [negb]. wp_step. left. split; [by exists p|]. split; [done|]. intros s3 H3. cbn [fst].
  apply HQ. eapply becomes_after; [| |exact H3].
  - intros c Hc. rewrite Hv2 by done. unfold upd. case_decide; [done|]. by apply Hv1.
  - eapply kept_trans; [exact Hk1|]. by eapply kept_tail.
Qed.

(** The disk after [create_root], from the steps it takes. *)
Lemma created_root f0 f1 f4 d :
  prepared f0 →
  (∀ c, 0 <= c < n → f1 c = upd (upd f0 (27 + data_start sb / 4096) d) (data_start sb) (replicate BSIZE 0) c) →
  (∀ c, 0 <= c < n → used sb f1 c = if decide (c = data_start sb) then true else used sb f0 c) →
  (∀ c, 0 <= c < n → f4 c = upd_inode sb (upd f1 (data_start sb) root_block) ROOT_INODE
    (root_inode (data_start sb)) c) →
  formatted sb f4.
Proof.
  intros (Hu & Hz & Hsb1) Hv1 Hu1 Hv4.
  destruct format_facts as (_ & Hg & _ & _ & Es & Ei & Eb & En & Ed).
  assert (inode_block sb ROOT_INODE = 2) as Eblk by (unfold inode_block; by rewrite Ei).
  assert (∀ c, 0 <= c < n → c ≠ 27 + data_start sb / 4096 → c ≠ 2 → c ≠ data_start sb → f4 c = f0 c) as Hsame.
  { intros c Hc ???. rewrite Hv4 by done. unfold upd_inode. rewrite Eblk, !upd_ne, Hv1 by done.
    by rewrite !upd_ne. }
  assert (∀ c, 2 <= c < 27 → upd f1 (data_start sb) root_block c = replicate BSIZE 0) as Hz1.
  { intros c Hc. rewrite upd_ne, Hv1, !upd_ne by lia. by apply Hz. }
  assert (∀ m, 0 <= m < 200 → inode_at sb f4 m = if decide (m = ROOT_INODE) then root_inode (data_start sb)
    else DiskInode_zero) as Hinodes.
  { intros m Hm. destruct (inode_block_range sb m Hg) as [Em Hmr]; [lia|].
    transitivity (inode_at sb (upd_inode sb (upd f1 (data_start sb) root_block) ROOT_INODE
      (root_inode (data_start sb))) m); [unfold inode_at; by rewrite Hv4 by lia|].
    rewrite (inode_at_upd_inode sb Hg).
    - case_decide; [done|]. unfold inode_at. rewrite Hz1 by lia. apply nth_inode_zero. lia.
    - rewrite En. done.
    - lia.
    - apply root_inode_wf. unfold is_u32. lia.
    - rewrite Eblk, Hz1 by lia. by apply filled_ok. }
  split.
  - by rewrite Hsame by lia.
  - intros c Hc. rewrite Es in Hc. transitivity (used sb f1 c).
    + unfold used. pose proof (bitmap_block_range sb c Hg ltac:(lia)).
      rewrite Hv4 by lia. unfold upd_inode. rewrite !upd_ne by lia. done.
    + rewrite Hu1 by done. case_decide; [lia|]. rewrite Hu by done. lia.
  - by rewrite Hinodes.
  - intros m Hm Hne. rewrite Hinodes, decide_False by (done || lia). done.
  - rewrite Hv4 by lia. unfold upd_inode. rewrite Eblk, upd_ne by lia. by rewrite upd_eq.
Qed.

Lemma wp_create_root s (Q : bool → Fs T → Prop) :
  bs_ok [] s → prepared (bs_view s) →
  (∀ s', bs_ok [] s' → formatted sb (bs_view s') → Q true s') →
  wp create_root s Q.
Proof.
  intros Hok (Hu & Hz & Hsb1) HQ. pose proof format_size as Hsz.
  destruct format_facts as (_ & Hg & _ & _ & Es & Ei & Eb & En & Ed).
  unfold create_root. wp_step. unfold add_root_entry at 1. cbn [addrs lookup list_lookup replicate].
  do 2 wp_step. cbn [Z.eqb]. wp_step.
  apply (wp_allocate_block ST con sb tbl Hg Hsz []); [done|done| | |].
  { intros c Hc. rewrite Hu by lia. lia. }
  { intros Hall. specialize (Hall (data_start sb)). rewrite Hu in Hall by lia. lia. }
  intros b s1 (Hb & Hfree & Hbelow & (d & Hd & Hok1 & Hv1 & _) & Hu1).
  assert (b = data_start sb) as ->.
  { rewrite Hu in Hfree by lia. destruct (decide (b = data_start sb)); [done|].
    specialize (Hbelow (data_start sb)). rewrite Hu in Hbelow by lia. lia. }
  assert (bs_view s1 (data_start sb) = replicate BSIZE 0) as Hroot by (rewrite Hv1 by lia; by rewrite upd_eq).
  apply (wp_add_root_entry_at s1 _ _ _ _ 0); [done|lia|by rewrite Hroot|..].
  { rewrite Hroot. vm_compute. split; [done|]. repeat constructor; done. }
  intros s2 (Hok2 & Hv2 & _). cbn [negb]. wp_step. unfold add_root_entry.
  cbn [set_size set_addrs addrs lookup list_lookup replicate insert list_insert].
  do 2 wp_step. replace (data_start sb =? 0) with false by lia.
  assert (bs_view s2 (data_start sb) = splice (16 * 0)
    (entry_bytes (mkDirectoryEntry 1 (string_bytes "." ++ replicate 13 0))) (replicate BSIZE 0)) as Hroot2.
  { rewrite Hv2 by lia. rewrite upd_eq, Hroot. done. }
  apply (wp_add_root_entry_at s2 _ _ _ _ 1); [done|lia|by rewrite Hroot2|..].
  { rewrite Hroot2. vm_compute. split; [done|]. repeat constructor; done. }
  intros s3 (Hok3 & Hv3 & _). cbn [negb]. wp_step.
  change (set_size _ _) with (root_inode (data_start sb)).
  apply (wp_write_disk_inode ST con sb tbl Hg Hsz []); [done|by rewrite En|done| |].
  { apply root_inode_wf. unfold is_u32. lia. }
  intros s4 (Hok4 & Hv4 & _). cbn [negb]. wp_step. apply HQ; [done|].
  apply (created_root (bs_view s) (bs_view s1) (bs_view s4) d); [done| | |].
  - intros c Hc. rewrite Hv1 by lia. by rewrite Eb.
  - intros c Hc. apply Hu1. lia.
  - assert (∀ c, 0 <= c < n → bs_view s3 c = upd (bs_view s1) (data_start sb) root_block c) as Hv3'.
    { intros c Hc. rewrite Hv3 by lia. rewrite Hroot2. unfold upd at 1 2. case_decide; [done|].
      rewrite Hv2 by lia. by rewrite upd_ne. }
    assert (inode_block sb ROOT_INODE = 2) as Eblk by (unfold inode_block; by rewrite Ei).
    intros c Hc. rewrite Hv4 by lia. unfold upd_inode. rewrite Eblk, (Hv3' 2) by lia.
    unfold upd at 1 3. case_decide; [done|]. by apply Hv3'.
Qed.

(** *** format *)
Lemma wp_format s :
  @bs_ok T _ ST [] (block_store s) → console s = con → inode_table s = tbl →
  wp (format n) s (λ ok s', ok = true ∧ bs_ok [] s' ∧ formatted sb (bs_view s')).
Proof.
  intros Hok Hc Ht. destruct format_facts as (E2 & _ & _ & _ & Es & Ei & _ & _ & Ed).
  assert (format_superblock n = (sb, data_start sb)) as E.
  { rewrite (surjective_pairing (format_superblock n)). by rewrite Hsb, E2. }
  unfold format. rewrite E. do 2 wp_step. rewrite Ei. wp_step.
  apply wp_zero_metadata; [by split|]. intros s1 Hok1 Hz1. cbn [negb]. wp_step.
  apply wp_mark_metadata; [done|done|]. intros s2 Hok2 Hu2 Hv2. cbn [negb]. wp_step.
  apply wp_write_superblock; [done|done| |].
  { intros c Hc'. rewrite Hv2 by (left; lia). apply Hz1. lia. }
  intros s3 Hok3 Hp3. cbn [negb]. apply wp_create_root; [done|done|]. auto.
Qed.
End format.

(** ** Mounting *)
Section mount.
Context {T : Type} `{HT : IBlockStore T} (ST : BlockStoreSpec T).
Context (Hlimit : (0 < bs_limit)%nat) (Hone : 1 < bs_blocks).
Implicit Types s : Fs T.

Lemma wp_load_superblock s :
  bs_ok [] (block_store s) →
  wp load_superblock s (λ ok s', let sb := bytes_superblock (bs_view (block_store s) 1) in
    ok = (magic sb =? FS_MAGIC) ∧ console s' = console s ∧ superblock s' = sb ∧
    inode_table s' = inode_table s ∧ becomes [] (block_store s) (block_store s') (bs_view (block_store s))).
Proof.
  intros Hok. unfold load_superblock, with_block. wp_step. apply wp_zoom_store.
  wp_use bs_acquire; [exact Hok|lia|done|]. intros r t1 (p & -> & Hok1 & Hp & Hv1 & _).
  cbn [is_null data_]. do 2 wp_step. unfold ref_load. cbn [data_]. apply wp_zoom_store.
  assert (1 ∈ [1]) as Hin by left. wp_use bs_peek; [exact Hok1|exact Hin|exact Hp|].
  intros d t2 [-> ->]. wp_steps. unfold ref_reset. cbn [store_ data_ block_number_]. wp_step.
  apply wp_zoom_store. cbn [block_store set_block_store set_superblock].
  wp_use bs_release; [exact Hok1|]. intros _ t3 (Hok3 & Hv3 & _). wp_steps.
  cbn [superblock set_block_store set_superblock]. rewrite Hv1 by lia.
  split; [done|]. split; [done|]. split; [done|]. split; [done|].
  split; [done|]. split; [|intros c q Hc; by apply not_elem_of_nil in Hc].
  intros c Hc. cbn [block_store set_block_store set_superblock]. by rewrite Hv3, Hv1.
Qed.

(** A formatted disk is mounted as it is. *)
Lemma wp_mount_formatted n s :
  bs_ok [] (block_store s) → magic (bytes_superblock (bs_view (block_store s) 1)) = FS_MAGIC →
  wp (mount n) s (λ ok s', ok = true ∧ console s' = console s ∧
    superblock s' = bytes_superblock (bs_view (block_store s) 1) ∧
    becomes [] (block_store s) (block_store s') (bs_view (block_store s))).
Proof.
  intros Hok Hm. unfold mount. wp_step. wp_use wp_load_superblock; [exact Hok|].
  intros ok s' (-> & Hc & Hs & Ht & Hb). rewrite Hm, Z.eqb_refl. by wp_step.
Qed.

(** Any other disk is formatted. *)
Lemma wp_mount_unformatted n s :
  27 + (n + 4095) / 4096 < n <= 4294967296 - 4096 → n <= bs_blocks →
  bs_ok [] (block_store s) → magic (bytes_superblock (bs_view (block_store s) 1)) ≠ FS_MAGIC →
  wp (mount n) s (λ ok s', ok = true ∧ console s' = console_write not_formatted (console s) ∧
    superblock s' = (format_superblock n).1 ∧ inode_table s' = inode_table s ∧
    bs_ok [] (block_store s') ∧ formatted (superblock s') (bs_view (block_store s'))).
Proof.
  intros Hn Hblocks Hok Hm. unfold mount. wp_step. wp_use wp_load_superblock; [exact Hok|].
  intros ok s1 (-> & Hc1 & Hs1 & Ht1 & (Hok1 & Hv1 & _)).
  apply Z.eqb_neq in Hm. rewrite Hm. do 2 wp_step. wp_step.
  wp_use (wp_format ST (console_write not_formatted (console s)) (inode_table s) n Hn Hblocks Hlimit _ eq_refl);
    [done|by cbn; rewrite Hc1|done|].
  intros ok s2 (-> & [Hok2 (Hc2 & Hs2 & Ht2)] & Hf). cbn [negb].
  pose proof (formatted_superblock _ _ Hf) as Hsb.
  change (bytes_superblock (bs_view (block_store s2) 1) = (format_superblock n).1) in Hsb.
  wp_use wp_load_superblock; [exact Hok2|]. intros ok s3 (-> & Hc3 & Hs3 & Ht3 & (Hok3 & Hv3 & _)).
  destruct (format_geometry n) as (_ & Hg & _ & Hmagic & Eisz & _ & Ebm & Eni & _); [lia|].
  rewrite Hsb in Hs3 |- *. rewrite Hmagic, Hs3, Hc3, Hc2, Ht3, Ht2.
  split; [done|]. split; [done|]. split; [done|]. split; [done|]. split; [done|].
  eapply formatted_ext; [exact Hg| |lia|exact Hf|].
  - unfold data_start, bitmap_blocks. rewrite Eisz, Ebm. lia.
  - intros c Hc. rewrite Eisz in Hc. apply Hv3. lia.
Qed.
End mount.
