(* ===== verification/Inode.v ===== *)
(** * Inodes in memory (include/inode.hpp, include/inode.cpp)

    The table of inodes in use, and the bytes of a file through the block
    numbers of its inode. An [Inode &] or [Inode *] is the index of its slot
    in the table. *)
From S2P Require Import Prelude BlockStore FsLayout FileSystem.

Definition NUM_INODE : nat := 10.

(** An [InodeRef] is the slot it refers to, if any. *)
Definition InodeRef : Type := option nat.

Definition set_refcnt v (i : Inode) := mkInode (inode_number i) v (inode_valid i) (disk i).
Definition set_disk v (i : Inode) := mkInode (inode_number i) (inode_refcnt i) (inode_valid i) v.

Section Inode.
Context {T : Type} `{IBlockStore T}.

(** The slot behind a reference, and its modification. *)
Definition slot (i : nat) : M (Fs T) Inode :=
  s ← get; defined (inode_table s !! i).
Definition modify_slot (i : nat) (f : Inode → Inode) : M (Fs T) () :=
  x ← slot i; modify (λ s, set_inode_table (<[i := f x]> (inode_table s)) s).

Definition copy_from_disk (di : DiskInode) (inode : Inode) : Inode := set_disk di inode.
Definition to_disk (inode : Inode) : DiskInode := disk inode.

(** The loop of [get_inode]: the slot that holds the inode, or else the
    first empty one. *)
Fixpoint scan_table (l : list Inode) (k : nat) (n : Z) (empty : option nat) : nat + option nat :=
  match l with
  | [] => inr empty
  | inode :: l =>
      if (inode_refcnt inode >? 0) && (inode_number inode =? n) then inl k
      else scan_table l (S k) n
        (match empty with
         | None => if inode_refcnt inode =? 0 then Some k else None
         | Some e => Some e
         end)
  end.

Definition get_inode (n : Z) : M (Fs T) InodeRef :=
  table ← gets inode_table;
  match scan_table table 0 n None with
  | inl k =>
      inode ← slot k;
      if inode_refcnt inode =? INT_MAX then stuck
      else
        _ ← modify_slot k (set_refcnt (inode_refcnt inode + 1));
        mret (Some k)
  | inr None => mret None
  | inr (Some empty) =>
      di ← get_disk_inode n;
      match di with
      | None => mret None
      | Some di =>
          _ ← modify_slot empty (λ x, mkInode n (inode_refcnt x) (inode_valid x) (disk x));
          _ ← modify_slot empty (set_refcnt 1);
          _ ← modify_slot empty (λ x, mkInode (inode_number x) (inode_refcnt x) true (disk x));
          _ ← modify_slot empty (copy_from_disk di);
          mret (Some empty)
      end
  end.

(** The loop of [allocate_inode], from inode [n] on. *)
Fixpoint allocate_inode_loop (fuel : nat) (n : Z) (ty : Z) : M (Fs T) InodeRef :=
  match fuel with
  | O => stuck
  | S fuel =>
      sb ← gets superblock;
      if n <? ninodes sb then
        di ← get_disk_inode n;
        match di with
        | None => mret None
        | Some di =>
            if negb (type di =? kUnused) then allocate_inode_loop fuel (u32 (n + 1)) ty
            else
              ok ← write_disk_inode n (set_type ty DiskInode_zero);
              if negb ok then mret None else get_inode n
        end
      else mret None
  end.

Definition allocate_inode (ty : Z) : M (Fs T) InodeRef :=
  if ty =? kUnused then mret None
  else
    sb ← gets superblock;
    allocate_inode_loop (S (Z.to_nat (ninodes sb))) 1 ty.

Definition put_inode (inode : InodeRef) : M (Fs T) () :=
  match inode with
  | None => mret ()
  | Some k =>
      x ← slot k;
      if inode_refcnt x >? 0 then modify_slot k (set_refcnt (inode_refcnt x - 1)) else mret ()
  end.

(** [InodeRef::reset], also the destructor: the reference it leaves. *)
Definition InodeRef_reset (this : InodeRef) : M (Fs T) InodeRef :=
  match this with
  | None => mret None
  | Some k => _ ← put_inode (Some k); mret None
  end.
(** The move constructor: the new object, and [other] as it is left. *)
Definition InodeRef_move (other : InodeRef) : InodeRef * InodeRef := (other, None).
(** The move assignment of two distinct objects. *)
Definition InodeRef_move_assign (this other : InodeRef) : M (Fs T) (InodeRef * InodeRef) :=
  _ ← InodeRef_reset this; mret (InodeRef_move other).

(** ** Blocks of a file *)

(** [LogicalBlockIndex::containing] *)
Definition containing (byte_offset : Z) : Z := byte_offset / FSBLOCK_SIZE.

(** [table[k]] of a block of block numbers. *)
Definition table_entry (k : Z) (d : list Z) : Z := le_value (slice (4 * Z.to_nat k) 4 d).

Definition find_block (di : DiskInode) (logical : Z) : M (Fs T) (option Z) :=
  if logical <? NDIRECT then
    a ← defined (addrs di !! Z.to_nat logical);
    if a =? 0 then mret None else mret (Some a)
  else
    let indirect_index := u32 (logical - NDIRECT) in
    if indirect_index >=? NINDIRECT then mret None
    else
      a ← defined (addrs di !! INDIRECT_INDEX);
      if a =? 0 then mret None
      else
        with_block a None (λ block,
          d ← ref_load block;
          mret ((if table_entry indirect_index d =? 0 then None
                 else Some (table_entry indirect_index d)), block)).

(** [addrs[k] = v] in the inode of slot [i]. *)
Definition set_addr (i : nat) (k : nat) (v : Z) : M (Fs T) () :=
  modify_slot i (λ x, set_disk (set_addrs (<[k := v]> (addrs (disk x))) (disk x)) x).

Definition allocate_or_find_block (i : nat) (logical : Z) : M (Fs T) (option Z) :=
  inode ← slot i;
  if logical <? NDIRECT then
    a ← defined (addrs (disk inode) !! Z.to_nat logical);
    if a =? 0 then
      b ← allocate_block;
      match b with
      | None => mret None
      | Some b => _ ← set_addr i (Z.to_nat logical) b; mret (Some b)
      end
    else mret (Some a)
  else
    let indirect_index := u32 (logical - NDIRECT) in
    if indirect_index >=? NINDIRECT then mret None
    else
      a ← defined (addrs (disk inode) !! INDIRECT_INDEX);
      indirect ← (if a =? 0 then
                    b ← allocate_block;
                    match b with
                    | None => mret None
                    | Some b => _ ← set_addr i INDIRECT_INDEX b; mret (Some b)
                    end
                  else mret (Some a));
      match indirect with
      | None => mret None
      | Some a =>
          with_block a None (λ block,
            d ← ref_load block;
            if table_entry indirect_index d =? 0 then
              b ← allocate_block;
              match b with
              | None => mret (None, block)
              | Some b =>
                  _ ← ref_store block (splice (4 * Z.to_nat indirect_index) (le_bytes 4 b) d);
                  ok ← ref_write_back block;
                  if negb ok then mret (None, block) else mret (Some b, block)
              end
            else mret (Some (table_entry indirect_index d), block))
      end.

(** ** Bytes of a file *)

(** The loop of [read_data]: the bytes copied to [dest] so far are [acc]. *)
Fixpoint read_loop (fuel : nat) (di : DiskInode) (offset count done : Z) (acc : list Z)
    : M (Fs T) (option Z * list Z) :=
  match fuel with
  | O => stuck
  | S fuel =>
      if done <? count then
        let pos := u32 (offset + done) in
        block_number ← find_block di (containing pos);
        match block_number with
        | None => mret (None, acc)
        | Some b =>
            let in_block := pos `mod` FSBLOCK_SIZE in
            let left := u32 (count - done) in
            let chunk := Z.min left (u32 (FSBLOCK_SIZE - in_block)) in
            copied ← with_block b None (λ block,
              d ← ref_load block;
              mret (Some (slice (Z.to_nat in_block) (Z.to_nat chunk) d), block));
            match copied with
            | None => mret (None, acc)
            | Some l => read_loop fuel di offset count (u32 (done + chunk)) (acc ++ l)
            end
        end
      else mret (Some done, acc)
  end.

(** [read_data]: the value returned, and the bytes written to [dest]. *)
Definition read_data (i : nat) (offset count : Z) : M (Fs T) (option Z * list Z) :=
  inode ← slot i;
  let di := disk inode in
  if offset >? size di then mret (None, [])
  else
    let count := if count >? u32 (size di - offset) then u32 (size di - offset) else count in
    read_loop (S (Z.to_nat count)) di offset count 0 [].

Definition update_inode (i : nat) : M (Fs T) bool :=
  inode ← slot i; write_disk_inode (inode_number inode) (disk inode).

(** The loop of [write_data]: the number of bytes written. Reading past the
    [count] bytes of [source] is stuck. *)
Fixpoint write_loop (fuel : nat) (i : nat) (source : list Z) (offset count done : Z)
    : M (Fs T) Z :=
  match fuel with
  | O => stuck
  | S fuel =>
      if done <? count then
        let pos := u32 (offset + done) in
        block_number ← allocate_or_find_block i (containing pos);
        match block_number with
        | None => mret done
        | Some b =>
            let in_block := pos `mod` FSBLOCK_SIZE in
            let left := u32 (count - done) in
            let chunk := Z.min left (u32 (FSBLOCK_SIZE - in_block)) in
            if (Z.of_nat (length source) <? done + chunk) then stuck
            else
              written ← with_block b false (λ block,
                d ← ref_load block;
                _ ← ref_store block
                  (splice (Z.to_nat in_block) (slice (Z.to_nat done) (Z.to_nat chunk) source) d);
                ok ← ref_write_back block;
                mret (ok, block));
              if negb written then mret done
              else write_loop fuel i source offset count (u32 (done + chunk))
        end
      else mret done
  end.

Definition max_bytes : Z := MAXFILE * FSBLOCK_SIZE.

Definition write_data (i : nat) (source : list Z) (offset count : Z) : M (Fs T) (option Z) :=
  inode ← slot i;
  if offset >? size (disk inode) then mret None
  else if (offset >? max_bytes) || (count >? u32 (max_bytes - offset)) then mret None
  else
    done ← write_loop (S (Z.to_nat count)) i source offset count 0;
    inode ← slot i;
    _ ← (if u32 (offset + done) >? size (disk inode) then
           modify_slot i (λ x, set_disk (set_size (u32 (offset + done)) (disk x)) x)
         else mret ());
    ok ← update_inode i;
    if negb ok then mret None else mret (Some done).
End Inode.
