(* ===== verification/InodeMap.v ===== *)
(** * The blocks of a file

    Which block holds which part of a file ([block_of]), when an inode is
    consistent with the disk ([inode_inv]), and how allocating a block for it
    changes both ([grows]). All of it is about disk contents
    [f : Z → list Z] and inodes as plain values. *)
From S2P Require Import Prelude BlockStore StoreRefinement FsLayout FileSystem FileSystemSpec Inode.

(** [addrs[k]], and the block number at index [k] of the file; 0 means
    unallocated. *)
Definition addr (di : DiskInode) (k : Z) : Z := nth (Z.to_nat k) (addrs di) 0.
Definition indirect (di : DiskInode) : Z := addr di 12.
Definition block_of (f : Z → list Z) (di : DiskInode) (k : Z) : Z :=
  if k <? 12 then addr di k
  else if indirect di =? 0 then 0 else table_entry (k - 12) (f (indirect di)).

Definition set_addr_of (di : DiskInode) (k b : Z) : DiskInode :=
  set_addrs (<[Z.to_nat k := b]> (addrs di)) di.

Lemma addr_set di k b j :
  inode_wf di → 0 <= k < 13 → 0 <= j →
  addr (set_addr_of di k b) j = if decide (j = k) then b else addr di j.
Proof.
  intros (_ & _ & _ & _ & _ & Hlen & _) Hk Hj. unfold addr, set_addr_of. cbn [addrs set_addrs].
  rewrite !nth_lookup. case_decide as E.
  - subst. by rewrite list_lookup_insert_eq by lia.
  - by rewrite list_lookup_insert_ne by lia.
Qed.

Lemma set_addr_of_wf di k b : inode_wf di → is_u32 b → inode_wf (set_addr_of di k b).
Proof.
  intros (H1 & H2 & H3 & H4 & H5 & Hlen & Ha) Hb.
  do 5 (split; [done|]). cbn [addrs set_addr_of set_addrs]. split; [by rewrite length_insert|].
  by apply Forall_insert.
Qed.

Lemma table_entry_splice d i j b :
  block_ok d → 0 <= i < 128 → 0 <= j < 128 → is_u32 b →
  table_entry j (splice (4 * Z.to_nat i) (le_bytes 4 b) d) = if decide (j = i) then b else table_entry j d.
Proof.
  intros [Hlen Hby] Hi Hj Hb. unfold table_entry. pose proof (length_le_bytes 4 b) as Hl.
  case_decide as E.
  - subst j. pose proof (slice_splice_same (4 * Z.to_nat i) (le_bytes 4 b) d) as Hs.
    rewrite Hl in Hs. rewrite Hs by lia. by apply le_value_u32.
  - rewrite slice_splice_disjoint; [done|rewrite Hl; lia|lia|rewrite Hl; lia].
Qed.

Lemma table_entry_zero j : 0 <= j < 128 → table_entry j (replicate BSIZE 0) = 0.
Proof.
  intros Hj. unfold table_entry, slice. rewrite drop_replicate, take_replicate.
  replace (min 4 (BSIZE - 4 * Z.to_nat j)) with 4%nat by lia. done.
Qed.

Lemma table_entry_u32 j d : bytes d → is_u32 (table_entry j d).
Proof.
  intros Hd. unfold table_entry, is_u32.
  pose proof (le_value_range _ (bytes_slice (4 * Z.to_nat j) 4 d Hd)) as Hr.
  split; [lia|]. eapply Z.lt_le_trans; [apply Hr|]. change 4294967296 with (256 ^ 4).
  apply Z.pow_le_mono_r; [lia|]. unfold slice. rewrite length_take. lia.
Qed.

Section map.
Context (sb : SuperBlock) (Hg : geometry sb).
Implicit Types (f : Z → list Z) (di : DiskInode) (k b c : Z).

(** A data block in use. *)
Definition data_block f b : Prop := data_start sb <= b < sb_size sb ∧ used sb f b = true.

(** The inode's blocks are data blocks in use, all different, and reach its
    size without a hole. *)
Record inode_inv f di : Prop := {
  ii_wf : inode_wf di;
  ii_size : size di <= max_bytes;
  ii_data k : 0 <= k < 140 → block_of f di k ≠ 0 → data_block f (block_of f di k);
  ii_indirect : indirect di ≠ 0 → data_block f (indirect di);
  ii_full k : 0 <= k → k * 512 < size di → block_of f di k ≠ 0;
  ii_distinct j k : 0 <= j < 140 → 0 <= k < 140 → block_of f di j ≠ 0 →
    block_of f di j = block_of f di k → j = k;
  ii_indirect_distinct k : 0 <= k < 140 → indirect di ≠ 0 → block_of f di k ≠ indirect di;
}.

Definition disk_blocks f : Prop := ∀ b, 0 <= b < sb_size sb → block_ok (f b).
Definition in_bitmap b : Prop := bitmap_start sb <= b < data_start sb.

Lemma data_start_pos : 0 < data_start sb.
Proof.
  destruct Hg. unfold data_start, bitmap_blocks in *. lia.
Qed.

(** The effect of allocating block [b]. *)
Record alloc_effect f b f' : Prop := {
  ae_range : data_start sb <= b < sb_size sb;
  ae_free : used sb f b = false;
  ae_zero : f' b = replicate BSIZE 0;
  ae_other c : 0 <= c < sb_size sb → c ≠ b → ¬ in_bitmap c → f' c = f c;
  ae_used c : 0 <= c < sb_size sb → used sb f' c = if decide (c = b) then true else used sb f c;
  ae_blocks : disk_blocks f → disk_blocks f';
}.

(** The inode [di] on the disk [f] has grown to [di'] on [f']. *)
Record grows f di f' di' : Prop := {
  gr_fields : di' = set_addrs (addrs di') di;
  gr_inv : inode_inv f' di';
  gr_blocks : disk_blocks f';
  gr_map k : 0 <= k < 140 → block_of f di k ≠ 0 → block_of f' di' k = block_of f di k;
  gr_new k : 0 <= k < 140 → block_of f di k = 0 → block_of f' di' k ≠ 0 → used sb f (block_of f' di' k) = false;
  gr_indirect : indirect di' = indirect di ∨ (indirect di = 0 ∧ used sb f (indirect di') = false);
  gr_frame c : 0 <= c < sb_size sb → used sb f c = true → ¬ in_bitmap c → c ≠ indirect di → f' c = f c;
  gr_used c : 0 <= c < sb_size sb → used sb f c = true → used sb f' c = true;
}.

Lemma grows_refl f di : inode_inv f di → disk_blocks f → grows f di f di.
Proof. intros Hi Hb. split; auto; [by destruct di|done]. Qed.

Lemma indirect_range f di : inode_inv f di → indirect di ≠ 0 → data_start sb <= indirect di < sb_size sb.
Proof. intros Hi Hn. by destruct (ii_indirect _ _ Hi Hn). Qed.

Lemma grows_trans f1 d1 f2 d2 f3 d3 :
  inode_inv f1 d1 → grows f1 d1 f2 d2 → grows f2 d2 f3 d3 → grows f1 d1 f3 d3.
Proof.
  intros Hi1 G12 G23. pose proof (gr_inv _ _ _ _ G12) as Hi2. pose proof (gr_inv _ _ _ _ G23) as Hi3.
  pose proof data_start_pos. split.
  - rewrite (gr_fields _ _ _ _ G23), (gr_fields _ _ _ _ G12). done.
  - done.
  - apply G23.
  - intros k Hk Hn. rewrite (gr_map _ _ _ _ G23 k Hk) by (rewrite (gr_map _ _ _ _ G12 k Hk Hn); done).
    by apply (gr_map _ _ _ _ G12).
  - intros k Hk Hz Hn. destruct (decide (block_of f2 d2 k = 0)) as [Hz2|Hn2].
    + pose proof (gr_new _ _ _ _ G23 k Hk Hz2 Hn) as Hu.
      destruct (used sb f1 (block_of f3 d3 k)) eqn:E; [|done].
      destruct (ii_data _ _ Hi3 k Hk Hn) as [Hr _].
      rewrite (gr_used _ _ _ _ G12) in Hu; [done|lia|done].
    + rewrite (gr_map _ _ _ _ G23 k Hk Hn2). by apply (gr_new _ _ _ _ G12).
  - destruct (gr_indirect _ _ _ _ G12) as [E12|[E12 U12]], (gr_indirect _ _ _ _ G23) as [E23|[E23 U23]].
    + left. congruence.
    + right. split; [congruence|]. destruct (decide (indirect d3 = 0)) as [Hz|Hn].
      { destruct (used sb f1 (indirect d3)) eqn:E; [|done].
        rewrite (gr_used _ _ _ _ G12) in U23; [done| |done]. destruct Hg. unfold data_start, bitmap_blocks in *. lia. }
      pose proof (indirect_range _ _ Hi3 Hn). destruct (used sb f1 (indirect d3)) eqn:E; [|done].
      rewrite (gr_used _ _ _ _ G12) in U23; [done|lia|done].
    + right. split; [done|congruence].
    + right. split; [done|]. destruct (used sb f1 (indirect d3)) eqn:E; [|done].
      rewrite (gr_used _ _ _ _ G12) in U23; [done| |done].
      destruct (decide (indirect d3 = 0)) as [Hz|Hn].
      { destruct Hg. unfold data_start, bitmap_blocks in *. lia. }
      pose proof (indirect_range _ _ Hi3 Hn). lia.
  - intros c Hc Hu Hnb Hne. rewrite (gr_frame _ _ _ _ G23 c Hc).
    + by apply (gr_frame _ _ _ _ G12).
    + by apply (gr_used _ _ _ _ G12).
    + done.
    + destruct (gr_indirect _ _ _ _ G12) as [->|[_ U12]]; [done|]. intros ->. congruence.
  - intros c Hc Hu. apply (gr_used _ _ _ _ G23); [done|]. by apply (gr_used _ _ _ _ G12).
Qed.

(** ** One more block *)
Lemma data_block_other f b c : data_block f c → used sb f b = false → c ≠ b.
Proof. intros [_ Hu] Hf ->. congruence. Qed.

Lemma inv_file_size f di k : inode_inv f di → 0 <= k → k * 512 < size di → k < 140.
Proof. intros Hi Hk Hs. pose proof (ii_size _ _ Hi). unfold max_bytes, MAXFILE, FSBLOCK_SIZE in *. lia. Qed.

(** The file gets block [b] at index [k]. *)
Lemma grows_at f di b f' di' k :
  inode_inv f di → data_start sb <= b < sb_size sb → used sb f b = false →
  0 <= k < 140 → block_of f di k = 0 → inode_wf di' → di' = set_addrs (addrs di') di →
  indirect di' = indirect di →
  (∀ j, 0 <= j < 140 → block_of f' di' j = if decide (j = k) then b else block_of f di j) →
  (∀ c, 0 <= c < sb_size sb → used sb f' c = if decide (c = b) then true else used sb f c) →
  (∀ c, 0 <= c < sb_size sb → c ≠ b → ¬ in_bitmap c → c ≠ indirect di → f' c = f c) →
  disk_blocks f' →
  grows f di f' di'.
Proof.
  intros Hi Hb Hfree Hk Hz Hwf Hfields Hind Hmap Hu Hframe Hblocks. pose proof data_start_pos.
  assert (∀ c, data_block f c → data_block f' c) as Hdb.
  { intros c [Hc Huc]. split; [done|]. rewrite Hu by lia. by case_decide. }
  assert (∀ j, 0 <= j < 140 → block_of f di j ≠ 0 → block_of f di j ≠ b) as Hnb.
  { intros j Hj Hn. exact (data_block_other _ _ _ (ii_data _ _ Hi j Hj Hn) Hfree). }
  assert (inode_inv f' di') as Hi'.
  { split; [done| | | | | |].
    - rewrite Hfields. apply Hi.
    - intros j Hj. rewrite Hmap by done. case_decide; [|intros Hn; by apply Hdb, Hi].
      intros _. split; [done|]. rewrite Hu by lia. by rewrite decide_True.
    - rewrite Hind. intros Hn. by apply Hdb, Hi.
    - intros j Hj Hs. assert (size di' = size di) as Es by (by rewrite Hfields).
      rewrite Es in Hs. pose proof (inv_file_size _ _ _ Hi Hj Hs). rewrite Hmap by lia.
      case_decide; [lia|]. by apply (ii_full _ _ Hi).
    - intros j j' Hj Hj'. rewrite !Hmap by done.
      destruct (decide (j = k)) as [->|Hjk], (decide (j' = k)) as [->|Hjk']; intros Hn E; [done| | |].
      + exfalso. apply (Hnb j' Hj'); congruence.
      + exfalso. by apply (Hnb j Hj).
      + by apply (ii_distinct _ _ Hi).
    - intros j Hj. rewrite Hind, Hmap by done. intros Hn. case_decide.
      + intros E. by apply (data_block_other f b (indirect di) (ii_indirect _ _ Hi Hn) Hfree).
      + by apply Hi. }
  split; [done|done|done| | | | |].
  - intros j Hj Hn. rewrite Hmap by done. case_decide; [congruence|done].
  - intros j Hj Hzj. rewrite Hmap by done. case_decide; [done|congruence].
  - by left.
  - intros c Hc Huc Hnb' Hne. apply Hframe; try done. intros ->. congruence.
  - intros c Hc Huc. rewrite Hu by done. by case_decide.
Qed.

(** The blocks of the file after an allocation, before they are extended. *)
Lemma block_of_alloc f di b f' k :
  inode_inv f di → alloc_effect f b f' → 0 <= k < 140 → block_of f' di k = block_of f di k.
Proof.
  intros Hi Ha Hk. unfold block_of. destruct (k <? 12); [done|].
  destruct (indirect di =? 0) eqn:E; [done|].
  assert (indirect di ≠ 0) as Hn by lia. pose proof (ii_indirect _ _ Hi Hn) as Hd.
  pose proof (data_block_other _ _ _ Hd (ae_free _ _ _ Ha)). destruct Hd as [Hr _].
  pose proof data_start_pos. rewrite (ae_other _ _ _ Ha); [done|lia|done|]. unfold in_bitmap. lia.
Qed.

Lemma alloc_u32 f b f' : alloc_effect f b f' → is_u32 b.
Proof.
  intros Ha. pose proof (ae_range _ _ _ Ha). pose proof (geo_size _ Hg). pose proof data_start_pos.
  unfold is_u32. lia.
Qed.

Lemma grow_direct f di b f' k :
  inode_inv f di → disk_blocks f → alloc_effect f b f' → 0 <= k < 12 → addr di k = 0 →
  grows f di f' (set_addr_of di k b) ∧ block_of f' (set_addr_of di k b) k = b.
Proof.
  intros Hi Hd Ha Hk Hz. pose proof (ii_wf _ _ Hi) as Hwf.
  assert (∀ j, 0 <= j < 140 → block_of f' (set_addr_of di k b) j = if decide (j = k) then b else block_of f di j) as Hmap.
  { intros j Hj. rewrite <- (block_of_alloc f di b f' j Hi Ha Hj). unfold block_of, indirect.
    rewrite !addr_set by (done || lia). rewrite (decide_False (P := 12 = k)) by lia.
    destruct (j <? 12) eqn:E; [done|]. by rewrite decide_False by lia. }
  split; [|rewrite Hmap by lia; by rewrite decide_True].
  apply (grows_at f di b f' _ k); [done|apply Ha|apply Ha|lia| | | | |done|apply Ha| |].
  - unfold block_of. by replace (k <? 12) with true by lia.
  - apply set_addr_of_wf; [done|by eapply alloc_u32].
  - done.
  - unfold indirect. rewrite addr_set by (done || lia). by rewrite decide_False by lia.
  - intros c Hc Hcb Hnb _. by apply (ae_other _ _ _ Ha).
  - by apply (ae_blocks _ _ _ Ha).
Qed.

Lemma grow_indirect f di b f' :
  inode_inv f di → disk_blocks f → alloc_effect f b f' → indirect di = 0 →
  grows f di f' (set_addr_of di 12 b) ∧ indirect (set_addr_of di 12 b) = b.
Proof.
  intros Hi Hd Ha Hz. pose proof (ii_wf _ _ Hi) as Hwf. pose proof data_start_pos.
  pose proof (ae_range _ _ _ Ha) as Hb.
  assert (indirect (set_addr_of di 12 b) = b) as Hind.
  { unfold indirect. rewrite addr_set by (done || lia). by rewrite decide_True. }
  assert (∀ j, 0 <= j < 140 → block_of f' (set_addr_of di 12 b) j = block_of f di j) as Hmap.
  { intros j Hj. unfold block_of. rewrite Hind, Hz, Z.eqb_refl. replace (b =? 0) with false by lia.
    rewrite addr_set by (done || lia). destruct (j <? 12) eqn:E; [by rewrite decide_False by lia|].
    rewrite (ae_zero _ _ _ Ha). apply table_entry_zero. lia. }
  assert (∀ c, data_block f c → data_block f' c) as Hdb.
  { intros c [Hc Huc]. split; [done|]. rewrite (ae_used _ _ _ Ha) by lia. by case_decide. }
  split; [|done]. split; [done| | | | | | |].
  - split; [apply set_addr_of_wf; [done|by eapply alloc_u32]|apply Hi| | | | |].
    + intros j Hj. rewrite Hmap by done. intros Hn. by apply Hdb, Hi.
    + rewrite Hind. intros _. split; [done|]. rewrite (ae_used _ _ _ Ha) by lia. by rewrite decide_True.
    + intros j Hj Hs. pose proof (inv_file_size _ _ _ Hi Hj Hs). rewrite Hmap by lia. by apply (ii_full _ _ Hi).
    + intros j j' Hj Hj'. rewrite !Hmap by done. by apply Hi.
    + intros j Hj _. rewrite Hind, Hmap by done. destruct (decide (block_of f di j = 0)); [lia|].
      exact (data_block_other _ _ _ (ii_data _ _ Hi j Hj n) (ae_free _ _ _ Ha)).
  - by apply (ae_blocks _ _ _ Ha).
  - intros j Hj _. by apply Hmap.
  - intros j Hj Hzj. by rewrite Hmap.
  - right. rewrite Hind. split; [done|apply Ha].
  - intros c Hc Huc Hnb _. apply (ae_other _ _ _ Ha); [done| |done]. intros ->.
    rewrite (ae_free _ _ _ Ha) in Huc. done.
  - intros c Hc Huc. rewrite (ae_used _ _ _ Ha) by done. by case_decide.
Qed.

(** The indirect block with entry [k] set. *)
Definition set_entry f di k b : Z → list Z :=
  upd f (indirect di) (splice (4 * Z.to_nat (k - 12)) (le_bytes 4 b) (f (indirect di))).

Lemma grow_entry f di b f1 f2 k :
  inode_inv f di → disk_blocks f → alloc_effect f b f1 → 12 <= k < 140 → indirect di ≠ 0 →
  block_of f di k = 0 →
  (∀ c, 0 <= c < sb_size sb → f2 c = set_entry f1 di k b c) →
  grows f di f2 di ∧ block_of f2 di k = b.
Proof.
  intros Hi Hd Ha Hk Hn Hz Hf2. pose proof data_start_pos.
  pose proof (ii_indirect _ _ Hi Hn) as Hdi. pose proof Hdi as [Hr _].
  pose proof (data_block_other _ _ _ Hdi (ae_free _ _ _ Ha)) as Hib.
  assert (f1 (indirect di) = f (indirect di)) as Ef1.
  { apply (ae_other _ _ _ Ha); [lia|done|unfold in_bitmap; lia]. }
  assert (f2 (indirect di) = splice (4 * Z.to_nat (k - 12)) (le_bytes 4 b) (f (indirect di))) as Ef2.
  { rewrite Hf2 by lia. unfold set_entry. by rewrite upd_eq, Ef1. }
  assert (∀ c, 0 <= c < sb_size sb → c ≠ indirect di → f2 c = f1 c) as Hother.
  { intros c Hc Hne. rewrite Hf2 by done. unfold set_entry. by rewrite upd_ne. }
  assert (∀ j, 0 <= j < 140 → block_of f2 di j = if decide (j = k) then b else block_of f di j) as Hmap.
  { intros j Hj. unfold block_of. replace (indirect di =? 0) with false by lia.
    destruct (j <? 12) eqn:E; [by rewrite decide_False by lia|]. rewrite Ef2.
    rewrite table_entry_splice; [|apply Hd; lia|lia|lia|by eapply alloc_u32].
    destruct (decide (j = k)) as [->|]; [by rewrite decide_True|]. by rewrite decide_False by lia. }
  split; [|rewrite Hmap by lia; by rewrite decide_True].
  apply (grows_at f di b f2 di k); [done|apply Ha|apply Ha|lia|done|apply Hi|by destruct di|done|done| | |].
  - intros c Hc. rewrite <- (ae_used _ _ _ Ha c Hc). unfold used.
    pose proof (bitmap_block_range _ _ Hg Hc). rewrite Hother; [done| |lia].
    pose proof (geo_data _ Hg). destruct Hg. lia.
  - intros c Hc Hcb Hnb Hne. rewrite Hother by done. by apply (ae_other _ _ _ Ha).
  - intros c Hc. destruct (decide (c = indirect di)) as [->|Hne].
    + rewrite Ef2. apply splice_block_ok; [apply Hd; lia|apply bytes_le_bytes|].
      rewrite length_le_bytes. lia.
    + rewrite Hother by done. by apply (ae_blocks _ _ _ Ha).
Qed.
End map.
