(* ===== verification/InodeSpec.v ===== *)
(** * Finding and allocating the blocks of a file

    [find_block] and [allocate_or_find_block] of include/inode.cpp implement
    [block_of]. *)
From S2P Require Import Prelude BlockStore StoreRefinement FsLayout FileSystem FileSystemSpec Inode InodeMap.

Section spec.
Context {T : Type} `{HT : IBlockStore T} (ST : BlockStoreSpec T).
Context (con : Console) (sb : SuperBlock).
Context (Hg : geometry sb) (Hsize : sb_size sb <= bs_blocks).
Implicit Types (hs : list Z) (s : Fs T) (f : Z → list Z) (tbl : list Inode) (k b : Z) (i : nat).

(** The state [s] shows the disk [f] and the inode table [tbl], with the
    blocks [hs] borrowed. *)
Record at_disk tbl hs s f : Prop := {
  ad_ok : bs_ok hs (block_store s);
  ad_framed : framed con sb tbl s;
  ad_view c : 0 <= c < sb_size sb → bs_view (block_store s) c = f c;
}.

(** A later state [s'] with the same borrowed blocks. *)
Definition step tbl hs s s' f : Prop :=
  at_disk tbl hs s' f ∧ kept hs (block_store s) (block_store s').

Lemma step_refl tbl hs s f : at_disk tbl hs s f → step tbl hs s s f.
Proof. intros H. split; [done|]. by intros c q. Qed.

Lemma step_trans tbl tbl' hs s1 s2 s3 f f' :
  step tbl hs s1 s2 f → step tbl' hs s2 s3 f' → step tbl' hs s1 s3 f'.
Proof. intros [_ H1] [H2 H3]. split; [done|]. by eapply kept_trans. Qed.

(** The state as a store whose other fields are known. *)
Abbreviation FS tbl := (fs_store ST con sb tbl).

Lemma at_disk_ok tbl hs s f : at_disk tbl hs s f → @bs_ok _ _ (FS tbl) hs s.
Proof. intros H. split; apply H. Qed.

Lemma at_disk_blocks tbl hs s f : at_disk tbl hs s f → disk_blocks sb f.
Proof. intros [Hok _ Hv] c Hc. rewrite <- Hv by done. apply (bs_view_ok hs); [done|lia]. Qed.

(** A step of the store, in these terms. *)
Lemma becomes_step tbl hs s s' f g :
  at_disk tbl hs s f → @becomes _ _ (FS tbl) hs s s' g →
  (∀ c, 0 <= c < sb_size sb → g c = f c) → step tbl hs s s' f.
Proof.
  intros _ ([Hok Hf] & Hv & Hk) Hgf. split; [|exact Hk]. split; [done|done|].
  intros c Hc. rewrite <- Hgf by done. apply Hv. cbn. lia.
Qed.

Lemma becomes_same_step tbl hs s s' f :
  at_disk tbl hs s f → @becomes _ _ (FS tbl) hs s s' (bs_view (block_store s)) → step tbl hs s s' f.
Proof. intros Ha Hb. eapply becomes_step; [done|exact Hb|apply Ha]. Qed.

(** A step that writes block [b]. *)
Lemma becomes_upd_step tbl hs s s' f b d :
  at_disk tbl hs s f → @becomes _ _ (FS tbl) hs s s' (upd (bs_view (block_store s)) b d) →
  step tbl hs s s' (upd f b d).
Proof.
  intros Ha ([Hok Hf] & Hv & Hk). split; [|exact Hk]. split; [done|done|].
  intros c Hc. transitivity (upd (bs_view (block_store s)) b d c); [apply Hv; cbn; lia|].
  unfold upd. case_decide; [done|]. by apply Ha.
Qed.

Lemma used_ext f g c :
  (∀ c, 0 <= c < sb_size sb → f c = g c) → 0 <= c < sb_size sb → used sb f c = used sb g c.
Proof.
  intros Hfg Hc. unfold used. rewrite Hfg; [done|].
  pose proof (bitmap_block_range _ _ Hg Hc). pose proof (geo_data _ Hg). destruct Hg. lia.
Qed.

(** ** The inode table *)
Lemma wp_slot tbl hs s f i x (Q : Inode → Fs T → Prop) :
  at_disk tbl hs s f → tbl !! i = Some x → Q x s → wp (slot i) s Q.
Proof.
  intros Ha Hx HQ. unfold slot. wp_step. wp_step. destruct (ad_framed _ _ _ _ Ha) as (_ & _ & Ht).
  eapply wp_defined; [by rewrite Ht|done].
Qed.

Lemma wp_modify_slot tbl hs s f i x g (Q : () → Fs T → Prop) :
  at_disk tbl hs s f → tbl !! i = Some x →
  (∀ s', step (<[i := g x]> tbl) hs s s' f → Q () s') →
  wp (modify_slot i g) s Q.
Proof.
  intros Ha Hx HQ. unfold modify_slot. wp_step. eapply wp_slot; [exact Ha|exact Hx|]. wp_step.
  apply HQ. destruct Ha as [Hok (Hc & Hs & Ht) Hv]. split; [|by intros c q].
  split; [done| |done]. unfold framed. cbn. by rewrite Ht.
Qed.

(** ** Allocation *)
Lemma allocated_effect tbl hs s f b s' :
  at_disk tbl hs s f → @allocated _ _ ST con sb tbl hs s b s' →
  ∃ f', alloc_effect sb f b f' ∧ step tbl hs s s' f'.
Proof.
  intros Ha (Hb & Hfree & Hbelow & (d & Hd & Hs') & Hu). pose proof Hs' as ([Hok' Hf'] & Hv' & Hk').
  pose proof (geo_data _ Hg). pose proof (data_start_pos sb Hg).
  pose proof (bitmap_block_range sb b Hg ltac:(lia)) as Hbb.
  exists (bs_view (block_store s')). split; [|by split].
  assert (∀ c, 0 <= c < sb_size sb → bs_view (block_store s') c =
    upd (upd (bs_view (block_store s)) (bitmap_start sb + b / 4096) d) b (replicate BSIZE 0) c) as Hv.
  { intros c Hc. apply Hv'. cbn. lia. }
  split.
  - done.
  - rewrite <- Hfree. apply used_ext; [|lia]. intros c Hc. symmetry. by apply Ha.
  - rewrite Hv by lia. by rewrite upd_eq.
  - intros c Hc Hcb Hnb. unfold in_bitmap in Hnb. rewrite Hv by done. rewrite !upd_ne by lia. by apply Ha.
  - intros c Hc. rewrite <- (used_ext (bs_view (block_store s)) f c) by (done || apply Ha). by apply Hu.
  - intros _ c Hc. apply (bs_view_ok hs); [done|lia].
Qed.

Lemma wp_alloc tbl hs s f (Q : option Z → Fs T → Prop) :
  at_disk tbl hs s f → (length hs < bs_limit)%nat → metadata_used sb f →
  ((∀ c, 0 <= c < sb_size sb → used sb f c = true) → ∀ s', step tbl hs s s' f → Q None s') →
  (∀ b f' s', alloc_effect sb f b f' → step tbl hs s s' f' → Q (Some b) s') →
  wp allocate_block s Q.
Proof.
  intros Ha Hlt Hmeta HNone HSome. pose proof (geo_data _ Hg).
  assert (∀ c, 0 <= c < sb_size sb → used sb (bs_view (block_store s)) c = used sb f c) as Hu.
  { intros c Hc. apply used_ext; [apply Ha|done]. }
  apply (wp_allocate_block ST con sb tbl Hg Hsize hs).
  - by eapply at_disk_ok.
  - done.
  - intros b Hb. cbn. rewrite Hu by lia. by apply Hmeta.
  - intros Hall s' Hs'. apply HNone; [|by eapply becomes_same_step]. intros c Hc. rewrite <- Hu by done.
    by apply Hall.
  - intros b s' Hs'. destruct (allocated_effect _ _ _ _ _ _ Ha Hs') as (f' & He & Hst). by eapply HSome.
Qed.

(** ** find_block *)
Lemma lookup_addr di k : inode_wf di → 0 <= k < 13 → addrs di !! Z.to_nat k = Some (addr di k).
Proof.
  intros (_ & _ & _ & _ & _ & Hlen & _) Hk. unfold addr. rewrite nth_lookup.
  destruct (lookup_lt_is_Some_2 (addrs di) (Z.to_nat k)) as [a ->]; [lia|done].
Qed.

Lemma wp_read_block {A} tbl hs s f b (e : A) (g : list Z → A) (Q : A → Fs T → Prop) :
  at_disk tbl hs s f → 0 <= b < sb_size sb → (length hs < bs_limit)%nat →
  (∀ s', step tbl hs s s' f → Q (g (f b)) s') →
  wp (with_block b e (λ r, d ← ref_load r; mret (g d, r))) s Q.
Proof.
  intros Ha Hb Hlt HQ. rewrite <- (ad_view _ _ _ _ Ha b Hb) in HQ.
  apply (@wp_read_scope _ _ (FS tbl) A hs s b e g); [by eapply at_disk_ok|cbn; lia|done|].
  intros s' Hs'. apply HQ. by eapply becomes_same_step.
Qed.

Lemma wp_find_block tbl hs s f di k (Q : option Z → Fs T → Prop) :
  at_disk tbl hs s f → inode_inv sb f di → 0 <= k < 4294967296 → (length hs < bs_limit)%nat →
  (∀ s', step tbl hs s s' f →
    Q (if (k <? 140) && negb (block_of f di k =? 0) then Some (block_of f di k) else None) s') →
  wp (find_block di k) s Q.
Proof.
  intros Ha Hi Hk Hlt HQ. pose proof (ii_wf _ _ _ Hi) as Hwf. pose proof (data_start_pos sb Hg).
  unfold find_block, NDIRECT, NINDIRECT. unfold block_of in HQ. destruct (k <? 12) eqn:E.
  - wp_step. eapply wp_defined; [apply (lookup_addr di k Hwf); lia|].
    replace (k <? 140) with true in HQ by lia.
    destruct (addr di k =? 0); wp_step; apply HQ; by apply step_refl.
  - rewrite u32_small by lia. destruct (k - 12 >=? 128) eqn:E2.
    + replace (k <? 140) with false in HQ by lia. wp_step. apply HQ. by apply step_refl.
    + replace (k <? 140) with true in HQ by lia.
      wp_step. eapply wp_defined; [apply (lookup_addr di 12 Hwf); lia|]. fold (indirect di).
      destruct (indirect di =? 0) eqn:E3; [wp_step; apply HQ; by apply step_refl|].
      assert (indirect di ≠ 0) as Hn by lia. pose proof (indirect_range _ _ _ Hi Hn).
      apply (wp_read_block tbl hs s f (indirect di) None
        (λ d, if table_entry (k - 12) d =? 0 then None else Some (table_entry (k - 12) d))); [done|lia|done|].
      intros s' Hs'. specialize (HQ s' Hs'). cbn [andb] in HQ. by destruct (table_entry _ _ =? 0).
Qed.

(** ** allocate_or_find_block *)

(** The result of [allocate_or_find_block] for the inode [x] of slot [i]. *)
Definition grown_to tbl hs s f i x (s' : Fs T) f' di' : Prop :=
  grows sb f (disk x) f' di' ∧ step (<[i := set_disk di' x]> tbl) hs s s' f'.

Definition found_block tbl hs s f i x k (r : option Z) (s' : Fs T) : Prop :=
  ∃ f' di', grown_to tbl hs s f i x s' f' di' ∧
    match r with
    | Some b => k < 140 ∧ b ≠ 0 ∧ block_of f' di' k = b
    | None => 140 <= k ∨ ∀ c, 0 <= c < sb_size sb → used sb f' c = true
    end.

Lemma grown_refl tbl hs s f i x s' :
  tbl !! i = Some x → inode_inv sb f (disk x) → at_disk tbl hs s f → step tbl hs s s' f →
  grown_to tbl hs s f i x s' f (disk x).
Proof.
  intros Hx Hi Ha Hs. split; [apply grows_refl; [done|by eapply at_disk_blocks]|].
  replace (set_disk (disk x) x) with x by by destruct x. by rewrite list_insert_id.
Qed.

Lemma grows_metadata f di f' di' : grows sb f di f' di' → metadata_used sb f → metadata_used sb f'.
Proof. intros G Hm b Hb. pose proof (geo_data _ Hg). apply (gr_used _ _ _ _ _ G); [lia|by apply Hm]. Qed.

(** Entering a scope, and leaving it. *)
Lemma at_disk_enter tbl hs b s s1 f :
  at_disk tbl hs s f → @bs_ok _ _ (FS tbl) (b :: hs) s1 →
  @same_view _ _ (FS tbl) s1 (bs_view (block_store s)) → at_disk tbl (b :: hs) s1 f.
Proof.
  intros Ha [Hok Hf] Hv. split; [done|done|]. intros c Hc. rewrite <- (ad_view _ _ _ _ Ha c Hc).
  apply Hv. cbn. lia.
Qed.

Lemma step_leave tbl tbl' hs b s s3 s4 f :
  at_disk tbl (b :: hs) s3 f → kept hs (block_store s) (block_store s3) →
  @becomes _ _ (FS tbl') hs s3 s4 (bs_view (block_store s3)) → step tbl' hs s s4 f.
Proof.
  intros Ha Hk ([Hok Hf] & Hv & Hk'). split; [|by eapply kept_trans]. split; [done|done|].
  intros c Hc. rewrite <- (ad_view _ _ _ _ Ha c Hc). apply Hv. cbn. lia.
Qed.

(** The indirect block is there, or is allocated. *)
Lemma wp_indirect tbl hs s f i x (Q : option Z → Fs T → Prop) :
  at_disk tbl hs s f → tbl !! i = Some x → inode_inv sb f (disk x) → metadata_used sb f →
  (length hs < bs_limit)%nat →
  (∀ s' f' di', grown_to tbl hs s f i x s' f' di' → indirect di' ≠ 0 → Q (Some (indirect di')) s') →
  ((∀ c, 0 <= c < sb_size sb → used sb f c = true) → ∀ s', step tbl hs s s' f → Q None s') →
  wp (if indirect (disk x) =? 0 then
        b ← allocate_block;
        match b with
        | None => mret None
        | Some b => _ ← set_addr i INDIRECT_INDEX b; mret (Some b)
        end
      else mret (Some (indirect (disk x)))) s Q.
Proof.
  intros Ha Hx Hi Hm Hlt HSome HNone. pose proof (data_start_pos sb Hg).
  destruct (indirect (disk x) =? 0) eqn:E.
  - wp_step. apply (wp_alloc tbl hs s f); [done|done|done| |].
    + intros Hall s' Hs'. wp_step. by apply HNone.
    + intros b f' s' He Hs'. wp_step. destruct (grow_indirect sb Hg f (disk x) b f' Hi) as [G Hind];
        [by eapply at_disk_blocks|done|lia|].
      unfold set_addr. destruct Hs' as [Ha' Hk'].
      eapply (wp_modify_slot tbl hs s' f' i x); [done|done|]. intros s2 Hs2. wp_step.
      rewrite <- Hind at 1. apply (HSome s2 f' (set_addr_of (disk x) 12 b)).
      * split; [exact G|]. eapply step_trans; [by split|exact Hs2].
      * rewrite Hind. pose proof (ae_range _ _ _ _ He). lia.
  - wp_step. apply (HSome s f (disk x)); [|lia]. eapply grown_refl; [done|done|done|by apply step_refl].
Qed.

(** The entry of the indirect block is there, or is allocated. *)
Lemma wp_entry tbl hs s f i x k :
  at_disk tbl hs s f → tbl !! i = Some x → inode_inv sb f (disk x) → metadata_used sb f →
  (S (length hs) < bs_limit)%nat → indirect (disk x) ≠ 0 → 12 <= k < 140 →
  wp (with_block (indirect (disk x)) None (λ block,
        d ← ref_load block;
        if table_entry (k - 12) d =? 0 then
          b ← allocate_block;
          match b with
          | None => mret (None, block)
          | Some b =>
              _ ← ref_store block (splice (4 * Z.to_nat (k - 12)) (le_bytes 4 b) d);
              ok ← ref_write_back block;
              if negb ok then mret (None, block) else mret (Some b, block)
          end
        else mret (Some (table_entry (k - 12) d), block))) s (found_block tbl hs s f i x k).
Proof.
  intros Ha Hx Hi Hm Hlt Hn Hk. pose proof (indirect_range _ _ _ Hi Hn) as Hr. pose proof (data_start_pos sb Hg).
  set (a := indirect (disk x)) in *.
  assert (block_of f (disk x) k = table_entry (k - 12) (f a)) as Hbo.
  { unfold block_of. fold a. replace (k <? 12) with false by lia. by replace (a =? 0) with false by lia. }
  apply (@wp_with_block _ _ (FS tbl) _ hs s); [by eapply at_disk_ok|cbn; lia|cbn; lia|].
  intros p s1 Hok1 Hp Hv1 Hk1. pose proof (at_disk_enter _ _ _ _ _ _ Ha Hok1 Hv1) as Ha1.
  assert (a ∈ a :: hs) as Hin by left. wp_step.
  wp_use (@bs_peek _ _ (FS tbl)); [exact Hok1|exact Hin|exact Hp|]. intros d s' [-> ->].
  cbn [bs_view fs_store]. rewrite (ad_view _ _ _ _ Ha1 a) by lia.
  destruct (table_entry (k - 12) (f a) =? 0) eqn:E.
  - wp_step. apply (wp_alloc tbl (a :: hs) s1 f); [done|done|done| |].
    + intros Hall s2 [Ha2 Hk2]. wp_step. left. split; [by exists p|]. split; [by eapply at_disk_ok|].
      intros s3 Hs3. cbn [fst]. exists f, (disk x). split; [|by right].
      eapply grown_refl; [done|done|done|].
      eapply step_leave; [exact Ha2| |exact Hs3]. eapply kept_trans; [exact Hk1|]. by eapply kept_tail.
    + intros b f' s2 He [Ha2 Hk2].
      assert (f' a = f a) as Efa.
      { apply (ae_other _ _ _ _ He); [lia| |unfold in_bitmap; lia].
        apply (data_block_other sb f b a); [by apply (ii_indirect _ _ _ Hi)|apply He]. }
      pose proof (ae_range _ _ _ _ He) as Hb.
      assert (block_ok (splice (4 * Z.to_nat (k - 12)) (le_bytes 4 b) (f a))) as Hd.
      { apply splice_block_ok; [by apply (at_disk_blocks _ _ _ _ Ha); lia|apply bytes_le_bytes|].
        rewrite length_le_bytes. lia. }
      eapply (@wp_save _ _ (FS tbl) (option Z * BlockRef) (a :: hs) s2 a p
        (splice (4 * Z.to_nat (k - 12)) (le_bytes 4 b) (f a)) (λ ok,
          if negb ok then mret (None, mkBlockRef a true (Some p))
          else mret (Some b, mkBlockRef a true (Some p))));
        [by eapply at_disk_ok|exact Hin|by apply Hk2|exact Hd|].
      intros s3 Hs3. cbn [negb]. wp_step.
      destruct (becomes_upd_step _ _ _ _ _ _ _ Ha2 Hs3) as [Ha3 Hk3].
      left. split; [by exists p|]. split; [by eapply at_disk_ok|]. intros s4 Hs4. cbn [fst].
      destruct (grow_entry sb Hg f (disk x) b f' (upd f' a (splice (4 * Z.to_nat (k - 12)) (le_bytes 4 b) (f a))) k Hi) as [G Hbk];
        [by eapply at_disk_blocks|done|done|done|by rewrite Hbo; lia| |].
      { intros c Hc. unfold set_entry. fold a. by rewrite Efa. }
      exists (upd f' a (splice (4 * Z.to_nat (k - 12)) (le_bytes 4 b) (f a))), (disk x). split; [split; [exact G|]|].
      * replace (set_disk (disk x) x) with x by by destruct x. rewrite list_insert_id by done.
        eapply step_leave; [exact Ha3| |exact Hs4].
        eapply kept_trans; [exact Hk1|]. eapply kept_trans; [by eapply kept_tail|]. by eapply kept_tail.
      * split; [lia|]. split; [lia|done].
  - wp_step. left. split; [by exists p|]. split; [by eapply at_disk_ok|]. intros s2 Hs2. cbn [fst].
    exists f, (disk x). split.
    + eapply grown_refl; [done|done|done|]. by eapply step_leave; [exact Ha1| |exact Hs2].
    + rewrite Hbo. lia.
Qed.

Lemma wp_allocate_or_find tbl hs s f i x k :
  at_disk tbl hs s f → tbl !! i = Some x → inode_inv sb f (disk x) → metadata_used sb f →
  (S (length hs) < bs_limit)%nat → 0 <= k < 4294967296 →
  wp (allocate_or_find_block i k) s (found_block tbl hs s f i x k).
Proof.
  intros Ha Hx Hi Hm Hlt Hk. pose proof (ii_wf _ _ _ Hi) as Hwf. pose proof (data_start_pos sb Hg).
  unfold allocate_or_find_block, NDIRECT, NINDIRECT. wp_step.
  eapply wp_slot; [exact Ha|exact Hx|]. destruct (k <? 12) eqn:E.
  - wp_step. eapply wp_defined; [apply (lookup_addr (disk x) k Hwf); lia|].
    assert (block_of f (disk x) k = addr (disk x) k) as Hbo by (unfold block_of; by rewrite E).
    destruct (addr (disk x) k =? 0) eqn:E2.
    + wp_step. apply (wp_alloc tbl hs s f); [done|lia|done| |].
      * intros Hall s' Hs'. wp_step. exists f, (disk x). split; [by eapply grown_refl|by right].
      * intros b f' s' He [Ha' Hk']. wp_step. unfold set_addr.
        destruct (grow_direct sb Hg f (disk x) b f' k Hi) as [G Hbk];
          [by eapply at_disk_blocks|done|lia|lia|].
        eapply (wp_modify_slot tbl hs s' f' i x); [done|done|]. intros s2 Hs2. wp_step.
        exists f', (set_addr_of (disk x) k b). split; [split; [exact G|]|].
        -- eapply step_trans; [by split|exact Hs2].
        -- pose proof (ae_range _ _ _ _ He). split; [lia|]. split; [lia|done].
    + wp_step. exists f, (disk x). split; [eapply grown_refl; [done|done|done|by apply step_refl]|].
      rewrite Hbo. lia.
  - rewrite u32_small by lia. destruct (k - 12 >=? 128) eqn:E2.
    { wp_step. exists f, (disk x). split; [eapply grown_refl; [done|done|done|by apply step_refl]|left; lia]. }
    wp_step. eapply wp_defined; [apply (lookup_addr (disk x) 12 Hwf); lia|]. wp_step.
    apply (wp_indirect tbl hs s f i x); [done|done|done|done|lia| |].
    + intros s1 f1 d1 [G1 [Ha1 Hk1]] Hn1.
      set (x1 := set_disk d1 x). change (indirect d1) with (indirect (disk x1)).
      assert (<[i := x1]> tbl !! i = Some x1) as Hx1.
      { apply list_lookup_insert_eq. by eapply lookup_lt_Some. }
      wp_use (wp_entry (<[i := x1]> tbl) hs s1 f1 i x1 k); [done|exact Hx1|apply G1|by eapply grows_metadata|done|done|lia|].
      intros r s2 (f2 & d2 & [G2 Hs2] & Hr). exists f2, d2. split; [|exact Hr]. split.
      * eapply grows_trans; [exact Hg|exact Hi|exact G1|exact G2].
      * rewrite list_insert_insert_eq in Hs2. change (set_disk d2 x1) with (set_disk d2 x) in Hs2.
        eapply step_trans; [by split|exact Hs2].
    + intros Hall s1 Hs1. wp_step. exists f, (disk x). split; [by eapply grown_refl|by right].
Qed.
End spec.
