(* ===== verification/FileBytes.v ===== *)
(** * The bytes of a file

    The contents of a file as a sequence of bytes ([byte_at], [file_bytes]),
    and how writing into one of its blocks changes them. *)
From stdpp Require Import list_numbers.
From S2P Require Import Prelude BlockStore StoreRefinement FsLayout FileSystem FileSystemSpec Inode InodeMap.

(** The byte at position [pos], and the [n] bytes from [off] on. *)
Definition byte_at (f : Z → list Z) (di : DiskInode) (pos : Z) : Z :=
  nth (Z.to_nat (pos `mod` 512)) (f (block_of f di (pos / 512))) 0.
Definition file_slice f di (off n : Z) : list Z := byte_at f di <$> seqZ off n.
(** The contents of the file. *)
Definition file_bytes f di : list Z := file_slice f di 0 (size di).

Lemma length_file_slice f di off n : length (file_slice f di off n) = Z.to_nat n.
Proof. unfold file_slice. by rewrite length_fmap, length_seqZ. Qed.

Lemma lookup_file_slice f di off n j :
  Z.of_nat j < n → file_slice f di off n !! j = Some (byte_at f di (off + Z.of_nat j)).
Proof.
  intros Hj. unfold file_slice. rewrite list_lookup_fmap.
  destruct (seqZ off n !! j) as [z|] eqn:E.
  - apply lookup_seqZ in E as [-> _]. done.
  - apply lookup_ge_None_1 in E. rewrite length_seqZ in E. lia.
Qed.

Lemma file_slice_app f di off n m :
  0 <= n → 0 <= m → file_slice f di off n ++ file_slice f di (off + n) m = file_slice f di off (n + m).
Proof. intros. unfold file_slice. by rewrite seqZ_app, fmap_app. Qed.

Lemma file_slice_bytes f di off n :
  0 <= off → 0 <= n → off + n <= size di →
  file_slice f di off n = take (Z.to_nat n) (drop (Z.to_nat off) (file_bytes f di)).
Proof.
  intros Ho Hn Hle. apply list_eq. intros j. destruct (decide (Z.of_nat j < n)) as [Hj|Hj].
  - unfold file_bytes. rewrite lookup_take_lt, lookup_drop, !lookup_file_slice by lia. do 2 f_equal. lia.
  - rewrite !lookup_ge_None_2; [done| |rewrite length_file_slice; lia]. rewrite length_take. lia.
Qed.

(** [old] with [new] written at [offset], which may extend it. *)
Definition overwrite (offset : nat) (new old : list Z) : list Z :=
  take offset old ++ new ++ drop (offset + length new) old.

Lemma overwrite_read offset n (source old : list Z) :
  (offset <= length old)%nat → (n <= length source)%nat →
  take n (drop offset (overwrite offset (take n source) old)) = take n source.
Proof.
  intros Ho Hn. unfold overwrite. rewrite drop_app_length' by (rewrite length_take; lia).
  rewrite take_app_le by (rewrite length_take; lia). by rewrite take_take, Nat.min_id.
Qed.

(** The bytes of a range inside one block. *)
Lemma slice_block f di pos n :
  0 <= pos → 0 <= n → pos `mod` 512 + n <= 512 → length (f (block_of f di (pos / 512))) = BSIZE →
  slice (Z.to_nat (pos `mod` 512)) (Z.to_nat n) (f (block_of f di (pos / 512))) = file_slice f di pos n.
Proof.
  intros Hp Hn Hle Hlen. apply list_eq. intros j. destruct (decide (Z.of_nat j < n)) as [Hj|Hj].
  - rewrite lookup_slice, lookup_file_slice by lia. unfold byte_at.
    replace ((pos + Z.of_nat j) / 512) with (pos / 512) by lia.
    replace ((pos + Z.of_nat j) `mod` 512) with (pos `mod` 512 + Z.of_nat j) by lia.
    rewrite nth_lookup. replace (Z.to_nat (pos `mod` 512 + Z.of_nat j)) with (Z.to_nat (pos `mod` 512) + j)%nat by lia.
    destruct (lookup_lt_is_Some_2 (f (block_of f di (pos / 512))) (Z.to_nat (pos `mod` 512) + j)) as [y ->]; [lia|done].
  - rewrite !lookup_ge_None_2; [done|rewrite length_file_slice; lia|rewrite length_slice; lia].
Qed.

Section bytes.
Context (sb : SuperBlock) (Hg : geometry sb).
Implicit Types (f : Z → list Z) (di : DiskInode) (k b c pos : Z).

(** The blocks that belong to the file. *)
Definition owned f di c : Prop :=
  c = indirect di ∨ ∃ k, 0 <= k < 140 ∧ block_of f di k ≠ 0 ∧ c = block_of f di k.

(** The file [di] on the disk [f] has become [di'] on [f']: it kept its
    blocks and may have taken free ones; no other block in use has changed,
    the bitmap apart. *)
Record evolves f di f' di' : Prop := {
  ev_fields : di' = set_addrs (addrs di') di;
  ev_inv : inode_inv sb f' di';
  ev_blocks : disk_blocks sb f';
  ev_map k : 0 <= k < 140 → block_of f di k ≠ 0 → block_of f' di' k = block_of f di k;
  ev_new k : 0 <= k < 140 → block_of f di k = 0 → block_of f' di' k ≠ 0 → used sb f (block_of f' di' k) = false;
  ev_indirect : indirect di' = indirect di ∨ (indirect di = 0 ∧ used sb f (indirect di') = false);
  ev_frame c : 0 <= c < sb_size sb → used sb f c = true → ¬ in_bitmap sb c → ¬ owned f di c → f' c = f c;
  ev_used c : 0 <= c < sb_size sb → used sb f c = true → used sb f' c = true;
}.

(** Nothing has been lost of the bytes of the file. *)
Definition same_bytes f di f' di' (P : Z → Prop) : Prop :=
  ∀ pos, 0 <= pos < max_bytes → P pos → block_of f di (pos / 512) ≠ 0 →
    block_of f' di' (pos / 512) ≠ 0 ∧ byte_at f' di' pos = byte_at f di pos.

Lemma grows_evolves f di f' di' : grows sb f di f' di' → evolves f di f' di'.
Proof.
  intros [H1 H2 H3 H4 H5 H6 H7 H8]. split; auto.
  intros c Hc Hu Hnb Ho. apply H7; auto. intros ->. apply Ho. by left.
Qed.

Lemma grows_bytes f di f' di' P : inode_inv sb f di → grows sb f di f' di' → same_bytes f di f' di' P.
Proof.
  intros Hi G pos Hpos _ Hn. unfold max_bytes, MAXFILE, FSBLOCK_SIZE in Hpos.
  assert (0 <= pos / 512 < 140) as Hk by lia. unfold byte_at.
  rewrite (gr_map _ _ _ _ _ G _ Hk Hn). split; [done|].
  destruct (ii_data _ _ _ Hi _ Hk Hn) as [Hr Hu]. pose proof (data_start_pos sb Hg).
  rewrite (gr_frame _ _ _ _ _ G); [done|lia|done|unfold in_bitmap; lia|].
  intros E. destruct (decide (indirect di = 0)); [lia|]. by apply (ii_indirect_distinct _ _ _ Hi _ Hk).
Qed.

Lemma evolves_refl f di : inode_inv sb f di → disk_blocks sb f → evolves f di f di.
Proof. intros. apply grows_evolves. by apply grows_refl. Qed.

Lemma evolves_owned f di f' di' c :
  inode_inv sb f di → evolves f di f' di' → 0 <= c < sb_size sb → used sb f c = true →
  owned f' di' c → owned f di c.
Proof.
  intros Hi E Hc Hu [->|(k & Hk & Hn & ->)].
  - destruct (ev_indirect _ _ _ _ E) as [->|[_ Hf]]; [by left|congruence].
  - destruct (decide (block_of f di k = 0)) as [Hz|Hz].
    + pose proof (ev_new _ _ _ _ E k Hk Hz Hn). congruence.
    + right. exists k. rewrite (ev_map _ _ _ _ E k Hk Hz). done.
Qed.

Lemma evolves_trans f1 d1 f2 d2 f3 d3 :
  inode_inv sb f1 d1 → evolves f1 d1 f2 d2 → evolves f2 d2 f3 d3 → evolves f1 d1 f3 d3.
Proof.
  intros Hi1 E12 E23. pose proof (ev_inv _ _ _ _ E12) as Hi2. pose proof (ev_inv _ _ _ _ E23) as Hi3.
  pose proof (data_start_pos sb Hg). pose proof (geo_data _ Hg).
  assert (∀ c, 0 <= c < sb_size sb → used sb f2 c = false → used sb f1 c = false) as Hback.
  { intros c Hc Hu. destruct (used sb f1 c) eqn:E; [|done]. rewrite (ev_used _ _ _ _ E12) in Hu; done. }
  split.
  - rewrite (ev_fields _ _ _ _ E23), (ev_fields _ _ _ _ E12). done.
  - done.
  - apply E23.
  - intros k Hk Hn. rewrite (ev_map _ _ _ _ E23 k Hk) by (rewrite (ev_map _ _ _ _ E12 k Hk Hn); done).
    by apply (ev_map _ _ _ _ E12).
  - intros k Hk Hz Hn. destruct (decide (block_of f2 d2 k = 0)) as [Hz2|Hn2].
    + destruct (ii_data _ _ _ Hi3 k Hk Hn) as [Hr _].
      apply Hback; [lia|]. by apply (ev_new _ _ _ _ E23).
    + rewrite (ev_map _ _ _ _ E23 k Hk Hn2). by apply (ev_new _ _ _ _ E12).
  - assert (∀ d, (indirect d ≠ 0 → data_start sb <= indirect d < sb_size sb) → 0 <= indirect d < sb_size sb) as Hr.
    { intros d Hd. destruct (decide (indirect d = 0)) as [->|Hn]; [lia|]. specialize (Hd Hn). lia. }
    pose proof (Hr d3 (indirect_range _ _ _ Hi3)) as Hr3.
    destruct (ev_indirect _ _ _ _ E12) as [E|[E U]], (ev_indirect _ _ _ _ E23) as [E'|[E' U']].
    + left. congruence.
    + right. split; [congruence|]. by apply Hback.
    + right. split; [done|congruence].
    + right. split; [done|]. by apply Hback.
  - intros c Hc Hu Hnb Ho. rewrite (ev_frame _ _ _ _ E23 c Hc); [by apply (ev_frame _ _ _ _ E12)| |done|].
    + by apply (ev_used _ _ _ _ E12).
    + intros Ho2. apply Ho. by eapply evolves_owned.
  - intros c Hc Hu. apply (ev_used _ _ _ _ E23); [done|]. by apply (ev_used _ _ _ _ E12).
Qed.

(** Writing into a block of the file. *)
Section write.
Context f di f' k d (Hi : inode_inv sb f di) (Hblocks : disk_blocks sb f) (Hk : 0 <= k < 140)
  (Hn : block_of f di k ≠ 0) (Hd : block_ok d)
  (Hf' : ∀ c, 0 <= c < sb_size sb → f' c = upd f (block_of f di k) d c).

Lemma write_other c : 0 <= c < sb_size sb → c ≠ block_of f di k → f' c = f c.
Proof. intros Hc Hne. rewrite Hf' by done. by apply upd_ne. Qed.

Lemma write_block_of j : 0 <= j < 140 → block_of f' di j = block_of f di j.
Proof.
  intros Hj. unfold block_of. destruct (j <? 12); [done|]. destruct (indirect di =? 0) eqn:E; [done|].
  assert (indirect di ≠ 0) as Hz by lia. pose proof (indirect_range _ _ _ Hi Hz).
  pose proof (data_start_pos sb Hg). rewrite write_other; [done|lia|]. intros E'.
  by apply (ii_indirect_distinct _ _ _ Hi k Hk Hz).
Qed.

Lemma write_used c : 0 <= c < sb_size sb → used sb f' c = used sb f c.
Proof.
  intros Hc. unfold used. pose proof (bitmap_block_range _ _ Hg Hc). pose proof (geo_data _ Hg).
  destruct (ii_data _ _ _ Hi k Hk Hn) as [Hr _]. rewrite write_other; [done| |lia]. destruct Hg. lia.
Qed.

Lemma write_evolves : evolves f di f' di.
Proof.
  pose proof (data_start_pos sb Hg). pose proof (geo_data _ Hg).
  assert (∀ c, data_block sb f c → data_block sb f' c) as Hdb.
  { intros c [Hc Hu]. split; [done|]. rewrite write_used by lia. done. }
  assert (inode_inv sb f' di) as Hi'.
  { split; [apply Hi|apply Hi| | | | |].
    - intros j Hj. rewrite write_block_of by done. intros Hj0. by apply Hdb, Hi.
    - intros Hz. by apply Hdb, Hi.
    - intros j Hj Hs. pose proof (inv_file_size _ _ _ _ Hi Hj Hs). rewrite write_block_of by lia.
      by apply (ii_full _ _ _ Hi).
    - intros j j' Hj Hj'. rewrite !write_block_of by done. by apply Hi.
    - intros j Hj. rewrite write_block_of by done. by apply Hi. }
  split; [by destruct di|done| | | | | |].
  - intros c Hc. rewrite Hf' by done. unfold upd. case_decide; [done|]. by apply Hblocks.
  - intros j Hj _. by apply write_block_of.
  - intros j Hj Hz. by rewrite write_block_of.
  - by left.
  - intros c Hc Hu Hnb Ho. apply write_other; [done|]. intros ->. apply Ho. right. by exists k.
  - intros c Hc. by rewrite write_used.
Qed.

Lemma write_byte pos :
  0 <= pos < max_bytes → block_of f di (pos / 512) ≠ 0 →
  byte_at f' di pos = if decide (pos / 512 = k) then nth (Z.to_nat (pos `mod` 512)) d 0 else byte_at f di pos.
Proof.
  intros Hpos Hpn. unfold max_bytes, MAXFILE, FSBLOCK_SIZE in Hpos. unfold byte_at.
  assert (0 <= pos / 512 < 140) as Hj by lia. rewrite write_block_of by done.
  destruct (ii_data _ _ _ Hi _ Hj Hpn) as [Hr _]. pose proof (data_start_pos sb Hg).
  case_decide as E.
  - rewrite E, Hf' by (rewrite <- E; lia). by rewrite upd_eq.
  - rewrite write_other; [done|lia|]. intros E'. apply E. by apply (ii_distinct _ _ _ Hi).
Qed.
End write.
End bytes.
