(* ===== verification/InodeData.v ===== *)
(** * Reading and writing files

    [read_data] and [write_data] of include/inode.cpp read and replace the
    bytes of [file_bytes]. *)
From stdpp Require Import list_numbers.
From S2P Require Import Prelude BlockStore StoreRefinement FsLayout FileSystem FileSystemSpec Inode InodeMap.
From S2P Require Import InodeSpec FileBytes.

Section data.
Context {T : Type} `{HT : IBlockStore T} (ST : BlockStoreSpec T).
Context (con : Console) (sb : SuperBlock).
Context (Hg : geometry sb) (Hsize : sb_size sb <= bs_blocks).
Implicit Types (hs : list Z) (s : Fs T) (f : Z → list Z) (tbl : list Inode) (k b : Z) (i : nat).
Abbreviation at_disk := (at_disk ST con sb).
Abbreviation step := (step ST con sb).
Abbreviation FS tbl := (fs_store ST con sb tbl).

(** ** read_data *)

(** A chunk ends at the end of its block or of the request. *)
Lemma chunk_bounds count done pos :
  0 <= done < count → count < 4294967296 → 0 <= pos →
  let chunk := Z.min (u32 (count - done)) (u32 (512 - pos `mod` 512)) in
  0 < chunk ∧ chunk <= count - done ∧ pos `mod` 512 + chunk <= 512.
Proof. intros Hd Hc Hp. cbn zeta. rewrite !u32_small by lia. lia. Qed.

Lemma wp_read_loop tbl hs s f di fuel offset count done acc (Q : option Z * list Z → Fs T → Prop) :
  at_disk tbl hs s f → inode_inv sb f di → (length hs < bs_limit)%nat →
  0 <= offset → 0 <= done <= count → offset + count <= size di → count < done + Z.of_nat fuel →
  (∀ s', step tbl hs s s' f → Q (Some count, acc ++ file_slice f di (offset + done) (count - done)) s') →
  wp (read_loop fuel di offset count done acc) s Q.
Proof.
  intros Ha Hi Hlt. revert s done acc Ha. induction fuel as [|fuel IH];
    intros s done acc Ha Ho Hdone Hsz Hf HQ; [lia|]. cbn [read_loop].
  pose proof (ii_size _ _ _ Hi) as Hmax. unfold max_bytes, MAXFILE, FSBLOCK_SIZE in Hmax.
  destruct (done <? count) eqn:E.
  2:{ wp_step. assert (done = count) as -> by lia. specialize (HQ s (step_refl _ _ _ _ _ _ _ Ha)).
      replace (count - count) with 0 in HQ by lia. change (file_slice _ _ _ 0) with (@nil Z) in HQ.
      by rewrite app_nil_r in HQ. }
  rewrite (u32_small (offset + done)) by lia. set (pos := offset + done).
  destruct (chunk_bounds count done pos) as (Hc1 & Hc2 & Hc3); [lia|lia|unfold pos; lia|].
  set (chunk := Z.min _ _) in *. unfold containing, FSBLOCK_SIZE in *.
  assert (0 <= pos / 512 < 140) as Hk by (unfold pos; lia).
  assert (block_of f di (pos / 512) ≠ 0) as Hn by (apply (ii_full _ _ _ Hi); unfold pos in *; lia).
  wp_step. apply (wp_find_block ST con sb Hg Hsize tbl hs s f di (pos / 512)); [done|done|lia|done|].
  intros s1 Hs1. pose proof Hs1 as [Ha1 Hk1].
  replace ((pos / 512 <? 140) && negb (block_of f di (pos / 512) =? 0)) with true by lia.
  destruct (ii_data _ _ _ Hi _ Hk Hn) as [Hr _]. pose proof (data_start_pos sb Hg). wp_step.
  apply (wp_read_block ST con sb Hsize tbl hs s1 f (block_of f di (pos / 512)) None
    (λ d, Some (slice (Z.to_nat (pos `mod` 512)) (Z.to_nat chunk) d))); [done|lia|done|].
  intros s2 Hs2. pose proof Hs2 as [Ha2 Hk2].
  rewrite slice_block; [|unfold pos; lia|lia|lia|].
  2:{ apply (at_disk_blocks _ _ _ Hsize _ _ _ _ Ha). lia. }
  rewrite u32_small by lia. apply IH; [done|lia|lia|lia|lia|].
  intros s3 Hs3. rewrite <- app_assoc. replace (offset + (done + chunk)) with (pos + chunk) by (unfold pos; lia).
  rewrite file_slice_app by lia. replace (chunk + (count - (done + chunk))) with (count - done) by lia.
  apply HQ. eapply step_trans; [exact Hs1|]. by eapply step_trans.
Qed.

Lemma wp_read_data tbl hs s f i x offset count (Q : option Z * list Z → Fs T → Prop) :
  at_disk tbl hs s f → tbl !! i = Some x → inode_inv sb f (disk x) → (length hs < bs_limit)%nat →
  is_u32 offset → is_u32 count →
  (∀ s', step tbl hs s s' f →
    Q (if offset >? size (disk x) then (None, [])
       else let n := Z.min count (size (disk x) - offset) in (Some n, file_slice f (disk x) offset n)) s') →
  wp (read_data i offset count) s Q.
Proof.
  intros Ha Hx Hi Hlt Ho Hc HQ. unfold is_u32 in *. pose proof (ii_size _ _ _ Hi) as Hmax.
  unfold max_bytes, MAXFILE, FSBLOCK_SIZE in Hmax.
  unfold read_data. wp_step. eapply wp_slot; [exact Ha|exact Hx|].
  destruct (offset >? size (disk x)) eqn:E; [wp_step; apply HQ; by apply step_refl|].
  rewrite u32_small by lia. set (n := Z.min count (size (disk x) - offset)) in *.
  assert ((if count >? size (disk x) - offset then size (disk x) - offset else count) = n) as ->.
  { unfold n. destruct (count >? _) eqn:E2; lia. }
  assert (0 <= n <= size (disk x) - offset) as Hn by (unfold n; lia).
  apply (wp_read_loop tbl hs s f); [done|done|done|lia|lia|lia|lia|].
  intros s' Hs'. rewrite Z.add_0_r, Z.sub_0_r. by apply HQ.
Qed.

(** ** write_data *)

(** [done] bytes of [source] have been written at [offset]. *)
Definition bytes_written f di f' di' (source : list Z) (offset done : Z) : Prop :=
  (∀ pos, offset <= pos < offset + done → block_of f' di' (pos / 512) ≠ 0 ∧
    byte_at f' di' pos = nth (Z.to_nat (pos - offset)) source 0) ∧
  same_bytes f di f' di' (λ pos, pos < offset ∨ offset + done <= pos).

Lemma wp_write_block tbl hs s f b d (g : list Z → list Z) (Q : bool → Fs T → Prop) :
  at_disk tbl hs s f → 0 <= b < sb_size sb → (length hs < bs_limit)%nat → g (f b) = d → block_ok d →
  (∀ s', step tbl hs s s' (upd f b d) → Q true s') →
  wp (with_block b false (λ block,
    d ← ref_load block; _ ← ref_store block (g d); ok ← ref_write_back block; mret (ok, block))) s Q.
Proof.
  intros Ha Hb Hlt Hd Hok HQ. rewrite <- (ad_view _ _ _ _ _ _ _ Ha b Hb) in Hd. subst d.
  apply (@wp_modify_scope _ _ (FS tbl) bool hs s b false g (λ ok, ok)); [by eapply at_disk_ok|cbn; lia|done|done|].
  intros s' Hs'. apply HQ. by eapply becomes_upd_step.
Qed.

Lemma nth_splice off src (l : list Z) j :
  (off + length src <= length l)%nat →
  nth j (splice off src l) 0 =
  if decide (off <= j < off + length src)%nat then nth (j - off) src 0 else nth j l 0.
Proof.
  intros Hle. rewrite !nth_lookup. case_decide; [by rewrite lookup_splice_in|].
  rewrite lookup_splice_out by lia. done.
Qed.

Lemma nth_slice off n (l : list Z) j : (j < n)%nat → nth j (slice off n l) 0 = nth (off + j) l 0.
Proof. intros. by rewrite !nth_lookup, lookup_slice. Qed.

(** One chunk, from the state after the block has been found. *)
Lemma chunk_written f di f1 di1 f2 source offset done chunk :
  inode_inv sb f di → evolves sb f di f1 di1 → bytes_written f di f1 di1 source offset done →
  0 <= offset → 0 <= done → 0 < chunk → offset + done + chunk <= max_bytes →
  done + chunk <= Z.of_nat (length source) → bytes source →
  (offset + done) `mod` 512 + chunk <= 512 → block_of f1 di1 ((offset + done) / 512) ≠ 0 →
  let b := block_of f1 di1 ((offset + done) / 512) in
  (∀ c, 0 <= c < sb_size sb → f2 c = upd f1 b (splice (Z.to_nat ((offset + done) `mod` 512))
    (slice (Z.to_nat done) (Z.to_nat chunk) source) (f1 b)) c) →
  evolves sb f di f2 di1 ∧ bytes_written f di f2 di1 source offset (done + chunk).
Proof.
  intros Hi Hev [Hw Hsame] Ho Hdone Hchunk Hmax Hsrc Hby Hfit Hn b Hf2.
  set (pos := offset + done) in *. set (l := slice _ _ source) in *.
  assert (length l = Z.to_nat chunk) as Hl by (unfold l; rewrite length_slice; lia).
  pose proof (ev_inv _ _ _ _ _ Hev) as Hi1. pose proof (data_start_pos sb Hg).
  unfold max_bytes, MAXFILE, FSBLOCK_SIZE in Hmax.
  assert (0 <= pos / 512 < 140) as Hk by lia.
  destruct (ii_data _ _ _ Hi1 _ Hk Hn) as [Hr _].
  assert (block_ok (f1 b)) as Hb1 by (apply (ev_blocks _ _ _ _ _ Hev); unfold b; lia).
  assert (block_ok (splice (Z.to_nat (pos `mod` 512)) l (f1 b))) as Hd.
  { apply splice_block_ok; [done|by apply bytes_slice|]. rewrite Hl. lia. }
  pose proof (write_evolves sb Hg f1 di1 f2 _ _ Hi1 (ev_blocks _ _ _ _ _ Hev) Hk Hn Hd Hf2) as Hev2.
  assert (∀ p, 0 <= p < 140 * 512 → block_of f1 di1 (p / 512) ≠ 0 →
    block_of f2 di1 (p / 512) ≠ 0 ∧ byte_at f2 di1 p =
      if decide (pos <= p < pos + chunk) then nth (Z.to_nat (p - offset)) source 0 else byte_at f1 di1 p) as Hbyte.
  { intros p Hp Hpn. rewrite (write_block_of sb Hg f1 di1 f2 _ _ Hi1 Hk Hf2) by lia. split; [done|].
    rewrite (write_byte sb Hg f1 di1 f2 _ _ Hi1 Hk Hf2) by done.
    destruct Hb1 as [Hlen _]. destruct (decide (p / 512 = pos / 512)) as [E|E].
    - rewrite nth_splice by (rewrite Hl; lia). rewrite Hl. case_decide as E2.
      + rewrite decide_True by lia. unfold l. rewrite nth_slice by lia. f_equal. lia.
      + rewrite decide_False by lia. unfold byte_at. rewrite E. done.
    - by rewrite decide_False by lia. }
  split; [by eapply evolves_trans|]. split.
  - intros p Hp. destruct (decide (p < pos)) as [Hlt|Hge].
    + destruct (Hw p) as [Hpn Hpb]; [unfold pos in *; lia|].
      destruct (Hbyte p) as [Hpn2 Hpb2]; [lia|done|]. split; [done|].
      rewrite Hpb2, decide_False by lia. done.
    + assert (p / 512 = pos / 512) as Eq by lia.
      destruct (Hbyte p) as [Hpn2 Hpb2]; [lia|by rewrite Eq|]. split; [done|].
      rewrite Hpb2, decide_True by (unfold pos in *; lia). done.
  - intros p Hp Hout Hpn. unfold max_bytes, MAXFILE, FSBLOCK_SIZE in Hp.
    destruct (Hsame p Hp) as [Hpn1 Hpb1]; [unfold pos in *; lia|done|].
    destruct (Hbyte p) as [Hpn2 Hpb2]; [lia|done|]. split; [done|].
    rewrite Hpb2, decide_False by (unfold pos in *; lia). done.
Qed.

Lemma bytes_written_grows f di f1 di1 f2 di2 source offset done :
  inode_inv sb f1 di1 → 0 <= offset → offset + done <= max_bytes →
  bytes_written f di f1 di1 source offset done → grows sb f1 di1 f2 di2 →
  bytes_written f di f2 di2 source offset done.
Proof.
  intros Hi Ho Hmax [Hw Hs] G. pose proof (grows_bytes sb Hg _ _ _ _ (λ _, True) Hi G) as Hb. split.
  - intros pos Hpos. destruct (Hw pos Hpos) as [Hn <-]. apply Hb; [lia|done|done].
  - intros pos Hpos Hout Hn. destruct (Hs pos Hpos Hout Hn) as [Hn1 <-]. by apply Hb.
Qed.

Lemma evolves_metadata f di f' di' : evolves sb f di f' di' → metadata_used sb f → metadata_used sb f'.
Proof. intros E Hm b Hb. pose proof (geo_data _ Hg). apply (ev_used _ _ _ _ _ E); [lia|by apply Hm]. Qed.

(** The file of slot [i], which held [x] on the disk [f], after [done] bytes. *)
Definition writing tbl hs s f i x source offset done (s' : Fs T) f' di' : Prop :=
  step (<[i := set_disk di' x]> tbl) hs s s' f' ∧ evolves sb f (disk x) f' di' ∧
  bytes_written f (disk x) f' di' source offset done.

Lemma writing_allocated tbl hs s f i x source offset done s1 f1 d1 s2 f2 d2 :
  tbl !! i = Some x → inode_inv sb f (disk x) → 0 <= offset → offset + done <= max_bytes →
  writing tbl hs s f i x source offset done s1 f1 d1 →
  grown_to ST con sb (<[i := set_disk d1 x]> tbl) hs s1 f1 i (set_disk d1 x) s2 f2 d2 →
  writing tbl hs s f i x source offset done s2 f2 d2.
Proof.
  intros Hx Hi Ho Hmax (Hs1 & E1 & W1) [G2 Hs2]. rewrite list_insert_insert_eq in Hs2.
  change (set_disk d2 (set_disk d1 x)) with (set_disk d2 x) in Hs2.
  change (disk (set_disk d1 x)) with d1 in G2. split; [by eapply step_trans|]. split.
  - eapply evolves_trans; [exact Hg|exact Hi|exact E1|]. by apply grows_evolves.
  - eapply bytes_written_grows; [apply E1|done|done|exact W1|exact G2].
Qed.

Lemma wp_write_loop tbl hs s0 f0 i x source offset count fuel s f di done (Q : Z → Fs T → Prop) :
  tbl !! i = Some x → inode_inv sb f0 (disk x) → metadata_used sb f0 → (S (length hs) < bs_limit)%nat →
  0 <= offset → offset + count <= max_bytes → count <= Z.of_nat (length source) → bytes source →
  0 <= done <= count → count < done + Z.of_nat fuel →
  writing tbl hs s0 f0 i x source offset done s f di →
  (∀ s' f' di' done', writing tbl hs s0 f0 i x source offset done' s' f' di' →
    0 <= done' <= count →
    (done' = count ∨ ∀ c, 0 <= c < sb_size sb → used sb f' c = true) → Q done' s') →
  wp (write_loop fuel i source offset count done) s Q.
Proof.
  intros Hx Hi0 Hm0 Hlt Ho Hmax Hsrc Hby. revert s f di done.
  induction fuel as [|fuel IH]; intros s f di done Hdone Hf Hw HQ; [lia|]. cbn [write_loop].
  destruct (done <? count) eqn:E.
  2:{ wp_step. apply (HQ s f di done); [done|lia|]. left. lia. }
  pose proof Hw as (Hs & Hev & Hbw). pose proof Hs as [Ha Hk].
  unfold max_bytes, MAXFILE, FSBLOCK_SIZE in Hmax. rewrite (u32_small (offset + done)) by lia.
  unfold containing, FSBLOCK_SIZE.
  destruct (chunk_bounds count done (offset + done)) as (Hc1 & Hc2 & Hc3); [lia|lia|lia|].
  set (chunk := Z.min _ _) in *. set (x1 := set_disk di x).
  assert (<[i := x1]> tbl !! i = Some x1) as Hx1 by (apply list_lookup_insert_eq; by eapply lookup_lt_Some).
  wp_step. wp_use (wp_allocate_or_find ST con sb Hg Hsize (<[i := x1]> tbl) hs s f i x1 ((offset + done) / 512));
    [done|exact Hx1|apply Hev|by eapply evolves_metadata|done|lia|].
  intros r s1 (f1 & d1 & Hgr & Hr).
  assert (writing tbl hs s0 f0 i x source offset done s1 f1 d1) as Hw1.
  { eapply writing_allocated; [done|done|done|unfold max_bytes, MAXFILE, FSBLOCK_SIZE; lia|exact Hw|exact Hgr]. }
  destruct r as [b|].
  2:{ wp_step. apply (HQ s1 f1 d1 done); [done|lia|right]. destruct Hr as [Hr|Hr]; [lia|done]. }
  destruct Hr as (_ & Hb0 & Hb). pose proof Hw1 as (Hs1 & Hev1 & Hbw1). pose proof Hs1 as [Ha1 Hk1].
  assert (block_of f1 d1 ((offset + done) / 512) ≠ 0) as Hn1 by (rewrite Hb; exact Hb0).
  destruct (ii_data _ _ _ (ev_inv _ _ _ _ _ Hev1) ((offset + done) / 512)) as [Hr _]; [lia|done|].
  rewrite Hb in Hr. pose proof (data_start_pos sb Hg).
  assert (block_ok (f1 b)) as Hb1 by (apply (ev_blocks _ _ _ _ _ Hev1); lia).
  replace (Z.of_nat (length source) <? done + chunk) with false by lia. wp_step.
  apply (wp_write_block (<[i := set_disk d1 x]> tbl) hs s1 f1 b
    (splice (Z.to_nat ((offset + done) `mod` 512)) (slice (Z.to_nat done) (Z.to_nat chunk) source) (f1 b))
    (splice (Z.to_nat ((offset + done) `mod` 512)) (slice (Z.to_nat done) (Z.to_nat chunk) source)));
    [done|lia|lia|done| |].
  { apply splice_block_ok; [done|by apply bytes_slice|]. rewrite length_slice by lia. lia. }
  intros s2 Hs2. cbn [negb]. rewrite u32_small by lia.
  destruct (chunk_written f0 (disk x) f1 d1
    (upd f1 b (splice (Z.to_nat ((offset + done) `mod` 512)) (slice (Z.to_nat done) (Z.to_nat chunk) source) (f1 b)))
    source offset done chunk Hi0 Hev1 Hbw1) as [Hev2 Hbw2];
    [lia|lia|lia|unfold max_bytes, MAXFILE, FSBLOCK_SIZE; lia|lia|done|lia|done|by rewrite Hb|].
  eapply IH; [lia|lia| |exact HQ]. split; [by eapply step_trans|]. by split.
Qed.

(** ** The inode itself *)

(** Rewriting an inode block changes no file. *)
Section inode_block.
Context f n di' (Hn : 0 <= n < ninodes sb) f' (Hf' : ∀ c, 0 <= c < sb_size sb → f' c = upd_inode sb f n di' c).

Lemma inode_block_other c : 0 <= c < sb_size sb → c ≠ inode_block sb n → f' c = f c.
Proof. intros Hc Hne. rewrite Hf' by done. unfold upd_inode. by rewrite upd_ne. Qed.

Lemma inode_block_data c : data_start sb <= c < sb_size sb → f' c = f c.
Proof.
  intros Hc. destruct (inode_block_range _ _ Hg Hn) as [_ Hr]. pose proof (data_start_pos sb Hg).
  apply inode_block_other; [lia|]. unfold data_start, bitmap_blocks in *. destruct Hg. lia.
Qed.

Lemma inode_block_used c : 0 <= c < sb_size sb → used sb f' c = used sb f c.
Proof.
  intros Hc. unfold used. pose proof (bitmap_block_range _ _ Hg Hc). pose proof (geo_data _ Hg).
  destruct (inode_block_range _ _ Hg Hn) as [_ Hr]. rewrite inode_block_other; [done| |lia].
  destruct Hg. lia.
Qed.

Lemma inode_block_of di k : inode_inv sb f di → block_of f' di k = block_of f di k.
Proof.
  intros Hi. unfold block_of. destruct (k <? 12); [done|]. destruct (indirect di =? 0) eqn:E; [done|].
  rewrite inode_block_data; [done|]. apply (indirect_range _ _ _ Hi). lia.
Qed.

Lemma inode_block_inv di : inode_inv sb f di → inode_inv sb f' di.
Proof.
  intros Hi. pose proof (data_start_pos sb Hg).
  assert (∀ c, data_block sb f c → data_block sb f' c) as Hdb.
  { intros c [Hc Hu]. split; [done|]. rewrite inode_block_used by lia. done. }
  split; [apply Hi|apply Hi| | | | |].
  - intros j Hj. rewrite inode_block_of by done. intros Hj0. by apply Hdb, Hi.
  - intros Hz. by apply Hdb, Hi.
  - intros j Hj Hs. rewrite inode_block_of by done. by apply (ii_full _ _ _ Hi).
  - intros j j' Hj Hj'. rewrite !inode_block_of by done. by apply Hi.
  - intros j Hj. rewrite inode_block_of by done. by apply Hi.
Qed.

Lemma inode_block_byte di pos :
  inode_inv sb f di → 0 <= pos < size di → byte_at f' di pos = byte_at f di pos.
Proof.
  intros Hi Hp. pose proof (ii_size _ _ _ Hi) as Hs. unfold max_bytes, MAXFILE, FSBLOCK_SIZE in Hs.
  unfold byte_at. rewrite inode_block_of by done. rewrite inode_block_data; [done|].
  apply (ii_data _ _ _ Hi); [lia|]. apply (ii_full _ _ _ Hi); lia.
Qed.
End inode_block.

(** A file whose new bytes have been written has its new size. *)
Lemma inode_inv_size f di source offset done f' di' :
  inode_inv sb f di → evolves sb f di f' di' → bytes_written f di f' di' source offset done →
  0 <= offset <= size di → 0 <= done → offset + done <= max_bytes →
  inode_inv sb f' (set_size (Z.max (size di) (offset + done)) di').
Proof.
  intros Hi Hev [Hw _] Ho Hd Hmax. pose proof (ev_inv _ _ _ _ _ Hev) as Hi'.
  pose proof (ii_size _ _ _ Hi) as Hs.
  destruct (ii_wf _ _ _ Hi') as (H1 & H2 & H3 & H4 & H5 & H6 & H7).
  split; try (exact (ii_data _ _ _ Hi') || exact (ii_indirect _ _ _ Hi') || exact (ii_distinct _ _ _ Hi')
    || exact (ii_indirect_distinct _ _ _ Hi')).
  - do 4 (split; [done|]). split; [|done]. unfold is_u32, max_bytes, MAXFILE, FSBLOCK_SIZE in *. cbn. lia.
  - cbn. lia.
  - intros k Hk Hks. cbn in Hks. change (block_of f' di' k ≠ 0).
    destruct (decide (k * 512 < size di)) as [Hin|Hout].
    + apply (ii_full _ _ _ Hi' k Hk). rewrite (ev_fields _ _ _ _ _ Hev). exact Hin.
    + destruct (Hw (k * 512)) as [Hn _]; [lia|]. by replace (k * 512 / 512) with k in Hn by lia.
Qed.

(** The contents of the file after the write. *)
Lemma written_byte f di source offset done f' di' pos :
  inode_inv sb f di → bytes_written f di f' di' source offset done → 0 <= offset <= size di →
  offset + done <= max_bytes → 0 <= pos < Z.max (size di) (offset + done) →
  byte_at f' di' pos =
    if decide (offset <= pos < offset + done) then nth (Z.to_nat (pos - offset)) source 0
    else byte_at f di pos.
Proof.
  intros Hi [Hw Hs] Ho Hmax Hp. pose proof (ii_size _ _ _ Hi) as Hsz.
  case_decide as E; [by apply Hw|]. apply Hs; [lia|lia|].
  unfold max_bytes, MAXFILE, FSBLOCK_SIZE in *. apply (ii_full _ _ _ Hi); lia.
Qed.

Lemma file_bytes_overwrite f di source offset done f' di' :
  0 <= offset <= size di → 0 <= done <= Z.of_nat (length source) →
  size di' = Z.max (size di) (offset + done) →
  (∀ pos, 0 <= pos < size di' → byte_at f' di' pos =
    if decide (offset <= pos < offset + done) then nth (Z.to_nat (pos - offset)) source 0
    else byte_at f di pos) →
  file_bytes f' di' = overwrite (Z.to_nat offset) (take (Z.to_nat done) source) (file_bytes f di).
Proof.
  intros Ho Hd Hsz Hb. unfold file_bytes, overwrite.
  assert (length (take (Z.to_nat done) source) = Z.to_nat done) as Hl by (rewrite length_take; lia).
  apply list_eq. intros j. destruct (decide (Z.of_nat j < size di')) as [Hj|Hj].
  - rewrite lookup_file_slice, Hb by lia. rewrite Z.add_0_l.
    destruct (decide (Z.of_nat j < offset)) as [H1|H1]; [|destruct (decide (Z.of_nat j < offset + done)) as [H2|H2]].
    + rewrite decide_False by lia.
      rewrite lookup_app_l by (rewrite length_take, length_file_slice; lia).
      rewrite lookup_take_lt, lookup_file_slice by lia. done.
    + rewrite decide_True by lia.
      rewrite lookup_app_r by (rewrite length_take, length_file_slice; lia).
      rewrite length_take, length_file_slice. rewrite lookup_app_l by lia.
      rewrite lookup_take_lt by lia. rewrite nth_lookup.
      replace (j - min (Z.to_nat offset) (Z.to_nat (size di)))%nat with (Z.to_nat (Z.of_nat j - offset)) by lia.
      destruct (lookup_lt_is_Some_2 source (Z.to_nat (Z.of_nat j - offset))) as [y ->]; [lia|done].
    + rewrite decide_False by lia.
      rewrite lookup_app_r by (rewrite length_take, length_file_slice; lia).
      rewrite length_take, length_file_slice. rewrite lookup_app_r by lia. rewrite lookup_drop, Hl.
      rewrite lookup_file_slice by lia. do 2 f_equal. lia.
  - rewrite !lookup_ge_None_2; [done| |rewrite length_file_slice; lia].
    rewrite !length_app, length_take, length_drop, length_file_slice, Hl. lia.
Qed.

(** What [write_data] achieves when it writes [done] bytes. *)
Record write_effect tbl hs s f i x source offset done (s' : Fs T) f' di' : Prop := {
  we_step : step (<[i := set_disk di' x]> tbl) hs s s' f';
  we_fields : di' = set_size (size di') (set_addrs (addrs di') (disk x));
  we_size : size di' = Z.max (size (disk x)) (offset + done);
  we_inv : inode_inv sb f' di';
  we_metadata : metadata_used sb f';
  we_bytes : file_bytes f' di' =
    overwrite (Z.to_nat offset) (take (Z.to_nat done) source) (file_bytes f (disk x));
  we_inode : inode_at sb f' (inode_number x) = di';
  we_inodes m : 0 <= m < ninodes sb → m ≠ inode_number x → inode_at sb f' m = inode_at sb f m;
  we_frame c : data_start sb <= c < sb_size sb → used sb f c = true → ¬ owned f (disk x) c → f' c = f c;
  we_used c : 0 <= c < sb_size sb → used sb f c = true → used sb f' c = true;
}.

(** The steps of [write_data] put together: the blocks, the size, the inode. *)
Lemma write_effect_intro tbl hs s f i x source offset done s1 f1 d1 s3 :
  at_disk tbl hs s f → tbl !! i = Some x → inode_inv sb f (disk x) → metadata_used sb f →
  0 <= inode_number x < ninodes sb → 0 <= offset <= size (disk x) → 0 <= done <= Z.of_nat (length source) →
  offset + done <= max_bytes →
  writing tbl hs s f i x source offset done s1 f1 d1 →
  let d2 := set_size (Z.max (size (disk x)) (offset + done)) d1 in
  step (<[i := set_disk d2 x]> tbl) hs s s3 (upd_inode sb f1 (inode_number x) d2) →
  write_effect tbl hs s f i x source offset done s3 (upd_inode sb f1 (inode_number x) d2) d2.
Proof.
  intros Ha Hx Hi Hm Hn Ho Hd Hmax (Hs1 & Hev & Hbw) d2 Hs3.
  pose proof (inode_inv_size _ _ _ _ _ _ _ Hi Hev Hbw Ho (proj1 Hd) Hmax) as Hi2. fold d2 in Hi2.
  pose proof (data_start_pos sb Hg). pose proof (geo_data _ Hg).
  assert (∀ c, 0 <= c < sb_size sb → upd_inode sb f1 (inode_number x) d2 c =
    upd_inode sb f1 (inode_number x) d2 c) as Hid by done.
  assert (∀ m, 0 <= m < ninodes sb → f1 (inode_block sb m) = f (inode_block sb m)) as Hib.
  { intros m Hm'. destruct (inode_block_range _ _ Hg Hm') as [_ Hr]. unfold data_start, bitmap_blocks in *.
    apply (ev_frame _ _ _ _ _ Hev); [lia|apply Hm; unfold data_start, bitmap_blocks; lia|unfold in_bitmap; lia|].
    intros [E|(k & Hk & Hk0 & E)].
    - destruct (decide (indirect (disk x) = 0)) as [Hz|Hz]; [lia|].
      pose proof (indirect_range _ _ _ Hi Hz). unfold data_start, bitmap_blocks in *. lia.
    - destruct (ii_data _ _ _ Hi k Hk Hk0) as [Hr' _]. unfold data_start, bitmap_blocks in *. lia. }
  assert (block_ok (f1 (inode_block sb (inode_number x)))) as Hbok.
  { apply (ev_blocks _ _ _ _ _ Hev). destruct (inode_block_range _ _ Hg Hn) as [_ Hr].
    unfold data_start, bitmap_blocks in *. lia. }
  split.
  - exact Hs3.
  - unfold d2. by rewrite (ev_fields _ _ _ _ _ Hev) at 1.
  - done.
  - by eapply inode_block_inv.
  - intros b Hb. rewrite (inode_block_used f1 _ d2 Hn _ Hid) by lia.
    apply (ev_used _ _ _ _ _ Hev); [lia|by apply Hm].
  - apply file_bytes_overwrite; [done|done|done|]. intros pos Hpos.
    rewrite (inode_block_byte f1 _ d2 Hn _ Hid d2 pos Hi2 Hpos).
    rewrite <- (written_byte f (disk x) source offset done f1 d1 pos Hi Hbw Ho Hmax Hpos). done.
  - rewrite (inode_at_upd_inode sb Hg); [by rewrite decide_True|done|done|apply Hi2|done].
  - intros m Hm' Hne. rewrite (inode_at_upd_inode sb Hg); [|done|done|apply Hi2|done].
    rewrite decide_False by done. unfold inode_at. by rewrite Hib.
  - intros c Hc Hu Hown. rewrite (inode_block_data f1 _ d2 Hn _ Hid) by done.
    apply (ev_frame _ _ _ _ _ Hev); [lia|done|unfold in_bitmap; lia|done].
  - intros c Hc Hu. rewrite (inode_block_used f1 _ d2 Hn _ Hid) by done. by apply (ev_used _ _ _ _ _ Hev).
Qed.

Lemma wp_update_inode tbl hs s f i x (Q : bool → Fs T → Prop) :
  at_disk tbl hs s f → tbl !! i = Some x → inode_wf (disk x) → 0 <= inode_number x < ninodes sb →
  (length hs < bs_limit)%nat →
  (∀ s', step tbl hs s s' (upd_inode sb f (inode_number x) (disk x)) → Q true s') →
  wp (update_inode i) s Q.
Proof.
  intros Ha Hx Hwf Hn Hlt HQ. unfold update_inode. wp_step. eapply wp_slot; [exact Ha|exact Hx|].
  apply (wp_write_disk_inode ST con sb tbl Hg Hsize hs); [by eapply at_disk_ok|done|done|done|].
  intros s' Hs'. apply HQ. unfold upd_inode in Hs'.
  destruct (inode_block_range _ _ Hg Hn) as [_ Hr]. pose proof (geo_data _ Hg).
  unfold upd_inode. rewrite <- (ad_view _ _ _ _ _ _ _ Ha (inode_block sb (inode_number x)));
    [by eapply becomes_upd_step|]. unfold data_start, bitmap_blocks in *. lia.
Qed.

Lemma wp_write_data tbl hs s f i x source offset count :
  at_disk tbl hs s f → tbl !! i = Some x → inode_inv sb f (disk x) → metadata_used sb f →
  0 <= inode_number x < ninodes sb → (S (length hs) < bs_limit)%nat →
  is_u32 offset → is_u32 count → count <= Z.of_nat (length source) → bytes source →
  wp (write_data i source offset count) s (λ r s',
    if decide (offset <= size (disk x) ∧ offset + count <= max_bytes) then
      ∃ done f' di', r = Some done ∧ 0 <= done <= count ∧
        write_effect tbl hs s f i x source offset done s' f' di' ∧
        (done = count ∨ ∀ c, 0 <= c < sb_size sb → used sb f' c = true)
    else r = None ∧ s' = s).
Proof.
  intros Ha Hx Hi Hm Hn Hlt Ho Hc Hsrc Hby. unfold is_u32 in *. pose proof (ii_size _ _ _ Hi) as Hmax.
  unfold write_data. wp_step. eapply wp_slot; [exact Ha|exact Hx|].
  destruct (offset >? size (disk x)) eqn:E1; [wp_step; rewrite decide_False by lia; done|].
  unfold max_bytes, MAXFILE, FSBLOCK_SIZE in *.
  destruct ((offset >? 140 * 512) || (count >? u32 (140 * 512 - offset))) eqn:E2.
  { rewrite u32_small in E2 by lia. wp_step. rewrite decide_False by lia. done. }
  rewrite u32_small in E2 by lia.
  assert (offset <= size (disk x) ∧ offset + count <= 140 * 512) as Hfit by lia.
  eapply wp_mono; [|intros r s' HQ; rewrite (decide_True _ _ Hfit); exact HQ]. wp_step.
  apply (wp_write_loop tbl hs s f i x source offset count _ s f (disk x) 0);
    [done|done|done|done|lia|unfold max_bytes, MAXFILE, FSBLOCK_SIZE; lia|done|done|lia|lia| |].
  { split; [|split; [by apply evolves_refl; [|by eapply at_disk_blocks]|]].
    - replace (set_disk (disk x) x) with x by by destruct x. rewrite list_insert_id by done. by apply step_refl.
    - split; [intros pos; lia|]. intros pos _ _ Hp. done. }
  intros s1 f1 d1 done Hw Hdone Hfull. pose proof Hw as ([Ha1 Hk1] & Hev & Hbw).
  set (x1 := set_disk d1 x) in *. set (d2 := set_size (Z.max (size (disk x)) (offset + done)) d1).
  assert (<[i := x1]> tbl !! i = Some x1) as Hx1 by (apply list_lookup_insert_eq; by eapply lookup_lt_Some).
  assert (size d1 = size (disk x)) as Es by by rewrite (ev_fields _ _ _ _ _ Hev).
  wp_step. eapply wp_slot; [exact Ha1|exact Hx1|]. rewrite (u32_small (offset + done)) by lia.
  assert (inode_inv sb f1 d2) as Hi2.
  { apply (inode_inv_size f (disk x) source offset done); [done|done|done|lia|lia|].
    unfold max_bytes, MAXFILE, FSBLOCK_SIZE. lia. }
  wp_step. apply (wp_mono _ _ (λ _ s2, step (<[i := set_disk d2 x]> tbl) hs s1 s2 f1)).
  { change (disk x1) with d1. rewrite Es. destruct (offset + done >? size (disk x)) eqn:E3.
    - eapply (wp_modify_slot ST con sb (<[i := x1]> tbl) hs s1 f1 i x1); [done|done|]. intros s2 Hs2.
      rewrite list_insert_insert_eq in Hs2. unfold d2. rewrite Z.max_r by lia. exact Hs2.
    - wp_step. unfold d2. rewrite Z.max_l by lia. rewrite <- Es.
      replace (set_size (size d1) d1) with d1 by by destruct d1. by apply step_refl. }
  intros _ s2 [Ha2 Hk2]. wp_step.
  apply (wp_update_inode (<[i := set_disk d2 x]> tbl) hs s2 f1 i (set_disk d2 x));
    [done|apply list_lookup_insert_eq; by eapply lookup_lt_Some|apply Hi2|done|lia|].
  intros s3 [Ha3 Hk3]. cbn [negb]. wp_step.
  exists done, (upd_inode sb f1 (inode_number x) d2), d2. split; [done|]. split; [lia|]. split.
  - eapply write_effect_intro; [done|done|done|done|done|lia|lia| |exact Hw|].
    + unfold max_bytes, MAXFILE, FSBLOCK_SIZE. lia.
    + split; [done|]. eapply kept_trans; [exact Hk1|]. by eapply kept_trans.
  - destruct Hfull as [|Hfull]; [by left|right]. intros c Hcr.
    rewrite (inode_block_used f1 _ d2 Hn _ (λ c _, eq_refl)) by done. by apply Hfull.
Qed.
End data.
