(* ===== verification/InodeTable.v ===== *)
(** * The table of inodes in use

    [get_inode] shares the slot of an inode that is in use, and otherwise loads
    the inode into the first empty slot; [put_inode] gives one reference
    back. *)
From S2P Require Import Prelude BlockStore StoreRefinement FsLayout FileSystem FileSystemSpec Inode InodeMap.
From S2P Require Import InodeSpec.

(** Slot [x] is in use for inode [n]. *)
Definition live (n : Z) (x : Inode) : Prop := 0 < inode_refcnt x ∧ inode_number x = n.

#[export] Instance live_dec n x : Decision (live n x).
Proof. unfold live. apply _. Defined.

(** The reference counts are in range, and an inode has one slot. *)
Record table_ok (tbl : list Inode) : Prop := {
  tok_refcnt i x : tbl !! i = Some x → 0 <= inode_refcnt x <= INT_MAX;
  tok_unique n i j x y : tbl !! i = Some x → tbl !! j = Some y → live n x → live n y → i = j;
}.

(** How many references to inode [n] there are. *)
Definition references (tbl : list Inode) (n : Z) : Z :=
  match list_find (live n) tbl with Some (_, x) => inode_refcnt x | None => 0 end.

Lemma scan_table_spec l k n empty :
  scan_table l k n empty =
  match list_find (live n) l with
  | Some (j, _) => inl (k + j)%nat
  | None => inr (match empty with
                 | Some e => Some e
                 | None => (λ p, (k + p.1)%nat) <$> list_find (λ x, inode_refcnt x = 0) l
                 end)
  end.
Proof.
  revert k empty. induction l as [|x l IH]; intros k empty; cbn [scan_table list_find]; [by destruct empty|].
  destruct (decide (live n x)) as [[Hr Hn]|Hl].
  - replace ((inode_refcnt x >? 0) && (inode_number x =? n)) with true by lia. f_equal. lia.
  - replace ((inode_refcnt x >? 0) && (inode_number x =? n)) with false by (unfold live in Hl; lia).
    rewrite IH. destruct (list_find (live n) l) as [[j y]|]; cbn; [f_equal; lia|].
    destruct empty as [e|]; [done|].
    destruct (decide (inode_refcnt x = 0)) as [H0|H0].
    + replace (inode_refcnt x =? 0) with true by lia. cbn. do 2 f_equal. lia.
    + replace (inode_refcnt x =? 0) with false by lia.
      destruct (list_find _ l) as [[j y]|]; cbn; [do 2 f_equal; lia|done].
Qed.

Lemma references_live tbl n i x : table_ok tbl → tbl !! i = Some x → live n x → references tbl n = inode_refcnt x.
Proof.
  intros Hok Hx Hl. unfold references. destruct (list_find (live n) tbl) as [[j y]|] eqn:E.
  - apply list_find_Some in E as (Hy & Hly & _).
    pose proof (tok_unique _ Hok n _ _ _ _ Hx Hy Hl Hly) as ->. by simplify_eq.
  - apply list_find_None in E. rewrite Forall_lookup in E. by apply E in Hx.
Qed.

Lemma references_none tbl n : (∀ i x, tbl !! i = Some x → ¬ live n x) → references tbl n = 0.
Proof.
  intros H. unfold references. destruct (list_find (live n) tbl) as [[j y]|] eqn:E; [|done].
  apply list_find_Some in E as (Hy & Hly & _). by apply H in Hy.
Qed.

(** One slot changes: its inode's references change with it. *)
Lemma references_insert tbl i x y m :
  table_ok tbl → table_ok (<[i := y]> tbl) → tbl !! i = Some x → live (inode_number y) y ∨ inode_refcnt y = 0 →
  (inode_refcnt x = 0 ∨ inode_number x = inode_number y) →
  (inode_refcnt x = 0 → inode_refcnt y ≠ 0 → references tbl (inode_number y) = 0) →
  references (<[i := y]> tbl) m = if decide (m = inode_number y)
    then (if decide (inode_refcnt x = 0 ∧ inode_refcnt y = 0) then references tbl m else inode_refcnt y)
    else references tbl m.
Proof.
  intros Hok Hok' Hx Hy Hxy Hnew. pose proof (lookup_lt_Some _ _ _ Hx) as Hlt.
  assert (∀ j z, j ≠ i → <[i := y]> tbl !! j = Some z ↔ tbl !! j = Some z) as Hother.
  { intros j z Hj. by rewrite list_lookup_insert_ne. }
  assert (<[i := y]> tbl !! i = Some y) as Hiy by by apply list_lookup_insert_eq.
  assert (inode_refcnt x < 0 → False) as Hneg by (pose proof (tok_refcnt _ Hok _ _ Hx); lia).
  assert (∀ k, k ≠ inode_number y ∨ (inode_refcnt x = 0 ∧ inode_refcnt y = 0) →
    references (<[i := y]> tbl) k = references tbl k) as Hsame.
  { intros k Hk. destruct (list_find (live k) tbl) as [[j z]|] eqn:E.
    - apply list_find_Some in E as (Hz & Hlz & _). rewrite (references_live tbl k j z) by done.
      assert (j ≠ i) as Hj by (intros ->; simplify_eq; destruct Hlz; lia).
      apply (references_live _ k j); [done|by apply Hother|done].
    - apply list_find_None in E. rewrite Forall_lookup in E. rewrite (references_none tbl k) by exact E.
      apply references_none. intros j z. destruct (decide (j = i)) as [->|Hj].
      + rewrite Hiy. intros [= <-] [? ?]. lia.
      + rewrite Hother by done. apply E. }
  case_decide as Hm; [|apply Hsame; by left]. case_decide as H0; [apply Hsame; by right|].
  subst m. destruct Hy as [Hl|Hz]; [by apply (references_live _ _ i)|].
  rewrite Hz. apply references_none. intros j z. destruct (decide (j = i)) as [->|Hj].
  - rewrite Hiy. intros [= <-] [? ?]. lia.
  - rewrite Hother by done. intros Hjz Hlz. apply Hj.
    apply (tok_unique _ Hok (inode_number y) j i z x); [done|done|done|]. split; [|destruct Hxy; [lia|done]].
    pose proof (tok_refcnt _ Hok _ _ Hx). destruct (decide (inode_refcnt x = 0)); [|lia].
    exfalso. apply H0. done.
Qed.

Lemma table_ok_insert tbl i x y :
  table_ok tbl → tbl !! i = Some x → 0 <= inode_refcnt y <= INT_MAX →
  (∀ j z, j ≠ i → tbl !! j = Some z → live (inode_number y) y → ¬ live (inode_number y) z) →
  table_ok (<[i := y]> tbl).
Proof.
  intros Hok Hx Hr Hu. split.
  - intros j z [(<- & <- & _)|(_ & Hz)]%list_lookup_insert_Some; [done|]. by eapply tok_refcnt.
  - intros n j k z w [(<- & <- & _)|(Hj & Hz)]%list_lookup_insert_Some
      [(<- & <- & _)|(Hk & Hw)]%list_lookup_insert_Some Hlz Hlw; [done| | |].
    + exfalso. destruct Hlz as [? <-]. by eapply (Hu k w).
    + exfalso. destruct Hlw as [? <-]. by eapply (Hu j z).
    + by eapply tok_unique.
Qed.

Section table.
Context {T : Type} `{HT : IBlockStore T} (ST : BlockStoreSpec T).
Context (con : Console) (sb : SuperBlock).
Context (Hg : geometry sb) (Hsize : sb_size sb <= bs_blocks).
Implicit Types (hs : list Z) (s : Fs T) (f : Z → list Z) (tbl : list Inode) (n : Z) (i : nat).
Abbreviation at_disk := (at_disk ST con sb).
Abbreviation step := (step ST con sb).

(** The ways in which [get_inode n] can end. *)
Inductive get_outcome tbl f n : InodeRef → list Inode → Prop :=
| get_shared i x :
    tbl !! i = Some x → live n x → inode_refcnt x < INT_MAX →
    get_outcome tbl f n (Some i) (<[i := set_refcnt (inode_refcnt x + 1) x]> tbl)
| get_loaded i x :
    (∀ j y, tbl !! j = Some y → ¬ live n y) →
    tbl !! i = Some x → inode_refcnt x = 0 → (∀ j y, (j < i)%nat → tbl !! j = Some y → inode_refcnt y ≠ 0) →
    get_outcome tbl f n (Some i) (<[i := mkInode n 1 true (inode_at sb f n)]> tbl)
| get_full :
    (∀ j y, tbl !! j = Some y → ¬ live n y ∧ inode_refcnt y ≠ 0) →
    get_outcome tbl f n None tbl.

Lemma get_outcome_ok tbl f n r tbl' :
  table_ok tbl → get_outcome tbl f n r tbl' →
  table_ok tbl' ∧ ∀ m, references tbl' m =
    references tbl m + (if decide (m = n ∧ r ≠ None) then 1 else 0).
Proof.
  intros Hok [i x Hx Hl Hmax|i x Hnone Hx H0 Hfirst|Hall].
  - destruct (tok_refcnt _ Hok _ _ Hx) as [? _]. pose proof Hl as [Hr Hn].
    assert (table_ok (<[i := set_refcnt (inode_refcnt x + 1) x]> tbl)) as Hok'.
    { eapply table_ok_insert; [done|done|cbn; lia|]. intros j z Hj Hz _ Hlz. apply Hj.
      cbn in Hlz. rewrite Hn in Hlz. by eapply (tok_unique _ Hok n). }
    split; [done|]. intros m. rewrite (references_insert tbl i x _ m); try done; cbn.
    + rewrite Hn. destruct (decide (m = n)) as [->|].
      * rewrite decide_False by lia. rewrite decide_True by done. rewrite (references_live tbl n i x) by done. done.
      * rewrite decide_False by tauto. lia.
    + left. split; [cbn; lia|done].
    + by right.
    + lia.
  - assert (table_ok (<[i := mkInode n 1 true (inode_at sb f n)]> tbl)) as Hok'.
    { eapply table_ok_insert; [done|done|cbn; unfold INT_MAX; lia|]. intros j z _ Hz _. by eapply Hnone. }
    split; [done|]. intros m. rewrite (references_insert tbl i x _ m); try done; cbn.
    + destruct (decide (m = n)) as [->|].
      * rewrite decide_False by lia. rewrite decide_True by done. rewrite (references_none tbl n) by done. done.
      * rewrite decide_False by tauto. lia.
    + left. by split.
    + by left.
    + intros _ _. by apply references_none.
  - split; [done|]. intros m. rewrite decide_False by tauto. lia.
Qed.

Lemma put_after_get tbl f n i tbl' :
  table_ok tbl → get_outcome tbl f n (Some i) tbl' →
  ∃ x', tbl' !! i = Some x' ∧ 0 <= inode_refcnt x' ∧
    ∀ m, references (<[i := set_refcnt (Z.max 0 (inode_refcnt x' - 1)) x']> tbl') m = references tbl m.
Proof.
  intros Hok Hget. remember (Some i) as r eqn:Er.
  destruct Hget as [j x Hx Hl Hmax|j x Hnone Hx H0 Hfirst|Hall]; [| |done]; injection Er as ->;
    pose proof (lookup_lt_Some _ _ _ Hx) as Hlt; pose proof (tok_refcnt _ Hok _ _ Hx);
    (eexists; split; [by apply list_lookup_insert_eq|]); split; [cbn; lia| |cbn; lia|];
    intros m; rewrite list_insert_insert_eq.
  - cbn. replace (Z.max 0 (inode_refcnt x + 1 - 1)) with (inode_refcnt x) by lia.
    replace (set_refcnt _ _) with x by by destruct x. by rewrite list_insert_id.
  - change (set_refcnt _ _) with (mkInode n 0 true (inode_at sb f n)).
    rewrite (references_insert tbl i x _ m); [cbn|done| |done|by right|by left|done].
    + case_decide; [|done]. by rewrite decide_True.
    + eapply table_ok_insert; [done|done|cbn; unfold INT_MAX; lia|]. intros k z _ _ [? _]. cbn in *. lia.
Qed.

Lemma wp_get_inode tbl hs s f n (Q : InodeRef → Fs T → Prop) :
  at_disk tbl hs s f → 0 <= n < ninodes sb → (length hs < bs_limit)%nat →
  (∀ i x, tbl !! i = Some x → inode_refcnt x < INT_MAX) →
  (∀ r tbl' s', get_outcome tbl f n r tbl' → step tbl' hs s s' f → Q r s') →
  wp (get_inode n) s Q.
Proof.
  intros Ha Hn Hlt Hmax HQ. unfold get_inode. wp_step. wp_step.
  destruct (ad_framed _ _ _ _ _ _ _ Ha) as (_ & _ & Ht). rewrite Ht, scan_table_spec.
  destruct (list_find (live n) tbl) as [[i x]|] eqn:E.
  - apply list_find_Some in E as (Hx & Hl & _). rewrite Nat.add_0_l.
    wp_step. eapply wp_slot; [exact Ha|exact Hx|]. pose proof (Hmax _ _ Hx).
    replace (inode_refcnt x =? INT_MAX) with false by lia. wp_step.
    eapply wp_modify_slot; [exact Ha|exact Hx|]. intros s' Hs'. wp_step. eapply HQ; [|exact Hs'].
    by apply get_shared.
  - apply list_find_None in E. rewrite Forall_lookup in E.
    destruct (list_find (λ x, inode_refcnt x = 0) tbl) as [[i x]|] eqn:E0; cbn [fmap option_fmap option_map fst].
    + apply list_find_Some in E0 as (Hx & H0 & Hfirst). rewrite Nat.add_0_l.
      wp_step. apply (wp_get_disk_inode ST con sb tbl Hg Hsize hs); [by eapply at_disk_ok|done|done|].
      intros s1 Hs1. pose proof (becomes_same_step _ _ _ Hsize _ _ _ _ _ Ha Hs1) as [Ha1 Hk1].
      assert (inode_at sb (bs_view (block_store s)) n = inode_at sb f n) as Ein.
      { unfold inode_at. rewrite (ad_view _ _ _ _ _ _ _ Ha); [done|].
        pose proof (inode_block_blocks sb Hg n Hn). lia. }
      cbn [bs_view fs_store]. rewrite Ein.
      assert (∀ g h (l : list Inode), <[i := g]> (<[i := h]> l) = <[i := g]> l) as Hii by (intros; by rewrite list_insert_insert_eq).
      assert (i < length tbl)%nat as Hilt by by eapply lookup_lt_Some.
      wp_step. eapply wp_modify_slot; [exact Ha1|exact Hx|]. intros s2 [Ha2 Hk2].
      wp_step. eapply wp_modify_slot; [exact Ha2|by apply list_lookup_insert_eq|]. intros s3 [Ha3 Hk3]. rewrite Hii in Ha3.
      wp_step. eapply wp_modify_slot; [exact Ha3|by apply list_lookup_insert_eq|]. intros s4 [Ha4 Hk4]. rewrite Hii in Ha4.
      wp_step. eapply wp_modify_slot; [exact Ha4|by apply list_lookup_insert_eq|]. intros s5 [Ha5 Hk5]. rewrite Hii in Ha5.
      wp_step. eapply HQ; [apply (get_loaded tbl f n i x); [exact E|done|done|]|].
      * intros j y Hj Hy. by eapply Hfirst.
      * split; [exact Ha5|]. intros c q Hc Hp. apply Hk5, Hk4, Hk3, Hk2, Hk1; done.
    + apply list_find_None in E0. rewrite Forall_lookup in E0. wp_step. eapply HQ; [|by apply step_refl].
      apply get_full. intros j y Hy. split; [by eapply E|by eapply E0].
Qed.

(** [put_inode] drops one reference, none below zero. *)
Lemma wp_put_inode tbl hs s f i x (Q : () → Fs T → Prop) :
  at_disk tbl hs s f → tbl !! i = Some x → 0 <= inode_refcnt x →
  (∀ s', step (<[i := set_refcnt (Z.max 0 (inode_refcnt x - 1)) x]> tbl) hs s s' f → Q () s') →
  wp (put_inode (Some i)) s Q.
Proof.
  intros Ha Hx Hr HQ. unfold put_inode. wp_step. eapply wp_slot; [exact Ha|exact Hx|].
  destruct (inode_refcnt x >? 0) eqn:E.
  - eapply wp_modify_slot; [exact Ha|exact Hx|]. intros s' Hs'. apply HQ.
    by replace (Z.max 0 (inode_refcnt x - 1)) with (inode_refcnt x - 1) by lia.
  - wp_step. apply HQ. replace (Z.max 0 (inode_refcnt x - 1)) with (inode_refcnt x) by lia.
    replace (set_refcnt (inode_refcnt x) x) with x by by destruct x. rewrite list_insert_id by done.
    by apply step_refl.
Qed.
End table.
