(* ===== verification/FileSystemProps.v ===== *)
(** * The properties of the file system: blocks, inodes, files *)
From stdpp Require Import strings.
From S2P Require Import Prelude BlockStore StoreRefinement FsLayout FileSystem FileSystemSpec FileSystemFormat.
From S2P Require Import Inode InodeMap InodeSpec FileBytes InodeData InodeTable.

(** ** The layout *)

(** The structures on the disk are read back as they were written: the superblock
    (at the head of its block), every inode of 64 bytes and every directory entry of
    16 bytes. *)
Theorem layout_roundtrips :
  (∀ s rest, superblock_wf s → length (superblock_bytes s) = 24%nat ∧
    bytes_superblock (superblock_bytes s ++ rest) = s) ∧
  (∀ d, inode_wf d → length (inode_bytes d) = 64%nat ∧ bytes_inode (inode_bytes d) = d) ∧
  (∀ e, entry_wf e → length (entry_bytes e) = 16%nat ∧ bytes_entry (entry_bytes e) = e).
Proof.
  split; [|split].
  - intros s rest Hs. split; [apply length_superblock_bytes|by apply superblock_roundtrip].
  - intros d Hd. split; [by apply length_inode_bytes|by apply inode_roundtrip].
  - intros e He. split; [by apply length_entry_bytes|by apply entry_roundtrip].
Qed.

Section properties.
Context {T : Type} `{HT : IBlockStore T} (ST : BlockStoreSpec T).
Implicit Types (f : Z → list Z) (tbl : list Inode) (n b : Z) (i : nat).

(** ** initialize *)

Lemma wp_fs_initialize n (store : T) con0 (s0 : Fs (StorePtr T)) :
  27 + (n + 4095) / 4096 < n <= 4294967296 - 4096 → n <= bs_blocks → (0 < bs_limit)%nat →
  bs_ok [] store →
  wp (initialize n (Some store) (Some con0)) s0 (λ ok s', ok = true ∧
    ∃ store', block_store s' = inl store' ∧ bs_ok [] store' ∧
    if decide (magic (bytes_superblock (bs_view store 1)) = FS_MAGIC) then
      console s' = con0 ∧ superblock s' = bytes_superblock (bs_view store 1) ∧
      (∀ b, 0 <= b < bs_blocks → bs_view store' b = bs_view store b)
    else
      console s' = console_write not_formatted con0 ∧ superblock s' = (format_superblock n).1 ∧
      inode_table s' = inode_table s0 ∧ geometry (superblock s') ∧
      formatted (superblock s') (bs_view store')).
Proof.
  intros Hn Hblocks Hlimit Hok. unfold initialize. wp_step. wp_step. wp_step. wp_step. set (s1 := set_console _ _).
  assert (@bs_ok _ _ (StorePtr_spec ST) [] (block_store s1)) as Hok1 by exact Hok.
  destruct (decide (magic (bytes_superblock (bs_view store 1)) = FS_MAGIC)) as [Hm|Hm].
  - wp_use (wp_mount_formatted (StorePtr_spec ST) Hlimit ltac:(cbn; lia) n s1 Hok1); [exact Hm|].
    intros ok s2 (-> & Hc & Hs & (Hok2 & Hv2 & _)). split; [done|].
    destruct (block_store s2) as [store'|] eqn:E; [|done]. by exists store'.
  - wp_use (wp_mount_unformatted (StorePtr_spec ST) Hlimit ltac:(cbn; lia) n s1 Hn Hblocks Hok1 Hm).
    intros ok s2 (-> & Hc & Hs & Ht & Hok2 & Hf). split; [done|].
    destruct (block_store s2) as [store'|] eqn:E; [|done]. exists store'.
    split; [done|]. split; [done|]. split; [done|]. split; [done|]. split; [done|]. split; [|done].
    rewrite Hs. by destruct (format_geometry n) as (_ & Hg & _); [lia|].
Qed.

(** C32: [FileSystem::initialize] on a real store: a disk with the magic number is
    mounted and not changed; any other disk large enough for its metadata and one
    data block is formatted (superblock, inode blocks, bitmap and root directory as
    the header describes) and then mounted; without a store it fails. *)
Theorem fs_initialize_correct n (store : T) con0 (s0 : Fs (StorePtr T)) :
  27 + (n + 4095) / 4096 < n <= 4294967296 - 4096 → n <= bs_blocks → (0 < bs_limit)%nat →
  bs_ok [] store →
  wp (initialize n (Some store) (Some con0)) s0 (λ ok s', ok = true ∧
    ∃ store', block_store s' = inl store' ∧ bs_ok [] store' ∧
    if decide (magic (bytes_superblock (bs_view store 1)) = FS_MAGIC) then
      console s' = con0 ∧ superblock s' = bytes_superblock (bs_view store 1) ∧
      (∀ b, 0 <= b < bs_blocks → bs_view store' b = bs_view store b)
    else
      console s' = console_write not_formatted con0 ∧ superblock s' = (format_superblock n).1 ∧
      inode_table s' = inode_table s0 ∧ geometry (superblock s') ∧
      formatted (superblock s') (bs_view store')) ∧
  wp (initialize n None (Some con0)) s0 (λ ok _, ok = false).
Proof.
  intros Hn Hblocks Hlimit Hok. split; [by apply wp_fs_initialize|].
  destruct (format_geometry n) as (E2 & Hg & _ & _ & _ & _ & Eb & _); [lia|].
  unfold initialize. wp_steps. unfold mount. wp_step.
  eapply wp_intro; [reflexivity|]. cbn beta iota.
  do 3 wp_step. unfold format. rewrite (surjective_pairing (format_superblock n)).
  do 3 wp_step. cbn [for_blocks].
  replace (inode_start _ <? _) with true by (rewrite E2; unfold data_start, bitmap_blocks; rewrite Eb; cbn; lia).
  wp_step. eapply wp_intro; [reflexivity|]. cbn beta iota. cbn [negb]. by repeat (wp_steps; cbn [negb]).
Qed.

(** ** Blocks *)
Context (con : Console) (sb : SuperBlock) (Hg : geometry sb) (Hsize : sb_size sb <= bs_blocks).

(** C8: [allocate_block] returns the first free block, which is then marked in the
    bitmap (no other bit changes) and zeroed, while no other data block and no inode
    changes; it fails only when every block is in use, and then changes nothing. *)
Theorem allocate_block_correct tbl s f :
  at_disk ST con sb tbl [] s f → (0 < bs_limit)%nat → metadata_used sb f →
  wp allocate_block s (λ r s', ∃ f', at_disk ST con sb tbl [] s' f' ∧
    match r with
    | Some b =>
        data_start sb <= b < sb_size sb ∧ used sb f b = false ∧
        (∀ c, 0 <= c < b → used sb f c = true) ∧ f' b = replicate BSIZE 0 ∧
        (∀ c, 0 <= c < sb_size sb → used sb f' c = if decide (c = b) then true else used sb f c) ∧
        (∀ c, 0 <= c < sb_size sb → c ≠ b → ¬ in_bitmap sb c → f' c = f c)
    | None => f' = f ∧ ∀ c, 0 <= c < sb_size sb → used sb f c = true
    end).
Proof.
  intros Ha Hlt Hm. pose proof (geo_data _ Hg).
  assert (∀ c, 0 <= c < sb_size sb → used sb (bs_view (block_store s)) c = used sb f c) as Hu.
  { intros c Hc. apply (used_ext sb Hg); [apply Ha|done]. }
  apply (wp_allocate_block ST con sb tbl Hg Hsize []).
  - by eapply at_disk_ok.
  - done.
  - intros b Hb. cbn. rewrite Hu by lia. by apply Hm.
  - intros Hall s' Hs'. exists f. split; [by eapply becomes_same_step|]. split; [done|].
    intros c Hc. rewrite <- Hu by done. by apply Hall.
  - intros b s' Hs'. destruct (allocated_effect ST con sb Hg Hsize _ _ _ _ _ _ Ha Hs') as (f' & He & [Ha' _]).
    exists f'. split; [done|]. destruct Hs' as (_ & _ & Hbelow & _). destruct He.
    pose proof (data_start_pos sb Hg).
    split; [done|]. split; [done|]. split; [|done]. intros c Hc. rewrite <- Hu by lia. by apply Hbelow.
Qed.

(** [free_block] clears the bit of the block and no other, and changes no block
    outside the bitmap. *)
Theorem free_block_correct tbl s f b :
  at_disk ST con sb tbl [] s f → (0 < bs_limit)%nat → 0 <= b < sb_size sb →
  wp (free_block b) s (λ _ s', ∃ f', at_disk ST con sb tbl [] s' f' ∧
    (∀ c, 0 <= c < sb_size sb → used sb f' c = if decide (c = b) then false else used sb f c) ∧
    (∀ c, 0 <= c < sb_size sb → ¬ in_bitmap sb c → f' c = f c)).
Proof.
  intros Ha Hlt Hb. apply (wp_free_block ST con sb tbl Hg Hsize []); [by eapply at_disk_ok|done|done|].
  intros s' d Hs' Hu. pose proof Hs' as ([Hok' Hf'] & Hv' & _).
  exists (bs_view (block_store s')). split; [by split|]. split.
  - intros c Hc. rewrite Hu by done. rewrite <- (used_ext sb Hg (bs_view (block_store s)) f c) by (done || apply Ha).
    done.
  - intros c Hc Hnb. rewrite <- (ad_view _ _ _ _ _ _ _ Ha c Hc). etrans; [apply Hv'; cbn; lia|].
    rewrite upd_ne; [done|]. pose proof (bitmap_block_range sb b Hg Hb). unfold in_bitmap in Hnb. lia.
Qed.

(** [write_disk_inode] replaces one inode of the disk and no other, and changes no
    block in use for data; [get_disk_inode] reads it back. *)
Theorem disk_inode_correct tbl s f n m di :
  at_disk ST con sb tbl [] s f → (0 < bs_limit)%nat → 0 <= n < ninodes sb → 0 <= m < ninodes sb →
  inode_wf di →
  wp (ok ← write_disk_inode n di; r ← get_disk_inode m; mret (ok, r)) s (λ '(ok, r) s',
    ok = true ∧ r = Some (if decide (m = n) then di else inode_at sb f m) ∧
    ∃ f', at_disk ST con sb tbl [] s' f' ∧ ∀ c, bitmap_start sb <= c < sb_size sb → f' c = f c).
Proof.
  intros Ha Hlt Hn Hm Hwf. pose proof (inode_block_blocks sb Hg n Hn) as Hbn.
  pose proof (inode_block_blocks sb Hg m Hm) as Hbm. wp_step.
  apply (wp_write_disk_inode ST con sb tbl Hg Hsize []); [by eapply at_disk_ok|done|done|done|].
  intros s1 Hs1. destruct (becomes_upd_step ST con sb Hsize _ _ _ _ _ _ _ Ha Hs1) as [Ha1 _].
  wp_step. apply (wp_get_disk_inode ST con sb tbl Hg Hsize []); [by eapply at_disk_ok|done|done|].
  intros s2 Hs2. destruct (becomes_same_step ST con sb Hsize _ _ _ _ _ Ha1 Hs2) as [Ha2 _]. wp_step.
  split; [done|]. split; [|eexists; split; [exact Ha2|]].
  - assert (inode_at sb (bs_view (block_store s1)) m = inode_at sb (upd_inode sb f n di) m) as E.
    { unfold inode_at. rewrite (ad_view _ _ _ _ _ _ _ Ha1) by lia. cbn [bs_view fs_store].
      unfold upd_inode. by rewrite (ad_view _ _ _ _ _ _ _ Ha) by lia. }
    cbn [bs_view fs_store]. rewrite E. f_equal. apply (inode_at_upd_inode sb Hg); [done|done|done|].
    apply (at_disk_blocks _ _ _ Hsize _ _ _ _ Ha). lia.
  - intros c Hc. rewrite upd_ne; [done|]. destruct (inode_block_range _ _ Hg Hn) as [_ ?]. lia.
Qed.

(** ** Inodes in use *)

(** C33: [get_inode] shares the slot of an inode that is in use, else loads it from
    the disk into the first empty slot, else (table full) fails; every inode keeps a
    single slot, and exactly one reference to the inode is gained; [put_inode] of it
    gives that reference back. *)
Theorem get_put_inode_correct tbl s f n :
  at_disk ST con sb tbl [] s f → (0 < bs_limit)%nat → 0 <= n < ninodes sb → table_ok tbl →
  (∀ i x, tbl !! i = Some x → inode_refcnt x < INT_MAX) →
  wp (get_inode n) s (λ r s', ∃ tbl', at_disk ST con sb tbl' [] s' f ∧ get_outcome sb tbl f n r tbl' ∧
    table_ok tbl' ∧ (∀ m, references tbl' m = references tbl m + if decide (m = n ∧ r ≠ None) then 1 else 0) ∧
    wp (put_inode r) s' (λ _ s'', ∃ tbl'', at_disk ST con sb tbl'' [] s'' f ∧
      ∀ m, references tbl'' m = references tbl m)).
Proof.
  intros Ha Hlt Hn Hok Hmax. apply (wp_get_inode ST con sb Hg Hsize tbl [] s f); [done|done|done|done|].
  intros r tbl' s' Hout [Ha' _]. exists tbl'. destruct (get_outcome_ok sb _ _ _ _ _ Hok Hout) as [Hok' Hrefs].
  split; [done|]. split; [done|]. split; [done|]. split; [done|].
  destruct r as [i|].
  2:{ unfold put_inode. wp_step. exists tbl'. split; [done|]. intros m. rewrite Hrefs, decide_False by tauto. lia. }
  destruct (put_after_get sb _ _ _ _ _ Hok Hout) as (x & Hx & Hr & Hput).
  eapply wp_put_inode; [exact Ha'|exact Hx|exact Hr|]. intros s'' [Ha'' _]. by eexists.
Qed.

(** ** Files *)

(** C3: [allocate_or_find_block] returns the block that holds index [k] of the file,
    allocating it (and the indirect block) when it is missing. It fails only beyond
    the largest file or when the disk is full. The inode stays consistent, keeps the
    blocks it has with their contents, takes only blocks that were free, and no
    other block in use changes. *)
Theorem allocate_or_find_block_correct tbl s f i x k :
  at_disk ST con sb tbl [] s f → tbl !! i = Some x → inode_inv sb f (disk x) → metadata_used sb f →
  (1 < bs_limit)%nat → 0 <= k < 4294967296 →
  wp (allocate_or_find_block i k) s (λ r s', ∃ f' di',
    at_disk ST con sb (<[i := set_disk di' x]> tbl) [] s' f' ∧ grows sb f (disk x) f' di' ∧
    match r with
    | Some b => k < 140 ∧ b ≠ 0 ∧ block_of f' di' k = b
    | None => 140 <= k ∨ ∀ c, 0 <= c < sb_size sb → used sb f' c = true
    end).
Proof.
  intros Ha Hx Hi Hm Hlt Hk.
  wp_use (wp_allocate_or_find ST con sb Hg Hsize tbl [] s f i x k); [done|done|done|done|done|done|].
  intros r s' (f' & di' & [G [Ha' _]] & Hr). by exists f', di'.
Qed.

(** C30: [read_data] copies to [dest] the bytes of the file from [offset] on, as
    many as asked for or as there are, changes nothing, and fails only beyond the
    end of the file. *)
Theorem read_data_correct tbl s f i x offset count :
  at_disk ST con sb tbl [] s f → tbl !! i = Some x → inode_inv sb f (disk x) → (0 < bs_limit)%nat →
  is_u32 offset → is_u32 count →
  wp (read_data i offset count) s (λ '(r, dest) s', at_disk ST con sb tbl [] s' f ∧
    if decide (offset <= size (disk x)) then
      let n := Z.min count (size (disk x) - offset) in
      r = Some n ∧ dest = take (Z.to_nat n) (drop (Z.to_nat offset) (file_bytes f (disk x)))
    else r = None ∧ dest = []).
Proof.
  intros Ha Hx Hi Hlt Ho Hc. unfold is_u32 in *.
  apply (wp_read_data ST con sb Hg Hsize tbl [] s f i x); [done|done|done|done|done|done|].
  intros s' [Ha' _]. destruct (offset >? size (disk x)) eqn:E.
  - split; [done|]. rewrite decide_False by lia. done.
  - split; [done|]. rewrite decide_True by lia. split; [done|]. by apply file_slice_bytes; lia.
Qed.

(** C2: [write_data] replaces the bytes of the file from [offset] on by the first
    [done] bytes of [source], extending it if need be; fewer than [count] are
    written only when the disk is full. The inode on the disk and in memory agree,
    no other inode changes, and no block in use outside the file changes. A write
    beyond the end of the file (a hole) or the largest size is refused and changes
    nothing. *)
Theorem write_data_correct tbl s f i x source offset count :
  at_disk ST con sb tbl [] s f → tbl !! i = Some x → inode_inv sb f (disk x) → metadata_used sb f →
  0 <= inode_number x < ninodes sb → (1 < bs_limit)%nat →
  is_u32 offset → is_u32 count → count <= Z.of_nat (length source) → bytes source →
  wp (write_data i source offset count) s (λ r s',
    if decide (offset <= size (disk x) ∧ offset + count <= max_bytes) then
      ∃ done f' di', r = Some done ∧ 0 <= done <= count ∧
        write_effect ST con sb tbl [] s f i x source offset done s' f' di' ∧
        (done = count ∨ ∀ c, 0 <= c < sb_size sb → used sb f' c = true)
    else r = None ∧ s' = s).
Proof.
  intros. by apply (wp_write_data ST con sb Hg Hsize).
Qed.

(** C31: Reading back what has just been written returns it. *)
Theorem write_then_read tbl s f i x source offset count :
  at_disk ST con sb tbl [] s f → tbl !! i = Some x → inode_inv sb f (disk x) → metadata_used sb f →
  0 <= inode_number x < ninodes sb → (1 < bs_limit)%nat →
  is_u32 offset → is_u32 count → count <= Z.of_nat (length source) → bytes source →
  offset <= size (disk x) → offset + count <= max_bytes →
  wp (r ← write_data i source offset count;
      match r with Some done => '(r', dest) ← read_data i offset done; mret (r, r', dest)
                 | None => mret (None, None, []) end) s
    (λ '(r, r', dest) _, ∃ done, r = Some done ∧ r' = Some done ∧ dest = take (Z.to_nat done) source).
Proof.
  intros Ha Hx Hi Hm Hn Hlt Ho Hc Hsrc Hby H1 H2. wp_step.
  wp_use (wp_write_data ST con sb Hg Hsize tbl [] s f i x source offset count); [done..|].
  intros r s'. cbn beta. rewrite decide_True by done. intros (done & f' & di' & -> & Hd & We & _).
  destruct (we_step _ _ _ _ _ _ _ _ _ _ _ _ _ _ _ We) as [Ha' _].
  pose proof (we_size _ _ _ _ _ _ _ _ _ _ _ _ _ _ _ We) as Hsz. unfold is_u32 in *.
  wp_step. apply (wp_read_data ST con sb Hg Hsize (<[i := set_disk di' x]> tbl) [] s' f' i (set_disk di' x));
    [done|apply list_lookup_insert_eq; by eapply lookup_lt_Some|apply We|cbn; lia|done|unfold is_u32; lia|].
  intros s'' _. cbn [disk set_disk]. replace (offset >? size di') with false by lia.
  rewrite Z.min_l by lia. wp_step. exists done. split; [reflexivity|]. split; [reflexivity|].
  rewrite file_slice_bytes by lia. rewrite (we_bytes _ _ _ _ _ _ _ _ _ _ _ _ _ _ _ We).
  apply overwrite_read; [unfold file_bytes; rewrite length_file_slice; lia|lia].
Qed.
End properties.

(** ** A RAM disk of 64 blocks *)
#[local] Instance ram64 : BlockStoreSpec RamStore := RamStore_spec 64.

Lemma zero_disk_unformatted : magic (bytes_superblock (bs_view (ram_zero 64) 1)) ≠ FS_MAGIC.
Proof. vm_compute. discriminate. Qed.

Definition sb64 : SuperBlock := (format_superblock 64).1.

Lemma sb64_geometry : geometry sb64.
Proof. apply (format_geometry 64). lia. Qed.

Lemma sb64_size : sb_size sb64 <= @bs_blocks RamStore _ ram64.
Proof. done. Qed.

Lemma fs_initialize_correct_witness :
  wp (initialize 64 (Some (ram_zero 64)) (Some NullConsole) : M (Fs (StorePtr RamStore)) bool)
    (initial_fs (inr NullBlockStore_instance))
    (λ ok s', ok = true ∧ ∃ store', block_store s' = inl store' ∧ formatted sb64 (bs_view store')).
Proof.
  destruct (fs_initialize_correct ram64 64 (ram_zero 64) NullConsole (initial_fs (inr NullBlockStore_instance))) as [H _].
  - lia.
  - done.
  - cbn. lia.
  - exact (ram_zero_ok 64).
  - eapply wp_mono; [exact H|]. intros ok s' (-> & store' & Hs & _ & Hc). split; [reflexivity|].
    exists store'. split; [exact Hs|]. rewrite (decide_False _ _ zero_disk_unformatted) in Hc.
    destruct Hc as (_ & Hsb & _ & _ & Hf). rewrite Hsb in Hf. exact Hf.
Defined.

(** A table whose first slot holds the empty file of inode 2, and a formatted
    disk. *)
Definition file2 : Inode := mkInode 2 1 true (set_type kFile DiskInode_zero).
Definition table2 : list Inode := [file2; mkInode 0 0 false DiskInode_zero].

Lemma formatted_disk tbl :
  ∃ (s : Fs RamStore), at_disk ram64 NullConsole sb64 tbl [] s (bs_view (block_store s)) ∧
    formatted sb64 (bs_view (block_store s)).
Proof.
  destruct (wp_format ram64 NullConsole tbl 64 ltac:(lia) ltac:(done) ltac:(cbn; lia) sb64 eq_refl
    (mkFs (ram_zero 64) NullConsole SuperBlock_zero tbl)) as (ok & s & _ & _ & [Hok Hf] & Hform).
  - exact (ram_zero_ok 64).
  - reflexivity.
  - reflexivity.
  - exists s. split; [|exact Hform]. by split.
Qed.

Lemma formatted_metadata f : formatted sb64 f → metadata_used sb64 f.
Proof.
  intros Hf b Hb. pose proof (geo_data _ sb64_geometry). rewrite (formatted_used _ _ Hf) by lia. lia.
Qed.

Lemma file2_inv f : inode_inv sb64 f (disk file2).
Proof.
  assert (∀ k, addr (disk file2) k = 0) as Ha.
  { intros k. unfold addr. cbn [disk file2 set_type addrs DiskInode_zero]. rewrite nth_lookup.
    destruct (replicate 13 0 !! _) as [y|] eqn:E; [|done]. by apply lookup_replicate_1 in E as [-> _]. }
  assert (∀ k, block_of f (disk file2) k = 0) as Hb.
  { intros k. unfold block_of, indirect. rewrite !Ha. by destruct (k <? 12). }
  split.
  - unfold inode_wf. cbn [type major minor nlink size addrs disk file2 set_type DiskInode_zero].
    do 5 (split; [by vm_compute|]). split; [done|]. apply Forall_replicate. by vm_compute.
  - by vm_compute.
  - intros k _ Hn. by rewrite Hb in Hn.
  - unfold indirect. rewrite Ha. done.
  - intros k Hk Hs. cbn in Hs. lia.
  - intros j k _ _ Hn. by rewrite Hb in Hn.
  - intros k _ Hn. unfold indirect in Hn. by rewrite Ha in Hn.
Qed.

Lemma allocate_block_correct_witness :
  ∃ s : Fs RamStore, wp allocate_block s (λ r _, r = None ∨ ∃ b, r = Some b ∧ data_start sb64 <= b).
Proof.
  destruct (formatted_disk table2) as (s & Ha & Hf). exists s.
  eapply wp_mono; [apply (allocate_block_correct ram64 NullConsole sb64 sb64_geometry sb64_size table2 s _ Ha)|].
  - cbn. lia.
  - exact (formatted_metadata _ Hf).
  - intros [b|] s' (f' & _ & H); [right; exists b; split; [reflexivity|apply H]|left; reflexivity].
Defined.

Lemma free_block_correct_witness :
  ∃ s : Fs RamStore, wp (free_block 28) s (λ _ _, True).
Proof.
  destruct (formatted_disk table2) as (s & Ha & Hf). exists s.
  eapply wp_mono; [apply (free_block_correct ram64 NullConsole sb64 sb64_geometry sb64_size table2 s _ 28 Ha)|].
  - cbn. lia.
  - by vm_compute.
  - done.
Defined.

Lemma disk_inode_correct_witness :
  ∃ s : Fs RamStore, wp (ok ← write_disk_inode 5 (disk file2); r ← get_disk_inode 5; mret (ok, r)) s
    (λ '(ok, r) _, ok = true ∧ r = Some (disk file2)).
Proof.
  destruct (formatted_disk table2) as (s & Ha & Hf). exists s.
  eapply wp_mono; [apply (disk_inode_correct ram64 NullConsole sb64 sb64_geometry sb64_size table2 s _ 5 5 (disk file2) Ha)|].
  - cbn. lia.
  - by vm_compute.
  - by vm_compute.
  - exact (ii_wf _ _ _ (file2_inv (bs_view (block_store s)))).
  - intros [ok r] s' (H1 & H2 & _). split; [exact H1|exact H2].
Defined.

Lemma get_put_inode_correct_witness :
  ∃ s : Fs RamStore, wp (get_inode 2) s (λ r s', ∃ tbl', inode_table s' = tbl' ∧ references tbl' 2 = 2 + if decide (r = None) then -1 else 0).
Proof.
  destruct (formatted_disk table2) as (s & Ha & Hf). exists s.
  eapply wp_mono; [apply (get_put_inode_correct ram64 NullConsole sb64 sb64_geometry sb64_size table2 s _ 2 Ha)|].
  - cbn. lia.
  - by vm_compute.
  - split.
    + intros [|[|i]] x [= <-]; by vm_compute.
    + intros n [|[|i]] [|[|j]] x y [= <-] [= <-] [H1 _] [H2 _]; try reflexivity; by vm_compute in H1, H2.
  - intros [|[|i]] x [= <-]; by vm_compute.
  - intros r s' (tbl' & [_ (_ & _ & Ht) _] & _ & _ & Hrefs & _). exists tbl'. split; [exact Ht|].
    rewrite Hrefs. change (references table2 2) with 1. destruct r as [i|].
    + rewrite decide_True by done. reflexivity.
    + rewrite decide_False by tauto. reflexivity.
Defined.

Lemma allocate_or_find_block_correct_witness :
  ∃ s : Fs RamStore, wp (allocate_or_find_block 0 13) s (λ r s', r = None ∨ ∃ b, r = Some b ∧ b ≠ 0).
Proof.
  destruct (formatted_disk table2) as (s & Ha & Hf). exists s.
  eapply wp_mono; [apply (allocate_or_find_block_correct ram64 NullConsole sb64 sb64_geometry sb64_size table2 s
    (bs_view (block_store s)) 0 file2 13 Ha)|].
  - reflexivity.
  - apply file2_inv.
  - exact (formatted_metadata _ Hf).
  - cbn. lia.
  - lia.
  - intros [b|] s' (f' & di' & _ & _ & H); [right; exists b; split; [reflexivity|apply H]|left; reflexivity].
Defined.

Lemma read_data_correct_witness :
  ∃ s : Fs RamStore, wp (read_data 0 0 100) s (λ '(r, dest) _, r = Some 0 ∧ dest = []).
Proof.
  destruct (formatted_disk table2) as (s & Ha & Hf). exists s.
  eapply wp_mono; [apply (read_data_correct ram64 NullConsole sb64 sb64_geometry sb64_size table2 s
    (bs_view (block_store s)) 0 file2 0 100 Ha)|].
  - reflexivity.
  - apply file2_inv.
  - cbn. lia.
  - by vm_compute.
  - by vm_compute.
  - intros [r dest] s' [_ H]. exact H.
Defined.

Lemma write_data_correct_witness :
  ∃ s : Fs RamStore, wp (write_data 0 [104; 105] 0 2) s (λ r _, ∃ done, r = Some done ∧ 0 <= done <= 2).
Proof.
  destruct (formatted_disk table2) as (s & Ha & Hf). exists s.
  eapply wp_mono; [apply (write_data_correct ram64 NullConsole sb64 sb64_geometry sb64_size table2 s
    (bs_view (block_store s)) 0 file2 [104; 105] 0 2 Ha)|].
  - reflexivity.
  - apply file2_inv.
  - exact (formatted_metadata _ Hf).
  - by vm_compute.
  - cbn. lia.
  - by vm_compute.
  - by vm_compute.
  - cbn. lia.
  - by repeat constructor.
  - intros r s' H. cbn beta in H. rewrite decide_True in H by (split; by vm_compute).
    destruct H as (done & _ & _ & Hr & Hd & _). by exists done.
Defined.

Lemma write_then_read_witness :
  ∃ s : Fs RamStore,
    wp (r ← write_data 0 [104; 105] 0 2;
        match r with Some done => '(r', dest) ← read_data 0 0 done; mret (r, r', dest)
                   | None => mret (None, None, []) end) s
      (λ '(r, r', dest) _, r = r').
Proof.
  destruct (formatted_disk table2) as (s & Ha & Hf). exists s.
  eapply wp_mono; [apply (write_then_read ram64 NullConsole sb64 sb64_geometry sb64_size table2 s
    (bs_view (block_store s)) 0 file2 [104; 105] 0 2 Ha)|].
  - reflexivity.
  - apply file2_inv.
  - exact (formatted_metadata _ Hf).
  - by vm_compute.
  - cbn. lia.
  - by vm_compute.
  - by vm_compute.
  - cbn. lia.
  - by repeat constructor.
  - by vm_compute.
  - by vm_compute.
  - intros [[r r'] dest] s' (done & -> & -> & _). reflexivity.
Defined.
