(* ===== verification/Directory.v ===== *)
(** * Directories (include/directory.hpp, include/directory.cpp)

    A directory is a file of 16-byte entries; a name is the bytes of a
    [std::string_view]. *)
From S2P Require Import Prelude BlockStore FsLayout FileSystem Inode.

(** ['/'] *)
Definition slash : Z := 47.

Record DirectoryLookup := mkDirectoryLookup { found_inode : Z; found_offset : Z }.

Fixpoint no_slash (name : list Z) : bool :=
  match name with
  | [] => true
  | c :: name => if c =? slash then false else no_slash name
  end.

Definition is_valid_name (name : list Z) : bool :=
  if (length name =? 0)%nat || (DIRECTORY_NAME_SIZE <? Z.of_nat (length name)) then false
  else no_slash name.

(** The loop of [is_name_equal]; [None] reads past the end of the array. *)
Fixpoint name_matches (entry_name name : list Z) : option bool :=
  match name, entry_name with
  | [], _ => Some true
  | _ :: _, [] => None
  | c :: name, e :: entry_name => if negb (e =? c) then Some false else name_matches entry_name name
  end.

Definition is_name_equal (entry_name name : list Z) : option bool :=
  if DIRECTORY_NAME_SIZE <? Z.of_nat (length name) then Some false
  else
    m ← name_matches entry_name name;
    if negb m then Some false
    else if Z.of_nat (length name) =? DIRECTORY_NAME_SIZE then Some true
    else e ← entry_name !! length name; Some (e =? 0).

Section Directory.
Context {T : Type} `{IBlockStore T}.

(** [read_entry]: the entry read over [entry], if the whole of it was. *)
Definition read_entry (directory : nat) (offset : Z) (entry : list Z) : M (Fs T) (bool * list Z) :=
  '(n, l) ← read_data directory offset 16;
  let entry := splice 0 l entry in
  match n with
  | Some n => mret (n =? 16, entry)
  | None => mret (false, entry)
  end.

(** The loop of [directory_lookup], from [offset] on. *)
Fixpoint lookup_loop (fuel : nat) (directory : nat) (name entry : list Z) (offset : Z)
    : M (Fs T) (option DirectoryLookup) :=
  match fuel with
  | O => stuck
  | S fuel =>
      inode ← slot directory;
      if offset + 16 <=? size (disk inode) then
        '(ok, entry) ← read_entry directory offset entry;
        if negb ok then mret None
        else
          let e := bytes_entry entry in
          if entry_inode e =? 0 then lookup_loop fuel directory name entry (u32 (offset + 16))
          else
            equal ← defined (is_name_equal (entry_name e) name);
            if (equal : bool) then mret (Some (mkDirectoryLookup (entry_inode e) offset))
            else lookup_loop fuel directory name entry (u32 (offset + 16))
      else mret None
  end.

(** One step more than there are entries. *)
Definition directory_fuel (di : DiskInode) : nat := S (Z.to_nat (size di / 16)).

Definition directory_lookup (directory : nat) (name : list Z) : M (Fs T) (option DirectoryLookup) :=
  inode ← slot directory;
  if negb (type (disk inode) =? kDirectory) || negb (is_valid_name name) then mret None
  else lookup_loop (directory_fuel (disk inode)) directory name (replicate 16 0) 0.

(** The loop of [directory_link]: [None] when an entry cannot be read or has
    the name already, else the first free offset if there is one. *)
Fixpoint link_loop (fuel : nat) (directory : nat) (name entry : list Z) (free_offset : option Z)
    (offset : Z) : M (Fs T) (option (option Z)) :=
  match fuel with
  | O => stuck
  | S fuel =>
      inode ← slot directory;
      if offset + 16 <=? size (disk inode) then
        '(ok, entry) ← read_entry directory offset entry;
        if negb ok then mret None
        else
          let e := bytes_entry entry in
          if entry_inode e =? 0 then
            link_loop fuel directory name entry
              (match free_offset with None => Some offset | Some o => Some o end) (u32 (offset + 16))
          else
            equal ← defined (is_name_equal (entry_name e) name);
            if (equal : bool) then mret None
            else link_loop fuel directory name entry free_offset (u32 (offset + 16))
      else mret (Some free_offset)
  end.

Definition directory_link (directory : nat) (name : list Z) (inode_number : Z) : M (Fs T) bool :=
  inode ← slot directory;
  if negb (type (disk inode) =? kDirectory) || negb (is_valid_name name) then mret false
  else if (inode_number =? 0) || (inode_number >? 65535) then mret false
  else
    scanned ← link_loop (directory_fuel (disk inode)) directory name (replicate 16 0) None 0;
    match scanned with
    | None => mret false
    | Some free_offset =>
        inode ← slot directory;
        let offset := match free_offset with Some o => o | None => size (disk inode) end in
        let fresh := mkDirectoryEntry (u16 inode_number)
                       (splice 0 name (replicate (Z.to_nat DIRECTORY_NAME_SIZE) 0)) in
        n ← write_data directory (entry_bytes fresh) offset 16;
        mret (match n with Some n => n =? 16 | None => false end)
    end.
End Directory.
