(* ===== verification/Path.v ===== *)
(** * Path resolution (include/path.hpp, include/path.cpp) *)
From S2P Require Import Prelude BlockStore FsLayout FileSystem Inode Directory.

(** The two loops of [next_component]: skipping slashes, and taking the bytes
    up to the next one. *)
Fixpoint skip_slashes (rest : list Z) : list Z :=
  match rest with
  | [] => []
  | c :: rest' => if c =? slash then skip_slashes rest' else rest
  end.
Fixpoint take_component (rest : list Z) : list Z * list Z :=
  match rest with
  | [] => ([], [])
  | c :: rest' =>
      if negb (c =? slash) then let '(name, r) := take_component rest' in (c :: name, r)
      else ([], rest)
  end.

(** [next_component]: the component, and what [rest] becomes. *)
Definition next_component (rest : list Z) : list Z * list Z := take_component (skip_slashes rest).

Fixpoint has_component (rest : list Z) : bool :=
  match rest with
  | [] => false
  | c :: rest => if negb (c =? slash) then true else has_component rest
  end.

Section Path.
Context {T : Type} `{IBlockStore T}.

(** [return InodeRef{}] with the local [current] going out of scope. *)
Definition drop_and_fail (current : InodeRef) : M (Fs T) (InodeRef * option (list Z)) :=
  _ ← InodeRef_reset current; mret (None, None).

(** The loop of [walk]. The result is the reference returned and what has
    been stored in [*last]. *)
Fixpoint walk_loop (fuel : nat) (stop_before_last : bool) (current : InodeRef) (rest : list Z)
    : M (Fs T) (InodeRef * option (list Z)) :=
  match fuel with
  | O => stuck
  | S fuel =>
      match current with
      | None => mret (None, None)
      | Some k =>
          let '(name, rest) := next_component rest in
          if (length name =? 0)%nat then
            if stop_before_last then drop_and_fail current else mret (current, None)
          else if stop_before_last && negb (has_component rest) then
            inode ← slot k;
            if negb (type (disk inode) =? kDirectory) then drop_and_fail current
            else mret (current, Some name)
          else
            found ← directory_lookup k name;
            match found with
            | None => drop_and_fail current
            | Some found =>
                next ← get_inode (found_inode found);
                '(current, _) ← InodeRef_move_assign current next;
                walk_loop fuel stop_before_last current rest
            end
      end
  end.

Definition walk (path : list Z) (stop_before_last : bool) : M (Fs T) (InodeRef * option (list Z)) :=
  match path with
  | [] => mret (None, None)
  | _ =>
      current ← get_inode ROOT_INODE;
      walk_loop (S (length path)) stop_before_last current path
  end.

Definition resolve_path (path : list Z) : M (Fs T) InodeRef :=
  '(r, _) ← walk path false; mret r.

(** [ParentLookup]: the parent and the last component. *)
Definition resolve_parent (path : list Z) : M (Fs T) (option (InodeRef * list Z)) :=
  '(parent, last) ← walk path true;
  match parent with
  | None => mret None
  | Some _ => mret (Some (parent, default [] last))
  end.
End Path.
