(* ===== verification/DirectorySpec.v ===== *)
(** * Directories as lists of entries

    [directory_lookup] of include/directory.cpp is a search in the list of the
    directory's entries, and [directory_link] an update of that list. *)
From stdpp Require Import list_numbers.
From S2P Require Import Prelude BlockStore StoreRefinement FsLayout FileSystem FileSystemSpec Inode InodeMap.
From S2P Require Import InodeSpec FileBytes InodeData Directory.

(** ** Names *)

(** The array [a] of 14 bytes holds [name]: the name fills it or is followed by
    a zero byte. *)
Definition holds_name (name a : list Z) : Prop :=
  take (length name) a = name ∧ (length name = 14%nat ∨ a !! length name = Some 0).

#[export] Instance holds_name_dec name a : Decision (holds_name name a).
Proof. unfold holds_name. apply _. Defined.

(** An entry in use with this name. *)
Definition named (name : list Z) (e : DirectoryEntry) : Prop :=
  entry_inode e ≠ 0 ∧ holds_name name (entry_name e).

#[export] Instance named_dec name e : Decision (named name e).
Proof. unfold named. apply _. Defined.

Lemma name_matches_spec a name :
  (length name <= length a)%nat → name_matches a name = Some (bool_decide (take (length name) a = name)).
Proof.
  revert a. induction name as [|c name IH]; intros [|e a] Hl; cbn [name_matches length] in *; try done; [lia|].
  cbn [take]. destruct (e =? c) eqn:E; cbn [negb].
  - apply Z.eqb_eq in E as ->. rewrite IH by lia. f_equal. apply bool_decide_ext.
    split; [by intros ->|by intros [= ->]].
  - f_equal. symmetry. apply bool_decide_eq_false. intros [= -> _]. lia.
Qed.

Lemma is_name_equal_spec a name :
  length a = 14%nat → (length name <= 14)%nat → is_name_equal a name = Some (bool_decide (holds_name name a)).
Proof.
  intros Ha Hl. unfold is_name_equal, DIRECTORY_NAME_SIZE.
  replace (14 <? Z.of_nat (length name)) with false by lia.
  rewrite name_matches_spec by lia. cbn [mbind option_bind].
  destruct (bool_decide (take _ _ = _)) eqn:Hm; cbn [negb].
  2:{ apply bool_decide_eq_false in Hm. f_equal. symmetry. apply bool_decide_eq_false. by intros [? _]. }
  apply bool_decide_eq_true in Hm.
  destruct (Z.of_nat (length name) =? 14) eqn:E.
  { f_equal. symmetry. apply bool_decide_eq_true. split; [done|]. left. lia. }
  destruct (lookup_lt_is_Some_2 a (length name)) as [e He]; [lia|]. rewrite He. cbn [mbind option_bind]. f_equal.
  destruct (e =? 0) eqn:E0; symmetry; [apply bool_decide_eq_true|apply bool_decide_eq_false].
  - split; [done|]. right. rewrite He. f_equal. lia.
  - intros [_ [?|H0]]; [lia|]. rewrite He in H0. injection H0 as ->. lia.
Qed.

Lemma no_slash_spec name : no_slash name = true ↔ slash ∉ name.
Proof.
  induction name as [|c name IH]; cbn [no_slash]; [split; [intros _; apply not_elem_of_nil|done]|].
  rewrite not_elem_of_cons, <- IH. destruct (c =? slash) eqn:E; [split; [done|]|split]; [intros [? _]; lia| |tauto].
  intros H. split; [lia|done].
Qed.

Lemma is_valid_name_spec name :
  is_valid_name name = true ↔ (0 < length name <= 14)%nat ∧ slash ∉ name.
Proof.
  unfold is_valid_name, DIRECTORY_NAME_SIZE. rewrite <- no_slash_spec.
  destruct (Nat.eqb_spec (length name) 0) as [H0|H0]; cbn [orb]; [split; [done|lia]|].
  destruct (14 <? Z.of_nat (length name)) eqn:E; [split; [done|lia]|]. split; [|tauto].
  intros ->. split; [lia|done].
Qed.

(** ** The entries of a directory *)

Definition entry_at (l : list Z) (k : nat) : DirectoryEntry := bytes_entry (slice (16 * k) 16 l).
Definition entries_of_bytes (l : list Z) : list DirectoryEntry := entry_at l <$> seq 0 (length l / 16).
Definition entries_of (f : Z → list Z) (di : DiskInode) : list DirectoryEntry := entries_of_bytes (file_bytes f di).

Lemma lookup_entries l k :
  entries_of_bytes l !! k = if decide (k < length l / 16)%nat then Some (entry_at l k) else None.
Proof.
  unfold entries_of_bytes. rewrite list_lookup_fmap. case_decide as E.
  - by rewrite lookup_seq_lt.
  - by rewrite lookup_seq_ge by lia.
Qed.

Lemma length_entries l : length (entries_of_bytes l) = (length l / 16)%nat.
Proof. unfold entries_of_bytes. by rewrite length_fmap, length_seq. Qed.

Lemma length_file_bytes f di : length (file_bytes f di) = Z.to_nat (size di).
Proof. apply length_file_slice. Qed.

Lemma length_entries_of f di : 0 <= size di → length (entries_of f di) = Z.to_nat (size di / 16).
Proof.
  intros H. unfold entries_of. rewrite length_entries, length_file_bytes. rewrite Z2Nat.inj_div by lia. done.
Qed.

Lemma length_entry_name l k : (16 * k + 16 <= length l)%nat → length (entry_name (entry_at l k)) = 14%nat.
Proof.
  intros Hk. unfold entry_at, bytes_entry. cbn [entry_name]. apply length_slice. rewrite length_slice; lia.
Qed.

(** The search from entry [k] on. *)
Definition find_named (name : list Z) (l : list DirectoryEntry) : option (nat * DirectoryEntry) :=
  list_find (named name) l.
Definition lookup_result (r : option (nat * DirectoryEntry)) : option DirectoryLookup :=
  (λ p, mkDirectoryLookup (entry_inode p.2) (16 * Z.of_nat p.1)) <$> r.

(** ** Replacing one entry *)

Lemma length_overwrite o (new old : list Z) :
  (o <= length old)%nat → length (overwrite o new old) = Nat.max (length old) (o + length new).
Proof. intros H. unfold overwrite. rewrite !length_app, length_take, length_drop. lia. Qed.

Lemma lookup_overwrite o (new old : list Z) j :
  (o <= length old)%nat →
  overwrite o new old !! j =
    if decide (o <= j < o + length new)%nat then new !! (j - o)%nat else old !! j.
Proof.
  intros H. unfold overwrite. case_decide as E.
  - rewrite lookup_app_r, length_take, Nat.min_l by (rewrite ?length_take; lia). by rewrite lookup_app_l by lia.
  - destruct (decide (j < o)%nat) as [Hj|Hj].
    + rewrite lookup_app_l by (rewrite length_take; lia). by rewrite lookup_take_lt.
    + rewrite lookup_app_r, length_take, Nat.min_l by (rewrite ?length_take; lia).
      rewrite lookup_app_r by lia. rewrite lookup_drop. f_equal. lia.
Qed.

Lemma entry_at_overwrite k (new old : list Z) j :
  (16 * k <= length old)%nat → length new = 16%nat → (16 * j + 16 <= Nat.max (length old) (16 * k + 16))%nat →
  entry_at (overwrite (16 * k) new old) j = if decide (j = k) then bytes_entry new else entry_at old j.
Proof.
  intros Hk Hn Hj. unfold entry_at. case_decide as E; f_equal; apply list_eq; intros m.
  all: destruct (decide (m < 16)%nat) as [Hm|Hm].
  - rewrite lookup_slice, lookup_overwrite, decide_True by lia. f_equal. lia.
  - rewrite !lookup_ge_None_2; [done|lia|]. unfold slice. rewrite length_take. lia.
  - rewrite !lookup_slice, lookup_overwrite, decide_False by lia. done.
  - rewrite !lookup_ge_None_2; [done|unfold slice; rewrite length_take; lia..].
Qed.

Lemma entries_overwrite n k (new old : list Z) :
  length new = 16%nat → (length old = n * 16)%nat → (k <= n)%nat →
  entries_of_bytes (overwrite (16 * k) new old) =
    if decide (k < n)%nat then <[k := bytes_entry new]> (entries_of_bytes old)
    else entries_of_bytes old ++ [bytes_entry new].
Proof.
  intros Hn Hm Hk. assert (16 * k <= length old)%nat as Hk' by lia.
  assert (length old / 16 = n)%nat as Hdiv by (rewrite Hm; by apply Nat.div_mul).
  assert (length (entries_of_bytes old) = n) as Hlen by by rewrite length_entries.
  assert (length (overwrite (16 * k) new old) / 16 = Nat.max n (S k))%nat as Hlen'.
  { rewrite length_overwrite, Hn by done. rewrite <- (Nat.div_mul (Nat.max n (S k)) 16) by lia. f_equal. lia. }
  apply list_eq. intros j. rewrite lookup_entries, Hlen'.
  destruct (decide (k < n)%nat) as [E|E]; (case_decide as Ej; [rewrite entry_at_overwrite by lia|]).
  - destruct (decide (j = k)) as [->|Hne].
    + by rewrite list_lookup_insert_eq by lia.
    + rewrite list_lookup_insert_ne, lookup_entries, Hdiv, decide_True by lia. done.
  - rewrite lookup_ge_None_2; [done|]. rewrite length_insert. lia.
  - destruct (decide (j = k)) as [->|Hne].
    + rewrite lookup_app_r by lia. by replace (k - length (entries_of_bytes old))%nat with 0%nat by lia.
    + rewrite lookup_app_l, lookup_entries, Hdiv, decide_True by lia. done.
  - rewrite lookup_ge_None_2; [done|]. rewrite length_app, Hlen. cbn. lia.
Qed.

(** An entry that satisfies [P] neither before nor after does not matter. *)
Lemma list_find_insert_other {A} (P : A → Prop) `{∀ a, Decision (P a)} l k x y :
  l !! k = Some x → ¬ P x → ¬ P y → list_find P (<[k := y]> l) = list_find P l.
Proof.
  revert k. induction l as [|z l IH]; intros [|k] Hk Hnx Hny; simplify_eq/=; try done.
  - by rewrite !decide_False by done.
  - case_decide; [done|]. by rewrite IH.
Qed.

Lemma list_find_insert_here {A} (P : A → Prop) `{∀ a, Decision (P a)} l k y :
  (k < length l)%nat → list_find P l = None → P y → list_find P (<[k := y]> l) = Some (k, y).
Proof.
  intros Hk Hnone Hy. apply list_find_None in Hnone. rewrite Forall_lookup in Hnone. apply list_find_Some.
  split; [by apply list_lookup_insert_eq|]. split; [done|]. intros j z Hz Hj.
  rewrite list_lookup_insert_ne in Hz by lia. by eapply Hnone.
Qed.

Lemma list_find_snoc {A} (P : A → Prop) `{∀ a, Decision (P a)} l y :
  list_find P (l ++ [y]) =
  match list_find P l with Some r => Some r | None => if decide (P y) then Some (length l, y) else None end.
Proof.
  induction l as [|z l IH]; cbn; [by destruct (decide (P y))|]. destruct (decide (P z)); [done|].
  rewrite IH. destruct (list_find P l) as [[j w]|]; [done|]. by destruct (decide (P y)).
Qed.

(** The entry that [directory_link] writes. *)
Definition fresh_entry (name : list Z) (n : Z) : DirectoryEntry :=
  mkDirectoryEntry (u16 n) (splice 0 name (replicate (Z.to_nat DIRECTORY_NAME_SIZE) 0)).

Lemma fresh_entry_wf name n : (length name <= 14)%nat → bytes name → entry_wf (fresh_entry name n).
Proof.
  intros Hl Hb. split; [apply u16_range|]. cbn [entry_name fresh_entry].
  split; [by rewrite length_splice|]. apply bytes_splice; [done|apply bytes_replicate; split; lia].
Qed.

Lemma fresh_name name : (length name <= 14)%nat → splice 0 name (replicate 14 0) = name ++ replicate (14 - length name) 0.
Proof. intros Hl. unfold splice. cbn [take app Nat.add]. by rewrite drop_replicate. Qed.

Lemma holds_fresh_name name name' :
  (length name <= 14)%nat → (length name' <= 14)%nat → 0 ∉ name → 0 ∉ name' →
  holds_name name' (name ++ replicate (14 - length name) 0) → name' = name.
Proof.
  intros Hl Hl' H0 H0' [Ht Hend].
  destruct (decide (length name' <= length name)%nat) as [Hle|Hgt].
  - rewrite take_app_le in Ht by done. rewrite <- Ht. apply take_ge. destruct Hend as [?|Hz]; [lia|].
    destruct (decide (length name <= length name')%nat); [done|]. rewrite lookup_app_l in Hz by lia.
    exfalso. by apply H0, list_elem_of_lookup_2 with (length name').
  - exfalso. apply H0'. rewrite <- Ht, take_app, take_replicate. apply elem_of_app. right.
    apply elem_of_replicate. lia.
Qed.

Lemma fresh_holds name : (length name <= 14)%nat → holds_name name (name ++ replicate (14 - length name) 0).
Proof.
  intros Hl. split; [by rewrite take_app_length|]. destruct (decide (length name = 14%nat)); [by left|right].
  rewrite lookup_app_r, Nat.sub_diag by done. apply lookup_replicate_2. lia.
Qed.

(** ** The directory after an entry has been written *)

(** What [directory_link] does to the list of entries. *)
Definition linked (name : list Z) (n : Z) (l : list DirectoryEntry) : list DirectoryEntry :=
  match list_find (λ e, entry_inode e = 0) l with
  | Some (k, _) => <[k := fresh_entry name n]> l
  | None => l ++ [fresh_entry name n]
  end.

(** The place of the fresh entry: the first free one, or behind the last. *)
Definition free_place (l : list DirectoryEntry) (k : nat) : Prop :=
  ((∃ e, l !! k = Some e ∧ entry_inode e = 0) ∨ k = length l) ∧
  ∀ j e, (j < k)%nat → l !! j = Some e → entry_inode e ≠ 0.

Lemma linked_place (name : list Z) (n : Z) l :
  ∃ k, free_place l k ∧ linked name n l !! k = Some (fresh_entry name n) ∧
    (∀ j, j ≠ k → linked name n l !! j = l !! j) ∧
    (list_find (named name) l = None → named name (fresh_entry name n) →
      list_find (named name) (linked name n l) = Some (k, fresh_entry name n)).
Proof.
  unfold linked. destruct (list_find (λ e, entry_inode e = 0) l) as [[k e]|] eqn:Ef.
  - apply list_find_Some in Ef as (He & H0 & Hfirst). exists k. split; [split; [left; by exists e|]|].
    { intros j e' Hj He'. by eapply Hfirst. }
    split; [apply list_lookup_insert_eq; by eapply lookup_lt_Some|]. split; [intros j Hj; by apply list_lookup_insert_ne|].
    intros Hnone Hself. apply list_find_insert_here; [by eapply lookup_lt_Some|done|done].
  - apply list_find_None in Ef. rewrite Forall_lookup in Ef. exists (length l). split; [split; [by right|]|].
    { intros j e' _ He'. by eapply Ef. }
    split; [by rewrite lookup_app_r, Nat.sub_diag by done|]. split.
    + intros j Hj. destruct (decide (j < length l)%nat); [by apply lookup_app_l|].
      rewrite lookup_app_r, (lookup_ge_None_2 l) by lia. by destruct (j - length l)%nat eqn:?; [lia|].
    + intros Hnone Hself. by rewrite list_find_snoc, Hnone, decide_True.
Qed.

Lemma fresh_named name n : (length name <= 14)%nat → 0 < n <= 65535 → named name (fresh_entry name n).
Proof.
  intros Hl Hn. split; cbn [entry_inode entry_name fresh_entry].
  - rewrite u16_small; lia.
  - change (Z.to_nat DIRECTORY_NAME_SIZE) with 14%nat. rewrite fresh_name by done. by apply fresh_holds.
Qed.

(** Every other name is found as before. *)
Lemma linked_find (name : list Z) (n : Z) l (name' : list Z) :
  (length name <= 14)%nat → (0 ∉ name) → (0 ∉ name') → (length name' <= 14)%nat → name' ≠ name →
  list_find (named name) l = None → list_find (named name') (linked name n l) = list_find (named name') l.
Proof.
  intros H1 H2 H3 H4 H5 Hnone.
  assert (¬ named name' (fresh_entry name n)) as Hother.
  { intros [_ H]. apply H5. cbn [entry_name fresh_entry] in H.
    change (Z.to_nat DIRECTORY_NAME_SIZE) with 14%nat in H. rewrite fresh_name in H by done.
    by apply holds_fresh_name in H. }
  unfold linked. destruct (list_find (λ e, entry_inode e = 0) l) as [[k e]|] eqn:Ef.
  - apply list_find_Some in Ef as (He & H0 & _). by apply (list_find_insert_other _ _ _ e); [done|intros [? _]|].
  - rewrite list_find_snoc. destruct (list_find (named name') l) as [r|]; [done|]. by apply decide_False.
Qed.

Section directory.
Context {T : Type} `{HT : IBlockStore T} (ST : BlockStoreSpec T).
Context (con : Console) (sb : SuperBlock).
Context (Hg : geometry sb) (Hsize : sb_size sb <= bs_blocks).
Implicit Types (hs : list Z) (s : Fs T) (f : Z → list Z) (tbl : list Inode) (i k : nat) (name entry : list Z).
Abbreviation at_disk := (at_disk ST con sb).
Abbreviation step := (step ST con sb).

(** A directory in slot [i]. *)
Context (tbl : list Inode) (hs : list Z) (i : nat) (x : Inode) (f : Z → list Z).
Context (Hx : tbl !! i = Some x) (Hinv : inode_inv sb f (disk x)) (Hlt : (length hs < bs_limit)%nat).
Abbreviation di := (disk x).
Abbreviation entries := (entries_of f di).

Lemma dir_size : 0 <= size di <= 71680.
Proof.
  pose proof (ii_size _ _ _ Hinv) as Hm. unfold max_bytes, MAXFILE, FSBLOCK_SIZE in Hm.
  destruct (ii_wf _ _ _ Hinv) as (_ & _ & _ & _ & Hs & _). unfold is_u32 in Hs. lia.
Qed.

Lemma lookup_entry k : 16 * Z.of_nat k + 16 <= size di → entries !! k = Some (entry_at (file_bytes f di) k).
Proof.
  intros Hk. unfold entries_of. rewrite lookup_entries, decide_True; [done|].
  rewrite length_file_bytes. pose proof dir_size. apply Nat.div_le_lower_bound; lia.
Qed.

Lemma wp_read_entry s k entry (Q : bool * list Z → Fs T → Prop) :
  at_disk tbl hs s f → length entry = 16%nat → 16 * Z.of_nat k + 16 <= size di →
  (∀ s' l, step tbl hs s s' f → length l = 16%nat → bytes_entry l = entry_at (file_bytes f di) k → Q (true, l) s') →
  wp (read_entry i (16 * Z.of_nat k) entry) s Q.
Proof using Hg Hsize Hx Hinv Hlt.
  intros Ha Hl Hk HQ. pose proof dir_size. unfold read_entry. wp_step.
  apply (wp_read_data ST con sb Hg Hsize tbl hs s f i x); [done|done|done|done|unfold is_u32; lia|unfold is_u32; lia|].
  intros s' Hs'. replace (16 * Z.of_nat k >? size di) with false by lia. cbn zeta. rewrite Z.min_l by lia.
  wp_step. set (l := file_slice f di (16 * Z.of_nat k) 16).
  assert (length l = 16%nat) as Hll by apply length_file_slice.
  assert (splice 0 l entry = l) as ->.
  { unfold splice. cbn [take app]. rewrite Hll, drop_ge by lia. apply app_nil_r. }
  apply HQ; [done|done|]. unfold l, entry_at. rewrite file_slice_bytes by lia.
  unfold slice. do 3 f_equal. lia.
Qed.

Lemma no_entry k : ¬ 16 * Z.of_nat k + 16 <= size di → (length entries <= k)%nat.
Proof. intros Hk. pose proof dir_size. rewrite length_entries_of by lia. lia. Qed.

(** None of the entries before [k] satisfies [P]. *)
Definition none_before (P : DirectoryEntry → Prop) k : Prop := ∀ j e, (j < k)%nat → entries !! j = Some e → ¬ P e.

Lemma none_before_S P k :
  none_before P k → 16 * Z.of_nat k + 16 <= size di → ¬ P (entry_at (file_bytes f di) k) → none_before P (S k).
Proof.
  intros Hb Hk HP j e Hj He. destruct (decide (j = k)) as [->|]; [|apply (Hb j); [lia|done]].
  rewrite lookup_entry in He by done. by injection He as <-.
Qed.

Lemma find_none P `{∀ e, Decision (P e)} k : none_before P k → (length entries <= k)%nat → list_find P entries = None.
Proof.
  intros Hb Hl. apply list_find_None, Forall_lookup. intros j e He. apply (Hb j); [|done].
  apply lookup_lt_Some in He. lia.
Qed.

Lemma find_here P `{∀ e, Decision (P e)} k :
  none_before P k → 16 * Z.of_nat k + 16 <= size di → P (entry_at (file_bytes f di) k) →
  list_find P entries = Some (k, entry_at (file_bytes f di) k).
Proof.
  intros Hb Hk HP. apply list_find_Some. split; [by apply lookup_entry|]. split; [done|].
  intros j e He Hj. by apply (Hb j).
Qed.

Lemma entry_name_ok k :
  16 * Z.of_nat k + 16 <= size di → length (entry_name (entry_at (file_bytes f di) k)) = 14%nat.
Proof. intros Hk. pose proof dir_size. apply length_entry_name. rewrite length_file_bytes. lia. Qed.

(** ** directory_lookup *)
Lemma wp_directory_lookup_loop name fuel s k entry (Q : option DirectoryLookup → Fs T → Prop) :
  at_disk tbl hs s f → length entry = 16%nat → (length name <= 14)%nat →
  size di / 16 < Z.of_nat k + Z.of_nat fuel → Z.of_nat k <= size di / 16 → none_before (named name) k →
  (∀ s', step tbl hs s s' f → Q (lookup_result (list_find (named name) entries)) s') →
  wp (lookup_loop fuel i name entry (16 * Z.of_nat k)) s Q.
Proof using Hg Hsize Hx Hinv Hlt.
  intros Ha Hl Hn. revert s k entry Ha Hl. induction fuel as [|fuel IH];
    intros s k entry Ha Hl Hf Hk Hb HQ; [lia|].
  cbn [lookup_loop]. pose proof dir_size. wp_step. eapply wp_slot; [exact Ha|exact Hx|].
  destruct (16 * Z.of_nat k + 16 <=? size di) eqn:E.
  2:{ wp_step. rewrite (find_none _ k) in HQ by (done || apply no_entry; lia). apply HQ. by apply step_refl. }
  wp_step. apply wp_read_entry; [done|done|lia|]. intros s1 l Hs1 Hl1 El. pose proof Hs1 as [Ha1 _].
  cbn [negb]. rewrite El. set (e := entry_at (file_bytes f di) k) in *.
  rewrite u32_small by lia. replace (16 * Z.of_nat k + 16) with (16 * Z.of_nat (S k)) by lia.
  assert (¬ named name e → wp (lookup_loop fuel i name l (16 * Z.of_nat (S k))) s1 Q) as Hnext.
  { intros Hne. apply IH; [done|done|lia|lia| |].
    - apply none_before_S; [done|lia|done].
    - intros s2 Hs2. apply HQ. by eapply step_trans. }
  destruct (entry_inode e =? 0) eqn:E0.
  { apply Hnext. intros [H0 _]. lia. }
  wp_step. eapply wp_defined; [apply is_name_equal_spec; [by apply entry_name_ok; lia|done]|].
  case_bool_decide as Hh; [|apply Hnext; by intros [_ ?]]. wp_step.
  rewrite (find_here _ k) in HQ; [|done|lia|split; [fold e; lia|done]]. by apply HQ.
Qed.

Lemma wp_directory_lookup name s (Q : option DirectoryLookup → Fs T → Prop) :
  at_disk tbl hs s f →
  (∀ s', step tbl hs s s' f →
    Q (if (type di =? kDirectory) && is_valid_name name then lookup_result (list_find (named name) entries)
       else None) s') →
  wp (directory_lookup i name) s Q.
Proof using Hg Hsize Hx Hinv Hlt.
  intros Ha HQ. unfold directory_lookup. wp_step. eapply wp_slot; [exact Ha|exact Hx|].
  destruct (type di =? kDirectory); cbn [negb orb andb] in *; [|wp_step; apply HQ; by apply step_refl].
  destruct (is_valid_name name) eqn:E; cbn [negb orb] in *; [|wp_step; apply HQ; by apply step_refl].
  apply is_valid_name_spec in E as [[_ Hn] _]. pose proof dir_size. unfold directory_fuel.
  apply (wp_directory_lookup_loop name _ s 0); [done|done|done|lia|lia| |done]. intros j e Hj. lia.
Qed.

(** ** directory_link *)
Lemma wp_link_loop name fuel s k entry free_offset (Q : option (option Z) → Fs T → Prop) :
  at_disk tbl hs s f → length entry = 16%nat → (length name <= 14)%nat →
  size di / 16 < Z.of_nat k + Z.of_nat fuel → Z.of_nat k <= size di / 16 → none_before (named name) k →
  match free_offset with
  | Some o => ∃ j e, o = 16 * Z.of_nat j ∧ list_find (λ e, entry_inode e = 0) entries = Some (j, e)
  | None => none_before (λ e, entry_inode e = 0) k
  end →
  (∀ s', step tbl hs s s' f →
    Q (match list_find (named name) entries with
       | Some _ => None
       | None => Some ((λ p, 16 * Z.of_nat p.1) <$> list_find (λ e, entry_inode e = 0) entries)
       end) s') →
  wp (link_loop fuel i name entry free_offset (16 * Z.of_nat k)) s Q.
Proof using Hg Hsize Hx Hinv Hlt.
  intros Ha Hl Hn. revert s k entry free_offset Ha Hl. induction fuel as [|fuel IH];
    intros s k entry free_offset Ha Hl Hf Hk Hb Hfree HQ; [lia|].
  cbn [link_loop]. pose proof dir_size. wp_step. eapply wp_slot; [exact Ha|exact Hx|].
  destruct (16 * Z.of_nat k + 16 <=? size di) eqn:E.
  2:{ wp_step. rewrite (find_none (named name) k) in HQ by (done || apply no_entry; lia).
      destruct free_offset as [o|].
      - destruct Hfree as (j & e & -> & Hj). rewrite Hj in HQ. apply HQ. by apply step_refl.
      - rewrite (find_none _ k) in HQ by (done || apply no_entry; lia). apply HQ. by apply step_refl. }
  wp_step. apply wp_read_entry; [done|done|lia|]. intros s1 l Hs1 Hl1 El. pose proof Hs1 as [Ha1 _].
  cbn [negb]. rewrite El. set (e := entry_at (file_bytes f di) k) in *.
  rewrite u32_small by lia. replace (16 * Z.of_nat k + 16) with (16 * Z.of_nat (S k)) by lia.
  destruct (entry_inode e =? 0) eqn:E0.
  { apply IH; [done|done|lia|lia|apply none_before_S; [done|lia|intros [H0 _]; fold e in H0; lia]| |].
    - destruct free_offset as [o|]; [done|]. exists k, e. split; [done|].
      apply find_here; [done|lia|fold e; lia].
    - intros s2 Hs2. apply HQ. by eapply step_trans. }
  wp_step. eapply wp_defined; [apply is_name_equal_spec; [by apply entry_name_ok; lia|done]|].
  case_bool_decide as Hh.
  { wp_step. rewrite (find_here (named name) k) in HQ; [|done|lia|split; [fold e; lia|done]]. by apply HQ. }
  apply IH; [done|done|lia|lia|apply none_before_S; [done|lia|by intros [_ ?]]| |].
  - destruct free_offset as [o|]; [done|]. apply none_before_S; [done|lia|fold e; lia].
  - intros s2 Hs2. apply HQ. by eapply step_trans.
Qed.

(** Writing the fresh entry over the first free one, or behind the last. *)
Lemma entries_linked name n source f' di' :
  source = entry_bytes (fresh_entry name n) → (length name <= 14)%nat → bytes name → size di `mod` 16 = 0 →
  let offset := match list_find (λ e, entry_inode e = 0) entries with
                | Some p => 16 * Z.of_nat p.1 | None => size di end in
  file_bytes f' di' = overwrite (Z.to_nat offset) source (file_bytes f di) →
  entries_of f' di' = linked name n entries.
Proof.
  intros -> Hl Hb Hm offset Hfb. pose proof dir_size. pose proof (fresh_entry_wf name n Hl Hb) as Hwf.
  set (cnt := Z.to_nat (size di / 16)).
  assert (length (file_bytes f di) = cnt * 16)%nat as Hlen by (rewrite length_file_bytes; unfold cnt; lia).
  assert (∃ k, offset = 16 * Z.of_nat k ∧ (k <= cnt)%nat ∧
    linked name n entries = if decide (k < cnt)%nat then <[k := fresh_entry name n]> entries else entries ++ [fresh_entry name n])
    as (k & Ek & Hk & ->).
  { unfold offset, linked. destruct (list_find (λ e, entry_inode e = 0) entries) as [[k e]|] eqn:Ef.
    - apply list_find_Some in Ef as (He & _). apply lookup_lt_Some in He. rewrite length_entries_of in He by lia.
      fold cnt in He. exists k. cbn. split; [done|]. split; [lia|]. by rewrite decide_True.
    - exists cnt. split; [unfold cnt; lia|]. split; [done|]. by rewrite decide_False by lia. }
  unfold entries_of. rewrite Hfb, Ek. replace (Z.to_nat (16 * Z.of_nat k)) with (16 * k)%nat by lia.
  rewrite (entries_overwrite cnt) by (done || by apply length_entry_bytes). by rewrite entry_roundtrip.
Qed.

(** What [directory_link] leaves: the name was there already, or the disk or
    the directory is full, or the entries have become [linked]. *)
Definition link_outcome name n (ok : bool) f' di' : Prop :=
  match list_find (named name) entries with
  | Some _ => ok = false ∧ f' = f ∧ di' = di
  | None =>
      if ok then entries_of f' di' = linked name n entries
      else (∀ c, 0 <= c < sb_size sb → used sb f' c = true) ∨ max_bytes < 16 + size di
  end.

Context (Hmeta : metadata_used sb f) (Hnum : 0 <= inode_number x < ninodes sb) (Hlt2 : (S (length hs) < bs_limit)%nat).

Lemma wp_directory_link name n s :
  at_disk tbl hs s f → type di = kDirectory → is_valid_name name = true → bytes name → 0 < n <= 65535 →
  size di `mod` 16 = 0 →
  wp (directory_link i name n) s (λ ok s', ∃ f' di',
    step (<[i := set_disk di' x]> tbl) hs s s' f' ∧ inode_inv sb f' di' ∧ type di' = kDirectory ∧
    link_outcome name n ok f' di').
Proof using Hg Hsize Hx Hinv Hlt Hmeta Hnum Hlt2.
  intros Ha Hty Hv Hb Hn Hm. unfold directory_link. wp_step. eapply wp_slot; [exact Ha|exact Hx|].
  rewrite Hty, Z.eqb_refl, Hv. cbn [negb orb]. replace ((n =? 0) || (n >? 65535)) with false by lia.
  apply is_valid_name_spec in Hv as [[_ Hl] _]. pose proof dir_size.
  assert (<[i := set_disk di x]> tbl = tbl) as Hid.
  { replace (set_disk di x) with x by by destruct x. by apply list_insert_id. }
  wp_step. unfold directory_fuel.
  apply (wp_link_loop name _ s 0 (replicate 16 0) None); [done|done|done|lia|lia|intros j e Hj; lia|intros j e Hj; lia|].
  intros s1 Hs1. pose proof Hs1 as [Ha1 _]. unfold link_outcome. destruct (list_find (named name) entries) as [p|] eqn:Ef.
  { wp_step. exists f, di. rewrite Hid. done. }
  wp_step. eapply wp_slot; [exact Ha1|exact Hx|].
  set (source := entry_bytes _). set (offset := match _ <$> _ with Some o => o | None => _ end).
  assert (offset = match list_find (λ e, entry_inode e = 0) entries with
                   | Some p => 16 * Z.of_nat p.1 | None => size di end) as Eo.
  { unfold offset. by destruct (list_find (λ e, entry_inode e = 0) entries) as [[k e]|]. }
  assert (0 <= offset <= size di) as Hoff.
  { rewrite Eo. destruct (list_find (λ e, entry_inode e = 0) entries) as [[k e]|] eqn:E; [|lia].
    apply list_find_Some in E as (He & _). apply lookup_lt_Some in He. rewrite length_entries_of in He by lia. cbn. lia. }
  pose proof (fresh_entry_wf name n Hl Hb) as Hwf. pose proof (length_entry_bytes _ Hwf) as Hsl. change (length source = 16%nat) in Hsl.
  wp_step. eapply wp_mono.
  { apply (wp_write_data ST con sb Hg Hsize tbl hs s1 f i x source offset 16 Ha1 Hx Hinv Hmeta Hnum Hlt2);
      [unfold is_u32; lia|unfold is_u32; lia|rewrite Hsl; lia|by apply bytes_entry_bytes]. }
  intros r s2. cbn beta. case_decide as Hfit.
  2:{ intros [-> ->]. wp_step. exists f, di. rewrite Hid. split; [done|]. split; [done|]. split; [done|].
      right. unfold max_bytes, MAXFILE, FSBLOCK_SIZE in *. lia. }
  intros (dn & f' & di' & -> & Hd & We & Hfull). wp_step. exists f', di'.
  split; [eapply step_trans; [exact Hs1|apply We]|]. split; [apply We|]. split.
  { by rewrite (we_fields _ _ _ _ _ _ _ _ _ _ _ _ _ _ _ We). }
  destruct (dn =? 16) eqn:E; [|left; destruct Hfull; [lia|done]].
  apply (entries_linked name n source f' di'); [done|done|done|done|]. rewrite <- Eo.
  rewrite (we_bytes _ _ _ _ _ _ _ _ _ _ _ _ _ _ _ We). f_equal. apply take_ge. lia.
Qed.
End directory.
