(* ===== verification/PathSpec.v ===== *)
(** * Path resolution as a search in the directory tree

    [walk] of include/path.cpp follows the components of a path through the
    directories on the disk; it gives back every reference it takes but the one
    it returns. *)
From stdpp Require Import list_numbers.
From S2P Require Import Prelude BlockStore StoreRefinement FsLayout FileSystem FileSystemSpec Inode InodeMap.
From S2P Require Import InodeSpec FileBytes InodeData InodeTable Directory DirectorySpec Path.

(** ** Components *)

(** The path cut at every slash. *)
Fixpoint split (path : list Z) : list Z * list (list Z) :=
  match path with
  | [] => ([], [])
  | c :: path => let '(w, ws) := split path in if c =? slash then ([], w :: ws) else (c :: w, ws)
  end.

(** The non-empty pieces. *)
Definition components (path : list Z) : list (list Z) :=
  let '(w, ws) := split path in filter (λ w, w ≠ []) (w :: ws).

Lemma components_slash path : components (slash :: path) = components path.
Proof. unfold components. cbn [split]. by destruct (split path) as [w ws]. Qed.

Lemma take_component_split rest :
  take_component rest = (let '(w, ws) := split rest in
    (w, drop (length w) rest)) ∧
  components (drop (length (split rest).1) rest) = filter (λ w, w ≠ []) (split rest).2.
Proof.
  induction rest as [|c rest [IH1 IH2]]; [done|]. cbn [take_component split].
  destruct (split rest) as [w ws] eqn:E. destruct (c =? slash) eqn:Ec; cbn [negb].
  - split; [done|]. cbn [fst snd length drop]. apply Z.eqb_eq in Ec as ->.
    rewrite components_slash. unfold components. by rewrite E.
  - rewrite IH1. cbn [length drop fst snd]. done.
Qed.

Lemma skip_slashes_components rest : components (skip_slashes rest) = components rest.
Proof.
  induction rest as [|c rest IH]; [done|]. cbn [skip_slashes]. destruct (c =? slash) eqn:E; [|done].
  apply Z.eqb_eq in E as ->. by rewrite components_slash.
Qed.

Lemma skip_slashes_head rest c r : skip_slashes rest = c :: r → c ≠ slash.
Proof.
  induction rest as [|d rest IH]; [done|]. cbn [skip_slashes]. destruct (d =? slash) eqn:E; [done|].
  intros [= <- <-]. lia.
Qed.

Lemma skip_slashes_length rest : (length (skip_slashes rest) <= length rest)%nat.
Proof. induction rest as [|d rest IH]; [done|]. cbn [skip_slashes]. destruct (d =? slash); cbn; lia. Qed.

(** [next_component] takes one component off the path. *)
Lemma next_component_spec rest :
  match components rest with
  | [] => (next_component rest).1 = []
  | c :: cs => (next_component rest).1 = c ∧ c ≠ [] ∧ components (next_component rest).2 = cs ∧
      (length (next_component rest).2 < length rest)%nat
  end.
Proof.
  unfold next_component. pose proof (skip_slashes_length rest) as Hlen. rewrite <- skip_slashes_components.
  destruct (take_component_split (skip_slashes rest)) as [-> Hc].
  destruct (skip_slashes rest) as [|c r] eqn:E; [done|]. apply skip_slashes_head in E.
  unfold components at 1. cbn [split]. cbn [split] in Hc. destruct (split r) as [w ws].
  replace (c =? slash) with false in * by lia. rewrite filter_cons_True by done.
  split; [done|]. split; [done|]. split; [exact Hc|]. cbn in *. rewrite length_drop. lia.
Qed.

Lemma has_component_spec rest : has_component rest = negb (bool_decide (components rest = [])).
Proof.
  induction rest as [|c rest IH]; [done|]. cbn [has_component]. destruct (c =? slash) eqn:E; cbn [negb].
  - apply Z.eqb_eq in E as ->. by rewrite components_slash.
  - unfold components. cbn [split]. destruct (split rest) as [w ws]. rewrite E, filter_cons_True by done. done.
Qed.

(** ** References *)

(** The number of empty slots of the inode table. *)
Definition is_free (x : Inode) : Z := if inode_refcnt x =? 0 then 1 else 0.
Definition free_slots (tbl : list Inode) : Z := foldr (λ x n, is_free x + n) 0 tbl.

Lemma free_slots_insert tbl i x y :
  tbl !! i = Some x → free_slots (<[i := y]> tbl) = free_slots tbl - is_free x + is_free y.
Proof.
  revert i. induction tbl as [|z tbl IH]; intros [|i] Hx; cbn in Hx; try done.
  - injection Hx as ->. cbn. lia.
  - specialize (IH i Hx). change (free_slots (<[S i := y]> (z :: tbl))) with (is_free z + free_slots (<[i := y]> tbl)).
    change (free_slots (z :: tbl)) with (is_free z + free_slots tbl). lia.
Qed.

Lemma free_slots_full tbl : (∀ i x, tbl !! i = Some x → inode_refcnt x ≠ 0) → free_slots tbl = 0.
Proof.
  induction tbl as [|z tbl IH]; intros H; [done|]. change (free_slots (z :: tbl)) with (is_free z + free_slots tbl). unfold is_free.
  replace (inode_refcnt z =? 0) with false by (specialize (H 0%nat z eq_refl); lia).
  rewrite IH; [done|]. intros i x Hx. by apply (H (S i)).
Qed.

Lemma references_nonneg tbl n : table_ok tbl → 0 <= references tbl n.
Proof.
  intros Hok. unfold references. destruct (list_find (live n) tbl) as [[i x]|] eqn:E; [|done].
  apply list_find_Some in E as (Hx & _). apply (tok_refcnt _ Hok _ _ Hx).
Qed.

(** One for [true]. *)
Definition one (b : bool) : Z := if b then 1 else 0.

Section references.
Context (sb : SuperBlock).

(** The slots in use show the inodes on the disk. *)
Definition coherent (tbl : list Inode) (f : Z → list Z) : Prop :=
  ∀ i x, tbl !! i = Some x → 0 < inode_refcnt x → disk x = inode_at sb f (inode_number x).

Lemma coherent_insert tbl f i y :
  coherent tbl f → (0 < inode_refcnt y → disk y = inode_at sb f (inode_number y)) → coherent (<[i := y]> tbl) f.
Proof.
  intros Hc Hy j z [(<- & <- & _)|(_ & Hz)]%list_lookup_insert_Some; [done|]. by eapply Hc.
Qed.

Lemma get_effect tbl f n r tbl' :
  table_ok tbl → coherent tbl f → get_outcome sb tbl f n r tbl' →
  table_ok tbl' ∧ coherent tbl' f ∧
  match r with
  | Some i => (∃ y, tbl' !! i = Some y ∧ live n y) ∧
      (∀ m, references tbl' m = references tbl m + one (m =? n)) ∧
      free_slots tbl' = free_slots tbl - one (references tbl n =? 0)
  | None => tbl' = tbl ∧ free_slots tbl = 0
  end.
Proof.
  intros Hok Hc Hget. destruct (get_outcome_ok sb _ _ _ _ _ Hok Hget) as [Hok' Hrefs]. split; [done|].
  assert (∀ i, r = Some i → ∀ m, references tbl' m = references tbl m + one (m =? n)) as Hrefs'.
  { intros i -> m. rewrite Hrefs. unfold one. destruct (m =? n) eqn:E; [rewrite decide_True|rewrite decide_False]; try done.
    - split; [lia|done].
    - intros [-> _]. lia. }
  destruct Hget as [i x Hx Hl Hmax|i x Hnone Hx H0 Hfirst|Hall].
  - pose proof (lookup_lt_Some _ _ _ Hx). pose proof Hl as [Hr Hn]. split.
    { apply coherent_insert; [done|]. intros _. cbn. by apply (Hc i). }
    split; [eexists; split; [by apply list_lookup_insert_eq|split; [cbn; lia|done]]|]. split; [by eapply Hrefs'|].
    rewrite (free_slots_insert _ _ _ _ Hx), (references_live tbl n i x) by done.
    unfold is_free, one. cbn. replace (inode_refcnt x =? 0) with false by lia.
    replace (inode_refcnt x + 1 =? 0) with false by lia. lia.
  - pose proof (lookup_lt_Some _ _ _ Hx). split; [by apply coherent_insert|].
    split; [eexists; split; [by apply list_lookup_insert_eq|done]|]. split; [by eapply Hrefs'|].
    rewrite (free_slots_insert _ _ _ _ Hx), (references_none tbl n) by done. unfold is_free, one. rewrite H0. cbn. lia.
  - split; [done|]. split; [done|]. apply free_slots_full. intros i x Hx. by apply (Hall i x Hx).
Qed.

Lemma put_effect tbl f n i x :
  table_ok tbl → coherent tbl f → tbl !! i = Some x → live n x →
  let tbl' := <[i := set_refcnt (Z.max 0 (inode_refcnt x - 1)) x]> tbl in
  table_ok tbl' ∧ coherent tbl' f ∧ (∀ m, references tbl' m = references tbl m - one (m =? n)) ∧
  free_slots tbl' = free_slots tbl + one (references tbl n =? 1).
Proof.
  intros Hok Hc Hx Hl tbl'. pose proof Hl as [Hr Hn]. pose proof (tok_refcnt _ Hok _ _ Hx).
  assert (table_ok tbl') as Hok'.
  { eapply table_ok_insert; [done|done|cbn; lia|]. intros j z Hj Hz _ Hlz. apply Hj.
    cbn in Hlz. rewrite Hn in Hlz. by eapply (tok_unique _ Hok n). }
  split; [done|]. split.
  { apply coherent_insert; [done|]. intros _. cbn. by apply (Hc i). }
  split.
  - intros m. unfold tbl'. rewrite (references_insert tbl i x _ m); try done; cbn.
    + rewrite Hn. unfold one. destruct (m =? n) eqn:E; [rewrite decide_True by lia|rewrite decide_False by lia; lia].
      rewrite decide_False by lia. replace m with n by lia. rewrite (references_live tbl n i x) by done. lia.
    + destruct (decide (inode_refcnt x = 1)); [right; lia|left; split; [cbn; lia|done]].
    + by right.
    + lia.
  - unfold tbl'. rewrite (free_slots_insert _ _ _ _ Hx), (references_live tbl n i x) by done.
    unfold is_free, one. cbn. destruct (inode_refcnt x =? 1) eqn:E1, (inode_refcnt x =? 0) eqn:E0,
      (Z.max 0 (inode_refcnt x - 1) =? 0) eqn:E2; lia.
Qed.
End references.

(** ** The directory tree on the disk *)
Section tree.
Context (sb : SuperBlock) (f : Z → list Z).

(** The inode that [name] has in directory [n]. *)
Definition dir_find (n : Z) (name : list Z) : option Z :=
  let di := inode_at sb f n in
  if (type di =? kDirectory) && is_valid_name name then
    (λ p, entry_inode p.2) <$> list_find (named name) (entries_of f di)
  else None.

(** The inode at the end of a list of names. *)
Fixpoint lookup_path (n : Z) (names : list (list Z)) : option Z :=
  match names with
  | [] => Some n
  | name :: names => m ← dir_find n name; lookup_path m names
  end.

(** The inodes are consistent, and directories refer to inodes there are. *)
Definition tree_ok : Prop := ∀ n, 0 < n < ninodes sb →
  inode_inv sb f (inode_at sb f n) ∧
  (type (inode_at sb f n) = kDirectory →
   ∀ e, e ∈ entries_of f (inode_at sb f n) → 0 <= entry_inode e < ninodes sb).

(** Where [walk] ends: an inode, and the last name if it stops before it. *)
Fixpoint walk_spec (stop : bool) (n : Z) (names : list (list Z)) : option (Z * option (list Z)) :=
  match names with
  | [] => if stop then None else Some (n, None)
  | name :: names =>
      if stop && bool_decide (names = []) then
        if type (inode_at sb f n) =? kDirectory then Some (n, Some name) else None
      else m ← dir_find n name; walk_spec stop m names
  end.

Lemma walk_spec_path n names : walk_spec false n names = (λ m, (m, None)) <$> lookup_path n names.
Proof.
  revert n. induction names as [|name names IH]; intros n; [done|]. cbn.
  destruct (dir_find n name) as [m|]; [|done]. cbn. apply IH.
Qed.

Lemma walk_spec_parent n names :
  walk_spec true n names =
  match last names with
  | None => None
  | Some name =>
      p ← lookup_path n (removelast names);
      if type (inode_at sb f p) =? kDirectory then Some (p, Some name) else None
  end.
Proof.
  revert n. induction names as [|name names IH]; intros n; [done|].
  destruct names as [|name' names]; [done|].
  change (last (name :: name' :: names)) with (last (name' :: names)).
  change (removelast (name :: name' :: names)) with (name :: removelast (name' :: names)).
  cbn [walk_spec lookup_path]. rewrite bool_decide_eq_false_2 by done. cbn [andb].
  destruct (dir_find n name) as [m|]; cbn [mbind option_bind]; [apply IH|].
  by destruct (last (name' :: names)).
Qed.

Lemma dir_find_range n name m : tree_ok → 0 < n < ninodes sb → dir_find n name = Some m → 0 < m < ninodes sb.
Proof.
  intros Ht Hn Hf. unfold dir_find in Hf. destruct (type (inode_at sb f n) =? kDirectory) eqn:E; [|done].
  destruct (is_valid_name name); [|done]. cbn [andb] in Hf.
  apply fmap_Some in Hf as ([k e] & Hfind & ->). apply list_find_Some in Hfind as (He & [Hne _] & _).
  destruct (Ht n Hn) as [_ Hr]. specialize (Hr ltac:(lia) e (list_elem_of_lookup_2 _ _ _ He)). cbn. lia.
Qed.
End tree.

Section walk.
Context {T : Type} `{HT : IBlockStore T} (ST : BlockStoreSpec T).
Context (con : Console) (sb : SuperBlock).
Context (Hg : geometry sb) (Hsize : sb_size sb <= bs_blocks).
Context (f : Z → list Z) (Htree : tree_ok sb f) (hs : list Z) (Hlt : (length hs < bs_limit)%nat).
Context (tbl0 : list Inode) (Hok0 : table_ok tbl0) (Hrefs : ∀ m, references tbl0 m < INT_MAX - 1).
Abbreviation at_disk := (at_disk ST con sb).
Abbreviation step := (step ST con sb).

(** [tbl] holds the references of [tbl0] and one more to inode [n], which is in slot [k]. *)
Definition holding (tbl : list Inode) (k : nat) (n : Z) : Prop :=
  table_ok tbl ∧ coherent sb tbl f ∧ (∃ x, tbl !! k = Some x ∧ live n x) ∧
  (∀ m, references tbl m = references tbl0 m + one (m =? n)) ∧
  free_slots tbl = free_slots tbl0 - one (references tbl0 n =? 0).

(** [tbl] holds the references of [tbl0]. *)
Definition released (tbl : list Inode) : Prop :=
  table_ok tbl ∧ coherent sb tbl f ∧ (∀ m, references tbl m = references tbl0 m) ∧
  free_slots tbl = free_slots tbl0.

Lemma holding_get tbl n k tbl' :
  coherent sb tbl0 f → tbl = tbl0 → get_outcome sb tbl f n (Some k) tbl' → holding tbl' k n.
Proof using Hok0.
  clear - Hok0. intros Hc -> Hget. destruct (get_effect sb _ _ _ _ _ Hok0 Hc Hget) as (H1 & H2 & H3 & H4 & H5). done.
Qed.

Lemma refcnt_bound tbl (b : Z → Z) i x :
  table_ok tbl → (∀ m, references tbl m = references tbl0 m + b m) → (∀ m, b m <= 1) →
  tbl !! i = Some x → inode_refcnt x < INT_MAX.
Proof using Hrefs.
  clear - Hrefs. intros Hok Hr Hb Hx. destruct (decide (0 < inode_refcnt x)) as [Hp|Hp]; [|unfold INT_MAX; lia].
  rewrite <- (references_live tbl (inode_number x) i x) by done. rewrite Hr.
  specialize (Hrefs (inode_number x)). specialize (Hb (inode_number x)). lia.
Qed.

Lemma one_le b : one b <= 1.
Proof. by destruct b. Qed.

(** Letting go of the inode. *)
Lemma wp_release tbl k n s (Q : InodeRef → Fs T → Prop) :
  at_disk tbl hs s f → holding tbl k n →
  (∀ tbl' s', step tbl' hs s s' f → released tbl' → Q None s') → wp (InodeRef_reset (Some k)) s Q.
Proof using HT Hsize Hlt.
  intros Ha (Hok & Hc & (x & Hx & Hl) & Hr & Hf) HQ. unfold InodeRef_reset. wp_step.
  eapply wp_put_inode; [exact Ha|exact Hx|destruct Hl; lia|]. intros s' Hs'. wp_step.
  destruct (put_effect sb tbl f n k x Hok Hc Hx Hl) as (H1 & H2 & H3 & H4).
  eapply HQ; [exact Hs'|]. split; [done|]. split; [done|]. split.
  - intros m. rewrite H3, Hr. lia.
  - rewrite H4, Hf, Hr. replace (n =? n) with true by lia. unfold one.
    destruct (references tbl0 n =? 0) eqn:E1, (references tbl0 n + 1 =? 1) eqn:E2; lia.
Qed.

(** Going on to the next inode: it is taken before the current one is let go. *)
Lemma wp_go_on tbl k n m s (Q : InodeRef * InodeRef → Fs T → Prop) :
  at_disk tbl hs s f → holding tbl k n → 0 <= m < ninodes sb →
  (∀ tbl' s' k', step tbl' hs s s' f → holding tbl' k' m → Q (Some k', None) s') →
  (∀ tbl' s', step tbl' hs s s' f → released tbl' → free_slots tbl0 < 2 → Q (None, None) s') →
  wp (next ← get_inode m; InodeRef_move_assign (Some k) next) s Q.
Proof using HT Hsize Hg Hlt Hrefs Hok0.
  intros Ha Hh Hm HSome HNone. pose proof Hh as (Hok & Hc & (x & Hx & Hl) & Hr & Hf). wp_step.
  apply (wp_get_inode ST con sb Hg Hsize tbl hs s f m); [done|done|done| |].
  { intros i y Hy. eapply refcnt_bound; [exact Hok|exact Hr|intros; apply one_le|exact Hy]. }
  intros r tbl1 s1 Hget Hs1. destruct (get_effect sb _ _ _ _ _ Hok Hc Hget) as (Hok1 & Hc1 & He).
  unfold InodeRef_move_assign, InodeRef_reset, InodeRef_move. pose proof Hs1 as [Ha1 _].
  destruct r as [k'|].
  - destruct He as ((y & Hy & Hly) & Hr1 & Hf1).
    assert (∃ x1, tbl1 !! k = Some x1 ∧ live n x1) as (x1 & Hx1 & Hl1).
    { clear -Hget Hx Hl. remember (Some k') as r. destruct Hget as [i z Hz Hlz _|i z Hnone Hz H0 _|]; [| |done].
      - pose proof (lookup_lt_Some _ _ _ Hz). destruct (decide (i = k)) as [->|Hne].
        + eexists. split; [by apply list_lookup_insert_eq|]. simplify_eq. destruct Hl. split; [cbn; lia|done].
        + exists x. by rewrite list_lookup_insert_ne.
      - exists x. rewrite list_lookup_insert_ne; [done|]. intros ->. simplify_eq. destruct Hl. lia. }
    wp_step. wp_step. eapply wp_put_inode; [exact Ha1|exact Hx1|destruct Hl1; lia|]. intros s2 Hs2. wp_steps.
    destruct (put_effect sb tbl1 f n k x1 Hok1 Hc1 Hx1 Hl1) as (Hok2 & Hc2 & Hr2 & Hf2).
    eapply HSome; [eapply step_trans; [exact Hs1|exact Hs2]|].
    split; [done|]. split; [done|]. split; [|split].
    + destruct (decide (k' = k)) as [->|Hne].
      * assert (y = x1) as -> by congruence. eexists. split; [apply list_lookup_insert_eq; by eapply lookup_lt_Some|].
        destruct Hl1 as [H1 H2], Hly as [H3 H4]. split; [cbn|done].
        pose proof (references_live tbl1 m k x1 Hok1 Hy (conj H3 H4)) as E. rewrite Hr1, Hr in E.
        assert (n = m) as <- by congruence. replace (n =? n) with true in E by lia. unfold one in E.
        pose proof (references_nonneg tbl0 n Hok0). lia.
      * exists y. by rewrite list_lookup_insert_ne.
    + intros m'. rewrite Hr2, Hr1, Hr. lia.
    + rewrite Hf2, Hf1, Hf, Hr1, !Hr. unfold one. replace (n =? n) with true by lia.
      pose proof (references_nonneg tbl0 n Hok0). pose proof (references_nonneg tbl0 m Hok0).
      destruct (decide (m = n)) as [->|Hne].
      * replace (n =? n) with true by lia. repeat case_match; lia.
      * replace (m =? n) with false by lia. replace (n =? m) with false by lia. repeat case_match; lia.
  - destruct He as [-> Hf0]. wp_step. wp_step.
    eapply wp_put_inode; [exact Ha1|exact Hx|destruct Hl; lia|]. intros s2 Hs2. wp_steps.
    destruct (put_effect sb tbl f n k x Hok Hc Hx Hl) as (H1 & H2 & H3 & H4).
    eapply HNone; [eapply step_trans; [exact Hs1|exact Hs2]| |].
    + split; [done|]. split; [done|]. split; [intros m'; rewrite H3, Hr; lia|].
      rewrite H4, Hf, Hr. replace (n =? n) with true by lia. unfold one.
      destruct (references tbl0 n =? 0) eqn:E1, (references tbl0 n + 1 =? 1) eqn:E2; lia.
    + pose proof (one_le (references tbl0 n =? 0)). lia.
Qed.

(** How [walk] ends: as [walk_spec] says, or short of slots. *)
Definition walked (r : option (Z * option (list Z))) (res : InodeRef * option (list Z)) (tbl : list Inode) : Prop :=
  match r with
  | Some (m, last) => ∃ k, res = (Some k, last) ∧ holding tbl k m
  | None => res = (None, None) ∧ released tbl
  end ∨ (res = (None, None) ∧ released tbl ∧ free_slots tbl0 < 2).

Lemma wp_drop_and_fail tbl k n s (Q : InodeRef * option (list Z) → Fs T → Prop) :
  at_disk tbl hs s f → holding tbl k n →
  (∀ tbl' s', step tbl' hs s s' f → released tbl' → Q (None, None) s') → wp (drop_and_fail (Some k)) s Q.
Proof using HT Hsize Hlt Hok0.
  intros Ha Hh HQ. unfold drop_and_fail. wp_step. eapply wp_release; [done|done|].
  intros tbl' s' Hs' Hr. wp_step. by eapply HQ.
Qed.

Lemma wp_walk_loop stop fuel tbl k n rest s (Q : InodeRef * option (list Z) → Fs T → Prop) :
  at_disk tbl hs s f → holding tbl k n → 0 < n < ninodes sb → (length rest < fuel)%nat →
  (∀ res tbl' s', step tbl' hs s s' f → walked (walk_spec sb f stop n (components rest)) res tbl' → Q res s') →
  wp (walk_loop fuel stop (Some k) rest) s Q.
Proof using HT Hsize Hg Hlt Hrefs Hok0 Htree.
  revert tbl k n rest s. induction fuel as [|fuel IH]; intros tbl k n rest s Ha Hh Hn Hf HQ; [lia|].
  cbn [walk_loop]. pose proof (next_component_spec rest) as Hnext.
  destruct (next_component rest) as [name rest']. cbn [fst snd] in Hnext.
  assert (∀ res tbl' s', step tbl' hs s s' f → res = (None, None) ∧ released tbl' →
    walk_spec sb f stop n (components rest) = None → Q res s') as Hfail.
  { intros res tbl' s' Hs' Hr Hw. eapply HQ; [exact Hs'|]. left. by rewrite Hw. }
  destruct (components rest) as [|c cs]; cbn [walk_spec] in HQ, Hfail.
  { subst name. cbn [length Nat.eqb]. destruct stop.
    - eapply wp_drop_and_fail; [done|done|]. intros tbl' s' Hs' Hr. by eapply Hfail.
    - wp_step. eapply HQ; [by apply step_refl|]. left. by exists k. }
  destruct Hnext as (-> & Hc & Hcs & Hlen).
  replace (length c =? 0)%nat with false by (destruct c; done). rewrite has_component_spec, Hcs, negb_involutive.
  pose proof Hh as (Hok & Hcoh & (x & Hx & Hl) & _). pose proof (Hcoh k x Hx ltac:(apply Hl)) as Hdisk.
  destruct Hl as [_ Hnum]. rewrite Hnum in Hdisk.
  destruct (stop && bool_decide (cs = [])).
  { wp_step. eapply wp_slot; [exact Ha|exact Hx|]. rewrite Hdisk.
    destruct (type (inode_at sb f n) =? kDirectory); cbn [negb].
    - wp_step. eapply HQ; [by apply step_refl|]. left. by exists k.
    - eapply wp_drop_and_fail; [done|done|]. intros tbl' s' Hs' Hr. by eapply Hfail. }
  destruct (Htree n Hn) as [Hinv _]. rewrite <- Hdisk in Hinv. wp_step.
  apply (wp_directory_lookup ST con sb Hg Hsize tbl hs k x f Hx Hinv Hlt); [done|]. intros s1 Hs1.
  pose proof Hs1 as [Ha1 _]. rewrite Hdisk. unfold dir_find in HQ, Hfail at 1.
  assert (∀ m, dir_find sb f n c = Some m → 0 < m < ninodes sb) as Hrange by (intros m; by apply dir_find_range).
  unfold dir_find in Hrange. destruct ((type (inode_at sb f n) =? kDirectory) && is_valid_name c);
    [destruct (list_find (named c) _) as [[j e]|]|]; cbn [lookup_result fmap option_fmap option_map mbind option_bind fst snd] in *.
  2,3: eapply wp_drop_and_fail; [exact Ha1|exact Hh|]; intros tbl' s' Hs' Hr; eapply Hfail; [by eapply step_trans|done|done].
  cbn [found_inode]. specialize (Hrange _ eq_refl). apply wp_bind_assoc.
  eapply wp_go_on; [exact Ha1|exact Hh|lia| |].
  - intros tbl2 s2 k2 Hs2 Hh2. pose proof Hs2 as [Ha2 _]. eapply IH; [exact Ha2|exact Hh2|done|lia|].
    intros res tbl3 s3 Hs3 Hw. eapply HQ; [|by rewrite <- Hcs].
    eapply step_trans; [exact Hs1|]. by eapply step_trans.
  - intros tbl2 s2 Hs2 Hr2 Hfree. destruct fuel as [|fuel]; [lia|]. cbn [walk_loop]. wp_step.
    eapply HQ; [by eapply step_trans|]. by right.
Qed.
End walk.
