(* ===== verification/NamesProps.v ===== *)
(** * The properties of directories and paths *)
From stdpp Require Import list_numbers strings.
From S2P Require Import Prelude BlockStore RamDisk StoreRefinement FsLayout FileSystem FileSystemSpec.
From S2P Require Import FileSystemFormat Inode InodeMap InodeSpec FileBytes InodeData InodeTable Directory.
From S2P Require Import DirectorySpec Path PathSpec FileSystemProps.

(** One call of [next_component] takes the first non-empty piece of the path between
    slashes and leaves the others; it is empty exactly when no piece is left, which
    is what [has_component] tests. *)
Theorem next_component_correct rest :
  let '(name, rest') := next_component rest in
  components rest = (if decide (name = []) then [] else name :: components rest') ∧
  (name ≠ [] → (length rest' < length rest)%nat) ∧
  has_component rest = (negb (bool_decide (name = []))).
Proof.
  pose proof (next_component_spec rest) as H. rewrite has_component_spec.
  destruct (next_component rest) as [name rest']. cbn [fst snd] in H. destruct (components rest) as [|c cs].
  - subst name. done.
  - destruct H as (-> & Hc & <- & Hlen). rewrite decide_False by done. split; [done|]. split; [done|].
    by rewrite !bool_decide_eq_false_2.
Qed.

Section names.
Context {T : Type} `{HT : IBlockStore T} (ST : BlockStoreSpec T).
Context (con : Console) (sb : SuperBlock).
Context (Hg : geometry sb) (Hsize : sb_size sb <= bs_blocks) (Hlimit : (1 < bs_limit)%nat).
Implicit Types (s : Fs T) (f : Z → list Z) (tbl : list Inode) (name path : list Z) (i : nat).
Abbreviation at_disk := (at_disk ST con sb).

(** C26: [directory_lookup] answers the first entry in use with the name, its inode
    number and its byte offset; it finds nothing in an inode that is not a
    directory, nor a name that is empty, longer than 14 bytes or has a slash.
    Neither the disk nor the inode table changes. *)
Theorem directory_lookup_correct tbl s f i x name :
  at_disk tbl [] s f → tbl !! i = Some x → inode_inv sb f (disk x) →
  wp (directory_lookup i name) s (λ r s', at_disk tbl [] s' f ∧
    match r with
    | Some d => type (disk x) = kDirectory ∧ (0 < length name <= 14)%nat ∧ (slash ∉ name) ∧
        ∃ k e, entries_of f (disk x) !! k = Some e ∧ named name e ∧
          (∀ j e', (j < k)%nat → entries_of f (disk x) !! j = Some e' → ¬ named name e') ∧
          found_inode d = entry_inode e ∧ found_offset d = 16 * Z.of_nat k
    | None => type (disk x) = kDirectory → (0 < length name <= 14)%nat → (slash ∉ name) →
        ∀ e, e ∈ entries_of f (disk x) → ¬ named name e
    end).
Proof using HT Hg Hsize Hlimit.
  intros Ha Hx Hinv. apply (wp_directory_lookup ST con sb Hg Hsize tbl [] i x f Hx Hinv); [cbn; lia|done|].
  intros s' [Ha' _]. split; [done|].
  destruct (type (disk x) =? kDirectory) eqn:Et; cbn [andb]; [|lia].
  destruct (is_valid_name name) eqn:Ev; cbn [andb].
  - apply is_valid_name_spec in Ev as [Hl Hs]. destruct (list_find (named name) _) as [[k e]|] eqn:E; cbn.
    + apply list_find_Some in E as (He & Hn & Hfirst). split; [lia|]. split; [done|]. split; [done|].
      exists k, e. split; [done|]. split; [done|]. split; [|done]. intros j e' Hj He'. by eapply Hfirst.
    + intros _ _ _. apply list_find_None in E. by rewrite Forall_forall in E.
  - intros _ Hl Hs. assert (is_valid_name name = true) as H by by apply is_valid_name_spec. by rewrite H in Ev.
Qed.

(** Whether [directory_link] may add the name for the inode [n]: the inode is a
    directory, the name has 1 to 14 bytes and no slash, [n] fits 16 bits and is not
    0, and no entry in use has the name. *)
Definition linkable f x name (n : Z) : Prop :=
  type (disk x) = kDirectory ∧ (0 < length name <= 14)%nat ∧ (slash ∉ name) ∧ 0 < n <= 65535 ∧
  ∀ e, e ∈ entries_of f (disk x) → ¬ named name e.

(** C25: [directory_link] refuses, and changes nothing, when the inode is not a
    directory, the name is empty, longer than 14 bytes, has a slash or is there
    already, or the inode number is 0 or has more than 16 bits. Otherwise the new
    entry, with the number and the name filled up with zeros, takes the first free
    place of the directory, or a new one at the end when there is none; all others
    stay as they are; [directory_lookup] then finds the name there, and every other
    name as before. It fails only when the disk or the directory is full. The name
    has no null byte, and the size of the directory is a multiple of an entry's. *)
Theorem directory_link_correct tbl s f i x name n :
  at_disk tbl [] s f → tbl !! i = Some x → inode_inv sb f (disk x) → metadata_used sb f →
  0 <= inode_number x < ninodes sb → size (disk x) `mod` 16 = 0 → bytes name → 0 ∉ name → 0 <= n →
  wp (directory_link i name n) s (λ ok s', ∃ f' di',
    at_disk (<[i := set_disk di' x]> tbl) [] s' f' ∧ inode_inv sb f' di' ∧
    (¬ linkable f x name n → ok = false ∧ f' = f ∧ di' = disk x) ∧
    (linkable f x name n →
      if ok then ∃ k e, free_place (entries_of f (disk x)) k ∧
        entries_of f' di' !! k = Some e ∧ entry_inode e = n ∧ entry_name e = name ++ replicate (14 - length name) 0 ∧
        (∀ j, j ≠ k → entries_of f' di' !! j = entries_of f (disk x) !! j) ∧
        wp (directory_lookup i name) s' (λ r _, r = Some (mkDirectoryLookup n (16 * Z.of_nat k))) ∧
        (∀ name', 0 ∉ name' → is_valid_name name' = true → name' ≠ name →
          list_find (named name') (entries_of f' di') = list_find (named name') (entries_of f (disk x)))
      else (∀ c, 0 <= c < sb_size sb → used sb f' c = true) ∨ max_bytes < 16 + size (disk x))).
Proof using HT Hg Hsize Hlimit.
  intros Ha Hx Hinv Hmeta Hnum Hm Hb H0 Hn0.
  destruct (decide (type (disk x) = kDirectory ∧ is_valid_name name = true ∧ 0 < n <= 65535)) as [(Hty & Hv & Hn)|Hno].
  2:{ assert (¬ linkable f x name n) as Hnl.
      { intros (? & ? & ? & ? & _). apply Hno. split; [done|]. split; [by apply is_valid_name_spec|done]. }
      unfold directory_link. wp_step. eapply wp_slot; [exact Ha|exact Hx|].
      match goal with |- wp _ _ ?Q => assert (wp (mret false : M (Fs T) bool) s Q) as Hret end.
      { wp_step. exists f, (disk x). replace (set_disk (disk x) x) with x by by destruct x. rewrite list_insert_id by done. done. }
      destruct (type (disk x) =? kDirectory) eqn:E1; cbn [negb orb]; [|exact Hret].
      destruct (is_valid_name name) eqn:E2; cbn [negb]; [|exact Hret].
      replace ((n =? 0) || (n >? 65535)) with true by lia. exact Hret. }
  eapply wp_mono; [apply (wp_directory_link ST con sb Hg Hsize tbl [] i x f Hx Hinv ltac:(cbn; lia) Hmeta Hnum
    ltac:(cbn; lia) name n); done|].
  intros ok s' (f' & di' & [Ha' _] & Hinv' & Hty' & Hout). exists f', di'. split; [done|]. split; [done|].
  unfold link_outcome in Hout. pose proof Hv as Hv0. apply is_valid_name_spec in Hv0 as [[Hl0 Hl] Hsl].
  destruct (list_find (named name) _) as [[j e]|] eqn:Ef.
  { split; [done|]. intros (_ & _ & _ & _ & Hnone). apply list_find_Some in Ef as (He & Hnm & _).
    exfalso. by apply (Hnone e); [eapply list_elem_of_lookup_2|]. }
  split.
  { intros Hnl. destruct Hnl. split; [done|]. split; [done|]. split; [done|]. split; [done|]. apply list_find_None in Ef. by apply Forall_forall. }
  intros _. destruct ok; [|done]. rewrite Hout. destruct (linked_place name n (entries_of f (disk x))) as (k & Hk & Hat & Hoth & Hfind).
  specialize (Hfind Ef (fresh_named name n Hl Hn)). exists k, (fresh_entry name n). split; [done|]. split; [done|].
  split; [cbn; rewrite u16_small; lia|]. split; [by apply fresh_name|]. split; [done|]. split.
  - apply (wp_directory_lookup ST con sb Hg Hsize (<[i := set_disk di' x]> tbl) [] i (set_disk di' x) f');
      [apply list_lookup_insert_eq; by eapply lookup_lt_Some|done|cbn; lia|done|].
    intros s2 _. cbn [disk set_disk]. rewrite Hty', Hv, Hout, Hfind. cbn. by rewrite u16_small by lia.
  - intros name' H0' Hv' Hne. apply is_valid_name_spec in Hv' as [[_ Hl'] _]. by apply linked_find.
Qed.

(** ** Paths *)
Context (f : Z → list Z) (Htree : tree_ok sb f) (Hroot : 1 < ninodes sb).

(** What a resolution that took a reference to inode [n] in slot [k] leaves. *)
Definition took_reference (tbl tbl' : list Inode) (k : nat) (n : Z) : Prop :=
  (∃ x, tbl' !! k = Some x ∧ live n x ∧ disk x = inode_at sb f n) ∧
  ∀ m, references tbl' m = references tbl m + one (m =? n).

Lemma holding_took tbl tbl' k n : holding sb f tbl tbl' k n → took_reference tbl tbl' k n.
Proof.
  intros (Hok & Hc & (x & Hx & Hl) & Hr & _). split; [|done]. exists x. split; [done|]. split; [done|].
  destruct Hl as [Hp <-]. by apply (Hc k).
Qed.

Lemma wp_walk stop path tbl s (Q : InodeRef * option (list Z) → Fs T → Prop) :
  at_disk tbl [] s f → table_ok tbl → coherent sb tbl f → (∀ m, references tbl m < INT_MAX - 1) →
  (∀ res tbl' s', at_disk tbl' [] s' f →
    match path with
    | [] => res = (None, None) ∧ tbl' = tbl
    | _ => walked sb f tbl (walk_spec sb f stop ROOT_INODE (components path)) res tbl'
    end → Q res s') →
  wp (walk path stop) s Q.
Proof using HT Hg Hsize Hlimit Htree Hroot.
  intros Ha Hok Hc Hrefs HQ. unfold walk. destruct path as [|c path].
  { wp_step. by apply (HQ _ tbl). }
  wp_step. unfold ROOT_INODE in *. apply (wp_get_inode ST con sb Hg Hsize tbl [] s f 1); [done|lia|cbn; lia| |].
  { intros j y Hy. eapply (refcnt_bound tbl Hrefs tbl (λ _, 0)); [done|intros; lia|intros; lia|exact Hy]. }
  intros r tbl1 s1 Hget Hs1. pose proof Hs1 as [Ha1 _]. destruct r as [k|].
  - assert (holding sb f tbl tbl1 k 1) as Hh by by eapply holding_get.
    apply (wp_walk_loop ST con sb Hg Hsize f Htree [] ltac:(cbn; lia) tbl Hok Hrefs stop _ tbl1 k 1);
      [done|done|lia|lia|]. intros res tbl2 s2 [Ha2 _] Hw. by eapply HQ.
  - destruct (get_effect sb _ _ _ _ _ Hok Hc Hget) as (Hok1 & Hc1 & -> & Hfree). cbn [walk_loop].
    wp_step. eapply HQ; [exact Ha1|]. right. split; [done|]. split; [|lia]. done.
Qed.

(** C6: [resolve_path] follows the components of a path from the root through the
    directories on the disk. It returns a reference to the inode at the end, and has
    given back all the others it took; it fails only for an empty path, when a
    component is missing, or when the inode table has not two empty slots, and then
    it has taken none. *)
Theorem resolve_path_correct tbl s path :
  at_disk tbl [] s f → table_ok tbl → coherent sb tbl f → (∀ m, references tbl m < INT_MAX - 1) →
  wp (resolve_path path) s (λ r s', ∃ tbl', at_disk tbl' [] s' f ∧ table_ok tbl' ∧
    match r with
    | Some k => ∃ n, path ≠ [] ∧ lookup_path sb f ROOT_INODE (components path) = Some n ∧ took_reference tbl tbl' k n
    | None => (∀ m, references tbl' m = references tbl m) ∧
        (path = [] ∨ lookup_path sb f ROOT_INODE (components path) = None ∨ free_slots tbl < 2)
    end).
Proof using HT Hg Hsize Hlimit Htree Hroot.
  intros Ha Hok Hc Hrefs. unfold resolve_path. wp_step. apply wp_walk with tbl; try done.
  intros res tbl' s' Ha' Hw. destruct path as [|c path].
  { destruct Hw as [-> ->]. wp_step. exists tbl. split; [done|]. split; [done|]. split; [done|]. by left. }
  rewrite walk_spec_path in Hw. destruct Hw as [Hw|(-> & (Hok' & _ & Hr & _) & Hf)].
  - destruct (lookup_path _ _ _ _) as [n|] eqn:E; cbn in Hw.
    + destruct Hw as (k & -> & Hh). wp_step. exists tbl'. split; [done|]. split; [apply Hh|]. exists n.
      split; [done|]. split; [done|]. by apply holding_took.
    + destruct Hw as (-> & Hok' & _ & Hr & _). wp_step. exists tbl'. split; [done|]. split; [done|]. split; [done|].
      right. by left.
  - wp_step. exists tbl'. split; [done|]. split; [done|]. split; [done|]. right. by right.
Qed.

(** [resolve_parent] returns the directory that contains the last component, with
    that component, and keeps no other reference; it fails only when the path has no
    component, when its parent is missing or not a directory, or when the inode
    table has not two empty slots. *)
Theorem resolve_parent_correct tbl s path :
  at_disk tbl [] s f → table_ok tbl → coherent sb tbl f → (∀ m, references tbl m < INT_MAX - 1) →
  wp (resolve_parent path) s (λ r s', ∃ tbl', at_disk tbl' [] s' f ∧ table_ok tbl' ∧
    match r with
    | Some (parent, name) => ∃ k n, parent = Some k ∧ last (components path) = Some name ∧
        lookup_path sb f ROOT_INODE (removelast (components path)) = Some n ∧
        type (inode_at sb f n) = kDirectory ∧ took_reference tbl tbl' k n
    | None => (∀ m, references tbl' m = references tbl m) ∧
        (components path = [] ∨
         (∀ n, lookup_path sb f ROOT_INODE (removelast (components path)) = Some n → type (inode_at sb f n) ≠ kDirectory) ∨
         free_slots tbl < 2)
    end).
Proof using HT Hg Hsize Hlimit Htree Hroot.
  intros Ha Hok Hc Hrefs. unfold resolve_parent. wp_step. apply wp_walk with tbl; try done.
  intros res tbl' s' Ha' Hw. destruct path as [|c path].
  { destruct Hw as [-> ->]. wp_step. exists tbl. split; [done|]. split; [done|]. split; [done|]. by left. }
  rewrite walk_spec_parent in Hw. destruct Hw as [Hw|(-> & (Hok' & _ & Hr & _) & Hf)].
  2:{ wp_step. exists tbl'. split; [done|]. split; [done|]. split; [done|]. right. by right. }
  destruct (last (components (c :: path))) as [name|] eqn:El.
  2:{ destruct Hw as (-> & Hok' & _ & Hr & _). wp_step. exists tbl'. split; [done|]. split; [done|]. split; [done|].
      left. by apply last_None. }
  destruct (lookup_path _ _ _ _) as [n|] eqn:E; cbn [mbind option_bind] in Hw; [destruct (type _ =? kDirectory) eqn:Et|].
  - destruct Hw as (k & -> & Hh). wp_step. exists tbl'. split; [done|]. split; [apply Hh|]. exists k, n.
    split; [done|]. split; [done|]. split; [done|]. split; [lia|]. by apply holding_took.
  - destruct Hw as (-> & Hok' & _ & Hr & _). wp_step. exists tbl'. split; [done|]. split; [done|]. split; [done|].
    right. left. intros m [= <-]. lia.
  - destruct Hw as (-> & Hok' & _ & Hr & _). wp_step. exists tbl'. split; [done|]. split; [done|]. split; [done|].
    right. left. done.
Qed.
End names.

(** ** A formatted disk *)

Lemma zero_inode_inv sb f : inode_inv sb f DiskInode_zero.
Proof.
  assert (∀ k, addr DiskInode_zero k = 0) as Ha.
  { intros k. unfold addr. cbn [addrs DiskInode_zero]. rewrite nth_lookup.
    destruct (replicate 13 0 !! _) as [y|] eqn:E; [|done]. by apply lookup_replicate_1 in E as [-> _]. }
  assert (∀ k, block_of f DiskInode_zero k = 0) as Hb.
  { intros k. unfold block_of, indirect. rewrite !Ha. by destruct (k <? 12). }
  split.
  - do 5 (split; [by vm_compute|]). split; [done|]. apply Forall_replicate. by vm_compute.
  - by vm_compute.
  - intros k _ Hn. by rewrite Hb in Hn.
  - unfold indirect. rewrite Ha. done.
  - intros k Hk Hs. cbn in Hs. lia.
  - intros j k _ _ Hn. by rewrite Hb in Hn.
  - intros k _ Hn. unfold indirect in Hn. by rewrite Ha in Hn.
Qed.

Lemma root_blocks f b k : 0 <= k → block_of f (root_inode b) k = if k =? 0 then b else 0.
Proof.
  intros Hk.
  assert (∀ j, 0 <= j → addr (root_inode b) j = if j =? 0 then b else 0) as Ha.
  { intros j Hj. unfold addr. cbn [addrs root_inode]. destruct (j =? 0) eqn:E.
    - by replace j with 0 by lia.
    - replace (Z.to_nat j) with (S (Z.to_nat (j - 1))) by lia. cbn [nth]. rewrite nth_lookup.
      destruct (replicate 12 0 !! _) as [y|] eqn:E2; [|done]. by apply lookup_replicate_1 in E2 as [-> _]. }
  unfold block_of, indirect. rewrite !Ha by lia. destruct (k <? 12) eqn:E; [done|].
  replace (k =? 0) with false by lia. done.
Qed.

Lemma root_inode_inv sb f b :
  0 < data_start sb → data_start sb <= b < sb_size sb → sb_size sb <= 4294967296 - 4096 → used sb f b = true →
  inode_inv sb f (root_inode b).
Proof.
  intros H0 Hb Hs Hu. split.
  - apply root_inode_wf. unfold is_u32. lia.
  - by vm_compute.
  - intros k Hk. rewrite root_blocks by lia. destruct (k =? 0); done.
  - done.
  - intros k Hk Hsz. cbn [size root_inode] in Hsz. rewrite root_blocks by lia. replace (k =? 0) with true by lia. lia.
  - intros j k Hj Hk. rewrite !root_blocks by lia. destruct (j =? 0) eqn:Ej, (k =? 0) eqn:Ek; lia.
  - done.
Qed.

Lemma root_bytes f b : f b = root_block → file_bytes f (root_inode b) = take 32 root_block.
Proof.
  intros Hf. apply list_eq. intros j. unfold file_bytes. destruct (decide (j < 32)%nat) as [Hj|Hj].
  - rewrite lookup_file_slice by (cbn; lia). rewrite lookup_take_lt by done. unfold byte_at.
    rewrite root_blocks by lia. replace ((0 + Z.of_nat j) / 512) with 0 by lia. rewrite Z.eqb_refl, Hf.
    rewrite nth_lookup. replace (Z.to_nat ((0 + Z.of_nat j) `mod` 512)) with j by lia.
    destruct (root_block !! j) as [y|] eqn:E; [done|]. apply lookup_ge_None in E.
    replace (length root_block) with 512%nat in E by by vm_compute. lia.
  - rewrite !lookup_ge_None_2; [done| |].
    + rewrite length_take. lia.
    + rewrite length_file_slice. cbn. lia.
Qed.

Lemma root_entries_of f b : f b = root_block → entries_of f (root_inode b) = root_entries.
Proof. intros Hf. unfold entries_of. rewrite root_bytes by done. vm_compute. done. Qed.

(** What the entries of the root of a formatted disk are found by. *)
Definition dot : list Z := string_bytes ".".
Definition dotdot : list Z := string_bytes "..".

Lemma root_find name : (0 ∉ name) → is_valid_name name = true →
  list_find (named name) root_entries =
  if decide (name = dot) then (0%nat,.) <$> root_entries !! 0%nat
  else if decide (name = dotdot) then (1%nat,.) <$> root_entries !! 1%nat else None.
Proof.
  intros Hnz Hv. apply is_valid_name_spec in Hv as [[_ Hl] _].
  assert (∀ w e, (0 ∉ w) → (length w <= 14)%nat → entry_inode e = 1 →
    entry_name e = w ++ replicate (14 - length w) 0 → named name e ↔ name = w) as Hnamed.
  { intros w e Hw Hlw Hi He. unfold named. rewrite Hi, He. split.
    - intros [_ Hh]. by apply holds_fresh_name in Hh.
    - intros ->. split; [done|by apply fresh_holds]. }
  assert (0 ∉ dot) as Hd1 by (by apply (bool_decide_unpack _)).
  assert (0 ∉ dotdot) as Hd2 by (by apply (bool_decide_unpack _)).
  unfold root_entries. cbn [list_find].
  rewrite (decide_ext _ (name = dot)) by (by apply (Hnamed dot); [|cbn; lia|..]).
  destruct (decide (name = dot)) as [|H1]; [done|].
  rewrite (decide_ext _ (name = dotdot)) by (by apply (Hnamed dotdot); [|cbn; lia|..]).
  by destruct (decide (name = dotdot)).
Qed.

(** A formatted disk satisfies what the other properties assume of a disk: the
    inodes own their blocks, the metadata is marked as used, directories refer to
    inodes there are; the root has its two entries and no other. *)
Lemma formatted_tree sb f :
  geometry sb → data_start sb < sb_size sb → 1 < ninodes sb → formatted sb f →
  tree_ok sb f ∧ metadata_used sb f ∧
  ∀ name, 0 ∉ name → dir_find sb f ROOT_INODE name =
    if decide (name = dot ∨ name = dotdot) then Some ROOT_INODE else None.
Proof.
  intros Hg Hd Hni [_ Hu Hr Hz Hdir]. pose proof (data_start_pos sb Hg). pose proof (geo_size _ Hg).
  assert (inode_inv sb f (root_inode (data_start sb))) as Hroot.
  { apply root_inode_inv; [done|lia|done|]. rewrite Hu by lia. lia. }
  split; [|split].
  - intros n Hn. destruct (decide (n = ROOT_INODE)) as [->|Hne].
    + rewrite Hr. split; [done|]. intros _ e He. rewrite root_entries_of in He by done.
      unfold root_entries in He. rewrite !elem_of_cons, elem_of_nil in He. destruct_or! He; subst; cbn; done || lia.
    + rewrite Hz by (done || lia). split; [apply zero_inode_inv|done].
  - intros b Hb. rewrite Hu by lia. lia.
  - intros name Hnz. unfold dir_find. rewrite Hr, root_entries_of by done. change (type _ =? kDirectory) with true.
    cbn [andb]. destruct (is_valid_name name) eqn:Ev.
    2:{ rewrite decide_False; [done|]. intros [-> | ->]; by vm_compute in Ev. }
    rewrite root_find by done. destruct (decide (name = dot)); [by rewrite decide_True by (by left)|].
    destruct (decide (name = dotdot)); [by rewrite decide_True by (by right)|]. by rewrite decide_False by tauto.
Qed.

Lemma lookup_formatted sb f names :
  geometry sb → data_start sb < sb_size sb → 1 < ninodes sb → formatted sb f → Forall (λ c, 0 ∉ c) names →
  lookup_path sb f ROOT_INODE names = if decide (Forall (λ c, c = dot ∨ c = dotdot) names) then Some ROOT_INODE else None.
Proof.
  intros Hg Hd Hni Hf. destruct (formatted_tree sb f Hg Hd Hni Hf) as (_ & _ & Hfind).
  induction 1 as [|c names Hc _ IH]; [by rewrite decide_True|]. cbn [lookup_path]. rewrite Hfind by done.
  destruct (decide (c = dot ∨ c = dotdot)) as [Hd1|Hd1]; cbn [mbind option_bind].
  - rewrite IH. apply decide_ext. split; [by constructor|by intros [_ ?]%Forall_cons].
  - rewrite decide_False; [done|]. by intros [? _]%Forall_cons.
Qed.

Lemma components_elem path c z : c ∈ components path → z ∈ c → z ∈ path.
Proof.
  assert (∀ c, c ∈ (split path).1 :: (split path).2 → z ∈ c → z ∈ path) as Hs.
  { induction path as [|a path IH]; cbn [split].
    - cbn. intros w ->%list_elem_of_singleton Hz. by apply elem_of_nil in Hz.
    - destruct (split path) as [w ws]. cbn [fst snd] in IH. intros v. destruct (a =? slash); cbn [fst snd]; rewrite !elem_of_cons.
      + intros [->|Hv] Hz; [by apply elem_of_nil in Hz|]. right. apply (IH v); [by apply elem_of_cons|done].
      + intros [->|Hv] Hz.
        * apply elem_of_cons in Hz as [->|Hz]; [by left|]. right. apply (IH w); [by left|done].
        * right. apply (IH v); [by right|done]. }
  intros Hc. apply Hs. unfold components in Hc. destruct (split path) as [w ws]. by apply list_elem_of_filter in Hc as [_ ?].
Qed.

(** ** The empty inode table *)
Definition empty_table : list Inode := replicate NUM_INODE (mkInode 0 0 false DiskInode_zero).

Lemma empty_table_ok sb : table_ok empty_table ∧ (∀ f, coherent sb empty_table f) ∧ ∀ m, references empty_table m = 0.
Proof.
  assert (∀ i x, empty_table !! i = Some x → x = mkInode 0 0 false DiskInode_zero) as H.
  { intros i x Hx. by apply lookup_replicate_1 in Hx as [-> _]. }
  split; [split|split].
  - intros i x ->%H. by vm_compute.
  - intros n i j x y ->%H _ [Hl _]. cbn in Hl. lia.
  - intros f i x ->%H Hl. cbn in Hl. lia.
  - intros m. apply references_none. intros i x ->%H [Hl _]. cbn in Hl. lia.
Qed.

Section mounted.
Context {T : Type} `{HT : IBlockStore T} (ST : BlockStoreSpec T) (Hlimit : (1 < bs_limit)%nat).

(** C38: [initialize] at boot, on a disk without the magic number that is large
    enough, formats and mounts it; the disk then satisfies what the other properties
    assume (the inodes own their blocks, the metadata is marked as used, directories
    refer to inodes there are). [resolve_path] finds the root directory, of two
    entries, behind every path whose components are all "." or "..", such as "/",
    and nothing behind any other path or the empty one; [directory_lookup] finds
    these two names there, at the bytes 0 and 16, and no other. Paths and names have
    no null byte. *)
Theorem formatted_disk_correct n (store : T) con0 p path :
  27 + (n + 4095) / 4096 < n <= 4294967296 - 4096 → n <= bs_blocks → bs_ok [] store →
  magic (bytes_superblock (bs_view store 1)) ≠ FS_MAGIC → 0 ∉ path →
  wp (initialize n (Some store) (Some con0)) (initial_fs p) (λ ok s, ok = true ∧
    (∃ f, at_disk (StorePtr_spec ST) (console s) (superblock s) (inode_table s) [] s f ∧
      tree_ok (superblock s) f ∧ metadata_used (superblock s) f) ∧
    wp (resolve_path path) s (λ r s',
      match r with
      | Some k => path ≠ [] ∧ Forall (λ c, c = dot ∨ c = dotdot) (components path) ∧
          (∃ x, inode_table s' !! k = Some x ∧ inode_number x = ROOT_INODE ∧ inode_refcnt x = 1 ∧
            type (disk x) = kDirectory ∧ size (disk x) = 32) ∧
          ∀ name, 0 ∉ name → wp (directory_lookup k name) s' (λ d _,
            d = if decide (name = dot) then Some (mkDirectoryLookup ROOT_INODE 0)
                else if decide (name = dotdot) then Some (mkDirectoryLookup ROOT_INODE 16) else None)
      | None => path = [] ∨ ¬ Forall (λ c, c = dot ∨ c = dotdot) (components path)
      end)).
Proof using HT Hlimit.
  intros Hn Hblocks Hok Hm H0. destruct (format_geometry n) as (_ & Hg & _ & _ & Esz & _ & Ebm & Eni & _); [lia|].
  eapply wp_mono; [apply (wp_fs_initialize ST n store con0 (initial_fs p) Hn Hblocks ltac:(lia) Hok)|].
  intros ok s (-> & store' & Est & Hok' & Hd). split; [done|]. rewrite decide_False in Hd by done.
  destruct Hd as (_ & Esb & Etbl & _ & Hf). rewrite Esb in Hf |- *. set (sb := (format_superblock n).1) in *.
  assert (data_start sb < sb_size sb) as Hds by (unfold data_start, bitmap_blocks; rewrite Esz, Ebm; lia).
  set (f := bs_view store') in *. destruct (formatted_tree sb f Hg Hds ltac:(lia) Hf) as (Ht & Hmeta & _).
  assert (at_disk (StorePtr_spec ST) (console s) sb empty_table [] s f) as Ha.
  { split; [by rewrite Est|by split|]. intros c _. by rewrite Est. }
  change (inode_table (initial_fs p)) with empty_table in Etbl. rewrite Etbl. split; [by exists f|].
  destruct (empty_table_ok sb) as (Htok & Hcoh & Href).
  assert (@bs_blocks _ _ (StorePtr_spec ST) = @bs_blocks _ _ ST) as Eb by done.
  unfold resolve_path. wp_step.
  apply (wp_walk (StorePtr_spec ST) (console s) sb Hg ltac:(rewrite Esz, Eb; lia) Hlimit f Ht ltac:(lia) false path empty_table s _ Ha Htok (Hcoh f)).
  { intros m. rewrite Href. done. }
  intros res tbl' s' Ha' Hw. destruct path as [|c path].
  { destruct Hw as [-> _]. wp_step. by left. }
  rewrite walk_spec_path in Hw. rewrite (lookup_formatted sb f) in Hw; [|done|done|lia|done|].
  2:{ apply Forall_forall. intros w Hw' Hz. by apply H0, (components_elem _ w). }
  destruct Hw as [Hw|(_ & _ & Hfree)]; [|by vm_compute in Hfree].
  destruct (decide (Forall _ _)) as [Hall|Hall]; cbn in Hw; [|destruct Hw as (-> & _); wp_step; by right].
  destruct Hw as (k & -> & Hh). destruct Hh as (Htok' & Hcoh' & (x & Hx & Hl) & Hr & _). wp_step.
  split; [done|]. split; [done|]. pose proof Ha' as [_ (_ & _ & Etbl') _]. rewrite Etbl'.
  assert (disk x = root_inode (data_start sb)) as Edx.
  { rewrite (Hcoh' k x Hx (proj1 Hl)), (proj2 Hl). apply Hf. }
  split.
  - exists x. split; [done|]. split; [apply Hl|]. split; [|by rewrite Edx].
    specialize (Hr ROOT_INODE). rewrite Href in Hr. unfold references in Hr.
    destruct (list_find (live ROOT_INODE) tbl') as [[j y]|] eqn:Ej.
    + apply list_find_Some in Ej as (Hy & Hly & _). rewrite (tok_unique _ Htok' _ _ _ _ _ Hx Hy Hl Hly) in Hx. simplify_eq.
      rewrite Hr. done.
    + apply list_find_None in Ej. rewrite Forall_lookup in Ej. by destruct (Ej k x Hx).
  - intros name Hnz. apply (wp_directory_lookup (StorePtr_spec ST) (console s) sb Hg ltac:(rewrite Esz, Eb; lia) tbl' [] k x f Hx).
    + rewrite Edx. pose proof (Ht ROOT_INODE ltac:(rewrite Eni; done)) as [H _]. by rewrite (formatted_root _ _ Hf) in H.
    + cbn. lia.
    + done.
    + intros s2 _. rewrite Edx. rewrite root_entries_of by apply Hf. change (type _ =? kDirectory) with true. cbn [andb].
      destruct (is_valid_name name) eqn:Ev; [rewrite root_find by done; by repeat case_decide|].
      rewrite !decide_False; [done|intros ->; by vm_compute in Ev|intros ->; by vm_compute in Ev].
Qed.
End mounted.

(** ** Witnesses: a formatted RAM disk *)
#[local] Existing Instance ram64.

Definition root64 : Inode := mkInode 1 1 true (root_inode (data_start sb64)).
Definition root_table : list Inode := [root64].
Lemma formatted64 tbl :
  ∃ (s : Fs RamStore) f, at_disk ram64 NullConsole sb64 tbl [] s f ∧ formatted sb64 f ∧ tree_ok sb64 f ∧
    metadata_used sb64 f ∧ inode_inv sb64 f (disk root64) ∧ entries_of f (disk root64) = root_entries.
Proof.
  destruct (formatted_disk tbl) as (s & Ha & Hf). exists s, (bs_view (block_store s)).
  destruct (formatted_tree sb64 _ sb64_geometry ltac:(by vm_compute) ltac:(by vm_compute) Hf) as (Ht & Hm & _).
  split; [done|]. split; [done|]. split; [done|]. split; [done|]. split.
  - destruct (Ht 1 ltac:(by vm_compute)) as [H _].
    change 1 with ROOT_INODE in H. by rewrite (formatted_root _ _ Hf) in H.
  - apply root_entries_of. apply (formatted_directory _ _ Hf).
Qed.

Lemma formatted_disk_correct_witness :
  wp (initialize 64 (Some (ram_zero 64)) (Some NullConsole) : M (Fs (StorePtr RamStore)) bool)
    (initial_fs (inr NullBlockStore_instance))
    (λ ok s, ok = true ∧ wp (resolve_path (string_bytes "/.././")) s (λ r _, r ≠ None)) ∧
  wp (initialize 64 (Some (ram_zero 64)) (Some NullConsole) : M (Fs (StorePtr RamStore)) bool)
    (initial_fs (inr NullBlockStore_instance))
    (λ ok s, ok = true ∧ wp (resolve_path (string_bytes "/init")) s (λ r _, r = None)).
Proof.
  split; (eapply wp_mono; [eapply (formatted_disk_correct ram64 ltac:(cbn; lia) 64 (ram_zero 64) NullConsole (inr NullBlockStore_instance));
    [lia|done|exact (ram_zero_ok 64)|exact zero_disk_unformatted|]|]).
  - apply (bool_decide_unpack (0 ∉ string_bytes "/.././")). reflexivity.
  - intros ok s (-> & _ & H). split; [reflexivity|]. eapply wp_mono; [exact H|]. intros [k|] s'; [done|].
    intros [H'|H']; [done|]. exfalso. apply H'. by apply (bool_decide_unpack _).
  - apply (bool_decide_unpack (0 ∉ string_bytes "/init")). reflexivity.
  - intros ok s (-> & _ & H). split; [reflexivity|]. eapply wp_mono; [exact H|]. intros [k|] s'; [|done].
    intros (_ & H' & _). exfalso. by apply (bool_decide_pack _) in H'.
Defined.

Lemma directory_lookup_correct_witness :
  ∃ s : Fs RamStore, wp (directory_lookup 0 (string_bytes "..")) s (λ r _, r ≠ None).
Proof.
  destruct (formatted64 root_table) as (s & f & Ha & Hf & Ht & Hm & Hi & He). exists s.
  eapply wp_mono; [apply (directory_lookup_correct ram64 NullConsole sb64 sb64_geometry sb64_size ltac:(cbn; lia)
    root_table s f 0 root64 (string_bytes "..") Ha)|].
  - reflexivity.
  - exact Hi.
  - intros [d|] s' [_ H]; [done|]. exfalso. rewrite He in H.
    apply (H eq_refl ltac:(vm_compute; lia) ltac:(by apply (bool_decide_unpack _)) (mkDirectoryEntry 1 (string_bytes ".." ++ replicate 12 0))).
    + right. left.
    + by apply (bool_decide_unpack _).
Defined.

Lemma directory_link_correct_witness :
  ∃ (s : Fs RamStore) f, wp (directory_link 0 (string_bytes "init") 2) s (λ ok s',
    if ok then wp (directory_lookup 0 (string_bytes "init")) s' (λ r _, r = Some (mkDirectoryLookup 2 32))
    else ∃ f', (∀ c, 0 <= c < sb_size sb64 → used sb64 f' c = true)) ∧ formatted sb64 f.
Proof.
  destruct (formatted64 root_table) as (s & f & Ha & Hf & Ht & Hm & Hi & He). exists s, f. split; [|exact Hf].
  eapply wp_mono; [apply (directory_link_correct ram64 NullConsole sb64 sb64_geometry sb64_size ltac:(cbn; lia)
    root_table s f 0 root64 (string_bytes "init") 2 Ha)|].
  - reflexivity.
  - exact Hi.
  - exact Hm.
  - by vm_compute.
  - reflexivity.
  - change (string_bytes "init") with [105; 110; 105; 116]. by repeat constructor.
  - by apply (bool_decide_unpack _).
  - lia.
  - intros ok s' (f' & di' & _ & _ & _ & H). assert (linkable f root64 (string_bytes "init") 2) as Hl.
    { unfold linkable. rewrite He. split; [reflexivity|]. split; [vm_compute; lia|]. split; [by apply (bool_decide_unpack _)|]. split; [lia|].
      intros e Hin. unfold root_entries in Hin. rewrite !elem_of_cons, elem_of_nil in Hin. destruct_or! Hin; subst; by apply (bool_decide_unpack _). }
    specialize (H Hl). rewrite He in H. destruct ok; [|destruct H as [H|H]; [by exists f'|by vm_compute in H]].
    destruct H as (k & e & [[(e0 & Hk & H0)| ->] _] & _ & _ & _ & _ & H & _); [|exact H].
    exfalso. destruct k as [|[|k]]; [by injection Hk as <-..|done].
Defined.

Lemma resolve_path_correct_witness :
  ∃ s : Fs RamStore, wp (resolve_path (string_bytes "/../.")) s (λ r _, r ≠ None) ∧
    wp (resolve_path (string_bytes "/init")) s (λ r _, r = None).
Proof.
  destruct (formatted64 empty_table) as (s & f & Ha & Hf & Ht & Hm & Hi & He). exists s.
  destruct (empty_table_ok sb64) as (Hok & Hc & Hr).
  destruct (formatted_tree sb64 f sb64_geometry ltac:(by vm_compute) ltac:(by vm_compute) Hf) as (_ & _ & Hfind).
  split; (eapply wp_mono; [apply (resolve_path_correct ram64 NullConsole sb64 sb64_geometry sb64_size ltac:(cbn; lia)
    f Ht ltac:(by vm_compute) empty_table s _ Ha Hok (Hc f)); intros m; rewrite Hr; by vm_compute|]).
  - intros [k|] s' (tbl' & _ & _ & H); [done|]. exfalso. destruct H as [_ [H|[H|H]]]; [done| |by vm_compute in H].
    change (components (string_bytes "/../.")) with [string_bytes ".."; string_bytes "."] in H. cbn [lookup_path] in H.
    rewrite (Hfind (string_bytes "..")), decide_True in H by (by (right; reflexivity) || by apply (bool_decide_unpack _)).
    cbn [mbind option_bind] in H.
    rewrite (Hfind (string_bytes ".")), decide_True in H by (by (left; reflexivity) || by apply (bool_decide_unpack _)).
    done.
  - intros [k|] s' (tbl' & _ & _ & H); [|done]. exfalso. destruct H as (n & _ & H & _).
    change (components (string_bytes "/init")) with [string_bytes "init"] in H. cbn [lookup_path] in H.
    rewrite (Hfind (string_bytes "init")), decide_False in H;
      [done|by intros [H'|H']|by apply (bool_decide_unpack _)].
Defined.

Lemma resolve_parent_correct_witness :
  ∃ s : Fs RamStore, wp (resolve_parent (string_bytes "/init")) s (λ r _,
    ∃ parent, r = Some (parent, string_bytes "init")).
Proof.
  destruct (formatted64 empty_table) as (s & f & Ha & Hf & Ht & Hm & Hi & He). exists s.
  destruct (empty_table_ok sb64) as (Hok & Hc & Hr).
  eapply wp_mono; [apply (resolve_parent_correct ram64 NullConsole sb64 sb64_geometry sb64_size ltac:(cbn; lia)
    f Ht ltac:(by vm_compute) empty_table s _ Ha Hok (Hc f)); intros m; rewrite Hr; by vm_compute|].
  change (components (string_bytes "/init")) with [string_bytes "init"]. cbn [last removelast lookup_path].
  intros [[parent name]|] s' (tbl' & _ & _ & H).
  - destruct H as (k & n & _ & [= <-] & _). by exists parent.
  - exfalso. destruct H as [_ [H|[H|H]]]; [done| |by vm_compute in H].
    apply (H ROOT_INODE eq_refl). rewrite (formatted_root _ _ Hf). reflexivity.
Defined.
