(* ===== verification/Pmm.v ===== *)
(** * The physical memory manager (include/pmm.hpp, include/pmm.cpp)

    A bitmap with one bit per page of 4 KiB, 1 for used. *)
From S2P Require Import Prelude.

(** [4_KiB]; [MAX_PAGES] pages are 256 MiB. *)
Definition PAGE_SIZE : Z := 4096.
Definition MAX_PAGES : Z := 65536.
Definition BITMAP_SIZE : Z := MAX_PAGES / 8.

(** [PhysicalAddress] (include/address.hpp): [None] is the invalid one. *)
Abbreviation PhysicalAddress := (option Z).

(** An entry of the memory map (include/multiboot2.hpp). *)
Record MemoryMapEntry := mkMemoryMapEntry { base_addr : Z; entry_length : Z; entry_type : Z }.
Definition MULTIBOOT2_MEMORY_AVAILABLE : Z := 1.

(** [multiboot_info_size]; [total_size] is what the header at the address
    says. *)
Definition multiboot_info_size (multiboot_address total_size : Z) : Z :=
  if multiboot_address =? 0 then 0 else total_size.

(** [class PhysicalMemoryManager] *)
Record Pmm := mkPmm {
  bitmap_ : list Z;
  base_ : Z;
  pages_ : Z;
  free_pages_ : Z;
}.

Record PhysicalMemoryManagerState := mkState { total_pages : Z; free_pages : Z; base : Z; top : Z }.

Definition set_bitmap v p := mkPmm v (base_ p) (pages_ p) (free_pages_ p).
Definition set_base v p := mkPmm (bitmap_ p) v (pages_ p) (free_pages_ p).
Definition set_pages v p := mkPmm (bitmap_ p) (base_ p) v (free_pages_ p).
Definition set_free_pages v p := mkPmm (bitmap_ p) (base_ p) (pages_ p) v.

(** Access to the bitmap; stuck out of bounds. *)
Definition set_bit (page_index : Z) : M Pmm () :=
  p ← get; l ← defined (Prelude.set_bit (bitmap_ p) page_index); put (set_bitmap l p).
Definition clear_bit (page_index : Z) : M Pmm () :=
  p ← get; l ← defined (Prelude.clear_bit (bitmap_ p) page_index); put (set_bitmap l p).
Definition test_bit (page_index : Z) : M Pmm bool :=
  p ← get; defined (get_bit (bitmap_ p) page_index).

Definition address_to_page_index (p : Pmm) (address : Z) : Z := u64 (address - base_ p) / PAGE_SIZE.
Definition page_index_to_address (p : Pmm) (page_index : Z) : Z := u64 (base_ p + page_index * PAGE_SIZE).

(** [free_pages_++] and [if (free_pages_ > 0) free_pages_--;] *)
Definition count_free : M Pmm () := modify (λ p, set_free_pages (u64 (free_pages_ p + 1)) p).
Definition uncount_free : M Pmm () :=
  modify (λ p, if free_pages_ p >? 0 then set_free_pages (free_pages_ p - 1) p else p).

Definition free (page_address : PhysicalAddress) : M Pmm () :=
  p ← get;
  match page_address with
  | None => mret ()
  | Some address =>
      if address <? base_ p then mret ()
      else
        let page_index := address_to_page_index p address in
        if page_index >=? MAX_PAGES then mret ()
        else
          used ← test_bit page_index;
          if (used : bool) then _ ← clear_bit page_index; count_free else mret ()
  end.

(** The loop of [allocate], from page [i] on. *)
Fixpoint allocate_loop (fuel : nat) (i : Z) : M Pmm PhysicalAddress :=
  match fuel with
  | O => stuck
  | S fuel =>
      p ← get;
      if i <? pages_ p then
        used ← test_bit i;
        if negb used then
          _ ← set_bit i;
          _ ← modify (λ p, set_free_pages (u64 (free_pages_ p - 1)) p);
          p ← get;
          mret (Some (page_index_to_address p i))
        else allocate_loop fuel (i + 1)
      else mret None
  end.

Definition allocate : M Pmm PhysicalAddress :=
  p ← get; allocate_loop (S (Z.to_nat (pages_ p))) 0.

Definition get_state (p : Pmm) : PhysicalMemoryManagerState :=
  mkState (pages_ p) (free_pages_ p) (base_ p) (u64 (base_ p + pages_ p * PAGE_SIZE)).

(** [x & ~(PAGE_SIZE - 1)], and the same after rounding up. *)
Definition page_down (x : Z) : Z := Z.land x (u64 (Z.lnot (PAGE_SIZE - 1))).
Definition page_up (x : Z) : Z := page_down (u64 (x + PAGE_SIZE - 1)).

(** [for (addr; addr < stop; addr += PAGE_SIZE) f(addr);] *)
Fixpoint page_loop (fuel : nat) (f : Z → M Pmm ()) (addr stop : Z) : M Pmm () :=
  match fuel with
  | O => stuck
  | S fuel =>
      if addr <? stop then _ ← f addr; page_loop fuel f (u64 (addr + PAGE_SIZE)) stop
      else mret ()
  end.
Definition for_pages (f : Z → M Pmm ()) (addr stop : Z) : M Pmm () :=
  page_loop (S (Z.to_nat ((stop - addr) / PAGE_SIZE + 1))) f addr stop.

Definition reserve_page (addr : Z) : M Pmm () :=
  p ← get;
  if addr <? base_ p then mret ()
  else
    let page_index := address_to_page_index p addr in
    if page_index >=? pages_ p then mret ()
    else
      used ← test_bit page_index;
      if negb used then _ ← set_bit page_index; uncount_free else mret ().

Definition reserve_region (start stop : Z) : M Pmm () :=
  if stop <=? start then mret ()
  else for_pages reserve_page (page_down start) (page_up stop).

(** The pages of a usable entry: [[start, end)], or [None]. *)
Definition entry_pages (e : MemoryMapEntry) : option (Z * Z) :=
  if negb (entry_type e =? MULTIBOOT2_MEMORY_AVAILABLE) then None
  else
    let start := page_up (base_addr e) in
    let stop := page_down (u64 (base_addr e + entry_length e)) in
    if start >=? stop then None else Some (start, stop).

(** The first loop of the constructor: the number of pages, and where the
    first usable entry starts. *)
Fixpoint count_pages (entries : list MemoryMapEntry) (total base_found : Z) : Z * Z :=
  match entries with
  | [] => (total, base_found)
  | e :: entries =>
      match entry_pages e with
      | None => count_pages entries total base_found
      | Some (start, stop) =>
          count_pages entries (u64 (total + (stop - start) / PAGE_SIZE))
            (if total =? 0 then start else base_found)
      end
  end.

(** The second loop: the usable pages behind the kernel are freed. *)
Fixpoint free_entries (entries : list MemoryMapEntry) (kernel_end : Z) : M Pmm () :=
  match entries with
  | [] => mret ()
  | e :: entries =>
      _ ← match entry_pages e with
          | None => mret ()
          | Some (start, stop) =>
              for_pages (λ addr, if addr <? kernel_end then mret () else free (Some addr)) start stop
          end;
      free_entries entries kernel_end
  end.

Definition reserve_kernel_page (addr : Z) : M Pmm () :=
  p ← get;
  let page_idx := address_to_page_index p addr in
  if page_idx <? pages_ p then _ ← set_bit page_idx; uncount_free else mret ().

(** The constructor; [entries] is the memory map. *)
Definition construct (entries : list MemoryMapEntry) (kernel_end multiboot_address total_size : Z) : M Pmm () :=
  _ ← put (mkPmm (replicate (Z.to_nat BITMAP_SIZE) 255) 0 0 0);
  let '(total, base_found) := count_pages entries 0 0 in
  if total =? 0 then mret ()
  else
    _ ← modify (set_base base_found);
    _ ← modify (set_pages (if total >? MAX_PAGES then MAX_PAGES else total));
    _ ← free_entries entries kernel_end;
    p ← get;
    _ ← (if base_ p =? 0 then _ ← set_bit 0; uncount_free else mret ());
    p ← get;
    _ ← for_pages reserve_kernel_page (base_ p) (page_up kernel_end);
    reserve_region multiboot_address
      (u32 (multiboot_address + multiboot_info_size multiboot_address total_size)).

(** ** What holds of the manager *)

(** Page [i] is in use. *)
Definition page_used (p : Pmm) (i : Z) : bool := bit (bitmap_ p) i.

Record pmm_ok (p : Pmm) : Prop := {
  po_length : length (bitmap_ p) = Z.to_nat BITMAP_SIZE;
  po_bytes : bytes (bitmap_ p);
  po_pages : 0 <= pages_ p <= MAX_PAGES;
  po_base : 0 <= base_ p;
  po_aligned : base_ p `mod` PAGE_SIZE = 0;
  po_top : base_ p + MAX_PAGES * PAGE_SIZE <= 18446744073709551616;
}.

(** [p'] is [p] with the pages in use described by [u]; the count of free
    pages may be anything. *)
Definition pages_become (p p' : Pmm) (u : Z → bool) : Prop :=
  pmm_ok p' ∧ base_ p' = base_ p ∧ pages_ p' = pages_ p ∧
  ∀ i, 0 <= i < MAX_PAGES → page_used p' i = u i.

Lemma pages_become_refl p : pmm_ok p → pages_become p p (page_used p).
Proof. done. Qed.

Lemma pages_become_trans p1 p2 p3 u v :
  pages_become p1 p2 u → pages_become p2 p3 v → pages_become p1 p3 v.
Proof.
  intros (_ & H1 & H2 & _) (H3 & H4 & H5 & H6). split; [done|]. split; [congruence|]. split; [congruence|done].
Qed.

Lemma index_bound p i : pmm_ok p → 0 <= i < MAX_PAGES → 0 <= i < 8 * Z.of_nat (length (bitmap_ p)).
Proof.
  intros Hp Hi. rewrite (po_length _ Hp). change (Z.of_nat (Z.to_nat BITMAP_SIZE)) with 8192.
  unfold MAX_PAGES in Hi. lia.
Qed.

Lemma wp_test_bit p i (Q : bool → Pmm → Prop) :
  pmm_ok p → 0 <= i < MAX_PAGES → Q (page_used p i) p → wp (test_bit i) p Q.
Proof.
  intros Hp Hi HQ. unfold test_bit. wp_steps. eapply wp_defined; [|exact HQ].
  apply get_bit_spec. by apply index_bound.
Qed.

Lemma pages_become_bitmap p l u :
  pmm_ok p → length l = length (bitmap_ p) → bytes l → (∀ j, 0 <= j → bit l j = u j) →
  pages_become p (set_bitmap l p) u.
Proof.
  intros Hp Hlen Hb Hu. split; [|split; [done|split; [done|]]].
  - destruct Hp. split; cbn; congruence || done.
  - intros i Hi. apply Hu. lia.
Qed.

Lemma wp_set_bit p i (Q : () → Pmm → Prop) :
  pmm_ok p → 0 <= i < MAX_PAGES →
  (∀ p', pages_become p p' (λ j, page_used p j || (j =? i)) → free_pages_ p' = free_pages_ p → Q () p') →
  wp (set_bit i) p Q.
Proof.
  intros Hp Hi HQ. destruct (set_bit_spec (bitmap_ p) i) as (l & Hl & Hlen & Hb & Hbit).
  { by apply index_bound. }
  unfold set_bit. wp_steps. apply HQ; [|done]. apply pages_become_bitmap; [done|done|apply Hb, Hp|done].
Qed.

Lemma wp_clear_bit p i (Q : () → Pmm → Prop) :
  pmm_ok p → 0 <= i < MAX_PAGES →
  (∀ p', pages_become p p' (λ j, page_used p j && negb (j =? i)) → free_pages_ p' = free_pages_ p → Q () p') →
  wp (clear_bit i) p Q.
Proof.
  intros Hp Hi HQ. destruct (clear_bit_spec (bitmap_ p) i) as (l & Hl & Hlen & Hb & Hbit).
  { by apply index_bound. }
  unfold clear_bit. wp_steps. apply HQ; [|done]. apply pages_become_bitmap; [done|done|apply Hb, Hp|done].
Qed.

Lemma pages_become_count p v : pmm_ok p → pages_become p (set_free_pages v p) (page_used p).
Proof. intros Hp. split; [|done]. by destruct Hp. Qed.

Lemma pages_become_uncount p :
  pmm_ok p → pages_become p (if free_pages_ p >? 0 then set_free_pages (free_pages_ p - 1) p else p) (page_used p).
Proof. intros Hp. destruct (_ >? 0); [by apply pages_become_count|done]. Qed.

Lemma page_address p i :
  pmm_ok p → 0 <= i < MAX_PAGES →
  page_index_to_address p i = base_ p + i * PAGE_SIZE ∧
  address_to_page_index p (base_ p + i * PAGE_SIZE) = i.
Proof.
  intros [_ _ _ Hb _ Ht] Hi. unfold page_index_to_address, address_to_page_index, PAGE_SIZE, MAX_PAGES in *.
  rewrite !u64_small by lia. split; [done|]. lia.
Qed.

(** The index of an address at or above the base. *)
Lemma address_index p a :
  pmm_ok p → base_ p <= a < 18446744073709551616 →
  address_to_page_index p a = (a - base_ p) / 4096 ∧ 0 <= address_to_page_index p a.
Proof.
  intros [_ _ _ Hb _ Ht] Ha. unfold address_to_page_index, PAGE_SIZE. rewrite u64_small by lia. lia.
Qed.

(** ** allocate *)
Lemma wp_allocate_page_loop p fuel i (Q : PhysicalAddress → Pmm → Prop) :
  pmm_ok p → 0 <= i → pages_ p < i + Z.of_nat fuel → i <= pages_ p →
  (∀ j, 0 <= j < i → page_used p j = true) →
  ((∀ j, 0 <= j < pages_ p → page_used p j = true) → Q None p) →
  (∀ k p', 0 <= k < pages_ p → page_used p k = false → (∀ j, 0 <= j < k → page_used p j = true) →
    pages_become p p' (λ j, page_used p j || (j =? k)) →
    free_pages_ p' = u64 (free_pages_ p - 1) → Q (Some (base_ p + k * PAGE_SIZE)) p') →
  wp (allocate_loop fuel i) p Q.
Proof.
  intros Hp. revert i. induction fuel as [|fuel IH]; intros i Hi Hf Hle Hbelow HNone HSome; [lia|].
  cbn [allocate_loop]. do 2 wp_step. pose proof (po_pages _ Hp) as Hmax. destruct (i <? pages_ p) eqn:E.
  - wp_step. apply wp_test_bit; [done|lia|]. destruct (page_used p i) eqn:Eu; cbn [negb].
    + apply IH; try done; [lia..|]. intros j Hj. destruct (decide (j = i)) as [->|]; [done|apply Hbelow; lia].
    + wp_step. apply wp_set_bit; [done|lia|]. intros p1 Hp1 Hfp. wp_steps.
      destruct (page_address p i Hp) as [Ha _]; [lia|].
      assert (page_index_to_address (set_free_pages (u64 (free_pages_ p1 - 1)) p1) i = base_ p + i * PAGE_SIZE) as ->.
      { rewrite <- Ha. unfold page_index_to_address. cbn. by destruct Hp1 as (_ & -> & _). }
      apply (HSome i); [lia|done|done| |by rewrite Hfp].
      destruct Hp1 as (Hok & Hb & Hpg & Hu). split; [by destruct Hok|]. done.
  - wp_step. apply HNone. intros j Hj. apply Hbelow. lia.
Qed.

Lemma wp_allocate p (Q : PhysicalAddress → Pmm → Prop) :
  pmm_ok p →
  ((∀ j, 0 <= j < pages_ p → page_used p j = true) → Q None p) →
  (∀ k p', 0 <= k < pages_ p → page_used p k = false → (∀ j, 0 <= j < k → page_used p j = true) →
    pages_become p p' (λ j, page_used p j || (j =? k)) →
    free_pages_ p' = u64 (free_pages_ p - 1) → Q (Some (base_ p + k * PAGE_SIZE)) p') →
  wp allocate p Q.
Proof.
  intros Hp HNone HSome. unfold allocate. do 2 wp_step. pose proof (po_pages _ Hp).
  apply wp_allocate_page_loop; try done; lia.
Qed.

(** ** free *)
Lemma wp_free p a (Q : () → Pmm → Prop) :
  pmm_ok p → (∀ x, a = Some x → 0 <= x < 18446744073709551616) →
  (∀ p', pages_become p p' (λ j, page_used p j &&
     negb (match a with Some x => (base_ p <=? x) && (j =? (x - base_ p) / 4096) | None => false end)) → Q () p') →
  wp (free a) p Q.
Proof.
  intros Hp Ha HQ. unfold free. do 2 wp_step.
  assert (∀ b : Z → bool, (∀ i, 0 <= i < MAX_PAGES → b i = false ∨ page_used p i = false) →
    pages_become p p (λ j, page_used p j && negb (b j))) as Hid.
  { intros b Hb. split; [done|]. split; [done|]. split; [done|]. intros i Hi.
    destruct (Hb i Hi) as [-> | ->]; [by rewrite andb_true_r|done]. }
  destruct a as [x|].
  2:{ wp_step. apply HQ. apply (Hid (λ _, false)). auto. }
  specialize (Ha x eq_refl). destruct (x <? base_ p) eqn:E.
  { wp_step. apply HQ. apply (Hid (λ j, (base_ p <=? x) && (j =? (x - base_ p) / 4096))). intros i Hi. left. lia. }
  destruct (address_index p x Hp) as [Ei Hi0]; [lia|].
  destruct (address_to_page_index p x >=? MAX_PAGES) eqn:E2.
  { wp_step. apply HQ. apply (Hid (λ j, (base_ p <=? x) && (j =? (x - base_ p) / 4096))). intros i Hi. left. lia. }
  wp_step. apply wp_test_bit; [done|lia|]. destruct (page_used p (address_to_page_index p x)) eqn:Eu.
  - wp_step. apply wp_clear_bit; [done|lia|]. intros p1 Hp1 _. unfold count_free. wp_step. apply HQ.
    destruct Hp1 as (Hok & Hb & Hpg & Hu). split; [by destruct Hok|]. split; [done|]. split; [done|].
    intros i Hi. etrans; [by apply Hu|]. rewrite Ei. by replace (base_ p <=? x) with true by lia.
  - wp_step. apply HQ. apply (Hid (λ j, (base_ p <=? x) && (j =? (x - base_ p) / 4096))).
    intros i Hi. destruct (decide (i = (x - base_ p) / 4096)) as [->|]; [right; by rewrite <- Ei|left; lia].
Qed.

(** ** Loops over the pages of a region *)

(** Where page [j] starts. *)
Definition page_start (p : Pmm) (j : Z) : Z := base_ p + j * PAGE_SIZE.

(** The pages that [c] selects have become used ([v]) or free. *)
Definition pages_set (p p' : Pmm) (v : bool) (c : Z → bool) : Prop :=
  pages_become p p' (λ j, if c j then v else page_used p j).

Lemma pages_become_ext p p' u u' :
  (∀ j, 0 <= j < MAX_PAGES → u j = u' j) → pages_become p p' u → pages_become p p' u'.
Proof.
  intros Hu (H1 & H2 & H3 & H4). split; [done|]. split; [done|]. split; [done|].
  intros j Hj. rewrite H4 by done. by apply Hu.
Qed.

Lemma pages_set_nothing p v c :
  pmm_ok p → (∀ j, 0 <= j < MAX_PAGES → c j = true → page_used p j = v) → pages_set p p v c.
Proof.
  intros Hp Hc. eapply pages_become_ext; [|by apply pages_become_refl].
  intros j Hj. cbn. destruct (c j) eqn:E; [by apply Hc|done].
Qed.

Lemma pages_set_trans p1 p2 p3 v c d e :
  pages_set p1 p2 v c → pages_set p2 p3 v d → (∀ j, 0 <= j < MAX_PAGES → e j = c j || d j) →
  pages_set p1 p3 v e.
Proof.
  intros H12 H23 He. pose proof (pages_become_trans _ _ _ _ _ H12 H23) as H13.
  destruct H12 as (_ & _ & _ & H2). eapply pages_become_ext; [|exact H13].
  intros j Hj. cbn. rewrite (He j Hj), (H2 j Hj). by destruct (c j), (d j).
Qed.

Lemma pages_set_ext p p' v c d :
  (∀ j, 0 <= j < MAX_PAGES → c j = d j) → pages_set p p' v c → pages_set p p' v d.
Proof. intros Hc. apply pages_become_ext. intros j Hj. by rewrite (Hc j Hj). Qed.

(** The page of an aligned address. *)
Lemma page_start_index p a j :
  pmm_ok p → a `mod` PAGE_SIZE = 0 → 0 <= j →
  ((base_ p <=? a) && (j =? (a - base_ p) / 4096)) = (page_start p j =? a).
Proof.
  intros [_ _ _ _ Hm _] Ha Hj. unfold page_start, PAGE_SIZE in *. lia.
Qed.

Section ForPages.
Context (f : Z → M Pmm ()) (v : bool) (c : Z → bool) (p : Pmm) (stop : Z).
Hypothesis Hstop : stop <= 18446744073709551616 - PAGE_SIZE.
Hypothesis Hbase : base_ p `mod` PAGE_SIZE = 0.

Definition page_body start : Prop := ∀ a p1, start <= a < stop → a `mod` PAGE_SIZE = 0 →
  pmm_ok p1 → base_ p1 = base_ p → pages_ p1 = pages_ p →
  wp (f a) p1 (λ _ p2, pages_set p1 p2 v (λ j, (page_start p j =? a) && c j)).

Definition in_region start (j : Z) : bool := (start <=? page_start p j) && (page_start p j <? stop) && c j.

Lemma wp_page_loop fuel start p1 (Q : () → Pmm → Prop) :
  0 <= start → start `mod` PAGE_SIZE = 0 → stop - start <= (Z.of_nat fuel - 1) * PAGE_SIZE →
  (0 < fuel)%nat → pmm_ok p1 → base_ p1 = base_ p → pages_ p1 = pages_ p →
  page_body start →
  (∀ p', pages_set p1 p' v (in_region start) → Q () p') →
  wp (page_loop fuel f start stop) p1 Q.
Proof using Hstop Hbase.
  revert start p1. induction fuel as [|fuel IH]; intros start p1 Hs Ha Hf Hf0 Hok Hb Hp Hbody HQ; [inversion Hf0|].
  cbn [page_loop]. destruct (start <? stop) eqn:E.
  - wp_step. eapply wp_mono; [apply Hbody; done || lia|]. intros [] p2 H2. cbn beta.
    pose proof H2 as (Hok2 & Hb2 & Hp2 & _). rewrite u64_small by (unfold PAGE_SIZE in *; lia).
    apply IH; try done; try congruence; try (unfold PAGE_SIZE in *; lia).
    { intros a p3 Hr. apply Hbody. unfold PAGE_SIZE in *; lia. }
    intros p3 H3. apply HQ. eapply pages_set_trans; [exact H2|exact H3|].
    intros j Hj. unfold in_region, page_start, PAGE_SIZE in *. cbn. destruct (c j); [|by rewrite !andb_false_r].
    rewrite !andb_true_r. lia.
  - wp_step. apply HQ. apply pages_set_nothing; [done|]. intros j Hj Hc. exfalso.
    unfold in_region in Hc. lia.
Qed.

Lemma wp_for_pages start (Q : () → Pmm → Prop) :
  0 <= start → start `mod` PAGE_SIZE = 0 → pmm_ok p → page_body start →
  (∀ p', pages_set p p' v (in_region start) → Q () p') →
  wp (for_pages f start stop) p Q.
Proof using Hstop Hbase.
  intros Hs Ha Hok Hbody HQ. unfold for_pages. destruct (decide (start <= stop)).
  - apply wp_page_loop; try done; unfold PAGE_SIZE in *; lia.
  - cbn [page_loop]. replace (start <? stop) with false by lia. wp_step. apply HQ.
    apply pages_set_nothing; [done|]. intros j Hj Hc. unfold in_region in Hc. exfalso. lia.
Qed.
End ForPages.

(** ** Rounding *)
Lemma page_down_eq x : 0 <= x < 18446744073709551616 → page_down x = x / PAGE_SIZE * PAGE_SIZE.
Proof. intros Hx. by apply (land_lnot_ones x 12). Qed.

(** An address a kernel can meet: rounding it up does not wrap. *)
Definition address_ok (x : Z) : Prop := 0 <= x <= 4503599627370496.

Lemma page_up_eq x : address_ok x → page_up x = (x + (PAGE_SIZE - 1)) / PAGE_SIZE * PAGE_SIZE.
Proof.
  intros Hx. unfold page_up, address_ok in *. rewrite u64_small, page_down_eq by (unfold PAGE_SIZE; lia).
  f_equal. f_equal. lia.
Qed.

(** ** reserve_region *)

Lemma wp_uncount p (Q : () → Pmm → Prop) :
  pmm_ok p → (∀ p', pages_become p p' (page_used p) → Q () p') → wp uncount_free p Q.
Proof. intros Hp HQ. unfold uncount_free. wp_step. apply HQ. by apply pages_become_uncount. Qed.

(** Marking page [i] as used, then adjusting the count. *)
Lemma wp_set_and_uncount p i (Q : () → Pmm → Prop) :
  pmm_ok p → 0 <= i < MAX_PAGES → (∀ p', pages_set p p' true (λ j, j =? i) → Q () p') →
  wp (_ ← set_bit i; uncount_free) p Q.
Proof.
  intros Hp Hi HQ. wp_step. apply wp_set_bit; [done..|]. intros p1 H1 _. apply wp_uncount; [apply H1|].
  intros p2 H2. apply HQ. pose proof H1 as (_ & _ & _ & Hu).
  eapply pages_become_ext; [|exact (pages_become_trans _ _ _ _ _ H1 H2)].
  intros j Hj. cbn. rewrite (Hu j Hj). destruct (j =? i); [apply orb_true_r|apply orb_false_r].
Qed.

Lemma reserve_page_body p stop start :
  pmm_ok p → 0 <= start → stop <= 18446744073709551616 - PAGE_SIZE →
  page_body reserve_page true (λ j, j <? pages_ p) p stop start.
Proof.
  intros Hp0 Hs Hstop a p1 Ha Hm Hp Hb Hpg. unfold reserve_page. do 2 wp_step.
  destruct (a <? base_ p1) eqn:E.
  { wp_step. apply pages_set_nothing; [done|]. intros j Hj Hc. exfalso.
    unfold page_start, PAGE_SIZE in *. lia. }
  destruct (address_index p1 a Hp) as [Ei Hi0]; [unfold PAGE_SIZE in *; lia|].
  assert (∀ j, 0 <= j → (page_start p j =? a) = (j =? address_to_page_index p1 a)) as Hidx.
  { intros j Hj. replace (page_start p j) with (page_start p1 j) by (unfold page_start; by rewrite Hb).
    rewrite <- page_start_index by done. rewrite Ei. by replace (base_ p1 <=? a) with true by lia. }
  destruct (address_to_page_index p1 a >=? pages_ p1) eqn:E2.
  { wp_step. apply pages_set_nothing; [done|]. intros j Hj Hc. exfalso. rewrite Hidx in Hc; lia. }
  pose proof (po_pages _ Hp). wp_step. apply wp_test_bit; [done|lia|].
  destruct (page_used p1 (address_to_page_index p1 a)) eqn:Eu; cbn [negb].
  - wp_step. apply pages_set_nothing; [done|]. intros j Hj Hc. rewrite Hidx in Hc by lia.
    by replace j with (address_to_page_index p1 a) by lia.
  - apply wp_set_and_uncount; [done|lia|]. intros p2 H2. eapply pages_set_ext; [|exact H2].
    intros j Hj. cbn beta. rewrite Hidx by lia. destruct (j =? _) eqn:Ej; [|done]. cbn. lia.
Qed.

(** Page [j] overlaps [[start, stop)]. *)
Definition overlaps (p : Pmm) (start stop j : Z) : bool :=
  (start <? stop) && (start <? page_start p j + PAGE_SIZE) && (page_start p j <? stop).

Lemma wp_reserve_region p start stop (Q : () → Pmm → Prop) :
  pmm_ok p → address_ok start → address_ok stop →
  (∀ p', pages_set p p' true (λ j, overlaps p start stop j && (j <? pages_ p)) → Q () p') →
  wp (reserve_region start stop) p Q.
Proof.
  intros Hp Hs He HQ. unfold reserve_region. destruct (stop <=? start) eqn:E.
  { wp_step. apply HQ. apply pages_set_nothing; [done|]. unfold overlaps. intros j Hj Hc. exfalso. lia. }
  unfold address_ok in *.
  rewrite page_down_eq, page_up_eq by (unfold address_ok; lia). pose proof (po_aligned _ Hp) as Hm.
  apply wp_for_pages with (v := true) (c := λ j, j <? pages_ p); try done.
  all: try (unfold PAGE_SIZE in *; lia).
  { apply reserve_page_body; unfold PAGE_SIZE in *; lia || done. }
  intros p' H'. apply HQ. eapply pages_set_ext; [|exact H'].
  intros j Hj. unfold in_region, overlaps, page_start, PAGE_SIZE in *. destruct (j <? pages_ p); [|by rewrite !andb_false_r].
  rewrite !andb_true_r. clear H' HQ. lia.
Qed.

(** ** The constructor *)

(** Page [j] is usable memory of one of the entries. *)
Definition in_entry (p : Pmm) (j : Z) (e : MemoryMapEntry) : bool :=
  match entry_pages e with
  | Some (start, stop) => (start <=? page_start p j) && (page_start p j <? stop)
  | None => false
  end.
Definition usable (p : Pmm) (entries : list MemoryMapEntry) (j : Z) : bool := existsb (in_entry p j) entries.

(** The firmware's entries: no end of an entry is beyond 2^52. *)
Definition entry_ok (e : MemoryMapEntry) : Prop :=
  0 <= base_addr e ∧ 0 <= entry_length e ∧ address_ok (base_addr e + entry_length e).

Lemma entry_pages_ok e start stop :
  entry_ok e → entry_pages e = Some (start, stop) →
  0 <= start < stop ∧ start `mod` PAGE_SIZE = 0 ∧ stop `mod` PAGE_SIZE = 0 ∧ address_ok stop ∧
  base_addr e <= start ∧ stop <= base_addr e + entry_length e.
Proof.
  intros (Hb & Hl & Ha). unfold entry_pages, address_ok in *. destruct (negb _); [done|].
  rewrite page_up_eq, u64_small, page_down_eq by (unfold address_ok; lia).
  destruct (_ >=? _) eqn:E; [done|]. intros [= <- <-]. unfold PAGE_SIZE in *. lia.
Qed.

Lemma free_page_body kernel_end p stop start :
  pmm_ok p → 0 <= start → stop <= 18446744073709551616 - PAGE_SIZE →
  page_body (λ addr, if addr <? kernel_end then mret () else free (Some addr)) false
    (λ j, negb (page_start p j <? kernel_end)) p stop start.
Proof.
  intros Hp0 Hs Hstop a p1 Ha Hm Hp Hb Hpg. cbn beta.
  destruct (a <? kernel_end) eqn:E.
  { wp_step. apply pages_set_nothing; [done|]. intros j Hj Hc. exfalso. lia. }
  apply wp_free; [done|intros x [= <-]; unfold PAGE_SIZE in *; lia|].
  intros p2 H2. eapply pages_become_ext; [|exact H2]. intros j Hj. cbn beta.
  rewrite page_start_index by (done || lia).
  replace (page_start p1 j) with (page_start p j) by (unfold page_start; by rewrite Hb).
  destruct (page_start p j =? a) eqn:Ea; cbn.
  - replace (page_start p j <? kernel_end) with false by lia. by rewrite andb_false_r.
  - by rewrite andb_true_r.
Qed.

Lemma page_start_base p p' j : base_ p' = base_ p → page_start p' j = page_start p j.
Proof. unfold page_start. by intros ->. Qed.

Lemma in_entry_base p p' j e : base_ p' = base_ p → in_entry p' j e = in_entry p j e.
Proof. intros H. unfold in_entry. by rewrite (page_start_base _ _ j H). Qed.

Lemma usable_base p p' entries j : base_ p' = base_ p → usable p' entries j = usable p entries j.
Proof.
  intros H. unfold usable. induction entries as [|e l IH]; [done|]. cbn. by rewrite IH, (in_entry_base _ _ _ _ H).
Qed.

Lemma wp_free_entries entries kernel_end p (Q : () → Pmm → Prop) :
  Forall entry_ok entries → pmm_ok p →
  (∀ p', pages_set p p' false (λ j, usable p entries j && negb (page_start p j <? kernel_end)) → Q () p') →
  wp (free_entries entries kernel_end) p Q.
Proof.
  intros Hes. revert p Q. induction Hes as [|e entries He Hes IH]; intros p Q Hp HQ; cbn [free_entries].
  { wp_step. apply HQ. by apply pages_set_nothing. }
  wp_step. destruct (entry_pages e) as [[start stop]|] eqn:Ee.
  - destruct (entry_pages_ok e start stop He Ee) as (Hs & Hms & _ & Hstop & _). unfold address_ok in Hstop.
    apply wp_for_pages with (v := false) (c := λ j, negb (page_start p j <? kernel_end)); try done.
    1,3: unfold PAGE_SIZE in *; lia.
    { apply Hp. }
    { apply free_page_body; [done|lia|unfold PAGE_SIZE; lia]. }
    intros p1 H1. apply IH; [apply H1|]. intros p2 H2. apply HQ.
    pose proof H1 as (_ & Hb1 & _). eapply pages_set_trans; [exact H1|exact H2|].
    intros j Hj. cbn beta. rewrite (usable_base _ _ _ _ Hb1), (page_start_base _ _ _ Hb1).
    unfold in_region, usable. cbn [existsb]. unfold in_entry at 1. rewrite Ee.
    destruct (negb _); [by rewrite !andb_true_r|by rewrite !andb_false_r].
  - wp_step. apply IH; [done|]. intros p1 H1. apply HQ. eapply pages_set_ext; [|exact H1].
    intros j Hj. cbn beta. unfold usable. cbn [existsb]. unfold in_entry at 2. by rewrite Ee.
Qed.

Lemma reserve_kernel_body p stop start :
  pmm_ok p → base_ p <= start → stop <= 18446744073709551616 - PAGE_SIZE →
  page_body reserve_kernel_page true (λ j, j <? pages_ p) p stop start.
Proof.
  intros Hp0 Hs Hstop a p1 Ha Hm Hp Hb Hpg. unfold reserve_kernel_page. do 2 wp_step.
  destruct (address_index p1 a Hp) as [Ei Hi0]; [unfold PAGE_SIZE in *; pose proof (po_base _ Hp0); lia|].
  assert (∀ j, 0 <= j → (page_start p j =? a) = (j =? address_to_page_index p1 a)) as Hidx.
  { intros j Hj. rewrite <- (page_start_base _ _ j Hb), <- page_start_index by done.
    rewrite Ei. by replace (base_ p1 <=? a) with true by lia. }
  pose proof (po_pages _ Hp). destruct (address_to_page_index p1 a <? pages_ p1) eqn:E2.
  - apply wp_set_and_uncount; [done|lia|]. intros p2 H2. eapply pages_set_ext; [|exact H2].
    intros j Hj. cbn beta. rewrite Hidx by lia. destruct (j =? _) eqn:Ej; [|done]. cbn. lia.
  - wp_step. apply pages_set_nothing; [done|]. intros j Hj Hc. exfalso. rewrite Hidx in Hc; lia.
Qed.

(** The number of usable pages, and the first of them. *)
Definition entry_count (e : MemoryMapEntry) : Z :=
  match entry_pages e with Some (start, stop) => (stop - start) / PAGE_SIZE | None => 0 end.
Definition usable_pages (entries : list MemoryMapEntry) : Z := foldr (λ e n, entry_count e + n) 0 entries.

Lemma entry_count_range e : entry_ok e → 0 <= entry_count e <= 1099511627776.
Proof.
  intros He. unfold entry_count. destruct (entry_pages e) as [[s t]|] eqn:E; [|lia].
  destruct (entry_pages_ok e s t He E) as (? & ? & ? & Ht & _). unfold address_ok, PAGE_SIZE in *. lia.
Qed.

(** The first entry with pages starts at [b]. *)
Definition first_entry (entries : list MemoryMapEntry) (b : Z) : Prop :=
  ∃ before e after stop, entries = before ++ e :: after ∧ Forall (λ x, entry_pages x = None) before ∧ entry_pages e = Some (b, stop).

Lemma count_pages_eq entries total base_found :
  Forall entry_ok entries → 0 <= total → total + Z.of_nat (length entries) * 1099511627776 < 18446744073709551616 →
  let '(total', base') := count_pages entries total base_found in
  total' = total + usable_pages entries ∧ total <= total' ∧
  (total ≠ 0 → base' = base_found) ∧
  (total' ≠ 0 → total = 0 → 0 <= base' <= 4503599627370496 ∧ base' `mod` PAGE_SIZE = 0 ∧ first_entry entries base').
Proof.
  intros Hes. revert total base_found. induction Hes as [|e entries He Hes IH]; intros total b Ht Hlen; cbn [count_pages].
  { split; [cbn; lia|]. split; [lia|]. split; [done|]. intros ? ?; lia. }
  change (usable_pages (e :: entries)) with (entry_count e + usable_pages entries).
  cbn [length] in Hlen. pose proof (entry_count_range e He) as Hc. unfold entry_count in *.
  destruct (entry_pages e) as [[s t]|] eqn:E.
  - destruct (entry_pages_ok e s t He E) as (Hst & Hms & Hmt & Hto & _). rewrite u64_small by lia.
    specialize (IH (total + (t - s) / PAGE_SIZE) (if total =? 0 then s else b)).
    destruct (count_pages _ _ _) as [total' b']. destruct IH as (H1 & H2 & H3 & H4); [lia..|].
    assert (0 < (t - s) / PAGE_SIZE) by (unfold PAGE_SIZE in *; lia).
    split; [lia|]. split; [lia|]. rewrite H3 by lia.
    destruct (total =? 0) eqn:E0.
    + split; [lia|]. intros _ _. unfold address_ok in Hto. split; [lia|]. split; [done|].
      by exists [], e, entries, t.
    + split; [done|lia].
  - specialize (IH total b). destruct (count_pages _ _ _) as [total' b'].
    destruct IH as (H1 & H2 & H3 & H4); [lia..|]. split; [lia|]. split; [lia|].
    split; [done|]. intros Hn H0. destruct (H4 Hn H0) as (? & ? & before & e' & after & stop & -> & ? & ?).
    split; [done|]. split; [done|]. exists (e :: before), e', after, stop. split; [done|]. split; [by constructor|done].
Qed.

Lemma bit_replicate_255 n j : 0 <= j < 8 * Z.of_nat n → bit (replicate n 255) j = true.
Proof.
  intros Hj. unfold bit. rewrite nth_lookup, lookup_replicate_2 by lia.
  apply (Z.ones_spec_low 8 (j `mod` 8)). lia.
Qed.

(** The manager once its base and size are known: every page is used. *)
Definition all_used (b n : Z) : Pmm := mkPmm (replicate (Z.to_nat BITMAP_SIZE) 255) b n 0.

Lemma all_used_ok b n :
  address_ok b → b `mod` PAGE_SIZE = 0 → 0 <= n <= MAX_PAGES →
  pmm_ok (all_used b n) ∧ ∀ j, 0 <= j < MAX_PAGES → page_used (all_used b n) j = true.
Proof.
  intros Hb Hm Hn. unfold address_ok in Hb. split.
  - split; cbn [bitmap_ base_ pages_ all_used]; [apply length_replicate|apply bytes_replicate|..]; try done.
    + lia.
    + unfold MAX_PAGES, PAGE_SIZE. lia.
  - intros j Hj. apply bit_replicate_255. change (Z.of_nat (Z.to_nat BITMAP_SIZE)) with 8192.
    unfold MAX_PAGES in Hj. lia.
Qed.

(** A page the constructor leaves free. *)
Definition free_at_boot (p : Pmm) (entries : list MemoryMapEntry) (kernel_end info info_end j : Z) : bool :=
  usable p entries j && (kernel_end <=? page_start p j) && negb (page_start p j =? 0) &&
  negb (overlaps p info info_end j).

Lemma free_at_boot_base p p' entries k i e j :
  base_ p' = base_ p → free_at_boot p' entries k i e j = free_at_boot p entries k i e j.
Proof.
  intros H. unfold free_at_boot, overlaps. by rewrite (usable_base _ _ _ _ H), (page_start_base _ _ _ H).
Qed.

(** The constructor behind the first loop. *)
Lemma wp_construct_rest entries kernel_end info info_end b n (Q : () → Pmm → Prop) :
  Forall entry_ok entries → address_ok b → b `mod` PAGE_SIZE = 0 → 0 < n <= MAX_PAGES →
  address_ok kernel_end → address_ok info → address_ok info_end →
  (∀ p', pmm_ok p' → base_ p' = b → pages_ p' = n →
     (∀ j, 0 <= j < n → page_used p' j = negb (free_at_boot p' entries kernel_end info info_end j)) → Q () p') →
  wp (_ ← free_entries entries kernel_end;
      p ← get;
      _ ← (if base_ p =? 0 then _ ← set_bit 0; uncount_free else mret ());
      p ← get;
      _ ← for_pages reserve_kernel_page (base_ p) (page_up kernel_end);
      reserve_region info info_end) (all_used b n) Q.
Proof.
  intros Hes Hb Hm Hn Hk Hi He HQ. destruct (all_used_ok b n Hb Hm) as [Hok0 Hall]; [lia|].
  wp_step. apply wp_free_entries; [done|done|]. intros p1 H1. pose proof H1 as (Hok1 & Hb1 & Hn1 & _).
  do 3 wp_step. apply wp_mono with (P := λ _ p2, pages_set p1 p2 true (λ j, page_start p1 j =? 0)).
  { destruct (base_ p1 =? 0) eqn:E.
    - apply wp_set_and_uncount; [done|unfold MAX_PAGES; lia|]. intros p2 H2.
      eapply pages_set_ext; [|exact H2]. intros j Hj. unfold page_start, PAGE_SIZE. lia.
    - wp_step. apply pages_set_nothing; [done|]. intros j Hj Hc. exfalso.
      pose proof (po_base _ Hok1). unfold page_start, PAGE_SIZE in Hc. lia. }
  intros [] p2 H2. cbn beta. pose proof H2 as (Hok2 & Hb2 & Hn2 & _). do 3 wp_step.
  pose proof Hk as Hk'. unfold address_ok in Hk'. pose proof (po_base _ Hok2).
  rewrite page_up_eq by done. apply wp_for_pages with (v := true) (c := λ j, j <? pages_ p2); try done.
  { unfold PAGE_SIZE in *; lia. }
  { apply (po_aligned _ Hok2). }
  { apply (po_aligned _ Hok2). }
  { apply reserve_kernel_body; [done|done|unfold PAGE_SIZE; lia]. }
  intros p3 H3. pose proof H3 as (Hok3 & Hb3 & Hn3 & _).
  apply wp_reserve_region; try done. intros p4 H4.
  destruct H4 as (Hok4 & Hb4 & Hn4 & H4). destruct H3 as (_ & _ & _ & H3). destruct H2 as (_ & _ & _ & H2).
  destruct H1 as (_ & _ & _ & H1).
  change (base_ p1 = b) in Hb1. change (pages_ p1 = n) in Hn1.
  apply HQ; [done|congruence|congruence|]. intros j Hj. unfold MAX_PAGES in *.
  rewrite H4, H3, H2, H1 by lia.
  rewrite (free_at_boot_base (all_used b n) p4) by (cbn; congruence).
  unfold in_region, free_at_boot, overlaps, page_start, PAGE_SIZE in *. cbn in *.
  rewrite Hb3, Hb2, Hb1, Hn3, Hn2, Hn1 in *. rewrite Hall by lia.
  replace (b + j * 4096 <? (kernel_end + (4096 - 1)) `div` 4096 * 4096) with (negb (kernel_end <=? b + j * 4096)) by lia.
  replace (b + j * 4096 <? kernel_end) with (negb (kernel_end <=? b + j * 4096)) by lia.
  replace (j <? n) with true by lia. replace (b <=? b + j * 4096) with true by lia.
  destruct (usable _ _ _), (kernel_end <=? _), (_ =? 0), (info <? info_end), (info <? _), (_ <? info_end); done.
Qed.

(** ** The properties *)

(** What [allocate] returns and changes. *)
Definition allocated (p : Pmm) (r : PhysicalAddress) (p' : Pmm) : Prop :=
  match r with
  | None => p' = p ∧ ∀ j, 0 <= j < pages_ p → page_used p j = true
  | Some a => ∃ k, 0 <= k < pages_ p ∧ a = base_ p + k * PAGE_SIZE ∧
      page_used p k = false ∧ (∀ j, 0 <= j < k → page_used p j = true) ∧
      pages_become p p' (λ j, page_used p j || (j =? k)) ∧ free_pages_ p' = u64 (free_pages_ p - 1)
  end.

(** [allocate] terminates and returns the lowest free page of the managed range: it
    marks that page and no other as used, takes one from the count and returns the
    page's address; it fails only when every page is in use, and then changes
    nothing. Freeing the page again restores the bitmap. *)
Theorem allocate_correct p :
  pmm_ok p →
  ∃ r p', allocate p = Some (r, p') ∧ allocated p r p' ∧
    (∀ a, r = Some a → wp (free r) p' (λ _ p2, pages_become p p2 (page_used p))).
Proof.
  intros Hp. assert (wp allocate p (λ r p', allocated p r p')) as H.
  { apply wp_allocate; [done|by intros|]. intros k p' Hk Hu Hlow Hb Hc. exists k. done. }
  destruct H as (r & p' & Hrun & H). exists r, p'. split; [done|]. split; [done|].
  intros a ->. destruct H as (k & Hk & -> & Hu & _ & Hb & _). destruct Hb as (Hok & Hbase & Hpages & Hbits).
  destruct (page_address p k Hp) as [_ Hidx]; [pose proof (po_pages _ Hp); lia|].
  destruct (page_address p' k Hok) as [_ Hidx']; [pose proof (po_pages _ Hp); lia|].
  apply wp_free; [done| |].
  { intros x [= <-]. destruct Hp as [_ _ Hpg Hb0 _ Ht]. unfold PAGE_SIZE, MAX_PAGES in *. lia. }
  intros p2 (Hok2 & Hb2 & Hp2 & Hbits2). split; [done|]. split; [congruence|]. split; [congruence|].
  intros i Hi. rewrite Hbits2, Hbits, Hbase by done.
  replace ((base_ p + k * PAGE_SIZE - base_ p) / 4096) with k by (unfold PAGE_SIZE; lia).
  replace (base_ p <=? base_ p + k * PAGE_SIZE) with true by (unfold PAGE_SIZE; lia).
  destruct (i =? k) eqn:E; cbn; [|by rewrite orb_false_r, andb_true_r].
  rewrite andb_false_r. symmetry. by replace i with k by lia.
Qed.

(** [free] of an address gives back the page the address lies in and touches no
    other bit, and it ignores an invalid address and one below the base or beyond
    the bitmap. *)
Theorem free_correct p a :
  pmm_ok p → (∀ x, a = Some x → 0 <= x < 18446744073709551616) →
  wp (free a) p (λ _ p',
    pmm_ok p' ∧ base_ p' = base_ p ∧ pages_ p' = pages_ p ∧
    ∀ j, 0 <= j < MAX_PAGES →
      (page_used p' j = false ↔
       page_used p j = false ∨ ∃ x, a = Some x ∧ page_start p j <= x < page_start p j + PAGE_SIZE)).
Proof.
  intros Hp Ha. apply wp_free; [done|done|]. intros p' (Hok & Hb & Hpg & Hu).
  split; [done|]. split; [done|]. split; [done|]. intros j Hj. rewrite Hu, andb_false_iff, negb_false_iff by done.
  unfold page_start, PAGE_SIZE. destruct a as [x|].
  - specialize (Ha x eq_refl). split; intros [H|H]; try (by left); right.
    + exists x. split; [done|]. lia.
    + destruct H as (y & [= <-] & Hy). lia.
  - split; [by intros [H|H]; [left|]|]. intros [H|H]; [by left|]. by destruct H as (y & ? & _).
Qed.

(** [reserve_region] marks exactly the managed pages that overlap the region, the
    partly covered ones at both ends too, so [allocate] cannot hand one out any
    more. *)
Theorem reserve_region_correct p start stop :
  pmm_ok p → address_ok start → address_ok stop →
  wp (reserve_region start stop) p (λ _ p',
    pmm_ok p' ∧ base_ p' = base_ p ∧ pages_ p' = pages_ p ∧
    ∀ j, 0 <= j < MAX_PAGES →
      (page_used p' j = true ↔
       page_used p j = true ∨
       (j < pages_ p ∧ ∃ x, start <= x < stop ∧ page_start p j <= x < page_start p j + PAGE_SIZE))).
Proof.
  intros Hp Hs He. apply wp_reserve_region; try done. intros p' (Hok & Hb & Hpg & Hu).
  split; [done|]. split; [done|]. split; [done|]. intros j Hj. rewrite Hu by done.
  destruct (overlaps p start stop j && (j <? pages_ p)) eqn:E; (split; [intros H|intros [H|H]]); try done.
  - right. unfold overlaps in E. split; [lia|]. exists (Z.max start (page_start p j)). unfold PAGE_SIZE in *. lia.
  - by left.
  - destruct H as (Hlt & x & Hx & Hx'). unfold overlaps in E. unfold PAGE_SIZE in *. lia.
Qed.

(** The constructor. *)
Lemma wp_pmm_construct p entries kernel_end info total_size :
  Forall entry_ok entries → Z.of_nat (length entries) <= 1048576 → address_ok kernel_end →
  0 <= info → 0 <= total_size → info + total_size < 4294967296 →
  wp (construct entries kernel_end info total_size) p (λ _ p',
    pages_ p' = Z.min (usable_pages entries) MAX_PAGES ∧
    (0 < pages_ p' → pmm_ok p' ∧
       first_entry entries (base_ p') ∧
       ∀ j, 0 <= j < pages_ p' →
         (page_used p' j = false ↔
          free_at_boot p' entries kernel_end info (info + multiboot_info_size info total_size) j = true))).
Proof.
  intros Hes Hlen Hk Hi Ht Hsum. unfold construct. wp_step. wp_step.
  pose proof (count_pages_eq entries 0 0 Hes) as Hc. destruct (count_pages entries 0 0) as [total b].
  destruct Hc as (Htot & Hge & _ & Hb); [lia|lia|]. cbn beta iota.
  destruct (total =? 0) eqn:E0.
  { wp_step. cbn [pages_]. split; [unfold MAX_PAGES; lia|]. lia. }
  destruct Hb as (Hb & Hm & Hfirst); [lia|done|]. do 4 wp_step.
  assert (0 <= multiboot_info_size info total_size <= total_size) as Hsz.
  { unfold multiboot_info_size. destruct (info =? 0); lia. }
  rewrite u32_small by lia.
  apply (wp_construct_rest entries kernel_end info (info + multiboot_info_size info total_size)
           b (if total >? MAX_PAGES then MAX_PAGES else total)); try done; unfold address_ok; try lia.
  { unfold MAX_PAGES. destruct (total >? 65536) eqn:E; lia. }
  intros p' Hok Hbase Hpages Hbits. split.
  { rewrite Hpages. destruct (total >? MAX_PAGES) eqn:E; lia. }
  intros _. split; [done|]. split; [by rewrite Hbase|]. intros j Hj. rewrite Hbits by congruence.
  apply negb_false_iff.
Qed.

(** *** The pages of the map, byte by byte *)

(** Page number [k] lies in the usable entry [e] as a whole; these pages in order. *)
Definition whole_page (e : MemoryMapEntry) (k : Z) : Prop :=
  entry_type e = MULTIBOOT2_MEMORY_AVAILABLE ∧ base_addr e <= k * 4096 ∧ (k + 1) * 4096 <= base_addr e + entry_length e.
#[export] Instance whole_page_dec e k : Decision (whole_page e k).
Proof. unfold whole_page. apply _. Defined.
Definition whole_pages (e : MemoryMapEntry) : list Z := filter (whole_page e) (seqZ 0 ((base_addr e + entry_length e) / 4096)).
Definition count_whole_pages (entries : list MemoryMapEntry) : Z := Z.of_nat (length (mjoin (whole_pages <$> entries))).

Lemma filter_none {A} (Q : A → Prop) `{!∀ x, Decision (Q x)} (l : list A) : (∀ x, x ∈ l → ¬ Q x) → filter Q l = [].
Proof.
  intros HQ. induction l as [|x l IH]; [done|]. rewrite filter_cons, decide_False by (apply HQ; left). apply IH. intros y Hy. apply HQ. by right.
Qed.
Lemma filter_all {A} (Q : A → Prop) `{!∀ x, Decision (Q x)} (l : list A) : (∀ x, x ∈ l → Q x) → filter Q l = l.
Proof.
  intros HQ. induction l as [|x l IH]; [done|]. rewrite filter_cons, decide_True by (apply HQ; left). f_equal. apply IH. intros y Hy. apply HQ. by right.
Qed.

Lemma filter_seqZ (Q : Z → Prop) `{!∀ k, Decision (Q k)} lo n :
  0 <= lo <= n → (∀ k, 0 <= k < n → Q k ↔ lo <= k) → filter Q (seqZ 0 n) = seqZ lo (n - lo).
Proof.
  intros Hlo HQ. replace n with (lo + (n - lo)) at 1 by lia. rewrite seqZ_app, filter_app by lia. rewrite Z.add_0_l.
  rewrite (filter_none _ (seqZ 0 lo)), (filter_all _ (seqZ lo _)); [done|..]; intros k Hk%elem_of_seqZ; rewrite HQ; lia.
Qed.

Lemma whole_pages_entry e : entry_ok e →
  match entry_pages e with
  | Some (start, stop) => whole_pages e = seqZ (start / 4096) ((stop - start) / 4096)
  | None => whole_pages e = []
  end.
Proof.
  intros (Hb & Hl & Ha). unfold entry_pages, whole_pages, address_ok in *.
  assert (∀ Q `{!∀ k, Decision (Q k)} n, (∀ k, 0 <= k < n → ¬ Q k) → filter Q (seqZ 0 n) = []) as Hnone.
  { intros Q HQ n H. apply filter_none. intros k Hk%elem_of_seqZ. apply H. lia. }
  destruct (entry_type e =? MULTIBOOT2_MEMORY_AVAILABLE) eqn:Et; cbn [negb].
  2:{ apply Hnone. intros k _ (Hk & _). lia. }
  rewrite page_up_eq, u64_small, page_down_eq by (unfold address_ok; lia). unfold PAGE_SIZE in *.
  destruct (_ >=? _) eqn:E.
  - apply Hnone. unfold whole_page. lia.
  - rewrite (filter_seqZ _ ((base_addr e + (4096 - 1)) / 4096)); [f_equal; lia|lia|]. unfold whole_page. lia.
Qed.

Lemma in_entry_whole p j e : entry_ok e → base_ p `mod` 4096 = 0 → 0 <= base_ p → 0 <= j →
  in_entry p j e = true ↔ whole_page e (base_ p / 4096 + j).
Proof.
  intros He Hm Hb Hj. pose proof (whole_pages_entry e He) as Hw. pose proof He as (H1 & H2 & H3).
  assert (whole_page e (base_ p / 4096 + j) ↔ base_ p / 4096 + j ∈ whole_pages e) as ->.
  { unfold whole_pages. rewrite list_elem_of_filter, elem_of_seqZ. unfold whole_page. lia. }
  unfold in_entry, page_start, PAGE_SIZE. destruct (entry_pages e) as [[start stop]|] eqn:E.
  - destruct (entry_pages_ok e start stop He E) as (Hs & Hms & Hmt & _). unfold PAGE_SIZE in *. rewrite Hw, elem_of_seqZ. lia.
  - rewrite Hw. split; [done|]. by intros ?%elem_of_nil.
Qed.

Lemma usable_whole p j entries : Forall entry_ok entries → base_ p `mod` 4096 = 0 → 0 <= base_ p → 0 <= j →
  usable p entries j = true ↔ ∃ e, e ∈ entries ∧ whole_page e (base_ p / 4096 + j).
Proof.
  intros Hes Hm Hb Hj. unfold usable. rewrite existsb_exists. setoid_rewrite <- list_elem_of_In.
  split; intros (e & He & H); exists e; (split; [done|]);
    rewrite Forall_forall in Hes; by apply (in_entry_whole p j e (Hes e He)).
Qed.

Lemma usable_pages_count entries : Forall entry_ok entries → usable_pages entries = count_whole_pages entries.
Proof.
  unfold count_whole_pages. induction 1 as [|e l He _ IH]; [done|].
  change (usable_pages (e :: l)) with (entry_count e + usable_pages l). cbn [fmap list_fmap mjoin list_join]. rewrite length_app, IH.
  pose proof (whole_pages_entry e He) as Hw. unfold entry_count. destruct (entry_pages e) as [[start stop]|] eqn:E; rewrite Hw; [|done].
  destruct (entry_pages_ok e start stop He E) as (Hs & _). rewrite length_seqZ. unfold PAGE_SIZE in *. rewrite Nat2Z.inj_add, Z2Nat.id by lia. done.
Qed.

Lemma first_entry_head entries b : Forall entry_ok entries → first_entry entries b →
  ∃ k, head (mjoin (whole_pages <$> entries)) = Some k ∧ b = k * 4096.
Proof.
  intros Hes (before & e & after & stop & -> & Hno & He). apply Forall_app in Hes as [Hb (Hok & _)%Forall_cons].
  pose proof (whole_pages_entry e Hok) as Hw. rewrite He in Hw. destruct (entry_pages_ok e b stop Hok He) as (Hs & Hm1 & Hm2 & _).
  unfold PAGE_SIZE in *. exists (b / 4096). split; [|lia].
  induction Hno as [|x l Hx _ IH].
  - cbn. rewrite Hw. by rewrite seqZ_cons by lia.
  - apply Forall_cons in Hb as [Hxok Hb]. cbn. pose proof (whole_pages_entry x Hxok) as Hwx. rewrite Hx in Hwx. rewrite Hwx. by apply IH.
Qed.

(** C35: For a memory map of at most 2^20 entries that end below 2^52, and a block
    of boot information below 4 GiB, the constructor returns. The pages of the map
    are those that lie in a usable entry as a whole. The manager covers as many
    pages as there are, 65536 at most, from the first page of the first entry that
    has one; and of the pages it covers exactly those are free that are pages of the
    map, at or above the kernel's end, not at address 0, and without a byte of the
    block. *)
Theorem construct_correct p entries kernel_end info total_size :
  Forall entry_ok entries → Z.of_nat (length entries) <= 1048576 → address_ok kernel_end →
  0 <= info → 0 <= total_size → info + total_size < 4294967296 →
  wp (construct entries kernel_end info total_size) p (λ _ p',
    pages_ p' = Z.min (count_whole_pages entries) 65536 ∧
    (0 < pages_ p' → pmm_ok p' ∧
       (∃ k, head (mjoin (whole_pages <$> entries)) = Some k ∧ base_ p' = k * 4096) ∧
       ∀ j, 0 <= j < pages_ p' →
         (page_used p' j = false ↔
          (∃ e, e ∈ entries ∧ whole_page e (base_ p' / 4096 + j)) ∧ kernel_end <= base_ p' + j * 4096 ∧ base_ p' + j * 4096 ≠ 0 ∧
          ∀ x, base_ p' + j * 4096 <= x < base_ p' + (j + 1) * 4096 → ¬ (info ≠ 0 ∧ info <= x < info + total_size)))).
Proof.
  intros Hes Hlen Hk Hi Ht Hsum. eapply wp_mono; [by apply wp_pmm_construct|]. intros _ p' [Hn H].
  rewrite <- usable_pages_count by done. split; [done|]. intros Hpos. destruct (H Hpos) as (Hok & Hfirst & Hfree).
  split; [done|]. split; [by apply first_entry_head|]. intros j Hj. pose proof (po_base _ Hok) as Hb. pose proof (po_aligned _ Hok) as Hm.
  rewrite (Hfree j Hj). unfold free_at_boot. rewrite !andb_true_iff, (usable_whole p' j) by (done || lia).
  unfold overlaps, page_start, PAGE_SIZE, multiboot_info_size in *. destruct (info =? 0) eqn:E0.
  - split; [intros [[[H1 H2] H3] H4]; split; [done|]; split; [lia|]; split; [lia|]; intros x Hx; lia|]. intros (H1 & H2 & H3 & H4). split; [|lia]. split; [|lia]. split; [done|lia].
  - split; [intros [[[H1 H2] H3] H4]; split; [done|]; split; [lia|]; split; [lia|]; intros x Hx; lia|]. intros (H1 & H2 & H3 & H4). split; [split; [split; [done|lia]|lia]|].
    specialize (H4 (Z.max info (base_ p' + j * 4096))). lia.
Qed.

(** ** Witnesses *)

(** Eight pages from address 0, the kernel in the first two, the boot
    information in the fourth. *)
Definition small_map : list MemoryMapEntry := [mkMemoryMapEntry 0 32768 MULTIBOOT2_MEMORY_AVAILABLE].
Definition small_pmm : Pmm := mkPmm (11 :: replicate 8191 255) 0 8 5.

Lemma small_pmm_ok : pmm_ok small_pmm.
Proof.
  split; cbn [bitmap_ base_ pages_ small_pmm].
  - change (Z.to_nat BITMAP_SIZE) with (S 8191). cbn [length]. by rewrite length_replicate.
  - apply Forall_cons. split; [unfold byte_ok; lia|]. apply bytes_replicate. unfold byte_ok. lia.
  - unfold MAX_PAGES. lia.
  - lia.
  - done.
  - unfold MAX_PAGES, PAGE_SIZE. lia.
Qed.

Lemma allocate_correct_witness :
  ∃ r p', allocate small_pmm = Some (r, p') ∧ allocated small_pmm r p' ∧
    (∀ a, r = Some a → wp (free r) p' (λ _ p2, pages_become small_pmm p2 (page_used small_pmm))).
Proof. apply (allocate_correct small_pmm). exact small_pmm_ok. Defined.

Lemma free_correct_witness :
  wp (free (Some 4100)) small_pmm (λ _ p',
    pmm_ok p' ∧ base_ p' = 0 ∧ pages_ p' = 8 ∧
    ∀ j, 0 <= j < MAX_PAGES →
      (page_used p' j = false ↔
       page_used small_pmm j = false ∨
       ∃ x, Some 4100 = Some x ∧ page_start small_pmm j <= x < page_start small_pmm j + PAGE_SIZE)).
Proof. apply (free_correct small_pmm (Some 4100)); [exact small_pmm_ok|]. intros x [= <-]. lia. Defined.

Lemma reserve_region_correct_witness :
  wp (reserve_region 20000 20500) small_pmm (λ _ p',
    pmm_ok p' ∧ base_ p' = 0 ∧ pages_ p' = 8 ∧
    ∀ j, 0 <= j < MAX_PAGES →
      (page_used p' j = true ↔
       page_used small_pmm j = true ∨
       (j < 8 ∧ ∃ x, 20000 <= x < 20500 ∧ page_start small_pmm j <= x < page_start small_pmm j + PAGE_SIZE))).
Proof.
  apply (reserve_region_correct small_pmm 20000 20500); [exact small_pmm_ok|..]; unfold address_ok; lia.
Defined.

(** A map whose first usable entry has no whole page and whose second one starts and
    ends within a page. *)
Definition ragged_map : list MemoryMapEntry :=
  [mkMemoryMapEntry 0 4096 2; mkMemoryMapEntry 4097 4096 MULTIBOOT2_MEMORY_AVAILABLE;
   mkMemoryMapEntry 12000 20000 MULTIBOOT2_MEMORY_AVAILABLE; mkMemoryMapEntry 0 4096 MULTIBOOT2_MEMORY_AVAILABLE].

Lemma construct_correct_witness :
  ∃ p, construct ragged_map 16000 20500 100 (mkPmm [] 0 0 0) = Some (tt, p) ∧ pages_ p = 5 ∧ base_ p = 12288 ∧
    ∀ j, 0 <= j < 5 → page_used p j = false ↔ j = 1 ∨ j = 3.
Proof.
  destruct (construct_correct (mkPmm [] 0 0 0) ragged_map 16000 20500 100) as ([] & p & Hrun & Hn & Hp); try (unfold address_ok; cbn; lia).
  { unfold ragged_map, entry_ok, address_ok. repeat (constructor; [cbn; lia|]). constructor. }
  change (count_whole_pages ragged_map) with 5 in Hn. rewrite Hn in Hp. destruct (Hp ltac:(lia)) as (_ & (k & Hk & Hb) & Hfree).
  change (head _) with (Some 3) in Hk. injection Hk as <-. exists p. split; [exact Hrun|]. split; [done|]. split; [done|].
  rewrite Hb in Hfree. intros j Hj. rewrite Hfree by lia. clear Hrun Hfree. split.
  - intros ((e & He & Hw) & H1 & _ & H2). unfold ragged_map, whole_page, MULTIBOOT2_MEMORY_AVAILABLE in *. pose proof (H2 20500).
    repeat (apply elem_of_cons in He as [->|He]; [cbn in Hw; lia|]). by apply elem_of_nil in He.
  - intros Hj2. split; [|split; [lia|split; [lia|intros x Hx; lia]]]. exists (mkMemoryMapEntry 12000 20000 MULTIBOOT2_MEMORY_AVAILABLE).
    split; [by right; right; left|]. unfold whole_page. cbn. split; [done|]. lia.
Defined.

(** ** The count of free pages

    The constructor takes pages from the count that the loop before never
    added, so the count is too small: here five pages are free, the count says
    two, and the third allocation makes it wrap around. *)
Definition boot_then (n : nat) : option PhysicalMemoryManagerState :=
  match construct small_map 8192 12288 600 (mkPmm [] 0 0 0) with
  | Some (_, p) => (λ '(_, p'), get_state p') <$> (Nat.iter n (λ m, _ ← allocate; m) (mret ())) p
  | None => None
  end.

Theorem free_pages_undercounted :
  boot_then 0 = Some (mkState 8 2 0 32768) ∧
  boot_then 3 = Some (mkState 8 18446744073709551615 0 32768).
Proof. vm_compute. done. Qed.

(** A hole between two entries is not counted, but it takes indices of the
    bitmap: memory at the end of the last entry is never handed out. *)
Definition hole_map : list MemoryMapEntry :=
  [mkMemoryMapEntry 0 8192 MULTIBOOT2_MEMORY_AVAILABLE; mkMemoryMapEntry 16384 8192 MULTIBOOT2_MEMORY_AVAILABLE].

Theorem memory_behind_hole_lost :
  ∃ p, construct hole_map 0 0 0 (mkPmm [] 0 0 0) = Some (tt, p) ∧
    get_state p = mkState 4 3 0 16384 ∧ usable p hole_map 4 = true ∧ page_used p 4 = false ∧
    (λ '(r, _), r) <$> (_ ← allocate; allocate) p = Some None.
Proof. eexists. split; [reflexivity|]. vm_compute. done. Qed.
