(* ===== verification/Keyboard.v ===== *)
(** * The keyboard driver (include/keyboard.hpp, include/keyboard.cpp)

    A ring buffer between the interrupt handler, which translates scan codes,
    and [getchar].  [Input] is what the driver promises: a bounded queue and two
    flags; [keyboard_refines_queue] says the ring buffer implements it, and
    [getchar_interleaved] that interrupts inside [getchar] do no harm. *)
From stdpp Require Import list_numbers strings.
From S2P Require Import Prelude.

(** The constants and the two tables; entries the source leaves out are 0. *)
Definition SC_L_SHIFT_DOWN : Z := 0x2A.
Definition SC_L_SHIFT_UP : Z := 0xAA.
Definition SC_R_SHIFT_DOWN : Z := 0x36.
Definition SC_R_SHIFT_UP : Z := 0xB6.
Definition SC_RELEASE_MASK : Z := 0x80.
Definition SC_EXTENDED_PREFIX : Z := 0xE0.
Definition SC_E0_DELETE : Z := 0x53.
Definition BUFFER_SIZE : Z := 256.

Definition chars (s : string) : list Z := (λ a, Z.of_nat (Ascii.nat_of_ascii a)) <$> String.list_ascii_of_string s.
Definition padded (l : list Z) : list Z := l ++ replicate (128 - length l) 0.

Definition scancode_map : list Z := padded (
  [0; 27] ++ chars "1234567890-=" ++ [8; 9] ++ chars "qwertyuiop[]" ++ [10; 0] ++
  chars "asdfghjkl;'`" ++ [0] ++ chars "\zxcvbnm,./" ++ [0] ++ chars "*" ++ [0] ++ chars " " ++ [0; 0]).
Definition scancode_map_shift : list Z := padded (
  [0; 27] ++ chars "!@#$%^&*()_+" ++ [8; 9] ++ chars "QWERTYUIOP{}" ++ [10; 0] ++
  chars "ASDFGHJKL:" ++ [34] ++ chars "~" ++ [0] ++ chars "|ZXCVBNM<>?" ++ [0] ++ chars "*" ++ [0] ++
  chars " " ++ [0; 0]).

(** The variables of the file. *)
Record Keyboard := mkKeyboard {
  buffer_ : list Z;
  head_ : Z;
  tail_ : Z;
  shift_pressed_ : bool;
  extended_ : bool;
}.

Definition set_head v k := mkKeyboard (buffer_ k) v (tail_ k) (shift_pressed_ k) (extended_ k).
Definition set_tail v k := mkKeyboard (buffer_ k) (head_ k) v (shift_pressed_ k) (extended_ k).
Definition set_shift v k := mkKeyboard (buffer_ k) (head_ k) (tail_ k) v (extended_ k).
Definition set_extended v k := mkKeyboard (buffer_ k) (head_ k) (tail_ k) (shift_pressed_ k) v.
Definition set_buffer v k := mkKeyboard v (head_ k) (tail_ k) (shift_pressed_ k) (extended_ k).

Definition boot : Keyboard := mkKeyboard (replicate 256 0) 0 0 false false.

(** [std::array::operator[]]; stuck out of bounds. *)
Definition array_get (l : list Z) (i : Z) : M Keyboard Z := defined (l !! Z.to_nat i).
Definition buffer_put (i c : Z) : M Keyboard () :=
  k ← get;
  if i <? BUFFER_SIZE then put (set_buffer (<[Z.to_nat i := c]> (buffer_ k)) k) else stuck.

Definition enqueue (c : Z) : M Keyboard () :=
  if c =? 0 then mret ()
  else
    k ← get;
    let head := head_ k in
    let next := (head + 1) `mod` BUFFER_SIZE in
    if negb (next =? tail_ k) then _ ← buffer_put head c; modify (set_head next) else mret ().

(** The interrupt controller, whose mask [initialize] changes, is not part of
    this state. *)
Definition initialize : M Keyboard () :=
  _ ← modify (set_tail 0); _ ← modify (set_head 0);
  _ ← modify (set_shift false); modify (set_extended false).

Definition has_input : M Keyboard bool := gets (λ k, negb (head_ k =? tail_ k)).

Definition getchar : M Keyboard Z :=
  k ← get;
  if head_ k =? tail_ k then mret 0
  else
    c ← array_get (buffer_ k) (tail_ k);
    _ ← modify (λ k, set_tail ((tail_ k + 1) `mod` BUFFER_SIZE) k);
    mret c.

(** [scancode] is what port 0x60 answers. *)
Definition handle_irq (scancode : Z) : M Keyboard () :=
  k ← get;
  if scancode =? SC_EXTENDED_PREFIX then modify (set_extended true)
  else if extended_ k then
    _ ← modify (set_extended false);
    if (Z.land scancode SC_RELEASE_MASK =? 0) && (scancode =? SC_E0_DELETE) then enqueue 8 else mret ()
  else if (scancode =? SC_L_SHIFT_DOWN) || (scancode =? SC_R_SHIFT_DOWN) then modify (set_shift true)
  else if (scancode =? SC_L_SHIFT_UP) || (scancode =? SC_R_SHIFT_UP) then modify (set_shift false)
  else if negb (Z.land scancode SC_RELEASE_MASK =? 0) then mret ()
  else if scancode >=? Z.of_nat (length scancode_map) then mret ()
  else
    c ← array_get (if shift_pressed_ k then scancode_map_shift else scancode_map) scancode;
    enqueue c.

(** ** What the driver promises *)

Record Input := mkInput { queue : list Z; shift : bool; extended : bool }.

(** At most 255 characters wait; the others are dropped. *)
Definition push (c : Z) (q : list Z) : list Z :=
  if (c =? 0) || (255 <=? length q)%nat then q else q ++ [c].

(** The key with a scan code, 0 if it has no character. *)
Definition key_char (shift : bool) (scancode : Z) : Z :=
  default 0 ((if shift then scancode_map_shift else scancode_map) !! Z.to_nat scancode).

Definition irq (scancode : Z) (s : Input) : Input :=
  if scancode =? SC_EXTENDED_PREFIX then mkInput (queue s) (shift s) true
  else if extended s then mkInput (if scancode =? SC_E0_DELETE then push 8 (queue s) else queue s) (shift s) false
  else if bool_decide (scancode ∈ [SC_L_SHIFT_DOWN; SC_R_SHIFT_DOWN]) then mkInput (queue s) true false
  else if bool_decide (scancode ∈ [SC_L_SHIFT_UP; SC_R_SHIFT_UP]) then mkInput (queue s) false false
  else mkInput (if scancode <? 128 then push (key_char (shift s) scancode) (queue s) else queue s) (shift s) false.

Inductive event := Irq (scancode : Z) | HasInput | Getchar.

(** What an event answers, and the input after it. *)
Definition spec_event (e : event) (s : Input) : Z * Input :=
  match e with
  | Irq scancode => (0, irq scancode s)
  | HasInput => (if decide (queue s = []) then 0 else 1, s)
  | Getchar => match queue s with [] => (0, s) | c :: q => (c, mkInput q (shift s) (extended s)) end
  end.

Definition code_event (e : event) : M Keyboard Z :=
  match e with
  | Irq scancode => _ ← handle_irq scancode; mret 0
  | HasInput => b ← has_input; mret (if b : bool then 1 else 0)
  | Getchar => getchar
  end.

Fixpoint spec_events (es : list event) (s : Input) : list Z * Input :=
  match es with
  | [] => ([], s)
  | e :: es => let '(r, s1) := spec_event e s in let '(rs, s2) := spec_events es s1 in (r :: rs, s2)
  end.

Fixpoint code_events (es : list event) : M Keyboard (list Z) :=
  match es with
  | [] => mret []
  | e :: es => r ← code_event e; rs ← code_events es; mret (r :: rs)
  end.

(** ** The ring buffer as a queue *)

(** The number of waiting characters, and the waiting characters. *)
Definition waiting (k : Keyboard) : nat := Z.to_nat ((head_ k - tail_ k) `mod` BUFFER_SIZE).
Definition slot (k : Keyboard) (i : nat) : nat := Z.to_nat ((tail_ k + Z.of_nat i) `mod` BUFFER_SIZE).
Definition contents (k : Keyboard) : list Z := (λ i, nth (slot k i) (buffer_ k) 0) <$> seq 0 (waiting k).
Definition input_of (k : Keyboard) : Input := mkInput (contents k) (shift_pressed_ k) (extended_ k).

Record keyboard_ok (k : Keyboard) : Prop := {
  ko_length : length (buffer_ k) = Z.to_nat BUFFER_SIZE;
  ko_head : 0 <= head_ k < BUFFER_SIZE;
  ko_tail : 0 <= tail_ k < BUFFER_SIZE;
}.

Ltac ring_lia := unfold waiting, slot, BUFFER_SIZE in *; lia.

Lemma length_contents k : length (contents k) = waiting k.
Proof. unfold contents. by rewrite length_fmap, length_seq. Qed.

Lemma waiting_bound k : keyboard_ok k → (waiting k <= 255)%nat.
Proof. intros [_ Hh Ht]. ring_lia. Qed.

Lemma contents_nil k : keyboard_ok k → contents k = [] ↔ head_ k = tail_ k.
Proof.
  intros [_ Hh Ht]. rewrite <- length_zero_iff_nil, length_contents. ring_lia.
Qed.

Lemma contents_flags k b e : contents (set_shift b k) = contents k ∧ contents (set_extended e k) = contents k.
Proof. done. Qed.

(** Taking the oldest character. *)
Lemma contents_cons k :
  keyboard_ok k → head_ k ≠ tail_ k →
  contents k = nth (Z.to_nat (tail_ k)) (buffer_ k) 0 :: contents (set_tail ((tail_ k + 1) `mod` BUFFER_SIZE) k).
Proof.
  intros [_ Hh Ht] Hne. set (k' := set_tail _ k).
  assert (waiting k = S (waiting k')) as Hw by (unfold k', set_tail, waiting, BUFFER_SIZE in *; cbn; lia).
  unfold contents. rewrite Hw. cbn [seq fmap list_fmap]. f_equal.
  { f_equal. ring_lia. }
  rewrite <- fmap_S_seq, <- list_fmap_compose. apply list_fmap_ext. intros i' i Hi. cbn.
  f_equal. unfold slot, k', set_tail, BUFFER_SIZE in *. cbn. lia.
Qed.

(** Adding one behind the newest. *)
Lemma contents_snoc k c :
  keyboard_ok k → (head_ k + 1) `mod` BUFFER_SIZE ≠ tail_ k →
  contents (set_head ((head_ k + 1) `mod` BUFFER_SIZE) (set_buffer (<[Z.to_nat (head_ k) := c]> (buffer_ k)) k)) =
  contents k ++ [c].
Proof.
  intros [Hl Hh Ht] Hne. set (k' := set_head _ _).
  assert (waiting k' = S (waiting k)) as Hw by (unfold k', set_head, waiting, BUFFER_SIZE in *; cbn; lia).
  unfold contents. rewrite Hw, seq_S, fmap_app. cbn [fmap list_fmap]. f_equal.
  - apply list_fmap_ext. intros i x Hx. apply lookup_seq in Hx as [Hx Hi]. cbn. rewrite !nth_lookup.
    rewrite list_lookup_insert_ne; [done|]. unfold slot, waiting, k', set_head, BUFFER_SIZE in *. cbn. lia.
  - f_equal. cbn. rewrite nth_lookup.
    replace (slot k' (waiting k)) with (Z.to_nat (head_ k)).
    + rewrite list_lookup_insert_eq; [done|]. rewrite Hl. ring_lia.
    + unfold slot, waiting, k', set_head, BUFFER_SIZE in *. cbn. lia.
Qed.

Lemma waiting_full k :
  keyboard_ok k → ((head_ k + 1) `mod` BUFFER_SIZE =? tail_ k) = (255 <=? length (contents k))%nat.
Proof.
  intros [_ Hh Ht]. rewrite length_contents. destruct (_ =? _) eqn:E; symmetry.
  - apply Nat.leb_le. ring_lia.
  - apply Nat.leb_gt. ring_lia.
Qed.

(** ** The operations *)

(** The interrupt handler leaves the consumer's index alone. *)
Definition produced (k k' : Keyboard) (s : Input) : Prop :=
  keyboard_ok k' ∧ input_of k' = s ∧ tail_ k' = tail_ k.

Lemma wp_enqueue k c (Q : () → Keyboard → Prop) :
  keyboard_ok k →
  (∀ k', produced k k' (mkInput (push c (contents k)) (shift_pressed_ k) (extended_ k)) → Q () k') →
  wp (enqueue c) k Q.
Proof.
  intros Hk HQ. unfold enqueue, push in *. destruct (c =? 0) eqn:Ec; cbn [orb] in HQ.
  { wp_step. by apply HQ. }
  do 2 wp_step. rewrite waiting_full by done. destruct (255 <=? _)%nat eqn:Ef; cbn [negb].
  { wp_step. by apply HQ. }
  wp_step. unfold buffer_put. do 2 wp_step.
  replace (head_ k <? BUFFER_SIZE) with true by (pose proof (ko_head _ Hk); lia). do 2 wp_step.
  rewrite <- waiting_full in Ef by done. apply HQ. split; [|split; [|done]].
  - destruct Hk. split; cbn; [by rewrite length_insert|unfold BUFFER_SIZE; lia|done].
  - unfold input_of. rewrite contents_snoc; [done|done|lia].
Qed.

Lemma key_char_array (b : bool) sc :
  0 <= sc < 128 → (if b then scancode_map_shift else scancode_map) !! Z.to_nat sc = Some (key_char b sc).
Proof.
  intros Hsc. unfold key_char. destruct (_ !! _) eqn:E; [done|]. apply lookup_ge_None in E. exfalso.
  assert (length (if b then scancode_map_shift else scancode_map) = 128%nat) as Hl by (by destruct b).
  lia.
Qed.

Lemma release_bit sc : 0 <= sc < 256 → (Z.land sc SC_RELEASE_MASK =? 0) = (sc <? 128).
Proof.
  intros Hsc. destruct (sc <? 128) eqn:E.
  - apply Z.eqb_eq. apply Z.bits_inj'. intros i Hi. rewrite Z.land_spec, Z.bits_0.
    change SC_RELEASE_MASK with (2 ^ 7). rewrite Z.pow2_bits_eqb by lia.
    destruct (7 =? i) eqn:E7; [|apply andb_false_r]. apply Z.eqb_eq in E7. subst i.
    rewrite Z.testbit_eqb by lia. lia.
  - apply Z.eqb_neq. intros H. assert (Z.testbit (Z.land sc SC_RELEASE_MASK) 7 = true) as Hb.
    { rewrite Z.land_spec. change (Z.testbit SC_RELEASE_MASK 7) with true. rewrite Z.testbit_eqb by lia. lia. }
    by rewrite H in Hb.
Qed.

Lemma decide_pair (x a b : Z) : bool_decide (x ∈ [a; b]) = (x =? a) || (x =? b).
Proof.
  destruct (bool_decide_reflect (x ∈ [a; b])) as [H|H]; rewrite !elem_of_cons in H; symmetry.
  - apply orb_true_iff. destruct H as [H|[H|H]]; [left; lia|right; lia|by apply not_elem_of_nil in H].
  - apply orb_false_iff. split; apply Z.eqb_neq; intros ->; apply H; auto.
Qed.

Lemma wp_handle_irq k sc (Q : () → Keyboard → Prop) :
  keyboard_ok k → byte_ok sc → (∀ k', produced k k' (irq sc (input_of k)) → Q () k') →
  wp (handle_irq sc) k Q.
Proof.
  intros Hk Hsc HQ. unfold byte_ok in Hsc. unfold handle_irq, irq in *. rewrite release_bit by done.
  do 2 wp_step. destruct (sc =? SC_EXTENDED_PREFIX); [wp_step; apply HQ; split; [by destruct Hk|done]|]. cbn [extended input_of queue shift] in HQ.
  destruct (extended_ k) eqn:Ee.
  { do 2 wp_step. destruct (sc =? SC_E0_DELETE) eqn:Ed.
    - replace (sc <? 128) with true by (unfold SC_E0_DELETE in *; lia). apply wp_enqueue; [by destruct Hk|].
      intros k' (H1 & H2 & H3). apply HQ. done.
    - rewrite andb_false_r. wp_step. apply HQ. split; [by destruct Hk|done]. }
  rewrite !decide_pair in HQ. destruct ((sc =? SC_L_SHIFT_DOWN) || (sc =? SC_R_SHIFT_DOWN)).
  { wp_step. apply HQ. split; [by destruct Hk|]. unfold input_of. cbn. by rewrite Ee. }
  destruct ((sc =? SC_L_SHIFT_UP) || (sc =? SC_R_SHIFT_UP)).
  { wp_step. apply HQ. split; [by destruct Hk|]. unfold input_of. cbn. by rewrite Ee. }
  destruct (sc <? 128) eqn:E8; cbn [negb].
  - change (Z.of_nat (length scancode_map)) with 128. replace (sc >=? 128) with false by lia.
    wp_step. eapply wp_defined; [by apply key_char_array; lia|]. apply wp_enqueue; [done|].
    intros k' H. apply HQ. by rewrite Ee in H.
  - wp_step. apply HQ. split; [done|]. unfold input_of. by rewrite Ee.
Qed.

Lemma array_get_ok k i :
  keyboard_ok k → 0 <= i < BUFFER_SIZE → buffer_ k !! Z.to_nat i = Some (nth (Z.to_nat i) (buffer_ k) 0).
Proof.
  intros Hk Hi. rewrite nth_lookup. destruct (buffer_ k !! _) eqn:E; [done|].
  apply lookup_ge_None in E. rewrite (ko_length _ Hk) in E. ring_lia.
Qed.

Lemma tail_ok k : keyboard_ok k → keyboard_ok (set_tail ((tail_ k + 1) `mod` BUFFER_SIZE) k).
Proof. intros [Hl Hh Ht]. split; [done|done|]. cbn. ring_lia. Qed.

Lemma wp_code_event k e (Q : Z → Keyboard → Prop) :
  keyboard_ok k → (∀ sc, e = Irq sc → byte_ok sc) →
  (∀ k', keyboard_ok k' → input_of k' = (spec_event e (input_of k)).2 → Q (spec_event e (input_of k)).1 k') →
  wp (code_event e) k Q.
Proof.
  intros Hk He HQ. destruct e as [sc| |]; cbn [code_event spec_event fst snd input_of queue] in *.
  - wp_step. apply wp_handle_irq; [done|by apply He|]. intros k' (H1 & H2 & _). wp_step. by apply HQ.
  - wp_step. unfold has_input. do 2 wp_step. destruct (decide _) as [E|E]; rewrite contents_nil in E by done.
    + rewrite E, Z.eqb_refl. by apply HQ.
    + replace (head_ k =? tail_ k) with false by lia. by apply HQ.
  - unfold getchar. do 2 wp_step. destruct (head_ k =? tail_ k) eqn:E.
    + wp_step. assert (contents k = []) as En by (apply contents_nil; [done|lia]). rewrite En in HQ.
      apply HQ; [done|]. unfold input_of. by rewrite En.
    + rewrite contents_cons in HQ by (done || lia). wp_step.
      eapply wp_defined; [apply array_get_ok; [done|apply Hk]|]. do 3 wp_step.
      apply HQ; [by apply tail_ok|done].
Qed.

(** ** Properties *)

(** C34: from [initialize] on, any sequence of scan codes, [has_input] and [getchar]
    calls runs without leaving the buffer, and answers what the queue of the
    specification answers: characters come out once each in the order they were
    typed, at most 255 wait, and the state of the shift keys and of an 0xE0 prefix
    decides what a scan code means. *)
Theorem keyboard_refines_queue k es :
  length (buffer_ k) = Z.to_nat BUFFER_SIZE → (∀ sc, Irq sc ∈ es → byte_ok sc) →
  wp (_ ← initialize; code_events es) k (λ rs k',
    (rs, input_of k') = spec_events es (mkInput [] false false)).
Proof.
  intros Hl Hes. unfold initialize. wp_steps. set (k0 := set_extended _ _).
  assert (keyboard_ok k0) as Hk by (split; cbn; done).
  change (mkInput [] false false) with (input_of k0). clearbody k0. clear Hl k.
  revert k0 Hk. induction es as [|e es IH]; intros k Hk; cbn [code_events spec_events].
  { by wp_step. }
  wp_step. apply wp_code_event; [done|intros sc ->; apply Hes; left|]. intros k1 Hk1 H1. wp_step.
  eapply wp_mono; [apply IH; [intros sc ?; apply Hes; by right|done]|].
  intros rs k2 H2. wp_step. rewrite H1 in H2. destruct (spec_event e _) as [r s1]. cbn in *.
  by rewrite <- H2.
Qed.

Fixpoint handle_irqs (scancodes : list Z) : M Keyboard () :=
  match scancodes with [] => mret () | sc :: scs => _ ← handle_irq sc; handle_irqs scs end.

(** [getchar] with interrupts behind its test and behind its read of the
    buffer; the loads of the index in between see the interrupted state. *)
Definition getchar_interrupted (irqs1 irqs2 : list Z) : M Keyboard Z :=
  k ← get;
  if head_ k =? tail_ k then mret 0
  else
    _ ← handle_irqs irqs1;
    k ← get;
    c ← array_get (buffer_ k) (tail_ k);
    _ ← handle_irqs irqs2;
    k ← get;
    _ ← modify (set_tail ((tail_ k + 1) `mod` BUFFER_SIZE));
    mret c.

Lemma irq_head sc c q b e : ∃ q', queue (irq sc (mkInput (c :: q) b e)) = c :: q'.
Proof.
  assert (∀ x, ∃ q', push x (c :: q) = c :: q') as Hpush by (intros x; unfold push; destruct (_ || _); eauto).
  unfold irq. cbn [queue extended shift]. destruct (sc =? SC_EXTENDED_PREFIX); [by eauto|].
  destruct e; [cbn; destruct (sc =? SC_E0_DELETE); eauto|].
  do 2 (case_bool_decide; [by eauto|]). destruct (sc <? 128); cbn; eauto.
Qed.

Lemma irqs_head scs c s :
  head (queue s) = Some c → head (queue (foldl (flip irq) s scs)) = Some c.
Proof.
  revert s. induction scs as [|sc scs IH]; intros [q b e] H; [done|]. cbn [foldl flip]. apply IH.
  destruct q as [|c' q]; [done|]. injection H as ->. destruct (irq_head sc c q b e) as [q' Hq]. unfold flip. by rewrite Hq.
Qed.

Lemma wp_handle_irqs k scs (Q : () → Keyboard → Prop) :
  keyboard_ok k → Forall byte_ok scs →
  (∀ k', produced k k' (foldl (flip irq) (input_of k) scs) → Q () k') → wp (handle_irqs scs) k Q.
Proof.
  intros Hk Hscs. revert k Hk. induction Hscs as [|sc scs Hsc Hscs IH]; intros k Hk HQ; cbn [handle_irqs].
  { wp_step. by apply HQ. }
  wp_step. apply wp_handle_irq; [done|done|]. intros k1 (H1 & H2 & H3). apply IH; [done|].
  intros k2 (H4 & H5 & H6). apply HQ. split; [done|]. split; [|congruence]. rewrite H5, H2. done.
Qed.

(** Interrupts that arrive inside [getchar] lose and duplicate nothing: the
    character it returns is the oldest one, and afterwards the buffer holds what the
    interrupts leave of the whole queue, without that character. *)
Theorem getchar_interleaved k irqs1 irqs2 :
  keyboard_ok k → Forall byte_ok irqs1 → Forall byte_ok irqs2 →
  wp (getchar_interrupted irqs1 irqs2) k (λ c k',
    keyboard_ok k' ∧
    match contents k with
    | [] => c = 0 ∧ k' = k
    | c0 :: _ =>
        let s := foldl (flip irq) (input_of k) (irqs1 ++ irqs2) in
        c = c0 ∧ queue s = c0 :: contents k' ∧ input_of k' = mkInput (contents k') (shift s) (extended s)
    end).
Proof.
  intros Hk H1 H2. unfold getchar_interrupted. do 2 wp_step. destruct (head_ k =? tail_ k) eqn:E.
  { wp_step. split; [done|]. by replace (contents k) with (@nil Z) by (symmetry; apply contents_nil; [done|lia]). }
  wp_step. apply wp_handle_irqs; [done|done|]. intros k1 (Hk1 & Hs1 & Ht1). do 2 wp_step.
  wp_step. eapply wp_defined; [apply array_get_ok; [done|apply Hk1]|]. wp_step.
  apply wp_handle_irqs; [done|done|]. intros k2 (Hk2 & Hs2 & Ht2). do 5 wp_step.
  split; [by apply tail_ok|]. pose proof (contents_cons k) as Hc0. rewrite Hc0 by (done || lia). cbn zeta.
  rewrite foldl_app, <- Hs1, <- Hs2.
  set (c0 := nth (Z.to_nat (tail_ k)) (buffer_ k) 0) in *.
  assert (head (contents k1) = Some c0) as Hh1.
  { change (contents k1) with (queue (input_of k1)). rewrite Hs1. apply irqs_head. cbn. by rewrite Hc0 by (done || lia). }
  assert (head (contents k2) = Some c0) as Hh2.
  { change (contents k2) with (queue (input_of k2)). rewrite Hs2. by apply irqs_head. }
  assert (∀ k', keyboard_ok k' → head (contents k') = Some c0 →
    contents k' = c0 :: contents (set_tail ((tail_ k' + 1) `mod` BUFFER_SIZE) k') ∧ nth (Z.to_nat (tail_ k')) (buffer_ k') 0 = c0) as Hc.
  { intros k' Hk' Hh. assert (head_ k' ≠ tail_ k') as Hne.
    { intros He. apply contents_nil in He; [|done]. by rewrite He in Hh. }
    rewrite contents_cons in Hh by done. injection Hh as Hh. split; [|done]. rewrite contents_cons by done. by rewrite Hh. }
  destruct (Hc k1 Hk1 Hh1) as [_ Hr]. destruct (Hc k2 Hk2 Hh2) as [Hq _]. done.
Qed.

(** ** Witnesses *)

(** shift, [h], shift released, [i], return; read, read, read, read. *)
Definition typed : list event :=
  [Irq 0x2A; Irq 0x23; Irq 0xA3; Irq 0xAA; HasInput; Irq 0x17; Irq 0x1C; Getchar; Getchar; Getchar; Getchar].

Lemma keyboard_refines_queue_witness :
  wp (_ ← initialize; code_events typed) boot (λ rs k',
    (rs, input_of k') = spec_events typed (mkInput [] false false)) ∧
  (spec_events typed (mkInput [] false false)).1 = [0; 0; 0; 0; 1; 0; 0; 72; 105; 10; 0].
Proof.
  split; [|vm_compute; done]. apply (keyboard_refines_queue boot typed); [reflexivity|].
  intros sc H. unfold typed in H. rewrite !elem_of_cons, elem_of_nil in H.
  destruct_or! H; simplify_eq; split; lia.
Defined.

Lemma getchar_interleaved_witness :
  let k := mkKeyboard (replicate 255 0 ++ [97]) 0 255 false false in
  wp (getchar_interrupted [0x2A; 0x30] [0x2E]) k (λ c k',
    keyboard_ok k' ∧
    match contents k with
    | [] => c = 0 ∧ k' = k
    | c0 :: _ =>
        let s := foldl (flip irq) (input_of k) ([0x2A; 0x30] ++ [0x2E]) in
        c = c0 ∧ queue s = c0 :: contents k' ∧ input_of k' = mkInput (contents k') (shift s) (extended s)
    end).
Proof.
  cbn zeta. apply (getchar_interleaved (mkKeyboard (replicate 255 0 ++ [97]) 0 255 false false) [0x2A; 0x30] [0x2E]).
  - split; [vm_compute; reflexivity|cbn; unfold BUFFER_SIZE; lia..].
  - repeat (apply Forall_cons; split; [split; lia|]). by apply Forall_nil.
  - repeat (apply Forall_cons; split; [split; lia|]). by apply Forall_nil.
Defined.
