(* ===== verification/File.v ===== *)
(** * Open files (include/file.hpp, include/file.cpp)

    The layer between file descriptors and inodes: a table of reference-counted
    [File] objects with a position, and the reads of the keyboard. A [File *] is
    the index of its slot, [None] the null pointer. *)
From S2P Require Import Prelude BlockStore FsLayout FileSystem Inode.
From S2P Require Keyboard.

Definition NUM_FILES : nat := 100.

Inductive FileType := kNone | kConsole | kInode.

Record File := mkFile {
  file_type : FileType;
  refcnt : Z;
  readable : bool;
  writable : bool;
  inode : InodeRef;
  offset : Z;
}.

Definition empty_file : File := mkFile kNone 0 false false None 0.

Definition set_type v (x : File) := mkFile v (refcnt x) (readable x) (writable x) (inode x) (offset x).
Definition set_refcnt v (x : File) := mkFile (file_type x) v (readable x) (writable x) (inode x) (offset x).
Definition set_readable v (x : File) := mkFile (file_type x) (refcnt x) v (writable x) (inode x) (offset x).
Definition set_writable v (x : File) := mkFile (file_type x) (refcnt x) (readable x) v (inode x) (offset x).
Definition set_inode v (x : File) := mkFile (file_type x) (refcnt x) (readable x) (writable x) v (offset x).
Definition set_offset v (x : File) := mkFile (file_type x) (refcnt x) (readable x) (writable x) (inode x) v.

(** The variables of the file, and what the functions reach: the keyboard, the
    interrupts that will arrive when the processor waits for one (a scan code, or
    [None] for another device), and the file system. [null_console] is whether that
    pointer has been set; the object it points to discards what is written. *)
Record Files (T : Type) := mkFiles {
  file_table : list File;
  file_console : option Console;
  null_console : bool;
  keyboard : Keyboard.Keyboard;
  interrupts : list (option Z);
  fs : Fs T;
}.
Arguments mkFiles {T}. Arguments file_table {T}. Arguments file_console {T}. Arguments null_console {T}.
Arguments keyboard {T}. Arguments interrupts {T}. Arguments fs {T}.

Section File.
Context {T : Type} `{IBlockStore T}.

Definition set_table v (s : Files T) := mkFiles v (file_console s) (null_console s) (keyboard s) (interrupts s) (fs s).
Definition set_file_console v (s : Files T) := mkFiles (file_table s) v (null_console s) (keyboard s) (interrupts s) (fs s).
Definition set_keyboard v (s : Files T) := mkFiles (file_table s) (file_console s) (null_console s) v (interrupts s) (fs s).
Definition set_interrupts v (s : Files T) := mkFiles (file_table s) (file_console s) (null_console s) (keyboard s) v (fs s).
Definition set_fs (v : Fs T) (s : Files T) := mkFiles (file_table s) (file_console s) (null_console s) (keyboard s) (interrupts s) v.

Definition kbd {A} (m : M Keyboard.Keyboard A) : M (Files T) A := zoom keyboard set_keyboard m.
Definition in_fs {A} (m : M (Fs T) A) : M (Files T) A := zoom fs set_fs m.

(** The slot of a file, and its modification. *)
Definition file_slot (file : nat) : M (Files T) File :=
  s ← get; defined (file_table s !! file).
Definition modify_file (file : nat) (f : File → File) : M (Files T) () :=
  x ← file_slot file; modify (λ s, set_table (<[file := f x]> (file_table s)) s).

(** [while (!keyboard::has_input()) asm volatile("sti; hlt");]: each turn takes
    the next interrupt; with none to come the processor waits for ever. *)
Fixpoint wait_input (irqs : list (option Z)) : M (Files T) () :=
  has_input ← kbd Keyboard.has_input;
  if (has_input : bool) then mret ()
  else
    match irqs with
    | [] => stuck
    | irq :: irqs =>
        _ ← modify (set_interrupts irqs);
        _ ← match irq with
            | Some scancode => kbd (Keyboard.handle_irq scancode)
            | None => mret ()
            end;
        wait_input irqs
    end.

(** The loop of [console_read]; [dest] is what has been stored so far. *)
Fixpoint console_read_loop (fuel : nat) (count done : Z) (dest : list Z) : M (Files T) (Z * list Z) :=
  match fuel with
  | O => stuck
  | S fuel =>
      if done <? count then
        s ← get;
        _ ← wait_input (interrupts s);
        c ← kbd Keyboard.getchar;
        if c =? 0 then mret (done, dest)
        else
          let dest := dest ++ [u8 c] in
          let done := u32 (done + 1) in
          if c =? 10 then mret (done, dest) else console_read_loop fuel count done dest
      else mret (done, dest)
  end.
Definition console_read (count : Z) : M (Files T) (Z * list Z) :=
  console_read_loop (S (Z.to_nat count)) count 0 [].

Definition file_set_console (console : option Console) : M (Files T) () := modify (set_file_console console).

(** The loop of [file_allocate], from slot [file] on. *)
Fixpoint allocate_from (l : list File) (file : nat) : M (Files T) (option nat) :=
  match l with
  | [] => mret None
  | x :: l =>
      if refcnt x =? 0 then _ ← modify_file file (set_refcnt 1); mret (Some file)
      else allocate_from l (S file)
  end.
Definition file_allocate : M (Files T) (option nat) :=
  s ← get; allocate_from (file_table s) 0.

Definition file_duplicate (file : option nat) : M (Files T) (option nat) :=
  match file with
  | None => mret None
  | Some k =>
      x ← file_slot k;
      if refcnt x =? INT_MAX then stuck
      else _ ← modify_file k (set_refcnt (refcnt x + 1)); mret file
  end.

Definition file_close (file : option nat) : M (Files T) () :=
  match file with
  | None => mret ()
  | Some k =>
      x ← file_slot k;
      if refcnt x <=? 0 then mret ()
      else
        _ ← modify_file k (set_refcnt (refcnt x - 1));
        x ← file_slot k;
        if refcnt x >? 0 then mret ()
        else
          r ← in_fs (InodeRef_reset (inode x));
          _ ← modify_file k (set_inode r);
          _ ← modify_file k (set_type kNone);
          _ ← modify_file k (set_readable false);
          _ ← modify_file k (set_writable false);
          modify_file k (set_offset 0)
  end.

Definition file_open_console (r w : bool) : M (Files T) (option nat) :=
  file ← file_allocate;
  match file with
  | None => mret None
  | Some k =>
      _ ← modify_file k (set_type kConsole);
      _ ← modify_file k (set_readable r);
      _ ← modify_file k (set_writable w);
      mret file
  end.

(** [file_read]: the value returned, and the bytes stored in [dest]. *)
Definition file_read (file : nat) (count : Z) : M (Files T) (option Z * list Z) :=
  x ← file_slot file;
  if negb (readable x) then mret (None, [])
  else
    match file_type x with
    | kConsole => '(n, dest) ← console_read count; mret (Some n, dest)
    | kInode =>
        i ← defined (inode x);
        '(done, dest) ← in_fs (read_data i (offset x) count);
        match done with
        | Some n => _ ← modify_file file (set_offset (u32 (offset x + n))); mret (Some n, dest)
        | None => mret (None, dest)
        end
    | kNone => mret (None, [])
    end.

(** [console->write(source, count)]; reading past [source] is stuck. *)
Definition write_console (source : list Z) (count : Z) : M (Files T) () :=
  if Z.of_nat (length source) <? count then stuck
  else
    let text := take (Z.to_nat count) source in
    s ← get;
    match file_console s with
    | Some console => put (set_file_console (Some (console_write text console)) s)
    | None => if null_console s then mret () else stuck
    end.

Definition file_write (file : nat) (source : list Z) (count : Z) : M (Files T) (option Z) :=
  x ← file_slot file;
  if negb (writable x) then mret None
  else
    match file_type x with
    | kConsole => _ ← write_console source count; mret (Some count)
    | kInode =>
        i ← defined (inode x);
        done ← in_fs (write_data i source (offset x) count);
        match done with
        | Some n => _ ← modify_file file (set_offset (u32 (offset x + n))); mret (Some n)
        | None => mret None
        end
    | kNone => mret None
    end.
End File.
