(* ===== verification/FileProps.v ===== *)
(** * The properties of open files *)
From stdpp Require Import list_numbers.
From S2P Require Import Prelude BlockStore RamDisk StoreRefinement FsLayout FileSystem FileSystemSpec.
From S2P Require Import FileSystemFormat Inode InodeMap InodeSpec FileBytes InodeData InodeTable.
From S2P Require Import FileSystemProps NamesProps.
From S2P Require Keyboard.
From S2P Require Import File.

(** ** Reading the keyboard *)

(** The characters that a list of interrupts brings. *)
Fixpoint delivered (irqs : list (option Z)) (shift extended : bool) : list Z :=
  match irqs with
  | [] => []
  | None :: irqs => delivered irqs shift extended
  | Some scancode :: irqs =>
      let s := Keyboard.irq scancode (Keyboard.mkInput [] shift extended) in
      Keyboard.queue s ++ delivered irqs (Keyboard.shift s) (Keyboard.extended s)
  end.

(** What a line read takes from the characters: up to [n] of them, and none
    behind a newline; [None] when it has to wait for more. *)
Fixpoint take_line (n : nat) (l : list Z) : option (list Z) :=
  match n, l with
  | O, _ => Some []
  | S n, [] => None
  | S n, c :: l => if c =? 10 then Some [c] else cons c <$> take_line n l
  end.

Definition char_ok (c : Z) : Prop := 0 < c < 256.

Lemma key_char_range b sc : 0 <= Keyboard.key_char b sc < 256.
Proof.
  unfold Keyboard.key_char. destruct (_ !! Z.to_nat sc) as [c|] eqn:E; cbn; [|lia].
  assert (Forall (λ c, 0 <= c < 256) (if b then Keyboard.scancode_map_shift else Keyboard.scancode_map)) as H.
  { apply (bool_decide_unpack _). by destruct b; vm_compute. }
  by eapply (Forall_lookup_1 _ _ _ _ H).
Qed.

Lemma push_ok c q : 0 <= c < 256 → Forall char_ok q → Forall char_ok (Keyboard.push c q).
Proof.
  intros Hc Hq. unfold Keyboard.push. destruct (c =? 0) eqn:E; [done|]. cbn [orb]. destruct (255 <=? _)%nat; [done|].
  apply Forall_app_2; [done|]. apply Forall_singleton. unfold char_ok. lia.
Qed.

Lemma irq_ok sc s : Forall char_ok (Keyboard.queue s) → Forall char_ok (Keyboard.queue (Keyboard.irq sc s)).
Proof.
  intros Hq. unfold Keyboard.irq. pose proof (key_char_range (Keyboard.shift s) sc).
  repeat case_match; cbn; auto using push_ok with lia.
  all: apply push_ok; [lia|done].
Qed.

Section console.
Context {T : Type} `{IBlockStore T}.
Implicit Types (s : Files T).

Definition stream s : list Z :=
  Keyboard.contents (keyboard s) ++
  delivered (interrupts s) (Keyboard.shift_pressed_ (keyboard s)) (Keyboard.extended_ (keyboard s)).

Record console_ok s : Prop := {
  co_keyboard : Keyboard.keyboard_ok (keyboard s);
  co_chars : Forall char_ok (Keyboard.contents (keyboard s));
  co_irqs sc : Some sc ∈ interrupts s → byte_ok sc;
}.

(** Only the keyboard and the coming interrupts differ. *)
Definition console_frame s s' : Prop := ∃ k i, s' = set_interrupts i (set_keyboard k s).

Lemma console_frame_trans s1 s2 s3 : console_frame s1 s2 → console_frame s2 s3 → console_frame s1 s3.
Proof. intros (k1 & i1 & ->) (k2 & i2 & ->). by exists k2, i2. Qed.

Lemma wp_wait_input irqs s (Q : () → Files T → Prop) :
  console_ok s → irqs = interrupts s → stream s ≠ [] →
  (∀ s', console_ok s' → stream s' = stream s → Keyboard.contents (keyboard s') ≠ [] → console_frame s s' → Q () s') →
  wp (wait_input irqs) s Q.
Proof.
  revert s. induction irqs as [|irq irqs IH]; intros s Hok Hi Hne HQ; cbn [wait_input]; wp_step;
    apply wp_zoom; unfold Keyboard.has_input; wp_step;
    (replace (set_keyboard (keyboard s) s) with s by by destruct s);
    pose proof (Keyboard.contents_nil _ (co_keyboard _ Hok)) as Hnil;
    destruct (Keyboard.head_ (keyboard s) =? Keyboard.tail_ (keyboard s)) eqn:E; cbn [negb].
  2,4: wp_step; apply HQ; [done|done|rewrite Hnil; lia|exists (keyboard s), (interrupts s); by destruct s].
  - exfalso. apply Hne. unfold stream. rewrite <- Hi. cbn. rewrite app_nil_r. apply Hnil. lia.
  - assert (Keyboard.contents (keyboard s) = []) as Hempty by (apply Hnil; lia).
    wp_step. wp_step. wp_step. set (s1 := set_interrupts irqs s).
    assert (∀ s2, console_ok s2 → interrupts s2 = irqs → stream s2 = stream s → console_frame s s2 →
      wp (wait_input irqs) s2 Q) as Hnext.
    { intros s2 Hok2 Hi2 Hs2 Hf2. apply IH; [done|done|by rewrite Hs2|]. intros s3 H3 Hs3 Hc3 Hf3.
      apply HQ; [done|congruence|done|]. by eapply console_frame_trans. }
    unfold stream in Hnext. rewrite Hempty, <- Hi in Hnext. destruct irq as [sc|]; cbn [delivered app] in Hnext.
    + apply wp_zoom. apply Keyboard.wp_handle_irq; [apply Hok|apply (co_irqs _ Hok); rewrite <- Hi; left|].
      intros k (Hk & Hin & _). unfold Keyboard.input_of in Hin. cbn [keyboard s1 set_interrupts] in Hin.
      rewrite Hempty in Hin. rewrite <- Hin in Hnext. apply Hnext; [|done|done|by exists k, irqs].
      split; [done| |].
      * cbn [keyboard set_keyboard]. change (Keyboard.contents k) with (Keyboard.queue (Keyboard.mkInput (Keyboard.contents k)
          (Keyboard.shift_pressed_ k) (Keyboard.extended_ k))). rewrite Hin. apply irq_ok. apply Forall_nil_2.
      * intros sc' Hin'. apply (co_irqs _ Hok). rewrite <- Hi. by right.
    + wp_step. apply Hnext; [|done|cbn [keyboard interrupts s1 set_interrupts]; by rewrite Hempty|by exists (keyboard s), irqs; destruct s].
      split; [apply Hok|apply Hok|]. intros sc' Hin'. apply (co_irqs _ Hok). rewrite <- Hi. by right.
Qed.

Lemma wp_console_read_loop fuel count done dest l s (Q : Z * list Z → Files T → Prop) :
  console_ok s → 0 <= done <= count → count < 4294967296 → count - done < Z.of_nat fuel →
  take_line (Z.to_nat (count - done)) (stream s) = Some l →
  (∀ s', console_ok s' → stream s = l ++ stream s' → console_frame s s' →
    Q (done + Z.of_nat (length l), dest ++ l) s') →
  wp (console_read_loop fuel count done dest) s Q.
Proof.
  revert done dest l s. induction fuel as [|fuel IH]; intros done dest l s Hok Hd Hc Hf Hl HQ; [lia|].
  cbn [console_read_loop]. destruct (done <? count) eqn:E.
  2:{ replace (count - done) with 0 in Hl by lia. injection Hl as <-. wp_step. specialize (HQ s Hok eq_refl).
      rewrite Z.add_0_r, app_nil_r in HQ. apply HQ. exists (keyboard s), (interrupts s). by destruct s. }
  replace (Z.to_nat (count - done)) with (S (Z.to_nat (count - (done + 1)))) in Hl by lia.
  do 3 wp_step. apply wp_wait_input; [done|done|by intros H0; rewrite H0 in Hl|].
  intros s1 Hok1 Hs1 Hc1 Hf1. pose proof (co_keyboard _ Hok1) as Hk1.
  assert (Keyboard.head_ (keyboard s1) ≠ Keyboard.tail_ (keyboard s1)) as Hne by (by rewrite <- Keyboard.contents_nil).
  wp_step. apply wp_zoom. apply (Keyboard.wp_code_event _ Keyboard.Getchar); [done|done|].
  cbn [Keyboard.spec_event Keyboard.input_of Keyboard.queue].
  destruct (Keyboard.contents (keyboard s1)) as [|c q] eqn:Eq; [done|]. cbn [fst snd Keyboard.shift Keyboard.extended].
  intros k Hk Hin. injection Hin as Hq Hsh Hex.
  pose proof (co_chars _ Hok1) as Hchars. rewrite Eq in Hchars. apply Forall_cons in Hchars as [Hchar Hchars].
  unfold char_ok in Hchar. replace (c =? 0) with false by lia. rewrite (u8_small c) by lia. rewrite u32_small by lia.
  set (s2 := set_keyboard k s1).
  assert (console_ok s2) as Hok2.
  { split; [done|cbn; by rewrite Hq|apply Hok1]. }
  assert (stream s = c :: stream s2) as Hs2.
  { rewrite <- Hs1. unfold stream. rewrite Eq. cbn [keyboard interrupts s2 set_keyboard]. by rewrite Hq, Hsh, Hex. }
  assert (console_frame s s2) as Hf2.
  { eapply console_frame_trans; [exact Hf1|]. exists k, (interrupts s1). done. }
  rewrite Hs2 in Hl. cbn [take_line] in Hl. destruct (c =? 10) eqn:E10.
  - injection Hl as <-. wp_step. by apply (HQ s2).
  - apply fmap_Some in Hl as (l' & Hl' & ->). apply IH with l'; [done|lia|done|lia|done|].
    intros s3 Hok3 Hs3 Hf3. rewrite <- app_assoc. cbn [length].
    replace (done + 1 + Z.of_nat (length l')) with (done + Z.of_nat (S (length l'))) by lia.
    apply HQ; [done|by rewrite Hs2, Hs3|]. by eapply console_frame_trans.
Qed.
End console.

(** ** The table of files *)

Section table.
Context {T : Type} `{IBlockStore T}.
Implicit Types (s : Files T) (ft : list File) (k : nat).

(** How many open files hold a reference to inode slot [i]. *)
Definition holds (i : nat) (x : File) : Z := if decide (inode x = Some i) then 1 else 0.
Definition users ft (i : nat) : Z := foldr (λ x n, holds i x + n) 0 ft.

(** A slot that is not in use is empty, and the inode of an open file is in
    use at least as often as there are files for it. *)
Record files_ok ft (tbl : list Inode) : Prop := {
  fo_refcnt k x : ft !! k = Some x → 0 <= refcnt x <= INT_MAX;
  fo_empty k x : ft !! k = Some x → refcnt x = 0 → x = empty_file;
  fo_inodes i : users ft i ≠ 0 → ∃ y, tbl !! i = Some y ∧ users ft i <= inode_refcnt y;
}.

Lemma users_insert ft k x y i : ft !! k = Some x → users (<[k := y]> ft) i = users ft i - holds i x + holds i y.
Proof.
  revert k. induction ft as [|z ft IH]; intros [|k] Hx; cbn in Hx; try done.
  - injection Hx as ->. change (users (<[0%nat := y]> (x :: ft)) i) with (holds i y + users ft i).
    change (users (x :: ft) i) with (holds i x + users ft i). lia.
  - change (users (<[S k := y]> (z :: ft)) i) with (holds i z + users (<[k := y]> ft) i).
    change (users (z :: ft) i) with (holds i z + users ft i). rewrite (IH k Hx). lia.
Qed.

Lemma users_nonneg ft i : 0 <= users ft i.
Proof. induction ft as [|z ft IH]; [done|]. cbn. unfold holds at 1. destruct (decide _); unfold users in IH; lia. Qed.

Lemma users_holds ft k x i : ft !! k = Some x → holds i x <= users ft i.
Proof.
  intros Hx. pose proof (users_insert ft k x empty_file i Hx) as He. pose proof (users_nonneg (<[k := empty_file]> ft) i).
  change (holds i empty_file) with 0 in He. lia.
Qed.

Lemma wp_file_slot k x s (Q : File → Files T → Prop) : file_table s !! k = Some x → Q x s → wp (file_slot k) s Q.
Proof. intros Hx HQ. unfold file_slot. do 2 wp_step. by eapply wp_defined. Qed.

Lemma wp_modify_file k x g s (Q : () → Files T → Prop) :
  file_table s !! k = Some x → Q () (set_table (<[k := g x]> (file_table s)) s) → wp (modify_file k g) s Q.
Proof. intros Hx HQ. unfold modify_file. wp_step. eapply wp_file_slot; [exact Hx|]. by wp_step. Qed.

(** Modifications of one slot in a row, as one. *)
Lemma insert_same ft k (x y : File) : <[k := x]> (<[k := y]> ft) = <[k := x]> ft.
Proof. apply list_insert_insert_eq. Qed.

Lemma files_ok_insert ft tbl k x y :
  files_ok ft tbl → ft !! k = Some x → 0 <= refcnt y <= INT_MAX → (refcnt y = 0 → y = empty_file) →
  (∀ i, holds i y = holds i x) → files_ok (<[k := y]> ft) tbl.
Proof.
  intros [H1 H2 H3] Hx Hr He Hh. split.
  - intros j z [(_ & <- & _)|(_ & Hz)]%list_lookup_insert_Some; [done|by eapply H1].
  - intros j z [(_ & <- & _)|(_ & Hz)]%list_lookup_insert_Some; [done|by eapply H2].
  - intros i. rewrite (users_insert _ _ _ _ _ Hx), Hh. replace (users ft i - holds i x + holds i x) with (users ft i) by lia.
    apply H3.
Qed.

Lemma wp_allocate_from l pre s (Q : option nat → Files T → Prop) :
  file_table s = pre ++ l → Forall (λ x, refcnt x ≠ 0) pre →
  (Forall (λ x, refcnt x ≠ 0) (file_table s) → Q None s) →
  (∀ k x, file_table s !! k = Some x → refcnt x = 0 → (∀ j y, (j < k)%nat → file_table s !! j = Some y → refcnt y ≠ 0) →
    Q (Some k) (set_table (<[k := set_refcnt 1 x]> (file_table s)) s)) →
  wp (allocate_from l (length pre)) s Q.
Proof.
  revert pre. induction l as [|x l IH]; intros pre Ht Hpre HNone HSome; cbn [allocate_from].
  { wp_step. apply HNone. by rewrite Ht, app_nil_r. }
  assert (file_table s !! length pre = Some x) as Hx by (rewrite Ht; by apply list_lookup_middle).
  destruct (refcnt x =? 0) eqn:E.
  - wp_step. eapply wp_modify_file; [exact Hx|]. wp_step. apply HSome; [done|lia|].
    intros j y Hj Hy. rewrite Ht, lookup_app_l in Hy by done. by eapply (Forall_lookup_1 _ _ _ _ Hpre).
  - replace (S (length pre)) with (length (pre ++ [x])) by (rewrite length_app; cbn; lia).
    apply IH; [by rewrite <- app_assoc| |done|done]. apply Forall_app_2; [done|]. apply Forall_singleton. lia.
Qed.
End table.

Section properties.
Context {T : Type} `{HT : IBlockStore T} (ST : BlockStoreSpec T).
Implicit Types (s : Files T) (k i : nat).

(** Reading the console returns as soon as the typed characters, those waiting and
    those the coming interrupts bring, make up a line or fill the buffer: it returns
    exactly the first of them up to [count] or the newline, and leaves the rest for
    the next read; nothing is lost while it waits. *)
Theorem console_read_correct s count l :
  console_ok s → 0 <= count < 4294967296 → take_line (Z.to_nat count) (stream s) = Some l →
  wp (console_read count) s (λ '(n, dest) s',
    n = Z.of_nat (length l) ∧ dest = l ∧ stream s = l ++ stream s' ∧ console_ok s' ∧ console_frame s s').
Proof.
  intros Hok Hc Hl. apply wp_console_read_loop with l; [done|lia|lia|lia|by rewrite Z.sub_0_r|].
  intros s' Hok' Hs' Hf. done.
Qed.

(** [file_open_console] takes the first slot that is not in use and sets it up with
    one reference; with no such slot it fails and changes nothing. *)
Theorem file_open_console_correct s r w tbl :
  files_ok (file_table s) tbl →
  wp (file_open_console r w) s (λ res s',
    match res with
    | Some k => files_ok (file_table s') tbl ∧
        (∃ x, file_table s !! k = Some x ∧ refcnt x = 0) ∧
        (∀ j y, (j < k)%nat → file_table s !! j = Some y → refcnt y ≠ 0) ∧
        s' = set_table (<[k := mkFile kConsole 1 r w None 0]> (file_table s)) s
    | None => s' = s ∧ ∀ j y, file_table s !! j = Some y → refcnt y ≠ 0
    end).
Proof.
  intros Hok. unfold file_open_console, file_allocate. do 3 wp_step.
  apply (wp_allocate_from (file_table s) [] s); [done|done| |].
  { intros Hall. wp_step. split; [done|]. intros j y Hy. by eapply (Forall_lookup_1 _ _ _ _ Hall). }
  intros k x Hx H0 Hfirst. pose proof (fo_empty _ _ Hok k x Hx H0) as ->.
  assert (∀ s1 y, file_table s1 = <[k := y]> (file_table s) → file_table s1 !! k = Some y) as Hslot.
  { intros s1 y ->. apply list_lookup_insert_eq. by eapply lookup_lt_Some. }
  wp_step. eapply wp_modify_file; [by apply Hslot|]. cbn. rewrite insert_same.
  wp_step. eapply wp_modify_file; [by apply Hslot|]. cbn. rewrite insert_same.
  wp_step. eapply wp_modify_file; [by apply Hslot|]. cbn. rewrite insert_same. wp_step. cbn.
  split; [|split; [|done]].
  - eapply files_ok_insert; [done|done|cbn; unfold INT_MAX; lia|done|done].
  - by exists empty_file.
Qed.

(** C9: descriptors of a file can be duplicated and closed in any order: each
    [file_duplicate] adds a reference, each [file_close] takes one away, and the
    last one empties the slot and gives back the inode, no other. Closing twice does
    nothing. No open file is ever left with an inode that is not in use. *)
Theorem file_close_correct s k x :
  files_ok (file_table s) (inode_table (fs s)) → file_table s !! k = Some x →
  wp (file_close (Some k)) s (λ _ s', files_ok (file_table s') (inode_table (fs s')) ∧
    if decide (refcnt x = 0) then s' = s
    else if decide (1 < refcnt x) then
      s' = set_table (<[k := set_refcnt (refcnt x - 1) x]> (file_table s)) s
    else file_table s' = <[k := empty_file]> (file_table s) ∧
      match inode x with
      | Some i => ∃ y, inode_table (fs s) !! i = Some y ∧ 0 < inode_refcnt y ∧
          inode_table (fs s') = <[i := Inode.set_refcnt (inode_refcnt y - 1) y]> (inode_table (fs s))
      | None => fs s' = fs s
      end) ∧
  (0 < refcnt x < INT_MAX →
   wp (file_duplicate (Some k)) s (λ r s', r = Some k ∧ files_ok (file_table s') (inode_table (fs s')) ∧
     wp (file_close r) s' (λ _ s2, s2 = s))).
Proof.
  intros Hok Hx. pose proof (fo_refcnt _ _ Hok k x Hx) as Hr. pose proof (lookup_lt_Some _ _ _ Hx) as Hlt.
  assert (∀ s1 y, file_table s1 = <[k := y]> (file_table s) → file_table s1 !! k = Some y) as Hslot.
  { intros s1 y ->. by apply list_lookup_insert_eq. }
  split.
  - unfold file_close. wp_step. eapply wp_file_slot; [exact Hx|]. destruct (refcnt x <=? 0) eqn:E0.
    { wp_step. rewrite decide_True by lia. done. }
    wp_step. eapply wp_modify_file; [exact Hx|]. wp_step. eapply wp_file_slot; [by apply Hslot|]. cbn [refcnt set_refcnt].
    destruct (refcnt x - 1 >? 0) eqn:E1.
    { wp_step. rewrite decide_False, decide_True by lia. split; [|done].
      eapply files_ok_insert; [done|done|cbn; lia|cbn; lia|done]. }
    assert (refcnt x = 1) as H1 by lia. set (s1 := set_table _ s).
    wp_step. apply wp_zoom. cbn [inode set_refcnt].
    apply wp_mono with (P := λ r f', r = None ∧ match inode x with
      | Some i => ∃ y, inode_table (fs s) !! i = Some y ∧ 0 < inode_refcnt y ∧
          f' = set_inode_table (<[i := Inode.set_refcnt (inode_refcnt y - 1) y]> (inode_table (fs s))) (fs s)
      | None => f' = fs s
      end).
    { destruct (inode x) as [i|] eqn:Ei; cbn [InodeRef_reset].
      - pose proof (users_holds _ _ _ i Hx) as Hh. unfold holds in Hh. rewrite decide_True in Hh by done.
        destruct (fo_inodes _ _ Hok i) as (y & Hy & Hu); [lia|]. wp_step. unfold put_inode, slot. wp_steps.
        replace (inode_refcnt y >? 0) with true by lia.
        unfold modify_slot, slot. wp_steps.
        split; [done|]. exists y. split; [done|]. split; [lia|done].
      - wp_step. done. }
    intros r f' [-> Hf']. set (s2 := set_fs f' s1).
    do 4 (wp_step; eapply wp_modify_file; [by apply Hslot|]; cbn; rewrite insert_same).
    eapply wp_modify_file; [by apply Hslot|]; cbn; rewrite insert_same.
    assert (set_offset 0 (set_writable false (set_readable false (set_type kNone (set_inode None
      (set_refcnt (refcnt x - 1) x))))) = empty_file) as -> by (cbn; by rewrite H1).
    rewrite decide_False, decide_False by lia.
    assert (∀ i, users (<[k := empty_file]> (file_table s)) i = users (file_table s) i - holds i x) as Hu.
    { intros i. rewrite (users_insert _ _ _ _ _ Hx). change (holds i empty_file) with 0. lia. }
    split; [|split; [done|]].
    + split.
      * intros j z [(_ & <- & _)|(_ & Hz)]%list_lookup_insert_Some; [by vm_compute|by eapply fo_refcnt].
      * intros j z [(_ & <- & _)|(_ & Hz)]%list_lookup_insert_Some; [done|by eapply fo_empty].
      * intros i. cbn. rewrite Hu. intros Hne. pose proof (users_holds _ _ _ i Hx) as Hh. pose proof (users_nonneg (file_table s) i).
        destruct (fo_inodes _ _ Hok i) as (y & Hy & Hle).
        { unfold holds in *. destruct (decide _); lia. }
        destruct (inode x) as [i'|] eqn:Ei; [|subst f'; exists y; split; [done|]; unfold holds in *; destruct (decide _); lia].
        destruct Hf' as (y' & Hy' & Hp & ->). cbn. unfold holds in *. destruct (decide (i' = i)) as [->|Hn].
        -- rewrite decide_True in * by done. eexists. split; [apply list_lookup_insert_eq; by eapply lookup_lt_Some|].
           simplify_eq. cbn. lia.
        -- exists y. rewrite list_lookup_insert_ne by done. split; [done|]. destruct (decide _); lia.
    + cbn. destruct (inode x) as [i|]; [|done]. destruct Hf' as (y & Hy & Hp & ->). by exists y.
  - intros Hrange. unfold file_duplicate. wp_step. eapply wp_file_slot; [exact Hx|].
    replace (refcnt x =? INT_MAX) with false by lia. wp_step. eapply wp_modify_file; [exact Hx|]. wp_step.
    split; [done|]. split; [eapply files_ok_insert; [done|done|cbn; lia|cbn; lia|done]|].
    unfold file_close. wp_step. eapply wp_file_slot; [by apply Hslot|]. cbn [refcnt set_refcnt].
    replace (refcnt x + 1 <=? 0) with false by lia. wp_step. eapply wp_modify_file; [by apply Hslot|]. wp_step.
    cbn. rewrite insert_same. eapply wp_file_slot; [by apply Hslot|]. cbn [refcnt set_refcnt].
    replace (refcnt x + 1 - 1 >? 0) with true by lia. wp_step. unfold set_table; cbn.
    replace (set_refcnt _ _) with x by (destruct x; unfold set_refcnt; cbn; f_equal; lia).
    rewrite list_insert_id by done. by destruct s.
Qed.

(** ** Files on the disk *)
Context (con : Console) (sb : SuperBlock).
Context (Hg : geometry sb) (Hsize : sb_size sb <= bs_blocks) (Hlimit : (1 < bs_limit)%nat).
Abbreviation at_disk := (at_disk ST con sb).

(** Several reads of the same file in a row. *)
Fixpoint file_reads (file : nat) (counts : list Z) : M (Files T) (list Z) :=
  match counts with
  | [] => mret []
  | count :: counts => '(_, dest) ← file_read file count; rest ← file_reads file counts; mret (dest ++ rest)
  end.
Definition total (counts : list Z) : Z := foldr Z.add 0 counts.

Lemma total_nonneg counts : Forall is_u32 counts → 0 <= total counts.
Proof.
  induction 1 as [|c cs Hc _ IH]; [done|]. change (total (c :: cs)) with (c + total cs). unfold is_u32 in Hc. lia.
Qed.

(** The open file [k] reads the inode in slot [i]. *)
Record opened s tbl f k (x : File) i (y : Inode) : Prop := {
  op_disk : at_disk tbl [] (fs s) f;
  op_file : file_table s !! k = Some x;
  op_type : file_type x = kInode;
  op_inode : inode x = Some i;
  op_slot : tbl !! i = Some y;
  op_inv : inode_inv sb f (disk y);
  op_offset : 0 <= offset x;
}.

Lemma size_u32 f di : inode_inv sb f di → 0 <= size di <= 71680.
Proof.
  intros Hi. pose proof (ii_size _ _ _ Hi) as Hm. unfold max_bytes, MAXFILE, FSBLOCK_SIZE in Hm.
  destruct (ii_wf _ _ _ Hi) as (_ & _ & _ & _ & Hs & _). unfold is_u32 in Hs. lia.
Qed.

Lemma wp_file_read s tbl f k x i y count (Q : option Z * list Z → Files T → Prop) :
  opened s tbl f k x i y → readable x = true → offset x <= size (disk y) → is_u32 count →
  (∀ s', let n := Z.min count (size (disk y) - offset x) in
    at_disk tbl [] (fs s') f → file_table s' = <[k := set_offset (offset x + n) x]> (file_table s) →
    Q (Some n, file_slice f (disk y) (offset x) n) s') →
  wp (file_read k count) s Q.
Proof using HT Hg Hsize Hlimit.
  intros [Ha Hx Ht Hi Hy Hinv Ho] Hr Hle Hc HQ. pose proof (size_u32 _ _ Hinv).
  unfold file_read. wp_step. eapply wp_file_slot; [exact Hx|]. rewrite Hr, Ht, Hi. cbn [negb].
  wp_step. eapply wp_defined; [reflexivity|]. wp_step. apply wp_zoom.
  apply (wp_read_data ST con sb Hg Hsize tbl [] (fs s) f i y); [done|done|done|cbn; lia|unfold is_u32; lia|done|].
  intros f' [Ha' _]. replace (offset x >? size (disk y)) with false by lia. cbn beta iota zeta.
  wp_step. eapply wp_modify_file; [exact Hx|]. wp_step. unfold is_u32 in Hc. rewrite u32_small by lia.
  by apply HQ.
Qed.

(** Consecutive reads of an open file return consecutive pieces of its contents from
    the file's position on, to its end and not beyond: together what one read of the
    sum would return; the position is left behind them. *)
Theorem file_read_correct s tbl f k x i y counts :
  opened s tbl f k x i y → readable x = true → offset x <= size (disk y) → Forall is_u32 counts →
  wp (file_reads k counts) s (λ l s',
    l = take (Z.to_nat (total counts)) (drop (Z.to_nat (offset x)) (file_bytes f (disk y))) ∧
    at_disk tbl [] (fs s') f ∧
    file_table s' = <[k := set_offset (Z.min (size (disk y)) (offset x + total counts)) x]> (file_table s)).
Proof using HT Hg Hsize Hlimit.
  intros Hop Hr Hle Hcs. revert s x Hop Hr Hle. induction Hcs as [|c cs Hc Hcs IH];
    intros s x Hop Hr Hle; pose proof Hop as [Ha Hx Ht Hi Hy Hinv Ho]; cbn [file_reads].
  - wp_step. split; [done|]. split; [done|]. cbn. rewrite Z.min_r by lia.
    replace (set_offset _ x) with x by (destruct x; unfold set_offset; cbn; f_equal; lia). by rewrite list_insert_id.
  - unfold is_u32 in Hc. wp_step. eapply wp_file_read; [exact Hop|done|done|done|]. cbn zeta.
    set (n := Z.min c (size (disk y) - offset x)). intros s1 Ha1 Hf1.
    assert (0 <= total cs) as Ht0 by by apply total_nonneg.
    assert (file_table s1 !! k = Some (set_offset (offset x + n) x)) as Hx1.
    { rewrite Hf1. apply list_lookup_insert_eq. by eapply lookup_lt_Some. }
    cbn beta iota. wp_step. eapply wp_mono; [apply (IH s1 (set_offset (offset x + n) x)); [|done|cbn; lia]|].
    { split; try done. cbn. lia. }
    intros l s2 (-> & Ha2 & Hf2). wp_step. cbn [offset set_offset] in *. rewrite Hf1, list_insert_insert_eq in Hf2.
    change (total (c :: cs)) with (c + total cs). rewrite file_slice_bytes by lia.
    set (l := file_bytes f (disk y)). assert (length l = Z.to_nat (size (disk y))) as Hl by apply length_file_slice.
    split; [|split; [done|]].
    + replace (drop (Z.to_nat (offset x + n)) l) with (drop (Z.to_nat n) (drop (Z.to_nat (offset x)) l))
        by (rewrite drop_drop; f_equal; lia).
      set (l1 := drop (Z.to_nat (offset x)) l). assert (length l1 = Z.to_nat (size (disk y) - offset x)) as Hl1.
      { unfold l1. rewrite length_drop, Hl. lia. }
      destruct (decide (c <= size (disk y) - offset x)) as [Hlt|Hgt].
      * replace n with c by lia. rewrite take_take_drop. f_equal. lia.
      * rewrite (drop_ge l1) by lia. rewrite take_nil, app_nil_r. rewrite !take_ge by lia. done.
    + rewrite Hf2. f_equal. unfold set_offset. cbn. f_equal. lia.
Qed.

(** [file_write] on an open file writes at the file's position, moves the position
    behind what was written, and leaves its reference and flags alone; a later read
    of what was written, through any descriptor of the same inode, returns it. *)
Theorem file_write_correct s tbl f k x i y source count :
  opened s tbl f k x i y → writable x = true → metadata_used sb f → 0 <= inode_number y < ninodes sb →
  offset x <= size (disk y) → is_u32 count → count <= Z.of_nat (length source) → bytes source →
  wp (file_write k source count) s (λ r s',
    if decide (offset x + count <= max_bytes) then
      ∃ n f' di', r = Some n ∧ 0 <= n <= count ∧
        write_effect ST con sb tbl [] (fs s) f i y source (offset x) n (fs s') f' di' ∧
        file_table s' = <[k := set_offset (offset x + n) x]> (file_table s) ∧
        take (Z.to_nat n) (drop (Z.to_nat (offset x)) (file_bytes f' di')) = take (Z.to_nat n) source
    else r = None ∧ file_table s' = file_table s ∧ fs s' = fs s).
Proof using HT Hg Hsize Hlimit.
  intros [Ha Hx Ht Hi Hy Hinv Ho] Hw Hm Hn Hle Hc Hlen Hb. pose proof (size_u32 _ _ Hinv).
  unfold file_write. wp_step. eapply wp_file_slot; [exact Hx|]. rewrite Hw, Ht, Hi. cbn [negb].
  wp_step. eapply wp_defined; [reflexivity|]. wp_step. apply wp_zoom.
  eapply wp_mono; [apply (wp_write_data ST con sb Hg Hsize tbl [] (fs s) f i y source (offset x) count);
    first [done|cbn; lia|unfold is_u32; lia]|].
  intros r f1. cbn beta. destruct (decide (offset x + count <= max_bytes)) as [Hfit|Hfit].
  - rewrite decide_True by done. intros (n & f' & di' & -> & Hd & We & _).
    wp_step. eapply wp_modify_file; [exact Hx|]. wp_step. unfold is_u32, max_bytes, MAXFILE, FSBLOCK_SIZE in *.
    rewrite u32_small by lia. exists n, f', di'. split; [done|]. split; [done|]. split; [done|]. split; [done|].
    rewrite (we_bytes _ _ _ _ _ _ _ _ _ _ _ _ _ _ _ We). apply overwrite_read; [|lia].
    unfold file_bytes. rewrite length_file_slice. lia.
  - rewrite decide_False by tauto. intros [-> ->]. wp_step. done.
Qed.
End properties.

(** ** Witnesses *)
#[local] Existing Instance ram64.

(** Three characters wait, and the next interrupts bring "k" and return. *)
Definition typing : Files RamStore :=
  mkFiles (replicate NUM_FILES empty_file) None true
    (Keyboard.mkKeyboard ([111] ++ replicate 255 0) 1 0 false false) [None; Some 0x25; Some 0x1C; Some 0x10]
    (mkFs (ram_zero 64) NullConsole SuperBlock_zero []).

Lemma typing_ok : console_ok typing.
Proof.
  split.
  - split; [reflexivity|cbn; unfold Keyboard.BUFFER_SIZE; lia..].
  - change (Keyboard.contents (keyboard typing)) with [111]. apply Forall_singleton. unfold char_ok. lia.
  - intros sc H. cbn in H. rewrite !elem_of_cons, elem_of_nil in H. destruct_or! H; simplify_eq; split; lia.
Qed.

Lemma console_read_correct_witness :
  wp (console_read 10) typing (λ '(n, dest) s', n = 3 ∧ dest = [111; 107; 10]).
Proof.
  eapply wp_mono; [apply (console_read_correct typing 10 [111; 107; 10])|].
  - exact typing_ok.
  - lia.
  - vm_compute. reflexivity.
  - intros [n dest] s' (-> & -> & _). done.
Defined.

Lemma empty_files_ok tbl : files_ok (replicate NUM_FILES empty_file) tbl.
Proof.
  assert (∀ k x, replicate NUM_FILES empty_file !! k = Some x → x = empty_file) as H.
  { intros k x Hx. by apply lookup_replicate_1 in Hx as [-> _]. }
  split.
  - intros k x ->%H. by vm_compute.
  - by intros k x ->%H.
  - intros i Hu. exfalso. by vm_compute in Hu.
Qed.

Lemma file_open_console_correct_witness :
  wp (file_open_console true false) typing (λ res s', res ≠ None ∧ files_ok (file_table s') []).
Proof.
  eapply wp_mono; [apply (file_open_console_correct typing true false [])|].
  - exact (empty_files_ok []).
  - intros [k|] s' H; [split; [done|apply H]|]. exfalso. destruct H as [_ H].
    by apply (H 0%nat empty_file).
Defined.

(** File 0 is open twice for reading the inode in slot 0. *)
Definition shared : File := mkFile kInode 2 true true (Some 0%nat) 0.
Definition shared_files (s : Fs RamStore) : Files RamStore :=
  mkFiles (<[0%nat := shared]> (replicate NUM_FILES empty_file)) None true Keyboard.boot [] s.

Lemma shared_files_ok tbl y : tbl !! 0%nat = Some y → 1 <= inode_refcnt y →
  files_ok (<[0%nat := shared]> (replicate NUM_FILES empty_file)) tbl.
Proof.
  intros Hy Hr. assert (replicate NUM_FILES empty_file !! 0%nat = Some empty_file) as H0 by done.
  pose proof (empty_files_ok tbl) as Hok. split.
  - intros k x [(_ & <- & _)|(_ & Hx)]%list_lookup_insert_Some; [by vm_compute|by eapply fo_refcnt].
  - intros k x [(_ & <- & _)|(_ & Hx)]%list_lookup_insert_Some; [done|by eapply fo_empty].
  - intros i. rewrite (users_insert _ _ _ _ _ H0). change (users (replicate NUM_FILES empty_file) i) with 0.
    unfold holds. cbn [inode shared empty_file]. rewrite decide_False by done. case_decide as E.
    + injection E as <-. intros _. exists y. split; [done|lia].
    + done.
Qed.

Lemma file_close_correct_witness :
  ∃ s : Files RamStore, wp (file_close (Some 0%nat)) s (λ _ s', file_table s' !! 0%nat = Some (set_refcnt 1 shared)).
Proof.
  exists (shared_files (mkFs (ram_zero 64) NullConsole SuperBlock_zero table2)).
  eapply wp_mono; [apply (file_close_correct (shared_files (mkFs (ram_zero 64) NullConsole SuperBlock_zero table2)) 0 shared)|].
  - apply (shared_files_ok table2 file2); [done|]. by vm_compute.
  - reflexivity.
  - intros [] s' [_ H]. rewrite decide_False, decide_True in H by (by vm_compute). by subst s'.
Defined.

Lemma shared_opened (s : Fs RamStore) f :
  at_disk ram64 NullConsole sb64 root_table [] s f → inode_inv sb64 f (disk root64) →
  opened ram64 NullConsole sb64 (shared_files s) root_table f 0 shared 0 root64.
Proof. intros Ha Hi. by split. Qed.

Lemma file_read_correct_witness :
  ∃ s : Files RamStore, wp (file_reads 0 [16; 100]) s (λ l _, l = take 32 root_block).
Proof.
  destruct (formatted64 root_table) as (s & f & Ha & Hf & _ & _ & Hi & _). exists (shared_files s).
  eapply wp_mono; [apply (file_read_correct ram64 NullConsole sb64 sb64_geometry sb64_size ltac:(cbn; lia)
    (shared_files s) root_table f 0 shared 0 root64 [16; 100])|].
  - by apply shared_opened.
  - reflexivity.
  - by vm_compute.
  - by repeat constructor.
  - intros l s' (-> & _). cbn [disk root64]. rewrite root_bytes by apply (formatted_directory _ _ Hf).
    by vm_compute.
Defined.

Lemma file_write_correct_witness :
  ∃ s : Files RamStore, wp (file_write 0 [7; 7; 7] 2) s (λ r s', ∃ n, r = Some n ∧ 0 <= n <= 2 ∧
    file_table s' !! 0%nat = Some (set_offset n shared)).
Proof.
  destruct (formatted64 root_table) as (s & f & Ha & Hf & _ & Hm & Hi & _). exists (shared_files s).
  eapply wp_mono; [apply (file_write_correct ram64 NullConsole sb64 sb64_geometry sb64_size ltac:(cbn; lia)
    (shared_files s) root_table f 0 shared 0 root64 [7; 7; 7] 2)|].
  - by apply shared_opened.
  - reflexivity.
  - exact Hm.
  - by vm_compute.
  - by vm_compute.
  - by vm_compute.
  - cbn. lia.
  - by repeat constructor.
  - intros r s' H. cbn beta in H. rewrite decide_True in H by by vm_compute.
    destruct H as (n & _ & _ & -> & Hn & _ & Ht & _). exists n. split; [reflexivity|]. split; [exact Hn|].
    rewrite Ht. reflexivity.
Defined.
