(* ===== verification/Kstring.v ===== *)
(** * Fixed-capacity strings (include/kstring.hpp)

    [kstring<N>]: an array of [N] bytes and a length. A [const char *] is the
    bytes from the pointer on, its terminator included, or [None] for the null
    pointer; reading behind them is [None]. *)
From S2P Require Import Prelude.

Record kstring := mkKstring { data_ : list Z; len_ : nat }.

Section kstring.
Context (N : nat).

Definition clear (k : kstring) : kstring := mkKstring (<[0%nat := 0]> (data_ k)) 0.

(** The loop of [assign]. *)
Fixpoint assign_loop (s : list Z) (data : list Z) (len : nat) : option (list Z * nat) :=
  match s with
  | [] => None
  | c :: s =>
      if negb (c =? 0) && (len <? N - 1)%nat then assign_loop s (<[len := c]> data) (S len)
      else Some (data, len)
  end.

(** [assign], also the constructor and the assignment from a C string. *)
Definition assign (s : option (list Z)) (k : kstring) : option kstring :=
  '(data, len) ← match s with
                 | Some s => assign_loop s (data_ k) 0
                 | None => Some (data_ k, 0%nat)
                 end;
  Some (mkKstring (<[len := 0]> data) len).

Definition capacity : nat := N - 1.
Definition empty (k : kstring) : bool := (len_ k =? 0)%nat.
Definition at_index (k : kstring) (i : nat) : option Z := data_ k !! i.

(** The comparison of the first bytes, from index [i] on. *)
Fixpoint equal_loop (fuel : nat) (s : list Z) (k : kstring) (i : nat) : option bool :=
  match fuel with
  | O => c ← s !! i; Some (c =? 0)
  | S fuel =>
      c ← s !! i;
      d ← data_ k !! i;
      if negb (c =? d) then Some false else equal_loop fuel s k (S i)
  end.
Definition equal (k : kstring) (s : option (list Z)) : option bool :=
  match s with
  | None => Some false
  | Some s => equal_loop (len_ k) s k 0
  end.
Definition not_equal (k : kstring) (s : option (list Z)) : option bool := negb <$> equal k s.

(** What the object holds. *)
Definition text (k : kstring) : list Z := take (len_ k) (data_ k).

Record kstring_ok (k : kstring) : Prop := {
  kso_length : length (data_ k) = N;
  kso_len : (len_ k < N)%nat;
  kso_terminator : data_ k !! len_ k = Some 0;
  kso_text : 0 ∉ text k;
}.

(** A C string with the characters [t]. *)
Definition c_string (t rest : list Z) : option (list Z) := Some (t ++ 0 :: rest).

Lemma assign_loop_spec t rest pre data :
  (0 ∉ t) → (length pre < N)%nat → length data = N → take (length pre) data = pre →
  ∃ data', assign_loop (t ++ 0 :: rest) data (length pre) =
    Some (data', length (pre ++ take (N - 1 - length pre) t)) ∧ length data' = N ∧
    take (length (pre ++ take (N - 1 - length pre) t)) data' = pre ++ take (N - 1 - length pre) t.
Proof.
  revert pre data. induction t as [|c t IH]; intros pre data H0 Hl Hd Hp; cbn [assign_loop app].
  { exists data. rewrite take_nil, app_nil_r. done. }
  apply not_elem_of_cons in H0 as [Hc H0]. replace (c =? 0) with false by lia. cbn [negb andb].
  destruct (length pre <? N - 1)%nat eqn:E.
  - apply Nat.ltb_lt in E. replace (S (length pre)) with (length (pre ++ [c])) by (rewrite length_app; cbn; lia).
    destruct (IH (pre ++ [c]) (<[length pre := c]> data)) as (data' & H1 & H2 & H3); [done| | | |].
    + rewrite length_app. cbn. lia.
    + by rewrite length_insert.
    + rewrite length_app. cbn. rewrite Nat.add_1_r. erewrite take_S_r by (apply list_lookup_insert_eq; lia).
      by rewrite take_insert_ge, Hp by lia.
    + exists data'. replace (N - 1 - length pre)%nat with (S (N - 1 - length (pre ++ [c])))
        by (rewrite length_app; cbn; lia).
      cbn [take]. rewrite <- app_assoc in H1, H3. cbn [app] in H1, H3. done.
  - apply Nat.ltb_ge in E. exists data. replace (N - 1 - length pre)%nat with 0%nat by lia.
    cbn [take]. rewrite app_nil_r. done.
Qed.

Lemma equal_loop_spec t rest pre k u :
  (0 ∉ t) → (0 ∉ u) → drop (length pre) (data_ k) = u ++ 0 :: drop (S (length pre + length u)) (data_ k) →
  equal_loop (length u) (pre ++ t ++ 0 :: rest) k (length pre) = Some (bool_decide (t = u)).
Proof.
  revert pre t. induction u as [|d u IH]; intros pre t Ht Hu Hd; cbn [equal_loop length].
  - rewrite lookup_app_r, Nat.sub_diag by done. destruct t as [|c t]; cbn; [done|].
    apply not_elem_of_cons in Ht as [Hc _]. rewrite bool_decide_eq_false_2 by done. f_equal. lia.
  - apply not_elem_of_cons in Hu as [Hdz Hu]. rewrite lookup_app_r, Nat.sub_diag by done.
    assert (data_ k !! length pre = Some d) as Hk.
    { rewrite <- (Nat.add_0_r (length pre)), <- lookup_drop, Hd. done. }
    destruct t as [|c t]; cbn [app lookup list_lookup mbind option_bind].
    + rewrite Hk. cbn [mbind option_bind]. replace (0 =? d) with false by lia. done.
    + rewrite Hk. cbn [mbind option_bind]. apply not_elem_of_cons in Ht as [Hc Ht].
      destruct (c =? d) eqn:E; cbn [negb].
      2:{ rewrite bool_decide_eq_false_2; [done|]. intros [= -> _]. lia. }
      replace (S (length pre)) with (length (pre ++ [c])) by (rewrite length_app; cbn; lia).
      specialize (IH (pre ++ [c]) t Ht Hu). rewrite <- app_assoc in IH. cbn [app] in IH. rewrite IH.
      * f_equal. apply bool_decide_ext. replace c with d by lia. split; [by intros ->|by intros [= ->]].
      * rewrite length_app, <- drop_drop, Hd. cbn [app drop length]. rewrite drop_0. do 3 f_equal. lia.
Qed.

Lemma assign_loop_defined t rest data len : (0 ∉ t) → is_Some (assign_loop (t ++ 0 :: rest) data len).
Proof.
  revert data len. induction t as [|c t IH]; intros data len H0; cbn [assign_loop app]; [by eexists|].
  apply not_elem_of_cons in H0 as [_ H0]. destruct (negb (c =? 0) && _); [by apply IH|by eexists].
Qed.

Lemma assign_defined t rest k : (0 ∉ t) → is_Some (assign (c_string t rest) k).
Proof.
  intros H0. unfold assign, c_string. destruct (assign_loop_defined t rest (data_ k) 0 H0) as [[d l] ->]. by eexists.
Qed.

(** Assigning a C string keeps its first [N - 1] characters, terminated by a zero
    byte inside the array, and comparing the object with a C string tells whether
    that is the string kept; with the null pointer it becomes empty, and it is never
    equal to the null pointer. *)
Theorem kstring_correct k t rest :
  (0 < N)%nat → length (data_ k) = N → (0 ∉ t) →
  (∃ k', assign (c_string t rest) k = Some k' ∧ kstring_ok k' ∧ text k' = take capacity t ∧
    equal k' None = Some false ∧
    ∀ t' rest', (0 ∉ t') → equal k' (c_string t' rest') = Some (bool_decide (t' = take capacity t))) ∧
  (∃ k', assign None k = Some k' ∧ kstring_ok k' ∧ text k' = [] ∧ empty k' = true).
Proof.
  intros HN Hd H0. split.
  - destruct (assign_loop_spec t rest [] (data_ k) H0 HN Hd eq_refl) as (data & H1 & H2 & H3).
    cbn [length app] in *. rewrite Nat.sub_0_r in *. set (u := take (N - 1) t) in *.
    assert (length u < N)%nat as Hu by (unfold u; rewrite length_take; lia).
    assert (0 ∉ u) as Hu0 by (intros Hin; apply H0; by apply elem_of_take in Hin as (i & Hi & _); apply list_elem_of_lookup_2 with i).
    exists (mkKstring (<[length u := 0]> data) (length u)). unfold assign, c_string. rewrite H1.
    assert (text (mkKstring (<[length u := 0]> data) (length u)) = u) as Htext.
    { unfold text. cbn. rewrite take_insert_ge by lia. done. }
    split; [done|]. split; [|split; [exact Htext|split; [done|]]].
    + split; cbn [data_ len_]; [by rewrite length_insert|done|apply list_lookup_insert_eq; lia|by rewrite Htext].
    + intros t' rest' Ht'. apply (equal_loop_spec t' rest' [] _ u Ht' Hu0). cbn [length Nat.add drop data_].
      rewrite <- (take_drop_middle (<[length u := 0]> data) (length u) 0) at 1 by (apply list_lookup_insert_eq; lia).
      by rewrite take_insert_ge, H3 by lia.
  - exists (mkKstring (<[0%nat := 0]> (data_ k)) 0). split; [done|]. split; [|done].
    split; cbn; [by rewrite length_insert|done|apply list_lookup_insert_eq; lia|apply not_elem_of_nil].
Qed.
End kstring.

Lemma kstring_correct_witness :
  ∃ k', assign 4 (c_string [105; 110; 105; 116] []) (mkKstring [9; 9; 9; 9] 7) = Some k' ∧ text k' = [105; 110; 105].
Proof.
  destruct (kstring_correct 4 (mkKstring [9; 9; 9; 9] 7) [105; 110; 105; 116] []) as [(k' & H & _ & Ht & _) _].
  - lia.
  - reflexivity.
  - by apply (bool_decide_unpack _).
  - exists k'. split; [exact H|exact Ht].
Defined.
