(* ===== verification/CrtStubs.v ===== *)
(** * Memory and string functions (include/crt_stubs.cpp)

    The memory is a list of bytes and a pointer an index into it; an access
    outside is stuck. [rep stosb] and [rep movsb] go upwards one byte at a
    time. *)
From S2P Require Import Prelude.

Abbreviation Memory := (list Z).

Definition load (a : nat) : M Memory Z := m ← get; defined (m !! a).
Definition store (a : nat) (v : Z) : M Memory () :=
  m ← get; if (a <? length m)%nat then put (<[a := v]> m) else stuck.

(** [rep stosb] *)
Fixpoint stosb (d : nat) (al : Z) (count : nat) : M Memory () :=
  match count with O => mret () | S count => _ ← store d al; stosb (S d) al count end.
(** [rep movsb] *)
Fixpoint movsb (d s : nat) (count : nat) : M Memory () :=
  match count with O => mret () | S count => c ← load s; _ ← store d c; movsb (S d) (S s) count end.

Definition memset (dest : nat) (value : Z) (count : nat) : M Memory nat :=
  _ ← stosb dest (u8 value) count; mret dest.

Definition memcpy (dest src : nat) (count : nat) : M Memory nat :=
  _ ← movsb dest src count; mret dest.

(** The loop of [strlen] from [p] on; [fuel] bounds it by the memory. *)
Fixpoint strlen_loop (fuel : nat) (p : nat) : M Memory nat :=
  match fuel with
  | O => stuck
  | S fuel => c ← load p; if negb (c =? 0) then strlen_loop fuel (S p) else mret p
  end.
Definition strlen (s : nat) : M Memory nat :=
  m ← get; p ← strlen_loop (S (length m)) s; mret (p - s)%nat.

(** The loops of [strncpy], with [n] bytes left and [i] done. *)
Fixpoint strncpy_pad (dest : nat) (n i : nat) : M Memory () :=
  match n with O => mret () | S n => _ ← store (dest + i) 0; strncpy_pad dest n (S i) end.
Fixpoint strncpy_copy (dest src : nat) (n i : nat) : M Memory () :=
  match n with
  | O => mret ()
  | S n' =>
      c ← load (src + i);
      if negb (c =? 0) then _ ← store (dest + i) c; strncpy_copy dest src n' (S i)
      else strncpy_pad dest n i
  end.
Definition strncpy (dest src : nat) (count : nat) : M Memory nat :=
  _ ← strncpy_copy dest src count 0; mret dest.

(** The loop of [memmove], which copies the last byte first. *)
Fixpoint move_backwards (dest src : nat) (i : nat) : M Memory () :=
  match i with
  | O => mret ()
  | S i => c ← load (src + i); _ ← store (dest + i) c; move_backwards dest src i
  end.

Definition memmove (dest src : nat) (count : nat) : M Memory nat :=
  if (dest <? src)%nat then memcpy dest src count
  else _ ← move_backwards dest src count; mret dest.

(** ** What they do *)

Lemma wp_load a m (Q : Z → Memory → Prop) : (a < length m)%nat → Q (nth a m 0) m → wp (load a) m Q.
Proof.
  intros Ha HQ. unfold load. do 2 wp_step. eapply wp_defined; [|exact HQ].
  rewrite nth_lookup. by destruct (lookup_lt_is_Some_2 m a Ha) as [v ->].
Qed.

Lemma wp_store a v m (Q : () → Memory → Prop) : (a < length m)%nat → Q () (<[a := v]> m) → wp (store a v) m Q.
Proof.
  intros Ha HQ. unfold store. do 2 wp_step. apply Nat.ltb_lt in Ha. rewrite Ha. by wp_step.
Qed.

(** [m'] is [m] with [f j] at [dest + j] for the [j] with [P j]. *)
Definition stored (m m' : Memory) (dest : nat) (P : nat → Prop) (f : nat → Z) : Prop :=
  length m' = length m ∧
  ∀ a, (a < length m)%nat →
    (∀ j, a = (dest + j)%nat → P j → nth a m' 0 = f j) ∧
    ((∀ j, a = (dest + j)%nat → ¬ P j) → nth a m' 0 = nth a m 0).

Lemma nth_insert (m : Memory) a v b :
  (a < length m)%nat → nth b (<[a := v]> m) 0 = if decide (a = b) then v else nth b m 0.
Proof.
  intros Ha. rewrite !nth_lookup. case_decide as E.
  - subst. by rewrite list_lookup_insert_eq.
  - by rewrite list_lookup_insert_ne.
Qed.

Lemma stored_splice m m' dest count src :
  stored m m' dest (λ j, (j < count)%nat) (λ j, nth j src 0) → length src = count → (dest + count <= length m)%nat →
  m' = splice dest src m.
Proof.
  intros [Hl H] Hs Hd. apply (nth_ext _ _ 0 0); [by rewrite length_splice by lia|].
  intros a Ha. rewrite Hl in Ha. destruct (H a Ha) as [Hin Hout]. rewrite (nth_lookup (splice _ _ _)).
  destruct (decide (dest <= a < dest + count)%nat) as [Hr|Hr].
  - rewrite (Hin (a - dest)%nat) by lia. rewrite lookup_splice_in, nth_lookup by lia. done.
  - rewrite Hout by (intros j -> Hj; lia). rewrite lookup_splice_out, nth_lookup by lia. done.
Qed.

Lemma wp_stosb d al count m (Q : () → Memory → Prop) :
  (d + count <= length m)%nat → (∀ m', stored m m' d (λ j, (j < count)%nat) (λ _, al) → Q () m') →
  wp (stosb d al count) m Q.
Proof.
  revert d m. induction count as [|n IH]; intros d m Hd HQ; cbn [stosb].
  - wp_step. apply HQ. split; [done|]. intros a Ha. split; [intros j _ Hj; lia|done].
  - wp_step. apply wp_store; [lia|]. apply IH; [rewrite length_insert; lia|].
    intros m' [Hl H]. rewrite length_insert in *. apply HQ. split; [done|]. intros a Ha.
    destruct (H a Ha) as [H1 H2]. split.
    + intros j -> Hj. destruct j as [|j]; [|apply (H1 j); lia].
      rewrite H2 by (intros j' Hj' ?; lia). rewrite nth_insert, decide_True by lia. done.
    + intros Hno. rewrite H2, nth_insert, decide_False; [done| |lia|].
      * intros ->. by apply (Hno 0%nat); lia.
      * intros j -> Hj. apply (Hno (S j)); lia.
Qed.

Lemma wp_movsb d s count m (Q : () → Memory → Prop) :
  (d + count <= length m)%nat → (s + count <= length m)%nat → (d <= s ∨ s + count <= d)%nat →
  (∀ m', stored m m' d (λ j, (j < count)%nat) (λ j, nth (s + j) m 0) → Q () m') →
  wp (movsb d s count) m Q.
Proof.
  revert d s m. induction count as [|n IH]; intros d s m Hd Hs Hov HQ; cbn [movsb].
  - wp_step. apply HQ. split; [done|]. intros a Ha. split; [intros j _ Hj; lia|done].
  - wp_step. apply wp_load; [lia|]. wp_step. apply wp_store; [lia|].
    apply IH; [rewrite length_insert; lia..|lia|]. intros m' [Hl H]. rewrite length_insert in *.
    apply HQ. split; [done|]. intros a Ha. destruct (H a Ha) as [H1 H2]. split.
    + intros j -> Hj. destruct j as [|j].
      * rewrite H2 by (intros j' Hj' ?; lia). rewrite nth_insert, decide_True by lia. f_equal. lia.
      * rewrite (H1 j) by lia. rewrite nth_insert, decide_False by lia. f_equal. lia.
    + intros Hno. rewrite H2, nth_insert, decide_False; [done| |lia|].
      * intros ->. by apply (Hno 0%nat); lia.
      * intros j -> Hj. apply (Hno (S j)); lia.
Qed.

Lemma wp_move_backwards dest src i m (Q : () → Memory → Prop) :
  (dest + i <= length m)%nat → (src + i <= length m)%nat → (src <= dest)%nat →
  (∀ m', stored m m' dest (λ j, (j < i)%nat) (λ j, nth (src + j) m 0) → Q () m') →
  wp (move_backwards dest src i) m Q.
Proof.
  revert m. induction i as [|i IH]; intros m Hd Hs Hle HQ; cbn [move_backwards].
  - wp_step. apply HQ. split; [done|]. intros a Ha. split; [intros j _ Hj; lia|done].
  - wp_step. apply wp_load; [lia|]. wp_step. apply wp_store; [lia|].
    apply IH; [rewrite length_insert; lia..|lia|]. intros m' [Hl H]. rewrite length_insert in *.
    apply HQ. split; [done|]. intros a Ha. destruct (H a Ha) as [H1 H2]. split.
    + intros j -> Hj. destruct (decide (j = i)) as [->|Hne].
      * rewrite H2 by (intros j' Hj' ?; lia). rewrite nth_insert, decide_True by lia. done.
      * rewrite (H1 j) by lia. rewrite nth_insert, decide_False by lia. done.
    + intros Hno. rewrite H2, nth_insert, decide_False; [done| |lia|].
      * intros <-. by apply (Hno i); lia.
      * intros j -> Hj. apply (Hno j); lia.
Qed.

Lemma wp_strlen_loop t rest fuel p m (Q : nat → Memory → Prop) :
  drop p m = t ++ 0 :: rest → (0 ∉ t) → (length t < fuel)%nat → Q (p + length t)%nat m →
  wp (strlen_loop fuel p) m Q.
Proof.
  revert p fuel. induction t as [|c t IH]; intros p [|fuel] Hm H0 Hf HQ; cbn [length] in *; try lia; cbn [strlen_loop].
  all: assert (p < length m)%nat as Hp by
    (apply Nat.nle_gt; intros Hp; rewrite drop_ge in Hm by done; done).
  - wp_step. apply wp_load; [done|]. rewrite nth_lookup, <- (Nat.add_0_r p), <- lookup_drop, Hm. cbn.
    wp_step. by rewrite Nat.add_0_r in *.
  - apply not_elem_of_cons in H0 as [Hc H0]. wp_step. apply wp_load; [done|].
    rewrite nth_lookup. rewrite <- (Nat.add_0_r p) at 1. rewrite <- lookup_drop, Hm. cbn [app lookup list_lookup default].
    change (id c) with c. replace (c =? 0) with false by lia. cbn [negb]. apply IH; [|done|lia|by replace (S p + length t)%nat with (p + S (length t))%nat by lia].
    rewrite <- (Nat.add_1_r p), <- drop_drop, Hm. done.
Qed.

Lemma wp_strncpy_pad dest n i m (Q : () → Memory → Prop) :
  (dest + i + n <= length m)%nat → (∀ m', stored m m' dest (λ j, (i <= j < i + n)%nat) (λ _, 0) → Q () m') →
  wp (strncpy_pad dest n i) m Q.
Proof.
  revert i m. induction n as [|n IH]; intros i m Hd HQ; cbn [strncpy_pad].
  - wp_step. apply HQ. split; [done|]. intros a Ha. split; [intros j _ Hj; lia|done].
  - wp_step. apply wp_store; [lia|]. apply IH; [rewrite length_insert; lia|]. intros m' [Hl H].
    rewrite length_insert in *. apply HQ. split; [done|]. intros a Ha. destruct (H a Ha) as [H1 H2]. split.
    + intros j -> Hj. destruct (decide (j = i)) as [->|Hne]; [|apply (H1 j); lia].
      rewrite H2 by (intros j' Hj' ?; lia). rewrite nth_insert, decide_True by lia. done.
    + intros Hno. rewrite H2, nth_insert, decide_False; [done| |lia|].
      * intros <-. by apply (Hno i); lia.
      * intros j -> Hj. apply (Hno j); lia.
Qed.

Lemma wp_strncpy_copy dest src t n i m (Q : () → Memory → Prop) :
  (∀ j, (j <= length t)%nat → m !! (src + j)%nat = Some (nth j t 0)) → (0 ∉ t) → (i <= length t)%nat →
  (dest + i + n <= length m)%nat →
  (dest + i + n <= src ∨ src + length t < dest)%nat →
  (∀ m', stored m m' dest (λ j, (i <= j < i + n)%nat) (λ j, nth j t 0) → Q () m') →
  wp (strncpy_copy dest src n i) m Q.
Proof.
  revert i m. induction n as [|n IH]; intros i m Hm H0 Hi Hd Hov HQ; cbn [strncpy_copy].
  { wp_step. apply HQ. split; [done|]. intros a Ha. split; [intros j _ Hj; lia|done]. }
  pose proof (lookup_lt_Some _ _ _ (Hm i Hi)) as Hp.
  assert (nth (src + i) m 0 = nth i t 0) as Hc by by rewrite (nth_lookup m), (Hm i Hi).
  wp_step. apply wp_load; [done|]. rewrite Hc. destruct (decide (i < length t)%nat) as [Hlt|Hge].
  - assert (nth i t 0 ≠ 0) as Hnz.
    { rewrite nth_lookup. destruct (lookup_lt_is_Some_2 t i Hlt) as [c E]. rewrite E. cbn. intros ->.
      by apply H0, list_elem_of_lookup_2 with i. }
    replace (nth i t 0 =? 0) with false by lia. cbn [negb]. wp_step. apply wp_store; [lia|].
    apply IH; [|done|lia|rewrite length_insert; lia|lia|].
    + intros j Hj. rewrite list_lookup_insert_ne by lia. by apply Hm.
    + intros m' [Hl H]. rewrite length_insert in *. apply HQ. split; [done|]. intros a Ha. destruct (H a Ha) as [H1 H2]. split.
      * intros j -> Hj. destruct (decide (j = i)) as [->|Hne]; [|apply (H1 j); lia].
        rewrite H2 by (intros j' Hj' ?; lia). rewrite nth_insert, decide_True by lia. done.
      * intros Hno. rewrite H2, nth_insert, decide_False; [done| |lia|].
        -- intros <-. by apply (Hno i); lia.
        -- intros j -> Hj. apply (Hno j); lia.
  - replace (nth i t 0) with 0 by (rewrite nth_overflow; [done|lia]). cbn [Z.eqb negb].
    apply (wp_strncpy_pad dest (S n) i m); [lia|]. intros m' [Hl H]. apply HQ. split; [done|]. intros a Ha.
    destruct (H a Ha) as [H1 H2]. split; [|exact H2]. intros j Hj Hr. rewrite (H1 j) by done.
    rewrite nth_overflow; [done|lia].
Qed.

(** ** The properties *)

(** The C string [t] lies at address [p]. *)
Definition string_at (m : Memory) (p : nat) (t : list Z) : Prop :=
  (0 ∉ t) ∧ ∀ j, (j <= length t)%nat → m !! (p + j)%nat = Some (nth j t 0).

(** [memmove] copies the bytes as they were before the call, however the two regions
    overlap, and changes no other byte; [memcpy] does so for regions that do not
    overlap or whose destination is lower. *)
Theorem memmove_correct dest src count m :
  (dest + count <= length m)%nat → (src + count <= length m)%nat →
  wp (memmove dest src count) m (λ r m', r = dest ∧ m' = splice dest (slice src count m) m) ∧
  ((dest <= src ∨ src + count <= dest)%nat →
   wp (memcpy dest src count) m (λ r m', r = dest ∧ m' = splice dest (slice src count m) m)).
Proof.
  intros Hd Hs.
  assert (∀ m', stored m m' dest (λ j, (j < count)%nat) (λ j, nth (src + j) m 0) → m' = splice dest (slice src count m) m) as Hsp.
  { intros m' [Hl H]. apply stored_splice with count; [|by apply length_slice|done]. split; [done|].
    intros a Ha. destruct (H a Ha) as [H1 H2]. split; [|done]. intros j Hj Hlt. rewrite (H1 j Hj Hlt).
    rewrite !nth_lookup, lookup_slice by done. done. }
  assert ((dest <= src ∨ src + count <= dest)%nat →
    wp (memcpy dest src count) m (λ r m', r = dest ∧ m' = splice dest (slice src count m) m)) as Hcpy.
  { intros Hov. unfold memcpy. wp_step. apply wp_movsb; [done|done|lia|]. intros m' Hm'. wp_step. auto. }
  split; [|done]. unfold memmove. destruct (dest <? src)%nat eqn:E; [apply Hcpy; left; apply Nat.ltb_lt in E; lia|].
  apply Nat.ltb_ge in E. wp_step. apply wp_move_backwards; [done|done|done|]. intros m' Hm'. wp_step. auto.
Qed.

(** [strlen] counts the characters before the terminator; [strncpy] writes exactly
    [count] bytes, the string's characters and then zeros; [memset] fills its region
    with the low byte of the value. No other byte changes. *)
Theorem string_functions_correct dest src count value t m :
  (dest + count <= length m)%nat → string_at m src t →
  wp (strlen src) m (λ n m', n = length t ∧ m' = m) ∧
  wp (memset dest value count) m (λ r m', r = dest ∧ m' = splice dest (replicate count (u8 value)) m) ∧
  ((dest + count <= src ∨ src + length t < dest)%nat →
   wp (strncpy dest src count) m (λ r m', r = dest ∧
     m' = splice dest (take count (t ++ replicate (count - length t) 0)) m)).
Proof.
  intros Hd [H0 Ht]. split; [|split].
  - pose proof (lookup_lt_Some _ _ _ (Ht (length t) ltac:(lia))) as Hlt. unfold strlen. do 3 wp_step.
    assert (drop src m = t ++ 0 :: drop (src + S (length t)) m) as Hdrop.
    { apply list_eq. intros j. rewrite lookup_drop. destruct (decide (j < length t)%nat) as [Hj|Hj].
      - rewrite Ht by lia. rewrite lookup_app_l by done. destruct (lookup_lt_is_Some_2 t j Hj) as [c Hc].
        by rewrite Hc, (nth_lookup_Some _ _ _ _ Hc).
      - rewrite lookup_app_r by lia. destruct (decide (j = length t)) as [->|Hne].
        + rewrite Ht, Nat.sub_diag by lia. by rewrite nth_overflow.
        + replace (j - length t)%nat with (S (j - length t - 1)) by lia.
          change ((0 :: drop (src + S (length t)) m) !! S (j - length t - 1))
            with (drop (src + S (length t)) m !! (j - length t - 1)%nat).
          rewrite lookup_drop. f_equal. lia. }
    eapply wp_strlen_loop; [exact Hdrop|done|lia|]. wp_step. split; [lia|done].
  - unfold memset. wp_step. apply wp_stosb; [done|]. intros m' [Hl H]. wp_step. split; [done|].
    apply stored_splice with count; [|apply length_replicate|done]. split; [done|].
    intros a Ha. destruct (H a Ha) as [H1 H2]. split; [|done]. intros j Hj Hlt. rewrite (H1 j Hj Hlt).
    rewrite nth_lookup, lookup_replicate_2 by done. done.
  - intros Hov. unfold strncpy. wp_step. apply (wp_strncpy_copy dest src t count 0 m); [done|done|lia|lia|lia|].
    intros m' [Hl H]. wp_step. split; [done|]. apply stored_splice with count; [|rewrite length_take, length_app, length_replicate; lia|done].
    split; [done|]. intros a Ha. destruct (H a Ha) as [H1 H2]. split.
    + intros j Hj Hlt. rewrite (H1 j Hj) by lia. rewrite !nth_lookup, lookup_take_lt by done.
      destruct (decide (j < length t)%nat) as [Hjt|Hjt]; [by rewrite lookup_app_l|].
      rewrite lookup_ge_None_2, lookup_app_r, lookup_replicate_2 by lia. done.
    + intros Hno. apply H2. intros j Hj Hr. apply (Hno j Hj). lia.
Qed.

Lemma memmove_correct_witness :
  wp (memmove 1 0 4) [1; 2; 3; 4; 5; 6] (λ r m', r = 1%nat ∧ m' = [1; 1; 2; 3; 4; 6]).
Proof.
  eapply wp_mono; [apply (memmove_correct 1 0 4 [1; 2; 3; 4; 5; 6]); cbn; lia|].
  intros r m' [-> ->]. done.
Defined.

Lemma string_functions_correct_witness :
  wp (strncpy 4 0 4) [104; 105; 0; 9; 9; 9; 9; 9; 9] (λ r m', m' = [104; 105; 0; 9; 104; 105; 0; 0; 9]).
Proof.
  eapply wp_mono; [apply (string_functions_correct 4 0 4 7 [104; 105] [104; 105; 0; 9; 9; 9; 9; 9; 9])|].
  - cbn. lia.
  - split; [by apply (bool_decide_unpack _)|]. intros [|[|[|j]]] Hj; try reflexivity. cbn in Hj. lia.
  - right. cbn. lia.
  - intros r m' [_ ->]. done.
Defined.
