(* ===== verification/Console.v ===== *)
(** * Formatted output (include/console.hpp, include/console.cpp)

    [print_number] and [vprintf] on any console. A format string is its bytes
    without the terminator; reading behind the terminator is stuck, and so is an
    argument of another type than the conversion takes. *)
From stdpp Require Import strings.
From S2P Require Import Prelude FileSystem.

Inductive Color :=
| Black | Blue | Green | Cyan | Red | Magenta | Brown | LightGrey
| DarkGrey | LightBlue | LightGreen | LightCyan | LightRed | LightMagenta | Yellow | White.

Inductive Length := LNone | LChar | LShort | LLong | LLongLong | LSize.

(** The variable arguments, by their promoted types. *)
Inductive Arg :=
| AInt (v : Z) | AUnsigned (v : Z) | ALong (v : Z) | AULong (v : Z) | ALongLong (v : Z) | AULongLong (v : Z)
| ASize (v : Z) | APointer (v : Z) | AString (s : list Z).

Definition write (s : list Z) : M Console () := modify (console_write s).
Definition putchar (c : Z) : M Console () := write [c].
Definition puts (s : list Z) : M Console () := write s.

(** [static const char digits[]] *)
Definition digits : list Z := string_bytes "0123456789abcdef".

(** The loop that takes the value apart; [reversed] has at most 64 bytes. *)
Fixpoint digit_loop (fuel : nat) (value base : Z) (reversed : list Z) : option (list Z) :=
  match fuel with
  | O => None
  | S fuel =>
      if negb (value =? 0) && (length reversed <? 64)%nat then
        d ← digits !! Z.to_nat (value `mod` base);
        digit_loop fuel (value / base) base (reversed ++ [d])
      else Some reversed
  end.

Fixpoint pad_loop (fuel : nat) (width pad : Z) (reversed : list Z) : option (list Z) :=
  match fuel with
  | O => None
  | S fuel =>
      if (Z.of_nat (length reversed) <? width) && (length reversed <? 64)%nat
      then pad_loop fuel width pad (reversed ++ [pad])
      else Some reversed
  end.

Definition print_number (value base width pad : Z) : M Console () :=
  reversed ← (if value =? 0 then mret [48] else defined (digit_loop 65 value base []));
  reversed ← defined (pad_loop 65 width pad reversed);
  write (rev reversed).

(** ['0'] after the percent sign. *)
Definition parse_pad (fmt : list Z) : Z * list Z :=
  match fmt with
  | c :: fmt' => if c =? 48 then (48, fmt') else (32, fmt)
  | [] => (32, fmt)
  end.

(** The digits of the width; [int] overflow is undefined. *)
Fixpoint parse_width (fmt : list Z) (width : Z) : option (Z * list Z) :=
  match fmt with
  | c :: fmt' =>
      if (48 <=? c) && (c <=? 57) then
        let width := width * 10 + (c - 48) in
        if width >? INT_MAX then None else parse_width fmt' width
      else Some (width, fmt)
  | [] => Some (width, fmt)
  end.

(** [h], [hh], [l], [ll], [z]. *)
Definition parse_length (fmt : list Z) : Length * list Z :=
  match fmt with
  | c :: fmt' =>
      if c =? 104 then
        match fmt' with
        | d :: fmt'' => if d =? 104 then (LChar, fmt'') else (LShort, fmt')
        | [] => (LShort, fmt')
        end
      else if c =? 108 then
        match fmt' with
        | d :: fmt'' => if d =? 108 then (LLongLong, fmt'') else (LLong, fmt')
        | [] => (LLong, fmt')
        end
      else if c =? 122 then (LSize, fmt')
      else (LNone, fmt)
  | [] => (LNone, fmt)
  end.

(** [static_cast<long long>] of an unsigned value. *)
Definition signed64 (v : Z) : Z := if v <? 9223372036854775808 then v else v - 18446744073709551616.

(** [va_arg] for [%d] and for [%u], [%x]. *)
Definition signed_arg (length : Length) (args : list Arg) : option (Z * list Arg) :=
  match length, args with
  | LLongLong, ALongLong v :: args => Some (v, args)
  | LLong, ALong v :: args => Some (v, args)
  | LSize, ASize v :: args => Some (signed64 v, args)
  | (LNone | LChar | LShort), AInt v :: args => Some (v, args)
  | _, _ => None
  end.
Definition unsigned_arg (length : Length) (args : list Arg) : option (Z * list Arg) :=
  match length, args with
  | LLongLong, AULongLong v :: args => Some (v, args)
  | LLong, AULong v :: args => Some (v, args)
  | LSize, ASize v :: args => Some (v, args)
  | (LNone | LChar | LShort), AUnsigned v :: args => Some (v, args)
  | _, _ => None
  end.

(** [(char)] of an [int]. *)
Definition char_of_int (v : Z) : Z := u8 v.

(** The conversion character: the arguments left. *)
Definition convert (conv : Z) (length : Length) (width pad : Z) (args : list Arg) : M Console (list Arg) :=
  if (conv =? 100) || (conv =? 105) then
    '(value, args) ← defined (signed_arg length args);
    if value <? 0 then
      _ ← putchar 45;
      if value =? -9223372036854775808 then stuck
      else _ ← print_number (- value) 10 width pad; mret args
    else _ ← print_number value 10 width pad; mret args
  else if (conv =? 117) || (conv =? 120) then
    '(value, args) ← defined (unsigned_arg length args);
    _ ← print_number value (if conv =? 120 then 16 else 10) width pad; mret args
  else if conv =? 112 then
    match args with
    | APointer v :: args => _ ← write (string_bytes "0x"); _ ← print_number v 16 16 48; mret args
    | _ => stuck
    end
  else if conv =? 115 then
    match args with AString s :: args => _ ← puts s; mret args | _ => stuck end
  else if conv =? 99 then
    match args with AInt v :: args => _ ← putchar (char_of_int v); mret args | _ => stuck end
  else if conv =? 37 then _ ← putchar 37; mret args
  else mret args.

(** The loop of [vprintf]; [chunk] is the text not written yet. *)
Fixpoint vprintf_loop (fuel : nat) (chunk fmt : list Z) (args : list Arg) : M Console () :=
  match fuel with
  | O => stuck
  | S fuel =>
      match fmt with
      | [] => if (length chunk =? 0)%nat then mret () else write chunk
      | c :: fmt =>
          if negb (c =? 37) then vprintf_loop fuel (chunk ++ [c]) fmt args
          else
            _ ← (if (length chunk =? 0)%nat then mret () else write chunk);
            match fmt with
            | [] => mret ()
            | _ =>
                let '(pad, fmt) := parse_pad fmt in
                '(width, fmt) ← defined (parse_width fmt 0);
                let '(length, fmt) := parse_length fmt in
                match fmt with
                | [] => stuck
                | conv :: fmt =>
                    args ← convert conv length width pad args;
                    vprintf_loop fuel [] fmt args
                end
            end
      end
  end.
Definition vprintf (fmt : list Z) (args : list Arg) : M Console () := vprintf_loop (S (length fmt)) [] fmt args.

(** ** Numbers *)

(** The value of a digit, and of a number written in a base. *)
Definition digit_value (c : Z) : Z := if c <=? 57 then c - 48 else c - 87.
Definition number_value (base : Z) (l : list Z) : Z := foldl (λ acc c, acc * base + digit_value c) 0 l.

Lemma digits_spec d : 0 <= d < 16 → ∃ c, digits !! Z.to_nat d = Some c ∧ digit_value c = d ∧ (d ≠ 0 → c ≠ 48).
Proof.
  intros Hd. assert (Forall (λ p, ∃ c, digits !! Z.to_nat p = Some c ∧ digit_value c = p ∧ (p ≠ 0 → c ≠ 48))
    [0; 1; 2; 3; 4; 5; 6; 7; 8; 9; 10; 11; 12; 13; 14; 15]) as H.
  { repeat (apply Forall_cons; split; [eexists; split; [reflexivity|]; by vm_compute|]). by apply Forall_nil. }
  rewrite Forall_forall in H. apply H. rewrite !elem_of_cons. lia.
Qed.

Lemma number_value_snoc base l c : number_value base (l ++ [c]) = number_value base l * base + digit_value c.
Proof. unfold number_value. by rewrite foldl_app. Qed.

(** [reversed] is the beginning of the number, last digit first: what is left of
    the value is in front of it. *)
Lemma digit_loop_spec fuel value base reversed :
  2 <= base <= 16 → 0 <= value < 2 ^ (64 - Z.of_nat (length reversed)) → (length reversed <= 64)%nat →
  (64 - length reversed < fuel)%nat →
  ∃ ds, digit_loop fuel value base reversed = Some (reversed ++ ds) ∧ number_value base (rev ds) = value ∧
    (length reversed + length ds <= 64)%nat ∧ (value ≠ 0 → last ds ≠ Some 48 ∧ ds ≠ []).
Proof.
  intros Hb. revert value reversed. induction fuel as [|fuel IH]; intros value reversed Hv Hl Hf; [lia|].
  cbn [digit_loop]. destruct (value =? 0) eqn:E0; cbn [negb andb].
  { exists []. rewrite app_nil_r. split; [done|]. split; [cbn; lia|]. split; [cbn; lia|lia]. }
  assert (length reversed < 64)%nat as Hlt.
  { destruct (decide (length reversed = 64%nat)) as [E|]; [|lia]. rewrite E in Hv. cbn in Hv. lia. }
  rewrite (proj2 (Nat.ltb_lt _ _) Hlt).
  assert (0 <= value `mod` base < 16) as Hd by (pose proof (Z.mod_pos_bound value base); lia).
  destruct (digits_spec _ Hd) as (c & Hc & Hcv & Hc0).
  rewrite Hc. cbn [mbind option_bind].
  assert (0 <= value / base < 2 ^ (64 - Z.of_nat (length (reversed ++ [c])))) as Hv'.
  { rewrite length_app. cbn [length]. split; [apply Z.div_pos; lia|].
    replace (64 - Z.of_nat (length reversed)) with (Z.succ (64 - Z.of_nat (length reversed + 1))) in Hv by lia.
    rewrite Z.pow_succ_r in Hv by lia. apply Z.div_lt_upper_bound; [lia|]. nia. }
  destruct (IH (value / base) (reversed ++ [c])) as (ds & H1 & H2 & H3 & H4); [done|rewrite length_app; cbn; lia..|].
  exists (c :: ds). rewrite <- app_assoc in H1. split; [done|]. split.
  - cbn [rev]. rewrite number_value_snoc, H2, Hcv. pose proof (Z.div_mod value base). lia.
  - rewrite length_app in H3. cbn [length] in *. split; [lia|]. intros _. split; [|done].
    destruct (decide (value / base = 0)) as [Hz|Hnz].
    + rewrite Hz in H1. destruct fuel as [|fuel]; [lia|]. cbn in H1. injection H1 as H1.
      assert (ds = []) as ->.
      { change (reversed ++ c :: ds) with (reversed ++ [c] ++ ds) in H1. rewrite app_assoc in H1.
        rewrite <- (app_nil_r (reversed ++ [c])) in H1 at 1. by apply app_inv_head in H1. }
      cbn. intros [= ->]. apply Hc0; [|done]. pose proof (Z.div_mod value base). lia.
    + destruct (H4 Hnz) as [Hlast Hne]. destruct ds as [|d ds]; [done|]. exact Hlast.
Qed.

Lemma pad_loop_spec fuel width pad reversed :
  (length reversed <= 64)%nat → (64 - length reversed < fuel)%nat →
  pad_loop fuel width pad reversed =
    Some (reversed ++ replicate (Z.to_nat (Z.min width 64) - length reversed) pad).
Proof.
  revert reversed. induction fuel as [|fuel IH]; intros reversed Hl Hf; [lia|]. cbn [pad_loop].
  destruct (_ && _) eqn:E.
  - apply andb_true_iff in E as [E1 E2]. apply Nat.ltb_lt in E2. rewrite IH by (rewrite length_app; cbn; lia).
    rewrite <- app_assoc, length_app. cbn [length app].
    replace (Z.to_nat (Z.min width 64) - length reversed)%nat with (S (Z.to_nat (Z.min width 64) - (length reversed + 1)))%nat by lia.
    done.
  - replace (Z.to_nat (Z.min width 64) - length reversed)%nat with 0%nat; [cbn; by rewrite app_nil_r|].
    apply andb_false_iff in E as [E|E]; [lia|]. apply Nat.ltb_ge in E. lia.
Qed.

(** [print_number] writes the value in base 10 or 16 (any base from 2 to 16): digits
    whose positional value is the number, with no leading zero, behind as many
    padding characters as bring the width to the one asked for, 64 at most. The
    buffer of 64 bytes is never exceeded and never too small. *)
Theorem print_number_correct value base width pad output :
  0 <= value < 18446744073709551616 → 2 <= base <= 16 →
  wp (print_number value base width pad) (LogConsole output) (λ _ c, ∃ ds,
    c = LogConsole (output ++ replicate (Z.to_nat (Z.min width 64) - length ds) pad ++ ds) ∧
    number_value base ds = value ∧ (0 < length ds <= 64)%nat ∧ (value ≠ 0 → head ds ≠ Some 48)).
Proof.
  intros Hv Hb. unfold print_number.
  assert (∃ ds, (0 < length ds <= 64)%nat ∧ number_value base (rev ds) = value ∧ (value ≠ 0 → last ds ≠ Some 48) ∧
    (if value =? 0 then mret [48] else defined (digit_loop 65 value base [])) (LogConsole output) = Some (ds, LogConsole output))
    as (ds & Hl & Hval & Hlast & Hrun).
  { destruct (value =? 0) eqn:E0.
    - exists [48]. split; [cbn; lia|]. split; [cbn; lia|]. split; [lia|done].
    - destruct (digit_loop_spec 65 value base []) as (ds & H1 & H2 & H3 & H4); [done| |cbn; lia|cbn; lia|].
      { change (2 ^ _) with 18446744073709551616. lia. }
      destruct H4 as [H4 H5]; [lia|]. exists ds. cbn [length app] in *. split; [destruct ds; [done|]; cbn in *; lia|].
      split; [done|]. split; [done|]. by rewrite H1. }
  wp_step. eapply wp_intro; [exact Hrun|]. wp_step. eapply wp_defined; [apply pad_loop_spec; lia|].
  unfold write. wp_step. exists (rev ds). cbn [console_write]. rewrite rev_app_distr, !length_rev.
  split; [|split; [done|split; [done|]]].
  - do 2 f_equal. f_equal. rewrite rev_alt. apply reverse_replicate.
  - intros Hne. specialize (Hlast Hne). destruct ds as [|d ds _] using rev_ind; [done|].
    rewrite rev_app_distr. cbn. by rewrite last_snoc in Hlast.
Qed.

Lemma print_number_correct_witness :
  wp (print_number 4096 16 8 48) (LogConsole []) (λ _ c, ∃ ds,
    c = LogConsole (replicate (8 - length ds) 48 ++ ds) ∧ number_value 16 ds = 4096).
Proof.
  eapply wp_mono; [apply (print_number_correct 4096 16 8 48 []); lia|].
  intros [] c (ds & -> & Hv & _). exists ds. split; [reflexivity|exact Hv].
Defined.

(** A format that ends inside a conversion makes [vprintf] step over its
    terminator. *)
Theorem vprintf_overruns args out :
  vprintf (string_bytes "%08") args out = None ∧ vprintf (string_bytes "%l") args out = None ∧
  vprintf (string_bytes "100%") args (LogConsole []) = Some ((), LogConsole (string_bytes "100")).
Proof. done. Qed.
