(* ===== verification/Heap.v ===== *)
(** * The kernel heap (include/heap.hpp, include/heap.cpp)

    A list of blocks in address order that tiles the memory from the start of the
    heap to the break, with first fit, splitting and merging. A [Block *] is the
    address of a header, 0 being the null pointer; [headers] is the memory at
    these addresses. Physical pages and their mapping are reached through
    [PageServices]. *)
From stdpp Require Import gmap.
From S2P Require Import Prelude.

Definition PAGE_SIZE : Z := 4096.
Definition ALIGN : Z := 8.
Definition MIN_SPLIT_SIZE : Z := 32.

Definition KERNEL_HEAP_BASE : Z := 18446744071830503424. (* 0xFFFFFFFF90000000 *)
Definition KERNEL_HEAP_SIZE : Z := 16 * 1024 * 1024.
Definition KERNEL_HEAP_END : Z := KERNEL_HEAP_BASE + KERNEL_HEAP_SIZE.

Record Block := mkBlock { size : Z; free : bool; next : Z; prev : Z }.
(** [sizeof(Block)]: eight bytes for each member. *)
Definition sizeof_Block : Z := 32.

Definition set_size v b := mkBlock v (free b) (next b) (prev b).
Definition set_free v b := mkBlock (size b) v (next b) (prev b).
Definition set_next v b := mkBlock (size b) (free b) v (prev b).
Definition set_prev v b := mkBlock (size b) (free b) (next b) v.

(** [pmm_ptr_->allocate()] and [vmm_ptr_->map_page(va, pa, Present | Writable)]. *)
Class PageServices (E : Type) := {
  page_allocate : M E (option Z);
  page_map : Z → Z → M E bool;
}.

(** The variables of heap.cpp, the memory of the headers, the rest of the kernel. *)
Record Heap (E : Type) := mkHeap {
  virt_start_ : Z;
  virt_end_ : Z;
  brk_ : Z;
  head_ : Z;
  headers : gmap Z Block;
  env : E;
}.
Arguments mkHeap {E}. Arguments virt_start_ {E}. Arguments virt_end_ {E}. Arguments brk_ {E}.
Arguments head_ {E}. Arguments headers {E}. Arguments env {E}.

Definition payload_of (block : Z) : Z := u64 (block + sizeof_Block).
Definition header_of (payload : Z) : Z := u64 (payload - sizeof_Block).

(** Conversion to the signed [intptr_t]. *)
Definition intptr (x : Z) : Z := let y := u64 x in if y <? 9223372036854775808 then y else y - 18446744073709551616.
(** [(x + PAGE_SIZE - 1) & ~(PAGE_SIZE - 1)] and the same for [ALIGN]. *)
Definition page_up (x : Z) : Z := Z.land (u64 (x + PAGE_SIZE - 1)) (u64 (Z.lnot (PAGE_SIZE - 1))).
Definition align_up (x : Z) : Z := Z.land (u64 (x + ALIGN - 1)) (u64 (Z.lnot (ALIGN - 1))).

Section Heap.
Context {E : Type} `{PageServices E}.

Definition set_brk v (s : Heap E) := mkHeap (virt_start_ s) (virt_end_ s) v (head_ s) (headers s) (env s).
Definition set_head v (s : Heap E) := mkHeap (virt_start_ s) (virt_end_ s) (brk_ s) v (headers s) (env s).
Definition set_headers v (s : Heap E) := mkHeap (virt_start_ s) (virt_end_ s) (brk_ s) (head_ s) v (env s).
Definition set_env (v : E) (s : Heap E) := mkHeap (virt_start_ s) (virt_end_ s) (brk_ s) (head_ s) (headers s) v.

Definition service {A} (m : M E A) : M (Heap E) A := zoom env set_env m.

(** [*block], stuck where there is no header, and the assignment of a member. *)
Definition deref (block : Z) : M (Heap E) Block := s ← get; defined (headers s !! block).
Definition assign (block : Z) (f : Block → Block) : M (Heap E) () :=
  b ← deref block; modify (λ s, set_headers (<[block := f b]> (headers s)) s).
(** Storing a whole header at an address where there may be none yet. *)
Definition place (block : Z) (b : Block) : M (Heap E) () :=
  if block =? 0 then stuck else modify (λ s, set_headers (<[block := b]> (headers s)) s).

(** The loop of [sbrk] from the address [va] on: whether all pages are there. *)
Fixpoint map_loop (fuel : nat) (va new_brk : Z) : M (Heap E) bool :=
  match fuel with
  | O => stuck
  | S fuel =>
      if va <? new_brk then
        pa ← service page_allocate;
        match pa with
        | None => mret false
        | Some pa =>
            ok ← service (page_map va pa);
            if negb ok then mret false else map_loop fuel (u64 (va + PAGE_SIZE)) new_brk
        end
      else mret true
  end.

(** [None] is [(void * )-1]. *)
Definition sbrk (increment : Z) : M (Heap E) (option Z) :=
  s ← get;
  if increment <? 0 then mret None
  else if increment =? 0 then mret (Some (brk_ s))
  else
    let new_brk := u64 (brk_ s + increment) in
    if new_brk >? virt_end_ s then mret None
    else
      ok ← map_loop (Z.to_nat (increment / PAGE_SIZE) + 2) (page_up (brk_ s)) new_brk;
      if negb ok then mret None
      else
        s ← get;
        let old_brk := brk_ s in
        _ ← put (set_brk new_brk s);
        mret (Some old_brk).

(** [None] is the null pointer. *)
Definition morecore (pages : Z) : M (Heap E) (option Z) :=
  if pages =? 0 then mret None else sbrk (intptr (pages * PAGE_SIZE)).

(** The constructor, on whatever the variables held before. *)
Definition construct (virt_start virt_end : Z) : M (Heap E) () :=
  _ ← modify (λ s, mkHeap virt_start virt_end virt_start (head_ s) (headers s) (env s));
  p ← morecore 1;
  match p with
  | None => modify (set_head 0)
  | Some p =>
      _ ← modify (set_head p);
      place p (mkBlock (PAGE_SIZE - sizeof_Block) true 0 0)
  end.

(** The search of [allocate] from [block] on; the block it takes is split when
    what is left is large enough. *)
Definition split (block total_size : Z) : M (Heap E) () :=
  b ← deref block;
  let new_block := u64 (payload_of block + total_size) in
  _ ← place new_block (mkBlock (u64 (size b - total_size - sizeof_Block)) true (next b) block);
  b ← deref block;
  _ ← (if negb (next b =? 0) then assign (next b) (set_prev new_block) else mret ());
  _ ← assign block (set_next new_block);
  assign block (set_size total_size).

Fixpoint find_fit (fuel : nat) (block total_size : Z) : M (Heap E) (option Z) :=
  match fuel with
  | O => stuck
  | S fuel =>
      if block =? 0 then mret None
      else
        b ← deref block;
        if free b && (size b >=? total_size) then
          _ ← (if size b >=? u64 (total_size + sizeof_Block + MIN_SPLIT_SIZE) then split block total_size else mret ());
          _ ← assign block (set_free false);
          mret (Some (payload_of block))
        else find_fit fuel (next b) total_size
  end.

(** The last block of the list. *)
Fixpoint find_last (fuel : nat) (block : Z) : M (Heap E) Z :=
  match fuel with
  | O => stuck
  | S fuel =>
      b ← deref block;
      if next b =? 0 then mret block else find_last fuel (next b)
  end.

(** Enough steps for a walk: one more than there are headers. *)
Definition list_fuel (s : Heap E) : nat := S (base.size (headers s)).

(** [allocate] and its recursive call: more than once it is not made, see
    [wp_heap_allocate] in HeapOps.v. *)
Fixpoint allocate_rec (fuel : nat) (n : Z) : M (Heap E) (option Z) :=
  match fuel with
  | O => stuck
  | S fuel =>
      s ← get;
      if (n =? 0) || (head_ s =? 0) then mret None
      else
        let total_size := align_up n in
        found ← find_fit (list_fuel s) (head_ s) total_size;
        match found with
        | Some p => mret (Some p)
        | None =>
            let pages_needed := u64 (total_size + sizeof_Block + PAGE_SIZE - 1) / PAGE_SIZE in
            new_mem ← morecore pages_needed;
            match new_mem with
            | None => mret None
            | Some new_mem =>
                last_block ← find_last (list_fuel s) (head_ s);
                b ← deref last_block;
                _ ← (if free b then assign last_block (set_size (u64 (size b + pages_needed * PAGE_SIZE)))
                     else
                       _ ← place new_mem (mkBlock (u64 (pages_needed * PAGE_SIZE - sizeof_Block)) true 0 last_block);
                       assign last_block (set_next new_mem));
                allocate_rec fuel n
            end
        end
  end.
Definition allocate (n : Z) : M (Heap E) (option Z) := allocate_rec 2 n.

Definition heap_free (ptr : Z) : M (Heap E) () :=
  if ptr =? 0 then mret ()
  else
    let block := header_of ptr in
    _ ← assign block (set_free true);
    b ← deref block;
    _ ← (if next b =? 0 then mret ()
         else
           n ← deref (next b);
           if negb (free n) then mret ()
           else
             _ ← assign block (set_size (u64 (size b + sizeof_Block + size n)));
             _ ← assign block (set_next (next n));
             b ← deref block;
             if negb (next b =? 0) then assign (next b) (set_prev block) else mret ());
    b ← deref block;
    if prev b =? 0 then mret ()
    else
      p ← deref (prev b);
      if negb (free p) then mret ()
      else
        _ ← assign (prev b) (set_size (u64 (size p + sizeof_Block + size b)));
        _ ← assign (prev b) (set_next (next b));
        if negb (next b =? 0) then assign (next b) (set_prev (prev b)) else mret ().
End Heap.
