(* ===== verification/HeapSpec.v ===== *)
(** * What the heap keeps

    The list of headers as a list of tiles: where each block lies, how large it is
    and whether it is free. The tiles fill the heap from its start to the break,
    and no two neighbours are free. *)
From stdpp Require Import gmap.
From S2P Require Import Prelude Heap.

Record Tile := mkTile { t_addr : Z; t_size : Z; t_free : bool }.
#[export] Instance Tile_eq_dec : EqDecision Tile.
Proof. solve_decision. Defined.

(** The nodes for [l] in the memory [h], from the pointer [p] with predecessor
    [pv] on; the list goes on with the pointer [q], whose predecessor is [qv]. *)
Fixpoint seg (h : gmap Z Block) (p pv : Z) (l : list Tile) (q qv : Z) : Prop :=
  match l with
  | [] => p = q ∧ pv = qv
  | t :: l => p = t_addr t ∧ t_addr t ≠ 0 ∧ ∃ nx, h !! t_addr t = Some (mkBlock (t_size t) (t_free t) nx pv) ∧ seg h nx (t_addr t) l q qv
  end.

Lemma blocks_app h p pv l1 l2 q qv :
  seg h p pv (l1 ++ l2) q qv ↔ ∃ m mv, seg h p pv l1 m mv ∧ seg h m mv l2 q qv.
Proof.
  revert p pv. induction l1 as [|t l1 IH]; intros p pv; cbn.
  - split; [intros H; by exists p, pv|]. by intros (m & mv & [-> ->] & H).
  - split.
    + intros (Hp & H0 & nx & Hh & (m & mv & H1 & H2)%IH). exists m, mv. split; [|done]. split; [done|]. split; [done|]. by exists nx.
    + intros (m & mv & (Hp & H0 & nx & Hh & H1) & H2). split; [done|]. split; [done|]. exists nx. split; [done|]. apply IH. eauto.
Qed.

Lemma blocks_frame h h' p pv l q qv : (∀ t, t ∈ l → h' !! t_addr t = h !! t_addr t) → seg h p pv l q qv → seg h' p pv l q qv.
Proof.
  revert p pv. induction l as [|t l IH]; intros p pv Hf; cbn; [done|]. intros (Hp & H0 & nx & Hh & Hs).
  split; [done|]. split; [done|]. exists nx. split; [rewrite Hf; [done|set_solver]|]. apply IH; [|done]. set_solver.
Qed.

Lemma seg_insert h a b p pv l q qv : (∀ t, t ∈ l → t_addr t ≠ a) → seg h p pv l q qv → seg (<[a := b]> h) p pv l q qv.
Proof. intros Hne. apply blocks_frame. intros t Ht. apply lookup_insert_ne. intros E. by apply (Hne t Ht). Qed.

(** The tiles lie next to each other from [a] to [z]. *)
Fixpoint tiled (a : Z) (l : list Tile) (z : Z) : Prop :=
  match l with
  | [] => a = z
  | t :: l => t_addr t = a ∧ 8 <= t_size t ∧ t_size t `mod` 8 = 0 ∧ tiled (a + sizeof_Block + t_size t) l z
  end.

Lemma tiled_app a l1 l2 z : tiled a (l1 ++ l2) z ↔ ∃ m, tiled a l1 m ∧ tiled m l2 z.
Proof.
  revert a. induction l1 as [|t l1 IH]; intros a; cbn.
  - split; [intros H; by exists a|]. by intros (m & -> & H).
  - rewrite IH. naive_solver.
Qed.

Lemma tiled_le a l z : tiled a l z → a <= z ∧ (l ≠ [] → a + 40 <= z).
Proof.
  revert a. induction l as [|t l IH]; intros a; cbn; [intros ->; done|]. unfold sizeof_Block.
  intros (Ha & Hs & _ & H%IH). destruct H as [H _]. split; [|intros _]; lia.
Qed.

Lemma tiled_bounds a l z t : tiled a l z → t ∈ l → a <= t_addr t ∧ t_addr t + sizeof_Block + t_size t <= z.
Proof.
  revert a. induction l as [|x l IH]; intros a; cbn; [set_solver|]. intros (Ha & Hs & _ & H) [->|Hin]%elem_of_cons.
  - apply tiled_le in H as [H _]. lia.
  - destruct (IH _ H Hin). unfold sizeof_Block in *. lia.
Qed.

Lemma tiled_size_mod a l z t : tiled a l z → t ∈ l → t_size t `mod` 8 = 0 ∧ 8 <= t_size t.
Proof.
  revert a. induction l as [|x l IH]; intros a; cbn; [set_solver|]. intros (Ha & Hs & Hm & H) [->|Hin]%elem_of_cons; [done|by eapply IH].
Qed.

(** Blocks do not overlap. *)
Lemma tiled_disjoint a l1 t l2 z x :
  tiled a (l1 ++ t :: l2) z → x ∈ l1 ++ l2 →
  t_addr x + sizeof_Block + t_size x <= t_addr t ∨ t_addr t + sizeof_Block + t_size t <= t_addr x.
Proof.
  intros (m & H1 & Ht & _ & _ & H2)%tiled_app [Hx|Hx]%elem_of_app.
  - left. destruct (tiled_bounds _ _ _ _ H1 Hx). lia.
  - right. destruct (tiled_bounds _ _ _ _ H2 Hx). lia.
Qed.

(** No two free neighbours. *)
Fixpoint coalesced (l : list Tile) : Prop :=
  match l with
  | [] => True
  | t :: l => (match l with u :: _ => ¬ (t_free t = true ∧ t_free u = true) | [] => True end) ∧ coalesced l
  end.

(** Whether a list may follow, or precede, a free block. *)
Definition head_used (l : list Tile) : Prop := match l with t :: _ => t_free t = false | [] => True end.
Definition last_used (l : list Tile) : Prop := match last l with Some t => t_free t = false | None => True end.

Lemma coalesced_app l1 l2 :
  coalesced (l1 ++ l2) ↔ coalesced l1 ∧ coalesced l2 ∧ (last_used l1 ∨ head_used l2).
Proof.
  induction l1 as [|t l1 IH]; cbn [app coalesced].
  - split; [intros H; split; [done|]; split; [done|by left]|by intros (_ & H & _)].
  - rewrite IH. destruct l1 as [|u l1].
    + cbn [app coalesced]. unfold last_used, head_used. cbn. destruct l2 as [|v l2]; [tauto|].
      destruct (t_free t), (t_free v); naive_solver.
    + cbn [app]. unfold last_used. cbn [last]. naive_solver.
Qed.

(** What callers of [allocate] hold: a payload and its size. *)
Definition in_use (l : list Tile) (p n : Z) : Prop :=
  ∃ t, t ∈ l ∧ t_free t = false ∧ p = t_addr t + sizeof_Block ∧ n = t_size t.

Lemma in_use_app l1 l2 p n : in_use (l1 ++ l2) p n ↔ in_use l1 p n ∨ in_use l2 p n.
Proof. unfold in_use. setoid_rewrite elem_of_app. naive_solver. Qed.
Lemma in_use_cons t l p n :
  in_use (t :: l) p n ↔ (t_free t = false ∧ p = t_addr t + sizeof_Block ∧ n = t_size t) ∨ in_use l p n.
Proof.
  unfold in_use. split.
  - intros (x & [->|Hx]%elem_of_cons & H); [by left|right; by exists x].
  - intros [H|(x & Hx & H)]; [exists t; split; [apply elem_of_cons; by left|done]|exists x; split; [apply elem_of_cons; by right|done]].
Qed.
Lemma in_use_nil p n : in_use [] p n ↔ False.
Proof. unfold in_use. set_solver. Qed.

Lemma seg_node h p pv l1 t l2 q qv :
  seg h p pv (l1 ++ t :: l2) q qv ↔ ∃ mv nx, seg h p pv l1 (t_addr t) mv ∧ t_addr t ≠ 0 ∧
    h !! t_addr t = Some (mkBlock (t_size t) (t_free t) nx mv) ∧ seg h nx (t_addr t) l2 q qv.
Proof.
  rewrite blocks_app. cbn [seg]. split.
  - intros (m & mv & H1 & -> & H0 & nx & Hh & H2). by exists mv, nx.
  - intros (mv & nx & H1 & H0 & Hh & H2). exists (t_addr t), mv. split; [done|]. split; [done|]. split; [done|]. by exists nx.
Qed.

Lemma seg_first h p pv l t q qv : seg h p pv (l ++ [t]) q qv → p ≠ 0.
Proof. destruct l as [|x l]; cbn; by intros (-> & H & _). Qed.

Lemma seg_end h p pv l q qv : seg h p pv l q qv → qv = match last l with Some t => t_addr t | None => pv end.
Proof.
  revert p pv. induction l as [|t l IH]; intros p pv; cbn [seg]; [by intros [_ ->]|].
  intros (_ & _ & nx & _ & H%IH). rewrite H, last_cons. by destruct (last l).
Qed.

(** The contract of the page services: they return, mapped pages stay mapped, a
    page can be mapped at the places meant for it, and what refuses a page or a
    mapping shows that there was no memory for it. *)
Class PageServicesSpec (E : Type) `{PageServices E} := {
  page_ok : E → Prop;
  page_mapped : E → Z → Prop;
  page_held : E → Z → Prop;
  page_place : Z → Prop;
  page_short : E → Prop;
  page_allocate_spec e : page_ok e → wp page_allocate e (λ r e', page_ok e' ∧ (∀ v, page_mapped e v → page_mapped e' v) ∧
    match r with Some pa => page_held e' pa | None => page_short e' end);
  page_map_spec e va pa : page_ok e → page_held e pa → page_place va → va `mod` PAGE_SIZE = 0 →
    wp (page_map va pa) e (λ ok e', page_ok e' ∧ (∀ v, page_mapped e v → page_mapped e' v) ∧ if ok then page_mapped e' va else page_short e');
}.

(** The page services have worked, for this heap or for others. *)
Definition page_step {E} `{PageServicesSpec E} (e e' : E) : Prop := page_ok e' ∧ ∀ v, page_mapped e v → page_mapped e' v.
Lemma page_step_refl {E} `{PageServicesSpec E} (e : E) : page_ok e → page_step e e.
Proof. by split. Qed.
Lemma page_step_trans {E} `{PageServicesSpec E} (e1 e2 e3 : E) : page_step e1 e2 → page_step e2 e3 → page_step e1 e3.
Proof. intros [_ H12] [H3 H23]. split; [done|]. auto. Qed.

Section heap.
Context {E : Type} `{HE : PageServices E} `{HS : !PageServicesSpec E}.
Implicit Types (s : Heap E) (l : list Tile) (t : Tile) (h : gmap Z Block).

(** The state of a heap with the blocks [l]. *)
Record heap_ok s l : Prop := {
  ho_seg : ∃ qv, seg (headers s) (head_ s) 0 l 0 qv;
  ho_tiled : tiled (virt_start_ s) l (brk_ s);
  ho_coalesced : coalesced l;
  ho_nonempty : l ≠ [];
  ho_aligned : virt_start_ s `mod` PAGE_SIZE = 0 ∧ brk_ s `mod` PAGE_SIZE = 0;
  ho_range : 0 < virt_start_ s ∧ brk_ s <= virt_end_ s < 2 ^ 64 - 2 * PAGE_SIZE;
  ho_mapped va : virt_start_ s <= va < brk_ s → va `mod` PAGE_SIZE = 0 → page_mapped (env s) va;
  ho_services : page_ok (env s);
  ho_place va : virt_start_ s <= va < virt_end_ s → page_place va;
}.

(** ** Steps *)
Lemma wp_heap_service {A} (m : M E A) s (Q : A → Heap E → Prop) :
  wp m (env s) (λ a e, Q a (set_env e s)) → wp (service m) s Q.
Proof. intros H. by apply wp_zoom. Qed.

Lemma wp_heap_deref a b s (Q : Block → Heap E → Prop) : headers s !! a = Some b → Q b s → wp (deref a) s Q.
Proof. intros Ha HQ. unfold deref. do 2 wp_step. by eapply wp_defined. Qed.

Lemma wp_heap_assign a b f s (Q : () → Heap E → Prop) :
  headers s !! a = Some b → Q () (set_headers (<[a := f b]> (headers s)) s) → wp (assign a f) s Q.
Proof. intros Ha HQ. unfold assign. wp_step. eapply wp_heap_deref; [exact Ha|]. by wp_step. Qed.

Lemma wp_place a b s (Q : () → Heap E → Prop) :
  a ≠ 0 → Q () (set_headers (<[a := b]> (headers s)) s) → wp (place a b) s Q.
Proof. intros Ha HQ. unfold place. replace (a =? 0) with false by lia. by wp_step. Qed.

(** [if (nx) nx->prev = a';] where the rest of the list starts at [nx]. *)
Lemma wp_relink nx a a' l2 z m qv s (Q : () → Heap E → Prop) :
  seg (headers s) nx a l2 0 qv → tiled m l2 z → 0 < m →
  (∀ h qv', seg h nx a' l2 0 qv' → (∀ x, (∀ t, t ∈ l2 → t_addr t ≠ x) → h !! x = headers s !! x) → Q () (set_headers h s)) →
  wp (if negb (nx =? 0) then assign nx (set_prev a') else mret ()) s Q.
Proof.
  intros Hs Ht Hm HQ. destruct l2 as [|t l2]; cbn [seg tiled] in *.
  - destruct Hs as [-> ->]. cbn. wp_step. replace s with (set_headers (headers s) s) by by destruct s. by apply (HQ _ a').
  - destruct Hs as (-> & H0 & nx' & Hh & Hs). destruct Ht as (Ha & Hsz & _ & Ht).
    replace (t_addr t =? 0) with false by lia. cbn [negb]. eapply wp_heap_assign; [exact Hh|]. cbn [set_prev].
    apply (HQ _ qv).
    + split; [done|]. split; [done|]. exists nx'. split; [apply lookup_insert_eq|]. apply seg_insert; [|done].
      intros x Hx. destruct (tiled_bounds _ _ _ _ Ht Hx). unfold sizeof_Block in *. lia.
    + intros x Hx. apply lookup_insert_ne. apply Hx. set_solver.
Qed.

Lemma seg_length h p pv l q qv a z : seg h p pv l q qv → tiled a l z → (length l <= base.size h)%nat.
Proof.
  intros Hs Ht. assert (list_to_set (t_addr <$> l) ⊆@{gset Z} dom h) as Hsub.
  { intros x. rewrite elem_of_list_to_set, list_elem_of_fmap. intros (t & -> & Hin).
    apply list_elem_of_split in Hin as (l1 & l2 & ->). apply seg_node in Hs as (mv & nx & _ & _ & Hh & _).
    apply elem_of_dom. by eexists. }
  apply subseteq_size in Hsub. rewrite size_dom in Hsub. rewrite size_list_to_set, length_fmap in Hsub; [done|].
  clear Hsub Hs. revert a Ht. induction l as [|t l IH]; intros a; cbn; [constructor|].
  intros (Ha & Hsz & _ & Ht). constructor; [|by eapply IH]. rewrite list_elem_of_fmap. intros (x & Hx & Hin).
  destruct (tiled_bounds _ _ _ _ Ht Hin). unfold sizeof_Block in *. lia.
Qed.

(** ** Taking a block *)

(** The heap with other headers and blocks that fill the same memory. *)
Lemma heap_ok_headers s l h l' :
  heap_ok s l → (∃ qv, seg h (head_ s) 0 l' 0 qv) → tiled (virt_start_ s) l' (brk_ s) → coalesced l' → l' ≠ [] →
  heap_ok (set_headers h s) l'.
Proof. intros [H1 H2 H3 H4 H5 H6 H7 H8 H9] Hs Ht Hc Hn. by split. Qed.

Lemma coalesced_node l1 t l2 :
  coalesced (l1 ++ t :: l2) ↔ coalesced l1 ∧ coalesced l2 ∧ (t_free t = true → last_used l1 ∧ head_used l2).
Proof.
  rewrite coalesced_app. cbn [coalesced]. unfold head_used at 1. unfold head_used.
  destruct l2 as [|u l2]; destruct (t_free t); [naive_solver..| |]; destruct (t_free u); naive_solver.
Qed.

Lemma tiled_node a l1 t l2 z :
  tiled a (l1 ++ t :: l2) z ↔ tiled a l1 (t_addr t) ∧ 8 <= t_size t ∧ t_size t `mod` 8 = 0 ∧
    tiled (t_addr t + sizeof_Block + t_size t) l2 z.
Proof.
  rewrite tiled_app. cbn [tiled]. split.
  - intros (m & H1 & -> & H2). done.
  - intros (H1 & H2). by exists (t_addr t).
Qed.

(** What lies before a block ends before it. *)
Lemma tiled_below a l1 t x : tiled a l1 (t_addr t) → x ∈ l1 → t_addr x + 40 <= t_addr t.
Proof.
  intros Ht (k1 & k2 & ->)%list_elem_of_split. apply tiled_node in Ht as (_ & Hx8 & _ & Hx2).
  apply tiled_le in Hx2 as [Hx2 _]. unfold sizeof_Block in *. lia.
Qed.

(** A node is changed, the nodes before it stay. *)
Lemma seg_change h h' p pv l1 t t' l2 q qv mv nx' :
  seg h p pv l1 (t_addr t) mv → t_addr t' = t_addr t → t_addr t ≠ 0 →
  (∀ x, x ∈ l1 → h' !! t_addr x = h !! t_addr x) →
  h' !! t_addr t = Some (mkBlock (t_size t') (t_free t') nx' mv) → seg h' nx' (t_addr t) l2 q qv →
  seg h' p pv (l1 ++ t' :: l2) q qv.
Proof.
  intros Hs Ea H0 Hf Hh Hs2. apply seg_node. exists mv, nx'. rewrite Ea. split; [|done]. by apply (blocks_frame h).
Qed.

Lemma wp_take {A} s l1 t l2 total b (k : M (Heap E) A) (Q : A → Heap E → Prop) :
  heap_ok s (l1 ++ t :: l2) → t_free t = true → 8 <= total <= t_size t → total `mod` 8 = 0 →
  headers s !! t_addr t = Some b →
  (∀ h l' n, heap_ok (set_headers h s) l' → total <= n →
    (∀ q m, in_use l' q m ↔ in_use (l1 ++ t :: l2) q m ∨ q = t_addr t + sizeof_Block ∧ m = n) → wp k (set_headers h s) Q) →
  wp (_ ← (if size b >=? u64 (total + sizeof_Block + MIN_SPLIT_SIZE) then split (t_addr t) total else mret ());
      _ ← assign (t_addr t) (set_free false); k) s Q.
Proof.
  intros Hok Hfree Htot Hmod Hb HQ. pose proof Hok as [[qv Hseg] Htl Hco _ _ Hrange _ _ _].
  apply seg_node in Hseg as (mv & nx & Hs1 & H0 & Hh & Hs2). rewrite Hb in Hh. injection Hh as ->.
  apply tiled_node in Htl as (Ht1 & Hsz & Hszm & Ht2). apply coalesced_node in Hco as (Hc1 & Hc2 & Hcf).
  destruct (Hcf Hfree) as [Hlu Hhu]. pose proof (proj1 (tiled_le _ _ _ Ht1)) as Hle1. pose proof (proj1 (tiled_le _ _ _ Ht2)) as Hle2.
  assert (t_size t < 2 ^ 64 - 2 * PAGE_SIZE ∧ t_addr t + sizeof_Block + t_size t < 2 ^ 64 - 2 * PAGE_SIZE) as [Hsmall Hend].
  { unfold sizeof_Block in *. lia. }
  assert (∀ x, x ∈ l1 → t_addr x + 40 <= t_addr t) as Hbelow.
  { intros x Hx. by eapply tiled_below. }
  assert (∀ x, x ∈ l2 → t_addr t + sizeof_Block + t_size t <= t_addr x) as Habove.
  { intros x Hx. by destruct (tiled_bounds _ _ _ _ Ht2 Hx). }
  cbn [size]. wp_step. rewrite u64_small by (unfold sizeof_Block, MIN_SPLIT_SIZE, PAGE_SIZE in *; lia).
  destruct (t_size t >=? total + sizeof_Block + MIN_SPLIT_SIZE) eqn:Esplit.
  - unfold split, payload_of. unfold sizeof_Block, MIN_SPLIT_SIZE, PAGE_SIZE in *.
    assert (u64 (u64 (t_addr t + 32) + total) = t_addr t + 32 + total) as Enb by (rewrite !u64_small; rewrite ?u64_small; lia).
    set (nb := t_addr t + 32 + total) in *.
    wp_step. eapply wp_heap_deref; [exact Hb|]. rewrite Enb. cbn [size free next prev].
    rewrite u64_small by lia. wp_step. apply wp_place; [lia|]. match goal with |- wp _ (set_headers ?x _) _ => set (h1 := x) end.
    assert (h1 !! t_addr t = Some (mkBlock (t_size t) (t_free t) nx mv)) as Hb1 by (unfold h1; rewrite lookup_insert_ne by lia; done).
    wp_step. eapply wp_heap_deref; [exact Hb1|]. cbn [next]. wp_step.
    eapply (wp_relink nx (t_addr t) nb l2); [|exact Ht2|lia|].
    { cbn. apply seg_insert; [|exact Hs2]. intros x Hx. pose proof (Habove x Hx). lia. }
    intros h2 qv' Hs3 Hf2. cbn [headers set_headers] in Hf2. assert (h2 !! t_addr t = Some (mkBlock (t_size t) (t_free t) nx mv)) as Hb2.
    { rewrite Hf2; [exact Hb1|]. intros x Hx E'. pose proof (Habove x Hx). lia. }
    wp_step. eapply wp_heap_assign; [exact Hb2|].
    eapply wp_heap_assign; [apply lookup_insert_eq|]. wp_step. eapply wp_heap_assign; [apply lookup_insert_eq|].
    cbn [headers set_headers set_next set_size set_free free size next prev]. rewrite !insert_insert_eq.
    change (set_headers ?x (set_headers _ (set_headers _ s))) with (set_headers x s).
    set (h3 := <[t_addr t := _]> h2).
    apply (HQ h3 (l1 ++ mkTile (t_addr t) total false :: mkTile nb (t_size t - total - 32) true :: l2) total); [|done|].
    + eapply heap_ok_headers; [exact Hok| | | |by destruct l1].
      * exists qv'. eapply (seg_change (headers s) h3 _ _ l1 t (mkTile (t_addr t) total false)); [exact Hs1|done|done| | |].
        -- intros x Hx. pose proof (Hbelow x Hx). unfold h3. rewrite lookup_insert_ne by lia. rewrite Hf2.
           ++ unfold h1. rewrite lookup_insert_ne; [done|]. lia.
           ++ intros y Hy. pose proof (Habove y Hy). lia.
        -- unfold h3. by rewrite lookup_insert_eq.
        -- cbn [seg t_addr t_size t_free]. split; [done|]. split; [lia|]. exists nx. split.
           ++ unfold h3. rewrite lookup_insert_ne by lia. rewrite Hf2; [apply lookup_insert_eq|].
              intros y Hy. pose proof (Habove y Hy). lia.
           ++ unfold h3. apply seg_insert; [|exact Hs3]. intros y Hy. pose proof (Habove y Hy). lia.
      * apply tiled_node. cbn [t_addr t_size tiled]. split; [done|]. split; [lia|]. split; [done|]. unfold sizeof_Block.
        split; [done|]. split; [lia|]. split; [lia|].
        replace (t_addr t + 32 + total + 32 + (t_size t - total - 32)) with (t_addr t + 32 + t_size t) by lia. exact Ht2.
      * apply coalesced_node. cbn [t_free]. split; [done|]. split; [|done]. cbn [coalesced t_free].
        split; [|done]. destruct l2 as [|u l2]; [done|]. unfold head_used in Hhu. intros [_ Hu]. congruence.
    + intros q m. rewrite !in_use_app, !in_use_cons. cbn [t_free t_addr t_size]. rewrite Hfree. unfold sizeof_Block. naive_solver.
  - wp_step. wp_step. eapply wp_heap_assign; [exact Hb|]. cbn [set_free size next prev]. set (h1 := <[t_addr t := _]> (headers s)).
    apply (HQ h1 (l1 ++ mkTile (t_addr t) (t_size t) false :: l2) (t_size t)); [|lia|].
    + unfold sizeof_Block in *. eapply heap_ok_headers; [exact Hok| | | |by destruct l1].
      * exists qv. eapply (seg_change (headers s) h1 _ _ l1 t (mkTile (t_addr t) (t_size t) false)); [exact Hs1|done|done| | |].
        -- intros x Hx. pose proof (Hbelow x Hx). unfold h1. by rewrite lookup_insert_ne by lia.
        -- unfold h1. by rewrite lookup_insert_eq.
        -- unfold h1. apply seg_insert; [|exact Hs2]. intros y Hy. pose proof (Habove y Hy). lia.
      * by apply tiled_node.
      * apply coalesced_node. done.
    + intros q m. rewrite !in_use_app, !in_use_cons. cbn [t_free t_addr t_size]. rewrite Hfree. naive_solver.
Qed.
End heap.
