(* ===== verification/HeapOps.v ===== *)
(** * The operations of the kernel heap

    The walks over the blocks, the growth of the heap and the merging of blocks,
    as triples for a heap with given blocks ([heap_ok]). *)
From stdpp Require Import gmap.
From S2P Require Import Prelude Heap HeapSpec.

Section heap.
Context {E : Type} `{HE : PageServices E} `{HS : !PageServicesSpec E}.
Implicit Types (s : Heap E) (l : list Tile) (t : Tile) (h : gmap Z Block).

(** ** The walks *)
Definition fits (total : Z) (t : Tile) : Prop := t_free t = true ∧ total <= t_size t.

(** What taking a block of at least [total] bytes out of [l] leaves. *)
Definition taken s l total (r : option Z) (s' : Heap E) : Prop :=
  match r with
  | None => s' = s ∧ ∀ t, t ∈ l → ¬ fits total t
  | Some p => ∃ h l' n, s' = set_headers h s ∧ heap_ok s' l' ∧ total <= n ∧
      (∀ q m, in_use l' q m ↔ in_use l q m ∨ q = p ∧ m = n) ∧ ∀ m, ¬ in_use l p m
  end.

Lemma free_not_in_use a l1 t l2 z m : tiled a (l1 ++ t :: l2) z → t_free t = true → ¬ in_use (l1 ++ t :: l2) (t_addr t + sizeof_Block) m.
Proof.
  intros Htl Hfree (u & Hu & Hused & Hp & _). rewrite elem_of_app, elem_of_cons in Hu.
  destruct (decide (u = t)) as [->|Hne]; [congruence|]. assert (u ∈ l1 ++ l2) as Hu' by set_solver.
  destruct (tiled_size_mod _ _ _ u Htl ltac:(set_solver)). destruct (tiled_size_mod _ _ _ t Htl ltac:(set_solver)).
  destruct (tiled_disjoint _ _ _ _ _ u Htl Hu'); unfold sizeof_Block in *; lia.
Qed.

Lemma wp_find_fit fuel s l1 l2 total mv m qv :
  heap_ok s (l1 ++ l2) → seg (headers s) m mv l2 0 qv → (length l2 < fuel)%nat → 8 <= total → total `mod` 8 = 0 →
  (∀ t, t ∈ l1 → ¬ fits total t) →
  wp (find_fit fuel m total) s (taken s (l1 ++ l2) total).
Proof.
  revert l1 l2 mv m. induction fuel as [|fuel IH]; intros l1 l2 mv m Hok Hs Hf H8 Hmod Hno; [lia|].
  cbn [find_fit]. destruct l2 as [|t l2]; cbn [seg] in Hs.
  { destruct Hs as [-> _]. cbn. wp_step. rewrite app_nil_r. done. }
  destruct Hs as (-> & H0 & nx & Hb & Hs). replace (t_addr t =? 0) with false by lia.
  wp_step. eapply wp_heap_deref; [exact Hb|]. cbn [free size next].
  destruct (t_free t && (t_size t >=? total)) eqn:Efit.
  - apply andb_true_iff in Efit as [Hfree Hsz].
    assert (t_addr t + 32 < 2 ^ 64) as Hsmall.
    { pose proof Hok as [_ Htl _ _ _ Hr _ _ _]. apply tiled_node in Htl as (_ & Hs8 & _ & Htl). apply tiled_le in Htl as [Htl _].
      unfold sizeof_Block, PAGE_SIZE in *. lia. }
    assert (0 < t_addr t) as Hpos.
    { pose proof Hok as [_ Htl _ _ _ Hr _ _ _]. apply tiled_node in Htl as (Htl & _). apply tiled_le in Htl as [Htl _]. lia. }
    eapply (wp_take s l1 t l2 total (mkBlock (t_size t) (t_free t) nx mv)); [exact Hok|done|lia|done|exact Hb|].
    intros h l' n Hok' Hn Hin. wp_step. exists h, l', n.
    split; [done|]. split; [done|]. split; [done|]. unfold payload_of.
    rewrite u64_small by (unfold sizeof_Block; lia). split; [done|]. intros k. pose proof Hok as [_ Htl _ _ _ _ _ _ _].
    by eapply free_not_in_use.
  - replace (l1 ++ t :: l2) with ((l1 ++ [t]) ++ l2) in * by by rewrite <- app_assoc.
    eapply IH; [done|exact Hs|cbn in Hf; lia|done|done|].
    intros x [Hx|Hx]%elem_of_app; [by apply Hno|]. apply list_elem_of_singleton in Hx as ->. intros [Hfree Hle].
    rewrite Hfree in Efit. cbn in Efit. lia.
Qed.

Lemma wp_find_last fuel s l t m mv qv (Q : Z → Heap E → Prop) :
  seg (headers s) m mv (l ++ [t]) 0 qv → (length l < fuel)%nat → Q (t_addr t) s → wp (find_last fuel m) s Q.
Proof.
  revert l m mv. induction fuel as [|fuel IH]; intros l m mv Hs Hf HQ; [lia|].
  destruct l as [|x l]; cbn [find_last app seg] in *; destruct Hs as (-> & _ & nx & Hb & Hs); wp_step;
    (eapply wp_heap_deref; [exact Hb|]); cbn [next].
  - destruct Hs as [-> _]. cbn. by wp_step.
  - pose proof (seg_first _ _ _ _ _ _ _ Hs). replace (nx =? 0) with false by lia.
    eapply IH; [exact Hs|cbn in Hf; lia|done].
Qed.

(** ** Growth *)
Lemma wp_map_loop fuel va new_brk s :
  page_ok (env s) → (∀ v, va <= v < new_brk → page_place v) →
  va `mod` PAGE_SIZE = 0 → 0 <= va → new_brk < 2 ^ 64 - 2 * PAGE_SIZE → new_brk - va <= (Z.of_nat fuel - 1) * PAGE_SIZE → (0 < fuel)%nat →
  wp (map_loop fuel va new_brk) s (λ ok s', ∃ e, s' = set_env e s ∧ page_step (env s) e ∧
    if ok then ∀ v, va <= v < new_brk → v `mod` PAGE_SIZE = 0 → page_mapped e v else page_short e).
Proof.
  revert va s. induction fuel as [|fuel IH]; intros va s Hok Hpl Hva H0 Hnb Hf H1; [lia|]. cbn [map_loop].
  destruct (va <? new_brk) eqn:Elt.
  2:{ wp_step. exists (env s). split; [by destruct s|]. split; [by apply page_step_refl|]. intros v Hv. lia. }
  wp_step. apply wp_heap_service. eapply wp_mono; [by apply page_allocate_spec|]. intros [pa|] e1 (Hok1 & He1 & Hr).
  2:{ cbn. wp_step. by exists e1. }
  wp_step. apply wp_heap_service. eapply wp_mono; [apply page_map_spec; [done|done|apply Hpl; lia|done]|].
  intros [] e2 (Hok2 & He2 & Hmap); cbn [negb].
  2:{ wp_step. exists e2. split; [done|]. split; [split; [done|auto]|done]. }
  unfold PAGE_SIZE in *. rewrite u64_small by lia. eapply wp_mono; [apply IH; [done|intros v Hv; apply Hpl; lia|lia..]|].
  intros ok s' (e & -> & Hstep & Hall). exists e. split; [done|]. cbn in Hstep. split.
  - eapply page_step_trans; [split; [exact Hok1|exact He1]|]. eapply page_step_trans; [split; [exact Hok2|exact He2]|done].
  - destruct ok; [|done]. intros v Hv Hm. destruct (decide (v = va)) as [->|Hne]; [by apply Hstep|]. apply Hall; [lia|done].
Qed.

(** The page services changed the rest of the kernel, the heap grew to [nb]. *)
Definition grown s nb s' : Prop :=
  ∃ e, s' = set_env e (set_brk nb s) ∧ page_step (env s) e ∧
    ∀ v, brk_ s <= v < nb → v `mod` PAGE_SIZE = 0 → page_mapped e v.

Lemma page_up_aligned x : x `mod` PAGE_SIZE = 0 → 0 <= x < 2 ^ 64 - PAGE_SIZE → page_up x = x.
Proof.
  intros Hx Hr. unfold page_up, PAGE_SIZE in *. rewrite u64_small by lia.
  rewrite (land_lnot_ones _ 12) by lia. change (2 ^ 12) with 4096. lia.
Qed.

Lemma wp_morecore_from pages s :
  page_ok (env s) → (∀ v, brk_ s <= v < virt_end_ s → page_place v) → brk_ s `mod` PAGE_SIZE = 0 → 0 <= brk_ s → virt_end_ s < 2 ^ 64 - 2 * PAGE_SIZE → 0 < pages → pages * PAGE_SIZE < 2 ^ 63 →
  brk_ s + pages * PAGE_SIZE < 2 ^ 64 →
  wp (morecore pages) s (λ r s', match r with
    | None => (∃ e, s' = set_env e s ∧ page_step (env s) e) ∧
        (virt_end_ s < brk_ s + pages * PAGE_SIZE ∨ page_short (env s'))
    | Some p => p = brk_ s ∧ brk_ s + pages * PAGE_SIZE <= virt_end_ s ∧ grown s (brk_ s + pages * PAGE_SIZE) s'
    end).
Proof.
  intros Hok Hpl Ha Hle Hr Hp Hend1 Hend.
  assert (∃ e, s = set_env e s ∧ page_step (env s) e) as Hsame by (exists (env s); split; [by destruct s|by apply page_step_refl]).
  unfold morecore. replace (pages =? 0) with false by lia. unfold sbrk. wp_step. wp_step.
  assert (intptr (pages * PAGE_SIZE) = pages * PAGE_SIZE) as ->.
  { unfold intptr, PAGE_SIZE in *. cbv zeta in *. rewrite (u64_small (pages * 4096)) in * by lia.
    by replace (pages * 4096 <? 9223372036854775808) with true by lia. }
  unfold PAGE_SIZE in *. replace (pages * 4096 <? 0) with false by lia. replace (pages * 4096 =? 0) with false by lia.
  rewrite u64_small by lia. destruct (_ >? _) eqn:Egt; [wp_step; split; [done|left; lia]|].
  rewrite (page_up_aligned (brk_ s)) by (unfold PAGE_SIZE; lia).
  rewrite Z.div_mul by lia. wp_step. eapply wp_mono; [apply wp_map_loop; [done|intros v Hv; apply Hpl; lia|unfold PAGE_SIZE; lia..]|].
  intros ok s' (e & -> & Hmono & Hall). destruct ok; cbn [negb].
  - do 5 wp_step. split; [done|]. split; [lia|]. by exists e.
  - wp_step. split; [by exists e|by right].
Qed.

Lemma wp_morecore pages s l :
  heap_ok s l → 0 < pages → pages * PAGE_SIZE < 2 ^ 63 → virt_end_ s + pages * PAGE_SIZE < 2 ^ 64 →
  wp (morecore pages) s (λ r s', match r with
    | None => (∃ e, s' = set_env e s ∧ page_step (env s) e) ∧
        (virt_end_ s < brk_ s + pages * PAGE_SIZE ∨ page_short (env s'))
    | Some p => p = brk_ s ∧ brk_ s + pages * PAGE_SIZE <= virt_end_ s ∧ grown s (brk_ s + pages * PAGE_SIZE) s'
    end).
Proof.
  intros [_ Htl _ _ [Ha1 Ha2] Hr _ Hsv Hpl] Hp Hend1 Hend. apply tiled_le in Htl as [Hle _].
  apply wp_morecore_from; try done; [|lia..]. intros v Hv. apply Hpl. lia.
Qed.

(** More memory behind the blocks: a larger last block, or one more block. *)
Lemma heap_ok_grown s s' l l' h nb :
  heap_ok s l → grown s nb s' → brk_ s <= nb <= virt_end_ s → nb `mod` PAGE_SIZE = 0 →
  (∃ qv, seg h (head_ s) 0 l' 0 qv) → tiled (virt_start_ s) l' nb → coalesced l' → l' ≠ [] → heap_ok (set_headers h s') l'.
Proof.
  intros [_ _ _ _ [Ha1 Ha2] Hr Hm _ Hpl] (e & -> & [Hsv Hmono] & Hnew) Hnb Hmod Hseg Htl Hco Hne. split; cbn; try done; [lia|].
  intros va Hva Hvm. destruct (decide (va < brk_ s)); [apply Hmono, Hm; [lia|done]|apply Hnew; [lia|done]].
Qed.

Lemma wp_extend {A} fuel s s' l pages (k : M (Heap E) A) (Q : A → Heap E → Prop) :
  heap_ok s l → 0 < pages → brk_ s + pages * PAGE_SIZE <= virt_end_ s → grown s (brk_ s + pages * PAGE_SIZE) s' →
  (length l <= fuel)%nat →
  (∀ h l', heap_ok (set_headers h s') l' → (∀ q m, in_use l' q m ↔ in_use l q m) →
    (∃ t, t ∈ l' ∧ fits (pages * PAGE_SIZE - sizeof_Block) t) → wp k (set_headers h s') Q) →
  wp (last_block ← find_last fuel (head_ s);
      b ← deref last_block;
      _ ← (if free b then assign last_block (set_size (u64 (size b + pages * PAGE_SIZE)))
           else
             _ ← place (brk_ s) (mkBlock (u64 (pages * PAGE_SIZE - sizeof_Block)) true 0 last_block);
             assign last_block (set_next (brk_ s))); k) s' Q.
Proof.
  intros Hok Hp Hend Hg Hf HQ. pose proof Hok as [[qv Hseg] Htl Hco Hne [Ha1 Ha2] Hr _ _ _].
  assert (∀ h l', (∃ qv, seg h (head_ s) 0 l' 0 qv) → tiled (virt_start_ s) l' (brk_ s + pages * PAGE_SIZE) → coalesced l' → l' ≠ [] →
    heap_ok (set_headers h s') l') as Hmk.
  { intros h l'. apply (heap_ok_grown s s' l); [done|done|unfold PAGE_SIZE in *; lia|]. unfold PAGE_SIZE in *. lia. }
  assert (headers s' = headers s ∧ head_ s = head_ s') as [Ehs Ehd] by (destruct Hg as (e & -> & _); done).
  destruct (exists_last Hne) as (l1 & t & ->). rewrite length_app in Hf. cbn in Hf.
  pose proof Hseg as (mv & nx & Hs1 & H0 & Hb & -> & _)%seg_node.
  pose proof Htl as (Ht1 & Hsz & Hszm & Ht2)%tiled_node. cbn in Ht2.
  pose proof Hco as (Hc1 & _ & Hcf)%coalesced_node. pose proof (proj1 (tiled_le _ _ _ Ht1)) as Hle1.
  assert (∀ x, x ∈ l1 → t_addr x < t_addr t) as Hbelow by (intros x Hx; pose proof (tiled_below _ _ _ _ Ht1 Hx); lia).
  wp_step. eapply wp_find_last; [by rewrite Ehs|lia|]. wp_step. eapply wp_heap_deref; [by rewrite Ehs|]. cbn [free size].
  unfold sizeof_Block, PAGE_SIZE in *. rewrite !u64_small by lia. wp_step. destruct (t_free t) eqn:Efree.
  - eapply wp_heap_assign; [by rewrite Ehs|]. rewrite Ehs. cbn [set_size free size next prev].
    apply (HQ _ (l1 ++ [mkTile (t_addr t) (t_size t + pages * 4096) true])).
    + apply Hmk; [| | |by destruct l1].
      * exists (t_addr t). eapply (seg_change (headers s) _ _ _ l1 t _ []); [exact Hs1|done|done| |by rewrite lookup_insert_eq|done].
        intros x Hx. apply lookup_insert_ne. pose proof (Hbelow x Hx). lia.
      * apply tiled_node. cbn. unfold sizeof_Block. split; [done|]. lia.
      * apply coalesced_node. split; [done|]. split; [done|]. intros _. split; [|done]. by apply Hcf.
    + intros q m. rewrite !in_use_app, !in_use_cons. cbn. rewrite Efree. naive_solver.
    + eexists. split; [apply elem_of_app; right; by apply list_elem_of_singleton|]. split; [done|]. cbn. lia.
  - wp_step. apply wp_place; [lia|]. eapply wp_heap_assign; [cbn; rewrite Ehs, lookup_insert_ne by lia; done|].
    cbn [headers set_headers set_next free size next prev]. rewrite Ehs.
    change (set_headers ?x (set_headers _ s')) with (set_headers x s').
    apply (HQ _ (l1 ++ t :: [mkTile (brk_ s) (pages * 4096 - 32) true])).
    + apply Hmk; [| | |by destruct l1].
      * exists (brk_ s). eapply (seg_change (headers s) _ _ _ l1 t _ _); [exact Hs1|done|done| |by rewrite lookup_insert_eq, Efree|].
        -- intros x Hx. pose proof (Hbelow x Hx). rewrite !lookup_insert_ne by lia. done.
        -- cbn. split; [done|]. split; [lia|]. exists 0. split; [rewrite lookup_insert_ne by lia; apply lookup_insert_eq|done].
      * apply tiled_node. cbn. unfold sizeof_Block. split; [done|]. split; [lia|]. lia.
      * apply coalesced_node. rewrite Efree. split; [done|]. split; [|done]. done.
    + intros q m. rewrite !in_use_app, !in_use_cons. cbn. unfold in_use at 3. set_solver.
    + eexists. split; [apply elem_of_app; right; apply elem_of_cons; right; by apply list_elem_of_singleton|]. split; [done|]. cbn. lia.
Qed.

(** ** Allocation *)
Lemma align_up_spec n : 0 < n < 2 ^ 64 - 8 → n <= align_up n < n + 8 ∧ align_up n `mod` 8 = 0 ∧ 8 <= align_up n.
Proof.
  intros Hn. unfold align_up, ALIGN. rewrite u64_small by lia. rewrite (land_lnot_ones _ 3) by lia.
  change (2 ^ 3) with 8. lia.
Qed.

Lemma heap_ok_env s l e : heap_ok s l → page_step (env s) e → heap_ok (set_env e s) l.
Proof. intros [] [He1 He2]. split; cbn; try done. auto. Qed.

Lemma wp_search s l n :
  heap_ok s l → 0 < n < 2 ^ 64 - 8 → wp (find_fit (list_fuel s) (head_ s) (align_up n)) s (taken s l (align_up n)).
Proof.
  intros Hok Hn. pose proof (align_up_spec n Hn) as (Hle & Hmod & H8). pose proof Hok as [[qv Hseg] Htl _ _ _ _ _ _ _].
  eapply (wp_find_fit _ s [] l); [done|exact Hseg| |done|done|set_solver].
  unfold list_fuel. pose proof (seg_length _ _ _ _ _ _ _ _ Hseg Htl). lia.
Qed.

Lemma heap_ok_head s l : heap_ok s l → head_ s ≠ 0.
Proof. intros [[qv Hseg] _ _ Hne _ _ _ _ _]. destruct l as [|t l]; [done|]. cbn in Hseg. destruct Hseg as (-> & H0 & _). done. Qed.

(** A step that finds a block does not need the recursive call. *)
Lemma wp_allocate_fits fuel s l n :
  heap_ok s l → 0 < n < 2 ^ 64 - 8 → (∃ t, t ∈ l ∧ fits (align_up n) t) →
  wp (allocate_rec (S fuel) n) s (λ r s', ∃ p, r = Some p ∧ taken s l (align_up n) r s').
Proof.
  intros Hok Hn (t & Ht & Hfit). cbn [allocate_rec]. wp_step. wp_step. pose proof (heap_ok_head s l Hok).
  replace (n =? 0) with false by lia. replace (head_ s =? 0) with false by lia. cbn [orb]. wp_step.
  eapply wp_mono; [by eapply wp_search|]. intros [p|] s' Hr; [wp_step; by exists p|].
  destruct Hr as [_ Hno]. by destruct (Hno t Ht).
Qed.

(** What [allocate] does for [n] bytes: a block that was not in use, or a refusal. *)
Definition allocated s l n (r : option Z) (s' : Heap E) : Prop :=
  virt_start_ s' = virt_start_ s ∧ virt_end_ s' = virt_end_ s ∧ ∃ l', heap_ok s' l' ∧
  match r with
  | None => (∀ q k, in_use l' q k ↔ in_use l q k) ∧ (n = 0 ∨ (∀ t, t ∈ l → ¬ fits n t) ∧
      (virt_end_ s < brk_ s + (n + sizeof_Block + PAGE_SIZE - 1) / PAGE_SIZE * PAGE_SIZE ∨ page_short (env s')))
  | Some p => 0 < n ∧ ∃ m, n <= m ∧ (∀ q k, in_use l' q k ↔ in_use l q k ∨ q = p ∧ k = m) ∧ ∀ k, ¬ in_use l p k
  end.

Lemma taken_allocated s s1 l l1 n p s' :
  taken s1 l1 (align_up n) (Some p) s' → 0 < n < 2 ^ 64 - 8 → virt_start_ s1 = virt_start_ s → virt_end_ s1 = virt_end_ s →
  (∀ q k, in_use l1 q k ↔ in_use l q k) → allocated s l n (Some p) s'.
Proof.
  intros (h & l' & m & -> & Hok & Hm & Hin & Hnew) Hn Hvs Hve Hiu. destruct (align_up_spec n Hn) as [Hle _].
  split; [done|]. split; [done|]. exists l'. split; [done|]. split; [lia|]. exists m. split; [lia|].
  split; [intros q k; by rewrite Hin, Hiu|]. intros k. rewrite <- Hiu. apply Hnew.
Qed.

Lemma wp_heap_allocate s l n :
  heap_ok s l → 0 <= n < 2 ^ 63 - 2 * PAGE_SIZE → virt_end_ s + n + 2 * PAGE_SIZE <= 2 ^ 64 →
  wp (allocate n) s (allocated s l n).
Proof.
  intros Hok Hn Hend. unfold allocate. pose proof Hok as [[qv Hseg] Htl _ _ _ Hr _].
  pose proof (tiled_le _ _ _ Htl) as [Hle _].
  pose proof (heap_ok_head s l Hok) as Hhd. remember 1%nat as f eqn:Ef. cbn [allocate_rec]. wp_step. wp_step.
  destruct (n =? 0) eqn:En; cbn [orb].
  { wp_step. split; [done|]. split; [done|]. exists l. split; [done|]. split; [done|]. left. lia. }
  replace (head_ s =? 0) with false by lia. unfold PAGE_SIZE in *. assert (0 < n < 2 ^ 64 - 8) as Hn8 by lia.
  pose proof (align_up_spec n Hn8) as (Hal & Hmod & H8). set (total := align_up n) in *.
  wp_step. eapply wp_mono; [by eapply wp_search|]. fold total. intros [p|] s' Hr'.
  { wp_step. by eapply taken_allocated. }
  destruct Hr' as [-> Hno]. unfold sizeof_Block. rewrite u64_small by lia. set (pages := (total + 32 + 4096 - 1) / 4096).
  assert (total + 32 <= pages * 4096 <= total + 32 + 4095) as Hpages by (unfold pages; lia).
  wp_step. eapply wp_mono; [eapply wp_morecore; [exact Hok|unfold PAGE_SIZE; lia..]|]. intros [p|] s' Hr'.
  2:{ destruct Hr' as [(e & -> & He) Hwhy]. wp_step. split; [done|]. split; [done|]. exists l.
      split; [by apply heap_ok_env|]. split; [done|]. right. split.
      - intros t Ht [Hf1 Hf2]. apply (Hno t Ht). split; [done|].
        pose proof (tiled_size_mod _ _ _ _ Htl Ht). lia.
      - destruct Hwhy as [Hwhy|Hwhy]; [left|by right]. unfold PAGE_SIZE, sizeof_Block in *.
        assert (pages = (n + 32 + 4096 - 1) / 4096) as <- by (unfold pages; lia). lia. }
  destruct Hr' as (-> & Hle' & Hg). eapply wp_extend; [exact Hok|lia|exact Hle'|exact Hg| |].
  { unfold list_fuel. pose proof (seg_length _ _ _ _ _ _ _ _ Hseg Htl). lia. }
  intros h l' Hok' Hin (t & Ht & Hft1 & Hft2). eapply wp_mono.
  - rewrite Ef. apply (wp_allocate_fits 0 _ l'); [done|done|]. exists t. split; [done|]. split; [done|].
    unfold sizeof_Block, PAGE_SIZE in *. fold total. lia.
  - intros r s2 (p & -> & Htk). destruct Hg as (e & -> & _). by eapply taken_allocated.
Qed.
End heap.

(** * Freeing a block of the kernel heap

    [heap_free] gives the block back and joins it with a free neighbour on either
    side, so that again no two neighbours are free. *)

Section heap.
Context {E : Type} `{HE : PageServices E} `{HS : !PageServicesSpec E}.
Implicit Types (s : Heap E) (l : list Tile) (t : Tile) (h : gmap Z Block).

(** The blocks [l] in the memory [h], neighbours being free or not. *)
Definition listed s h l : Prop := (∃ qv, seg h (head_ s) 0 l 0 qv) ∧ tiled (virt_start_ s) l (brk_ s).

(** The block [t] between [l1] and [l2]. *)
Lemma listed_node s h l1 t l2 : listed s h (l1 ++ t :: l2) → ∃ nx,
  h !! t_addr t = Some (mkBlock (t_size t) (t_free t) nx (match last l1 with Some x => t_addr x | None => 0 end)) ∧
  nx = match l2 with u :: _ => t_addr u | [] => 0 end.
Proof.
  intros [[qv (mv & nx & H1 & H0 & Hh & H2)%seg_node] _]. rewrite (seg_end _ _ _ _ _ _ H1) in Hh.
  exists nx. split; [done|]. destruct l2 as [|u l2]; cbn in H2; [by destruct H2|by destruct H2].
Qed.

(** The block [x] takes in its neighbour [y]; the next block learns of it. *)
Lemma wp_join s k1 x y k2 sz bx yb (Q : () → Heap E → Prop) :
  listed s (headers s) (k1 ++ x :: y :: k2) → 0 < virt_start_ s →
  headers s !! t_addr x = Some bx → headers s !! t_addr y = Some yb → sz = t_size x + sizeof_Block + t_size y →
  (∀ h, listed s h (k1 ++ mkTile (t_addr x) sz true :: k2) → Q () (set_headers h s)) →
  wp (if negb (next yb =? 0) then assign (next yb) (set_prev (t_addr x)) else mret ())
    (set_headers (<[t_addr x := mkBlock sz true (next yb) (prev bx)]> (headers s)) s) Q.
Proof.
  intros [[qv Hseg] Htl] Hpos Hbx Hby Hsz HQ. pose proof Hseg as (mv & nx & Hs1 & H0 & Hb & Hs2)%seg_node.
  rewrite Hbx in Hb. injection Hb as ->. cbn [prev]. cbn [seg] in Hs2. destruct Hs2 as (-> & Hy0 & nx2 & Hb & Hs2).
  rewrite Hby in Hb. injection Hb as ->. cbn [next].
  apply tiled_node in Htl as (Ht1 & Hx8 & Hxm & Ht2). cbn [tiled] in Ht2. destruct Ht2 as (Hya & Hy8 & Hym & Ht2).
  pose proof (proj1 (tiled_le _ _ _ Ht1)) as Hle1. unfold sizeof_Block in *.
  assert (∀ u, u ∈ k2 → t_addr x + 80 <= t_addr u) as Habove.
  { intros u Hu. destruct (tiled_bounds _ _ _ _ Ht2 Hu). lia. }
  eapply (wp_relink nx2 (t_addr y) (t_addr x) k2); [|exact Ht2|lia|].
  { cbn. apply seg_insert; [|exact Hs2]. intros u Hu. pose proof (Habove u Hu). lia. }
  intros h qv' Hs3 Hf. cbn [headers set_headers] in Hf. change (set_headers ?a (set_headers _ s)) with (set_headers a s).
  apply HQ. split.
  - exists qv'. eapply (seg_change (headers s) _ _ _ k1 x (mkTile (t_addr x) sz true)); [exact Hs1|done|done| | |exact Hs3].
    + intros u Hu. pose proof (tiled_below _ _ _ _ Ht1 Hu). rewrite Hf.
      * apply lookup_insert_ne. lia.
      * intros v Hv. pose proof (Habove v Hv). lia.
    + rewrite Hf; [apply lookup_insert_eq|]. intros v Hv. pose proof (Habove v Hv). lia.
  - apply tiled_node. cbn [t_addr t_size]. split; [done|]. split; [lia|]. split; [lia|]. unfold sizeof_Block.
    by replace (t_addr x + 32 + sz) with (t_addr x + 32 + t_size x + 32 + t_size y) by lia.
Qed.

Lemma listed_small s h l t : listed s h l → brk_ s < 2 ^ 64 → 0 < virt_start_ s → t ∈ l → 0 < t_addr t ∧ t_addr t + 32 + t_size t < 2 ^ 64 ∧ 8 <= t_size t.
Proof.
  intros [_ Htl] Hb Hp Ht. destruct (tiled_bounds _ _ _ _ Htl Ht). destruct (tiled_size_mod _ _ _ _ Htl Ht). unfold sizeof_Block in *. lia.
Qed.

(** The two merges of [heap_free], with what follows. *)
Lemma wp_merge_next {A} s l1 t l2 b (k : M (Heap E) A) (Q : A → Heap E → Prop) :
  listed s (headers s) (l1 ++ t :: l2) → t_free t = true → brk_ s < 2 ^ 64 → 0 < virt_start_ s → coalesced l2 →
  headers s !! t_addr t = Some b →
  (∀ h n l2', listed s h (l1 ++ mkTile (t_addr t) n true :: l2') → coalesced l2' → head_used l2' →
    (∀ q m, in_use l2' q m ↔ in_use l2 q m) → wp k (set_headers h s) Q) →
  wp (_ ← (if next b =? 0 then mret ()
         else
           n ← deref (next b);
           if negb (free n) then mret ()
           else
             _ ← assign (t_addr t) (set_size (u64 (size b + sizeof_Block + size n)));
             _ ← assign (t_addr t) (set_next (next n));
             b ← deref (t_addr t);
             if negb (next b =? 0) then assign (next b) (set_prev (t_addr t)) else mret ()); k) s Q.
Proof.
  intros Hl Hfree Hbrk Hpos Hco Hb HQ.
  assert (wp k s Q ∨ ∃ u l3, l2 = u :: l3 ∧ t_free u = true) as Hcase.
  { destruct l2 as [|u l3].
    - left. replace s with (set_headers (headers s) s) by by destruct s. apply (HQ _ (t_size t) []); [|done..].
      rewrite <- Hfree. by destruct t.
    - destruct (t_free u) eqn:Eu; [right; by exists u, l3|left]. replace s with (set_headers (headers s) s) by by destruct s.
      apply (HQ _ (t_size t) (u :: l3)); [|done..]. rewrite <- Hfree. by destruct t. }
  destruct (listed_node _ _ _ _ _ Hl) as (nx & Hb' & Hnx). rewrite Hb in Hb'. injection Hb' as ->. cbn [next size].
  destruct l2 as [|u l2].
  { subst nx. cbn. wp_step. wp_step. destruct Hcase as [|(? & ? & ? & _)]; done. }
  assert (listed s (headers s) ((l1 ++ [t]) ++ u :: l2)) as Hl2 by by rewrite <- app_assoc.
  destruct (listed_node _ _ _ _ _ Hl2) as (nx' & Hbu & Hnx').
  pose proof (listed_small _ _ _ u Hl Hbrk Hpos ltac:(set_solver)) as Hu. pose proof (listed_small _ _ _ t Hl Hbrk Hpos ltac:(set_solver)) as Ht.
  subst nx. replace (t_addr u =? 0) with false by lia. wp_step. wp_step. eapply wp_heap_deref; [exact Hbu|]. cbn [free size next].
  destruct (t_free u) eqn:Eu; cbn [negb].
  2:{ wp_step. destruct Hcase as [|(x & ? & [= <- <-] & ?)]; [done|congruence]. }
  assert (t_addr t + 32 + t_size t = t_addr u) as Hadj.
  { destruct Hl as [_ Htl]. apply tiled_node in Htl as (_ & _ & _ & Htl). cbn in Htl. unfold sizeof_Block in *. lia. }
  unfold sizeof_Block. rewrite u64_small by lia.
  wp_step. eapply wp_heap_assign; [exact Hb|]. wp_step. eapply wp_heap_assign; [apply lookup_insert_eq|].
  wp_step. eapply wp_heap_deref; [apply lookup_insert_eq|]. cbn [next set_size set_next set_headers headers size free prev].
  rewrite insert_insert_eq, Hfree. change (set_headers ?a (set_headers _ s)) with (set_headers a s).
  eapply (wp_join s l1 t u l2 _ _ _ _ Hl Hpos Hb Hbu); [done|].
  intros h Hl'. eapply (HQ h _ l2); [exact Hl'|by destruct Hco|..].
  - destruct l2 as [|v l2]; [done|]. cbn in Hco. unfold head_used. destruct Hco as [Hco _]. destruct (t_free v); naive_solver.
  - intros q m. rewrite in_use_cons, Eu. naive_solver.
Qed.

Lemma wp_merge_prev s l1 t l2 b (Q : () → Heap E → Prop) :
  listed s (headers s) (l1 ++ t :: l2) → t_free t = true → brk_ s < 2 ^ 64 → 0 < virt_start_ s →
  coalesced l1 → coalesced l2 → head_used l2 → headers s !! t_addr t = Some b →
  (∀ h l, listed s h l → coalesced l → l ≠ [] → (∀ q m, in_use l q m ↔ in_use l1 q m ∨ in_use l2 q m) → Q () (set_headers h s)) →
  wp (if prev b =? 0 then mret ()
    else
      p ← deref (prev b);
      if negb (free p) then mret ()
      else
        _ ← assign (prev b) (set_size (u64 (size p + sizeof_Block + size b)));
        _ ← assign (prev b) (set_next (next b));
        if negb (next b =? 0) then assign (next b) (set_prev (prev b)) else mret ()) s Q.
Proof.
  intros Hl Hfree Hbrk Hpos Hc1 Hc2 Hhu Hb HQ.
  assert (last_used l1 → Q () s) as Hcase.
  { intros Hlu. replace s with (set_headers (headers s) s) by by destruct s. apply (HQ _ (l1 ++ t :: l2)); [done| |by destruct l1|].
    - by apply coalesced_node.
    - intros q m. rewrite in_use_app, in_use_cons, Hfree. naive_solver. }
  destruct (listed_node _ _ _ _ _ Hl) as (nx & Hb' & Hnx). rewrite Hb in Hb'. injection Hb' as ->. cbn [prev size next].
  destruct l1 as [|v l1 _] using rev_ind.
  { cbn. wp_step. by apply Hcase. }
  rewrite last_snoc in *. assert (listed s (headers s) (l1 ++ v :: t :: l2)) as Hl2 by by rewrite <- app_assoc in Hl.
  destruct (listed_node _ _ _ _ _ Hl2) as (nx' & Hbv & Hnx').
  pose proof (listed_small _ _ _ v Hl Hbrk Hpos ltac:(set_solver)) as Hv. pose proof (listed_small _ _ _ t Hl Hbrk Hpos ltac:(set_solver)) as Ht.
  replace (t_addr v =? 0) with false by lia. wp_step. eapply wp_heap_deref; [exact Hbv|]. cbn [free size next].
  unfold last_used in Hcase. rewrite last_snoc in Hcase.
  destruct (t_free v) eqn:Ev; cbn [negb]; [|wp_step; by apply Hcase].
  assert (t_addr v + 32 + t_size v = t_addr t) as Hadj.
  { destruct Hl2 as [_ Htl]. apply tiled_node in Htl as (_ & _ & _ & Htl). cbn in Htl. unfold sizeof_Block in *. lia. }
  unfold sizeof_Block. rewrite u64_small by lia.
  wp_step. eapply wp_heap_assign; [exact Hbv|]. wp_step. eapply wp_heap_assign; [apply lookup_insert_eq|].
  cbn [next set_size set_next set_headers headers size free prev].
  rewrite insert_insert_eq. change (set_headers ?a (set_headers _ s)) with (set_headers a s).
  eapply (wp_join s l1 v t l2 _ _ _ _ Hl2 Hpos Hbv Hb); [done|].
  apply coalesced_node in Hc1 as (Hc1 & _ & Hcv).
  intros h Hl'. apply (HQ h _ Hl'); [| by destruct l1|].
  - apply coalesced_node. split; [done|]. split; [done|]. intros _. split; [by apply Hcv|done].
  - intros q m. rewrite !in_use_app, !in_use_cons, Ev, in_use_nil. naive_solver.
Qed.

Lemma wp_heap_free s l p n :
  heap_ok s l → in_use l p n →
  wp (heap_free p) s (λ _ s', ∃ h l', s' = set_headers h s ∧ heap_ok s' l' ∧
    ∀ q m, in_use l' q m ↔ in_use l q m ∧ q ≠ p).
Proof.
  intros Hok (t & Ht & Hused & -> & ->). pose proof Hok as [[qv Hseg] Htl Hco _ _ Hr _].
  assert (listed s (headers s) l) as Hl by (split; [by exists qv|done]).
  apply list_elem_of_split in Ht as (l1 & l2 & ->). unfold PAGE_SIZE in *.
  pose proof (listed_small _ _ _ t Hl ltac:(lia) ltac:(lia) ltac:(set_solver)) as Hts.
  unfold heap_free. unfold sizeof_Block. replace (t_addr t + 32 =? 0) with false by lia.
  unfold header_of, sizeof_Block. replace (t_addr t + 32 - 32) with (t_addr t) by lia. rewrite u64_small by lia.
  destruct (listed_node _ _ _ _ _ Hl) as (nx & Hb & _). wp_step. eapply wp_heap_assign; [exact Hb|].
  cbn [set_free size next prev]. match goal with |- wp _ (set_headers (<[_ := ?b]> _) _) _ => set (b1 := b) end. set (t1 := mkTile (t_addr t) (t_size t) true).
  pose proof Hco as (Hc1 & Hc2 & _)%coalesced_node. pose proof Htl as (Ht1 & Hs8 & Hsm & Ht2)%tiled_node.
  assert (listed s (<[t_addr t := b1]> (headers s)) (l1 ++ t1 :: l2)) as Hl1.
  { split; [|by apply tiled_node]. pose proof Hseg as (mv & nx' & Hs1 & H0 & Hb' & Hs2)%seg_node.
    rewrite Hb in Hb'. injection Hb' as <- <-. exists qv.
    eapply (seg_change (headers s) _ _ _ l1 t t1); [exact Hs1|done|done| |by rewrite lookup_insert_eq|].
    - intros x Hx. apply lookup_insert_ne. pose proof (tiled_below _ _ _ _ Ht1 Hx). lia.
    - apply seg_insert; [|exact Hs2]. intros x Hx. destruct (tiled_bounds _ _ _ _ Ht2 Hx). unfold sizeof_Block in *. lia. }
  wp_step. eapply wp_heap_deref; [apply lookup_insert_eq|].
  eapply (wp_merge_next (set_headers _ s) l1 t1 l2 b1); [exact Hl1|done|cbn; lia|cbn; lia|done|apply lookup_insert_eq|].
  intros h n l2' Hl2 Hc2' Hhu Hin. change (set_headers h (set_headers _ s)) with (set_headers h s).
  destruct (listed_node _ _ _ _ _ Hl2) as (nx2 & Hb2 & _). wp_step. eapply wp_heap_deref; [exact Hb2|].
  eapply (wp_merge_prev (set_headers h s) l1 (mkTile (t_addr t) n true) l2'); [exact Hl2|done|cbn; lia|cbn; lia|done|done|done|exact Hb2|].
  intros h' l' [Hs' Htl'] Hco' Hne Hin'. exists h', l'. split; [done|]. split; [exact (heap_ok_headers _ _ _ _ Hok Hs' Htl' Hco' Hne)|].
  intros q m. rewrite Hin', Hin, in_use_app, in_use_cons, Hused. split; [|naive_solver].
  assert (∀ u, u ∈ l1 ++ l2 → t_addr u ≠ t_addr t) as Hne'.
  { intros u Hu E'. destruct (tiled_disjoint _ _ _ _ _ _ Htl Hu); destruct (listed_small _ _ _ u Hl ltac:(lia) ltac:(lia) ltac:(set_solver));
      unfold sizeof_Block in *; lia. }
  intros [(u & Hu & Huf & -> & ->)|(u & Hu & Huf & -> & ->)]; (split; [|pose proof (Hne' u ltac:(set_solver)); unfold sizeof_Block; lia]).
  - left. by exists u.
  - right; right. by exists u.
Qed.
End heap.
