(* ===== verification/HeapProps.v ===== *)
(** * Correctness of the kernel heap

    What a client of the heap relies on: blocks are aligned, large enough, mapped
    and disjoint, freeing returns exactly the freed block, and a refusal has a
    reason. The last part runs the heap on concrete page services. *)
From stdpp Require Import gmap.
From S2P Require Import Prelude Heap HeapSpec HeapOps.

Section heap.
Context {E : Type} `{HE : PageServices E} `{HS : !PageServicesSpec E}.
Implicit Types (s : Heap E) (l : list Tile) (t : Tile) (h : gmap Z Block).

(** ** What being in use means *)

Lemma tiled_aligned a l z t : tiled a l z → a `mod` 8 = 0 → t ∈ l → t_addr t `mod` 8 = 0.
Proof.
  revert a. induction l as [|x l IH]; intros a; cbn; [set_solver|]. intros (Ha & Hs & Hm & H) Hmod [->|Hin]%elem_of_cons; [lia|].
  eapply IH; [exact H|unfold sizeof_Block; lia|done].
Qed.

(** The memory [p, p + n) may be used by the holder of the block. *)
Definition usable s (p n : Z) : Prop :=
  p `mod` 8 = 0 ∧ virt_start_ s + sizeof_Block <= p ∧ p + n <= brk_ s ∧
  ∀ va, va `mod` PAGE_SIZE = 0 → va < p + n → p < va + PAGE_SIZE → page_mapped (env s) va.

Lemma in_use_usable s l p m n : heap_ok s l → in_use l p m → n <= m → usable s p n.
Proof.
  intros [_ Htl _ _ [Ha1 Ha2] _ Hmap _ _] (t & Ht & _ & -> & ->) Hn. destruct (tiled_bounds _ _ _ _ Htl Ht).
  unfold usable, PAGE_SIZE, sizeof_Block in *. split; [|split; [lia|split; [lia|]]].
  - pose proof (tiled_aligned _ _ _ _ Htl ltac:(lia) Ht). lia.
  - intros va Hm Hlt Hgt. apply Hmap; [|done]. lia.
Qed.

Lemma in_use_disjoint s l p m q k : heap_ok s l → in_use l p m → in_use l q k → p = q ∧ m = k ∨ p + m + sizeof_Block <= q ∨ q + k + sizeof_Block <= p.
Proof.
  intros [_ Htl _ _ _ _ _ _ _] (t & Ht & _ & -> & ->) (u & Hu & _ & -> & ->).
  apply list_elem_of_split in Ht as (l1 & l2 & ->). rewrite elem_of_app, elem_of_cons in Hu.
  destruct (decide (u = t)) as [->|Hne]; [by left|right].
  destruct (tiled_disjoint _ _ _ _ _ u Htl); [set_solver|lia..].
Qed.

(** A block handed out. *)
Definition fresh_block s l s' l' n p : Prop :=
  ∃ m, n <= m ∧ usable s' p m ∧ (∀ q k, in_use l' q k ↔ in_use l q k ∨ q = p ∧ k = m) ∧
    ∀ q k, in_use l q k → p + m + sizeof_Block <= q ∨ q + k + sizeof_Block <= p.

(** C22: [allocate], for a request that neither reaches 2^63 - 8192 bytes nor
    carries the end of the heap past 2^64 (in the kernel: less than 1.73 GiB;
    beyond, the sum in [sbrk] wraps, see [sbrk_wraps]), returns: a block of the size
    asked for that is mapped, aligned and away from all blocks in use, or null, with
    no block taken; null means that nothing was asked for, or that no free block was
    large enough and the heap could not grow by the pages for the block and its
    header, because its end is reached or because the page services are out of
    memory. *)
Theorem heap_allocate_correct s l n :
  heap_ok s l → 0 <= n < 2 ^ 63 - 2 * PAGE_SIZE → virt_end_ s + n + 2 * PAGE_SIZE <= 2 ^ 64 →
  wp (allocate n) s (λ r s', ∃ l', heap_ok s' l' ∧ match r with
    | Some p => 0 < n ∧ fresh_block s l s' l' n p
    | None => (∀ q k, in_use l' q k ↔ in_use l q k) ∧ (n = 0 ∨ (∀ t, t ∈ l → ¬ fits n t) ∧
        (virt_end_ s < brk_ s + (n + sizeof_Block + PAGE_SIZE - 1) / PAGE_SIZE * PAGE_SIZE ∨ page_short (env s')))
    end).
Proof.
  intros Hok Hn Hend. eapply wp_mono; [by apply wp_heap_allocate|]. intros [p|] s' (_ & _ & l' & Hok' & Hr); exists l'; (split; [done|]); [|done].
  destruct Hr as (Hpos & m & Hm & Hin & Hnew). split; [done|]. exists m.
  assert (in_use l' p m) as Hp by (apply Hin; by right).
  split; [done|]. split; [by eapply in_use_usable|]. split; [done|]. intros q k Hq.
  destruct (in_use_disjoint _ _ p m q k Hok' Hp ltac:(apply Hin; by left)) as [[-> ->]|]; [by destruct (Hnew k)|done].
Qed.

(** ** A client *)

(** Calls of a client that frees what it holds: [live] maps the payloads it holds
    to the sizes it asked for. *)
Inductive Op := Allocate (n : Z) | Free (p : Z).

Fixpoint client (ops : list Op) (live : gmap Z Z) : M (Heap E) (gmap Z Z) :=
  match ops with
  | [] => mret live
  | Allocate n :: ops =>
      r ← allocate n;
      client ops (match r with Some p => <[p := n]> live | None => live end)
  | Free p :: ops =>
      match live !! p with
      | Some _ => _ ← heap_free p; client ops (delete p live)
      | None => client ops live
      end
  end.

(** The requests a heap with the limit [virt_end] is proved for. *)
Definition op_ok (virt_end : Z) (o : Op) : Prop :=
  match o with Allocate n => 0 <= n < 2 ^ 63 - 2 * PAGE_SIZE ∧ virt_end + n + 2 * PAGE_SIZE <= 2 ^ 64 | Free _ => True end.

(** The blocks in use are the blocks held. *)
Definition holds l (live : gmap Z Z) : Prop :=
  (∀ p m, in_use l p m → ∃ n, live !! p = Some n ∧ n <= m) ∧ (∀ p n, live !! p = Some n → ∃ m, in_use l p m).

(** What the client may do: use its blocks, which do not overlap. *)
Definition safe s (live : gmap Z Z) : Prop :=
  ∀ p n, live !! p = Some n → usable s p n ∧
    ∀ q k, live !! q = Some k → q ≠ p → p + n <= q ∨ q + k <= p.

Lemma holds_safe s l live : heap_ok s l → holds l live → safe s live.
Proof.
  intros Hok [H1 H2] p n Hp. destruct (H2 p n Hp) as [m Hm]. destruct (H1 p m Hm) as (n' & Hn' & Hle). simplify_eq.
  split; [by eapply in_use_usable|]. intros q k Hq Hne. destruct (H2 q k Hq) as [m' Hm']. destruct (H1 q m' Hm') as (k' & Hk' & Hle').
  simplify_eq. destruct (in_use_disjoint _ _ _ _ _ _ Hok Hm Hm') as [[-> _]|Hd]; [done|]. unfold sizeof_Block in *. lia.
Qed.

Lemma wp_client ops live s l :
  heap_ok s l → holds l live → Forall (op_ok (virt_end_ s)) ops →
  wp (client ops live) s (λ live' s', ∃ l', heap_ok s' l' ∧ holds l' live').
Proof.
  revert live s l. induction ops as [|[n|p] ops IH]; intros live s l Hok [H1 H2] Hops; cbn [client].
  - wp_step. by exists l.
  - apply Forall_cons in Hops as [[Hn Hend] Hops]. wp_step. eapply wp_mono; [by apply wp_heap_allocate|].
    intros r s' (Hvs & Hve & l' & Hok' & Hr). eapply IH; [exact Hok'| |by rewrite Hve].
    destruct r as [p|]; [|destruct Hr as [Hin _]; split; [intros p m Hp; apply H1; by apply Hin|intros p k Hp; destruct (H2 p k Hp) as [m Hm]; exists m; by apply Hin]].
    destruct Hr as (_ & m & Hm & Hin & Hnew). split.
    + intros q k [Hq|[-> ->]]%Hin; [|exists n; split; [apply lookup_insert_eq|done]].
      destruct (H1 q k Hq) as (n' & Hn' & Hle). exists n'. split; [|done]. rewrite lookup_insert_ne; [done|].
      intros ->. by apply (Hnew k).
    + intros q k Hq. destruct (decide (p = q)) as [->|Hne]; [exists m; apply Hin; by right|].
      rewrite lookup_insert_ne in Hq by done. destruct (H2 q k Hq) as [m' Hm']. exists m'. apply Hin. by left.
  - apply Forall_cons in Hops as [_ Hops]. destruct (live !! p) as [n|] eqn:Ep; [|by eapply IH].
    destruct (H2 p n Ep) as [m Hm]. wp_step. eapply wp_mono; [by eapply wp_heap_free|].
    intros [] s' (h & l' & -> & Hok' & Hin). eapply IH; [exact Hok'| |done]. split.
    + intros q k [Hq Hne]%Hin. rewrite lookup_delete_ne by done. by apply H1.
    + intros q k Hq. apply lookup_delete_Some in Hq as [Hne Hq]. destruct (H2 q k Hq) as [m' Hm']. exists m'. by apply Hin.
Qed.

(** ** The constructor *)
Definition fresh_heap (e : E) : Heap E := mkHeap 0 0 0 0 ∅ e.

Lemma wp_construct vs ve e :
  page_ok e → (∀ v, vs <= v < ve → page_place v) →
  vs `mod` PAGE_SIZE = 0 → 0 < vs <= ve → ve < 2 ^ 64 - 2 * PAGE_SIZE →
  wp (construct vs ve) (fresh_heap e) (λ _ s', virt_end_ s' = ve ∧ page_ok (env s') ∧
    (heap_ok s' [mkTile vs (PAGE_SIZE - sizeof_Block) true] ∨ head_ s' = 0 ∧ (ve < vs + PAGE_SIZE ∨ page_short (env s')))).
Proof.
  intros Hsv Hpl Hvs Hpos Hve. unfold construct. wp_step. wp_step. wp_step. cbn [fresh_heap headers head_ env].
  eapply wp_mono; [apply wp_morecore_from; [done|by cbn|cbn; done|cbn; lia|done|lia|unfold PAGE_SIZE in *; cbn; lia|unfold PAGE_SIZE in *; cbn; lia]|].
  cbn [virt_end_ brk_ env]. intros [p|] s' Hp.
  - destruct Hp as (-> & Hle & e' & -> & [Hsv' _] & Hmap). wp_step. wp_step. apply wp_place; [lia|]. split; [done|]. split; [done|]. left.
    unfold PAGE_SIZE, sizeof_Block in *. split; cbn; unfold PAGE_SIZE, sizeof_Block; [|split; [done|]; lia|done|done|lia|lia| |done|done].
    + exists vs. split; [done|]. split; [lia|]. exists 0. split; [apply lookup_insert_eq|done].
    + intros va Hva Hm. by apply Hmap.
  - destruct Hp as [(e' & -> & [Hsv' _]) Hwhy]. wp_step. split; [done|]. split; [done|]. right. split; [done|]. cbn in Hwhy. by rewrite Z.mul_1_l in Hwhy.
Qed.

Lemma client_dead ops s : head_ s = 0 → wp (client ops ∅) s (λ live' s', live' = ∅ ∧ s' = s).
Proof.
  intros Hhd. induction ops as [|[n|p] ops IH]; cbn [client]; [by wp_step| |by rewrite lookup_empty].
  wp_step. unfold allocate. cbn [allocate_rec]. wp_step. wp_step. rewrite Hhd, orb_true_r. by wp_step.
Qed.

(** The constructor and a client. *)
Lemma wp_heap_client vs ve e ops :
  page_ok e → (∀ v, vs <= v < ve → page_place v) →
  vs `mod` PAGE_SIZE = 0 → 0 < vs <= ve → ve < 2 ^ 64 - 2 * PAGE_SIZE → Forall (op_ok ve) ops →
  wp (_ ← construct vs ve; client ops ∅) (fresh_heap e) (λ live s, safe s live ∧ page_ok (env s)).
Proof.
  intros Hsv Hpl Hvs Hpos Hve Hops. wp_step. eapply wp_mono; [by apply wp_construct|]. intros [] s (Es & Hsv' & [Hok|[Hhd _]]).
  - eapply wp_mono; [eapply wp_client; [exact Hok| |by rewrite Es]|intros live s' (l & Hok' & Hh); split; [by eapply holds_safe|apply Hok']].
    split; [|set_solver]. intros p m (t & Ht & Hused & _). apply list_elem_of_singleton in Ht as ->. done.
  - eapply wp_mono; [by apply client_dead|]. by intros live s' [-> ->].
Qed.

(** C21: From the constructor on, a client that only frees what it holds, and makes
    no request with which the end of the heap would wrap around (2^63 - 8192 bytes
    at most, and in the kernel less than 1.73 GiB), may call [allocate] and [free]
    in any order: every call returns, and the blocks it then holds are aligned,
    mapped, as large as it asked for and pairwise disjoint; the page services are in
    order. *)
Theorem heap_client_safe vs ve e ops :
  page_ok e → (∀ v, vs <= v < ve → page_place v) →
  vs `mod` PAGE_SIZE = 0 → 0 < vs <= ve → ve < 2 ^ 64 - 2 * PAGE_SIZE → Forall (op_ok ve) ops →
  wp (_ ← construct vs ve; client ops ∅) (fresh_heap e) (λ live s, safe s live ∧ page_ok (env s)).
Proof. apply wp_heap_client. Qed.
End heap.

(** ** Concrete page services *)

(** A number of free pages, and the virtual pages mapped. *)
Record Frames := mkFrames { frames_left : Z; mapped : gset Z }.

#[export] Instance Frames_services : PageServices Frames := {|
  page_allocate := λ f, if frames_left f <=? 0 then Some (None, f)
    else Some (Some (frames_left f * PAGE_SIZE), mkFrames (frames_left f - 1) (mapped f));
  page_map := λ va pa f, Some (true, mkFrames (frames_left f) ({[va]} ∪ mapped f));
|}.

#[export] Instance Frames_spec : PageServicesSpec Frames.
Proof.
  refine {| page_ok _ := True; page_mapped f va := va ∈ mapped f; page_held _ _ := True; page_place _ := True; page_short f := frames_left f <= 0 |}.
  - intros f _. unfold wp. cbn. destruct (frames_left f <=? 0) eqn:E; do 2 eexists; (split; [done|]); [|done]. split; [done|]. split; [done|lia].
  - intros f va pa _ _ _ _. unfold wp. cbn. do 2 eexists. split; [done|]. cbn. set_solver.
Defined.

Definition boot_frames : Frames := mkFrames 8 ∅.

(** The heap as the constructor leaves it. *)
Definition heap1 : Heap Frames :=
  mkHeap KERNEL_HEAP_BASE KERNEL_HEAP_END (KERNEL_HEAP_BASE + 4096) KERNEL_HEAP_BASE
    {[KERNEL_HEAP_BASE := mkBlock 4064 true 0 0]} (mkFrames 7 {[KERNEL_HEAP_BASE]}).
Definition tiles1 : list Tile := [mkTile KERNEL_HEAP_BASE 4064 true].

Lemma heap1_built : construct KERNEL_HEAP_BASE KERNEL_HEAP_END (fresh_heap boot_frames) = Some ((), heap1).
Proof. vm_compute. reflexivity. Qed.

Lemma heap1_ok : heap_ok heap1 tiles1.
Proof.
  destruct (wp_construct KERNEL_HEAP_BASE KERNEL_HEAP_END boot_frames) as ([] & s & Hs & _ & _ & Hok);
    [exact I|done|reflexivity|unfold KERNEL_HEAP_END, KERNEL_HEAP_BASE, KERNEL_HEAP_SIZE, PAGE_SIZE; lia..|].
  rewrite heap1_built in Hs. injection Hs as <-. destruct Hok as [Hok|[Hhd _]]; [exact Hok|discriminate].
Qed.

Lemma heap_allocate_correct_witness :
  fst <$> allocate 5000 heap1 = Some (Some (KERNEL_HEAP_BASE + 32)) ∧
  wp (allocate 5000) heap1 (λ r s', ∃ l', heap_ok s' l' ∧ match r with
    | Some p => 0 < 5000 ∧ fresh_block heap1 tiles1 s' l' 5000 p
    | None => (∀ q k, in_use l' q k ↔ in_use tiles1 q k) ∧ (5000 = 0 ∨ (∀ t, t ∈ tiles1 → ¬ fits 5000 t) ∧
        (virt_end_ heap1 < brk_ heap1 + (5000 + sizeof_Block + PAGE_SIZE - 1) / PAGE_SIZE * PAGE_SIZE ∨ page_short (env s')))
    end).
Proof.
  split; [vm_compute; reflexivity|]. apply (heap_allocate_correct heap1 tiles1 5000).
  - exact heap1_ok.
  - unfold PAGE_SIZE. lia.
  - cbn. unfold KERNEL_HEAP_END, KERNEL_HEAP_BASE, KERNEL_HEAP_SIZE, PAGE_SIZE. lia.
Defined.

(** The sum in [sbrk] wraps for a request of more than 1.75 GiB: the heap of 16 MiB
    "grows", nothing is mapped, and the caller gets a block. *)
Theorem sbrk_wraps :
  ∃ s', allocate 1879048192 heap1 = Some (Some (KERNEL_HEAP_BASE + 32), s') ∧ env s' = env heap1 ∧ brk_ s' = 8192.
Proof. eexists. split; [vm_compute; reflexivity|]. by split. Qed.
