(* ===== verification/Vmm.v ===== *)
(** * Virtual memory (include/vmm.hpp, include/vmm.cpp)

    Page tables of four levels over physical memory. Physical memory is a map from
    the address of a frame to its 512 entries of 64 bits; it is reached through the
    direct map, an access outside of it is stuck. Physical pages are taken from and
    given back to [FrameAllocator]. The translation buffer of the processor is not
    modelled ([invlpg], [asm_flush_tlb]). *)
From stdpp Require Import gmap.
From S2P Require Import Prelude.

Definition PAGE_SIZE : Z := 4096.
Definition PAGE_MASK : Z := u64 (Z.lnot (PAGE_SIZE - 1)).
Definition DIRECT_MAP_BASE : Z := 0xFFFF800000000000.

(** [enum class PageFlag] *)
Definition Present : Z := 1.
Definition Writable : Z := 2.
Definition User : Z := 4.
Definition HugePage : Z := 128.
Definition NoExecute : Z := Z.shiftl 1 63.
(** [entry & flag] as a condition. *)
Definition has (entry flag : Z) : bool := negb (Z.land entry flag =? 0).

Definition ENTRIES_PER_TABLE : nat := 512.

Definition pml4_index (va : Z) : Z := Z.land (Z.shiftr va 39) 511.
Definition pdpt_index (va : Z) : Z := Z.land (Z.shiftr va 30) 511.
Definition pd_index (va : Z) : Z := Z.land (Z.shiftr va 21) 511.
Definition pt_index (va : Z) : Z := Z.land (Z.shiftr va 12) 511.

(** [PhysicalAddress] is [option Z], [VirtualAddress] a pointer. *)
Definition entry_to_phys (entry : Z) : option Z := Some (Z.land entry 0x000FFFFFFFFFF000).
Definition physical_to_virtual (phys : option Z) : Z :=
  match phys with None => 0 | Some a => u64 (a + DIRECT_MAP_BASE) end.

(** [pmm_ptr->allocate()] and [pmm_ptr->free(page)]. *)
Class FrameAllocator (P : Type) := {
  frame_allocate : M P (option Z);
  frame_free : option Z → M P ();
}.

Record Vmm (P : Type) := mkVmm {
  pml4_phys_ : option Z;
  cr3 : Z;
  frames : gmap Z (list Z);
  pmm : P;
}.
Arguments mkVmm {P}. Arguments pml4_phys_ {P}. Arguments cr3 {P}. Arguments frames {P}. Arguments pmm {P}.

Section Vmm.
Context {P : Type} `{FrameAllocator P}.

Definition set_pml4_phys v (s : Vmm P) := mkVmm v (cr3 s) (frames s) (pmm s).
Definition set_cr3 v (s : Vmm P) := mkVmm (pml4_phys_ s) v (frames s) (pmm s).
Definition set_frames v (s : Vmm P) := mkVmm (pml4_phys_ s) (cr3 s) v (pmm s).
Definition set_pmm (v : P) (s : Vmm P) := mkVmm (pml4_phys_ s) (cr3 s) (frames s) v.

Definition in_pmm {A} (m : M P A) : M (Vmm P) A := zoom pmm set_pmm m.

(** The frame behind a pointer to a table. *)
Definition frame_of (table : Z) : Z := u64 (table - DIRECT_MAP_BASE).
Definition read_table (table : Z) : M (Vmm P) (list Z) :=
  if table =? 0 then stuck else s ← get; defined (frames s !! frame_of table).
Definition write_table (table : Z) (t : list Z) : M (Vmm P) () :=
  _ ← read_table table; modify (λ s, set_frames (<[frame_of table := t]> (frames s)) s).
(** [table[index]] and its assignment. *)
Definition read_entry (table index : Z) : M (Vmm P) Z :=
  t ← read_table table; defined (t !! Z.to_nat index).
Definition write_entry (table index v : Z) : M (Vmm P) () :=
  t ← read_table table; _ ← defined (t !! Z.to_nat index); write_table table (<[Z.to_nat index := v]> t).

(** The constructor, without a console to report to. *)
Definition construct : M (Vmm P) () := modify (λ s, set_pml4_phys (Some (cr3 s)) s).

(** ** Visiting the user pages *)

(** The innermost loop of [for_each_user_page], from entry [k] on. *)
Fixpoint visit_pt (n : nat) (pt i j k : Z) (visitor : Z → Z → M (Vmm P) bool) : M (Vmm P) bool :=
  match n with
  | O => mret true
  | S n =>
      entry ← read_entry pt k;
      if negb (has entry Present) then visit_pt n pt i j (k + 1) visitor
      else if negb (has entry User) then visit_pt n pt i j (k + 1) visitor
      else
        go_on ← visitor (Z.lor (Z.lor (Z.shiftl i 30) (Z.shiftl j 21)) (Z.shiftl k 12)) entry;
        if negb (go_on : bool) then mret false else visit_pt n pt i j (k + 1) visitor
  end.

Fixpoint visit_pd (n : nat) (pd i j : Z) (visitor : Z → Z → M (Vmm P) bool) : M (Vmm P) bool :=
  match n with
  | O => mret true
  | S n =>
      e ← read_entry pd j;
      if negb (has e Present) then visit_pd n pd i (j + 1) visitor
      else
        go_on ← visit_pt ENTRIES_PER_TABLE (physical_to_virtual (entry_to_phys e)) i j 0 visitor;
        if negb (go_on : bool) then mret false else visit_pd n pd i (j + 1) visitor
  end.

Fixpoint visit_pdpt (n : nat) (pdpt i : Z) (visitor : Z → Z → M (Vmm P) bool) : M (Vmm P) bool :=
  match n with
  | O => mret true
  | S n =>
      e ← read_entry pdpt i;
      if negb (has e Present) then visit_pdpt n pdpt (i + 1) visitor
      else
        go_on ← visit_pd ENTRIES_PER_TABLE (physical_to_virtual (entry_to_phys e)) i 0 visitor;
        if negb (go_on : bool) then mret false else visit_pdpt n pdpt (i + 1) visitor
  end.

Definition for_each_user_page (pml4_phys : option Z) (visitor : Z → Z → M (Vmm P) bool) : M (Vmm P) bool :=
  let pml4 := physical_to_virtual pml4_phys in
  if pml4 =? 0 then mret true
  else
    e ← read_entry pml4 0;
    if negb (has e Present) then mret true
    else visit_pdpt ENTRIES_PER_TABLE (physical_to_virtual (entry_to_phys e)) 0 visitor.

(** ** Mapping *)

(** 0 is the null pointer. *)
Definition get_or_create_table (parent_table index flags : Z) : M (Vmm P) Z :=
  e ← read_entry parent_table index;
  if negb (has e Present) then
    new_table_phys ← in_pmm frame_allocate;
    match new_table_phys with
    | None => mret 0
    | Some a =>
        _ ← write_table (physical_to_virtual (Some a)) (replicate ENTRIES_PER_TABLE 0);
        _ ← write_entry parent_table index (Z.lor a flags);
        e ← read_entry parent_table index;
        mret (physical_to_virtual (entry_to_phys e))
    end
  else
    _ ← write_entry parent_table index (Z.lor e (Z.land flags (Z.lor User Writable)));
    e ← read_entry parent_table index;
    mret (physical_to_virtual (entry_to_phys e)).

(** What [map_page] and [map_page_in] do below the table [pml4]. *)
Definition map_below (pml4 va pa table_flags flags : Z) : M (Vmm P) bool :=
  pdpt ← get_or_create_table pml4 (pml4_index va) table_flags;
  if pdpt =? 0 then mret false
  else
    pd ← get_or_create_table pdpt (pdpt_index va) table_flags;
    if pd =? 0 then mret false
    else
      pt ← get_or_create_table pd (pd_index va) table_flags;
      if pt =? 0 then mret false
      else _ ← write_entry pt (pt_index va) (Z.lor (Z.lor (Z.land pa PAGE_MASK) flags) Present); mret true.

Definition map_page (va : Z) (physical_address : option Z) (flags : Z) : M (Vmm P) bool :=
  match physical_address with
  | None => mret false
  | Some pa =>
      s ← get;
      let pml4 := physical_to_virtual (pml4_phys_ s) in
      if pml4 =? 0 then mret false
      else map_below pml4 va pa (Z.lor (Z.lor Present Writable) (Z.land flags User)) flags
  end.

Definition map_page_in (pml4_phys : option Z) (va : Z) (physical_address : option Z) (flags : Z) : M (Vmm P) bool :=
  match physical_address with
  | None => mret false
  | Some pa =>
      let pml4 := physical_to_virtual pml4_phys in
      if pml4 =? 0 then mret false
      else map_below pml4 va pa (Z.lor (Z.lor Present Writable) User) flags
  end.

(** The walk of [unmap_page] and [virtual_to_physical]: the page table for [va]. *)
Definition find_pt (va : Z) : M (Vmm P) (option Z) :=
  s ← get;
  let pml4 := physical_to_virtual (pml4_phys_ s) in
  e ← read_entry pml4 (pml4_index va);
  if negb (has e Present) then mret None
  else
    let pdpt := physical_to_virtual (entry_to_phys e) in
    e ← read_entry pdpt (pdpt_index va);
    if negb (has e Present) then mret None
    else
      let pd := physical_to_virtual (entry_to_phys e) in
      e ← read_entry pd (pd_index va);
      if negb (has e Present) then mret None
      else
        let pt := physical_to_virtual (entry_to_phys e) in
        e ← read_entry pt (pt_index va);
        if negb (has e Present) then mret None else mret (Some pt).

Definition unmap_page (va : Z) : M (Vmm P) bool :=
  pt ← find_pt va;
  match pt with
  | None => mret false
  | Some pt => _ ← write_entry pt (pt_index va) 0; mret true
  end.

Definition virtual_to_physical (va : Z) : M (Vmm P) (option Z) :=
  pt ← find_pt va;
  match pt with
  | None => mret None
  | Some pt =>
      e ← read_entry pt (pt_index va);
      mret (Some (Z.lor (default 0 (entry_to_phys e)) (Z.land va (u64 (Z.lnot PAGE_MASK)))))
  end.

(** ** Address spaces *)

Definition create_address_space : M (Vmm P) (option Z) :=
  new_pml4_phys ← in_pmm frame_allocate;
  match new_pml4_phys with
  | None => mret None
  | Some a =>
      let new_pml4 := physical_to_virtual (Some a) in
      s ← get;
      let current_pml4 := physical_to_virtual (pml4_phys_ s) in
      _ ← write_table new_pml4 (replicate ENTRIES_PER_TABLE 0);
      current ← read_table current_pml4;
      t ← read_table new_pml4;
      _ ← write_table new_pml4 (take 256 t ++ drop 256 current);
      mret (Some a)
  end.

Definition switch_address_space (pml4_phys : option Z) : M (Vmm P) () :=
  match pml4_phys with
  | None => mret ()
  | Some a => modify (λ s, set_cr3 a (set_pml4_phys (Some a) s))
  end.

(** The visitor of [copy_user_pages]. *)
Definition copy (dest_pml4_phys : option Z) (va entry : Z) : M (Vmm P) bool :=
  new_phys ← in_pmm frame_allocate;
  match new_phys with
  | None => mret false
  | Some a =>
      src_page ← read_table (physical_to_virtual (entry_to_phys entry));
      _ ← write_table (physical_to_virtual (Some a)) src_page;
      ok ← map_page_in dest_pml4_phys va (Some a) (Z.land entry 0xFFF);
      if negb (ok : bool) then _ ← in_pmm (frame_free (Some a)); mret false
      else mret true
  end.
Definition copy_user_pages (src_pml4_phys dest_pml4_phys : option Z) : M (Vmm P) bool :=
  copied ← for_each_user_page src_pml4_phys (copy dest_pml4_phys);
  if negb (copied : bool) then mret false else mret true.

(** The visitor of [free_user_pages]. *)
Definition free_page (_ entry : Z) : M (Vmm P) bool :=
  _ ← in_pmm (frame_free (entry_to_phys entry)); mret true.
Definition free_user_pages (pml4_phys : option Z) : M (Vmm P) () :=
  _ ← for_each_user_page pml4_phys free_page; mret ().

(** The loops of [destroy_address_space], over a page directory and over the
    page directory pointers. *)
Fixpoint free_pts (n : nat) (pd j : Z) : M (Vmm P) () :=
  match n with
  | O => mret ()
  | S n =>
      e ← read_entry pd j;
      _ ← (if has e Present then in_pmm (frame_free (entry_to_phys e)) else mret ());
      free_pts n pd (j + 1)
  end.

Fixpoint free_pds (n : nat) (pdpt i : Z) : M (Vmm P) () :=
  match n with
  | O => mret ()
  | S n =>
      e ← read_entry pdpt i;
      _ ← (if has e Present then
             _ ← free_pts ENTRIES_PER_TABLE (physical_to_virtual (entry_to_phys e)) 0;
             in_pmm (frame_free (entry_to_phys e))
           else mret ());
      free_pds n pdpt (i + 1)
  end.

Definition destroy_address_space (pml4_phys : option Z) : M (Vmm P) () :=
  let pml4 := physical_to_virtual pml4_phys in
  if pml4 =? 0 then mret ()
  else
    _ ← free_user_pages pml4_phys;
    e ← read_entry pml4 0;
    _ ← (if has e Present then
           _ ← free_pds ENTRIES_PER_TABLE (physical_to_virtual (entry_to_phys e)) 0;
           in_pmm (frame_free (entry_to_phys e))
         else mret ());
    in_pmm (frame_free pml4_phys).
End Vmm.
