(* ===== verification/VmmSpec.v ===== *)
(** * What the page tables mean

    Who owns which frame: a table or a user page at a place of an address space.
    The tables of an address space form a tree, and no two spaces share a frame of
    their lower half ([vm_ok]). *)
From stdpp Require Import gmap.
From S2P Require Import Prelude Vmm.

(** ** Entries *)
Definition phys (e : Z) : Z := Z.land e 0x000FFFFFFFFFF000.

Lemma has_bit e k : 0 <= k → has e (2 ^ k) = Z.testbit e k.
Proof.
  intros Hk. unfold has. destruct (Z.testbit e k) eqn:Hb.
  - apply negb_true_iff, Z.eqb_neq. intros H0. assert (Z.testbit (Z.land e (2 ^ k)) k = true) as H.
    { rewrite Z.land_spec, Hb, Z.pow2_bits_true by done. done. }
    by rewrite H0, Z.bits_0 in H.
  - apply negb_false_iff, Z.eqb_eq. apply Z.bits_inj'. intros n Hn. rewrite Z.land_spec, Z.bits_0.
    destruct (decide (n = k)) as [->|Hne]; [by rewrite Hb|]. by rewrite Z.pow2_bits_false, andb_false_r.
Qed.
Lemma has_Present e : has e Present = Z.testbit e 0.
Proof. by apply (has_bit e 0). Qed.
Lemma has_User e : has e User = Z.testbit e 2.
Proof. by apply (has_bit e 2). Qed.

Lemma testbit_phys e n : 0 <= n → Z.testbit (phys e) n = Z.testbit e n && (12 <=? n) && (n <? 52).
Proof.
  intros Hn. unfold phys. change 0x000FFFFFFFFFF000 with (Z.shiftl (Z.ones 40) 12). rewrite Z.land_spec, Z.shiftl_spec by done.
  destruct (12 <=? n) eqn:E1; [|rewrite (Z.testbit_neg_r _ (n - 12)) by lia; by rewrite !andb_false_r].
  rewrite Z.testbit_ones by lia. rewrite andb_true_r. f_equal. replace (0 <=? n - 12) with true by lia. cbn. lia.
Qed.

Lemma aligned_low a n : a `mod` 4096 = 0 → 0 <= n < 12 → Z.testbit a n = false.
Proof.
  intros Ha Hn. rewrite (Z.div_mod a 4096), Ha, Z.add_0_r, Z.mul_comm by lia. change 4096 with (2 ^ 12).
  apply Z.mul_pow2_bits_low. lia.
Qed.
Lemma small_high a m n : 0 <= a < 2 ^ m → 0 <= m <= n → Z.testbit a n = false.
Proof. intros Ha Hn. rewrite <- (Z.mod_small a (2 ^ m)) by done. apply Z.mod_pow2_bits_high. lia. Qed.

(** Flags do not touch the address bits. *)
Definition flags_ok (flags : Z) : Prop := phys flags = 0.

Lemma phys_or a b : phys (Z.lor a b) = Z.lor (phys a) (phys b).
Proof. apply Z.land_lor_distr_l. Qed.
Lemma phys_frame a : a `mod` 4096 = 0 → 0 <= a < 2 ^ 52 → phys a = a.
Proof.
  intros Ha Hr. apply Z.bits_inj'. intros n Hn. rewrite testbit_phys by done.
  destruct (decide (n < 12)); [rewrite aligned_low by lia; done|]. destruct (decide (52 <= n)).
  - by rewrite (small_high a 52) by lia.
  - replace (12 <=? n) with true by lia. replace (n <? 52) with true by lia. by rewrite !andb_true_r.
Qed.
Lemma phys_entry a flags : a `mod` 4096 = 0 → 0 <= a < 2 ^ 52 → flags_ok flags → phys (Z.lor a flags) = a.
Proof. intros Ha Hr Hf. rewrite phys_or, phys_frame, Hf by done. apply Z.lor_0_r. Qed.
Lemma flags_or f g : flags_ok f → flags_ok g → flags_ok (Z.lor f g).
Proof. unfold flags_ok. rewrite phys_or. by intros -> ->. Qed.
Lemma flags_and f g : flags_ok g → flags_ok (Z.land f g).
Proof. unfold flags_ok, phys. rewrite <- Z.land_assoc. intros ->. apply Z.land_0_r. Qed.

(** ** Frames *)

(** Physical memory that the direct map reaches: below 128 TiB. *)
Definition frame_ok (m : gmap Z (list Z)) (f : Z) : Prop :=
  f `mod` 4096 = 0 ∧ 0 <= f < 2 ^ 47 ∧ ∃ t, m !! f = Some t ∧ length t = ENTRIES_PER_TABLE.

Lemma pointer_nonzero f : 0 <= f < 2 ^ 47 → (physical_to_virtual (Some f) =? 0) = false.
Proof. intros Hf. unfold physical_to_virtual, DIRECT_MAP_BASE. rewrite u64_small; lia. Qed.
Lemma pointer_frame f : 0 <= f < 2 ^ 47 → frame_of (physical_to_virtual (Some f)) = f.
Proof. intros Hf. unfold frame_of, physical_to_virtual, DIRECT_MAP_BASE. rewrite (u64_small (f + _)) by lia. rewrite u64_small; lia. Qed.

(** The contract of the allocator of frames. *)
Class FrameAllocatorSpec (P : Type) `{FrameAllocator P} := {
  alloc_ok : P → Prop;
  managed : P → Z → Prop;
  available : P → Z → Prop;
  frame_allocate_spec p : alloc_ok p → wp frame_allocate p (λ r p', alloc_ok p' ∧ (∀ x, managed p' x ↔ managed p x) ∧
    match r with
    | Some a => managed p a ∧ available p a ∧ ∀ x, available p' x ↔ available p x ∧ x ≠ a
    | None => (∀ x, available p' x ↔ available p x) ∧ ∀ x, ¬ available p x
    end);
  frame_free_spec p a : alloc_ok p → managed p a → ¬ available p a → wp (frame_free (Some a)) p (λ _ p',
    alloc_ok p' ∧ (∀ x, managed p' x ↔ managed p x) ∧ ∀ x, available p' x ↔ available p x ∨ x = a);
}.

(** What user code gets at an address, by the walk of the processor from the table
    [root] over four levels: present entries with [User] on the way and at the end.
    The answer is the frame, and whether every entry allows writing. *)
Definition level_index (k va : Z) : nat := Z.to_nat ((va / 2 ^ (12 + 9 * k)) `mod` 512).
Definition user_entry (m : gmap Z (list Z)) (table : Z) (i : nat) : option Z :=
  t ← m !! table; e ← t !! i; if has e Present && has e User then Some e else None.
Definition user_walk (m : gmap Z (list Z)) (root va : Z) : option (Z * bool) :=
  e3 ← user_entry m root (level_index 3 va);
  e2 ← user_entry m (phys e3) (level_index 2 va);
  e1 ← user_entry m (phys e2) (level_index 1 va);
  e0 ← user_entry m (phys e1) (level_index 0 va);
  Some (phys e0, has e3 Writable && has e2 Writable && has e1 Writable && has e0 Writable).

(** The entry [e'] is for the same frame as [e] and allows no less. *)
Definition wider (e e' : Z) : Prop :=
  phys e' = phys e ∧ (has e User = true → has e' User = true) ∧ (has e Writable = true → has e' Writable = true).
Lemma wider_refl e : wider e e.
Proof. done. Qed.
Lemma wider_trans e1 e2 e3 : wider e1 e2 → wider e2 e3 → wider e1 e3.
Proof. intros (H1 & H2 & H3) (H4 & H5 & H6). split; [congruence|auto]. Qed.

(** What a frame is for: the table reached from the root of an address space by a
    path of indexes, or the user page at the end of such a path. *)
Inductive Role := Table (root : Z) (path : list nat) | Page (root : Z) (path : list nat).
#[export] Instance Role_eq_dec : EqDecision Role.
Proof. solve_decision. Defined.
Definition root_of (r : Role) : Z := match r with Table root _ | Page root _ => root end.

(** The role of the frame a present entry refers to, where there is one: the upper
    half of a root and entries without [User] refer to memory of the kernel. *)
Definition child_role (root : Z) (p : list nat) (i : nat) (e : Z) : option Role :=
  match length p with
  | 0%nat => if decide (i = 0%nat) then Some (Table root [0%nat]) else None
  | 1%nat | 2%nat => Some (Table root (p ++ [i]))
  | 3%nat => if has e User then Some (Page root (p ++ [i])) else None
  | _ => None
  end.

Abbreviation Owners := (gmap Z Role).
Implicit Types (own : Owners) (m : gmap Z (list Z)).

(** Entry [i] of the table [f]. *)
Definition entry_at m (f : Z) (i : nat) : option Z := t ← m !! f; t !! i.
Lemma entry_at_eq m f t i : entry_at (<[f := t]> m) f i = t !! i.
Proof. unfold entry_at. by rewrite lookup_insert_eq. Qed.
Lemma entry_at_ne m f g t i : f ≠ g → entry_at (<[f := t]> m) g i = entry_at m g i.
Proof. intros Hne. unfold entry_at. by rewrite lookup_insert_ne. Qed.
Lemma entry_at_Some m f t i : m !! f = Some t → entry_at m f i = t !! i.
Proof. intros Ht. unfold entry_at. by rewrite Ht. Qed.

(** The present entry [i] of the table for [p]. *)
Definition slot m own root p i e : Prop :=
  ∃ f, own !! f = Some (Table root p) ∧ entry_at m f i = Some e ∧ has e Present = true.

Record tables_ok m own : Prop := {
  to_child root p i e r : slot m own root p i e → child_role root p i e = Some r → own !! phys e = Some r;
  to_parent f r : own !! f = Some r →
    (r = Table f []) ∨ ∃ p i e, slot m own (root_of r) p i e ∧ child_role (root_of r) p i e = Some r ∧ phys e = f;
}.

Section vmm.
Context {P : Type} `{HP : FrameAllocator P} `{HS : !FrameAllocatorSpec P}.
Implicit Types (s : Vmm P).

Record vm_ok s own : Prop := {
  vo_alloc : alloc_ok (pmm s);
  vo_available f : available (pmm s) f → frame_ok (frames s) f ∧ own !! f = None;
  vo_owned f r : own !! f = Some r → frame_ok (frames s) f ∧ managed (pmm s) f ∧ ¬ available (pmm s) f;
  vo_tables : tables_ok (frames s) own;
}.
End vmm.

(** ** One frame per role *)

Lemma child_role_length root p i e r : child_role root p i e = Some r →
  (length p <= 3)%nat ∧ (r = Table root (p ++ [i]) ∧ (length p <= 2)%nat ∨ r = Page root (p ++ [i]) ∧ length p = 3%nat).
Proof.
  unfold child_role. destruct p as [|a [|b [|c [|d p]]]]; cbn.
  - destruct (decide _) as [->|]; [|done]. intros [= <-]. split; [lia|]. left. split; [done|lia].
  - intros [= <-]. split; [lia|]. left. split; [done|lia].
  - intros [= <-]. split; [lia|]. left. split; [done|lia].
  - destruct (has e User); [|done]. intros [= <-]. split; [lia|]. by right.
  - done.
Qed.

Lemma role_unique_table m own root p f g :
  tables_ok m own → own !! f = Some (Table root p) → own !! g = Some (Table root p) → f = g.
Proof.
  intros [Hc Hp]. revert f g. induction p as [|i p IH] using rev_ind; intros f g Hf Hg.
  - destruct (Hp f _ Hf) as [[= ->]|(p & i & e & _ & Hr & _)]; destruct (Hp g _ Hg) as [[= ->]|(p' & i' & e' & _ & Hr' & _)]; try done.
    all: apply child_role_length in Hr as [_ [[Hr _]|[Hr _]]] || apply child_role_length in Hr' as [_ [[Hr' _]|[Hr' _]]].
    all: try done; try (injection Hr as Hr; by destruct p); try (injection Hr' as Hr'; by destruct p').
  - destruct (Hp f _ Hf) as [[= _ Hx]|(q & j & e & (f1 & Hf1 & He & _) & Hr & <-)]; [by destruct p|].
    destruct (Hp g _ Hg) as [[= _ Hx]|(q' & j' & e' & (g1 & Hg1 & He' & _) & Hr' & <-)]; [by destruct p|].
    apply child_role_length in Hr as [_ [[Hr _]|[Hr _]]]; [|done]. apply child_role_length in Hr' as [_ [[Hr' _]|[Hr' _]]]; [|done].
    injection Hr as Hr. injection Hr' as Hr'. cbn in Hf1, Hg1. apply app_inj_tail in Hr as [<- <-]. apply app_inj_tail in Hr' as [<- <-].
    rewrite (IH _ _ Hf1 Hg1), He' in He. by injection He as ->.
Qed.

Lemma slot_fun m own root p i e e' : tables_ok m own → slot m own root p i e → slot m own root p i e' → e = e'.
Proof.
  intros Hok (f & Hf & He & _) (g & Hg & He' & _). rewrite (role_unique_table _ _ _ _ _ _ Hok Hf Hg), He' in He. by injection He.
Qed.

(** A table other than a root hangs in an entry. *)
Lemma table_parent m own root p i f : tables_ok m own → own !! f = Some (Table root (p ++ [i])) →
  ∃ g e, own !! g = Some (Table root p) ∧ entry_at m g i = Some e ∧ has e Present = true ∧ phys e = f.
Proof.
  intros [_ Hp] Hf. destruct (Hp f _ Hf) as [[= _ Hx]|(q & j & e & (g & Hg & He & Hep) & Hr & Hph)]; [by destruct p|].
  apply child_role_length in Hr as [_ [[Hr _]|[Hr _]]]; [|done]. injection Hr as Hr. apply app_inj_tail in Hr as [<- <-].
  by exists g, e.
Qed.

(** ** Access by user code *)

(** The entries on the way to the table for [q] let user code through. *)
Definition open_path m own root (q : list nat) : Prop :=
  ∀ p i rest, q = p ++ i :: rest → ∃ e, slot m own root p i e ∧ has e User = true ∧ has e Writable = true.

Lemma open_path_snoc m own root p i e :
  open_path m own root p → slot m own root p i e → has e User = true → has e Writable = true → open_path m own root (p ++ [i]).
Proof.
  intros Hp He Hu Hw q j rest Hq. destruct rest as [|k rest] using rev_ind.
  - apply app_inj_tail in Hq as [<- <-]. by exists e.
  - rewrite app_comm_cons, app_assoc in Hq. apply app_inj_tail in Hq as [Hq _]. by eapply Hp.
Qed.

(** No entry of an upper table has lost anything. *)
Definition widened_slots m own m' own' : Prop :=
  ∀ r q j x, (length q <= 2)%nat → slot m own r q j x → ∃ x', slot m' own' r q j x' ∧ wider x x'.

Lemma widened_trans m1 own1 m2 own2 m3 own3 :
  widened_slots m1 own1 m2 own2 → widened_slots m2 own2 m3 own3 → widened_slots m1 own1 m3 own3.
Proof.
  intros H12 H23 r q j x Hq Hx. destruct (H12 r q j x Hq Hx) as (y & Hy & Hxy). destruct (H23 r q j y Hq Hy) as (z & Hz & Hyz).
  exists z. split; [done|]. by eapply wider_trans.
Qed.

Lemma open_path_widened m own m' own' root q :
  widened_slots m own m' own' → (length q <= 3)%nat → open_path m own root q → open_path m' own' root q.
Proof.
  intros Hw Hl Ho p i rest ->. destruct (Ho p i rest eq_refl) as (e & He & Hu & Hwr). rewrite length_app in Hl. cbn in Hl.
  destruct (Hw root p i e ltac:(lia) He) as (e' & He' & _ & H1 & H2). exists e'. auto.
Qed.

(** ** Changes of one entry *)

(** Entries that stay when something below another entry is mapped: those of the last
    tables, and the upper entries of the roots. *)
Definition lasting (q : list nat) (j : nat) : Prop := length q = 3%nat ∨ q = [] ∧ j ≠ 0%nat.
Lemma lasting_path (root root' : Z) q j p i : lasting q j → (length p <= 2)%nat → (p = [] → i = 0%nat) → (root, q, j) ≠ (root', p, i).
Proof. intros [Hq|[-> Hj]] Hp H0 Hd; injection Hd as _ Hd1 Hd2; [subst; lia|]. symmetry in Hd1. by rewrite (H0 Hd1) in Hd2. Qed.

(** The entries of all tables stay, except entry [i] of the table for [p]. *)
Definition slots_change m own m' own' root p i (o : option Z) : Prop :=
  ∀ r q j x, slot m' own' r q j x ↔ if decide ((r, q, j) = (root, p, i)) then o = Some x else slot m own r q j x.
Definition same_slots m own m' own' : Prop := ∀ r q j x, slot m' own' r q j x ↔ slot m own r q j x.

Lemma same_widened m own m' own' : same_slots m own m' own' → widened_slots m own m' own'.
Proof. intros Hs r q j x _ Hx. exists x. split; [by apply Hs|apply wider_refl]. Qed.

(** Replacing an entry by a wider one; writing where there was none, or in a last
    table. *)
Lemma change_widened m own m' own' root p i e e' :
  tables_ok m own → slots_change m own m' own' root p i (Some e') → slot m own root p i e → wider e e' → widened_slots m own m' own'.
Proof.
  intros Hok Hch He Hw r q j x _ Hx. destruct (decide ((r, q, j) = (root, p, i))) as [Hd|Hd].
  - injection Hd as -> -> ->. rewrite (slot_fun _ _ _ _ _ _ _ Hok Hx He). exists e'. split; [|done]. apply Hch. by rewrite decide_True.
  - exists x. split; [|apply wider_refl]. apply Hch. by rewrite decide_False.
Qed.
Lemma new_widened m own m' own' root p i o :
  slots_change m own m' own' root p i o → (length p = 3%nat ∨ ∀ x, ¬ slot m own root p i x) → widened_slots m own m' own'.
Proof.
  intros Hch Hnone r q j x Hq Hx. exists x. split; [|apply wider_refl]. apply Hch. rewrite decide_False; [done|].
  intros Hd. injection Hd as -> -> ->. destruct Hnone as [Hl|Hno]; [lia|by apply (Hno x)].
Qed.

Lemma slots_change_same m own m1 own1 m' own' root p i o :
  same_slots m own m1 own1 → slots_change m1 own1 m' own' root p i o → slots_change m own m' own' root p i o.
Proof. intros Hs Hc r q j x. etrans; [apply Hc|]. by case_decide. Qed.

Lemma slots_same_frames m own m' : (∀ f r p, own !! f = Some (Table r p) → m' !! f = m !! f) → same_slots m own m' own.
Proof.
  intros Hf r q j x. unfold slot, entry_at. split; intros (f & Ho & He & Hp); exists f; (split; [done|]); (split; [|done]).
  - by rewrite <- (Hf f r q Ho).
  - by rewrite (Hf f r q Ho).
Qed.

(** A frame gets an owner, as a page or as an empty table. *)
Lemma slots_new_owner m own a ro :
  own !! a = None → (∀ r p i e, ro = Table r p → entry_at m a i = Some e → has e Present = false) → same_slots m own m (<[a := ro]> own).
Proof.
  intros Ha Hz r q j x. split; intros (f & Ho & He & Hp); exists f.
  - destruct (decide (f = a)) as [->|Hne]; [|by rewrite lookup_insert_ne in Ho].
    rewrite lookup_insert_eq in Ho. injection Ho as Ho. rewrite (Hz _ _ _ _ Ho He) in Hp. done.
  - split; [|done]. rewrite lookup_insert_ne; [done|]. intros ->. congruence.
Qed.

Lemma slot_write m own f t root p i e :
  own !! f = Some (Table root p) → (∀ g, own !! g = Some (Table root p) → g = f) → m !! f = Some t → (i < length t)%nat →
  slots_change m own (<[f := <[i := e]> t]> m) own root p i (if has e Present then Some e else None).
Proof.
  intros Hf Hu Ht Hi r q j x. case_decide as Hd; [simplify_eq|].
  - split.
    + intros (g & Hg & He & Hp). rewrite (Hu g Hg) in He. unfold entry_at in He. rewrite lookup_insert_eq in He. cbn in He.
      rewrite list_lookup_insert_eq in He by done. injection He as <-. by rewrite Hp.
    + destruct (has e Present) eqn:Ep; [intros [= <-]|done]. exists f. split; [done|]. split; [|done].
      unfold entry_at. rewrite lookup_insert_eq. cbn. by apply list_lookup_insert_eq.
  - assert (∀ g, own !! g = Some (Table r q) → entry_at (<[f := <[i := e]> t]> m) g j = entry_at m g j) as Hsame.
    { intros g Hg. unfold entry_at. destruct (decide (g = f)) as [->|]; [|by rewrite lookup_insert_ne].
      rewrite lookup_insert_eq, Ht. cbn. rewrite Hf in Hg. injection Hg as <- <-. apply list_lookup_insert_ne. congruence. }
    split; intros (g & Hg & He & Hp); exists g; (split; [done|]); (split; [|done]); [by rewrite <- Hsame|by rewrite Hsame].
Qed.

Lemma tables_same m own m' own' : tables_ok m own → same_slots m own m' own' → own' = own → tables_ok m' own'.
Proof.
  intros [Hc Hp] Hs ->. split.
  - intros root p i e r Hsl. apply Hc. by apply Hs.
  - intros f r Hf. destruct (Hp f r Hf) as [|(p & i & e & H1 & H2)]; [by left|right]. exists p, i, e. split; [by apply Hs|done].
Qed.

Lemma tables_replace m own m' root p i e e' :
  tables_ok m own → slots_change m own m' own root p i (Some e') → slot m own root p i e → phys e' = phys e →
  child_role root p i e' = child_role root p i e → tables_ok m' own.
Proof.
  intros Hok Hch He Hph Hcr. pose proof Hok as [Hc Hp]. split.
  - intros r q j x ro Hsl Hro. apply Hch in Hsl. case_decide as Hd; [|by eapply Hc].
    simplify_eq. rewrite Hph. eapply Hc; [exact He|congruence].
  - intros f r Hf. destruct (Hp f r Hf) as [|(q & j & x & H1 & H2 & H3)]; [by left|right].
    destruct (decide ((root_of r, q, j) = (root, p, i))) as [Hd|Hd].
    + injection Hd as Hr -> ->. exists p, i, e'. rewrite Hr in *. rewrite (slot_fun _ _ _ _ _ _ _ Hok H1 He) in *.
      split; [apply Hch; by rewrite decide_True|]. split; congruence.
    + exists q, j, x. split; [apply Hch; by rewrite decide_False|done].
Qed.

(** A frame without owner becomes the child of an entry that had none. *)
Lemma tables_add m own m' root p i a e ro :
  tables_ok m own → slots_change m own m' (<[a := ro]> own) root p i (Some e) → own !! a = None →
  (∀ x, slot m own root p i x → child_role root p i x = None) → child_role root p i e = Some ro → phys e = a →
  tables_ok m' (<[a := ro]> own).
Proof.
  intros Hok Hch Ha Hold Hcr Hph. pose proof Hok as [Hc Hp].
  assert (root_of ro = root) as Hroot by (apply child_role_length in Hcr as [_ [[-> _]|[-> _]]]; done). split.
  - intros r q j x ro' Hsl Hro. apply Hch in Hsl. case_decide as Hd.
    + simplify_eq. by rewrite lookup_insert_eq.
    + pose proof (Hc _ _ _ _ _ Hsl Hro) as Ho. rewrite lookup_insert_ne; [done|]. intros ->. congruence.
  - intros f r Hf. destruct (decide (f = a)) as [->|Hne].
    + rewrite lookup_insert_eq in Hf. injection Hf as <-. right. exists p, i, e. rewrite Hroot.
      split; [apply Hch; by rewrite decide_True|done].
    + rewrite lookup_insert_ne in Hf by done. destruct (Hp f r Hf) as [|(q & j & x & H1 & H2 & H3)]; [by left|right].
      exists q, j, x. split; [|done]. apply Hch. rewrite decide_False; [done|]. intros Hd. injection Hd as Hr -> ->. rewrite Hr in *.
      rewrite (Hold x H1) in H2. done.
Qed.
