(* ===== verification/VmmMap.v ===== *)
(** * Mapping a page

    [get_or_create_table] and [map_below] extend the tree of an address space: the
    mapping asked for appears, every other mapping of every address space stays. *)
From stdpp Require Import gmap.
From S2P Require Import Prelude Vmm VmmSpec.

Section vmm.
Context {P : Type} `{HP : FrameAllocator P} `{HS : !FrameAllocatorSpec P}.
Implicit Types (s : Vmm P) (own : Owners) (m : gmap Z (list Z)).

(** ** Steps *)
Lemma wp_read_table f t s (Q : list Z → Vmm P → Prop) :
  0 <= f < 2 ^ 47 → frames s !! f = Some t → Q t s → wp (read_table (physical_to_virtual (Some f))) s Q.
Proof.
  intros Hf Ht HQ. unfold read_table. rewrite pointer_nonzero, pointer_frame by done. do 2 wp_step. by eapply wp_defined.
Qed.
Lemma wp_write_table f t t' s (Q : () → Vmm P → Prop) :
  0 <= f < 2 ^ 47 → frames s !! f = Some t → Q () (set_frames (<[f := t']> (frames s)) s) →
  wp (write_table (physical_to_virtual (Some f)) t') s Q.
Proof.
  intros Hf Ht HQ. unfold write_table. wp_step. eapply wp_read_table; [done|exact Ht|]. wp_step. by rewrite pointer_frame.
Qed.
Lemma wp_read_pte f i e s (Q : Z → Vmm P → Prop) :
  0 <= f < 2 ^ 47 → entry_at (frames s) f (Z.to_nat i) = Some e → Q e s → wp (read_entry (physical_to_virtual (Some f)) i) s Q.
Proof.
  intros Hf He HQ. unfold entry_at in He. apply bind_Some in He as (t & Ht & He). unfold read_entry.
  wp_step. eapply wp_read_table; [done|exact Ht|]. by eapply wp_defined.
Qed.
Lemma wp_write_pte f t i v s (Q : () → Vmm P → Prop) :
  0 <= f < 2 ^ 47 → frames s !! f = Some t → (Z.to_nat i < length t)%nat →
  Q () (set_frames (<[f := <[Z.to_nat i := v]> t]> (frames s)) s) → wp (write_entry (physical_to_virtual (Some f)) i v) s Q.
Proof.
  intros Hf Ht Hi HQ. unfold write_entry. wp_step. eapply wp_read_table; [done|exact Ht|]. wp_step.
  apply lookup_lt_is_Some_2 in Hi as [e He]. eapply wp_defined; [exact He|]. by eapply wp_write_table.
Qed.

(** ** Extending an address space *)

(** Tables may be added below [root]; no mapping changes. *)
Record extends (root : Z) s own s' own' : Prop := {
  ex_ok : vm_ok s' own';
  ex_own f r : own !! f = Some r → own' !! f = Some r;
  ex_new f r : own' !! f = Some r → own !! f = Some r ∨ available (pmm s) f ∧ ∃ p, r = Table root p;
  ex_avail f : available (pmm s') f ↔ available (pmm s) f ∧ own' !! f = None;
  ex_managed f : managed (pmm s') f ↔ managed (pmm s) f;
  ex_mem f : ¬ available (pmm s) f → (∀ p, own !! f ≠ Some (Table root p)) → frames s' !! f = frames s !! f;
  ex_frame f : frame_ok (frames s) f → frame_ok (frames s') f;
  ex_leaf r q j x : lasting q j → slot (frames s') own' r q j x ↔ slot (frames s) own r q j x;
  ex_wide : widened_slots (frames s) own (frames s') own';
  ex_regs : pml4_phys_ s' = pml4_phys_ s ∧ cr3 s' = cr3 s;
}.

Lemma extends_refl root s own : vm_ok s own → extends root s own s own.
Proof.
  intros Hok. split; try done; [by left| |by apply same_widened]. intros f. split; [|tauto]. intros Hf. split; [done|]. by eapply vo_available.
Qed.

Lemma extends_trans root s1 own1 s2 own2 s3 own3 :
  extends root s1 own1 s2 own2 → extends root s2 own2 s3 own3 → extends root s1 own1 s3 own3.
Proof.
  intros [A1 A2 A3 A4 A5 A6 A7 A8 AW A9] [B1 B2 B3 B4 B5 B6 B7 B8 BW B9]. split.
  - done.
  - auto.
  - intros f r [Hf|[Hf Hp]]%B3; [by apply A3|right]. apply A4 in Hf as [Hf _]. done.
  - intros f. rewrite B4, A4. split; [tauto|]. intros [H1 H2]. split; [|done]. split; [done|].
    destruct (own2 !! f) eqn:E; [|done]. apply B2 in E. congruence.
  - intros f. by rewrite B5.
  - intros f Hav Hno. rewrite B6; [by apply A6|by rewrite A4; intros []|]. intros p Hp. apply A3 in Hp as [Hp|[Hp _]]; [by apply (Hno p)|done].
  - auto.
  - intros r q j x Hq. by rewrite B8, A8.
  - by eapply widened_trans.
  - destruct A9, B9. split; congruence.
Qed.

Lemma owned_frame s own f r : vm_ok s own → own !! f = Some r → 0 <= f < 2 ^ 47 ∧ f `mod` 4096 = 0 ∧ ∃ t, frames s !! f = Some t ∧ length t = ENTRIES_PER_TABLE.
Proof. intros Hok Hf. destruct (vo_owned _ _ Hok f r Hf) as [(H1 & H2 & H3) _]. done. Qed.

Lemma frame_ok_insert m f a t : frame_ok m f → (a = f → length t = ENTRIES_PER_TABLE) → frame_ok (<[a := t]> m) f.
Proof.
  intros (H1 & H2 & t0 & Ht & Hl) Ha. split; [done|]. split; [done|]. destruct (decide (a = f)) as [->|Hne].
  - exists t. rewrite lookup_insert_eq. auto.
  - exists t0. by rewrite lookup_insert_ne.
Qed.

Lemma child_table root p i e : (length p <= 2)%nat → (p = [] → i = 0%nat) → child_role root p i e = Some (Table root (p ++ [i])).
Proof.
  intros Hl H0. unfold child_role. destruct p as [|a [|b [|c p]]]; cbn in *; [|done..|lia].
  by rewrite (H0 eq_refl), decide_True.
Qed.

Lemma has_Writable e : has e Writable = Z.testbit e 1.
Proof. by apply (has_bit e 1). Qed.
Lemma lor_wider e f : (has e User = true → has (Z.lor e f) User = true) ∧ (has e Writable = true → has (Z.lor e f) Writable = true).
Proof. rewrite !has_User, !has_Writable, !Z.lor_spec. split; intros ->; done. Qed.
Lemma opened_entry e flags : has flags User = true → has flags Writable = true →
  has (Z.lor e (Z.land flags (Z.lor User Writable))) User = true ∧ has (Z.lor e (Z.land flags (Z.lor User Writable))) Writable = true.
Proof.
  rewrite !has_User, !has_Writable. intros Hu Hw. rewrite !Z.lor_spec, !Z.land_spec, Hu, Hw. cbn. by rewrite !orb_true_r.
Qed.

(** Setting [User] and [Writable] in the entry of a table. *)
Lemma wp_widen s own root p f i e t flags (Q : () → Vmm P → Prop) :
  vm_ok s own → own !! f = Some (Table root p) → (length p <= 2)%nat → (p = [] → Z.to_nat i = 0%nat) → frames s !! f = Some t → t !! Z.to_nat i = Some e →
  has e Present = true → let e' := Z.lor e (Z.land flags (Z.lor User Writable)) in
  (∀ s', extends root s own s' own → entry_at (frames s') f (Z.to_nat i) = Some e' → has e' Present = true → Q () s') →
  wp (write_entry (physical_to_virtual (Some f)) i e') s Q.
Proof.
  intros Hok Hf Hl H0 Ht Hi Hp e' HQ. destruct (owned_frame _ _ _ _ Hok Hf) as (Hr & _ & t0 & Ht0 & Hlen).
  rewrite Ht in Ht0. injection Ht0 as <-. pose proof (lookup_lt_Some _ _ _ Hi) as Hlt.
  assert (phys e' = phys e) as Hph.
  { unfold e'. rewrite phys_or. assert (phys (Z.land flags (Z.lor User Writable)) = 0) as ->; [|apply Z.lor_0_r].
    by apply flags_and. }
  assert (has e' Present = true) as Hp' by (rewrite has_Present in *; unfold e'; by rewrite Z.lor_spec, Hp).
  assert (slots_change (frames s) own (<[f := <[Z.to_nat i := e']> t]> (frames s)) own root p (Z.to_nat i) (Some e')) as Hch.
  { pose proof (slot_write (frames s) own f t root p (Z.to_nat i) e') as H. rewrite Hp' in H. apply H; [done| |done|done].
    intros g Hg. by eapply role_unique_table; [apply (vo_tables _ _ Hok)| |]. }
  eapply wp_write_pte; [done|exact Ht|done|]. apply HQ; [|cbn; rewrite entry_at_eq; by apply list_lookup_insert_eq|done].
  destruct Hok as [H1 H2 H3 H4].
  assert (∀ g, frame_ok (frames s) g → frame_ok (<[f := <[Z.to_nat i := e']> t]> (frames s)) g) as Hfr.
  { intros g Hg. apply frame_ok_insert; [done|]. intros _. by rewrite length_insert. }
  split; try done; cbn.
  - split; cbn; [done|intros g Hg; split; [by apply Hfr, H2|by apply H2]|intros g r Hg; split; [by eapply Hfr, H3|by eapply H3]|].
    eapply tables_replace; [exact H4|exact Hch| |exact Hph|].
    + exists f. split; [done|]. split; [|exact Hp]. unfold entry_at. by rewrite Ht.
    + unfold child_role. destruct (length p) as [|[|[|n]]] eqn:El; try done. lia.
  - by left.
  - intros g. split; [intros Hg; split; [done|by apply H2]|tauto].
  - intros g _ Hno. apply lookup_insert_ne. intros <-. by apply (Hno p).
  - intros r q j x Hq. rewrite (Hch r q j x). rewrite decide_False; [done|]. by apply lasting_path.
  - eapply change_widened; [exact H4|exact Hch| |split; [exact Hph|apply lor_wider]].
    exists f. split; [done|]. by rewrite (entry_at_Some _ _ _ _ Ht).
Qed.

(** Adding an empty table. *)
Lemma extends_grow s own root p f i e t flags a p' :
  vm_ok s own → own !! f = Some (Table root p) → (length p <= 2)%nat → (p = [] → i = 0%nat) → flags_ok flags → has flags Present = true →
  frames s !! f = Some t → t !! i = Some e → has e Present = false →
  alloc_ok p' → (∀ x, managed p' x ↔ managed (pmm s) x) → managed (pmm s) a → available (pmm s) a →
  (∀ x, available p' x ↔ available (pmm s) x ∧ x ≠ a) →
  extends root s own (set_frames (<[f := <[i := Z.lor a flags]> t]> (<[a := replicate ENTRIES_PER_TABLE 0]> (frames s))) (set_pmm p' s))
    (<[a := Table root (p ++ [i])]> own).
Proof.
  intros Hok Hf Hl H0 Hfl Hflp Ht He Hep Hal Hman Hma Hav Hav'. set (e' := Z.lor a flags). set (own' := <[a := _]> own).
  set (m1 := <[a := replicate ENTRIES_PER_TABLE 0]> (frames s)).
  destruct (vo_available _ _ Hok a Hav) as [(Ham & Har & ta & Hta & Hla) Hao].
  destruct (owned_frame _ _ _ _ Hok Hf) as (Hr & _ & t0 & Ht0 & Hlen). rewrite Ht in Ht0. injection Ht0 as <-.
  assert (f ≠ a) as Hfa by congruence. assert (phys e' = a) as Hph by (apply phys_entry; [done|lia|done]).
  assert (has e' Present = true) as Hp' by (rewrite has_Present in *; unfold e'; by rewrite Z.lor_spec, Hflp, orb_true_r).
  assert (same_slots (frames s) own m1 own') as Hsame.
  { intros r q j x. etrans; [apply slots_new_owner; [done|]|].
    - intros r' p0 j' e0 _ Hz. unfold m1 in Hz. rewrite entry_at_eq in Hz. by apply lookup_replicate_1 in Hz as [-> _].
    - apply slots_same_frames. intros g r' q' Hg. apply lookup_insert_ne. congruence. }
  assert (slots_change (frames s) own (<[f := <[i := e']> t]> m1) own' root p i (Some e')) as Hch.
  { eapply slots_change_same; [exact Hsame|]. pose proof (slot_write m1 own' f t root p i e') as H. rewrite Hp' in H. apply H.
    - unfold own'. by rewrite lookup_insert_ne.
    - intros g Hg. unfold own' in Hg. destruct (decide (g = a)) as [->|Hne].
      + rewrite lookup_insert_eq in Hg. injection Hg as Hg. by apply app_cons_not_nil in Hg || (exfalso; apply (f_equal length) in Hg; rewrite length_app in Hg; cbn in Hg; lia).
      + rewrite lookup_insert_ne in Hg by done. by eapply role_unique_table; [apply (vo_tables _ _ Hok)| |].
    - unfold m1. by rewrite lookup_insert_ne.
    - by eapply lookup_lt_Some. }
  assert (∀ g, frame_ok (frames s) g → frame_ok (<[f := <[i := e']> t]> m1) g) as Hfr.
  { intros g Hg. apply frame_ok_insert; [|intros _; by rewrite length_insert]. by apply frame_ok_insert. }
  destruct Hok as [H1 H2 H3 H4]. split; try done; cbn.
  - split; cbn; [done|intros g [Hg Hga]%Hav'|intros g r Hg|].
    + split; [by apply Hfr, H2|]. unfold own'. rewrite lookup_insert_ne by done. by apply H2.
    + unfold own' in Hg. rewrite Hav', Hman. destruct (decide (g = a)) as [->|Hne].
      * split; [by apply Hfr, H2|]. split; [done|]. tauto.
      * rewrite lookup_insert_ne in Hg by done. destruct (H3 g r Hg) as (H5 & H6 & H7). split; [by apply Hfr|]. tauto.
    + eapply tables_add; [exact H4|exact Hch|done| |by apply child_table|done].
      intros x (g & Hg & Hx & Hxp). exfalso. rewrite (role_unique_table _ _ _ _ _ _ H4 Hg Hf) in Hx. unfold entry_at in Hx.
      rewrite Ht in Hx. cbn in Hx. congruence.
  - intros g r Hg. unfold own'. rewrite lookup_insert_ne; [done|congruence].
  - intros g r Hg. unfold own' in Hg. destruct (decide (g = a)) as [->|Hne].
    + right. split; [done|]. rewrite lookup_insert_eq in Hg. injection Hg as <-. eauto.
    + rewrite lookup_insert_ne in Hg by done. by left.
  - intros g. rewrite Hav'. unfold own'. destruct (decide (g = a)) as [->|Hne].
    + rewrite lookup_insert_eq. split; [tauto|]. by intros [_ ?].
    + rewrite lookup_insert_ne by done. split; [|tauto]. intros [Hg _]. split; [done|]. by apply H2.
  - intros g Hng Hno. rewrite lookup_insert_ne by (intros <-; by apply (Hno p)). unfold m1. apply lookup_insert_ne. congruence.
  - intros r q j x Hq. rewrite (Hch r q j x). rewrite decide_False; [done|]. by apply lasting_path.
  - eapply new_widened; [exact Hch|right]. intros x (g & Hg & Hx & Hxp).
    rewrite (role_unique_table _ _ _ _ _ _ H4 Hg Hf), (entry_at_Some _ _ _ _ Ht) in Hx. congruence.
Qed.

Lemma wp_in_pmm {A} (c : M P A) s (Q : A → Vmm P → Prop) : wp c (pmm s) (λ a p, Q a (set_pmm p s)) → wp (in_pmm c) s Q.
Proof. intros Hc. by apply wp_zoom. Qed.

Lemma set_pmm_extends root s own p' :
  vm_ok s own → alloc_ok p' → (∀ x, managed p' x ↔ managed (pmm s) x) → (∀ x, available p' x ↔ available (pmm s) x) →
  extends root s own (set_pmm p' s) own.
Proof.
  intros [H1 H2 H3 H4] Hal Hman Hav. split; try done; cbn.
  - split; cbn; [done|intros f Hf%Hav; by apply H2|intros f r Hf; rewrite Hman, Hav; by eapply H3|done].
  - by left.
  - intros f. rewrite Hav. split; [intros Hf; split; [done|by apply H2]|tauto].
  - by apply same_widened.
Qed.

(** The table for [p] and [i], or null when there is no memory for it. *)
Lemma wp_get_or_create s own root p f i flags (Q : Z → Vmm P → Prop) :
  vm_ok s own → own !! f = Some (Table root p) → (length p <= 2)%nat → 0 <= i < 512 → (p = [] → i = 0) →
  flags_ok flags → has flags Present = true ∧ has flags User = true ∧ has flags Writable = true →
  open_path (frames s) own root p →
  (∀ s' own', extends root s own s' own' → (∀ x, ¬ available (pmm s) x) → Q 0 s') →
  (∀ s' own' g, extends root s own s' own' → own' !! g = Some (Table root (p ++ [Z.to_nat i])) →
    open_path (frames s') own' root (p ++ [Z.to_nat i]) → Q (physical_to_virtual (Some g)) s') →
  wp (get_or_create_table (physical_to_virtual (Some f)) i flags) s Q.
Proof.
  intros Hok Hf Hl Hi H0 Hfl (Hflp & Hflu & Hflw) Hopen Hnone Hsome. destruct (owned_frame _ _ _ _ Hok Hf) as (Hr & _ & t & Ht & Hlen).
  destruct (lookup_lt_is_Some_2 t (Z.to_nat i)) as [e He]; [rewrite Hlen; unfold ENTRIES_PER_TABLE; lia|].
  pose proof (lookup_lt_Some _ _ _ He) as Hlt.
  unfold get_or_create_table. wp_step. eapply wp_read_pte; [done|unfold entry_at; rewrite Ht; exact He|].
  destruct (has e Present) eqn:Ep; cbn [negb].
  - wp_step. eapply (wp_widen s own root p f i e t flags); [done|done|done|intros Hp; by rewrite (H0 Hp)|done..|]. intros s' Hex He' Hp'. wp_step.
    eapply wp_read_pte; [done|exact He'|]. wp_step.
    assert (slot (frames s') own root p (Z.to_nat i) (Z.lor e (Z.land flags (Z.lor User Writable)))) as Hslot by by exists f.
    destruct (opened_entry e flags Hflu Hflw) as [Hu Hw]. eapply Hsome; [exact Hex| |].
    + eapply (to_child _ _ (vo_tables _ _ (ex_ok _ _ _ _ _ Hex)) root p (Z.to_nat i)); [exact Hslot|].
      apply child_table; [done|]. intros Hp. rewrite (H0 Hp). done.
    + eapply open_path_snoc; [eapply open_path_widened; [apply Hex|lia|done]|exact Hslot|done|done].
  - wp_step. apply wp_in_pmm. eapply wp_mono; [apply frame_allocate_spec, Hok|]. intros [a|] p' (Hal & Hman & Hr').
    + destruct Hr' as (Hma & Hav & Hav'). destruct (vo_available _ _ Hok a Hav) as [(Ham & Har & ta & Hta & Hla) Hao].
      assert (f ≠ a) as Hfa by congruence.
      wp_step. eapply wp_write_table; [done|exact Hta|]. wp_step. eapply wp_write_pte; [done|cbn; rewrite lookup_insert_ne by done; exact Ht|done|].
      wp_step. eapply wp_read_pte; [done|cbn; rewrite entry_at_eq; by apply list_lookup_insert_eq|].
      wp_step. assert (entry_to_phys (Z.lor a flags) = Some a) as ->.
      { unfold entry_to_phys. f_equal. apply phys_entry; [done|lia|done]. }
      assert (extends root s own (set_frames (<[f := <[Z.to_nat i := Z.lor a flags]> t]> (<[a := replicate ENTRIES_PER_TABLE 0]> (frames s))) (set_pmm p' s))
        (<[a := Table root (p ++ [Z.to_nat i])]> own)) as Hex
        by (eapply (extends_grow s own root p f (Z.to_nat i) e t flags a p'); try done; intros Hp; by rewrite (H0 Hp)).
      eapply Hsome; [exact Hex|apply lookup_insert_eq|].
      eapply (open_path_snoc _ _ _ _ _ (Z.lor a flags)); [eapply open_path_widened; [apply Hex|lia|done]| | |].
      * exists f. split; [by rewrite lookup_insert_ne|]. split; [cbn; rewrite entry_at_eq; by apply list_lookup_insert_eq|].
        rewrite has_Present in *. by rewrite Z.lor_spec, Hflp, orb_true_r.
      * rewrite has_User in *. by rewrite Z.lor_spec, Hflu, orb_true_r.
      * rewrite has_Writable in *. by rewrite Z.lor_spec, Hflw, orb_true_r.
    + destruct Hr' as [Hav Hno]. wp_step. eapply Hnone; [by apply set_pmm_extends|done].
Qed.

(** ** One more page *)

(** The indexes of the tables for an address, and of its entry in the last one. *)
Definition table_path (va : Z) : list nat := [Z.to_nat (pml4_index va); Z.to_nat (pdpt_index va); Z.to_nat (pd_index va)].
Definition page_entry (va : Z) : nat := Z.to_nat (pt_index va).

Lemma index_range va : 0 <= pml4_index va < 512 ∧ 0 <= pdpt_index va < 512 ∧ 0 <= pd_index va < 512 ∧ 0 <= pt_index va < 512.
Proof.
  unfold pml4_index, pdpt_index, pd_index, pt_index. change 511 with (Z.ones 9). rewrite !Z.land_ones by lia.
  change (2 ^ 9) with 512. lia.
Qed.

(** Entry [j] of the table for [q] of [root] refers to the frame [pa] now; tables
    may have been added. *)
Record mapped (root : Z) s own q j e pa s' own' : Prop := {
  mp_ok : vm_ok s' own';
  mp_own f r : own !! f = Some r → own' !! f = Some r;
  mp_new f r : own' !! f = Some r → own !! f = Some r ∨ available (pmm s) f ∧ (∃ p, r = Table root p) ∨ f = pa ∧ r = Page root (q ++ [j]);
  mp_page : own' !! pa = Some (Page root (q ++ [j]));
  mp_avail f : available (pmm s') f ↔ available (pmm s) f ∧ own' !! f = None;
  mp_managed f : managed (pmm s') f ↔ managed (pmm s) f;
  mp_mem f : ¬ available (pmm s) f → (∀ p, own !! f ≠ Some (Table root p)) → frames s' !! f = frames s !! f;
  mp_frame f : frame_ok (frames s) f → frame_ok (frames s') f;
  mp_leaf r q' j' x : lasting q' j' →
    slot (frames s') own' r q' j' x ↔ if decide ((r, q', j') = (root, q, j)) then x = e else slot (frames s) own r q' j' x;
  mp_wide : widened_slots (frames s) own (frames s') own';
  mp_open : open_path (frames s') own' root q;
  mp_regs : pml4_phys_ s' = pml4_phys_ s ∧ cr3 s' = cr3 s;
}.

(** A frame that holds data and has no owner. *)
Definition loose s own (f : Z) : Prop := own !! f = None ∧ ¬ available (pmm s) f ∧ managed (pmm s) f ∧ frame_ok (frames s) f.

Lemma loose_extends root s own s' own' f : extends root s own s' own' → loose s own f → loose s' own' f.
Proof.
  intros Hex (H1 & H2 & H3 & H4). split; [|split; [|split]].
  - destruct (own' !! f) as [r|] eqn:E; [|done]. apply (ex_new _ _ _ _ _ Hex) in E as [E|[E _]]; [congruence|done].
  - rewrite (ex_avail _ _ _ _ _ Hex). tauto.
  - by apply (ex_managed _ _ _ _ _ Hex).
  - by apply (ex_frame _ _ _ _ _ Hex).
Qed.

Lemma mapped_write root s own s1 own1 q j e pa pt t :
  extends root s own s1 own1 → own1 !! pt = Some (Table root q) → length q = 3%nat → frames s1 !! pt = Some t → (j < length t)%nat →
  loose s1 own1 pa → (∀ x, slot (frames s) own root q j x → has x User = false) → open_path (frames s1) own1 root q →
  has e Present = true → has e User = true → phys e = pa →
  mapped root s own q j e pa (set_frames (<[pt := <[j := e]> t]> (frames s1)) s1) (<[pa := Page root (q ++ [j])]> own1).
Proof.
  intros Hex Hpt Hq Ht Hj (Hpo & Hpav & Hpm & Hpf) Hold Hopen Hep Heu Hph. set (own' := <[pa := _]> own1).
  pose proof (ex_ok _ _ _ _ _ Hex) as Hok1. destruct Hok1 as [H1 H2 H3 H4].
  assert (pt ≠ pa) as Hne by congruence.
  assert (slots_change (frames s1) own1 (<[pt := <[j := e]> t]> (frames s1)) own' root q j (Some e)) as Hch.
  { eapply slots_change_same; [by apply (slots_new_owner (frames s1) own1 pa (Page root (q ++ [j])))|].
    pose proof (slot_write (frames s1) own' pt t root q j e) as H. rewrite Hep in H. apply H; [by unfold own'; rewrite lookup_insert_ne| |done|done].
    intros g Hg. unfold own' in Hg. destruct (decide (g = pa)) as [->|Hg'].
    - rewrite lookup_insert_eq in Hg. done.
    - rewrite lookup_insert_ne in Hg by done. by eapply role_unique_table. }
  assert (widened_slots (frames s1) own1 (<[pt := <[j := e]> t]> (frames s1)) own') as Hwide by (eapply new_widened; [exact Hch|by left]).
  assert (child_role root q j e = Some (Page root (q ++ [j]))) as Hcr by (unfold child_role; by rewrite Hq, Heu).
  assert (∀ g, frame_ok (frames s1) g → frame_ok (<[pt := <[j := e]> t]> (frames s1)) g) as Hfr.
  { intros g Hg. apply frame_ok_insert; [done|]. intros <-. rewrite length_insert. destruct (H3 _ _ Hpt) as [(_ & _ & t0 & Ht0 & Hl) _]. congruence. }
  split; cbn.
  - split; cbn; [done|intros g Hg|intros g r Hg|].
    + split; [by apply Hfr, H2|]. unfold own'. rewrite lookup_insert_ne; [by apply H2|]. by intros <-.
    + unfold own' in Hg. destruct (decide (g = pa)) as [->|Hg'].
      * split; [by apply Hfr|done].
      * rewrite lookup_insert_ne in Hg by done. destruct (H3 g r Hg) as [H5 H6]. split; [by apply Hfr|done].
    + eapply tables_add; [exact H4|exact Hch|done| |exact Hcr|done].
      intros x Hx. unfold child_role. rewrite Hq. apply (ex_leaf _ _ _ _ _ Hex) in Hx; [|by left]. by rewrite (Hold x Hx).
  - intros f r Hf. unfold own'. apply (ex_own _ _ _ _ _ Hex) in Hf. rewrite lookup_insert_ne; [done|congruence].
  - intros f r Hf. unfold own' in Hf. destruct (decide (f = pa)) as [->|Hf'].
    + right; right. rewrite lookup_insert_eq in Hf. by injection Hf as <-.
    + rewrite lookup_insert_ne in Hf by done. apply (ex_new _ _ _ _ _ Hex) in Hf as [|]; auto.
  - apply lookup_insert_eq.
  - intros f. rewrite (ex_avail _ _ _ _ _ Hex). unfold own'. destruct (decide (f = pa)) as [->|Hf'].
    + rewrite lookup_insert_eq. rewrite (ex_avail _ _ _ _ _ Hex) in Hpav. split; [tauto|by intros [_ ?]].
    + by rewrite lookup_insert_ne.
  - apply (ex_managed _ _ _ _ _ Hex).
  - intros f Hav Hno. rewrite lookup_insert_ne; [by apply (ex_mem _ _ _ _ _ Hex)|]. intros <-.
    apply (ex_new _ _ _ _ _ Hex) in Hpt as [Hpt|[Hpt _]]; [by apply (Hno q)|done].
  - intros f Hf. by apply Hfr, (ex_frame _ _ _ _ _ Hex).
  - intros r q' j' x Hq'. etrans; [apply Hch|]. case_decide; [split; congruence|]. by apply (ex_leaf _ _ _ _ _ Hex).
  - eapply widened_trans; [apply Hex|exact Hwide].
  - eapply open_path_widened; [exact Hwide|lia|done].
  - apply (ex_regs _ _ _ _ _ Hex).
Qed.

Lemma frame_page a : a `mod` 4096 = 0 → 0 <= a < 2 ^ 47 → Z.land a PAGE_MASK = a.
Proof. intros Ha Hr. unfold PAGE_MASK. rewrite (land_lnot_ones _ 12) by lia. change (2 ^ 12) with 4096. lia. Qed.

(** [map_below] with a frame of data, below the root of an address space, for an
    address of the lower half where no user page is mapped. *)
Lemma wp_map_below s own root va pa tflags flags (Q : bool → Vmm P → Prop) :
  vm_ok s own → own !! root = Some (Table root []) → pml4_index va = 0 → loose s own pa →
  flags_ok tflags → has tflags Present = true ∧ has tflags User = true ∧ has tflags Writable = true → flags_ok flags → has flags User = true →
  (∀ x, slot (frames s) own root (table_path va) (page_entry va) x → has x User = false) →
  (∀ s' own', extends root s own s' own' → (∀ x, ¬ available (pmm s') x) → Q false s') →
  (∀ s' own', mapped root s own (table_path va) (page_entry va) (Z.lor (Z.lor pa flags) Present) pa s' own' → Q true s') →
  wp (map_below (physical_to_virtual (Some root)) va pa tflags flags) s Q.
Proof.
  intros Hok Hroot Hva Hpa Htf Htp Hfl Hfu Hold Hnone Hsome. destruct (index_range va) as (_ & Hi1 & Hi2 & Hi3).
  assert (∀ s1 own1 s2 own2, extends root s own s1 own1 → extends root s1 own1 s2 own2 → (∀ x, ¬ available (pmm s1) x) → wp (mret false) s2 Q) as Hfail.
  { intros s1 own1 s2 own2 H1 H2 Hno. wp_step. eapply Hnone; [by eapply extends_trans|]. intros x. rewrite (ex_avail _ _ _ _ _ H2). by intros [?%Hno _]. }
  unfold map_below. wp_step. apply (wp_get_or_create s own root [] root); [done|done|cbn; lia|lia|done|done|done|by intros p i rest Hp; destruct p|by eauto using extends_refl|].
  intros s1 own1 g1 Hex1 Hg1 Ho1. destruct (owned_frame _ _ _ _ (ex_ok _ _ _ _ _ Hex1) Hg1) as (Hr1 & _). rewrite pointer_nonzero by done.
  wp_step. eapply (wp_get_or_create s1 own1 root); [apply Hex1|exact Hg1|cbn; lia|lia|done|done|done|done|by eauto|].
  intros s2 own2 g2 Hex2 Hg2 Ho2. destruct (owned_frame _ _ _ _ (ex_ok _ _ _ _ _ Hex2) Hg2) as (Hr2 & _). rewrite pointer_nonzero by done.
  assert (extends root s own s2 own2) as Hex12 by (by eapply extends_trans).
  wp_step. eapply (wp_get_or_create s2 own2 root); [apply Hex2|exact Hg2|cbn; lia|lia|done|done|done|done|by eauto|].
  intros s3 own3 g3 Hex3 Hg3 Ho3. destruct (owned_frame _ _ _ _ (ex_ok _ _ _ _ _ Hex3) Hg3) as (Hr3 & _ & t & Ht & Hlen). rewrite pointer_nonzero by done.
  assert (extends root s own s3 own3) as Hex by (by eapply extends_trans).
  pose proof (loose_extends _ _ _ _ _ _ Hex Hpa) as Hpa3. pose proof Hpa as (_ & _ & _ & Ham & Har & _). rewrite frame_page by done.
  wp_step. eapply wp_write_pte; [done|exact Ht|rewrite Hlen; unfold ENTRIES_PER_TABLE; lia|]. wp_step.
  assert (table_path va = (([] ++ [Z.to_nat (pml4_index va)]) ++ [Z.to_nat (pdpt_index va)]) ++ [Z.to_nat (pd_index va)]) as Hpath by done.
  eapply Hsome. eapply mapped_write; [exact Hex|by rewrite Hpath|done|exact Ht|rewrite Hlen; unfold page_entry, ENTRIES_PER_TABLE; lia|done|exact Hold|by rewrite Hpath| | |].
  - rewrite has_Present. rewrite Z.lor_spec. apply orb_true_r.
  - rewrite has_User in *. by rewrite !Z.lor_spec, Hfu, orb_true_r.
  - rewrite <- Z.lor_assoc. apply phys_entry; [done|lia|]. by apply flags_or.
Qed.
End vmm.
