(* ===== verification/VmmVisit.v ===== *)
(** * Visiting the user pages

    [for_each_user_page] calls its visitor on the user pages of an address space,
    in the order of their addresses, as long as the visitor leaves the tables of
    this space alone. *)
From stdpp Require Import gmap.
From S2P Require Import Prelude Vmm VmmSpec VmmMap.

(** The address of the page with the indexes [i], [j] and [k] below entry 0 of the
    root. *)
Definition page_address (i j k : nat) : Z :=
  Z.lor (Z.lor (Z.shiftl (Z.of_nat i) 30) (Z.shiftl (Z.of_nat j) 21)) (Z.shiftl (Z.of_nat k) 12).

(** What [g] gives for [n] indexes from [k] on. *)
Fixpoint gather {A} (g : nat → list A) (n k : nat) : list A :=
  match n with O => [] | S n => g k ++ gather g n (S k) end.

(** The user pages below a table, from an entry on: addresses and entries. *)
Definition pt_pages (m : gmap Z (list Z)) (f : Z) (i j : nat) : nat → nat → list (Z * Z) :=
  gather (λ k, match entry_at m f k with Some e => if has e Present && has e User then [(page_address i j k, e)] else [] | None => [] end).
Definition pd_pages (m : gmap Z (list Z)) (f : Z) (i : nat) : nat → nat → list (Z * Z) :=
  gather (λ j, match entry_at m f j with Some e => if has e Present then pt_pages m (phys e) i j ENTRIES_PER_TABLE 0 else [] | None => [] end).
Definition pdpt_pages (m : gmap Z (list Z)) (f : Z) : nat → nat → list (Z * Z) :=
  gather (λ i, match entry_at m f i with Some e => if has e Present then pd_pages m (phys e) i ENTRIES_PER_TABLE 0 else [] | None => [] end).

Lemma pt_pages_S m f i j n k : pt_pages m f i j (S n) k =
  (match entry_at m f k with Some e => if has e Present && has e User then [(page_address i j k, e)] else [] | None => [] end) ++ pt_pages m f i j n (S k).
Proof. done. Qed.
Lemma pd_pages_S m f i n j : pd_pages m f i (S n) j =
  (match entry_at m f j with Some e => if has e Present then pt_pages m (phys e) i j ENTRIES_PER_TABLE 0 else [] | None => [] end) ++ pd_pages m f i n (S j).
Proof. done. Qed.
Lemma pdpt_pages_S m f n i : pdpt_pages m f (S n) i =
  (match entry_at m f i with Some e => if has e Present then pd_pages m (phys e) i ENTRIES_PER_TABLE 0 else [] | None => [] end) ++ pdpt_pages m f n (S i).
Proof. done. Qed.

Definition user_pages (m : gmap Z (list Z)) (root : Z) : list (Z * Z) :=
  match entry_at m root 0 with Some e => if has e Present then pdpt_pages m (phys e) ENTRIES_PER_TABLE 0 else [] | None => [] end.

Lemma elem_gather {A} (g : nat → list A) n k x : x ∈ gather g n k ↔ ∃ i, (k <= i < k + n)%nat ∧ x ∈ g i.
Proof.
  revert k. induction n as [|n IH]; intros k; cbn; [split; [set_solver|intros (i & Hi & _); lia]|].
  rewrite elem_of_app, IH. split.
  - intros [Hx|(i & Hi & Hx)]; [exists k|exists i]; (split; [lia|done]).
  - intros (i & Hi & Hx). destruct (decide (i = k)) as [->|]; [by left|right]. exists i. split; [lia|done].
Qed.

Lemma NoDup_gather {A B} (h : A → B) (g : nat → list A) n k :
  (∀ i, (k <= i < k + n)%nat → NoDup (h <$> g i)) →
  (∀ i j x y, (k <= i < k + n)%nat → (k <= j < k + n)%nat → x ∈ g i → y ∈ g j → h x = h y → i = j) →
  NoDup (h <$> gather g n k).
Proof.
  revert k. induction n as [|n IH]; intros k Hg Hd; cbn; [constructor|]. rewrite fmap_app. apply NoDup_app.
  split; [apply Hg; lia|]. split; [|apply IH; [intros i Hi; apply Hg; lia|intros i j x y Hi Hj; apply Hd; lia]].
  intros z (x & -> & Hx)%list_elem_of_fmap (y & Hxy & (j & Hj & Hy)%elem_gather)%list_elem_of_fmap.
  pose proof (Hd k j x y ltac:(lia) ltac:(lia) Hx Hy Hxy). lia.
Qed.

(** The indexes of a page address. *)
Lemma lor_shiftl a b n : 0 <= n → 0 <= b < 2 ^ n → Z.lor (Z.shiftl a n) b = a * 2 ^ n + b.
Proof.
  intros Hn Hb. assert (Z.land (Z.shiftl a n) b = 0) as Hl.
  { apply Z.bits_inj'. intros i Hi. rewrite Z.land_spec, Z.bits_0. destruct (decide (i < n)).
    - by rewrite Z.shiftl_spec_low.
    - rewrite (small_high b n i) by lia. apply andb_false_r. }
  rewrite <- Z.shiftl_mul_pow2 by done. rewrite <- Z.lxor_lor by done. symmetry. by apply Z.add_nocarry_lxor.
Qed.

Lemma page_address_eq i j k : (j < 512)%nat → (k < 512)%nat →
  page_address i j k = (Z.of_nat i * 512 + Z.of_nat j) * 2097152 + Z.of_nat k * 4096.
Proof.
  intros Hj Hk. unfold page_address. rewrite (Z.shiftl_mul_pow2 (Z.of_nat j)), (Z.shiftl_mul_pow2 (Z.of_nat k)) by lia.
  change (2 ^ 21) with 2097152. change (2 ^ 12) with 4096. rewrite (lor_shiftl (Z.of_nat i)) by (change (2 ^ 30) with 1073741824; lia).
  replace (Z.of_nat i * 2 ^ 30 + Z.of_nat j * 2097152) with (Z.shiftl (Z.of_nat i * 512 + Z.of_nat j) 21)
    by (rewrite Z.shiftl_mul_pow2 by lia; lia).
  rewrite lor_shiftl by (change (2 ^ 21) with 2097152; lia). done.
Qed.

Lemma index_eq x n : 0 <= n → Z.land (Z.shiftr x n) 511 = (x / 2 ^ n) `mod` 512.
Proof. intros Hn. change 511 with (Z.ones 9). rewrite Z.land_ones, Z.shiftr_div_pow2 by lia. done. Qed.

Lemma page_address_path i j k : (i < 512)%nat → (j < 512)%nat → (k < 512)%nat →
  pml4_index (page_address i j k) = 0 ∧ table_path (page_address i j k) = [0%nat; i; j] ∧ page_entry (page_address i j k) = k.
Proof.
  intros Hi Hj Hk. rewrite page_address_eq by done. unfold table_path, page_entry, pml4_index, pdpt_index, pd_index, pt_index.
  rewrite !index_eq by lia. change (2 ^ 39) with 549755813888. change (2 ^ 30) with 1073741824.
  change (2 ^ 21) with 2097152. change (2 ^ 12) with 4096.
  set (x := (Z.of_nat i * 512 + Z.of_nat j) * 2097152 + Z.of_nat k * 4096).
  assert ((x / 549755813888) `mod` 512 = 0 ∧ (x / 1073741824) `mod` 512 = Z.of_nat i ∧ (x / 2097152) `mod` 512 = Z.of_nat j ∧ (x / 4096) `mod` 512 = Z.of_nat k) as (-> & -> & -> & ->).
  { unfold x. lia. }
  rewrite !Nat2Z.id. done.
Qed.

(** ** The walk of user code *)
Lemma level_indices va : level_index 3 va = Z.to_nat (pml4_index va) ∧ level_index 2 va = Z.to_nat (pdpt_index va) ∧
  level_index 1 va = Z.to_nat (pd_index va) ∧ level_index 0 va = Z.to_nat (pt_index va).
Proof. unfold level_index, pml4_index, pdpt_index, pd_index, pt_index. by rewrite !index_eq by lia. Qed.

Lemma user_entry_slot m own f r q i e : tables_ok m own → own !! f = Some (Table r q) → slot m own r q i e → has e User = true →
  user_entry m f i = Some e.
Proof.
  intros Hok Hf (g & Hg & He & Hp) Hu. rewrite (role_unique_table _ _ _ _ _ _ Hok Hg Hf) in He. unfold entry_at in He.
  apply bind_Some in He as (t & Ht & He). unfold user_entry. rewrite Ht. cbn. rewrite He. cbn. by rewrite Hp, Hu.
Qed.

(** Behind an open path, the last entry decides. *)
Lemma user_walk_slot m own root va e :
  tables_ok m own → own !! root = Some (Table root []) → pml4_index va = 0 → open_path m own root (table_path va) →
  slot m own root (table_path va) (page_entry va) e → has e User = true →
  user_walk m root va = Some (phys e, has e Writable).
Proof.
  intros Hok Hroot H0 Hopen He Hu. destruct (level_indices va) as (L3 & L2 & L1 & L0). unfold user_walk. rewrite L3, L2, L1, L0, H0.
  change (Z.to_nat 0) with 0%nat.
  unfold table_path in Hopen. rewrite H0 in Hopen.
  destruct (Hopen [] 0%nat [Z.to_nat (pdpt_index va); Z.to_nat (pd_index va)] eq_refl) as (e3 & H3 & U3 & W3).
  destruct (Hopen [0%nat] (Z.to_nat (pdpt_index va)) [Z.to_nat (pd_index va)] eq_refl) as (e2 & H2 & U2 & W2).
  destruct (Hopen [0%nat; Z.to_nat (pdpt_index va)] (Z.to_nat (pd_index va)) [] eq_refl) as (e1 & H1 & U1 & W1).
  pose proof (to_child _ _ Hok _ _ _ _ _ H3 eq_refl) as O3. pose proof (to_child _ _ Hok _ _ _ _ _ H2 eq_refl) as O2.
  pose proof (to_child _ _ Hok _ _ _ _ _ H1 eq_refl) as O1. unfold table_path in He. rewrite H0 in He.
  rewrite (user_entry_slot m own root root [] 0 e3 Hok Hroot H3 U3). cbn [mbind option_bind].
  rewrite (user_entry_slot m own _ root _ _ e2 Hok O3 H2 U2). cbn [mbind option_bind].
  rewrite (user_entry_slot m own _ root _ _ e1 Hok O2 H1 U1). cbn [mbind option_bind].
  fold (page_entry va). rewrite (user_entry_slot m own _ root _ _ e Hok O1 He Hu). cbn [mbind option_bind]. by rewrite W3, W2, W1.
Qed.

Lemma page_address_inj i j k i' j' k' : (i < 512)%nat → (j < 512)%nat → (k < 512)%nat → (i' < 512)%nat → (j' < 512)%nat → (k' < 512)%nat →
  page_address i j k = page_address i' j' k' → i = i' ∧ j = j' ∧ k = k'.
Proof.
  intros Hi Hj Hk Hi' Hj' Hk' He. destruct (page_address_path i j k) as (_ & H1 & H2); [done..|].
  destruct (page_address_path i' j' k') as (_ & H1' & H2'); [done..|]. rewrite He in *. split; [congruence|]. split; congruence.
Qed.

(** The list holds each user page of the address space once. *)
(** An index below the number of entries. *)
Ltac idx_lia := unfold ENTRIES_PER_TABLE in *; lia.
Ltac in_nil := cbn [andb] in *; match goal with H : _ ∈ [] |- _ => by apply elem_of_nil in H end.

Lemma elem_pt_pages m f i j n k x : x ∈ pt_pages m f i j n k ↔ ∃ k' e, (k <= k' < k + n)%nat ∧ entry_at m f k' = Some e ∧
  has e Present = true ∧ has e User = true ∧ x = (page_address i j k', e).
Proof.
  unfold pt_pages. rewrite elem_gather. split.
  - intros (k' & Hk & Hx). exists k'. destruct (entry_at m f k') as [e|]; [|in_nil].
    destruct (has e Present) eqn:Ep; [|in_nil]. destruct (has e User) eqn:Eu; [|in_nil]. cbn in Hx.
    apply list_elem_of_singleton in Hx. by exists e.
  - intros (k' & e & Hk & He & Hp & Hu & ->). exists k'. split; [done|]. rewrite He, Hp, Hu. by apply list_elem_of_singleton.
Qed.

Lemma elem_pd_pages m f i n j x : x ∈ pd_pages m f i n j ↔ ∃ j' e, (j <= j' < j + n)%nat ∧ entry_at m f j' = Some e ∧
  has e Present = true ∧ x ∈ pt_pages m (phys e) i j' ENTRIES_PER_TABLE 0.
Proof.
  unfold pd_pages. rewrite elem_gather. split.
  - intros (j' & Hj & Hx). exists j'. destruct (entry_at m f j') as [e|]; [|in_nil]. destruct (has e Present) eqn:Ep; [|in_nil]. by exists e.
  - intros (j' & e & Hj & He & Hp & Hx). exists j'. split; [done|]. by rewrite He, Hp.
Qed.

Lemma elem_pdpt_pages m f n i x : x ∈ pdpt_pages m f n i ↔ ∃ i' e, (i <= i' < i + n)%nat ∧ entry_at m f i' = Some e ∧
  has e Present = true ∧ x ∈ pd_pages m (phys e) i' ENTRIES_PER_TABLE 0.
Proof.
  unfold pdpt_pages. rewrite elem_gather. split.
  - intros (i' & Hi & Hx). exists i'. destruct (entry_at m f i') as [e|]; [|in_nil]. destruct (has e Present) eqn:Ep; [|in_nil]. by exists e.
  - intros (i' & e & Hi & He & Hp & Hx). exists i'. split; [done|]. by rewrite He, Hp.
Qed.

(** Where the pages below a table are. *)
Lemma pt_pages_address m f i j x : x ∈ pt_pages m f i j ENTRIES_PER_TABLE 0 → ∃ k, (k < 512)%nat ∧ x.1 = page_address i j k.
Proof. intros (k & e & Hk & _ & _ & _ & ->)%elem_pt_pages. exists k. split; [unfold ENTRIES_PER_TABLE in Hk; lia|done]. Qed.
Lemma pd_pages_address m f i x : x ∈ pd_pages m f i ENTRIES_PER_TABLE 0 → ∃ j k, (j < 512)%nat ∧ (k < 512)%nat ∧ x.1 = page_address i j k.
Proof.
  intros (j & e & Hj & _ & _ & (k & Hk & Hx)%pt_pages_address)%elem_pd_pages. exists j, k. split; [idx_lia|done].
Qed.

Lemma NoDup_pt_pages m f i j : (i < 512)%nat → (j < 512)%nat → NoDup (fst <$> pt_pages m f i j ENTRIES_PER_TABLE 0).
Proof.
  intros Hi Hj. unfold pt_pages. apply NoDup_gather.
  - intros k _. destruct (entry_at m f k) as [e|]; [|constructor]. destruct (_ && _); [apply NoDup_singleton|constructor].
  - intros k k' x y Hk Hk' Hx Hy Hxy. destruct (entry_at m f k) as [e|]; [|in_nil]. destruct (entry_at m f k') as [e'|]; [|in_nil].
    destruct (_ && _); [|in_nil]. destruct (_ && _); [|in_nil].
    apply list_elem_of_singleton in Hx as ->. apply list_elem_of_singleton in Hy as ->. cbn in Hxy.
    apply page_address_inj in Hxy as (_ & _ & ->); [done|idx_lia..].
Qed.

Lemma NoDup_pd_pages m f i : (i < 512)%nat → NoDup (fst <$> pd_pages m f i ENTRIES_PER_TABLE 0).
Proof.
  intros Hi. unfold pd_pages. apply NoDup_gather.
  - intros j Hj. destruct (entry_at m f j) as [e|]; [|constructor]. destruct (has e Present); [|constructor]. apply NoDup_pt_pages; idx_lia.
  - intros j j' x y Hj Hj' Hx Hy Hxy. destruct (entry_at m f j) as [e|]; [|in_nil]. destruct (entry_at m f j') as [e'|]; [|in_nil].
    destruct (has e Present); [|in_nil]. destruct (has e' Present); [|in_nil].
    apply pt_pages_address in Hx as (k & Hk & Hx). apply pt_pages_address in Hy as (k' & Hk' & Hy). rewrite Hx, Hy in Hxy.
    apply page_address_inj in Hxy as (_ & -> & _); [done|idx_lia..].
Qed.

Lemma NoDup_user_pages m root : NoDup (fst <$> user_pages m root).
Proof.
  unfold user_pages. destruct (entry_at m root 0) as [e0|]; [|constructor]. destruct (has e0 Present); [|constructor].
  unfold pdpt_pages. apply NoDup_gather.
  - intros i Hi. destruct (entry_at m _ i) as [e|]; [|constructor]. destruct (has e Present); [|constructor]. apply NoDup_pd_pages; idx_lia.
  - intros i i' x y Hi Hi' Hx Hy Hxy. destruct (entry_at m _ i) as [e|]; [|in_nil]. destruct (entry_at m _ i') as [e'|]; [|in_nil].
    destruct (has e Present); [|in_nil]. destruct (has e' Present); [|in_nil].
    apply pd_pages_address in Hx as (j & k & Hj & Hk & Hx). apply pd_pages_address in Hy as (j' & k' & Hj' & Hk' & Hy). rewrite Hx, Hy in Hxy.
    apply page_address_inj in Hxy as (-> & _ & _); [done|idx_lia..].
Qed.

(** In terms of the tables of the address space. *)
Lemma elem_user_pages m own root x :
  tables_ok m own → own !! root = Some (Table root []) →
  x ∈ user_pages m root ↔ ∃ i j k, (i < 512)%nat ∧ (j < 512)%nat ∧ (k < 512)%nat ∧
    slot m own root [0%nat; i; j] k x.2 ∧ has x.2 User = true ∧ x.1 = page_address i j k.
Proof.
  intros Hok Hroot. unfold user_pages, ENTRIES_PER_TABLE. split.
  - intros Hx. destruct (entry_at m root 0) as [e0|] eqn:E0; [|in_nil]. destruct (has e0 Present) eqn:P0; [|in_nil].
    apply elem_pdpt_pages in Hx as (i & e1 & Hi & E1 & P1 & Hx). apply elem_pd_pages in Hx as (j & e2 & Hj & E2 & P2 & Hx).
    apply elem_pt_pages in Hx as (k & e3 & Hk & E3 & P3 & U3 & ->).
    assert (own !! phys e0 = Some (Table root [0%nat])) as H0 by (eapply (to_child _ _ Hok root [] 0); [by exists root|done]).
    assert (own !! phys e1 = Some (Table root [0%nat; i])) as H1 by (eapply (to_child _ _ Hok root [0%nat] i); [by exists (phys e0)|done]).
    assert (own !! phys e2 = Some (Table root [0%nat; i; j])) as H2 by (eapply (to_child _ _ Hok root [0%nat; i] j); [by exists (phys e1)|done]).
    unfold ENTRIES_PER_TABLE in *. exists i, j, k. split; [lia|]. split; [lia|]. split; [lia|]. split; [|done]. by exists (phys e2).
  - intros (i & j & k & Hi & Hj & Hk & (pt & Hpt & E3 & P3) & U3 & Hx).
    destruct (table_parent m own root [0%nat; i] j pt Hok Hpt) as (pd & e2 & Hpd & E2 & P2 & <-).
    destruct (table_parent m own root [0%nat] i pd Hok Hpd) as (pdpt & e1 & Hpdpt & E1 & P1 & <-).
    destruct (table_parent m own root [] 0 pdpt Hok Hpdpt) as (root' & e0 & Hr & E0 & P0 & <-).
    rewrite (role_unique_table _ _ _ _ _ _ Hok Hr Hroot) in E0. rewrite E0, P0.
    apply elem_pdpt_pages. unfold ENTRIES_PER_TABLE. exists i, e1. split; [lia|]. split; [done|]. split; [done|].
    apply elem_pd_pages. unfold ENTRIES_PER_TABLE. exists j, e2. split; [lia|]. split; [done|]. split; [done|].
    apply elem_pt_pages. unfold ENTRIES_PER_TABLE. exists k, x.2. split; [lia|]. split; [done|]. split; [done|]. split; [done|].
    rewrite <- Hx. by destruct x.
Qed.


Section visit.
Context {P : Type} `{HP : FrameAllocator P} `{HS : !FrameAllocatorSpec P}.
Context (s0 : Vmm P) (own0 : Owners) (root : Z) (visitor : Z → Z → M (Vmm P) bool).
Context (I : list (Z * Z) → Vmm P → Prop) (F : Vmm P → Prop).
Abbreviation m0 := (frames s0).
Abbreviation pages := (user_pages m0 root).

Context (Hok : vm_ok s0 own0).
Context (Hsrc : ∀ done s f p, I done s → own0 !! f = Some (Table root p) → frames s !! f = m0 !! f).
Context (Hvisit : ∀ done x rest s, pages = done ++ x :: rest → I done s →
  wp (visitor x.1 x.2) s (λ b s', if b then I (done ++ [x]) s' else F s')).

(** The entries of a table are there, and as they were. *)
Lemma read_src done s f p i (Q : Z → Vmm P → Prop) :
  I done s → own0 !! f = Some (Table root p) → (i < ENTRIES_PER_TABLE)%nat →
  (∀ e, entry_at m0 f i = Some e → (has e Present = true → slot m0 own0 root p i e) → Q e s) →
  wp (read_entry (physical_to_virtual (Some f)) (Z.of_nat i)) s Q.
Proof using Hok Hsrc.
  intros HI Hf Hi HQ. destruct (owned_frame _ _ _ _ Hok Hf) as (Hr & _ & t & Ht & Hlen).
  destruct (lookup_lt_is_Some_2 t i) as [e He]; [by rewrite Hlen|]. rewrite <- (entry_at_Some m0 f t i Ht) in He.
  eapply wp_read_pte; [done| |apply HQ; [exact He|]].
  - unfold entry_at. rewrite (Hsrc _ _ _ _ HI Hf), Nat2Z.id. exact He.
  - intros Hp. by exists f.
Qed.

Lemma child_owned p i e : slot m0 own0 root p i e → (length p <= 2)%nat → (p = [] → i = 0%nat) →
  own0 !! phys e = Some (Table root (p ++ [i])).
Proof using Hok. intros Hs Hl H0. eapply to_child; [apply (vo_tables _ _ Hok)|exact Hs|by apply child_table]. Qed.

Lemma wp_visit_pt n k f i j done rest s :
  own0 !! f = Some (Table root [0%nat; i; j]) → (k + n <= ENTRIES_PER_TABLE)%nat → I done s →
  pages = done ++ pt_pages m0 f i j n k ++ rest →
  wp (visit_pt n (physical_to_virtual (Some f)) (Z.of_nat i) (Z.of_nat j) (Z.of_nat k) visitor) s (λ b s',
    if b then I (done ++ pt_pages m0 f i j n k) s' else F s').
Proof using Hok Hsrc Hvisit.
  revert k done s. induction n as [|n IH]; intros k done s Hf Hk HI Hpages; cbn [visit_pt] in *.
  { wp_step. cbn. by rewrite app_nil_r. }
  wp_step. eapply read_src; [exact HI|exact Hf|lia|]. intros e He _. rewrite pt_pages_S, He in *. replace (Z.of_nat k + 1) with (Z.of_nat (S k)) by lia.
  destruct (has e Present) eqn:Ep; cbn [negb andb] in *; [|by apply IH; [done|lia|..]].
  destruct (has e User) eqn:Eu; cbn [negb app] in *; [|by apply IH; [done|lia|..]].
  wp_step. eapply wp_mono; [exact (Hvisit done (page_address i j k, e) _ s Hpages HI)|]. intros [] s1 H1; cbn [negb]; [|by wp_step].
  replace (done ++ (page_address i j k, e) :: pt_pages m0 f i j n (S k)) with ((done ++ [(page_address i j k, e)]) ++ pt_pages m0 f i j n (S k)) by by rewrite <- app_assoc.
  apply IH; [done|lia|done|]. by rewrite <- app_assoc.
Qed.

Lemma wp_visit_pd n j f i done rest s :
  own0 !! f = Some (Table root [0%nat; i]) → (j + n <= ENTRIES_PER_TABLE)%nat → I done s →
  pages = done ++ pd_pages m0 f i n j ++ rest →
  wp (visit_pd n (physical_to_virtual (Some f)) (Z.of_nat i) (Z.of_nat j) visitor) s (λ b s',
    if b then I (done ++ pd_pages m0 f i n j) s' else F s').
Proof using Hok Hsrc Hvisit.
  revert j done s. induction n as [|n IH]; intros j done s Hf Hj HI Hpages; cbn [visit_pd] in *.
  { wp_step. cbn. by rewrite app_nil_r. }
  wp_step. eapply read_src; [exact HI|exact Hf|lia|]. intros e He Hsl. rewrite pd_pages_S, He in *. replace (Z.of_nat j + 1) with (Z.of_nat (S j)) by lia.
  destruct (has e Present) eqn:Ep; cbn [negb] in *; [|by apply IH; [done|lia|..]].
  wp_step. rewrite <- app_assoc in Hpages. eapply wp_mono.
  - eapply (wp_visit_pt ENTRIES_PER_TABLE 0 (phys e) i j done); [|lia|exact HI|exact Hpages].
    by apply (child_owned [0%nat; i] j e (Hsl eq_refl)); [cbn; lia|].
  - intros [] s1 H1; cbn [negb]; [|by wp_step]. rewrite app_assoc. apply IH; [done|lia|done|]. by rewrite <- app_assoc.
Qed.

Lemma wp_visit_pdpt n i f done s :
  own0 !! f = Some (Table root [0%nat]) → (i + n <= ENTRIES_PER_TABLE)%nat → I done s →
  pages = done ++ pdpt_pages m0 f n i →
  wp (visit_pdpt n (physical_to_virtual (Some f)) (Z.of_nat i) visitor) s (λ b s', if b then I pages s' else F s').
Proof using Hok Hsrc Hvisit.
  revert i done s. induction n as [|n IH]; intros i done s Hf Hi HI Hpages; cbn [visit_pdpt] in *.
  { wp_step. cbn in Hpages. by rewrite Hpages, app_nil_r. }
  wp_step. eapply read_src; [exact HI|exact Hf|lia|]. intros e He Hsl. rewrite pdpt_pages_S, He in *. replace (Z.of_nat i + 1) with (Z.of_nat (S i)) by lia.
  destruct (has e Present) eqn:Ep; cbn [negb] in *; [|by eapply IH; [done|lia|..]].
  wp_step. eapply wp_mono.
  - eapply (wp_visit_pd ENTRIES_PER_TABLE 0 (phys e) i done); [|lia|exact HI|exact Hpages].
    by apply (child_owned [0%nat] i e (Hsl eq_refl)); [cbn; lia|].
  - intros [] s1 H1; cbn [negb]; [|by wp_step]. eapply IH; [done|lia|exact H1|]. by rewrite <- app_assoc.
Qed.

Lemma wp_for_each_user_page s :
  own0 !! root = Some (Table root []) → I [] s →
  wp (for_each_user_page (Some root) visitor) s (λ b s', if b then I pages s' else F s').
Proof using Hok Hsrc Hvisit.
  intros Hroot HI. destruct (owned_frame _ _ _ _ Hok Hroot) as (Hr & _). unfold for_each_user_page. rewrite pointer_nonzero by done.
  wp_step. eapply (read_src [] s root [] 0); [exact HI|exact Hroot|unfold ENTRIES_PER_TABLE; lia|]. intros e He Hsl.
  destruct (has e Present) eqn:Ep; cbn [negb].
  - eapply (wp_visit_pdpt ENTRIES_PER_TABLE 0 (phys e) []); [|lia|exact HI|].
    + by apply (child_owned [] 0 e (Hsl eq_refl)); [cbn; lia|].
    + unfold user_pages. by rewrite He, Ep.
  - wp_step. assert (pages = []) as ->; [|exact HI]. unfold user_pages. by rewrite He, Ep.
Qed.
End visit.
