(* ===== verification/VmmCopy.v ===== *)
(** * Copying an address space

    [copy_user_pages] gives the new address space, for each user page of the old
    one, a frame of its own with the same content at the same address. *)
From stdpp Require Import gmap.
From S2P Require Import Prelude Vmm VmmSpec VmmMap VmmVisit.

Section vmm.
Context {P : Type} `{HP : FrameAllocator P} `{HS : !FrameAllocatorSpec P}.
Implicit Types (s : Vmm P) (own : Owners) (m : gmap Z (list Z)).

(** ** One page *)

(** The frame [a] is taken and filled. *)
Definition filled s a t p' : Vmm P := set_frames (<[a := t]> (frames s)) (set_pmm p' s).

Lemma frame_filled_ok s own a t p' :
  vm_ok s own → length t = ENTRIES_PER_TABLE → alloc_ok p' → (∀ x, managed p' x ↔ managed (pmm s) x) → managed (pmm s) a →
  available (pmm s) a → (∀ x, available p' x ↔ available (pmm s) x ∧ x ≠ a) →
  vm_ok (filled s a t p') own ∧ loose (filled s a t p') own a ∧ same_slots (frames s) own (frames (filled s a t p')) own ∧
  (∀ f, f ≠ a → frames (filled s a t p') !! f = frames s !! f) ∧ (∀ f, frame_ok (frames s) f → frame_ok (frames (filled s a t p')) f).
Proof.
  intros [H1 H2 H3 H4] Hl Hal Hman Hma Hav Hav'. destruct (H2 a Hav) as [Hfa Hoa].
  assert (same_slots (frames s) own (frames (filled s a t p')) own) as Hsame.
  { apply slots_same_frames. intros f r p Hf. cbn. apply lookup_insert_ne. congruence. }
  assert (∀ f, frame_ok (frames s) f → frame_ok (frames (filled s a t p')) f) as Hfr by (intros f Hf; by apply frame_ok_insert).
  split; [|split; [|split; [done|split; [|done]]]].
  - split; cbn [pmm filled set_frames set_pmm]; [done|intros f [Hf _]%Hav'; split; [by apply Hfr, H2|by apply H2]|intros f r Hf|by eapply tables_same].
    destruct (H3 f r Hf) as (H5 & H6 & H7). rewrite Hman, Hav'. split; [by apply Hfr|]. tauto.
  - split; [done|]. cbn [pmm filled set_frames set_pmm]. rewrite Hman, Hav'. split; [tauto|]. split; [done|]. by apply Hfr.
  - intros f Hf. cbn. by apply lookup_insert_ne.
Qed.

(** The frame [a] is taken and keeps its content. *)
Lemma frame_taken_ok s own a p' :
  vm_ok s own → alloc_ok p' → (∀ x, managed p' x ↔ managed (pmm s) x) → managed (pmm s) a →
  available (pmm s) a → (∀ x, available p' x ↔ available (pmm s) x ∧ x ≠ a) →
  ∃ t, frames s !! a = Some t ∧ length t = ENTRIES_PER_TABLE ∧ set_pmm p' s = filled s a t p' ∧
    vm_ok (filled s a t p') own ∧ loose (filled s a t p') own a ∧ same_slots (frames s) own (frames (filled s a t p')) own ∧
    (∀ f, f ≠ a → frames (filled s a t p') !! f = frames s !! f) ∧ (∀ f, frame_ok (frames s) f → frame_ok (frames (filled s a t p')) f).
Proof.
  intros Hok Hal Hman Hma Hav Hav'. destruct (vo_available _ _ Hok a Hav) as [(Ham & Har & t & Ht & Hl) Hao]. exists t.
  split; [done|]. split; [done|]. split; [unfold filled; rewrite insert_id by done; by destruct s|]. by apply frame_filled_ok.
Qed.

(** Giving up the frame [a] after a failed mapping. *)
Lemma extends_give_up root s own a t p' s' own' p2 :
  vm_ok s own → length t = ENTRIES_PER_TABLE → alloc_ok p' → (∀ x, managed p' x ↔ managed (pmm s) x) → managed (pmm s) a →
  available (pmm s) a → (∀ x, available p' x ↔ available (pmm s) x ∧ x ≠ a) →
  extends root (filled s a t p') own s' own' → alloc_ok p2 → (∀ x, managed p2 x ↔ managed (pmm s') x) →
  (∀ x, available p2 x ↔ available (pmm s') x ∨ x = a) → extends root s own (set_pmm p2 s') own'.
Proof.
  intros Hok Hl Hal Hman Hma Hav Hav' Hex Hal2 Hman2 Hav2.
  destruct (frame_filled_ok s own a t p') as (Hok1 & Hla & Hsame & Hfr & Hfok); try done.
  pose proof (loose_extends _ _ _ _ _ _ Hex Hla) as (Hoa & _ & _ & Hfa).
  destruct Hex as [[B1 B2 B3 B4] A2 A3 A4 A5 A6 A7 A8 AW A9]. cbn [pmm filled set_frames set_pmm] in *. split; cbn [pmm frames set_pmm pml4_phys_ cr3].
  - split; cbn [pmm frames set_pmm]; [done|intros f [Hf| ->]%Hav2; [by apply B2|done]|intros f r Hf|done].
    destruct (B3 f r Hf) as (B5 & B6 & B7). rewrite Hman2, Hav2. split; [done|]. split; [done|]. intros [?| ->]; [done|congruence].
  - done.
  - intros f r [Hf|[Hf Hr]]%A3; [by left|right]. apply Hav' in Hf as [Hf _]. done.
  - intros f. rewrite Hav2, A4, Hav'. split; [intros [[[H1 _] H2]| ->]; done|]. intros [H1 H2]. destruct (decide (f = a)); [by right|by left].
  - intros f. by rewrite Hman2, A5.
  - intros f Hnf Hno. rewrite A6; [|rewrite Hav'; tauto|done]. apply Hfr. congruence.
  - intros f Hf. by apply A7, Hfok.
  - intros r q j x Hq. rewrite A8 by done. apply Hsame.
  - eapply widened_trans; [by apply same_widened|exact AW].
  - done.
Qed.

(** One page of the copy: the entry for [va] and its new frame [a]. *)
Record copied (root : Z) s own va e a s' own' : Prop := {
  cp_fresh : available (pmm s) a;
  cp_content : frames s' !! a = frames s !! phys e;
  cp_ok : vm_ok s' own';
  cp_own f r : own !! f = Some r → own' !! f = Some r;
  cp_new f r : own' !! f = Some r → own !! f = Some r ∨ available (pmm s) f ∧ root_of r = root;
  cp_page : own' !! a = Some (Page root (table_path va ++ [page_entry va]));
  cp_avail f : available (pmm s') f ↔ available (pmm s) f ∧ own' !! f = None;
  cp_managed f : managed (pmm s') f ↔ managed (pmm s) f;
  cp_mem f : ¬ available (pmm s) f → (∀ p, own !! f ≠ Some (Table root p)) → frames s' !! f = frames s !! f;
  cp_frames f : frame_ok (frames s) f → frame_ok (frames s') f;
  cp_leaf r q j x : lasting q j → slot (frames s') own' r q j x ↔
    if decide ((r, q, j) = (root, table_path va, page_entry va)) then x = Z.lor (Z.lor a (Z.land e 0xFFF)) Present else slot (frames s) own r q j x;
  cp_wide : widened_slots (frames s) own (frames s') own';
  cp_open : open_path (frames s') own' root (table_path va);
  cp_regs : pml4_phys_ s' = pml4_phys_ s ∧ cr3 s' = cr3 s;
}.

Lemma copied_mapped root s own va e a p' t s' own' :
  vm_ok s own → length t = ENTRIES_PER_TABLE → alloc_ok p' → (∀ x, managed p' x ↔ managed (pmm s) x) → managed (pmm s) a →
  available (pmm s) a → (∀ x, available p' x ↔ available (pmm s) x ∧ x ≠ a) → frames s !! phys e = Some t →
  mapped root (filled s a t p') own (table_path va) (page_entry va) (Z.lor (Z.lor a (Z.land e 0xFFF)) Present) a s' own' →
  copied root s own va e a s' own'.
Proof.
  intros Hok Hl Hal Hman Hma Hav Hav' Ht [C1 C2 C3 C4 C5 C6 C7 C8 C9 CW CO C10].
  destruct (frame_filled_ok s own a t p') as (Hok1 & Hla & Hsame & Hfr & Hfok); try done.
  cbn [pmm filled set_frames set_pmm] in *. destruct Hla as (Hoa & Hna & _). cbn in Hna. split; try done.
  - rewrite C7; [|done|by rewrite Hoa]. cbn. by rewrite lookup_insert_eq.
  - intros f r [Hf|[[Hf [p ->]]|[-> ->]]]%C3; [by left|right|right]; [|done]. apply Hav' in Hf as [Hf _]. done.
  - intros f. rewrite C5, Hav'. split; [intros [[H1 _] H2]; done|]. intros [H1 H2]. split; [split; [done|congruence]|done].
  - intros f. by rewrite C6, Hman.
  - intros f Hnf Hno. rewrite C7; [|rewrite Hav'; tauto|done]. apply Hfr. congruence.
  - intros f Hf. by apply C8, Hfok.
  - intros r q j x Hq. rewrite C9 by done. case_decide; [done|]. apply Hsame.
  - eapply widened_trans; [by apply same_widened|exact CW].
Qed.

Lemma flags_low e : flags_ok (Z.land e 0xFFF).
Proof. by apply flags_and. Qed.
Lemma user_low e : has e User = true → has (Z.land e 0xFFF) User = true.
Proof. rewrite !has_User. intros He. by rewrite Z.land_spec, He. Qed.

Lemma low_or_present a e : has e Present = true → Z.lor (Z.lor a (Z.land e 0xFFF)) Present = Z.lor a (Z.land e 0xFFF).
Proof.
  intros He. rewrite has_Present in He. apply Z.bits_inj'. intros n Hn. change Present with (2 ^ 0). rewrite !Z.lor_spec.
  destruct (decide (n = 0)) as [->|]; [|rewrite (Z.pow2_bits_false 0) by lia; apply orb_false_r].
  rewrite Z.land_spec, He. cbn. by rewrite !orb_true_r.
Qed.

(** No two frames are left. *)
Definition short s : Prop := ∀ x y, available (pmm s) x → available (pmm s) y → x = y.

Lemma wp_copy s own dest va e (Q : bool → Vmm P → Prop) :
  vm_ok s own → own !! dest = Some (Table dest []) → pml4_index va = 0 → has e User = true →
  frame_ok (frames s) (phys e) → ¬ available (pmm s) (phys e) →
  (∀ x, slot (frames s) own dest (table_path va) (page_entry va) x → has x User = false) →
  (∀ s' own', extends dest s own s' own' → short s' → Q false s') →
  (∀ a s' own', copied dest s own va e a s' own' → Q true s') →
  wp (copy (Some dest) va e) s Q.
Proof.
  intros Hok Hdest Hva Heu Hfe Hne Hold Hfail Hdone. pose proof Hfe as (_ & Her & t & Ht & Hl).
  unfold copy. wp_step. apply wp_in_pmm. eapply wp_mono; [apply frame_allocate_spec, Hok|]. intros [a|] p' (Hal & Hman & Hr).
  2:{ wp_step. destruct Hr as [Hav Hno]. eapply Hfail; [by apply set_pmm_extends|]. intros x y Hx. cbn in Hx. by apply Hav, Hno in Hx. }
  destruct Hr as (Hma & Hav & Hav'). destruct (vo_available _ _ Hok a Hav) as [(Ham & Har & ta & Hta & _) Hao].
  change (entry_to_phys e) with (Some (phys e)). wp_step. eapply wp_read_table; [done|exact Ht|]. wp_step.
  eapply wp_write_table; [done|exact Hta|]. change (set_frames _ (set_pmm p' s)) with (filled s a t p').
  destruct (frame_filled_ok s own a t p') as (Hok1 & Hla & Hsame & Hfr & Hfok); try done.
  destruct (owned_frame _ _ _ _ Hok Hdest) as (Hdr & _). wp_step. unfold map_page_in. rewrite pointer_nonzero by done.
  eapply wp_map_below; [exact Hok1|exact Hdest|done|exact Hla|done|done|apply flags_low|by apply user_low|..].
  - intros x Hx. apply Hold. by apply Hsame.
  - intros s' own' Hex Hno. cbn [negb]. wp_step. apply wp_in_pmm. pose proof (loose_extends _ _ _ _ _ _ Hex Hla) as (Hoa & Hna & Hma' & _).
    eapply wp_mono; [apply frame_free_spec; [apply (vo_alloc _ _ (ex_ok _ _ _ _ _ Hex))|done|done]|].
    intros [] p2 (Hal2 & Hman2 & Hav2). wp_step. apply (Hfail _ own'); [exact (extends_give_up dest s own a t p' s' own' p2 Hok Hl Hal Hman Hma Hav Hav' Hex Hal2 Hman2 Hav2)|].
    intros x y [Hx| ->]%Hav2 [Hy| ->]%Hav2; try done; by (apply Hno in Hx || apply Hno in Hy).
  - intros s' own' Hm. cbn [negb]. wp_step. eapply Hdone. by eapply copied_mapped.
Qed.

(** ** All pages *)

(** Only the address space of [root] and free frames have changed. *)
Record confined (root : Z) s own s' own' : Prop := {
  cf_ok : vm_ok s' own';
  cf_own f r : own !! f = Some r → own' !! f = Some r;
  cf_new f r : own' !! f = Some r → own !! f = Some r ∨ available (pmm s) f ∧ root_of r = root;
  cf_avail f : available (pmm s') f ↔ available (pmm s) f ∧ own' !! f = None;
  cf_managed f : managed (pmm s') f ↔ managed (pmm s) f;
  cf_mem f : ¬ available (pmm s) f → (∀ p, own !! f ≠ Some (Table root p)) → frames s' !! f = frames s !! f;
  cf_frames f : frame_ok (frames s) f → frame_ok (frames s') f;
  cf_other r q j x : lasting q j → r ≠ root ∨ q = [] ∧ own !! r = Some (Table r []) → slot (frames s') own' r q j x ↔ slot (frames s) own r q j x;
  cf_wide : widened_slots (frames s) own (frames s') own';
  cf_regs : pml4_phys_ s' = pml4_phys_ s ∧ cr3 s' = cr3 s;
}.

Lemma confined_refl root s own : vm_ok s own → confined root s own s own.
Proof. intros Hok. split; try done; [by left| |by apply same_widened]. intros f. split; [|tauto]. intros Hf. split; [done|]. by eapply vo_available. Qed.

Lemma confined_trans root s1 own1 s2 own2 s3 own3 :
  confined root s1 own1 s2 own2 → confined root s2 own2 s3 own3 → confined root s1 own1 s3 own3.
Proof.
  intros [A1 A2 A3 A4 A5 A6 A7 A8 AW A9] [B1 B2 B3 B4 B5 B6 B7 B8 BW B9]. split.
  - done.
  - auto.
  - intros f r [Hf|[Hf Hr]]%B3; [by apply A3|right]. apply A4 in Hf as [Hf _]. done.
  - intros f. rewrite B4, A4. split; [tauto|]. intros [H1 H2]. split; [|done]. split; [done|].
    destruct (own2 !! f) eqn:E; [|done]. apply B2 in E. congruence.
  - intros f. by rewrite B5.
  - intros f Hav Hno. rewrite B6; [by apply A6|by rewrite A4; intros []|]. intros p Hp. apply A3 in Hp as [Hp|[Hp _]]; [by apply (Hno p)|done].
  - auto.
  - intros r q j x Hq Hr. rewrite B8, A8; [done|done|done|done|]. destruct Hr as [?|[? ?]]; auto.
  - by eapply widened_trans.
  - destruct A9, B9. split; congruence.
Qed.

Lemma extends_confined root s own s' own' : extends root s own s' own' → confined root s own s' own'.
Proof.
  intros [A1 A2 A3 A4 A5 A6 A7 A8 AW A9]. split; try done; [|intros r q j x Hq _; by apply A8].
  intros f r [Hf|[Hf [p ->]]]%A3; [by left|by right].
Qed.
Lemma copied_confined root s own va e a s' own' : copied root s own va e a s' own' → confined root s own s' own'.
Proof.
  intros [A0 A1 A2 A3 A4 A5 A6 A7 A8 A9 A10 AW AO A11]. split; try done. intros r q j x Hq Hr. rewrite A10 by done.
  rewrite decide_False; [done|]. destruct Hr as [?|[-> _]]; [congruence|done].
Qed.

(** The page [x] of the old address space has its copy in the new one. *)
Definition has_copy s0 (dest : Z) s own (x : Z * Z) : Prop := ∃ a,
  available (pmm s0) a ∧ own !! a = Some (Page dest (table_path x.1 ++ [page_entry x.1])) ∧ frames s !! a = frames s0 !! phys x.2 ∧
  slot (frames s) own dest (table_path x.1) (page_entry x.1) (Z.lor (Z.lor a (Z.land x.2 0xFFF)) Present) ∧
  open_path (frames s) own dest (table_path x.1).

(** The state of the copy after the pages [done]. *)
Definition copying s0 own0 (dest : Z) (done : list (Z * Z)) s : Prop := ∃ own,
  confined dest s0 own0 s own ∧ (∀ x, x ∈ done → has_copy s0 dest s own x) ∧
  ∀ q j x, length q = 3%nat → slot (frames s) own dest q j x → has x User = true → ∃ y, y ∈ done ∧ q = table_path y.1 ∧ j = page_entry y.1.

Lemma entry_range s own f r i e : vm_ok s own → own !! f = Some r → entry_at (frames s) f i = Some e → (i < 512)%nat.
Proof.
  intros Hok Hf He. destruct (owned_frame _ _ _ _ Hok Hf) as (_ & _ & t & Ht & Hl). rewrite (entry_at_Some _ _ _ _ Ht) in He.
  apply lookup_lt_Some in He. unfold ENTRIES_PER_TABLE in Hl. lia.
Qed.

(** The tables of a root are in its lower half. *)
Lemma low_slot s own root q j x : vm_ok s own → slot (frames s) own root q j x → length q = 3%nat →
  ∃ i j1, q = [0%nat; i; j1] ∧ (i < 512)%nat ∧ (j1 < 512)%nat ∧ (j < 512)%nat.
Proof.
  intros Hok (pt & Hpt & He & _) Hq. destruct q as [|a [|b [|c [|d q]]]]; try done. pose proof (vo_tables _ _ Hok) as Ht.
  destruct (table_parent _ _ root [a; b] c pt Ht Hpt) as (pd & e2 & Hpd & E2 & _).
  destruct (table_parent _ _ root [a] b pd Ht Hpd) as (pdpt & e1 & Hpdpt & E1 & _).
  destruct (to_parent _ _ Ht pdpt _ Hpdpt) as [[=]|(p & i & e & _ & Hr & _)].
  pose proof (child_role_length _ _ _ _ _ Hr) as [_ [[Hp _]|[Hp _]]]; [|done]. injection Hp as Hp.
  destruct p as [|a' p]; [|by destruct p]. cbn in Hp. injection Hp as ->. unfold child_role in Hr. cbn in Hr.
  destruct (decide _) as [->|]; [|done]. exists b, c. split; [done|]. split; [exact (entry_range _ _ _ _ _ _ Hok Hpdpt E1)|]. split; [exact (entry_range _ _ _ _ _ _ Hok Hpd E2)|exact (entry_range _ _ _ _ _ _ Hok Hpt He)].
Qed.

Lemma user_page_facts s own root x : vm_ok s own → own !! root = Some (Table root []) → x ∈ user_pages (frames s) root →
  ∃ i j k, (i < 512)%nat ∧ (j < 512)%nat ∧ (k < 512)%nat ∧ x.1 = page_address i j k ∧ pml4_index x.1 = 0 ∧
    table_path x.1 = [0%nat; i; j] ∧ page_entry x.1 = k ∧ has x.2 User = true ∧
    own !! phys x.2 = Some (Page root [0%nat; i; j; k]) ∧ slot (frames s) own root [0%nat; i; j] k x.2.
Proof.
  intros Hok Hroot Hx. apply (elem_user_pages _ own) in Hx as (i & j & k & Hi & Hj & Hk & Hs & Hu & Hva); [|apply (vo_tables _ _ Hok)|done].
  destruct (page_address_path i j k) as (H1 & H2 & H3); [done..|]. rewrite <- Hva in *. exists i, j, k.
  do 8 (split; [done|]). split; [|done]. eapply (to_child _ _ (vo_tables _ _ Hok)); [exact Hs|]. unfold child_role. cbn. by rewrite Hu.
Qed.

Lemma has_copy_step s0 own0 dest s own y va e a s' own' :
  copied dest s own va e a s' own' → vm_ok s own → confined dest s0 own0 s own → has_copy s0 dest s own y →
  (table_path y.1, page_entry y.1) ≠ (table_path va, page_entry va) → has_copy s0 dest s' own' y.
Proof.
  intros Hc Hok Hconf (b & Hb & Hob & Hmb & Hsb & Hopen) Hne. destruct (vo_owned _ _ Hok _ _ Hob) as (_ & _ & Hnb). exists b.
  split; [done|]. split; [by eapply cp_own|]. split.
  - rewrite (cp_mem _ _ _ _ _ _ _ _ Hc); [done|done|congruence].
  - split; [|by eapply open_path_widened; [apply Hc|cbn; lia|]].
    apply (cp_leaf _ _ _ _ _ _ _ _ Hc); [by left|]. rewrite decide_False; [done|]. congruence.
Qed.

Lemma copying_step s0 own0 src dest done x rest s :
  vm_ok s0 own0 → own0 !! src = Some (Table src []) → own0 !! dest = Some (Table dest []) → src ≠ dest →
  user_pages (frames s0) src = done ++ x :: rest → copying s0 own0 dest done s →
  wp (copy (Some dest) x.1 x.2) s (λ b s',
    if b then copying s0 own0 dest (done ++ [x]) s' else (∃ own', confined dest s0 own0 s' own') ∧ short s').
Proof.
  intros Hok0 Hsrc Hdest Hsd Hpages (own & Hconf & Hcopies & Honly). pose proof (cf_ok _ _ _ _ _ Hconf) as Hok.
  assert (∀ y, y ∈ user_pages (frames s0) src → y ∈ done ++ x :: rest) as Hin by (by rewrite Hpages).
  destruct (user_page_facts s0 own0 src x Hok0 Hsrc) as (i & j & k & Hi & Hj & Hk & Hva & H0 & Htp & Hpe & Hu & Hox & Hsx); [rewrite Hpages; set_solver|].
  destruct (vo_owned _ _ Hok0 _ _ Hox) as (Hfx & _ & Hnx).
  assert (frames s !! phys x.2 = frames s0 !! phys x.2) as Hmx by (apply (cf_mem _ _ _ _ _ Hconf); [done|congruence]).
  assert (∀ y, y ∈ done → (table_path y.1, page_entry y.1) ≠ (table_path x.1, page_entry x.1)) as Hother.
  { intros y Hy He. destruct (user_page_facts s0 own0 src y Hok0 Hsrc) as (i' & j' & k' & _ & _ & _ & Hva' & _ & Htp' & Hpe' & _); [rewrite Hpages; set_solver|].
    rewrite Htp, Hpe, Htp', Hpe' in He. injection He as -> -> ->. pose proof (NoDup_user_pages (frames s0) src) as Hnd.
    rewrite Hpages, fmap_app in Hnd. apply NoDup_app in Hnd as (_ & Hnd & _). apply (Hnd x.1); [|cbn; set_solver].
    apply list_elem_of_fmap. exists y. split; [congruence|done]. }
  eapply (wp_copy s own); [done|by eapply cf_own|done|done|by eapply cf_frames| | | |].
  - rewrite (cf_avail _ _ _ _ _ Hconf). tauto.
  - intros e Hs. destruct (has e User) eqn:Eu; [|done]. destruct (Honly (table_path x.1) _ _ eq_refl Hs Eu) as (y & Hy & H1 & H2).
    destruct (Hother y Hy). congruence.
  - intros s' own' Hex Hsh. split; [|done]. exists own'. eapply confined_trans; [exact Hconf|]. by apply extends_confined.
  - intros a s' own' Hc. exists own'. split; [eapply confined_trans; [exact Hconf|by eapply copied_confined]|]. split.
    + intros y [Hy|Hy]%elem_of_app; [eapply has_copy_step; [exact Hc|done|exact Hconf|by apply Hcopies|by apply Hother]|].
      apply list_elem_of_singleton in Hy as ->. exists a. split; [apply (cf_avail _ _ _ _ _ Hconf), (cp_fresh _ _ _ _ _ _ _ _ Hc)|].
      split; [apply (cp_page _ _ _ _ _ _ _ _ Hc)|]. split; [by rewrite (cp_content _ _ _ _ _ _ _ _ Hc)|].
      split; [|apply Hc]. apply (cp_leaf _ _ _ _ _ _ _ _ Hc); [by left|]. by rewrite decide_True.
    + intros q j' e Hq Hs Hue. apply (cp_leaf _ _ _ _ _ _ _ _ Hc) in Hs; [|by left]. case_decide as Hd.
      * injection Hd as -> ->. exists x. split; [set_solver|done].
      * destruct (Honly q j' e Hq Hs Hue) as (y & Hy & H1). exists y. split; [set_solver|done].
Qed.

Lemma wp_copy_user_pages s own src dest :
  vm_ok s own → own !! src = Some (Table src []) → own !! dest = Some (Table dest []) → src ≠ dest → user_pages (frames s) dest = [] →
  wp (copy_user_pages (Some src) (Some dest)) s (λ b s',
    if b then copying s own dest (user_pages (frames s) src) s' else (∃ own', confined dest s own s' own') ∧ short s').
Proof.
  intros Hok Hsrc Hdest Hsd Hnone. unfold copy_user_pages. wp_step.
  eapply wp_mono; [eapply (wp_for_each_user_page s own src (copy (Some dest)) (copying s own dest) (λ s', (∃ own', confined dest s own s' own') ∧ short s'))|].
  - done.
  - intros done s' f p (own' & Hconf & _) Hf. apply (cf_mem _ _ _ _ _ Hconf); [by eapply vo_owned|congruence].
  - intros done x rest s' Hpages HI. exact (copying_step s own src dest done x rest s' Hok Hsrc Hdest Hsd Hpages HI).
  - done.
  - exists own. split; [by apply confined_refl|]. split; [set_solver|]. intros q j x Hq Hs Hu. exfalso.
    destruct (low_slot s own dest q j x Hok Hs Hq) as (i & j1 & -> & Hi & Hj1 & Hk).
    assert ((page_address i j1 j, x) ∈ user_pages (frames s) dest) as Hin.
    { apply (elem_user_pages _ own); [apply (vo_tables _ _ Hok)|done|]. by exists i, j1, j. }
    rewrite Hnone in Hin. by apply elem_of_nil in Hin.
  - intros [] s' Hb; cbn [negb]; by wp_step.
Qed.
End vmm.
