(* ===== verification/VmmSpace.v ===== *)
(** * Creating and destroying an address space

    [create_address_space] makes an empty lower half; [destroy_address_space] gives
    back each frame of the address space, tables and user pages, once. *)
From stdpp Require Import gmap.
From S2P Require Import Prelude Vmm VmmSpec VmmMap VmmVisit VmmCopy.

(** * Creating an address space

    [create_address_space] makes a root whose lower half is empty and whose upper
    half is that of the current root. *)

Section vmm.
Context {P : Type} `{HP : FrameAllocator P} `{HS : !FrameAllocatorSpec P}.
Implicit Types (s : Vmm P) (own : Owners).

Lemma root_owned s own f r : vm_ok s own → own !! f = Some r → own !! root_of r = Some (Table (root_of r) []).
Proof.
  intros Hok. pose proof (vo_tables _ _ Hok) as Ht.
  assert (∀ p root g, own !! g = Some (Table root p) → own !! root = Some (Table root [])) as Htab.
  { induction p as [|i p IH] using rev_ind; intros root g Hg.
    - destruct (to_parent _ _ Ht g _ Hg) as [H|(q & i & e & _ & Hr & _)]; [by injection H as <-|].
      pose proof (child_role_length _ _ _ _ _ Hr) as [_ [[Hp _]|[Hp _]]]; [|done]. injection Hp as Hp. by destruct q.
    - destruct (table_parent _ _ root p i g Ht Hg) as (h & e & Hh & _). by eapply IH. }
  intros Hf. destruct r as [root p|root p]; cbn; [by eapply Htab|].
  destruct (to_parent _ _ Ht f _ Hf) as [[=]|(q & i & e & (g & Hg & _) & _)]. by eapply Htab.
Qed.

(** A new address space: empty below, the kernel's memory above. *)
Definition created s own c a s' own' : Prop :=
  confined a s own s' own' ∧ own !! a = None ∧ available (pmm s) a ∧ own' = <[a := Table a []]> own ∧
  user_pages (frames s') a = [] ∧ (∀ i, (256 <= i)%nat → entry_at (frames s') a i = entry_at (frames s) c i).

Lemma same_user_pages s own s' own' r x : vm_ok s own → vm_ok s' own' → own !! r = Some (Table r []) → own' !! r = Some (Table r []) →
  (∀ q j e, length q = 3%nat → slot (frames s') own' r q j e ↔ slot (frames s) own r q j e) →
  x ∈ user_pages (frames s') r ↔ x ∈ user_pages (frames s) r.
Proof.
  intros Hok Hok' Hr Hr' Hs. rewrite (elem_user_pages _ own') by (done || apply (vo_tables _ _ Hok')).
  rewrite (elem_user_pages _ own) by (done || apply (vo_tables _ _ Hok)).
  split; intros (i & j & k & Hi & Hj & Hk & Hsl & H); exists i, j, k; do 3 (split; [done|]); (split; [by apply Hs|done]).
Qed.

Lemma wp_create s own c :
  vm_ok s own → pml4_phys_ s = Some c → frame_ok (frames s) c → ¬ available (pmm s) c →
  wp create_address_space s (λ r s', match r with
    | None => (∀ x, ¬ available (pmm s) x) ∧ frames s' = frames s ∧ vm_ok s' own ∧ (∀ x, ¬ available (pmm s') x) ∧ pml4_phys_ s' = pml4_phys_ s
    | Some a => ∃ own', created s own c a s' own'
    end).
Proof.
  intros Hok Hcur Hc Hnc. pose proof Hok as [H1 H2 H3 H4]. unfold create_address_space. wp_step. apply wp_in_pmm.
  eapply wp_mono; [by apply frame_allocate_spec|]. intros [a|] p' (Hal & Hman & Hr).
  2:{ wp_step. destruct Hr as [Hav Hno]. split; [done|]. split; [done|]. split; [by apply (ex_ok c s own _ own), set_pmm_extends|].
      split; [|done]. intros x Hx. cbn in Hx. by apply Hav in Hx as ?%Hno. }
  destruct Hr as (Hma & Hav & Hav'). destruct (H2 a Hav) as [(Ham & Har & ta & Hta & Hla) Hao].
  pose proof Hc as (Hcm & Hcr & tc & Htc & Hlc). assert (c ≠ a) as Hne by congruence.
  wp_step. wp_step. change (pml4_phys_ (set_pmm p' s)) with (pml4_phys_ s). rewrite Hcur.
  wp_step. eapply wp_write_table; [done|exact Hta|]. wp_step. eapply wp_read_table; [done|cbn; rewrite lookup_insert_ne by done; exact Htc|].
  wp_step. eapply wp_read_table; [done|apply lookup_insert_eq|]. wp_step. eapply wp_write_table; [done|apply lookup_insert_eq|].
  wp_step. rewrite (take_replicate 256 ENTRIES_PER_TABLE). change (256 `min` ENTRIES_PER_TABLE)%nat with 256%nat.
  set (t := replicate 256 0 ++ drop 256 tc).
  assert (length t = ENTRIES_PER_TABLE) as Hlt by (unfold t; rewrite length_app, length_replicate, length_drop, Hlc; done).
  cbn [frames set_frames set_pmm]. rewrite insert_insert_eq.
  change (set_frames ?m (set_frames _ (set_pmm p' s))) with (set_frames m (set_pmm p' s)).
  change (set_frames (<[a := t]> (frames s)) (set_pmm p' s)) with (filled s a t p').
  destruct (frame_filled_ok s own a t p') as (Hok1 & Hla1 & Hsame & Hfr & Hfok); try done.
  set (own' := <[a := Table a []]> own). exists own'.
  assert (∀ i, entry_at (frames (filled s a t p')) a i = t !! i) as Hent by (intros i; apply entry_at_eq).
  assert (∀ i x, t !! i = Some x → has x Present = true → (256 <= i)%nat) as Hlow.
  { intros i x Hx Hp. destruct (decide (i < 256)%nat) as [Hi|]; [|lia]. unfold t in Hx. rewrite lookup_app_l in Hx by (by rewrite length_replicate).
    apply lookup_replicate_1 in Hx as [-> _]. done. }
  assert (∀ r q j x, (r, q) ≠ (a, []) → slot (frames (filled s a t p')) own' r q j x ↔ slot (frames s) own r q j x) as Hslots.
  { intros r q j x Hq. rewrite <- (Hsame r q j x). unfold own'. split; intros (f & Hf & He & Hp); exists f; (split; [|done]).
    - rewrite lookup_insert_ne in Hf; [done|]. intros <-. rewrite lookup_insert_eq in Hf. congruence.
    - rewrite lookup_insert_ne; [done|congruence]. }
  assert (tables_ok (frames (filled s a t p')) own') as Htab.
  { split.
    - intros r p i e ro Hsl Hcr'. destruct (decide ((r, p) = (a, []))) as [[= -> ->]|Hd].
      + exfalso. destruct Hsl as (f & Hf & He & Hp). assert (f = a) as ->.
        { unfold own' in Hf. destruct (decide (f = a)) as [|Hfa]; [done|]. rewrite lookup_insert_ne in Hf by done.
          destruct (to_parent _ _ H4 f _ Hf) as [Hx|(q & j & y & _ & Hq & _)]; [by injection Hx as ->|].
          pose proof (child_role_length _ _ _ _ _ Hq) as [_ [[Hx _]|[Hx _]]]; [|done]. injection Hx as Hx. by destruct q. }
        rewrite Hent in He. pose proof (Hlow i e He Hp). unfold child_role in Hcr'. cbn in Hcr'. rewrite decide_False in Hcr' by lia. done.
      + apply Hslots in Hsl; [|done]. pose proof (to_child _ _ H4 _ _ _ _ _ Hsl Hcr') as Ho. unfold own'. rewrite lookup_insert_ne; [done|congruence].
    - intros f r Hf. unfold own' in Hf. destruct (decide (f = a)) as [->|Hfa]; [rewrite lookup_insert_eq in Hf; injection Hf as <-; by left|].
      rewrite lookup_insert_ne in Hf by done. destruct (to_parent _ _ H4 f r Hf) as [->|(p & i & e & Hs & Hr & Hph)]; [by left|right].
      exists p, i, e. split; [|done]. apply Hslots; [|done]. intros Hd. injection Hd as Hra ->. destruct Hs as (g & Hg & _).
      pose proof (root_owned s own g _ Hok Hg) as Hro. cbn in Hro. rewrite Hra in Hro. congruence. }
  assert (vm_ok (filled s a t p') own') as Hok'.
  { split; [done|intros f [Hf Hfa]%Hav'|intros f r Hf|done].
    - split; [by apply Hfok, H2|]. unfold own'. rewrite lookup_insert_ne by done. by apply H2.
    - unfold own' in Hf. destruct (decide (f = a)) as [->|Hfa].
      + destruct Hla1 as (_ & ? & ? & ?). done.
      + rewrite lookup_insert_ne in Hf by done. by apply (vo_owned _ _ Hok1 f r). }
  split; [|split; [done|split; [done|split; [done|split]]]].
  - split; try done.
    + intros f r Hf. unfold own'. rewrite lookup_insert_ne; [done|congruence].
    + intros f r Hf. unfold own' in Hf. destruct (decide (f = a)) as [->|Hfa]; [rewrite lookup_insert_eq in Hf; injection Hf as <-; by right|].
      rewrite lookup_insert_ne in Hf by done. by left.
    + intros f. cbn [pmm filled set_frames set_pmm]. rewrite Hav'. unfold own'. destruct (decide (f = a)) as [->|Hfa].
      * rewrite lookup_insert_eq. split; [tauto|by intros [_ ?]].
      * rewrite lookup_insert_ne by done. split; [intros [Hf _]; split; [done|by apply H2]|tauto].
    + intros f Hnf Hno. apply Hfr. congruence.
    + intros r q j x Hq Hr. apply Hslots. destruct Hr as [?|[_ Hr]]; congruence.
    + intros r q j x _ Hx. exists x. split; [|apply wider_refl]. apply Hslots; [|done]. intros [= -> ->].
      destruct Hx as (g & Hg & _). pose proof (root_owned s own g _ Hok Hg) as Hro. cbn in Hro. congruence.
  - unfold user_pages. rewrite Hent. destruct (t !! 0%nat) as [e|] eqn:He; [|done]. destruct (has e Present) eqn:Ep; [|done].
    pose proof (Hlow 0%nat e He Ep). lia.
  - intros i Hi. rewrite Hent, (entry_at_Some _ _ _ _ Htc). unfold t. rewrite lookup_app_r by (rewrite length_replicate; lia).
    rewrite length_replicate, lookup_drop. f_equal. lia.
Qed.
End vmm.


(** The frames [destroy_address_space] frees after the pages, in this order. *)
Definition pts_of (m : gmap Z (list Z)) (pd : Z) : nat → nat → list Z :=
  gather (λ j, match entry_at m pd j with Some e => if has e Present then [phys e] else [] | None => [] end).
Definition pds_of (m : gmap Z (list Z)) (pdpt : Z) : nat → nat → list Z :=
  gather (λ i, match entry_at m pdpt i with Some e => if has e Present then pts_of m (phys e) ENTRIES_PER_TABLE 0 ++ [phys e] else [] | None => [] end).
Definition tables_of (m : gmap Z (list Z)) (root : Z) : list Z :=
  (match entry_at m root 0 with Some e => if has e Present then pds_of m (phys e) ENTRIES_PER_TABLE 0 ++ [phys e] else [] | None => [] end) ++ [root].
Definition frames_of (m : gmap Z (list Z)) (root : Z) : list Z := (λ x, phys x.2) <$> user_pages m root.

Lemma pts_of_S m f n j : pts_of m f (S n) j =
  (match entry_at m f j with Some e => if has e Present then [phys e] else [] | None => [] end) ++ pts_of m f n (S j).
Proof. done. Qed.
Lemma pds_of_S m f n i : pds_of m f (S n) i =
  (match entry_at m f i with Some e => if has e Present then pts_of m (phys e) ENTRIES_PER_TABLE 0 ++ [phys e] else [] | None => [] end) ++ pds_of m f n (S i).
Proof. done. Qed.

(** ** Which frames these are *)
Section frames.
Context (m : gmap Z (list Z)) (own : Owners) (root : Z).
Context (Hok : tables_ok m own) (Hroot : own !! root = Some (Table root [])).

Lemma elem_pts_of pd i x : own !! pd = Some (Table root [0%nat; i]) →
  x ∈ pts_of m pd ENTRIES_PER_TABLE 0 → ∃ j, own !! x = Some (Table root [0%nat; i; j]).
Proof using Hok.
  intros Hpd (j & Hj & Hx)%elem_gather. exists j. destruct (entry_at m pd j) as [e|] eqn:He; [|in_nil].
  destruct (has e Present) eqn:Ep; [|in_nil]. apply list_elem_of_singleton in Hx as ->.
  eapply (to_child _ _ Hok root [0%nat; i] j e); [by exists pd|done].
Qed.

Lemma elem_pds_of pdpt x : own !! pdpt = Some (Table root [0%nat]) → x ∈ pds_of m pdpt ENTRIES_PER_TABLE 0 →
  ∃ i p, own !! x = Some (Table root (0%nat :: i :: p)).
Proof using Hok.
  intros Hpdpt (i & Hi & Hx)%elem_gather. exists i. destruct (entry_at m pdpt i) as [e|] eqn:He; [|in_nil].
  destruct (has e Present) eqn:Ep; [|in_nil].
  assert (own !! phys e = Some (Table root [0%nat; i])) as Hpd by (eapply (to_child _ _ Hok root [0%nat] i e); [by exists pdpt|done]).
  apply elem_of_app in Hx as [Hx|Hx]; [|apply list_elem_of_singleton in Hx as ->; by exists []].
  destruct (elem_pts_of _ _ _ Hpd Hx) as [j Hj]. by exists [j].
Qed.

Lemma NoDup_pts_of pd i : own !! pd = Some (Table root [0%nat; i]) → NoDup (pts_of m pd ENTRIES_PER_TABLE 0).
Proof using Hok.
  intros Hpd. rewrite <- (list_fmap_id (pts_of _ _ _ _)). apply NoDup_gather.
  - intros j _. destruct (entry_at m pd j) as [e|]; [|constructor]. destruct (has e Present); [apply NoDup_singleton|constructor].
  - intros j j' x y _ _ Hx Hy. cbn. intros ->. destruct (entry_at m pd j) as [e|] eqn:He; [|in_nil]. destruct (entry_at m pd j') as [e'|] eqn:He'; [|in_nil].
    destruct (has e Present) eqn:Ep; [|in_nil]. destruct (has e' Present) eqn:Ep'; [|in_nil].
    apply list_elem_of_singleton in Hx as ->. apply list_elem_of_singleton in Hy.
    assert (own !! phys e = Some (Table root [0%nat; i; j])) as H1 by (eapply (to_child _ _ Hok root [0%nat; i] j e); [by exists pd|done]).
    assert (own !! phys e' = Some (Table root [0%nat; i; j'])) as H2 by (eapply (to_child _ _ Hok root [0%nat; i] j' e'); [by exists pd|done]).
    congruence.
Qed.

Lemma NoDup_pds_of pdpt : own !! pdpt = Some (Table root [0%nat]) → NoDup (pds_of m pdpt ENTRIES_PER_TABLE 0).
Proof using Hok.
  intros Hpdpt. rewrite <- (list_fmap_id (pds_of _ _ _ _)). apply NoDup_gather.
  - intros i _. rewrite list_fmap_id. destruct (entry_at m pdpt i) as [e|] eqn:He; [|constructor]. destruct (has e Present) eqn:Ep; [|constructor].
    assert (own !! phys e = Some (Table root [0%nat; i])) as Hpd by (eapply (to_child _ _ Hok root [0%nat] i e); [by exists pdpt|done]).
    apply NoDup_app. split; [by eapply NoDup_pts_of|]. split; [|apply NoDup_singleton].
    intros x Hx Hy. apply list_elem_of_singleton in Hy as ->. destruct (elem_pts_of _ _ _ Hpd Hx) as [j Hj]. congruence.
  - assert (∀ i x, x ∈ match entry_at m pdpt i with Some e => if has e Present then pts_of m (phys e) ENTRIES_PER_TABLE 0 ++ [phys e] else [] | None => [] end →
      ∃ p, own !! x = Some (Table root (0%nat :: i :: p))) as Hrole.
    { intros i x Hx. destruct (entry_at m pdpt i) as [e|] eqn:He; [|in_nil]. destruct (has e Present) eqn:Ep; [|in_nil].
      assert (own !! phys e = Some (Table root [0%nat; i])) as Hpd by (eapply (to_child _ _ Hok root [0%nat] i e); [by exists pdpt|done]).
      apply elem_of_app in Hx as [Hx|Hx]; [|apply list_elem_of_singleton in Hx as ->; by exists []].
      destruct (elem_pts_of _ _ _ Hpd Hx) as [j Hj]. by exists [j]. }
    intros i i' x y _ _ [p Hp]%Hrole [p' Hp']%Hrole. cbn. intros ->. congruence.
Qed.

Lemma elem_tables_of x : x ∈ tables_of m root → ∃ p, own !! x = Some (Table root p).
Proof using Hok Hroot.
  unfold tables_of. intros [Hx|Hx]%elem_of_app; [|apply list_elem_of_singleton in Hx as ->; by exists []].
  destruct (entry_at m root 0) as [e|] eqn:He; [|in_nil]. destruct (has e Present) eqn:Ep; [|in_nil].
  assert (own !! phys e = Some (Table root [0%nat])) as Hpdpt by (eapply (to_child _ _ Hok root [] 0 e); [by exists root|done]).
  apply elem_of_app in Hx as [Hx|Hx]; [|apply list_elem_of_singleton in Hx as ->; by exists [0%nat]].
  destruct (elem_pds_of _ _ Hpdpt Hx) as (i & p & Hp). by eexists.
Qed.

Lemma elem_frames_of x : x ∈ frames_of m root → ∃ i j k, own !! x = Some (Page root [0%nat; i; j; k]).
Proof using Hok Hroot.
  intros (y & -> & Hy)%list_elem_of_fmap. apply (elem_user_pages m own root y Hok Hroot) in Hy as (i & j & k & _ & _ & _ & Hs & Hu & _).
  exists i, j, k. eapply (to_child _ _ Hok); [exact Hs|]. unfold child_role. cbn. by rewrite Hu.
Qed.

Lemma NoDup_all : NoDup (frames_of m root ++ tables_of m root).
Proof using Hok Hroot.
  apply NoDup_app. split; [|split].
  - unfold frames_of. apply NoDup_fmap_2_strong; [|eapply NoDup_fmap_1, NoDup_user_pages].
    intros x y Hx Hy Hxy. apply (elem_user_pages m own root _ Hok Hroot) in Hx as (i & j & k & Hi & Hj & Hk & Hs & Hu & Hva).
    apply (elem_user_pages m own root _ Hok Hroot) in Hy as (i' & j' & k' & Hi' & Hj' & Hk' & Hs' & Hu' & Hva').
    assert (own !! phys x.2 = Some (Page root [0%nat; i; j; k])) as H1 by (eapply (to_child _ _ Hok); [exact Hs|]; unfold child_role; cbn; by rewrite Hu).
    assert (own !! phys y.2 = Some (Page root [0%nat; i'; j'; k'])) as H2 by (eapply (to_child _ _ Hok); [exact Hs'|]; unfold child_role; cbn; by rewrite Hu').
    rewrite Hxy, H2 in H1. injection H1 as <- <- <-. pose proof (slot_fun _ _ _ _ _ _ _ Hok Hs Hs'). destruct x, y; cbn in *. congruence.
  - intros x (i & j & k & H1)%elem_frames_of (p & H2)%elem_tables_of. congruence.
  - unfold tables_of. apply NoDup_app. split; [|split; [|apply NoDup_singleton]].
    + destruct (entry_at m root 0) as [e|] eqn:He; [|constructor]. destruct (has e Present) eqn:Ep; [|constructor].
      assert (own !! phys e = Some (Table root [0%nat])) as Hpdpt by (eapply (to_child _ _ Hok root [] 0 e); [by exists root|done]).
      apply NoDup_app. split; [by apply NoDup_pds_of|]. split; [|apply NoDup_singleton].
      intros x Hx Hy. apply list_elem_of_singleton in Hy as ->. destruct (elem_pds_of _ _ Hpdpt Hx) as (i & p & Hp). congruence.
    + intros x Hx Hy. apply list_elem_of_singleton in Hy as ->. destruct (entry_at m root 0) as [e|] eqn:He; [|in_nil].
      destruct (has e Present) eqn:Ep; [|in_nil].
      assert (own !! phys e = Some (Table root [0%nat])) as Hpdpt by (eapply (to_child _ _ Hok root [] 0 e); [by exists root|done]).
      apply elem_of_app in Hx as [Hx|Hx]; [|apply list_elem_of_singleton in Hx; congruence].
      destruct (elem_pds_of _ _ Hpdpt Hx) as (i & p & Hp). congruence.
Qed.
End frames.

Section space.
Context {P : Type} `{HP : FrameAllocator P} `{HS : !FrameAllocatorSpec P}.
Implicit Types (s : Vmm P) (own : Owners).

(** Every frame of the address space is among them. *)
Lemma table_cases s own root p f : vm_ok s own → own !! f = Some (Table root p) →
  p = [] ∨ p = [0%nat] ∨ (∃ i, p = [0%nat; i]) ∨ ∃ i j, p = [0%nat; i; j].
Proof.
  intros Hok Hf. pose proof (vo_tables _ _ Hok) as Ht. destruct p as [|a p]; [by left|].
  assert (∀ a g, own !! g = Some (Table root [a]) → a = 0%nat) as H0.
  { intros a' g Hg. destruct (to_parent _ _ Ht g _ Hg) as [[=]|(q & i & e & _ & Hr & _)].
    pose proof (child_role_length _ _ _ _ _ Hr) as [_ [[Hp _]|[Hp _]]]; [|done]. injection Hp as Hp.
    destruct q as [|? q]; [|by destruct q]. cbn in Hp. injection Hp as ->. unfold child_role in Hr. cbn in Hr. by destruct (decide _). }
  destruct p as [|b [|c [|d p]]].
  - right; left. by rewrite (H0 a f Hf).
  - destruct (table_parent _ _ root [a] b f Ht Hf) as (g & e & Hg & _). rewrite (H0 a g Hg). right; right; left. by exists b.
  - destruct (table_parent _ _ root [a; b] c f Ht Hf) as (g & e & Hg & _). destruct (table_parent _ _ root [a] b g Ht Hg) as (g' & e' & Hg' & _).
    rewrite (H0 a g' Hg'). right; right; right. by exists b, c.
  - exfalso. destruct (to_parent _ _ Ht f _ Hf) as [[=]|(q & i & e & _ & Hr & _)].
    pose proof (child_role_length _ _ _ _ _ Hr) as [_ [[Hp Hl]|[Hp _]]]; [|done]. cbn in Hp. injection Hp as Hp.
    apply (f_equal length) in Hp. rewrite length_app in Hp. cbn in Hp. lia.
Qed.

Lemma all_frames s own root f r : vm_ok s own → own !! root = Some (Table root []) → own !! f = Some r → root_of r = root →
  f ∈ frames_of (frames s) root ++ tables_of (frames s) root.
Proof.
  intros Hok Hroot Hf Hr. pose proof (vo_tables _ _ Hok) as Ht. apply elem_of_app. destruct r as [r p|r p]; cbn in Hr; subst r.
  - right. unfold tables_of. apply elem_of_app. destruct (table_cases s own root p f Hok Hf) as [->|[->|[(i & ->)|(i & j & ->)]]].
    + right. apply list_elem_of_singleton. by eapply role_unique_table.
    + left. destruct (table_parent _ _ root [] 0 f Ht Hf) as (g & e & Hg & He & Hp & <-). rewrite (role_unique_table _ _ _ _ _ _ Ht Hg Hroot) in He.
      rewrite He, Hp. apply elem_of_app. right. by apply list_elem_of_singleton.
    + left. destruct (table_parent _ _ root [0%nat] i f Ht Hf) as (g & e & Hg & He & Hp & <-).
      destruct (table_parent _ _ root [] 0 g Ht Hg) as (g' & e' & Hg' & He' & Hp' & <-). rewrite (role_unique_table _ _ _ _ _ _ Ht Hg' Hroot) in He'.
      rewrite He', Hp'. apply elem_of_app. left. apply elem_gather. exists i. pose proof (entry_range _ _ _ _ _ _ Hok Hg He).
      split; [idx_lia|]. rewrite He, Hp. apply elem_of_app. right. by apply list_elem_of_singleton.
    + left. destruct (table_parent _ _ root [0%nat; i] j f Ht Hf) as (h & e2 & Hh & He2 & Hp2 & <-).
      destruct (table_parent _ _ root [0%nat] i h Ht Hh) as (g & e & Hg & He & Hp & <-).
      destruct (table_parent _ _ root [] 0 g Ht Hg) as (g' & e' & Hg' & He' & Hp' & <-). rewrite (role_unique_table _ _ _ _ _ _ Ht Hg' Hroot) in He'.
      rewrite He', Hp'. apply elem_of_app. left. apply elem_gather. exists i. pose proof (entry_range _ _ _ _ _ _ Hok Hg He).
      split; [idx_lia|]. rewrite He, Hp. apply elem_of_app. left. apply elem_gather. exists j. pose proof (entry_range _ _ _ _ _ _ Hok Hh He2).
      split; [idx_lia|]. rewrite He2, Hp2. by apply list_elem_of_singleton.
  - left. destruct (to_parent _ _ Ht f _ Hf) as [[=]|(q & k & e & Hs & Hr & Hph)]. cbn in Hs, Hr.
    pose proof (child_role_length _ _ _ _ _ Hr) as [_ [[Hp _]|[_ Hq]]]; [done|].
    destruct (low_slot s own root q k e Hok Hs Hq) as (i & j & -> & Hi & Hj & Hk). unfold child_role in Hr. cbn in Hr.
    destruct (has e User) eqn:Eu; [|done]. apply list_elem_of_fmap. exists (page_address i j k, e). split; [done|].
    apply (elem_user_pages _ own); [done|done|]. by exists i, j, k.
Qed.

(** ** Freeing them *)
Section free.
Context (s0 : Vmm P) (own0 : Owners) (root : Z).
Context (Hok : vm_ok s0 own0) (Hroot : own0 !! root = Some (Table root [])).
Abbreviation m0 := (frames s0).
Abbreviation all := (frames_of m0 root ++ tables_of m0 root).

(** The frames [l] have been freed, nothing else has changed. *)
Definition freed (l : list Z) s : Prop :=
  alloc_ok (pmm s) ∧ (∀ f, managed (pmm s) f ↔ managed (pmm s0) f) ∧ (∀ f, available (pmm s) f ↔ available (pmm s0) f ∨ f ∈ l) ∧
  frames s = m0 ∧ pml4_phys_ s = pml4_phys_ s0 ∧ cr3 s = cr3 s0.

Lemma all_owned f : f ∈ all → ∃ r, own0 !! f = Some r ∧ root_of r = root.
Proof using Hok Hroot.
  pose proof (vo_tables _ _ Hok) as Ht. intros [Hf|Hf]%elem_of_app.
  - destruct (elem_frames_of m0 own0 root Ht Hroot f Hf) as (i & j & k & H). by eexists.
  - destruct (elem_tables_of m0 own0 root Ht Hroot f Hf) as (p & H). by eexists.
Qed.

Lemma wp_free_frame done f rest s :
  all = done ++ f :: rest → freed done s → wp (in_pmm (frame_free (Some f))) s (λ _ s', freed (done ++ [f]) s').
Proof using Hok Hroot.
  intros Hall (Ha & Hm & Hav & Hfr & Hr1 & Hr2). destruct (all_owned f) as (r & Hf & _); [rewrite Hall; set_solver|].
  destruct (vo_owned _ _ Hok _ _ Hf) as (_ & Hmf & Hnf).
  assert (f ∉ done) as Hnew.
  { pose proof (NoDup_all m0 own0 root (vo_tables _ _ Hok) Hroot) as Hnd. rewrite Hall in Hnd. apply NoDup_app in Hnd as (_ & Hnd & _).
    intros Hd. apply (Hnd f Hd). set_solver. }
  apply wp_in_pmm. eapply wp_mono; [apply frame_free_spec; [done|by apply Hm|by rewrite Hav; intros [?|?]]|].
  intros [] p' (Ha' & Hm' & Hav'). split; [done|]. split; [intros g; cbn; by rewrite Hm', Hm|]. split; [|done].
  intros g. cbn. rewrite Hav', Hav, elem_of_app, list_elem_of_singleton. tauto.
Qed.

Lemma read_freed done s f p i (Q : Z → Vmm P → Prop) :
  freed done s → own0 !! f = Some (Table root p) → (i < ENTRIES_PER_TABLE)%nat →
  (∀ e, entry_at m0 f i = Some e → (has e Present = true → slot m0 own0 root p i e) → Q e s) →
  wp (read_entry (physical_to_virtual (Some f)) (Z.of_nat i)) s Q.
Proof using Hok.
  intros Hd. refine (read_src s0 own0 root (λ _ s', freed done s') Hok _ [] s f p i Q Hd). by intros l s' g q (_ & _ & _ & -> & _) _.
Qed.

Lemma wp_free_pts n j pd i done rest s :
  own0 !! pd = Some (Table root [0%nat; i]) → (j + n <= ENTRIES_PER_TABLE)%nat → freed done s →
  all = done ++ pts_of m0 pd n j ++ rest →
  wp (free_pts n (physical_to_virtual (Some pd)) (Z.of_nat j)) s (λ _ s', freed (done ++ pts_of m0 pd n j) s').
Proof using Hok Hroot.
  revert j done s. induction n as [|n IH]; intros j done s Hpd Hj Hd Hall; cbn [free_pts].
  { wp_step. by rewrite app_nil_r. }
  wp_step. eapply read_freed; [exact Hd|exact Hpd|lia|]. intros e He _. rewrite pts_of_S, He in *. replace (Z.of_nat j + 1) with (Z.of_nat (S j)) by lia.
  wp_step. destruct (has e Present) eqn:Ep; [|wp_step; by apply IH; [done|lia|..]].
  eapply wp_mono; [eapply wp_free_frame; [exact Hall|exact Hd]|]. intros [] s1 H1. rewrite app_assoc. apply IH; [done|lia|done|]. by rewrite <- !app_assoc.
Qed.

Lemma wp_free_pds n i pdpt done rest s :
  own0 !! pdpt = Some (Table root [0%nat]) → (i + n <= ENTRIES_PER_TABLE)%nat → freed done s →
  all = done ++ pds_of m0 pdpt n i ++ rest →
  wp (free_pds n (physical_to_virtual (Some pdpt)) (Z.of_nat i)) s (λ _ s', freed (done ++ pds_of m0 pdpt n i) s').
Proof using Hok Hroot.
  revert i done s. induction n as [|n IH]; intros i done s Hpdpt Hi Hd Hall; cbn [free_pds].
  { wp_step. by rewrite app_nil_r. }
  wp_step. eapply read_freed; [exact Hd|exact Hpdpt|lia|]. intros e He Hsl. rewrite pds_of_S, He in *. replace (Z.of_nat i + 1) with (Z.of_nat (S i)) by lia.
  wp_step. destruct (has e Present) eqn:Ep; [|wp_step; by apply IH; [done|lia|..]].
  assert (own0 !! phys e = Some (Table root [0%nat; i])) as Hpd by (eapply (to_child _ _ (vo_tables _ _ Hok) root [0%nat] i e); [by apply Hsl|done]).
  rewrite <- !app_assoc in Hall. wp_step. eapply wp_mono; [eapply (wp_free_pts _ 0 (phys e) i done); [exact Hpd|lia|exact Hd|exact Hall]|].
  intros [] s1 H1. rewrite (app_assoc done) in Hall. eapply wp_mono; [eapply wp_free_frame; [exact Hall|exact H1]|]. intros [] s2 H2.
  rewrite !app_assoc. apply IH; [done|lia|by rewrite <- !app_assoc in *|]. by rewrite <- !app_assoc in *.
Qed.

Lemma wp_free_user_pages s : freed [] s → wp (free_user_pages (Some root)) s (λ _ s', freed (frames_of m0 root) s').
Proof using Hok Hroot.
  intros Hd. unfold free_user_pages. wp_step.
  eapply wp_mono; [eapply (wp_for_each_user_page s0 own0 root free_page (λ l s', freed ((λ x, phys x.2) <$> l) s') (λ _, False))|].
  - done.
  - by intros l s' g q (_ & _ & _ & -> & _) _.
  - intros done x rest s' Hpages H1. unfold free_page. wp_step. change (entry_to_phys x.2) with (Some (phys x.2)). eapply wp_mono.
    + eapply wp_free_frame; [|exact H1]. unfold frames_of. rewrite Hpages, fmap_app. cbn. by rewrite <- app_assoc.
    + intros [] s2 H2. wp_step. by rewrite fmap_app.
  - done.
  - done.
  - intros [] s' Hb; [|done]. by wp_step.
Qed.

Lemma wp_destroy : wp (destroy_address_space (Some root)) s0 (λ _ s', freed all s').
Proof using Hok Hroot.
  destruct (owned_frame _ _ _ _ Hok Hroot) as (Hr & _). unfold destroy_address_space. rewrite pointer_nonzero by done.
  wp_step. eapply wp_mono; [apply wp_free_user_pages|].
  { split; [apply Hok|]. split; [done|]. split; [set_solver|done]. }
  intros [] s1 H1. wp_step. eapply (read_freed _ s1 root [] 0); [exact H1|exact Hroot|idx_lia|]. intros e He Hsl.
  assert (all = frames_of m0 root ++ (if has e Present then pds_of m0 (phys e) ENTRIES_PER_TABLE 0 ++ [phys e] else []) ++ [root]) as Hall.
  { unfold tables_of. by rewrite He. }
  wp_step. destruct (has e Present) eqn:Ep.
  - assert (own0 !! phys e = Some (Table root [0%nat])) as Hpdpt by (eapply (to_child _ _ (vo_tables _ _ Hok) root [] 0 e); [by apply Hsl|done]).
    pose proof Hall as Hall'. rewrite <- !app_assoc in Hall. wp_step.
    eapply wp_mono; [eapply (wp_free_pds _ 0 (phys e)); [exact Hpdpt|lia|exact H1|exact Hall]|]. intros [] s2 H2.
    rewrite (app_assoc (frames_of _ _)) in Hall. eapply wp_mono; [eapply wp_free_frame; [exact Hall|exact H2]|]. intros [] s3 H3.
    rewrite (app_assoc _ [phys e]) in Hall. eapply wp_mono; [eapply wp_free_frame; [exact Hall|exact H3]|]. intros [] s4 H4. by rewrite Hall.
  - wp_step. cbn in Hall. eapply wp_mono; [eapply wp_free_frame; [exact Hall|exact H1]|]. intros [] s4 H4. by rewrite Hall.
Qed.
End free.

Lemma destroy_wp s own root :
  vm_ok s own → own !! root = Some (Table root []) →
  wp (destroy_address_space (Some root)) s (λ _ s',
    vm_ok s' (filter (λ x, root_of x.2 ≠ root) own) ∧ frames s' = frames s ∧
    (∀ f, available (pmm s') f ↔ available (pmm s) f ∨ ∃ r, own !! f = Some r ∧ root_of r = root) ∧ pml4_phys_ s' = pml4_phys_ s).
Proof.
  intros Hok Hroot. eapply wp_mono; [by eapply wp_destroy|]. intros [] s' (Hal & Hman & Hav & Hfr & Hregs & _).
  assert (∀ f, available (pmm s') f ↔ available (pmm s) f ∨ ∃ r, own !! f = Some r ∧ root_of r = root) as Hav'.
  { intros f. rewrite Hav. split; (intros [H|H]; [by left|right]).
    - by eapply all_owned.
    - destruct H as (r & Hf & Hr). by eapply all_frames. }
  split; [|done]. destruct Hok as [H1 H2 H3 H4]. split; [done| | |].
  - intros f Hf. apply Hav' in Hf. rewrite Hfr. split; [destruct Hf as [Hf|(r & Hf & _)]; [by apply H2|by eapply H3]|].
    apply map_lookup_filter_None. destruct Hf as [Hf|(r & Hf & Hr)]; [left; by apply H2|right]. intros r' Hr'. cbn. intros Hne. congruence.
  - intros f r [Hf Hr]%map_lookup_filter_Some. rewrite Hfr, Hman. destruct (H3 f r Hf) as (H5 & H6 & H7). split; [done|]. split; [done|].
    rewrite Hav'. intros [?|(r' & Hf' & Hr')]; [done|]. cbn in Hr. congruence.
  - rewrite Hfr. split.
    + intros r p i e ro (f & [Hf Hr]%map_lookup_filter_Some & He) Hcr. apply map_lookup_filter_Some. split; [eapply (to_child _ _ H4); [by exists f|done]|].
      cbn in *. by apply child_role_length in Hcr as [_ [[-> _]|[-> _]]].
    + intros f r [Hf Hr]%map_lookup_filter_Some. destruct (to_parent _ _ H4 f r Hf) as [|(p & i & e & (g & Hg & He) & H5)]; [by left|right].
      exists p, i, e. split; [|done]. exists g. split; [|done]. by apply map_lookup_filter_Some.
Qed.
End space.
