(* ===== verification/VmmKernel.v ===== *)
(** * The kernel's half of the address spaces

    Every root refers with its last entry to the same tables, those of the kernel.
    [map_page] and [map_page_in] below them add tables and change one entry of a page
    table for all address spaces at once; the lower halves stay. *)
From stdpp Require Import gmap.
From S2P Require Import Prelude Vmm VmmSpec VmmMap VmmVisit VmmCopy VmmSpace.

(** The index of the kernel's tables in a root: those of the addresses from
    0xFFFFFF8000000000 on. *)
Definition KERNEL_INDEX : nat := 511.

Definition KERNEL_BASE : Z := 0xFFFFFF8000000000.
Lemma kernel_index va : KERNEL_BASE <= va < 2 ^ 64 → Z.to_nat (pml4_index va) = KERNEL_INDEX.
Proof. unfold KERNEL_BASE, KERNEL_INDEX, pml4_index. intros Hva. rewrite index_eq by lia. change (2 ^ 39) with 549755813888. lia. Qed.

(** Tables of the kernel by the path below the root; present entries of them. *)
Abbreviation KTables := (gmap Z (list nat)).
Definition kslot (m : gmap Z (list Z)) (kt : KTables) (q : list nat) (i : nat) (e : Z) : Prop :=
  ∃ f, kt !! f = Some q ∧ entry_at m f i = Some e ∧ has e Present = true.

(** No entry of an upper table of the kernel has lost anything, nor the entry of the
    root [r] that leads to them. *)
Definition kwide (m : gmap Z (list Z)) (kt : KTables) (m' : gmap Z (list Z)) (kt' : KTables) : Prop :=
  ∀ q i x, (length q <= 1)%nat → kslot m kt q i x → ∃ x', kslot m' kt' q i x' ∧ wider x x'.
Definition top_wide (m m' : gmap Z (list Z)) (r : Z) : Prop :=
  ∀ x, entry_at m r KERNEL_INDEX = Some x → ∃ x', entry_at m' r KERNEL_INDEX = Some x' ∧ wider x x'.

Lemma kwide_same m kt m' kt' : (∀ q i x, (length q <= 1)%nat → kslot m kt q i x → kslot m' kt' q i x) → kwide m kt m' kt'.
Proof. intros Hs q i x Hq Hx. exists x. split; [by apply Hs|apply wider_refl]. Qed.
Lemma top_same m m' r : entry_at m' r KERNEL_INDEX = entry_at m r KERNEL_INDEX → top_wide m m' r.
Proof. intros Hs x Hx. exists x. split; [congruence|apply wider_refl]. Qed.
Lemma kwide_trans m1 kt1 m2 kt2 m3 kt3 : kwide m1 kt1 m2 kt2 → kwide m2 kt2 m3 kt3 → kwide m1 kt1 m3 kt3.
Proof.
  intros H12 H23 q i x Hq Hx. destruct (H12 _ _ _ Hq Hx) as (y & Hy & Hxy). destruct (H23 _ _ _ Hq Hy) as (z & Hz & Hyz).
  exists z. split; [done|by eapply wider_trans].
Qed.
Lemma top_trans m1 m2 m3 r : top_wide m1 m2 r → top_wide m2 m3 r → top_wide m1 m3 r.
Proof.
  intros H12 H23 x Hx. destruct (H12 _ Hx) as (y & Hy & Hxy). destruct (H23 _ Hy) as (z & Hz & Hyz).
  exists z. split; [done|by eapply wider_trans].
Qed.

Section kernel.
Context {P : Type} `{HP : FrameAllocator P} `{HS : !FrameAllocatorSpec P}.
Implicit Types (s : Vmm P) (own : Owners) (m : gmap Z (list Z)) (kt : KTables).

(** The roots: those of the processes and the one that the boot code made. *)
Definition is_root own (boot r : Z) : Prop := own !! r = Some (Table r []) ∨ r = boot.

(** The tables [kt] below [top] are those of the kernel, in every address space. *)
Record kernel_ok s own kt (top boot : Z) : Prop := {
  ko_top f : kt !! f = Some [] ↔ f = top;
  ko_frame f q : kt !! f = Some q → (length q <= 2)%nat ∧ frame_ok (frames s) f ∧ own !! f = None ∧ ¬ available (pmm s) f;
  ko_child q i e : kslot (frames s) kt q i e → (length q <= 1)%nat → kt !! phys e = Some (q ++ [i]);
  ko_parent f q i : kt !! f = Some (q ++ [i]) → ∃ e, kslot (frames s) kt q i e ∧ phys e = f;
  ko_boot : frame_ok (frames s) boot ∧ own !! boot = None ∧ ¬ available (pmm s) boot ∧ kt !! boot = None;
  ko_root r : is_root own boot r → ∃ e, entry_at (frames s) r KERNEL_INDEX = Some e ∧ has e Present = true ∧ phys e = top;
}.

Lemma kernel_unique s own kt top boot f g q :
  kernel_ok s own kt top boot → kt !! f = Some q → kt !! g = Some q → f = g.
Proof.
  intros Hk. revert f g. induction q as [|i q IH] using rev_ind; intros f g Hf Hg.
  - apply (ko_top _ _ _ _ _ Hk) in Hf as ->, Hg as ->. done.
  - destruct (ko_parent _ _ _ _ _ Hk _ _ _ Hf) as (e & (h & Hh & He & _) & <-).
    destruct (ko_parent _ _ _ _ _ Hk _ _ _ Hg) as (e' & (h' & Hh' & He' & _) & <-).
    rewrite (IH _ _ Hh' Hh), He in He'. by injection He' as ->.
Qed.

Lemma kslot_fun s own kt top boot q i e e' :
  kernel_ok s own kt top boot → kslot (frames s) kt q i e → kslot (frames s) kt q i e' → e = e'.
Proof.
  intros Hk (f & Hf & He & _) (g & Hg & He' & _). rewrite (kernel_unique _ _ _ _ _ _ _ _ Hk Hg Hf), He in He'. by injection He'.
Qed.

Lemma root_frame s own kt top boot r :
  vm_ok s own → kernel_ok s own kt top boot → is_root own boot r → frame_ok (frames s) r ∧ ¬ available (pmm s) r ∧ kt !! r = None.
Proof.
  intros Hok Hk [Hr| ->]; [|split_and!; apply (ko_boot _ _ _ _ _ Hk)]. destruct (vo_owned _ _ Hok _ _ Hr) as (H1 & _ & H2).
  split; [done|]. split; [done|]. destruct (kt !! r) as [q|] eqn:E; [|done]. destruct (ko_frame _ _ _ _ _ Hk _ _ E) as (_ & _ & H & _). congruence.
Qed.

(** A root refers to the kernel's tables with one entry, and no kernel table is below
    another root. *)
Definition upper_entry own (f : Z) (i : nat) (e e' : Z) : Prop :=
  own !! f = None ∨ own !! f = Some (Table f []) ∧ i = KERNEL_INDEX ∧ has e Present = true ∧ has e' Present = true ∧ phys e' = phys e.

(** Writing an entry of a kernel table, or the last entry of a root, keeps the lower
    halves. *)
Lemma upper_write s own f t i e e' :
  vm_ok s own → frames s !! f = Some t → t !! i = Some e → upper_entry own f i e e' →
  let s' := set_frames (<[f := <[i := e']> t]> (frames s)) s in
  vm_ok s' own ∧ (∀ g, frame_ok (frames s) g → frame_ok (frames s') g) ∧
  (∀ r q j x, (q, j) ≠ ([], KERNEL_INDEX) → slot (frames s') own r q j x ↔ slot (frames s) own r q j x).
Proof.
  intros Hok Ht He Hup s'. pose proof (lookup_lt_Some _ _ _ He) as Hi.
  assert (∀ g, frame_ok (frames s) g → frame_ok (frames s') g) as Hfr.
  { intros g Hg. apply frame_ok_insert; [done|]. intros <-. rewrite length_insert. destruct Hg as (_ & _ & t0 & Ht0 & Hl). congruence. }
  assert (tables_ok (frames s') own ∧ ∀ r q j x, (q, j) ≠ ([], KERNEL_INDEX) → slot (frames s') own r q j x ↔ slot (frames s) own r q j x) as [Htab Hsl].
  { destruct Hok as [H1 H2 H3 H4]. destruct Hup as [Hno|(Hr & -> & Hp & Hp' & Hph)].
    - assert (same_slots (frames s) own (frames s') own) as Hsame by (apply slots_same_frames; intros g r p Hg; apply lookup_insert_ne; congruence).
      split; [by eapply tables_same|]. intros r q j x _. apply Hsame.
    - assert (slots_change (frames s) own (frames s') own f [] KERNEL_INDEX (Some e')) as Hch.
      { pose proof (slot_write (frames s) own f t f [] KERNEL_INDEX e') as H. rewrite Hp' in H. apply H; [done| |done|done].
        intros g Hg. by eapply role_unique_table. }
      split; [|intros r q j x Hqj; rewrite (Hch r q j x), decide_False; [done|congruence]].
      eapply tables_replace; [exact H4|exact Hch| |exact Hph|done]. exists f. split; [done|]. by rewrite (entry_at_Some _ _ _ _ Ht). }
  split; [|done]. destruct Hok as [H1 H2 H3 H4]. split; [done|intros g Hg; split; [by apply Hfr, H2|by apply H2]| |done].
  intros g r Hg. destruct (H3 g r Hg) as [H5 H6]. split; [by apply Hfr|done].
Qed.

(** ** Changes of the kernel's half

    Tables may be added; the entries of the page tables become those of [leaf]. *)
Record kchange top boot s own kt s' kt' (leaf : list nat → nat → Z → Prop) : Prop := {
  kc_ok : vm_ok s' own;
  kc_kernel : kernel_ok s' own kt' top boot;
  kc_sub f q : kt !! f = Some q → kt' !! f = Some q;
  kc_new f q : kt' !! f = Some q → kt !! f = Some q ∨ available (pmm s) f;
  kc_avail f : available (pmm s') f ↔ available (pmm s) f ∧ kt' !! f = None;
  kc_managed f : managed (pmm s') f ↔ managed (pmm s) f;
  kc_mem f : ¬ available (pmm s) f → kt !! f = None → ¬ is_root own boot f → frames s' !! f = frames s !! f;
  kc_frame f : frame_ok (frames s) f → frame_ok (frames s') f;
  kc_low r q j x : (q, j) ≠ ([], KERNEL_INDEX) → slot (frames s') own r q j x ↔ slot (frames s) own r q j x;
  kc_leaf q j x : length q = 2%nat → kslot (frames s') kt' q j x ↔ leaf q j x;
  kc_wide : kwide (frames s) kt (frames s') kt';
  kc_top r : is_root own boot r → top_wide (frames s) (frames s') r;
  kc_regs : pml4_phys_ s' = pml4_phys_ s ∧ cr3 s' = cr3 s;
}.
Abbreviation kstep top boot s own kt s' kt' := (kchange top boot s own kt s' kt' (kslot (frames s) kt)).

Lemma kstep_refl top boot s own kt : vm_ok s own → kernel_ok s own kt top boot → kstep top boot s own kt s kt.
Proof.
  intros Hok Hk. split; try done; [by left| |by apply kwide_same|intros r _; by apply top_same]. intros f. split; [|tauto]. intros Hf. split; [done|].
  destruct (kt !! f) as [q|] eqn:E; [|done]. by destruct (ko_frame _ _ _ _ _ Hk _ _ E) as (_ & _ & _ & ?).
Qed.

Lemma kchange_trans top boot s1 own kt1 s2 kt2 s3 kt3 leaf0 leaf :
  kchange top boot s1 own kt1 s2 kt2 leaf0 → kchange top boot s2 own kt2 s3 kt3 leaf → kchange top boot s1 own kt1 s3 kt3 leaf.
Proof.
  intros [A1 A2 A3 A4 A5 A6 A7 A8 A9 A10 AW AT A11] [B1 B2 B3 B4 B5 B6 B7 B8 B9 B10 BW BT B11]. split; try done.
  - auto.
  - intros f q [Hf|Hf]%B4; [by apply A4|right]. by apply A5 in Hf as [Hf _].
  - intros f. rewrite B5, A5. split; [tauto|]. intros [H1 H2]. split; [|done]. split; [done|].
    destruct (kt2 !! f) eqn:E; [|done]. apply B3 in E. congruence.
  - intros f. by rewrite B6, A6.
  - intros f Hav Hno Hr. rewrite B7, A7; [done|done|done|done|by rewrite A5; tauto| |done].
    destruct (kt2 !! f) as [q|] eqn:E; [|done]. apply A4 in E as [E|E]; [congruence|done].
  - auto.
  - intros r q j x Hq. by rewrite B9, A9.
  - by eapply kwide_trans.
  - intros r Hr. eapply top_trans; [by apply AT|by apply BT].
  - destruct A11, B11. split; congruence.
Qed.

Lemma kchange_leaf top boot s own kt s' kt' leaf leaf' :
  kchange top boot s own kt s' kt' leaf → (∀ q j x, length q = 2%nat → leaf q j x ↔ leaf' q j x) → kchange top boot s own kt s' kt' leaf'.
Proof. intros [A1 A2 A3 A4 A5 A6 A7 A8 A9 A10 AW AT A11] Hl. split; try done. intros q j x Hq. by rewrite A10, Hl. Qed.

Lemma kstep_trans top boot s1 own kt1 s2 kt2 s3 kt3 :
  kstep top boot s1 own kt1 s2 kt2 → kstep top boot s2 own kt2 s3 kt3 → kstep top boot s1 own kt1 s3 kt3.
Proof. intros H12 H23. eapply kchange_leaf; [by eapply kchange_trans|]. apply (kc_leaf _ _ _ _ _ _ _ _ H12). Qed.

(** ** Slots and writes *)
Lemma kslot_other m kt f t q j x : kt !! f = None → kslot (<[f := t]> m) kt q j x ↔ kslot m kt q j x.
Proof.
  intros Hf. split; intros (g & Hg & He & Hp); exists g; (split; [done|]); (split; [|done]);
    [rewrite entry_at_ne in He by congruence|rewrite entry_at_ne by congruence]; done.
Qed.

Lemma kslot_write s own kt top boot f t q i e' q' j x :
  kernel_ok s own kt top boot → kt !! f = Some q → frames s !! f = Some t → (i < length t)%nat → has e' Present = true →
  kslot (<[f := <[i := e']> t]> (frames s)) kt q' j x ↔ if decide ((q', j) = (q, i)) then x = e' else kslot (frames s) kt q' j x.
Proof.
  intros Hk Hf Ht Hi Hp. case_decide as Hd.
  - injection Hd as -> ->. split.
    + intros (g & Hg & He & _). rewrite (kernel_unique _ _ _ _ _ _ _ _ Hk Hg Hf), entry_at_eq, list_lookup_insert_eq in He by done. congruence.
    + intros ->. exists f. split; [done|]. rewrite entry_at_eq. by rewrite list_lookup_insert_eq.
  - assert (∀ g, kt !! g = Some q' → entry_at (<[f := <[i := e']> t]> (frames s)) g j = entry_at (frames s) g j) as Hsame.
    { intros g Hg. destruct (decide (g = f)) as [->|]; [|by rewrite entry_at_ne]. rewrite Hf in Hg. injection Hg as <-.
      rewrite entry_at_eq, list_lookup_insert_ne by congruence. symmetry. by apply entry_at_Some. }
    split; intros (g & Hg & He & Hx); exists g; (split; [done|]); (split; [|done]); [by rewrite <- Hsame|by rewrite Hsame].
Qed.

(** Replacing an entry by another one for the same frame. *)
Lemma kernel_replace s own kt top boot f t i e e' :
  vm_ok s own → kernel_ok s own kt top boot → frames s !! f = Some t → t !! i = Some e →
  has e Present = true → has e' Present = true → phys e' = phys e →
  (∃ q, kt !! f = Some q) ∨ is_root own boot f ∧ i = KERNEL_INDEX →
  let s' := set_frames (<[f := <[i := e']> t]> (frames s)) s in
  vm_ok s' own ∧ kernel_ok s' own kt top boot ∧ (∀ g, frame_ok (frames s) g → frame_ok (frames s') g) ∧
  (∀ r q j x, (q, j) ≠ ([], KERNEL_INDEX) → slot (frames s') own r q j x ↔ slot (frames s) own r q j x).
Proof.
  intros Hok Hk Ht He Hp Hp' Hph Hwhere s'. pose proof (lookup_lt_Some _ _ _ He) as Hi.
  assert (frames s' = <[f := <[i := e']> t]> (frames s)) as Hs by done.
  assert (upper_entry own f i e e') as Hup.
  { destruct Hwhere as [[q Hq]|[[Hr| ->] ->]]; [left; apply (ko_frame _ _ _ _ _ Hk _ _ Hq)|by right|left; apply (ko_boot _ _ _ _ _ Hk)]. }
  destruct (upper_write s own f t i e e' Hok Ht He Hup) as (Hok' & Hfr & Hlow). split; [done|]. split; [|done].
  assert (∀ g j, g ≠ f ∨ j ≠ i → entry_at (frames s') g j = entry_at (frames s) g j) as Hent.
  { intros g j Hgj. rewrite Hs. destruct (decide (g = f)) as [->|]; [|by rewrite entry_at_ne]. destruct Hgj as [|Hj]; [done|].
    rewrite entry_at_eq, list_lookup_insert_ne by congruence. symmetry. by apply entry_at_Some. }
  assert (∀ q j x, kslot (frames s') kt q j x → ∃ x0, kslot (frames s) kt q j x0 ∧ phys x0 = phys x) as Hback.
  { intros q j x Hx. rewrite Hs in Hx. destruct (kt !! f) as [q0|] eqn:Ef; [|exists x; by rewrite kslot_other in Hx].
    rewrite (kslot_write s own kt top boot f t q0 i e') in Hx by done. case_decide as Hd; [|by exists x]. injection Hd as -> ->. subst x.
    exists e. split; [|done]. exists f. by rewrite (entry_at_Some _ _ _ _ Ht). }
  assert (∀ q j x, kslot (frames s) kt q j x → ∃ x', kslot (frames s') kt q j x' ∧ phys x' = phys x) as Hforth.
  { intros q j x Hx. rewrite Hs. destruct (kt !! f) as [q0|] eqn:Ef; [|exists x; by rewrite kslot_other].
    destruct (decide ((q, j) = (q0, i))) as [Hd|Hd]; [|exists x; rewrite (kslot_write s own kt top boot f t q0 i e') by done; by rewrite decide_False].
    exists e'. rewrite (kslot_write s own kt top boot f t q0 i e') by done. rewrite decide_True by done. split; [done|]. injection Hd as -> ->.
    rewrite Hph. f_equal. apply (kslot_fun _ _ _ _ _ _ _ _ _ Hk) with (2 := Hx). exists f. by rewrite (entry_at_Some _ _ _ _ Ht). }
  destruct Hk as [K1 K2 K3 K4 K5 K6]. split; try done.
  - intros g q Hg. destruct (K2 g q Hg) as (H1 & H2 & H3). split; [done|]. split; [by apply Hfr|done].
  - intros q j x Hx Hq. destruct (Hback _ _ _ Hx) as (x0 & Hx0 & <-). by apply K3.
  - intros g q j Hg. destruct (K4 g q j Hg) as (x & Hx & <-). destruct (Hforth _ _ _ Hx) as (x' & Hx' & Hph'). by exists x'.
  - destruct K5 as (H1 & H2). split; [by apply Hfr|done].
  - intros r Hr. destruct (K6 r Hr) as (x & Hx & Hxp & Hxt). destruct (decide (r = f ∧ KERNEL_INDEX = i)) as [[-> <-]|Hd].
    + exists e'. rewrite Hs, entry_at_eq, list_lookup_insert_eq by done. split; [done|]. split; [done|].
      rewrite (entry_at_Some _ _ _ _ Ht), He in Hx. injection Hx as ->. congruence.
    + exists x. rewrite Hent; [done|]. destruct (decide (r = f)) as [->|]; [right; intros Heq; by apply Hd|by left].
Qed.

(** Setting [User] and [Writable]. *)
Lemma widened e flags : has e Present = true →
  has (Z.lor e (Z.land flags (Z.lor User Writable))) Present = true ∧ phys (Z.lor e (Z.land flags (Z.lor User Writable))) = phys e.
Proof.
  intros Hp. split; [rewrite has_Present in *; by rewrite Z.lor_spec, Hp|]. rewrite phys_or.
  assert (phys (Z.land flags (Z.lor User Writable)) = 0) as ->; [by apply flags_and|apply Z.lor_0_r].
Qed.

Lemma widened_user e flags : has flags User = true → has (Z.lor e (Z.land flags (Z.lor User Writable))) User = true.
Proof. rewrite !has_User. intros Hu. rewrite Z.lor_spec, Z.land_spec, Hu. cbn. apply orb_true_r. Qed.

Lemma wp_kernel_widen s own kt top boot f t i e flags (Q : () → Vmm P → Prop) :
  vm_ok s own → kernel_ok s own kt top boot → frames s !! f = Some t → t !! Z.to_nat i = Some e → has e Present = true →
  (∃ q, kt !! f = Some q ∧ (length q <= 1)%nat) ∨ is_root own boot f ∧ Z.to_nat i = KERNEL_INDEX →
  let e' := Z.lor e (Z.land flags (Z.lor User Writable)) in
  (∀ s', kstep top boot s own kt s' kt → entry_at (frames s') f (Z.to_nat i) = Some e' → Q () s') →
  wp (write_entry (physical_to_virtual (Some f)) i e') s Q.
Proof.
  intros Hok Hk Ht He Hp Hwhere e' HQ. destruct (widened e flags Hp) as [Hp' Hph]. fold e' in Hp', Hph.
  assert (frame_ok (frames s) f) as (_ & Hr & _).
  { destruct Hwhere as [(q & Hq & _)|[Hr _]]; [apply (ko_frame _ _ _ _ _ Hk _ _ Hq)|by eapply root_frame]. }
  pose proof (lookup_lt_Some _ _ _ He) as Hi. eapply wp_write_pte; [done|exact Ht|done|].
  assert ((∃ q, kt !! f = Some q) ∨ is_root own boot f ∧ Z.to_nat i = KERNEL_INDEX) as Hw by (destruct Hwhere as [(q & Hq & _)|?]; eauto).
  destruct (kernel_replace s own kt top boot f t (Z.to_nat i) e e' Hok Hk Ht He Hp Hp' Hph Hw) as (Hok' & Hk' & Hfr & Hlow).
  apply HQ; [|cbn; rewrite entry_at_eq; by apply list_lookup_insert_eq].
  split; try done.
  - by left.
  - intros g. cbn. split; [intros Hg; split; [done|]|tauto]. destruct (kt !! g) as [q|] eqn:E; [|done].
    by destruct (ko_frame _ _ _ _ _ Hk _ _ E) as (_ & _ & _ & ?).
  - intros g _ Hno Hr'. cbn. apply lookup_insert_ne. intros <-. destruct Hwhere as [(q & Hq & _)|[? _]]; [congruence|done].
  - intros q j x Hq. cbn. destruct (kt !! f) as [q0|] eqn:Ef; [|by apply kslot_other].
    rewrite (kslot_write s own kt top boot f t q0 (Z.to_nat i) e') by done. rewrite decide_False; [done|]. intros [= -> ->].
    destruct Hwhere as [(q & Hq' & Hl)|[Hr' _]]; [simplify_eq; lia|].
    destruct (root_frame _ _ _ _ _ _ Hok Hk Hr') as (_ & _ & ?). congruence.
  - intros q j x _ Hx. cbn. destruct (kt !! f) as [q0|] eqn:Ef.
    2:{ exists x. split; [by apply kslot_other|apply wider_refl]. }
    destruct (decide ((q, j) = (q0, Z.to_nat i))) as [Hd|Hd].
    + injection Hd as -> ->. exists e'. rewrite (kslot_write s own kt top boot f t q0 (Z.to_nat i) e') by done. rewrite decide_True by done.
      split; [done|]. rewrite (kslot_fun _ _ _ _ _ _ _ _ e Hk Hx) by (by exists f; rewrite (entry_at_Some _ _ _ _ Ht)).
      split; [done|apply lor_wider].
    + exists x. rewrite (kslot_write s own kt top boot f t q0 (Z.to_nat i) e') by done. rewrite decide_False by done. split; [done|apply wider_refl].
  - intros r _ x Hx. cbn. destruct (decide (r = f)) as [->|Hne]; [|rewrite entry_at_ne by done; exists x; split; [done|apply wider_refl]].
    rewrite entry_at_eq. rewrite (entry_at_Some _ _ _ _ Ht) in Hx. destruct (decide (KERNEL_INDEX = Z.to_nat i)) as [Hi'|Hi'].
    + rewrite <- Hi' in *. rewrite list_lookup_insert_eq by done. exists e'. split; [done|]. rewrite He in Hx. injection Hx as <-.
      split; [done|apply lor_wider].
    + rewrite list_lookup_insert_ne by done. exists x. split; [done|apply wider_refl].
Qed.

(** Adding an empty table. *)
Lemma kernel_grow s own kt top boot f t q i e flags a p' :
  vm_ok s own → kernel_ok s own kt top boot → kt !! f = Some q → (length q <= 1)%nat → flags_ok flags → has flags Present = true →
  frames s !! f = Some t → t !! i = Some e → has e Present = false →
  alloc_ok p' → (∀ x, managed p' x ↔ managed (pmm s) x) → managed (pmm s) a → available (pmm s) a →
  (∀ x, available p' x ↔ available (pmm s) x ∧ x ≠ a) →
  kstep top boot s own kt
    (set_frames (<[f := <[i := Z.lor a flags]> t]> (<[a := replicate ENTRIES_PER_TABLE 0]> (frames s))) (set_pmm p' s))
    (<[a := q ++ [i]]> kt).
Proof.
  intros Hok Hk Hf Hl Hfl Hflp Ht He Hep Hal Hman Hma Hav Hav'. set (e' := Z.lor a flags). set (kt' := <[a := q ++ [i]]> kt).
  destruct (vo_available _ _ Hok a Hav) as [(Ham & Har & ta & Hta & Hla) Hao]. pose proof (lookup_lt_Some _ _ _ He) as Hi.
  assert (∀ g r, kt !! g = Some r → g ≠ a) as Hka by (intros g r Hg ->; by destruct (ko_frame _ _ _ _ _ Hk _ _ Hg) as (_ & _ & _ & ?)).
  assert (kt !! a = None) as Hkan by (destruct (kt !! a) as [r|] eqn:E; [by destruct (Hka _ _ E)|done]).
  pose proof (Hka _ _ Hf) as Hfa. assert (phys e' = a) as Hph by (apply phys_entry; [done|lia|done]).
  assert (has e' Present = true) as Hp' by (rewrite has_Present in *; unfold e'; by rewrite Z.lor_spec, Hflp, orb_true_r).
  destruct (frame_filled_ok s own a (replicate ENTRIES_PER_TABLE 0) p') as (Hok1 & Hla1 & Hsame & Hfr1 & Hfok1); try done.
  set (s1 := filled s a (replicate ENTRIES_PER_TABLE 0) p') in *.
  assert (frames s1 !! f = Some t) as Ht1 by (by rewrite Hfr1).
  assert (own !! f = None) as Hfo by apply (ko_frame _ _ _ _ _ Hk _ _ Hf).
  destruct (upper_write s1 own f t i e e' Hok1 Ht1 He (or_introl Hfo)) as (Hok' & Hfr & Hlow).
  set (s' := set_frames (<[f := <[i := e']> t]> (frames s1)) s1) in *.
  assert (frames s' = <[f := <[i := e']> t]> (<[a := replicate ENTRIES_PER_TABLE 0]> (frames s))) as Hs by done.
  assert (∀ g, frame_ok (frames s) g → frame_ok (frames s') g) as Hframe by (intros g Hg; by apply Hfr, Hfok1).
  assert (∀ g j, g ≠ a → g ≠ f ∨ j ≠ i → entry_at (frames s') g j = entry_at (frames s) g j) as Hent.
  { intros g j Hga Hgj. rewrite Hs. destruct (decide (g = f)) as [->|]; [|by rewrite !entry_at_ne]. destruct Hgj as [|Hj]; [done|].
    rewrite entry_at_eq, list_lookup_insert_ne by congruence. symmetry. by apply entry_at_Some. }
  assert (entry_at (frames s') f i = Some e') as Hfe by (rewrite Hs, entry_at_eq; by apply list_lookup_insert_eq).
  assert (∀ j x, entry_at (frames s') a j = Some x → has x Present = false) as Hzero.
  { intros j x Hx. rewrite Hs, entry_at_ne, entry_at_eq in Hx by done. by apply lookup_replicate_1 in Hx as [-> _]. }
  assert (∀ r, ¬ kslot (frames s) kt q i r) as Hnone.
  { intros r (g & Hg & Hge & Hgp). rewrite (kernel_unique _ _ _ _ _ _ _ _ Hk Hg Hf), (entry_at_Some _ _ _ _ Ht) in Hge. congruence. }
  assert (∀ r j x, kslot (frames s') kt' r j x ↔ if decide ((r, j) = (q, i)) then x = e' else kslot (frames s) kt r j x) as Hslot.
  { intros r j x. assert (∀ g, kt' !! g = Some r → entry_at (frames s') g j = Some x → has x Present = true → kt !! g = Some r) as Hold.
    { intros g Hg Hx Hxp. unfold kt' in Hg. destruct (decide (g = a)) as [->|]; [|by rewrite lookup_insert_ne in Hg].
      by rewrite (Hzero _ _ Hx) in Hxp. }
    case_decide as Hd.
    - injection Hd as -> ->. split; [intros (g & Hg & Hx & Hxp)|intros ->; exists f; split; [unfold kt'; by rewrite lookup_insert_ne|done]].
      rewrite (kernel_unique _ _ _ _ _ _ _ _ Hk (Hold _ Hg Hx Hxp) Hf), Hfe in Hx. by injection Hx.
    - assert (∀ g, kt !! g = Some r → entry_at (frames s') g j = entry_at (frames s) g j) as Hg'.
      { intros g Hg. apply Hent; [by eapply Hka|]. destruct (decide (g = f)) as [->|]; [right; congruence|by left]. }
      split; intros (g & Hg & Hx & Hxp); exists g; (split; [|split; [|done]]).
      + by eapply Hold.
      + rewrite <- Hg'; [done|by eapply Hold].
      + unfold kt'. rewrite lookup_insert_ne; [done|]. intros <-. by eapply Hka.
      + by rewrite Hg'. }
  destruct Hk as [K1 K2 K3 K4 K5 K6]. split; try done.
  - split.
    + intros g. unfold kt'. destruct (decide (g = a)) as [->|Hga]; [|rewrite lookup_insert_ne by done; apply K1].
      rewrite lookup_insert_eq. split; [intros [= H]; by destruct q|]. intros ->. rewrite (proj2 (K1 top) eq_refl) in Hkan. done.
    + intros g r Hg. unfold kt' in Hg. cbn [pmm s' s1 filled set_frames set_pmm]. rewrite Hav'. destruct (decide (g = a)) as [->|Hga].
      * rewrite lookup_insert_eq in Hg. injection Hg as <-. rewrite length_app. cbn. split; [lia|]. split; [by apply Hframe, (vo_available _ _ Hok)|]. tauto.
      * rewrite lookup_insert_ne in Hg by done. destruct (K2 g r Hg) as (H1 & H2 & H3 & H4). split; [done|]. split; [by apply Hframe|]. tauto.
    + intros r j x Hx Hr. apply Hslot in Hx. case_decide as Hd; [injection Hd as -> ->; subst x; rewrite Hph; apply lookup_insert_eq|].
      pose proof (K3 _ _ _ Hx Hr) as H. unfold kt'. rewrite lookup_insert_ne; [done|]. intros Ha. symmetry in Ha. by apply (Hka _ _ H).
    + intros g r j Hg. unfold kt' in Hg. destruct (decide (g = a)) as [->|Hga].
      * rewrite lookup_insert_eq in Hg. injection Hg as Hg. apply app_inj_tail in Hg as [<- <-]. exists e'. split; [apply Hslot; by rewrite decide_True|done].
      * rewrite lookup_insert_ne in Hg by done. destruct (K4 g r j Hg) as (x & Hx & <-). exists x. split; [|done]. apply Hslot.
        rewrite decide_False; [done|]. intros [= -> ->]. by eapply Hnone.
    + destruct K5 as (H1 & H2 & H3 & H4). split; [by apply Hframe|]. split; [done|]. cbn [pmm s' s1 filled set_frames set_pmm]. rewrite Hav'. split; [tauto|].
      unfold kt'. rewrite lookup_insert_ne; [done|congruence].
    + intros r Hr. destruct (K6 r Hr) as (x & Hx & Hxp & Hxt). exists x. rewrite Hent; [done| |].
      * destruct Hr as [Hr| ->]; [congruence|]. intros Ha. rewrite Ha in K5. by destruct K5 as (_ & _ & ? & _).
      * left. destruct Hr as [Hr| ->]; [congruence|]. destruct K5 as (_ & _ & _ & ?). congruence.
  - intros g r Hg. unfold kt'. rewrite lookup_insert_ne; [done|]. intros Ha. symmetry in Ha. by apply (Hka _ _ Hg).
  - intros g r Hg. unfold kt' in Hg. destruct (decide (g = a)) as [->|Hga]; [by right|rewrite lookup_insert_ne in Hg by done; by left].
  - intros g. cbn [pmm s' s1 filled set_frames set_pmm]. rewrite Hav'. unfold kt'. destruct (decide (g = a)) as [->|Hga].
    + rewrite lookup_insert_eq. split; [tauto|by intros [_ ?]].
    + rewrite lookup_insert_ne by done. split; [|tauto]. intros [Hg _]. split; [done|].
      destruct (kt !! g) as [r|] eqn:E; [|done]. by destruct (K2 _ _ E) as (_ & _ & _ & ?).
  - intros g Hng Hno _. cbn [frames set_frames]. rewrite lookup_insert_ne by congruence. apply lookup_insert_ne. congruence.
  - intros r p j x Hp. etrans; [by apply Hlow|apply Hsame].
  - intros r j x Hr. etrans; [apply Hslot|]. rewrite decide_False; [done|]. intros [= -> ->]. lia.
  - apply kwide_same. intros r j x _ Hx. apply Hslot. rewrite decide_False; [done|]. intros [= -> ->]. by eapply Hnone.
  - intros r Hr. apply top_same. apply Hent; [|left].
    + destruct Hr as [Hr| ->]; [congruence|]. intros Ha. rewrite Ha in K5. by destruct K5 as (_ & _ & ? & _).
    + destruct Hr as [Hr| ->]; [congruence|]. destruct K5 as (_ & _ & _ & ?). congruence.
Qed.

(** ** The next table *)
Lemma wp_kernel_get s own kt top boot f q i flags (Q : Z → Vmm P → Prop) :
  vm_ok s own → kernel_ok s own kt top boot → kt !! f = Some q → (length q <= 1)%nat → 0 <= i < 512 → flags_ok flags → has flags Present = true →
  (∀ s', kstep top boot s own kt s' kt → (∀ x, ¬ available (pmm s) x) → (∀ g, kt !! g ≠ Some (q ++ [Z.to_nat i])) → Q 0 s') →
  (∀ s' kt' g, kstep top boot s own kt s' kt' → kt' !! g = Some (q ++ [Z.to_nat i]) → (∀ h, kt !! h = Some (q ++ [Z.to_nat i]) → kt' = kt) →
    (∃ x, kslot (frames s') kt' q (Z.to_nat i) x ∧ (has flags User = true → has x User = true)) →
    Q (physical_to_virtual (Some g)) s') →
  wp (get_or_create_table (physical_to_virtual (Some f)) i flags) s Q.
Proof.
  intros Hok Hk Hf Hl Hi Hfl Hflp Hnone Hsome. destruct (ko_frame _ _ _ _ _ Hk _ _ Hf) as (_ & (_ & Hr & t & Ht & Hlen) & _ & Hnf).
  destruct (lookup_lt_is_Some_2 t (Z.to_nat i)) as [e He]; [rewrite Hlen; unfold ENTRIES_PER_TABLE; lia|].
  assert (entry_at (frames s) f (Z.to_nat i) = Some e) as Hfe by (by rewrite (entry_at_Some _ _ _ _ Ht)).
  pose proof (lookup_lt_Some _ _ _ He) as Hlt.
  unfold get_or_create_table. wp_step. eapply wp_read_pte; [done|exact Hfe|]. destruct (has e Present) eqn:Ep; cbn [negb].
  - wp_step. eapply (wp_kernel_widen s own kt top boot f t i e flags); [done..|left; by exists q|]. intros s' Hst He'. wp_step.
    eapply wp_read_pte; [done|exact He'|]. wp_step. destruct (widened e flags Ep) as [Hp' Hph].
    assert (kslot (frames s') kt q (Z.to_nat i) (Z.lor e (Z.land flags (Z.lor User Writable)))) as Hks by by exists f.
    eapply Hsome; [exact Hst| |done|].
    + by eapply (ko_child _ _ _ _ _ (kc_kernel _ _ _ _ _ _ _ _ Hst)).
    + eexists. split; [exact Hks|]. apply widened_user.
  - assert (∀ h, kt !! h ≠ Some (q ++ [Z.to_nat i])) as Hno.
    { intros h Hh. destruct (ko_parent _ _ _ _ _ Hk _ _ _ Hh) as (x & (g & Hg & Hx & Hxp) & _). rewrite (kernel_unique _ _ _ _ _ _ _ _ Hk Hg Hf), Hfe in Hx. congruence. }
    wp_step. apply wp_in_pmm. eapply wp_mono; [apply frame_allocate_spec, Hok|]. intros [a|] p' (Hal & Hman & Hr').
    + destruct Hr' as (Hma & Hav & Hav'). destruct (vo_available _ _ Hok a Hav) as [(Ham & Har & ta & Hta & Hla) Hao].
      assert (f ≠ a) as Hfa by congruence.
      wp_step. eapply wp_write_table; [done|exact Hta|]. wp_step. eapply wp_write_pte; [done|cbn; rewrite lookup_insert_ne by done; exact Ht|done|].
      wp_step. eapply wp_read_pte; [done|cbn; rewrite entry_at_eq; by apply list_lookup_insert_eq|].
      wp_step. assert (entry_to_phys (Z.lor a flags) = Some a) as ->.
      { unfold entry_to_phys. f_equal. apply phys_entry; [done|lia|done]. }
      eapply Hsome; [by eapply (kernel_grow s own kt top boot f t q (Z.to_nat i) e flags a p')|apply lookup_insert_eq| |].
      * intros x Hx. by apply Hno in Hx.
      * exists (Z.lor a flags). split; [exists f; split; [by rewrite lookup_insert_ne|]; split|].
        -- cbn. rewrite entry_at_eq. by apply list_lookup_insert_eq.
        -- rewrite has_Present in *. by rewrite Z.lor_spec, Hflp, orb_true_r.
        -- rewrite !has_User, Z.lor_spec. intros ->. apply orb_true_r.
    + destruct Hr' as [Hav Hav0]. wp_step. eapply Hnone; [|done..]. destruct (kstep_refl top boot s own kt Hok Hk) as [A1 A2 A3 A4 A5 A6 A7 A8 A9 A10 AW AT A11].
      destruct (set_pmm_extends 0 s own p' Hok Hal Hman Hav) as [B1 _ _ _ _ _ _ _ _ _].
      split; try done; cbn [pmm set_pmm]; [|by intros g; rewrite Hav; apply A5].
      destruct A2 as [K1 K2 K3 K4 K5 K6]. split; try done; cbn [pmm set_pmm]; [|by rewrite Hav].
      intros g r Hg. rewrite Hav. by apply K2.
Qed.

(** A root leads to the top table of the kernel. *)
Lemma wp_root_get s own kt top boot r i flags (Q : Z → Vmm P → Prop) :
  vm_ok s own → kernel_ok s own kt top boot → is_root own boot r → Z.to_nat i = KERNEL_INDEX →
  (∀ s', kstep top boot s own kt s' kt →
    (∃ x, entry_at (frames s') r KERNEL_INDEX = Some x ∧ (has flags User = true → has x User = true)) →
    Q (physical_to_virtual (Some top)) s') →
  wp (get_or_create_table (physical_to_virtual (Some r)) i flags) s Q.
Proof.
  intros Hok Hk Hr Hi HQ. destruct (root_frame _ _ _ _ _ _ Hok Hk Hr) as ((_ & Hrr & t & Ht & _) & _ & Hno).
  destruct (ko_root _ _ _ _ _ Hk _ Hr) as (e & He & Hp & Hph). rewrite <- Hi in He. pose proof He as He0. rewrite (entry_at_Some _ _ _ _ Ht) in He0.
  unfold get_or_create_table. wp_step. eapply wp_read_pte; [done|exact He|]. rewrite Hp. cbn [negb]. wp_step.
  eapply (wp_kernel_widen s own kt top boot r t i e flags); [done..|by right|]. intros s' Hst He'. wp_step.
  eapply wp_read_pte; [done|exact He'|]. wp_step. destruct (widened e flags Hp) as [_ Hw].
  change (entry_to_phys ?x) with (Some (phys x)). rewrite Hw, Hph. apply HQ; [done|].
  rewrite Hi in He'. eexists. split; [exact He'|apply widened_user].
Qed.

(** ** The entry of a page *)
Definition kernel_path (va : Z) : list nat := [Z.to_nat (pdpt_index va); Z.to_nat (pd_index va)].

Lemma kernel_leaf s own kt top boot f t q i e e' :
  vm_ok s own → kernel_ok s own kt top boot → kt !! f = Some q → length q = 2%nat → frames s !! f = Some t → t !! i = Some e → has e' Present = true →
  kchange top boot s own kt (set_frames (<[f := <[i := e']> t]> (frames s)) s) kt
    (λ q' j x, if decide ((q', j) = (q, i)) then x = e' else kslot (frames s) kt q' j x).
Proof.
  intros Hok Hk Hf Hl Ht He Hp'. pose proof (lookup_lt_Some _ _ _ He) as Hi. pose proof (ko_frame _ _ _ _ _ Hk _ _ Hf) as (_ & _ & Hfo & Hfa).
  destruct (upper_write s own f t i e e' Hok Ht He (or_introl Hfo)) as (Hok' & Hfr & Hlow). set (s' := set_frames _ s) in *.
  assert (∀ q' j x, kslot (frames s') kt q' j x ↔ if decide ((q', j) = (q, i)) then x = e' else kslot (frames s) kt q' j x) as Hslot.
  { intros q' j x. by apply (kslot_write s own kt top boot f t q i e'). }
  assert (∀ q' j x, length q' ≠ 2%nat → kslot (frames s') kt q' j x ↔ kslot (frames s) kt q' j x) as Hup.
  { intros q' j x Hq. rewrite Hslot, decide_False; [done|]. congruence. }
  destruct (kstep_refl top boot s own kt Hok Hk) as [A1 A2 A3 A4 A5 A6 A7 A8 A9 A10 AW AT A11].
  assert (∀ r, is_root own boot r → r ≠ f) as Hrf.
  { intros r Hr ->. destruct Hr as [Hr| ->]; [congruence|]. destruct (ko_boot _ _ _ _ _ Hk) as (_ & _ & _ & ?). congruence. }
  split; try done; [|intros g _ Hg _; cbn; apply lookup_insert_ne; congruence|apply kwide_same; intros r j x Hr Hx; apply Hup; [lia|done]|
    intros r Hr; apply top_same; cbn; rewrite entry_at_ne; [done|]; symmetry; by apply Hrf].
  destruct Hk as [K1 K2 K3 K4 K5 K6]. split; try done.
  - intros g r Hg. destruct (K2 g r Hg) as (H1 & H2 & H3). split; [done|]. split; [by apply Hfr|done].
  - intros r j x Hx Hr. apply K3; [|done]. apply Hup; [lia|done].
  - intros g r j Hg. destruct (K4 g r j Hg) as (x & Hx & Hph). exists x. split; [|done]. apply Hup; [|done].
    destruct (K2 _ _ Hg) as [Hlen _]. rewrite length_app in Hlen. cbn in Hlen. lia.
  - destruct K5 as (H1 & H2). split; [by apply Hfr|done].
  - intros r Hr. destruct (K6 r Hr) as (x & Hx & Hxs). exists x. cbn [frames s' set_frames]. rewrite entry_at_ne; [done|].
    intros <-. destruct Hr as [Hr| ->]; [congruence|]. destruct K5 as (_ & _ & _ & ?). congruence.
Qed.

(** A table exists only below present entries. *)
Lemma kslot_up s own kt top boot q i j x :
  kernel_ok s own kt top boot → kslot (frames s) kt (q ++ [i]) j x → ∃ e, kslot (frames s) kt q i e ∧ kt !! phys e = Some (q ++ [i]).
Proof.
  intros Hk (f & Hf & _). destruct (ko_parent _ _ _ _ _ Hk _ _ _ Hf) as (e & He & Hph). exists e. by rewrite Hph.
Qed.

(** ** One more page *)
Definition page_leaf s kt (va e : Z) (q : list nat) (j : nat) (x : Z) : Prop :=
  if decide ((q, j) = (kernel_path va, page_entry va)) then x = e else kslot (frames s) kt q j x.

Lemma page_leaf_step top boot s1 own kt1 s2 kt2 s3 kt3 va e :
  kstep top boot s1 own kt1 s2 kt2 → kchange top boot s2 own kt2 s3 kt3 (page_leaf s2 kt2 va e) → kchange top boot s1 own kt1 s3 kt3 (page_leaf s1 kt1 va e).
Proof.
  intros H12 H23. eapply kchange_leaf; [by eapply kchange_trans|].
  intros q j x Hq. unfold page_leaf. case_decide; [done|]. by apply (kc_leaf _ _ _ _ _ _ _ _ H12).
Qed.

(** User code may pass on the way to the last table for [va]. *)
Definition kopen (m : gmap Z (list Z)) kt (r va : Z) : Prop :=
  (∃ x, entry_at m r KERNEL_INDEX = Some x ∧ has x User = true) ∧
  (∃ x, kslot m kt [] (Z.to_nat (pdpt_index va)) x ∧ has x User = true) ∧
  (∃ x, kslot m kt [Z.to_nat (pdpt_index va)] (Z.to_nat (pd_index va)) x ∧ has x User = true).

Lemma kopen_change top boot s own kt s' kt' leaf r va :
  kchange top boot s own kt s' kt' leaf → is_root own boot r → kopen (frames s) kt r va → kopen (frames s') kt' r va.
Proof.
  intros Hch Hr ((x & Hx & Ux) & (y & Hy & Uy) & (z & Hz & Uz)). split; [|split].
  - destruct (kc_top _ _ _ _ _ _ _ _ Hch r Hr x Hx) as (x' & Hx' & _ & H & _). eauto.
  - destruct (kc_wide _ _ _ _ _ _ _ _ Hch [] _ y (ltac:(cbn; lia)) Hy) as (y' & Hy' & _ & H & _). eauto.
  - destruct (kc_wide _ _ _ _ _ _ _ _ Hch [_] _ z (ltac:(cbn; lia)) Hz) as (z' & Hz' & _ & H & _). eauto.
Qed.

Lemma wp_kernel_map s own kt top boot r va pa tflags flags (Q : bool → Vmm P → Prop) :
  vm_ok s own → kernel_ok s own kt top boot → is_root own boot r → Z.to_nat (pml4_index va) = KERNEL_INDEX →
  flags_ok tflags → has tflags Present = true →
  let mapped e := kslot (frames s) kt (kernel_path va) (page_entry va) e in
  (∀ s' kt', kstep top boot s own kt s' kt' → (∀ x, ¬ available (pmm s') x) → (∀ e, ¬ mapped e) → Q false s') →
  (∀ s' kt', kchange top boot s own kt s' kt' (page_leaf s kt va (Z.lor (Z.lor (Z.land pa PAGE_MASK) flags) Present)) →
    (∀ e, mapped e → kt' = kt) → (has tflags User = true → kopen (frames s') kt' r va) → Q true s') →
  wp (map_below (physical_to_virtual (Some r)) va pa tflags flags) s Q.
Proof.
  intros Hok Hk Hr Hva Htf Htp mapped Hnone Hsome. destruct (index_range va) as (_ & Hi1 & Hi2 & Hi3).
  assert (∀ f q s' kt', kernel_ok s' own kt' top boot → kt' !! f = Some q → (physical_to_virtual (Some f) =? 0) = false) as Hptr.
  { intros f q s' kt' Hk' Hf. apply pointer_nonzero. by destruct (ko_frame _ _ _ _ _ Hk' _ _ Hf) as (_ & (_ & ? & _) & _). }
  assert (∀ e, mapped e → (∃ g, kt !! g = Some [Z.to_nat (pdpt_index va)]) ∧ ∃ g, kt !! g = Some (kernel_path va)) as Habove.
  { intros e (g & Hg & _). destruct (ko_parent _ _ _ _ _ Hk _ [_] _ Hg) as (y & (h & Hh & _) & _). by eauto. }
  assert (∀ s1 kt1 s2 kt2, kstep top boot s own kt s1 kt1 → kstep top boot s1 own kt1 s2 kt2 → (∀ x, ¬ available (pmm s1) x) →
    (∀ e, ¬ mapped e) → wp (mret false) s2 Q) as Hfail.
  { intros s1 kt1 s2 kt2 H1 H2 Hno Hnm. wp_step. eapply Hnone; [by eapply kstep_trans| |done]. intros x. rewrite (kc_avail _ _ _ _ _ _ _ _ H2). by intros [?%Hno _]. }
  unfold map_below. wp_step. eapply wp_root_get; [done..|]. intros s0 H0 (x0 & Hx0 & Ux0). pose proof (kc_kernel _ _ _ _ _ _ _ _ H0) as Hk0.
  assert (kt !! top = Some []) as Htop by (by apply (ko_top _ _ _ _ _ Hk0)).
  rewrite (Hptr top [] s0 kt) by done. wp_step.
  apply (wp_kernel_get s0 own kt top boot top []); [apply H0|done|done|cbn; lia|done|done|done|..].
  { intros s1 H1 Hno Hnt. eapply Hfail; [exact H0|exact H1|done|]. intros e He. destruct (Habove e He) as [[g Hg] _]. by apply (Hnt g). }
  intros s1 kt1 g1 H1 Hg1 Hkt1 (x1 & Hx1 & Ux1). pose proof (kc_kernel _ _ _ _ _ _ _ _ H1) as Hk1. pose proof (kstep_trans _ _ _ _ _ _ _ _ _ H0 H1) as H01.
  rewrite (Hptr g1 _ s1 kt1 Hk1 Hg1). wp_step.
  apply (wp_kernel_get s1 own kt1 top boot g1 [Z.to_nat (pdpt_index va)]); [apply H1|done|done|cbn; lia|done|done|done|..].
  { intros s2 H2 Hno Hnt. eapply Hfail; [exact H01|exact H2|done|]. intros e He. destruct (Habove e He) as [_ [g Hg]]. apply (Hnt g).
    by apply (kc_sub _ _ _ _ _ _ _ _ H1). }
  intros s2 kt2 g2 H2 Hg2 Hkt2 (x2 & Hx2 & Ux2). pose proof (kc_kernel _ _ _ _ _ _ _ _ H2) as Hk2. pose proof (kstep_trans _ _ _ _ _ _ _ _ _ H01 H2) as H02.
  rewrite (Hptr g2 _ s2 kt2 Hk2 Hg2). wp_step.
  destruct (ko_frame _ _ _ _ _ Hk2 _ _ Hg2) as (_ & (_ & Hr2 & t & Ht & Hlen) & _).
  destruct (lookup_lt_is_Some_2 t (Z.to_nat (pt_index va))) as [e He]; [idx_lia|].
  eapply wp_write_pte; [done|exact Ht|idx_lia|]. wp_step. set (e' := Z.lor (Z.lor (Z.land pa PAGE_MASK) flags) Present).
  assert (kchange top boot s2 own kt2 (set_frames (<[g2 := <[Z.to_nat (pt_index va) := e']> t]> (frames s2)) s2) kt2 (page_leaf s2 kt2 va e')) as H3.
  { eapply kernel_leaf; [apply H2|done|exact Hg2|done|exact Ht|exact He|]. unfold e'. rewrite has_Present, Z.lor_spec. apply orb_true_r. }
  eapply Hsome.
  - by eapply page_leaf_step.
  - intros x Hx. destruct (Habove x Hx) as [[h1 Hh1] [h2 Hh2]]. assert (kt1 = kt) as -> by (by eapply Hkt1). by eapply Hkt2.
  - intros Hu. eapply kopen_change; [exact H3|done|]. split; [|split].
    + destruct (kc_top _ _ _ _ _ _ _ _ (kstep_trans _ _ _ _ _ _ _ _ _ H1 H2) r Hr x0 Hx0) as (y & Hy & _ & H & _). eauto.
    + destruct (kc_wide _ _ _ _ _ _ _ _ H2 [] _ x1 (ltac:(cbn; lia)) Hx1) as (y & Hy & _ & H & _). eauto.
    + eauto.
Qed.

(** ** Translating an address of the kernel *)
Definition ktranslates s kt va (r : option Z) : Prop :=
  match r with
  | Some a => ∃ x, kslot (frames s) kt (kernel_path va) (page_entry va) x ∧ a = Z.lor (phys x) (Z.land va 0xFFF)
  | None => ∀ x, ¬ kslot (frames s) kt (kernel_path va) (page_entry va) x
  end.

Lemma wp_kernel_translate s own kt top boot r va :
  vm_ok s own → kernel_ok s own kt top boot → is_root own boot r → pml4_phys_ s = Some r → Z.to_nat (pml4_index va) = KERNEL_INDEX →
  wp (virtual_to_physical va) s (λ r s', s' = s ∧ ktranslates s kt va r).
Proof.
  intros Hok Hk Hr Hcur Hva. destruct (index_range va) as (_ & Hi1 & Hi2 & Hi3).
  assert (∀ f q i, kt !! f = Some q → 0 <= i < 512 → 0 <= f < 2 ^ 47 ∧ ∃ e, entry_at (frames s) f (Z.to_nat i) = Some e) as Hread.
  { intros f q i Hf Hi. destruct (ko_frame _ _ _ _ _ Hk _ _ Hf) as (_ & (_ & Hb & t & Ht & Hl) & _). split; [done|].
    rewrite (entry_at_Some _ _ _ _ Ht). apply lookup_lt_is_Some_2. idx_lia. }
  assert (∀ f q i e, kt !! f = Some q → entry_at (frames s) f i = Some e → (∃ x, kslot (frames s) kt q i x) → has e Present = true) as Hpres.
  { intros f q i e Hf He (x & g & Hg & Hx & Hp). rewrite (kernel_unique _ _ _ _ _ _ _ _ Hk Hg Hf), He in Hx. by injection Hx as ->. }
  destruct (root_frame _ _ _ _ _ _ Hok Hk Hr) as ((_ & Hrr & _) & _).
  destruct (ko_root _ _ _ _ _ Hk _ Hr) as (e0 & He0 & Hp0 & Hph0). rewrite <- Hva in He0.
  assert (kt !! top = Some []) as Htop by (by apply (ko_top _ _ _ _ _ Hk)).
  unfold virtual_to_physical, find_pt. wp_step. do 2 wp_step. rewrite Hcur. wp_step. eapply wp_read_pte; [done|exact He0|].
  rewrite Hp0. cbn [negb]. change (entry_to_phys e0) with (Some (phys e0)). rewrite Hph0.
  destruct (Hread _ _ (pdpt_index va) Htop Hi1) as (Hr1 & e1 & He1). wp_step. eapply wp_read_pte; [done|exact He1|].
  destruct (has e1 Present) eqn:E1; cbn [negb].
  2:{ do 2 wp_step. split; [done|]. intros x Hx. destruct (kslot_up s own kt top boot [_] _ _ _ Hk Hx) as (y & Hy & _).
      destruct (kslot_up s own kt top boot [] _ _ _ Hk Hy) as (z & Hz & _). by rewrite (Hpres _ _ _ _ Htop He1) in E1 by eauto. }
  assert (kt !! phys e1 = Some [Z.to_nat (pdpt_index va)]) as H1 by (apply (ko_child _ _ _ _ _ Hk [] _ e1); [by exists top|cbn; lia]).
  change (entry_to_phys e1) with (Some (phys e1)).
  destruct (Hread _ _ (pd_index va) H1 Hi2) as (Hr2 & e2 & He2). wp_step. eapply wp_read_pte; [done|exact He2|].
  destruct (has e2 Present) eqn:E2; cbn [negb].
  2:{ do 2 wp_step. split; [done|]. intros x Hx. destruct (kslot_up s own kt top boot [_] _ _ _ Hk Hx) as (y & Hy & _).
      by rewrite (Hpres _ _ _ _ H1 He2) in E2 by eauto. }
  assert (kt !! phys e2 = Some (kernel_path va)) as H2 by (apply (ko_child _ _ _ _ _ Hk [_] _ e2); [by exists (phys e1)|cbn; lia]).
  change (entry_to_phys e2) with (Some (phys e2)).
  destruct (Hread _ _ (pt_index va) H2 Hi3) as (Hr3 & e3 & He3). wp_step. eapply wp_read_pte; [done|exact He3|].
  destruct (has e3 Present) eqn:E3; cbn [negb]; wp_step.
  - wp_step. eapply wp_read_pte; [done|exact He3|]. wp_step. split; [done|]. exists e3. split; [by exists (phys e2)|done].
  - wp_step. split; [done|]. intros x Hx. by rewrite (Hpres _ _ _ _ H2 He3) in E3 by eauto.
Qed.

(** ** The operations on address spaces keep the kernel's half *)
Lemma kernel_keep_own s own kt top boot s' own' :
  kernel_ok s own kt top boot →
  (∀ f, (∃ q, kt !! f = Some q) ∨ f = boot → own !! f = None → ¬ available (pmm s) f → frames s' !! f = frames s !! f ∧ own' !! f = None ∧ ¬ available (pmm s') f) →
  (∀ r, own' !! r = Some (Table r []) → ∃ r0, is_root own boot r0 ∧ entry_at (frames s') r KERNEL_INDEX = entry_at (frames s) r0 KERNEL_INDEX) →
  kernel_ok s' own' kt top boot ∧ ∀ q j x, kslot (frames s') kt q j x ↔ kslot (frames s) kt q j x.
Proof.
  intros [K1 K2 K3 K4 K5 K6] Hkeep Hroots.
  assert (∀ f, frame_ok (frames s) f → frames s' !! f = frames s !! f → frame_ok (frames s') f) as Hframe.
  { intros f (H1 & H2 & t & Ht & Hl) Hf. split; [done|]. split; [done|]. exists t. by rewrite Hf. }
  assert (∀ f, frames s' !! f = frames s !! f → ∀ i, entry_at (frames s') f i = entry_at (frames s) f i) as Hent by (intros f Hf i; unfold entry_at; by rewrite Hf).
  assert (∀ q j x, kslot (frames s') kt q j x ↔ kslot (frames s) kt q j x) as Hs.
  { intros q j x. split; intros (f & Hf & He & Hp); exists f; (split; [done|]); (split; [|done]);
      destruct (K2 _ _ Hf) as (_ & _ & H1 & H2); destruct (Hkeep f (or_introl (ex_intro _ _ Hf)) H1 H2) as (H3 & _); [rewrite <- Hent|rewrite Hent]; done. }
  split; [|done]. split.
  - done.
  - intros f q Hf. destruct (K2 _ _ Hf) as (Hl & Hfr & H1 & H2). destruct (Hkeep f (or_introl (ex_intro _ _ Hf)) H1 H2) as (H3 & H4 & H5). split; [done|]. split; [by apply Hframe|done].
  - intros q j x Hx. apply K3. by apply Hs.
  - intros f q j Hf. destruct (K4 _ _ _ Hf) as (x & Hx & Hph). exists x. split; [by apply Hs|done].
  - destruct K5 as (Hfr & H1 & H2 & H3). destruct (Hkeep boot (or_intror eq_refl) H1 H2) as (H4 & H5 & H6). split; [by apply Hframe|done].
  - intros r [Hr| ->].
    + destruct (Hroots r Hr) as (r0 & Hr0 & ->). by apply K6.
    + destruct K5 as (Hfr & H1 & H2 & H3). destruct (Hkeep boot (or_intror eq_refl) H1 H2) as (H4 & _). rewrite Hent by done. apply K6. by right.
Qed.

Lemma kernel_keep s own kt top boot s' own' :
  kernel_ok s own kt top boot →
  (∀ f, own !! f = None → ¬ available (pmm s) f → frames s' !! f = frames s !! f ∧ own' !! f = None ∧ ¬ available (pmm s') f) →
  (∀ r, own' !! r = Some (Table r []) → ∃ r0, is_root own boot r0 ∧ entry_at (frames s') r KERNEL_INDEX = entry_at (frames s) r0 KERNEL_INDEX) →
  kernel_ok s' own' kt top boot ∧ ∀ q j x, kslot (frames s') kt q j x ↔ kslot (frames s) kt q j x.
Proof. intros Hk Hkeep. apply kernel_keep_own; [done|]. intros f _. apply Hkeep. Qed.

Lemma confined_keeps root s own s' own' f : confined root s own s' own' → own !! f = None → ¬ available (pmm s) f →
  frames s' !! f = frames s !! f ∧ own' !! f = None ∧ ¬ available (pmm s') f.
Proof.
  intros Hc Hf Ha. split; [apply (cf_mem _ _ _ _ _ Hc); [done|by rewrite Hf]|]. split; [|rewrite (cf_avail _ _ _ _ _ Hc); tauto].
  destruct (own' !! f) as [r|] eqn:E; [|done]. apply (cf_new _ _ _ _ _ Hc) in E as [E|[E _]]; [congruence|done].
Qed.

(** The root's entry for the kernel stays when only the lower half changes. *)
Lemma confined_top s own kt top boot root s' own' r :
  kernel_ok s own kt top boot → own !! r = Some (Table r []) → confined root s own s' own' →
  entry_at (frames s') r KERNEL_INDEX = entry_at (frames s) r KERNEL_INDEX.
Proof.
  intros Hk Hr Hc. destruct (ko_root _ _ _ _ _ Hk r (or_introl Hr)) as (e & He & Hp & _). rewrite He.
  destruct (cf_other _ _ _ _ _ Hc r [] KERNEL_INDEX e) as [_ H]; [by right|by right|].
  destruct H as (g & Hg & Hge & _); [by exists r|]. pose proof (cf_own _ _ _ _ _ Hc _ _ Hr) as Hr'.
  by rewrite <- (role_unique_table _ _ _ _ _ _ (vo_tables _ _ (cf_ok _ _ _ _ _ Hc)) Hg Hr').
Qed.

(** Mapping and copying in the lower half of [root]. *)
Lemma kernel_confined s own kt top boot root s' own' :
  kernel_ok s own kt top boot → own !! root = Some (Table root []) → confined root s own s' own' →
  kernel_ok s' own' kt top boot ∧ ∀ q j x, kslot (frames s') kt q j x ↔ kslot (frames s) kt q j x.
Proof.
  intros Hk Hroot Hc. apply (kernel_keep s own); [done|intros f; by eapply confined_keeps|]. intros r Hr'.
  assert (own !! r = Some (Table r [])) as Hr by (apply (cf_new _ _ _ _ _ Hc) in Hr' as [H|[_ H]]; [done|cbn in H; by subst r]).
  exists r. split; [by left|]. by eapply confined_top.
Qed.

Lemma kopen_confined s own kt top boot root s' own' va :
  kernel_ok s own kt top boot → own !! root = Some (Table root []) → confined root s own s' own' →
  kopen (frames s) kt root va → kopen (frames s') kt root va.
Proof.
  intros Hk Hroot Hc (Hx & (y & Hy & Uy) & (z & Hz & Uz)). destruct (kernel_confined _ _ _ _ _ _ _ _ Hk Hroot Hc) as [_ Hs].
  split; [by rewrite (confined_top _ _ _ _ _ _ _ _ _ Hk Hroot Hc)|]. split; [exists y|exists z]; by rewrite Hs.
Qed.

(** What the processor finds for user code behind open tables. *)
Lemma user_entry_kslot s own kt top boot f q i x :
  kernel_ok s own kt top boot → kt !! f = Some q → kslot (frames s) kt q i x → has x User = true → user_entry (frames s) f i = Some x.
Proof.
  intros Hk Hf (g & Hg & He & Hp) Hu. rewrite (kernel_unique _ _ _ _ _ _ _ _ Hk Hg Hf) in He. unfold entry_at in He.
  apply bind_Some in He as (t & Ht & He). unfold user_entry. rewrite Ht. cbn. rewrite He. cbn. by rewrite Hp, Hu.
Qed.

Lemma user_walk_kernel s own kt top boot root va x :
  kernel_ok s own kt top boot → is_root own boot root → KERNEL_BASE <= va < 2 ^ 64 → kopen (frames s) kt root va →
  kslot (frames s) kt (kernel_path va) (page_entry va) x → has x User = true → has x Writable = false →
  user_walk (frames s) root va = Some (phys x, false).
Proof.
  intros Hk Hr Hva ((e & He & Ue) & (y & Hy & Uy) & (z & Hz & Uz)) Hx Ux Wx. destruct (level_indices va) as (L3 & L2 & L1 & L0).
  unfold user_walk. rewrite L3, L2, L1, L0, kernel_index by done.
  destruct (ko_root _ _ _ _ _ Hk _ Hr) as (e' & He' & Pe & Hph). rewrite He in He'. injection He' as <-.
  assert (user_entry (frames s) root KERNEL_INDEX = Some e) as ->.
  { unfold entry_at in He. apply bind_Some in He as (t & Ht & He). unfold user_entry. rewrite Ht. cbn. rewrite He. cbn. by rewrite Pe, Ue. }
  cbn [mbind option_bind]. rewrite Hph. assert (kt !! top = Some []) as Htop by (by apply (ko_top _ _ _ _ _ Hk)).
  rewrite (user_entry_kslot s own kt top boot top [] _ y) by done. cbn [mbind option_bind].
  pose proof (ko_child _ _ _ _ _ Hk _ _ _ Hy ltac:(cbn; lia)) as H1. rewrite (user_entry_kslot s own kt top boot _ _ _ z Hk H1 Hz Uz). cbn [mbind option_bind].
  pose proof (ko_child _ _ _ _ _ Hk _ _ _ Hz ltac:(cbn; lia)) as H2. fold (page_entry va).
  rewrite (user_entry_kslot s own kt top boot _ _ _ x Hk H2 Hx Ux). cbn [mbind option_bind]. by rewrite Wx, !andb_false_r.
Qed.

(** A page of data that is no table of the kernel becomes a user page. *)
Lemma kernel_mapped s own kt top boot root q j e pa s' own' :
  kernel_ok s own kt top boot → own !! root = Some (Table root []) → length q = 3%nat → kt !! pa = None → pa ≠ boot →
  mapped root s own q j e pa s' own' →
  kernel_ok s' own' kt top boot ∧ ∀ q' j' x, kslot (frames s') kt q' j' x ↔ kslot (frames s) kt q' j' x.
Proof.
  intros Hk Hroot Hq Hpa Hpb Hm. apply (kernel_keep_own s own); [done|..].
  - intros f Hf Hof Hnf. split; [apply (mp_mem _ _ _ _ _ _ _ _ _ Hm); [done|by rewrite Hof]|]. split; [|rewrite (mp_avail _ _ _ _ _ _ _ _ _ Hm); tauto].
    destruct (own' !! f) as [r|] eqn:E; [|done]. apply (mp_new _ _ _ _ _ _ _ _ _ Hm) in E as [E|[[E _]|[-> _]]]; [congruence|done|].
    destruct Hf as [[q' Hf]|Hf]; congruence.
  - intros r Hr'. assert (own !! r = Some (Table r [])) as Hr.
    { apply (mp_new _ _ _ _ _ _ _ _ _ Hm) in Hr' as [H|[[_ [p H]]|[_ H]]]; [done| |done]. by injection H as <- <-. }
    exists r. split; [by left|]. destruct (ko_root _ _ _ _ _ Hk r (or_introl Hr)) as (e0 & He & Hp & _). rewrite He.
    destruct (mp_leaf _ _ _ _ _ _ _ _ _ Hm r [] KERNEL_INDEX e0) as [_ H]; [by right|]. rewrite decide_False in H by (intros [= _ <- _]; done).
    destruct H as (g & Hg & Hge & _); [by exists r|]. by rewrite <- (role_unique_table _ _ _ _ _ _ (vo_tables _ _ (mp_ok _ _ _ _ _ _ _ _ _ Hm)) Hg Hr').
Qed.

(** A new address space has the kernel's half. *)
Lemma kernel_created s own kt top boot c a s' own' :
  vm_ok s own → kernel_ok s own kt top boot → is_root own boot c → created s own c a s' own' →
  kernel_ok s' own' kt top boot ∧ ∀ q j x, kslot (frames s') kt q j x ↔ kslot (frames s) kt q j x.
Proof.
  intros Hok Hk Hc (Hconf & Ha & Hav & Hown & _ & Hupper). apply (kernel_keep s own); [done|intros f; by eapply confined_keeps|]. intros r Hr.
  destruct (decide (r = a)) as [->|Hne]; [exists c; split; [done|apply Hupper; unfold KERNEL_INDEX; lia]|].
  rewrite Hown, lookup_insert_ne in Hr by done. exists r. split; [by left|]. unfold entry_at.
  rewrite (cf_mem _ _ _ _ _ Hconf); [done|by apply (vo_owned _ _ Hok _ _ Hr)|congruence].
Qed.

Lemma kernel_destroyed s own kt top boot root s' :
  vm_ok s own → kernel_ok s own kt top boot → frames s' = frames s →
  (∀ f, available (pmm s') f ↔ available (pmm s) f ∨ ∃ r, own !! f = Some r ∧ root_of r = root) →
  kernel_ok s' (filter (λ x, root_of x.2 ≠ root) own) kt top boot ∧ ∀ q j x, kslot (frames s') kt q j x ↔ kslot (frames s) kt q j x.
Proof.
  intros Hok Hk Hfr Hav. apply (kernel_keep s own); [done|..].
  - intros f Hf Hnf. rewrite Hfr, Hav. split; [done|]. split; [|intros [?|(r & Hr & _)]; congruence]. apply map_lookup_filter_None. by left.
  - intros r [Hr _]%map_lookup_filter_Some. exists r. split; [by left|]. by rewrite Hfr.
Qed.
End kernel.
