(* ===== verification/VmmProps.v ===== *)
(** * Correctness of virtual memory

    What the operations on address spaces promise: mapping and translating,
    copying, destroying, and that a copy of an address space that is given up leaves
    nothing behind. The last part runs them on a concrete allocator. *)
From stdpp Require Import gmap.
From S2P Require Import Prelude Vmm VmmSpec VmmMap VmmVisit VmmCopy VmmSpace VmmKernel.

Section vmm.
Context {P : Type} `{HP : FrameAllocator P} `{HS : !FrameAllocatorSpec P}.
Implicit Types (s : Vmm P) (own : Owners) (kt : KTables).

(** ** Translation *)

Lemma slot_entry s own root p i f e : vm_ok s own → own !! f = Some (Table root p) → entry_at (frames s) f i = Some e →
  (has e Present = true ↔ ∃ x, slot (frames s) own root p i x) ∧ ∀ x, slot (frames s) own root p i x → x = e.
Proof.
  intros Hok Hf He. assert (∀ x, slot (frames s) own root p i x → x = e ∧ has x Present = true) as Hs.
  { intros x (g & Hg & Hx & Hp). rewrite (role_unique_table _ _ _ _ _ _ (vo_tables _ _ Hok) Hg Hf), He in Hx. by injection Hx as ->. }
  split; [|intros x Hx; by apply Hs]. split; [intros Hp; exists e; by exists f|]. intros [x Hx]. by destruct (Hs x Hx) as [-> ?].
Qed.

(** A page table exists only below present entries. *)
Lemma no_slot_below s own root a b c d x : slot (frames s) own root [a; b; c] d x → vm_ok s own →
  (∃ y, slot (frames s) own root [a; b] c y) ∧ (∃ y, slot (frames s) own root [a] b y) ∧ ∃ y, slot (frames s) own root [] a y.
Proof.
  intros (pt & Hpt & _) Hok. pose proof (vo_tables _ _ Hok) as Ht.
  destruct (table_parent _ _ root [a; b] c pt Ht Hpt) as (pd & e2 & Hpd & E2 & P2 & _).
  destruct (table_parent _ _ root [a] b pd Ht Hpd) as (pdpt & e1 & Hpdpt & E1 & P1 & _).
  destruct (table_parent _ _ root [] a pdpt Ht Hpdpt) as (g & e0 & Hg & E0 & P0 & _).
  split; [exists e2; by exists pd|]. split; [exists e1; by exists pdpt|]. exists e0. by exists g.
Qed.

Lemma wp_find_pt s own root va (Q : option Z → Vmm P → Prop) :
  vm_ok s own → own !! root = Some (Table root []) → pml4_phys_ s = Some root → pml4_index va = 0 →
  ((∀ x, ¬ slot (frames s) own root (table_path va) (page_entry va) x) → Q None s) →
  (∀ pt e, own !! pt = Some (Table root (table_path va)) → entry_at (frames s) pt (page_entry va) = Some e → has e Present = true →
    Q (Some (physical_to_virtual (Some pt))) s) →
  wp (find_pt va) s Q.
Proof.
  intros Hok Hroot Hcur Hva Hnone Hsome. destruct (index_range va) as (_ & Hi1 & Hi2 & Hi3).
  assert (∀ p f i, own !! f = Some (Table root p) → 0 <= i < 512 → 0 <= f < 2 ^ 47 ∧ ∃ e, entry_at (frames s) f (Z.to_nat i) = Some e) as Hread.
  { intros p f i Hf Hi. destruct (owned_frame _ _ _ _ Hok Hf) as (Hr & _ & t & Ht & Hl). split; [done|].
    rewrite (entry_at_Some _ _ _ _ Ht). apply lookup_lt_is_Some_2. idx_lia. }
  pose proof (vo_tables _ _ Hok) as Htab.
  unfold find_pt. wp_step. wp_step. rewrite Hcur.
  destruct (Hread [] root (pml4_index va) Hroot ltac:(lia)) as (Hr0 & e0 & He0). wp_step. eapply wp_read_pte; [done|exact He0|].
  destruct (slot_entry _ _ _ _ _ _ _ Hok Hroot He0) as [Hp0 _]. destruct (has e0 Present) eqn:E0; cbn [negb].
  2:{ wp_step. apply Hnone. intros x Hx. destruct (no_slot_below _ _ _ _ _ _ _ _ Hx Hok) as (_ & _ & Hy). by apply Hp0 in Hy. }
  assert (own !! phys e0 = Some (Table root [Z.to_nat (pml4_index va)])) as H0.
  { rewrite Hva in *. eapply (to_child _ _ Htab root [] 0 e0); [by exists root|done]. }
  change (entry_to_phys e0) with (Some (phys e0)).
  destruct (Hread _ _ (pdpt_index va) H0 Hi1) as (Hr1 & e1 & He1). wp_step. eapply wp_read_pte; [done|exact He1|].
  destruct (slot_entry _ _ _ _ _ _ _ Hok H0 He1) as [Hp1 _]. destruct (has e1 Present) eqn:E1; cbn [negb].
  2:{ wp_step. apply Hnone. intros x Hx. destruct (no_slot_below _ _ _ _ _ _ _ _ Hx Hok) as (_ & Hy & _). by apply Hp1 in Hy. }
  assert (own !! phys e1 = Some (Table root [Z.to_nat (pml4_index va); Z.to_nat (pdpt_index va)])) as H1
    by (eapply (to_child _ _ Htab root [_] _ e1); [by exists (phys e0)|done]).
  change (entry_to_phys e1) with (Some (phys e1)).
  destruct (Hread _ _ (pd_index va) H1 Hi2) as (Hr2 & e2 & He2). wp_step. eapply wp_read_pte; [done|exact He2|].
  destruct (slot_entry _ _ _ _ _ _ _ Hok H1 He2) as [Hp2 _]. destruct (has e2 Present) eqn:E2; cbn [negb].
  2:{ wp_step. apply Hnone. intros x Hx. destruct (no_slot_below _ _ _ _ _ _ _ _ Hx Hok) as (Hy & _ & _). by apply Hp2 in Hy. }
  assert (own !! phys e2 = Some (Table root (table_path va))) as H2
    by (eapply (to_child _ _ Htab root [_; _] _ e2); [by exists (phys e1)|done]).
  change (entry_to_phys e2) with (Some (phys e2)).
  destruct (Hread _ _ (pt_index va) H2 Hi3) as (Hr3 & e3 & He3). wp_step. eapply wp_read_pte; [done|exact He3|].
  destruct (slot_entry _ _ _ _ _ _ _ Hok H2 He3) as [Hp3 _]. destruct (has e3 Present) eqn:E3; cbn [negb]; wp_step.
  - by eapply Hsome.
  - apply Hnone. intros x Hx. by assert (false = true) by (apply Hp3; by exists x).
Qed.

(** What [virtual_to_physical] finds behind the last entry: the page and the offset
    in it. *)
Definition found (last : Z → Prop) va (r : option Z) : Prop :=
  match r with
  | Some a => ∃ x, last x ∧ a = Z.lor (phys x) (Z.land va 0xFFF)
  | None => ∀ x, ¬ last x
  end.

Lemma found_same (last last' : Z → Prop) va r r' :
  (∀ x y, last x → last y → x = y) → (∀ x, last x ↔ last' x) → found last va r → found last' va r' → r = r'.
Proof.
  intros Hfun Heq. destruct r as [a|], r' as [a'|]; cbn; [|intros (x & Hx & _) Hno; by destruct (Hno x (proj1 (Heq x) Hx))|
    intros Hno (x & Hx & _); by destruct (Hno x (proj2 (Heq x) Hx))|done].
  intros (x & Hx & ->) (y & Hy & ->). by rewrite (Hfun x y Hx (proj2 (Heq y) Hy)).
Qed.

Lemma wp_virtual_to_physical s own root va :
  vm_ok s own → own !! root = Some (Table root []) → pml4_phys_ s = Some root → pml4_index va = 0 →
  wp (virtual_to_physical va) s (λ r s', s' = s ∧ found (slot (frames s) own root (table_path va) (page_entry va)) va r).
Proof.
  intros Hok Hroot Hcur Hva. unfold virtual_to_physical. wp_step. eapply wp_find_pt; [done..|by intros Hno; wp_step|].
  intros pt e Hpt He Hp. destruct (owned_frame _ _ _ _ Hok Hpt) as (Hr & _). wp_step. eapply wp_read_pte; [done|exact He|].
  wp_step. split; [done|]. exists e. split; [by exists pt|done].
Qed.

(** The addresses that the current root [root] translates: the lower 512 GB of a
    process's address space, and the kernel's half. *)
Definition low_half own (root va : Z) : Prop := 0 <= va < 2 ^ 39 ∧ own !! root = Some (Table root []).
Definition high_half own (boot root va : Z) : Prop := KERNEL_BASE <= va < 2 ^ 64 ∧ is_root own boot root.
Definition covered own (boot root va : Z) : Prop := low_half own root va ∨ high_half own boot root va.

(** The last entry for [va]. *)
Definition last_entry s own kt (root va x : Z) : Prop :=
  if va <? KERNEL_BASE then slot (frames s) own root (table_path va) (page_entry va) x
  else kslot (frames s) kt (kernel_path va) (page_entry va) x.

Lemma low_index va : 0 <= va < 2 ^ 39 → pml4_index va = 0 ∧ (va <? KERNEL_BASE) = true.
Proof. intros Hva. unfold pml4_index, KERNEL_BASE. rewrite index_eq by lia. split; [|lia]. by rewrite Z.div_small. Qed.
Lemma high_index va : KERNEL_BASE <= va → (va <? KERNEL_BASE) = false.
Proof. lia. Qed.

Lemma last_entry_fun s own kt top boot root va x y :
  vm_ok s own → kernel_ok s own kt top boot → last_entry s own kt root va x → last_entry s own kt root va y → x = y.
Proof.
  intros Hok Hk. unfold last_entry. destruct (va <? KERNEL_BASE); intros Hx Hy; [|by eapply kslot_fun].
  by eapply slot_fun; [apply (vo_tables _ _ Hok)|..].
Qed.

Lemma wp_translate s own kt top boot root va :
  vm_ok s own → kernel_ok s own kt top boot → pml4_phys_ s = Some root → covered own boot root va →
  wp (virtual_to_physical va) s (λ r s', s' = s ∧ found (last_entry s own kt root va) va r).
Proof.
  intros Hok Hk Hcur [[Hva Hr]|[Hva Hr]]; unfold last_entry.
  - destruct (low_index va Hva) as [H0 ->]. by apply wp_virtual_to_physical.
  - rewrite high_index by apply Hva. by eapply wp_kernel_translate, kernel_index.
Qed.

(** Two addresses of one half have the same last entry when they are in one page. *)
Lemma same_page_index va va' : va / 2 ^ 39 = va' / 2 ^ 39 →
  (kernel_path va, page_entry va) = (kernel_path va', page_entry va') ↔ va / 4096 = va' / 4096.
Proof.
  intros Htop. unfold kernel_path, page_entry, pdpt_index, pd_index, pt_index. rewrite !index_eq by lia.
  change (2 ^ 39) with 549755813888 in Htop. change (2 ^ 30) with 1073741824. change (2 ^ 21) with 2097152. change (2 ^ 12) with 4096. split.
  - intros [= H1 H2 H3]. apply Z2Nat.inj in H1, H2, H3; [lia|lia..].
  - intros Hp. assert (va / 1073741824 = va' / 1073741824) as -> by lia. assert (va / 2097152 = va' / 2097152) as -> by lia. by rewrite Hp.
Qed.

Definition last_at s own kt (root va e va' x : Z) : Prop :=
  if va / 4096 =? va' / 4096 then x = e else last_entry s own kt root va' x.

(** What may be mapped where: a frame with data of its own that no table of the
    kernel is in, for the user, where the user has no page; or any frame for the
    kernel. *)
Definition may_map s own kt (boot root va pa flags : Z) : Prop :=
  low_half own root va ∧ loose s own pa ∧ kt !! pa = None ∧ pa ≠ boot ∧ has flags User = true ∧
    (∀ x, slot (frames s) own root (table_path va) (page_entry va) x → has x User = false) ∨
  high_half own boot root va ∧ pa `mod` 4096 = 0 ∧ 0 <= pa < 2 ^ 52.

(** The entry that is stored. *)
Definition new_entry (pa flags : Z) : Z := Z.lor (Z.lor (Z.land pa PAGE_MASK) flags) Present.

Lemma new_entry_aligned pa flags : pa `mod` 4096 = 0 → 0 <= pa < 2 ^ 52 → flags_ok flags →
  Z.land pa PAGE_MASK = pa ∧ phys (new_entry pa flags) = pa.
Proof.
  intros Ha Hr Hf. assert (Z.land pa PAGE_MASK = pa) as He.
  { unfold PAGE_MASK. rewrite (land_lnot_ones _ 12) by lia. change (2 ^ 12) with 4096. lia. }
  split; [done|]. unfold new_entry. rewrite He, <- Z.lor_assoc. by apply phys_entry; [..|apply flags_or].
Qed.

(** The address space of [s'] after [map_page] has returned [b]. *)
Definition remapped s own kt (top boot root va pa flags : Z) (b : bool) s' own' kt' : Prop :=
  vm_ok s' own' ∧ kernel_ok s' own' kt' top boot ∧ (b = false → ∀ x, ¬ available (pmm s') x) ∧
  pml4_phys_ s' = pml4_phys_ s ∧ (∀ f r, own !! f = Some r → own' !! f = Some r) ∧
  ∀ va' x, covered own boot root va' → last_entry s' own' kt' root va' x ↔
    if b then last_at s own kt root va (new_entry pa flags) va' x else last_entry s own kt root va' x.

Lemma wp_map_low s own kt top boot root va pa flags :
  vm_ok s own → kernel_ok s own kt top boot → pml4_phys_ s = Some root → low_half own root va → flags_ok flags → loose s own pa →
  kt !! pa = None → pa ≠ boot → has flags User = true →
  (∀ x, slot (frames s) own root (table_path va) (page_entry va) x → has x User = false) →
  wp (map_page va (Some pa) flags) s (λ b s', ∃ own' kt', remapped s own kt top boot root va pa flags b s' own' kt').
Proof.
  intros Hok Hk Hcur [Hva Hroot] Hfl Hpa Hpk Hpb Hfu Hold. destruct (low_index va Hva) as [H0 Hlt]. destruct (owned_frame _ _ _ _ Hok Hroot) as (Hr & _).
  pose proof Hpa as (_ & _ & _ & Ham & Har & _). destruct (new_entry_aligned pa flags Ham ltac:(lia) Hfl) as [Hmask _].
  unfold map_page. wp_step. wp_step. rewrite Hcur, pointer_nonzero by done.
  eapply wp_map_below; [done|done|done|done|by apply flags_or, flags_and|rewrite has_User in Hfu; by rewrite has_Present, has_User, has_Writable, !Z.lor_spec, !Z.land_spec, Hfu|done|done|done|..].
  - intros s' own' Hex Hno. destruct (kernel_confined _ _ _ _ _ _ _ _ Hk Hroot (extends_confined _ _ _ _ _ Hex)) as [Hk' Hs].
    exists own', kt. split; [apply Hex|]. split; [done|]. split; [done|]. split; [apply Hex|]. split; [apply Hex|].
    intros va' x _. unfold last_entry. destruct (va' <? KERNEL_BASE); [|done]. by apply (ex_leaf _ _ _ _ _ Hex); left.
  - intros s' own' Hm. destruct (kernel_mapped _ _ _ _ _ _ (table_path va) _ _ _ _ _ Hk Hroot eq_refl Hpk Hpb Hm) as [Hk' Hs].
    exists own', kt. split; [apply Hm|]. split; [done|]. split; [done|]. split; [apply Hm|]. split; [apply Hm|].
    intros va' x Hcov. unfold last_at, last_entry, new_entry. rewrite Hmask. destruct Hcov as [[Hva' _]|[Hva' _]].
    + destruct (low_index va' Hva') as [H0' ->]. rewrite (mp_leaf _ _ _ _ _ _ _ _ _ Hm) by by left.
      pose proof (same_page_index va' va ltac:(by rewrite !Z.div_small)) as Hiff.
      destruct (Z.eqb_spec (va / 4096) (va' / 4096)) as [He|He].
      * symmetry in He. apply Hiff in He as [= H1 H2 H3]. rewrite decide_True; [done|]. unfold table_path. by rewrite H0, H0', H1, H2, H3.
      * rewrite decide_False; [done|]. intros [= _ H1 H2 H3]. apply He. symmetry. apply Hiff. unfold kernel_path. by rewrite H1, H2, H3.
    + rewrite high_index by apply Hva'. replace (va / 4096 =? va' / 4096) with false by (unfold KERNEL_BASE in *; lia). apply Hs.
Qed.

Lemma wp_map_high s own kt top boot root va pa flags :
  vm_ok s own → kernel_ok s own kt top boot → pml4_phys_ s = Some root → high_half own boot root va → flags_ok flags →
  wp (map_page va (Some pa) flags) s (λ b s', ∃ own' kt', remapped s own kt top boot root va pa flags b s' own' kt').
Proof.
  intros Hok Hk Hcur [Hva Hroot] Hfl. destruct (root_frame _ _ _ _ _ _ Hok Hk Hroot) as ((_ & Hr & _) & _).
  assert (∀ s' kt' leaf va' x, kchange top boot s own kt s' kt' leaf → low_half own root va' → last_entry s' own kt' root va' x ↔ last_entry s own kt root va' x) as Hlow.
  { intros s' kt' leaf va' x Hch [Hva' _]. unfold last_entry. destruct (low_index va' Hva') as [_ ->]. by apply (kc_low _ _ _ _ _ _ _ _ Hch). }
  unfold map_page. wp_step. wp_step. rewrite Hcur, pointer_nonzero by done.
  eapply (wp_kernel_map s own kt top boot root va pa); [done..|by apply kernel_index|by apply flags_or, flags_and|by rewrite has_Present, !Z.lor_spec| |].
  - intros s' kt' Hch Hno _. exists own, kt'. split; [apply Hch|]. split; [apply Hch|]. split; [done|]. split; [apply Hch|]. split; [done|].
    intros va' x [Hl|[Hva' _]]; [by eapply Hlow|]. unfold last_entry. rewrite high_index by apply Hva'. by apply (kc_leaf _ _ _ _ _ _ _ _ Hch).
  - intros s' kt' Hch _ _. exists own, kt'. split; [apply Hch|]. split; [apply Hch|]. split; [done|]. split; [apply Hch|]. split; [done|].
    intros va' x [Hl|[Hva' _]]; unfold last_at.
    + rewrite (Hlow _ _ _ _ _ Hch Hl). destruct Hl as [Hl _]. by replace (va / 4096 =? va' / 4096) with false by (unfold KERNEL_BASE in *; lia).
    + unfold last_entry. rewrite high_index by apply Hva'. rewrite (kc_leaf _ _ _ _ _ _ _ _ Hch) by done. unfold page_leaf.
      pose proof (same_page_index va' va ltac:(unfold KERNEL_BASE in *; lia)) as Hiff.
      destruct (Z.eqb_spec (va / 4096) (va' / 4096)) as [He|He]; [rewrite decide_True by by apply Hiff|rewrite decide_False by (rewrite Hiff; congruence)]; done.
Qed.

(** C24: [map_page] in the current address space, for the user below 2^39 (a frame
    with data of its own, where the user has no page yet) or for the kernel in its
    half (as the heap does): when it succeeds, [virtual_to_physical] translates the
    addresses of the page, and no others, differently, namely to the new frame; it
    fails only when no free frame is left, and then no translation changes. *)
Theorem map_then_translate s own kt top boot root va pa flags :
  vm_ok s own → kernel_ok s own kt top boot → pml4_phys_ s = Some root → flags_ok flags → may_map s own kt boot root va pa flags →
  wp (map_page va (Some pa) flags) s (λ b s',
    (b = false → ∀ x, ¬ available (pmm s') x) ∧
    ∀ va', covered own boot root va' → wp (virtual_to_physical va') s' (λ r s'', s'' = s' ∧
      if b && (va / 4096 =? va' / 4096) then r = Some (Z.lor pa (Z.land va' 0xFFF))
      else wp (virtual_to_physical va') s (λ r0 _, r = r0))).
Proof.
  intros Hok Hk Hcur Hfl Hmay. assert (pa `mod` 4096 = 0 ∧ 0 <= pa < 2 ^ 52) as [Ham Har].
  { destruct Hmay as [(_ & (_ & _ & _ & ? & ? & _) & _)|(_ & ?)]; [split; [done|lia]|done]. }
  destruct (new_entry_aligned pa flags Ham Har Hfl) as [_ Hph].
  eapply (wp_mono _ _ (λ b s', ∃ own' kt', remapped s own kt top boot root va pa flags b s' own' kt')).
  { destruct Hmay as [(? & ? & ? & ? & ? & ?)|(? & ?)]; [by apply wp_map_low|by apply wp_map_high]. }
  intros b s' (own' & kt' & Hok' & Hk' & Hno & Hcur' & Hown & Hlast). split; [done|]. intros va' Hcov.
  assert (covered own' boot root va') as Hcov' by (destruct Hcov as [[? ?]|[? [?| ->]]]; [left|right|right; split; [done|by right]]; (split; [done|]); [auto|left; auto]).
  destruct (wp_translate s own kt top boot root va' Hok Hk Hcur Hcov) as (r0 & s0 & Hrun & -> & Hr0).
  eapply wp_mono; [apply (wp_translate s' own' kt' top boot root va'); [done|done|congruence|done]|]. intros r s'' [-> Hr]. split; [done|].
  pose proof (λ x, Hlast va' x Hcov) as Hl. unfold last_at in Hl.
  assert (∀ x y, last_entry s' own' kt' root va' x → last_entry s' own' kt' root va' y → x = y) as Hfun by (intros x y; by eapply last_entry_fun).
  destruct b; cbn [andb]; [destruct (va / 4096 =? va' / 4096)|].
  - destruct r as [a|]; cbn in Hr; [|by destruct (Hr (new_entry pa flags) (proj2 (Hl _) eq_refl))]. destruct Hr as (x & Hx & ->). apply Hl in Hx as ->. by rewrite Hph.
  - eapply wp_intro; [exact Hrun|]. by eapply found_same.
  - eapply wp_intro; [exact Hrun|]. by eapply found_same.
Qed.

(** ** Address spaces *)

(** C20: A fork copies the pages of an address space: the copy has a user page where
    the old space has one, in a frame of its own, with the same content; its entry
    is the frame with the low twelve bits of the old entry and nothing else (so not
    its bit [NoExecute]), and user code reaches it there, for writing when the old
    entry allows it. The other address spaces keep their pages, and all data in
    memory stays. It fails only when at most one free frame is left. *)
Theorem copy_user_pages_correct s own src dest :
  vm_ok s own → own !! src = Some (Table src []) → own !! dest = Some (Table dest []) → src ≠ dest → user_pages (frames s) dest = [] →
  wp (copy_user_pages (Some src) (Some dest)) s (λ b s', ∃ own', confined dest s own s' own' ∧
    (∀ r x, r ≠ dest → own !! r = Some (Table r []) → x ∈ user_pages (frames s') r ↔ x ∈ user_pages (frames s) r) ∧
    if b then
      (∀ va e, (va, e) ∈ user_pages (frames s) src → ∃ e', (va, e') ∈ user_pages (frames s') dest ∧
        available (pmm s) (phys e') ∧ frames s' !! phys e' = frames s !! phys e ∧ e' = Z.lor (phys e') (Z.land e 0xFFF) ∧
        user_walk (frames s') dest va = Some (phys e', has e Writable)) ∧
      (∀ va e', (va, e') ∈ user_pages (frames s') dest → ∃ e, (va, e) ∈ user_pages (frames s) src)
    else short s').
Proof.
  intros Hok Hsrc Hdest Hsd Hnone. eapply wp_mono; [by eapply wp_copy_user_pages|]. intros b s' Hb.
  assert (∃ own', confined dest s own s' own' ∧ if b then (∀ x, x ∈ user_pages (frames s) src → has_copy s dest s' own' x) ∧
    (∀ q j x, length q = 3%nat → slot (frames s') own' dest q j x → has x User = true → ∃ y, y ∈ user_pages (frames s) src ∧ q = table_path y.1 ∧ j = page_entry y.1)
    else short s') as (own' & Hconf & Hrest).
  { destruct b; [destruct Hb as (own' & H1 & H2 & H3)|destruct Hb as [(own' & H1) H2]]; by exists own'. }
  clear Hb. exists own'. split; [done|]. split.
  { intros r x Hr Hrr. apply (same_user_pages s own s' own'); [done|apply Hconf|done|by eapply cf_own|].
    intros q j e Hq. apply (cf_other _ _ _ _ _ Hconf); [by left|by left]. }
  destruct b; [|done]. destruct Hrest as [Hcopies Honly]. pose proof (cf_ok _ _ _ _ _ Hconf) as Hok'.
  assert (own' !! dest = Some (Table dest [])) as Hdest' by (by eapply cf_own). split.
  - intros va e Hx. destruct (Hcopies _ Hx) as (a & Ha & Hoa & Hma & Hsl & Hopen). cbn in *.
    destruct (user_page_facts s own src _ Hok Hsrc Hx) as (i & j & k & Hi & Hj & Hk & Hva & H0 & Htp & Hpe & Hu & _ & Hse). cbn in *.
    destruct (vo_available _ _ Hok a Ha) as [(Ham & Har & _) _]. set (e' := Z.lor (Z.lor a (Z.land e 0xFFF)) Present) in *.
    assert (phys e' = a) as Hph.
    { unfold e'. rewrite <- Z.lor_assoc. apply phys_entry; [done|lia|]. apply flags_or; [apply flags_low|done]. }
    assert (e' = Z.lor a (Z.land e 0xFFF)) as He'.
    { apply low_or_present. by destruct Hse as (_ & _ & _ & ?). }
    assert (has e' User = true) as Hu' by (rewrite has_User in *; rewrite He', Z.lor_spec, Z.land_spec, Hu; cbn; by rewrite orb_true_r).
    assert (has e' Writable = has e Writable) as Hw'.
    { rewrite !has_Writable, He', Z.lor_spec, Z.land_spec, aligned_low by (done || lia). cbn. by rewrite andb_true_r. }
    exists e'. rewrite Hph. split; [|split; [done|split; [done|split; [exact He'|]]]].
    + apply (elem_user_pages _ own'); [apply (vo_tables _ _ Hok')|done|]. exists i, j, k. cbn. rewrite Htp, Hpe in Hsl. done.
    + rewrite <- Hph, <- Hw'. by apply (user_walk_slot _ own'); [apply (vo_tables _ _ Hok')|..].
  - intros va e' Hx. destruct (user_page_facts s' own' dest _ Hok' Hdest' Hx) as (i & j & k & Hi & Hj & Hk & Hva & _ & Htp & Hpe & Hu & _ & Hse).
    cbn in *. destruct (Honly [0%nat; i; j] _ _ eq_refl Hse Hu) as ((va0 & e) & Hy & H1 & H2). cbn in *.
    destruct (user_page_facts s own src _ Hok Hsrc Hy) as (i0 & j0 & k0 & _ & _ & _ & Hva0 & _ & Htp0 & Hpe0 & _). cbn in *.
    exists e. replace va with va0; [done|]. rewrite Htp0 in H1. rewrite Hpe0 in H2. injection H1 as <- <-. congruence.
Qed.

(** C23: Destroying an address space gives back each of its frames, tables and user
    pages, exactly once, and nothing else; memory and the other address spaces stay.
    *)
Theorem destroy_address_space_correct s own root :
  vm_ok s own → own !! root = Some (Table root []) →
  wp (destroy_address_space (Some root)) s (λ _ s',
    vm_ok s' (filter (λ x, root_of x.2 ≠ root) own) ∧ frames s' = frames s ∧
    (∀ f, available (pmm s') f ↔ available (pmm s) f ∨ ∃ r, own !! f = Some r ∧ root_of r = root) ∧ pml4_phys_ s' = pml4_phys_ s).
Proof. intros Hok Hroot. by apply destroy_wp. Qed.

(** The address space of a child that is made and given up again, after the copy
    has failed or succeeded: every frame is free again, and who owns what is as
    before. *)
Definition copy_and_give_up (src : Z) : M (Vmm P) bool :=
  dest ← create_address_space;
  match dest with
  | None => mret false
  | Some _ => ok ← copy_user_pages (Some src) dest; _ ← destroy_address_space dest; mret ok
  end.

(** C18: A copy of an address space that is given up leaves nothing behind, whether
    the copy has failed or not: the same frames are free as before, and no frame
    that was in use has changed. *)
Theorem no_frame_leaks s own src c :
  vm_ok s own → own !! src = Some (Table src []) → pml4_phys_ s = Some c → frame_ok (frames s) c → ¬ available (pmm s) c →
  wp (copy_and_give_up src) s (λ _ s', vm_ok s' own ∧ (∀ f, available (pmm s') f ↔ available (pmm s) f) ∧
    ∀ f, ¬ available (pmm s) f → frames s' !! f = frames s !! f).
Proof.
  intros Hok Hsrc Hcur Hc Hnc. unfold copy_and_give_up. wp_step. eapply wp_mono; [by apply (wp_create s own c)|]. intros [a|] s1 H1.
  2:{ destruct H1 as (Hno & Hfr & Hok1 & Hno' & _). wp_step. split; [done|]. split; [intros f; split; intros Hf; [by apply Hno' in Hf|by apply Hno in Hf]|by rewrite Hfr]. }
  destruct H1 as (own1 & Hconf1 & Hoa & Hava & -> & Hempty & _). wp_step. eapply wp_mono.
  { eapply (wp_copy_user_pages s1 _ src a); [apply Hconf1|by eapply cf_own|apply lookup_insert_eq|congruence|done]. }
  intros b s2 Hb. assert (∃ own2, confined a s1 (<[a := Table a []]> own) s2 own2) as (own2 & Hconf2).
  { destruct b; [destruct Hb as (own2 & H2 & _)|destruct Hb as [(own2 & H2) _]]; by exists own2. }
  pose proof (confined_trans _ _ _ _ _ _ _ Hconf1 Hconf2) as Hconf. pose proof (cf_ok _ _ _ _ _ Hconf) as Hok2.
  assert (own2 !! a = Some (Table a [])) as Ha2 by (eapply (cf_own _ _ _ _ _ Hconf2), lookup_insert_eq).
  wp_step. eapply wp_mono; [by apply destroy_wp|]. intros [] s3 (Hok3 & Hfr3 & Hav3 & _). wp_step.
  assert (∀ f r, own !! f = Some r → root_of r ≠ a) as Hnot by (intros f r Hf Hr; pose proof (root_owned s own f r Hok Hf); congruence).
  assert (filter (λ x, root_of x.2 ≠ a) own2 = own) as Hown.
  { apply map_eq. intros f. apply option_eq. intros r. rewrite map_lookup_filter_Some. cbn. split.
    - intros [Hf Hr]. by apply (cf_new _ _ _ _ _ Hconf) in Hf as [Hf|[_ Hf]].
    - intros Hf. split; [by eapply cf_own|by eapply Hnot]. }
  rewrite Hown in Hok3. split; [done|]. split.
  - intros f. rewrite Hav3, (cf_avail _ _ _ _ _ Hconf). split.
    + intros [[Hf _]|(r & Hf & Hr)]; [done|]. apply (cf_new _ _ _ _ _ Hconf) in Hf as [Hf|[Hf _]]; [|done]. by destruct (Hnot f r Hf).
    + intros Hf. destruct (own2 !! f) as [r|] eqn:E; [right|left; done]. exists r. split; [done|].
      apply (cf_new _ _ _ _ _ Hconf) in E as [E|[_ E]]; [|done]. destruct (vo_available _ _ Hok f Hf). congruence.
  - intros f Hnf. rewrite Hfr3. apply (cf_mem _ _ _ _ _ Hconf); [done|]. intros p Hp. by apply (Hnot f _ Hp).
Qed.
End vmm.
