(* ===== verification/VmmPmm.v ===== *)
(** * Virtual memory over the physical memory manager

    The bitmap allocator of [Pmm] keeps the contract of [FrameAllocator]; a small
    machine over it, with two address spaces, at which the properties are applied. *)
From stdpp Require Import gmap.
From S2P Require Import Prelude Vmm VmmSpec VmmMap VmmVisit VmmCopy VmmSpace VmmKernel VmmProps.
From S2P Require Pmm.

#[export] Instance Pmm_FrameAllocator : FrameAllocator Pmm.Pmm := {| frame_allocate := Pmm.allocate; frame_free := Pmm.free |}.

(** The page with index [i] of the manager. *)
Definition page_at (p : Pmm.Pmm) (i a : Z) : Prop := 0 <= i < Pmm.pages_ p ∧ a = Pmm.base_ p + i * 4096.

#[export] Instance Pmm_FrameAllocatorSpec : FrameAllocatorSpec Pmm.Pmm.
Proof.
  refine {| alloc_ok := Pmm.pmm_ok; managed p a := ∃ i, page_at p i a; available p a := ∃ i, page_at p i a ∧ Pmm.page_used p i = false |}.
  - intros p Hp. apply Pmm.wp_allocate; [done| |].
    + intros Hall. split; [done|]. split; [done|]. split; [done|]. intros x (i & [Hi ->] & Hu). rewrite (Hall i Hi) in Hu. done.
    + intros k p' Hk Hu _ (Hok & Hb & Hpg & Hus) _. pose proof (Pmm.po_pages _ Hp). split; [done|].
      unfold page_at. rewrite Hb, Hpg. split; [done|]. split; [by exists k|]. split; [by exists k|]. intros x. split.
      * intros (i & [Hi ->] & Hui). rewrite Hus in Hui by lia. apply orb_false_iff in Hui as [Hui Hne]. split; [by exists i|]. unfold Pmm.PAGE_SIZE. lia.
      * intros [(i & [Hi ->] & Hui) Hne]. exists i. split; [done|]. rewrite Hus, Hui by lia. cbn. unfold Pmm.PAGE_SIZE in *. apply Z.eqb_neq. intros ->. by apply Hne.
  - intros p a Hp (i & Hi & ->) Hna. destruct Hp as [H1 H2 H3 H4 H5 H6] eqn:E. pose proof H3. clear E. unfold Pmm.PAGE_SIZE, Pmm.MAX_PAGES in *.
    apply Pmm.wp_free; [by split|intros x [= <-]; lia|]. intros p' (Hok & Hb & Hpg & Hus). split; [done|]. unfold page_at. rewrite Hb, Hpg. split; [done|].
    intros x. split.
    + intros (j & [Hj ->] & Hu). rewrite Hus in Hu by (unfold Pmm.MAX_PAGES; lia). destruct (Pmm.page_used p j) eqn:Ej; [right|left; by exists j].
      cbn in Hu. apply negb_false_iff, andb_true_iff in Hu as [_ Hu]. apply Z.eqb_eq in Hu.
      replace (Pmm.base_ p + i * 4096 - Pmm.base_ p) with (i * 4096) in Hu by lia. rewrite Z.div_mul in Hu by lia. by subst j.
    + intros [(j & [Hj ->] & Hu)| ->].
      * exists j. split; [done|]. rewrite Hus by (unfold Pmm.MAX_PAGES; lia). by rewrite Hu.
      * exists i. split; [done|]. rewrite Hus by (unfold Pmm.MAX_PAGES; lia). replace (Pmm.base_ p + i * 4096 - Pmm.base_ p) with (i * 4096) by lia.
        rewrite Z.div_mul, Z.eqb_refl by lia. replace (Pmm.base_ p <=? Pmm.base_ p + i * 4096) with true by lia. apply andb_false_r.
Defined.

(** ** A machine with 32 pages *)
Definition ram_base : Z := 1048576.
Definition ram0 : gmap Z (list Z) := list_to_map ((λ i, (ram_base + Z.of_nat i * 4096, replicate ENTRIES_PER_TABLE 0)) <$> seq 0 32).
(** The first page is the root the machine has booted with. *)
Definition pmm0 : Pmm.Pmm := Pmm.mkPmm ([1; 0; 0; 0] ++ replicate 8188 255) ram_base 32 31.
Definition vm0 : Vmm Pmm.Pmm := mkVmm (Some ram_base) ram_base ram0 pmm0.

Lemma ram0_lookup i : (i < 32)%nat → ram0 !! (ram_base + Z.of_nat i * 4096) = Some (replicate ENTRIES_PER_TABLE 0).
Proof.
  intros Hi. apply elem_of_list_to_map_1.
  - rewrite <- list_fmap_compose. apply NoDup_fmap_2; [|apply NoDup_seq]. intros x y H. cbn in H. lia.
  - apply list_elem_of_fmap. exists i. split; [done|]. apply elem_of_seq. lia.
Qed.
Lemma ram0_frame i : 0 <= i < 32 → frame_ok ram0 (ram_base + i * 4096).
Proof.
  intros Hi. unfold frame_ok. split; [unfold ram_base; lia|]. split; [unfold ram_base; lia|].
  exists (replicate ENTRIES_PER_TABLE 0). replace i with (Z.of_nat (Z.to_nat i)) by lia. split; [apply ram0_lookup; lia|]. apply length_replicate.
Qed.

Lemma pmm0_ok : Pmm.pmm_ok pmm0.
Proof.
  split; cbn [Pmm.bitmap_ Pmm.base_ Pmm.pages_ pmm0].
  - rewrite length_app, length_replicate. done.
  - apply Forall_app_2; [repeat constructor; lia|]. apply bytes_replicate. unfold byte_ok. lia.
  - unfold Pmm.MAX_PAGES. lia.
  - unfold ram_base. lia.
  - done.
  - unfold Pmm.MAX_PAGES, Pmm.PAGE_SIZE, ram_base. lia.
Qed.

Lemma vm0_ok : vm_ok vm0 ∅.
Proof.
  split.
  - exact pmm0_ok.
  - intros f (i & [Hi ->] & _). split; [by apply ram0_frame|done].
  - intros f r Hf. by rewrite lookup_empty in Hf.
  - split; [intros root p i e r (f & Hf & _); by rewrite lookup_empty in Hf|intros f r Hf; by rewrite lookup_empty in Hf].
Qed.

(** What an operation returns, and where it leads. *)
Definition result {A} (m : M (Vmm Pmm.Pmm) A) (s : Vmm Pmm.Pmm) : option A := fst <$> m s.
Definition after {A} (m : M (Vmm Pmm.Pmm) A) (s : Vmm Pmm.Pmm) : Vmm Pmm.Pmm :=
  match m s with Some (_, s') => s' | None => s end.
Lemma wp_after {A} (m : M (Vmm Pmm.Pmm) A) s Q a : wp m s Q → result m s = Some a → Q a (after m s).
Proof. intros (b & s' & Hm & HQ) Hr. unfold result, after in *. rewrite Hm in *. cbn in Hr. by injection Hr as <-. Qed.

(** An address space with a user page at 0x3000, a copy of the first page, and a
    second, empty one. *)
Definition root1 : Z := ram_base + 1 * 4096.
Definition root2 : Z := ram_base + 6 * 4096.
Definition vm1 : Vmm Pmm.Pmm := after create_address_space vm0.
Definition vm2 : Vmm Pmm.Pmm := after (copy (Some root1) 12288 (Z.lor ram_base 7)) vm1.
Definition vm3 : Vmm Pmm.Pmm := after create_address_space vm2.


(** The page with the index [i] is free, or taken. *)
Lemma page_free (p : Pmm.Pmm) i : Pmm.base_ p = ram_base → 0 <= i < Pmm.pages_ p → Pmm.page_used p i = false → available p (ram_base + i * 4096).
Proof. intros Hb Hi Hu. exists i. unfold page_at. by rewrite Hb. Qed.
Lemma page_taken (p : Pmm.Pmm) i : Pmm.base_ p = ram_base → Pmm.page_used p i = true → ¬ available p (ram_base + i * 4096).
Proof. intros Hb Hu (j & [Hj Ha] & Hf). rewrite Hb in Ha. assert (i = j) as -> by lia. congruence. Qed.

Lemma vm1_ok : ∃ own, created vm0 ∅ ram_base root1 vm1 own.
Proof.
  pose proof (wp_create vm0 ∅ ram_base vm0_ok eq_refl (ram0_frame 0 ltac:(lia)) (page_taken pmm0 0 eq_refl ltac:(by vm_compute))) as H.
  exact (wp_after _ _ _ (Some root1) H ltac:(by vm_compute)).
Qed.

Lemma vm2_ok : ∃ own, vm_ok vm2 own ∧ own !! root1 = Some (Table root1 []) ∧ own !! ram_base = None ∧ frame_ok (frames vm2) ram_base.
Proof.
  destruct vm1_ok as (own & Hconf & Hnone & Hav & Hown & Hempty & _). pose proof (cf_ok _ _ _ _ _ Hconf) as Hok.
  assert (own !! root1 = Some (Table root1 [])) as Hroot by (rewrite Hown; apply lookup_insert_eq).
  assert (own !! ram_base = None) as Hkern by (rewrite Hown; by rewrite lookup_insert_ne).
  assert (phys (Z.lor ram_base 7) = ram_base) as Hph by done.
  assert (frame_ok (frames vm1) ram_base) as Hfr by (apply (cf_frames _ _ _ _ _ Hconf), (ram0_frame 0); lia).
  assert (¬ available (pmm vm1) ram_base) as Hnk by (apply (page_taken (pmm vm1) 0); by vm_compute).
  assert (∀ Q : bool → Vmm Pmm.Pmm → Prop, (∀ s' own', extends root1 vm1 own s' own' → short s' → Q false s') →
    (∀ a s' own', copied root1 vm1 own 12288 (Z.lor ram_base 7) a s' own' → Q true s') → wp (copy (Some root1) 12288 (Z.lor ram_base 7)) vm1 Q) as Hwp.
  { intros Q Hf Ht. apply (wp_copy vm1 own root1); [done|done|done|done|by rewrite Hph|by rewrite Hph| |done|done].
    intros x Hs. destruct (has x User) eqn:Eu; [|done]. exfalso.
    assert ((12288, x) ∈ user_pages (frames vm1) root1) as Hin.
    { apply (elem_user_pages _ own); [apply (vo_tables _ _ Hok)|done|]. exists 0%nat, 0%nat, 3%nat. do 3 (split; [lia|]). done. }
    rewrite Hempty in Hin. by apply elem_of_nil in Hin. }
  set (Q := λ (b : bool) (s' : Vmm Pmm.Pmm), b = true → ∃ a own', copied root1 vm1 own 12288 (Z.lor ram_base 7) a s' own').
  assert (Q true vm2) as HQ.
  { refine (wp_after _ vm1 Q true (Hwp Q _ _) ltac:(by vm_compute)); unfold Q; [done|]. intros a s' own' Hc _. by exists a, own'. }
  destruct (HQ eq_refl) as (a & own' & Hc). exists own'. split; [apply (cp_ok _ _ _ _ _ _ _ _ Hc)|]. split; [by eapply cp_own|]. split.
  - destruct (own' !! ram_base) as [r|] eqn:E; [|done]. apply (cp_new _ _ _ _ _ _ _ _ Hc) in E as [E|[E _]]; [congruence|done].
  - by apply (cp_frames _ _ _ _ _ _ _ _ Hc).
Qed.

Lemma vm3_ok : ∃ own, vm_ok vm3 own ∧ own !! root1 = Some (Table root1 []) ∧ own !! root2 = Some (Table root2 []) ∧
  user_pages (frames vm3) root2 = [].
Proof.
  destruct vm2_ok as (own & Hok & Hroot & _ & Hfr).
  pose proof (wp_create vm2 own ram_base Hok ltac:(by vm_compute) Hfr (page_taken (pmm vm2) 0 ltac:(by vm_compute) ltac:(by vm_compute))) as H.
  destruct (wp_after _ _ _ (Some root2) H ltac:(by vm_compute)) as (own' & Hconf & _ & _ & -> & Hempty & _).
  eexists. split; [apply (cf_ok _ _ _ _ _ Hconf)|]. split; [by apply (cf_own _ _ _ _ _ Hconf)|]. split; [apply lookup_insert_eq|done].
Qed.

(** ** The properties there *)

Lemma copy_user_pages_correct_witness :
  result (copy_user_pages (Some root1) (Some root2)) vm3 = Some true ∧ fst <$> user_pages (frames vm3) root1 = [12288] ∧
  wp (copy_user_pages (Some root1) (Some root2)) vm3 (λ b s', b = true →
    ∀ e, (12288, e) ∈ user_pages (frames vm3) root1 → ∃ e', (12288, e') ∈ user_pages (frames s') root2 ∧ frames s' !! phys e' = frames vm3 !! phys e).
Proof.
  split; [by vm_compute|]. split; [by vm_compute|]. destruct vm3_ok as (own & Hok & H1 & H2 & Hempty).
  assert (root1 ≠ root2) as Hne by (unfold root1, root2; lia).
  eapply wp_mono; [exact (copy_user_pages_correct vm3 own root1 root2 Hok H1 H2 Hne Hempty)|].
  intros b s' (own' & _ & _ & Hb) -> e He. destruct Hb as [Hb _]. destruct (Hb 12288 e He) as (e' & Hin & _ & Hc & _). exists e'. split; [exact Hin|exact Hc].
Defined.

Lemma destroy_address_space_correct_witness :
  wp (destroy_address_space (Some root1)) vm3 (λ _ s', available (pmm s') root1 ∧ frames s' = frames vm3).
Proof.
  destruct vm3_ok as (own & Hok & H1 & _). eapply wp_mono; [exact (destroy_address_space_correct vm3 own root1 Hok H1)|].
  intros [] s' (_ & Hfr & Hav). split; [|exact Hfr]. apply Hav. right. exists (Table root1 []). split; [exact H1|reflexivity].
Defined.

Lemma no_frame_leaks_witness :
  result (copy_and_give_up root1) vm2 = Some true ∧
  wp (copy_and_give_up root1) vm2 (λ _ s', ∀ f, available (pmm s') f ↔ available (pmm vm2) f).
Proof.
  split; [by vm_compute|]. destruct vm2_ok as (own & Hok & H1 & _ & Hfr).
  assert (pml4_phys_ vm2 = Some ram_base) as Hcur by (by vm_compute).
  assert (¬ available (pmm vm2) ram_base) as Hnk by (apply (page_taken (pmm vm2) 0); by vm_compute).
  eapply wp_mono; [exact (no_frame_leaks vm2 own root1 ram_base Hok H1 Hcur Hfr Hnk)|].
  intros b s' (_ & Hav & _). exact Hav.
Defined.

(** * A machine with the kernel's tables

    Pages 0 to 3 of the memory are the boot root and the kernel's tables; page 4 is a
    page of the program. *)
Definition kpage (i : Z) : Z := ram_base + i * 4096.
Definition table_with (i : nat) (e : Z) : list Z := <[i := e]> (replicate ENTRIES_PER_TABLE 0).
Definition kram : gmap Z (list Z) :=
  <[kpage 0 := table_with 511 (kpage 1 + 3)]> (<[kpage 1 := table_with 510 (kpage 2 + 3)]>
  (<[kpage 2 := table_with 0 (kpage 3 + 3)]> (<[kpage 3 := table_with 256 (kpage 4 + 3)]> ram0))).
Definition kpmm : Pmm.Pmm := Pmm.mkPmm ([31; 0; 0; 0] ++ replicate 8188 255) ram_base 32 27.
Definition kvm0 : Vmm Pmm.Pmm := mkVmm (Some (kpage 0)) (kpage 0) kram kpmm.
Definition ktab : KTables := <[kpage 1 := []]> (<[kpage 2 := [510%nat]]> (<[kpage 3 := [510%nat; 0%nat]]> ∅)).

Lemma table_with_present i e j x : table_with i e !! j = Some x → has x Present = true → j = i ∧ x = e.
Proof.
  unfold table_with. intros Hx Hp. destruct (decide (j = i)) as [->|Hne].
  - rewrite list_lookup_insert_Some in Hx. destruct Hx as [(_ & <- & _)|[? _]]; done.
  - rewrite list_lookup_insert_ne in Hx by done. by apply lookup_replicate_1 in Hx as [-> _].
Qed.

Lemma ktab_cases f q : ktab !! f = Some q ↔ f = kpage 1 ∧ q = [] ∨ f = kpage 2 ∧ q = [510%nat] ∨ f = kpage 3 ∧ q = [510%nat; 0%nat].
Proof.
  unfold ktab. rewrite !lookup_insert_Some, lookup_empty. unfold kpage. split.
  - intros [[<- <-]|(_ & [[<- <-]|(_ & [[<- <-]|[_ ?]])])]; auto; done.
  - intros [[-> ->]|[[-> ->]|[-> ->]]]; [by left|right; split; [lia|by left]|right; split; [lia|right; split; [lia|by left]]].
Qed.

Lemma kram_lookup : kram !! kpage 0 = Some (table_with 511 (kpage 1 + 3)) ∧ kram !! kpage 1 = Some (table_with 510 (kpage 2 + 3)) ∧
  kram !! kpage 2 = Some (table_with 0 (kpage 3 + 3)) ∧ kram !! kpage 3 = Some (table_with 256 (kpage 4 + 3)).
Proof. split_and!; by vm_compute. Qed.

Lemma kslot_cases q i e : kslot kram ktab q i e ↔ q = [] ∧ i = 510%nat ∧ e = kpage 2 + 3 ∨ q = [510%nat] ∧ i = 0%nat ∧ e = kpage 3 + 3 ∨
  q = [510%nat; 0%nat] ∧ i = 256%nat ∧ e = kpage 4 + 3.
Proof.
  destruct kram_lookup as (_ & K1 & K2 & K3). split.
  - intros (f & Hf & He & Hp). apply ktab_cases in Hf as [[-> ->]|[[-> ->]|[-> ->]]].
    + rewrite (entry_at_Some _ _ _ _ K1) in He. left. split; [done|]. by eapply table_with_present.
    + rewrite (entry_at_Some _ _ _ _ K2) in He. right; left. split; [done|]. by eapply table_with_present.
    + rewrite (entry_at_Some _ _ _ _ K3) in He. right; right. split; [done|]. by eapply table_with_present.
  - intros [(-> & -> & ->)|[(-> & -> & ->)|(-> & -> & ->)]]; [exists (kpage 1)|exists (kpage 2)|exists (kpage 3)];
      (split; [apply ktab_cases; auto|]); split; by vm_compute.
Qed.

Lemma kram_frame i : 0 <= i < 32 → frame_ok kram (kpage i).
Proof.
  intros Hi. unfold kram. do 4 (apply frame_ok_insert; [|intros _; by vm_compute]). by apply ram0_frame.
Qed.

Lemma kvm0_ok : vm_ok kvm0 ∅.
Proof.
  split.
  - split; cbn [Pmm.bitmap_ Pmm.base_ Pmm.pages_ kvm0 kpmm pmm].
    + rewrite length_app, length_replicate. done.
    + apply Forall_app_2; [repeat constructor; lia|]. apply bytes_replicate. unfold byte_ok. lia.
    + unfold Pmm.MAX_PAGES. lia.
    + unfold ram_base. lia.
    + done.
    + unfold Pmm.MAX_PAGES, Pmm.PAGE_SIZE, ram_base. lia.
  - intros f (i & [Hi ->] & _). split; [by apply kram_frame|done].
  - intros f r Hf. by rewrite lookup_empty in Hf.
  - split; [intros root p i e r (f & Hf & _); by rewrite lookup_empty in Hf|intros f r Hf; by rewrite lookup_empty in Hf].
Qed.

Lemma kvm0_kernel : kernel_ok kvm0 ∅ ktab (kpage 1) (kpage 0).
Proof.
  assert (∀ i, 0 <= i < 5 → ¬ available kpmm (kpage i)) as Htaken.
  { intros i Hi. apply page_taken; [done|]. assert (i = 0 ∨ i = 1 ∨ i = 2 ∨ i = 3 ∨ i = 4) as [->|[->|[->|[->| ->]]]] by lia; by vm_compute. }
  split.
  - intros f. rewrite ktab_cases. split; [intros [[-> _]|[[_ ?]|[_ ?]]]; done|intros ->; by left].
  - intros f q Hf. apply ktab_cases in Hf as [[-> ->]|[[-> ->]|[-> ->]]]; (split; [cbn; lia|]); (split; [apply kram_frame; lia|]); (split; [done|]); apply Htaken; lia.
  - intros q i e Hs Hq. apply kslot_cases in Hs as [(-> & -> & ->)|[(-> & -> & ->)|(-> & -> & ->)]]; [by vm_compute|by vm_compute|cbn in Hq; lia].
  - intros f q i Hf. apply ktab_cases in Hf as [[_ Hq]|[[-> Hq]|[-> Hq]]].
    + by destruct q.
    + assert (q = [] ∧ i = 510%nat) as [-> ->] by (destruct q as [|? [|]]; [by injection Hq as ->|done..]).
      exists (kpage 2 + 3). split; [apply kslot_cases; auto|by vm_compute].
    + assert (q = [510%nat] ∧ i = 0%nat) as [-> ->] by (destruct q as [|? [|? [|]]]; [done|by injection Hq as -> ->|done..]).
      exists (kpage 3 + 3). split; [apply kslot_cases; auto|by vm_compute].
  - split; [apply kram_frame; lia|]. split; [done|]. split; [apply Htaken; lia|]. by vm_compute.
  - intros r [Hr| ->]; [by rewrite lookup_empty in Hr|]. exists (kpage 1 + 3). split_and!; by vm_compute.
Qed.

(** An address space for the process. *)
Definition kroot : Z := kpage 5.
Definition kvm1 : Vmm Pmm.Pmm := after create_address_space kvm0.

Lemma kvm1_created : ∃ own, created kvm0 ∅ (kpage 0) kroot kvm1 own.
Proof.
  pose proof (wp_create kvm0 ∅ (kpage 0) kvm0_ok eq_refl (kram_frame 0 ltac:(lia)) (page_taken kpmm 0 eq_refl ltac:(by vm_compute))) as H.
  exact (wp_after _ _ _ (Some kroot) H ltac:(by vm_compute)).
Qed.

(** The machine runs in that address space. *)
Definition kvm1_running : Vmm Pmm.Pmm := set_pml4_phys (Some kroot) kvm1.

(** The first page of the heap, and a page of the process. *)
Lemma map_then_translate_witness :
  (result (map_page 0xFFFFFFC000000000 (Some (kpage 9)) (Z.lor Present Writable)) kvm0 = Some true ∧
   wp (map_page 0xFFFFFFC000000000 (Some (kpage 9)) (Z.lor Present Writable)) kvm0 (λ b s', b = true →
     wp (virtual_to_physical 0xFFFFFFC00000000A) s' (λ r _, r = Some (kpage 9 + 10)))) ∧
  result (map_page 20480 (Some (kpage 4)) (Z.lor User Writable)) kvm1_running = Some true ∧
  wp (map_page 20480 (Some (kpage 4)) (Z.lor User Writable)) kvm1_running (λ b s', b = true →
    wp (virtual_to_physical 20490) s' (λ r _, r = Some (kpage 4 + 10))).
Proof.
  split; (split; [by vm_compute|]).
  - assert (high_half ∅ (kpage 0) (kpage 0) 0xFFFFFFC000000000) as Hhigh by (split; [split; by vm_compute|by right]).
    assert (may_map kvm0 ∅ ktab (kpage 0) (kpage 0) 0xFFFFFFC000000000 (kpage 9) (Z.lor Present Writable)) as Hmay.
    { right. split; [exact Hhigh|]. split; [by vm_compute|split; by vm_compute]. }
    eapply wp_mono; [exact (map_then_translate kvm0 ∅ ktab (kpage 1) (kpage 0) (kpage 0) 0xFFFFFFC000000000 (kpage 9) (Z.lor Present Writable)
      kvm0_ok kvm0_kernel eq_refl eq_refl Hmay)|]. intros b s' [_ Hwp] ->.
    eapply wp_mono; [apply (Hwp 0xFFFFFFC00000000A); right; split; [split; by vm_compute|by right]|]. intros r s'' [_ Hr]. rewrite Hr. by vm_compute.
  - destruct kvm1_created as (own & Hcr). destruct (kernel_created _ _ _ _ _ _ _ _ _ kvm0_ok kvm0_kernel (or_intror eq_refl) Hcr) as [Hk _].
    destruct Hcr as (Hconf & _ & _ & Hown & Hempty & _). pose proof (cf_ok _ _ _ _ _ Hconf) as Hok.
    assert (own !! kroot = Some (Table kroot [])) as Hroot by (rewrite Hown; apply lookup_insert_eq).
    assert (vm_ok kvm1_running own) as Hok' by (destruct Hok; by split).
    assert (kernel_ok kvm1_running own ktab (kpage 1) (kpage 0)) as Hk' by (destruct Hk; by split).
    assert (low_half own kroot 20480) as Hlow by (split; [lia|exact Hroot]).
    assert (may_map kvm1_running own ktab (kpage 0) kroot 20480 (kpage 4) (Z.lor User Writable)) as Hmay.
    { left. split; [exact Hlow|]. split; [|split; [by vm_compute|split; [by vm_compute|split; [by vm_compute|]]]].
      - split; [rewrite Hown; by vm_compute|]. split; [apply (page_taken (pmm kvm1) 4); by vm_compute|]. split; [exists 4; split; [split; by vm_compute|by vm_compute]|].
        apply (cf_frames _ _ _ _ _ Hconf), kram_frame. lia.
      - intros x Hs. destruct (has x User) eqn:Eu; [|done]. exfalso. assert ((20480, x) ∈ user_pages (frames kvm1) kroot) as Hin; [|rewrite Hempty in Hin; by apply elem_of_nil in Hin].
        apply (elem_user_pages _ own); [apply (vo_tables _ _ Hok)|done|]. exists 0%nat, 0%nat, 5%nat. do 3 (split; [lia|]). done. }
    eapply wp_mono; [exact (map_then_translate kvm1_running own ktab (kpage 1) (kpage 0) kroot 20480 (kpage 4) (Z.lor User Writable)
      Hok' Hk' eq_refl eq_refl Hmay)|]. intros b s' [_ Hwp] ->.
    eapply wp_mono; [apply (Hwp 20490); left; split; [lia|exact Hroot]|]. intros r s'' [_ Hr]. rewrite Hr. by vm_compute.
Defined.
