(* ===== verification/Process.v ===== *)
(** * Processes (include/process.hpp, include/process.cpp)

    The process table and its operations. A [Process *] is the index of a slot,
    a [File *] the index of a slot of the file table. The heap, the address
    spaces, the task state segment and the open files are reached through
    [Services]. A switch of contexts ends an operation: [SwitchTo] tells who runs
    next, and what the process that is left has still to do when it runs again is
    kept with its saved context, as a [Point]. *)
From stdpp Require Import gmap.
From S2P Require Import Prelude Kstring.

Definition KERNEL_STACK_SIZE : Z := 16384.
Definition MAX_PROCESSES : nat := 64.
Definition NUM_OPEN_FILES : nat := 16.

Record TrapFrame := mkTrapFrame {
  tf_r15 : Z; tf_r14 : Z; tf_r13 : Z; tf_r12 : Z; tf_r11 : Z; tf_r10 : Z; tf_r9 : Z; tf_r8 : Z;
  tf_rbp : Z; tf_rbx : Z; tf_rax : Z; tf_rcx : Z; tf_rdx : Z; tf_rsi : Z; tf_rdi : Z; user_rsp : Z;
}.
Definition set_rax v (t : TrapFrame) := mkTrapFrame (tf_r15 t) (tf_r14 t) (tf_r13 t) (tf_r12 t) (tf_r11 t)
  (tf_r10 t) (tf_r9 t) (tf_r8 t) (tf_rbp t) (tf_rbx t) v (tf_rcx t) (tf_rdx t) (tf_rsi t) (tf_rdi t) (user_rsp t).

Record ProcessContext := mkContext {
  ctx_rbp : Z; ctx_rbx : Z; ctx_r12 : Z; ctx_r13 : Z; ctx_r14 : Z; ctx_r15 : Z; ctx_rip : Z;
}.
Definition sizeof_ProcessContext : Z := 56.
Definition sizeof_TrapFrame : Z := 128.
(** [struct UserForkFrame]: the context below the trap frame. *)
Definition sizeof_UserForkFrame : Z := sizeof_ProcessContext + sizeof_TrapFrame.

(** Where a process has called [schedule]: what it does when it runs again. *)
Inductive Point := AtYield | AtSleep | AtWait | AtZombie.
#[export] Instance Point_eq_dec : EqDecision Point.
Proof. solve_decision. Defined.

(** What the [context] pointer points to: nothing yet, a frame put there by this
    file, or what [switch_context] pushed. *)
Inductive Context := NoContext | Placed (address : Z) (frame : ProcessContext) | Saved (point : Point).

Inductive ProcessState := Unused | Embryo | Runnable | Running | Sleeping | Zombie.
#[export] Instance ProcessState_eq_dec : EqDecision ProcessState.
Proof. solve_decision. Defined.

(** A [void *] to sleep on: a process, or another address. *)
Inductive Channel := CProcess (slot : nat) | CAddress (address : Z).
#[export] Instance Channel_eq_dec : EqDecision Channel.
Proof. solve_decision. Defined.

Record Process := mkProcess {
  pid : Z;
  state : ProcessState;
  context : Context;
  kernel_stack : option Z;
  entry : option Z;
  entry_arg : Z;
  name : kstring;
  pml4 : option Z;
  sleep_channel : option Channel;
  parent : option nat;
  exit_status : Z;
  trap_frame : option (Z * TrapFrame);
  files : list (option nat);
}.

Definition set_pid v p := mkProcess v (state p) (context p) (kernel_stack p) (entry p) (entry_arg p) (name p) (pml4 p) (sleep_channel p) (parent p) (exit_status p) (trap_frame p) (files p).
Definition set_state v p := mkProcess (pid p) v (context p) (kernel_stack p) (entry p) (entry_arg p) (name p) (pml4 p) (sleep_channel p) (parent p) (exit_status p) (trap_frame p) (files p).
Definition set_context v p := mkProcess (pid p) (state p) v (kernel_stack p) (entry p) (entry_arg p) (name p) (pml4 p) (sleep_channel p) (parent p) (exit_status p) (trap_frame p) (files p).
Definition set_stack v p := mkProcess (pid p) (state p) (context p) v (entry p) (entry_arg p) (name p) (pml4 p) (sleep_channel p) (parent p) (exit_status p) (trap_frame p) (files p).
Definition set_entry v a p := mkProcess (pid p) (state p) (context p) (kernel_stack p) v a (name p) (pml4 p) (sleep_channel p) (parent p) (exit_status p) (trap_frame p) (files p).
Definition set_name v p := mkProcess (pid p) (state p) (context p) (kernel_stack p) (entry p) (entry_arg p) v (pml4 p) (sleep_channel p) (parent p) (exit_status p) (trap_frame p) (files p).
Definition set_pml4 v p := mkProcess (pid p) (state p) (context p) (kernel_stack p) (entry p) (entry_arg p) (name p) v (sleep_channel p) (parent p) (exit_status p) (trap_frame p) (files p).
Definition set_channel v p := mkProcess (pid p) (state p) (context p) (kernel_stack p) (entry p) (entry_arg p) (name p) (pml4 p) v (parent p) (exit_status p) (trap_frame p) (files p).
Definition set_parent v p := mkProcess (pid p) (state p) (context p) (kernel_stack p) (entry p) (entry_arg p) (name p) (pml4 p) (sleep_channel p) v (exit_status p) (trap_frame p) (files p).
Definition set_exit v p := mkProcess (pid p) (state p) (context p) (kernel_stack p) (entry p) (entry_arg p) (name p) (pml4 p) (sleep_channel p) (parent p) v (trap_frame p) (files p).
Definition set_trap v p := mkProcess (pid p) (state p) (context p) (kernel_stack p) (entry p) (entry_arg p) (name p) (pml4 p) (sleep_channel p) (parent p) (exit_status p) v (files p).
Definition set_files v p := mkProcess (pid p) (state p) (context p) (kernel_stack p) (entry p) (entry_arg p) (name p) (pml4 p) (sleep_channel p) (parent p) (exit_status p) (trap_frame p) v.

(** What the operations use of the rest of the kernel, and the addresses of two
    assembly routines. *)
Class Services (E : Type) := {
  heap_allocate : Z → M E (option Z);
  heap_free : Z → M E ();
  create_address_space : M E (option Z);
  destroy_address_space : option Z → M E ();
  copy_user_pages : option Z → option Z → M E bool;
  switch_address_space : option Z → M E ();
  set_kernel_stack : Z → M E ();
  file_open_console : bool → bool → M E (option nat);
  file_duplicate : option nat → M E (option nat);
  file_close : option nat → M E ();
  trampoline_address : Z;
  fork_return_address : Z;
}.

(** [ptable], [cpu] and [init_proc]; the bytes of the kernel stacks; the rest of
    the kernel. [scheduler_context] is whether that context has been saved. *)
Record Kernel (E : Type) := mkKernel {
  procs : list Process;
  next_pid : Z;
  initialized : bool;
  current : option nat;
  scheduler_context : bool;
  init_proc : option nat;
  memory : gmap Z Z;
  env : E;
}.
Arguments mkKernel {E}. Arguments procs {E}. Arguments next_pid {E}. Arguments initialized {E}.
Arguments current {E}. Arguments scheduler_context {E}. Arguments init_proc {E}. Arguments memory {E}.
Arguments env {E}.

(** How an operation ends: it returns, or the processor goes on with another
    process or (for [None]) with the scheduler's context. *)
Inductive Control := Continue | SwitchTo (next : option nat).

Section Process.
Context {E : Type} `{Services E}.

Definition set_procs v (s : Kernel E) := mkKernel v (next_pid s) (initialized s) (current s) (scheduler_context s) (init_proc s) (memory s) (env s).
Definition set_next_pid v (s : Kernel E) := mkKernel (procs s) v (initialized s) (current s) (scheduler_context s) (init_proc s) (memory s) (env s).
Definition set_initialized v (s : Kernel E) := mkKernel (procs s) (next_pid s) v (current s) (scheduler_context s) (init_proc s) (memory s) (env s).
Definition set_current v (s : Kernel E) := mkKernel (procs s) (next_pid s) (initialized s) v (scheduler_context s) (init_proc s) (memory s) (env s).
Definition set_scheduler v (s : Kernel E) := mkKernel (procs s) (next_pid s) (initialized s) (current s) v (init_proc s) (memory s) (env s).
Definition set_init_proc v (s : Kernel E) := mkKernel (procs s) (next_pid s) (initialized s) (current s) (scheduler_context s) v (memory s) (env s).
Definition set_memory v (s : Kernel E) := mkKernel (procs s) (next_pid s) (initialized s) (current s) (scheduler_context s) (init_proc s) v (env s).
Definition set_env (v : E) (s : Kernel E) := mkKernel (procs s) (next_pid s) (initialized s) (current s) (scheduler_context s) (init_proc s) (memory s) v.

Definition service {A} (m : M E A) : M (Kernel E) A := zoom env set_env m.

Definition proc (k : nat) : M (Kernel E) Process := s ← get; defined (procs s !! k).
Definition modify_proc (k : nat) (f : Process → Process) : M (Kernel E) () :=
  p ← proc k; modify (λ s, set_procs (<[k := f p]> (procs s)) s).

(** A second [initialize] halts. *)
Definition initialize : M (Kernel E) () :=
  s ← get;
  if initialized s then stuck
  else
    _ ← modify (λ s, set_procs ((λ p, set_channel None (set_state Unused p)) <$> procs s) s);
    _ ← modify (set_current None);
    modify (set_initialized true).

(** The loop of [close_all_files] over the descriptors from [fd] on. *)
Fixpoint close_files (n fd k : nat) : M (Kernel E) () :=
  match n with
  | O => mret ()
  | S n =>
      p ← proc k;
      file ← defined (files p !! fd);
      _ ← service (file_close file);
      _ ← modify_proc k (λ p, set_files (<[fd := None]> (files p)) p);
      close_files n (S fd) k
  end.
Definition close_all_files (k : nat) : M (Kernel E) () := close_files NUM_OPEN_FILES 0 k.

Definition open_console_files (k : nat) : M (Kernel E) bool :=
  f0 ← service (file_open_console true false);
  _ ← modify_proc k (λ p, set_files (<[0%nat := f0]> (files p)) p);
  f1 ← service (file_open_console false true);
  _ ← modify_proc k (λ p, set_files (<[1%nat := f1]> (files p)) p);
  match f0, f1 with
  | Some _, Some _ =>
      f2 ← service (file_duplicate f1);
      _ ← modify_proc k (λ p, set_files (<[2%nat := f2]> (files p)) p);
      mret true
  | _, _ => mret false
  end.

(** ** Scheduling *)

(** [size_t start], -1 without a process, and the loop that looks for a
    runnable process behind it. *)
Definition start_index (prev : option nat) : Z := match prev with Some k => Z.of_nat k | None => u64 (-1) end.
Fixpoint next_runnable (n : nat) (ps : list Process) (start off : Z) : option nat :=
  match n with
  | O => None
  | S n =>
      let idx := Z.to_nat (u64 (start + off) `mod` Z.of_nat MAX_PROCESSES) in
      match ps !! idx with
      | Some p => if decide (state p = Runnable) then Some idx else next_runnable n ps start (off + 1)
      | None => None
      end
  end.
Definition find_next (ps : list Process) (prev : option nat) : option nat :=
  next_runnable MAX_PROCESSES ps (start_index prev) 1.

(** The part of a switch that prepares the machine for process [k]. *)
Definition prepare (k : nat) : M (Kernel E) () :=
  p ← proc k;
  _ ← match pml4 p with Some _ => service (switch_address_space (pml4 p)) | None => mret () end;
  p ← proc k;
  service (set_kernel_stack (u64 (default 0 (kernel_stack p) + KERNEL_STACK_SIZE))).

(** [switch_context(old_ctx, procs[k].context)]; jumping to a context that was
    never set up is stuck. *)
Definition switch_to (save : M (Kernel E) ()) (k : nat) : M (Kernel E) Control :=
  p ← proc k;
  match context p with
  | NoContext => stuck
  | _ => _ ← save; mret (SwitchTo (Some k))
  end.
(** [switch_context(old_ctx, cpu.scheduler_context)] *)
Definition switch_to_scheduler (save : M (Kernel E) ()) : M (Kernel E) Control :=
  s ← get;
  if scheduler_context s then _ ← save; mret (SwitchTo None) else stuck.

Definition save_context (prev : option nat) (point : Point) : M (Kernel E) () :=
  match prev with
  | Some k => modify_proc k (set_context (Saved point))
  | None => modify (set_scheduler true)
  end.

Definition schedule (prev : option nat) (point : Point) : M (Kernel E) Control :=
  s ← get;
  match find_next (procs s) prev with
  | Some idx =>
      _ ← modify (set_current (Some idx));
      _ ← modify_proc idx (set_state Running);
      if decide (prev = Some idx) then mret Continue
      else
        _ ← prepare idx;
        switch_to (save_context prev point) idx
  | None =>
      match prev with
      | Some _ => _ ← modify (set_current None); switch_to_scheduler (save_context prev point)
      | None => mret Continue
      end
  end.

Definition yield_at (point : Point) : M (Kernel E) Control :=
  s ← get;
  let prev := current s in
  _ ← match prev with
      | Some k => p ← proc k; if decide (state p = Running) then modify_proc k (set_state Runnable) else mret ()
      | None => mret ()
      end;
  schedule prev point.
Definition yield : M (Kernel E) Control := yield_at AtYield.
(** [scheduler::tick] *)
Definition tick : M (Kernel E) Control := yield.

(** What [sleep] does once its process runs again. *)
Definition sleep_resume (k : nat) : M (Kernel E) () := modify_proc k (set_channel None).

Definition sleep (channel : Channel) (point : Point) : M (Kernel E) Control :=
  s ← get;
  match current s with
  | None => mret Continue
  | Some k =>
      _ ← modify_proc k (set_channel (Some channel));
      _ ← modify_proc k (set_state Sleeping);
      c ← schedule (Some k) point;
      match c with
      | Continue => _ ← sleep_resume k; mret Continue
      | SwitchTo next => mret (SwitchTo next)
      end
  end.

(** The loop of [wakeup], from slot [i] on. *)
Fixpoint wakeup_loop (n i : nat) (channel : Channel) : M (Kernel E) () :=
  match n with
  | O => mret ()
  | S n =>
      p ← proc i;
      _ ← (if decide (state p = Sleeping ∧ sleep_channel p = Some channel)
           then modify_proc i (set_state Runnable) else mret ());
      wakeup_loop n (S i) channel
  end.
Definition wakeup (channel : Channel) : M (Kernel E) () := wakeup_loop MAX_PROCESSES 0 channel.
End Process.

Section Lifecycle.
Context {E : Type} `{Services E}.

(** ** Creating and releasing *)

Definition free_process_resources (k : nat) : M (Kernel E) () :=
  _ ← close_all_files k;
  p ← proc k;
  _ ← match kernel_stack p with
      | Some base => _ ← service (heap_free base); modify_proc k (set_stack None)
      | None => mret ()
      end;
  p ← proc k;
  _ ← match pml4 p with Some _ => service (destroy_address_space (pml4 p)) | None => mret () end;
  _ ← modify_proc k (set_pml4 None);
  _ ← modify_proc k (set_parent None);
  _ ← modify_proc k (set_channel None);
  _ ← modify_proc k (set_exit 0);
  modify_proc k (set_state Unused).

(** The first slot that is not used. *)
Fixpoint find_unused (ps : list Process) (k : nat) : option nat :=
  match ps with
  | [] => None
  | p :: ps => if decide (state p = Unused) then Some k else find_unused ps (S k)
  end.

(** [proc->pid = ptable.next_pid++]: an [int], whose overflow is undefined,
    stored as an unsigned number. *)
Definition take_pid : M (Kernel E) Z :=
  s ← get;
  if next_pid s =? INT_MAX then stuck else _ ← put (set_next_pid (next_pid s + 1) s); mret (u64 (next_pid s)).

Definition allocate_process : M (Kernel E) (option nat) :=
  s ← get;
  match find_unused (procs s) 0 with
  | None => mret None
  | Some k =>
      n ← take_pid;
      _ ← modify_proc k (set_pid n);
      _ ← modify_proc k (set_state Embryo);
      _ ← modify_proc k (set_parent None);
      _ ← modify_proc k (set_channel None);
      _ ← modify_proc k (set_trap None);
      _ ← modify_proc k (set_stack None);
      _ ← modify_proc k (set_pml4 None);
      _ ← modify_proc k (set_files (replicate NUM_OPEN_FILES None));
      stack ← service (heap_allocate KERNEL_STACK_SIZE);
      match stack with
      | None => _ ← free_process_resources k; mret None
      | Some base =>
          _ ← modify_proc k (set_stack (Some base));
          space ← service create_address_space;
          _ ← modify_proc k (set_pml4 space);
          match space with
          | None => _ ← free_process_resources k; mret None
          | Some _ => mret (Some k)
          end
      end
  end.

(** [kernel_stack.top()] *)
Definition stack_top (p : Process) : Z := u64 (default 0 (kernel_stack p) + KERNEL_STACK_SIZE).

Definition create_process (e : option Z) (nm : list Z) (arg : Z) : M (Kernel E) (option nat) :=
  slot ← allocate_process;
  match slot with
  | None => mret None
  | Some k =>
      ok ← open_console_files k;
      if negb ok then _ ← free_process_resources k; mret None
      else
        _ ← modify_proc k (set_entry e arg);
        p ← proc k;
        n ← defined (assign 16 (Some nm) (name p));
        _ ← modify_proc k (set_name n);
        _ ← modify_proc k (λ p, set_context (Placed (u64 (stack_top p - sizeof_ProcessContext))
              (mkContext 0 0 0 0 0 0 trampoline_address)) p);
        _ ← modify_proc k (set_state Runnable);
        mret (Some k)
  end.

Definition init_name : list Z := [105; 110; 105; 116; 0].
Definition create_init_process (e : option Z) (arg : Z) : M (Kernel E) (option nat) :=
  k ← create_process e init_name arg;
  _ ← modify (set_init_proc k);
  mret k.

Definition current_process : M (Kernel E) (option nat) := s ← get; mret (current s).

(** What [trampoline] calls, and with which argument. *)
Definition trampoline_call : M (Kernel E) (option (Z * Z)) :=
  k ← current_process;
  match k with
  | None => mret None
  | Some k => p ← proc k; mret (match entry p with Some e => Some (e, entry_arg p) | None => None end)
  end.
(** [trampoline] once [entry] has returned. *)
Definition trampoline_end : M (Kernel E) Control :=
  s ← get;
  k ← defined (current s);
  _ ← close_all_files k;
  _ ← modify_proc k (set_state Zombie);
  yield_at AtZombie.

(** ** Ending and waiting *)

(** The context that is left is thrown away. *)
Definition schedule_from_zombie : M (Kernel E) Control :=
  s ← get;
  match find_next (procs s) (current s) with
  | Some idx =>
      _ ← modify (set_current (Some idx));
      _ ← modify_proc idx (set_state Running);
      _ ← prepare idx;
      switch_to (mret ()) idx
  | None => _ ← modify (set_current None); switch_to_scheduler (mret ())
  end.

(** The loop that hands the children of [k] over to the init process. *)
Fixpoint reparent_loop (n i k : nat) : M (Kernel E) () :=
  match n with
  | O => mret ()
  | S n =>
      child ← proc i;
      _ ← (if decide (state child = Unused ∨ parent child ≠ Some k) then mret ()
           else
             s ← get;
             _ ← modify_proc i (set_parent (init_proc s));
             child ← proc i;
             match init_proc s with
             | Some init => if decide (state child = Zombie) then wakeup (CProcess init) else mret ()
             | None => mret ()
             end);
      reparent_loop n (S i) k
  end.

(** [exit]; without a current process it halts. *)
Definition exit (status : Z) : M (Kernel E) Control :=
  s ← get;
  match current s with
  | None => stuck
  | Some k =>
      _ ← close_all_files k;
      _ ← modify_proc k (set_exit status);
      _ ← modify_proc k (set_state Zombie);
      p ← proc k;
      _ ← match parent p with Some r => wakeup (CProcess r) | None => mret () end;
      _ ← reparent_loop MAX_PROCESSES 0 k;
      schedule_from_zombie
  end.

(** One search of [wait] through the table, from slot [i] on: a child that has
    ended, or whether there is a child. *)
Fixpoint wait_scan (n i : nat) (has_child : bool) : M (Kernel E) (nat + bool) :=
  match n with
  | O => mret (inr has_child)
  | S n =>
      child ← proc i;
      s ← get;
      if decide (state child = Unused) then wait_scan n (S i) has_child
      else if decide (parent child ≠ current s) then wait_scan n (S i) has_child
      else if decide (state child = Zombie) then mret (inl i)
      else wait_scan n (S i) true
  end.

(** One turn of the loop of [wait]: it returns the pid and the status of a
    child, or that there is none, or the process has gone to sleep. The status is
    also stored through [exit_code_out], where this is not the null pointer. *)
Inductive wait_result := Reaped (pid status : Z) | NoChild | Asleep (c : Control).

Definition wait_turn_to (exit_code_out : option (Z → M (Kernel E) ())) : M (Kernel E) wait_result :=
  found ← wait_scan MAX_PROCESSES 0 false;
  match found with
  | inl i =>
      child ← proc i;
      let exit_code := exit_status child in
      _ ← match exit_code_out with Some store => store exit_code | None => mret () end;
      let n := pid child in
      _ ← free_process_resources i;
      mret (Reaped n exit_code)
  | inr false => mret NoChild
  | inr true =>
      s ← get;
      c ← match current s with
          | Some k => sleep (CProcess k) AtWait
          | None => mret Continue
          end;
      mret (Asleep c)
  end.
Definition wait_turn : M (Kernel E) wait_result := wait_turn_to None.

(** ** fork *)

(** Copying the kernel stack byte by byte. *)
Fixpoint copy_stack (n : nat) (dest src : Z) (i : Z) : M (Kernel E) () :=
  match n with
  | O => mret ()
  | S n =>
      s ← get;
      _ ← put (set_memory (<[dest + i := default 0 (memory s !! (src + i))]> (memory s)) s);
      copy_stack n dest src (i + 1)
  end.

Definition fork_user (parent_k child_k : nat) (child_stack : Z) : M (Kernel E) Z :=
  p ← proc parent_k;
  c ← proc child_k;
  ok ← service (copy_user_pages (pml4 p) (pml4 c));
  if negb ok then _ ← free_process_resources child_k; mret (-1)
  else
    let frame := u64 (child_stack + KERNEL_STACK_SIZE - sizeof_UserForkFrame) in
    '(_, tf) ← defined (trap_frame p);
    _ ← modify_proc child_k (set_context (Placed frame (mkContext 0 0 0 0 0 0 fork_return_address)));
    _ ← modify_proc child_k (set_trap (Some (u64 (frame + sizeof_ProcessContext), set_rax 0 tf)));
    _ ← modify_proc child_k (set_state Runnable);
    c ← proc child_k;
    mret (pid c).

(** [fork_capture] gave [snap] and the stack pointer [caller_rsp]. In the child
    it returns a second time, with the child as the current process. *)
Definition fork_kernel (parent_k child_k : nat) (child_stack : Z) (snap : ProcessContext) (caller_rsp : Z)
    : M (Kernel E) Z :=
  p ← proc parent_k;
  parent_stack ← defined (kernel_stack p);
  _ ← copy_stack (Z.to_nat KERNEL_STACK_SIZE) child_stack parent_stack 0;
  s ← get;
  if decide (current s = Some child_k) then mret 0
  else
    let offset := u64 (caller_rsp - parent_stack) in
    let child_rsp := u64 (child_stack + offset) in
    _ ← modify_proc child_k (set_context (Placed (u64 (child_rsp - sizeof_ProcessContext)) snap));
    _ ← modify_proc child_k (set_state Runnable);
    c ← proc child_k;
    mret (pid c).

(** The loop over the descriptors from [fd] on. *)
Fixpoint duplicate_files (n fd parent_k child_k : nat) : M (Kernel E) () :=
  match n with
  | O => mret ()
  | S n =>
      p ← proc parent_k;
      file ← defined (files p !! fd);
      copy ← service (file_duplicate file);
      _ ← modify_proc child_k (λ c, set_files (<[fd := copy]> (files c)) c);
      duplicate_files n (S fd) parent_k child_k
  end.

Definition fork (snap : ProcessContext) (caller_rsp : Z) : M (Kernel E) Z :=
  s ← get;
  match current s with
  | None => mret (-1)
  | Some parent_k =>
      slot ← allocate_process;
      match slot with
      | None => mret (-1)
      | Some child_k =>
          p ← proc parent_k;
          _ ← modify_proc child_k (set_entry (entry p) (entry_arg p));
          _ ← modify_proc child_k (set_name (name p));
          _ ← modify_proc child_k (set_parent (Some parent_k));
          _ ← duplicate_files NUM_OPEN_FILES 0 parent_k child_k;
          c ← proc child_k;
          child_stack ← defined (kernel_stack c);
          match trap_frame p with
          | Some _ => fork_user parent_k child_k child_stack
          | None => fork_kernel parent_k child_k child_stack snap caller_rsp
          end
      end
  end.

(** ** kernel_main (kernel/main.cpp) *)

(** [init_func] is the address of [InitProcess::init_func]. *)
Definition start_processes (init_func : Z) : M (Kernel E) (option nat) :=
  _ ← initialize;
  create_init_process (Some init_func) 0.
(** One turn of the endless loop: [sti] and [hlt] change nothing that is modelled. *)
Definition idle_turn : M (Kernel E) Control := yield.
End Lifecycle.
