(* ===== verification/ProcessSpec.v ===== *)
(** * What the process operations do

    The contract of the services, the accounting of resources, and the exact
    effect of the operations of [Process] on the table. *)
From stdpp Require Import gmap.
From S2P Require Import Prelude Kstring Process.

(** ** Resources *)

(** A kernel stack, an address space, a reference to an open file; that the processor
    uses an address space, and that a page is mapped in it for the user. The last two
    are not held by a process. *)
Inductive Resource := Stack (base : Z) | Space (pml4 : Z) | OpenFile (file : nat) | Active (pml4 : Z) | Filled (pml4 : Z).
#[export] Instance Resource_eq_dec : EqDecision Resource.
Proof. solve_decision. Defined.

Definition owned (r : Resource) : Prop := match r with Active _ | Filled _ => False | _ => True end.

Definition one (r r' : Resource) : Z := if decide (r = r') then 1 else 0.

(** Arithmetic over such counts, by cases. *)
Ltac one_lia := unfold one; repeat case_decide; simplify_eq; try congruence; lia.

(** How often a resource is held; [e'] holds [n] more of [r] than [e]. *)
Definition holds_more {E} (held : E → Resource → Z) (e e' : E) (n : Z) (r : Resource) : Prop :=
  ∀ r', held e' r' = held e r' + n * one r r'.
Definition holds_same {E} (held : E → Resource → Z) (e e' : E) : Prop := ∀ r, held e' r = held e r.
(** The same but for the pages of the user; but for these and for the address space in
    use; the processor now uses [a]. *)
Definition steady {E} (held : E → Resource → Z) (e e' : E) : Prop := ∀ r, (∀ a, r ≠ Filled a) → held e' r = held e r.
Definition owns_same {E} (held : E → Resource → Z) (e e' : E) : Prop := ∀ r, owned r → held e' r = held e r.
Definition activates {E} (held : E → Resource → Z) (e e' : E) (a : Z) : Prop :=
  ∀ r, held e' r = match r with Active b => if decide (a = b) then 1 else 0 | _ => held e r end.

Lemma same_steady {E} (held : E → Resource → Z) e e' : holds_same held e e' → steady held e e'.
Proof. intros H r _. apply H. Qed.
Lemma steady_owns {E} (held : E → Resource → Z) e e' : steady held e e' → owns_same held e e'.
Proof. intros H r Hr. apply H. by intros a ->. Qed.
Lemma steady_trans {E} (held : E → Resource → Z) e1 e2 e3 : steady held e1 e2 → steady held e2 e3 → steady held e1 e3.
Proof. intros H12 H23 r Hr. by rewrite H23, H12. Qed.

(** The contract of the services: they return, and hand out and take back one
    resource at a time; a new address space is empty and not the one in use, only
    that of another process is destroyed, and a copy goes into an empty one. *)
Class ServicesSpec (E : Type) `{Services E} := {
  svc_ok : E → Prop;
  held : E → Resource → Z;
  held_space_once e a : svc_ok e → held e (Space a) <= 1;
  held_active_one e a b : svc_ok e → 0 < held e (Active a) → held e (Active b) ≠ 0 → a = b;
  heap_allocate_spec e : svc_ok e → wp (heap_allocate KERNEL_STACK_SIZE) e (λ r e', svc_ok e' ∧
    match r with
    | Some b => held e (Stack b) = 0 ∧ holds_more held e e' 1 (Stack b)
    | None => holds_same held e e'
    end);
  heap_free_spec e b : svc_ok e → 0 < held e (Stack b) →
    wp (heap_free b) e (λ _ e', svc_ok e' ∧ holds_more held e e' (-1) (Stack b));
  create_address_space_spec e : svc_ok e → wp create_address_space e (λ r e', svc_ok e' ∧
    match r with
    | Some a => held e (Space a) = 0 ∧ held e (Active a) = 0 ∧ held e (Filled a) = 0 ∧ holds_more held e e' 1 (Space a)
    | None => holds_same held e e'
    end);
  destroy_address_space_spec e a : svc_ok e → 0 < held e (Space a) → held e (Active a) = 0 →
    wp (destroy_address_space (Some a)) e (λ _ e', svc_ok e' ∧ ∀ r, r ≠ Filled a → held e' r = held e r - one (Space a) r);
  copy_user_pages_spec e src dest : svc_ok e →
    0 < held e (Space src) → 0 < held e (Space dest) → src ≠ dest → held e (Filled dest) = 0 →
    wp (copy_user_pages (Some src) (Some dest)) e (λ _ e', svc_ok e' ∧ steady held e e');
  switch_address_space_spec e a : svc_ok e → 0 < held e (Space a) →
    wp (switch_address_space (Some a)) e (λ _ e', svc_ok e' ∧ activates held e e' a);
  set_kernel_stack_spec e a : svc_ok e →
    wp (set_kernel_stack a) e (λ _ e', svc_ok e' ∧ holds_same held e e');
  file_open_console_spec e r w : svc_ok e → wp (file_open_console r w) e (λ f e', svc_ok e' ∧
    match f with
    | Some f => held e (OpenFile f) = 0 ∧ holds_more held e e' 1 (OpenFile f)
    | None => holds_same held e e'
    end);
  file_duplicate_spec e f : svc_ok e →
    match f with Some f => 0 < held e (OpenFile f) <= 1024 | None => True end →
    wp (file_duplicate f) e (λ f' e', f' = f ∧ svc_ok e' ∧
      match f with Some f => holds_more held e e' 1 (OpenFile f) | None => holds_same held e e' end);
  file_close_spec e f : svc_ok e → match f with Some f => 0 < held e (OpenFile f) | None => True end →
    wp (file_close f) e (λ _ e', svc_ok e' ∧
      match f with Some f => holds_more held e e' (-1) (OpenFile f) | None => holds_same held e e' end);
}.

(** How often a process uses a resource. *)
Definition fd_uses (f : nat) (l : list (option nat)) : Z :=
  foldr (λ x n, (if decide (x = Some f) then 1 else 0) + n) 0 l.
Definition uses (r : Resource) (p : Process) : Z :=
  match r with
  | Stack b => if decide (kernel_stack p = Some b) then 1 else 0
  | Space a => if decide (pml4 p = Some a) then 1 else 0
  | OpenFile f => fd_uses f (files p)
  | Active _ | Filled _ => 0
  end.
Definition total_uses (r : Resource) (ps : list Process) : Z := foldr (λ p n, uses r p + n) 0 ps.

Lemma total_uses_insert r ps k p q :
  ps !! k = Some p → total_uses r (<[k := q]> ps) = total_uses r ps - uses r p + uses r q.
Proof.
  revert k. induction ps as [|x ps IH]; intros [|k] Hp; cbn in Hp; try done.
  - injection Hp as ->. change (total_uses r (<[0%nat := q]> (p :: ps))) with (uses r q + total_uses r ps).
    change (total_uses r (p :: ps)) with (uses r p + total_uses r ps). lia.
  - change (total_uses r (<[S k := q]> (x :: ps))) with (uses r x + total_uses r (<[k := q]> ps)).
    change (total_uses r (x :: ps)) with (uses r x + total_uses r ps). rewrite (IH k Hp). lia.
Qed.

Lemma fd_uses_cons f x l : fd_uses f (x :: l) = (if decide (x = Some f) then 1 else 0) + fd_uses f l.
Proof. done. Qed.

Lemma fd_uses_bounds f l : 0 <= fd_uses f l <= Z.of_nat (length l).
Proof.
  induction l as [|x l IH]; [done|]. rewrite fd_uses_cons. cbn [length]. destruct (decide _); lia.
Qed.

Lemma fd_uses_insert f l i x y :
  l !! i = Some x → fd_uses f (<[i := y]> l) =
    fd_uses f l - (if decide (x = Some f) then 1 else 0) + (if decide (y = Some f) then 1 else 0).
Proof.
  revert i. induction l as [|z l IH]; intros [|i] Hx; cbn in Hx; try done.
  - injection Hx as ->. change (<[0%nat := y]> (x :: l)) with (y :: l). rewrite !fd_uses_cons. lia.
  - change (<[S i := y]> (z :: l)) with (z :: <[i := y]> l). rewrite !fd_uses_cons, (IH i Hx). lia.
Qed.

Lemma fd_uses_pos f l i : l !! i = Some (Some f) → 0 < fd_uses f l.
Proof.
  intros Hf. pose proof (fd_uses_insert f l i (Some f) None Hf) as Hins. rewrite decide_True in Hins by done.
  rewrite (decide_False (P := None = Some f)) in Hins by done. pose proof (fd_uses_bounds f (<[i := None]> l)). lia.
Qed.

Lemma uses_nonneg r p : 0 <= uses r p.
Proof. destruct r; cbn; [by destruct (decide _)..| |done|done]. apply fd_uses_bounds. Qed.

Lemma total_uses_nonneg r ps : 0 <= total_uses r ps.
Proof.
  induction ps as [|p ps IH]; [done|]. change (total_uses r (p :: ps)) with (uses r p + total_uses r ps).
  pose proof (uses_nonneg r p). lia.
Qed.

Lemma uses_total r ps k p : ps !! k = Some p → uses r p <= total_uses r ps.
Proof.
  revert k. induction ps as [|x ps IH]; intros [|k] Hp; cbn in Hp; try done;
    change (total_uses r (x :: ps)) with (uses r x + total_uses r ps).
  - injection Hp as ->. pose proof (total_uses_nonneg r ps). lia.
  - pose proof (uses_nonneg r x). pose proof (IH k Hp). lia.
Qed.

Lemma total_uses_two r ps i j p q : i ≠ j → ps !! i = Some p → ps !! j = Some q → uses r p + uses r q <= total_uses r ps.
Proof.
  intros Hij Hp Hq. set (p0 := set_files [] (set_stack None (set_pml4 None p))).
  pose proof (total_uses_insert r ps i p p0 Hp) as Hins. pose proof (uses_total r (<[i := p0]> ps) j q) as Hle. rewrite list_lookup_insert_ne in Hle by done. specialize (Hle Hq).
  assert (uses r p0 = 0) by by destruct r. lia.
Qed.

Lemma total_uses_exists r ps : 0 < total_uses r ps → ∃ k p, ps !! k = Some p ∧ 0 < uses r p.
Proof.
  induction ps as [|p ps IH]; [done|]. change (total_uses r (p :: ps)) with (uses r p + total_uses r ps). intros H.
  destruct (decide (0 < uses r p)) as [Hp|Hp]; [by exists 0%nat, p|]. destruct IH as (k & q & Hk & Hq); [lia|]. by exists (S k), q.
Qed.

Lemma total_fd_bound f ps :
  Forall (λ p, length (files p) = NUM_OPEN_FILES) ps → total_uses (OpenFile f) ps <= 16 * Z.of_nat (length ps).
Proof.
  induction 1 as [|p ps Hp _ IH]; [cbn; lia|].
  change (total_uses (OpenFile f) (p :: ps)) with (fd_uses f (files p) + total_uses (OpenFile f) ps).
  pose proof (fd_uses_bounds f (files p)). unfold NUM_OPEN_FILES in Hp. cbn [length]. lia.
Qed.

(** Two processes with the same resources. *)
Definition same_resources (p q : Process) : Prop :=
  kernel_stack q = kernel_stack p ∧ pml4 q = pml4 p ∧ files q = files p.

Lemma same_resources_uses r p q : same_resources p q → uses r q = uses r p.
Proof. intros (H1 & H2 & H3). destruct r; cbn; by rewrite ?H1, ?H2, ?H3. Qed.

Lemma total_uses_same r ps qs : Forall2 same_resources ps qs → total_uses r qs = total_uses r ps.
Proof.
  induction 1 as [|p q ps qs Hpq _ IH]; [done|].
  change (uses r q + total_uses r qs = uses r p + total_uses r ps). by rewrite IH, (same_resources_uses r p q).
Qed.

(** ** The table and its accounts *)
Section spec.
Context {E : Type} `{HE : Services E} `{HS : !ServicesSpec E}.
Implicit Types (s : Kernel E) (ps : list Process) (k i j : nat).

(** Every resource handed out is held by exactly the slots that refer to it;
    unused slots refer to none; the processor uses the address space of the current
    process. *)
Record accounts_ok s : Prop := {
  ao_length : length (procs s) = MAX_PROCESSES;
  ao_services : svc_ok (env s);
  ao_files k p : procs s !! k = Some p → length (files p) = NUM_OPEN_FILES;
  ao_unused k p : procs s !! k = Some p → state p = Unused →
    kernel_stack p = None ∧ pml4 p = None ∧ files p = replicate NUM_OPEN_FILES None;
  ao_balance r : owned r → held (env s) r = total_uses r (procs s);
  ao_active k p : current s = Some k → procs s !! k = Some p →
    state p ≠ Unused ∧ ∀ a, pml4 p = Some a → 0 < held (env s) (Active a);
}.

Lemma wp_service {A} (m : M E A) s (Q : A → Kernel E → Prop) :
  wp m (env s) (λ a e, Q a (set_env e s)) → wp (service m) s Q.
Proof. intros H. by apply wp_zoom. Qed.

Lemma wp_proc k p s (Q : Process → Kernel E → Prop) : procs s !! k = Some p → Q p s → wp (proc k) s Q.
Proof. intros Hp HQ. unfold proc. do 2 wp_step. by eapply wp_defined. Qed.

Lemma wp_modify_proc k p f s (Q : () → Kernel E → Prop) :
  procs s !! k = Some p → Q () (set_procs (<[k := f p]> (procs s)) s) → wp (modify_proc k f) s Q.
Proof. intros Hp HQ. unfold modify_proc. wp_step. eapply wp_proc; [exact Hp|]. by wp_step. Qed.

(** State [s] with slot [k] replaced and other services. *)
Definition with_slot s k (q : Process) (e : E) : Kernel E := set_env e (set_procs (<[k := q]> (procs s)) s).

Lemma with_slot_lookup s k p q e : procs s !! k = Some p → procs (with_slot s k q e) !! k = Some q.
Proof. intros Hp. cbn. apply list_lookup_insert_eq. by eapply lookup_lt_Some. Qed.

Lemma with_slot_twice s k q q' e e' : with_slot (with_slot s k q e) k q' e' = with_slot s k q' e'.
Proof. unfold with_slot, set_env, set_procs. cbn. by rewrite list_insert_insert_eq. Qed.

Lemma with_slot_proc s k q q' e : set_procs (<[k := q']> (procs (with_slot s k q e))) (with_slot s k q e) = with_slot s k q' e.
Proof. unfold with_slot, set_env, set_procs. cbn. by rewrite list_insert_insert_eq. Qed.

Lemma with_slot_env s k q e e' : set_env e' (with_slot s k q e) = with_slot s k q e'.
Proof. done. Qed.

Lemma with_slot_id s k p : procs s !! k = Some p → with_slot s k p (env s) = s.
Proof. intros Hp. unfold with_slot, set_env, set_procs. cbn. rewrite list_insert_id by done. by destruct s. Qed.

Lemma accounts_with_slot s k p q e :
  accounts_ok s → procs s !! k = Some p → svc_ok e → length (files q) = NUM_OPEN_FILES →
  (state q = Unused → kernel_stack q = None ∧ pml4 q = None ∧ files q = replicate NUM_OPEN_FILES None) →
  (∀ r, (∀ a, r ≠ Filled a) → held e r = held (env s) r - uses r p + uses r q) →
  (current s = Some k → state q ≠ Unused ∧ (pml4 q = pml4 p ∨ pml4 q = None)) → accounts_ok (with_slot s k q e).
Proof.
  intros [H1 H2 H3 H4 H5 H6] Hp He Hf Hu Hb Hc. split; cbn [procs env current with_slot set_env set_procs].
  - by rewrite length_insert.
  - done.
  - intros j x [(_ & <- & _)|(_ & Hx)]%list_lookup_insert_Some; [done|by eapply H3].
  - intros j x [(_ & <- & _)|(_ & Hx)]%list_lookup_insert_Some; [done|by eapply H4].
  - intros r Hr. rewrite Hb, H5 by (done || by intros a ->). by rewrite (total_uses_insert r _ k p q Hp).
  - assert (∀ a, held e (Active a) = held (env s) (Active a)) as Hact by (intros a; rewrite Hb by done; cbn; lia).
    intros j x Hj [(<- & <- & _)|(_ & Hx)]%list_lookup_insert_Some.
    + destruct (Hc Hj) as [Hq Hpm]. split; [done|]. intros a Ha. rewrite Hact. apply (H6 k p Hj Hp). destruct Hpm; congruence.
    + split; [by apply (H6 j x)|]. intros a Ha. rewrite Hact. by apply (H6 j x).
Qed.

Lemma accounts_current s k p : accounts_ok s → procs s !! k = Some p → state p = Unused → current s ≠ Some k.
Proof. intros Hok Hp Hu Hc. by apply (ao_active _ Hok k p Hc Hp). Qed.

Lemma accounts_slot_same s k p q :
  accounts_ok s → procs s !! k = Some p → same_resources p q → (state q = Unused → state p = Unused) →
  accounts_ok (with_slot s k q (env s)).
Proof.
  intros Hok Hp Hsame Hu. pose proof Hsame as (E1 & E2 & E3). eapply accounts_with_slot; [done|exact Hp|apply Hok| | | |].
  - rewrite E3. by eapply ao_files.
  - intros Hq. rewrite E1, E2, E3. eapply ao_unused; [done|exact Hp|auto].
  - intros r _. rewrite (same_resources_uses r p q Hsame). lia.
  - intros Hc. split; [|by left]. intros Hq. by apply (accounts_current s k p Hok Hp (Hu Hq)).
Qed.

Lemma uses_owned r p : 0 < uses r p → owned r.
Proof. by destruct r. Qed.
Lemma held_pos s k p r : accounts_ok s → procs s !! k = Some p → 0 < uses r p → 0 < held (env s) r.
Proof. intros Hok Hp Hu. rewrite (ao_balance _ Hok) by (by eapply uses_owned). pose proof (uses_total r _ _ _ Hp). lia. Qed.
Lemma held_zero s k p r : accounts_ok s → procs s !! k = Some p → held (env s) r = 0 → uses r p = 0.
Proof. intros Hok Hp Hz. pose proof (held_pos s k p r Hok Hp). pose proof (uses_nonneg r p). lia. Qed.
Lemma space_held s k p a : accounts_ok s → procs s !! k = Some p → pml4 p = Some a → 0 < held (env s) (Space a).
Proof. intros Hok Hp Ha. eapply held_pos; [done|exact Hp|]. cbn. by rewrite decide_True. Qed.

Lemma held_file_bound s f : accounts_ok s → held (env s) (OpenFile f) <= 1024.
Proof.
  intros Hok. rewrite (ao_balance _ Hok) by done.
  pose proof (total_fd_bound f (procs s)) as H. rewrite (ao_length _ Hok) in H. unfold MAX_PROCESSES in H.
  apply H. apply Forall_lookup. intros j x Hx. by eapply ao_files.
Qed.

(** ** close_all_files *)
Lemma wp_close_files n fd k p s (Q : () → Kernel E → Prop) :
  accounts_ok s → procs s !! k = Some p → state p ≠ Unused → (fd + n = NUM_OPEN_FILES)%nat →
  (∀ j, (j < fd)%nat → files p !! j = Some None) →
  (∀ e, accounts_ok (with_slot s k (set_files (replicate NUM_OPEN_FILES None) p) e) →
    (∀ a, held e (Active a) = held (env s) (Active a)) →
    Q () (with_slot s k (set_files (replicate NUM_OPEN_FILES None) p) e)) →
  wp (close_files n fd k) s Q.
Proof.
  revert fd p s. induction n as [|n IH]; intros fd p s Hok Hp Hst Hn Hdone HQ; cbn [close_files].
  { wp_step. assert (files p = replicate NUM_OPEN_FILES None) as Hf.
    { apply list_eq. intros j. destruct (decide (j < NUM_OPEN_FILES)%nat) as [Hj|Hj].
      - rewrite lookup_replicate_2 by done. apply Hdone. lia.
      - rewrite !lookup_ge_None_2; [done|rewrite length_replicate; lia|]. rewrite (ao_files _ Hok _ _ Hp). lia. }
    rewrite <- Hf in HQ. replace (set_files (files p) p) with p in HQ by by destruct p.
    specialize (HQ (env s)). rewrite with_slot_id in HQ by done. by apply HQ. }
  wp_step. eapply wp_proc; [exact Hp|].
  pose proof (ao_files _ Hok _ _ Hp) as Hlen.
  destruct (lookup_lt_is_Some_2 (files p) fd) as [f Hf]; [lia|]. wp_step. eapply wp_defined; [exact Hf|]. wp_step.
  assert (∀ g, uses (OpenFile g) (set_files (<[fd := None]> (files p)) p) =
    uses (OpenFile g) p - (if decide (f = Some g) then 1 else 0)) as Huse.
  { intros g. change (fd_uses g (<[fd := None]> (files p)) = fd_uses g (files p) - (if decide (f = Some g) then 1 else 0)).
    rewrite (fd_uses_insert g _ fd f None Hf). rewrite (decide_False (P := None = Some g)) by done. lia. }
  apply wp_service. eapply wp_mono.
  { apply file_close_spec; [apply Hok|]. destruct f as [g|]; [|done]. eapply held_pos; [done|exact Hp|].
    specialize (Huse g). rewrite decide_True in Huse by done.
    pose proof (uses_nonneg (OpenFile g) (set_files (<[fd := None]> (files p)) p)). lia. }
  intros [] e (He & Hheld). set (q := set_files (<[fd := None]> (files p)) p) in *.
  wp_step. eapply wp_modify_proc; [exact Hp|].
  change (set_procs _ _) with (with_slot s k q e). fold q.
  assert (accounts_ok (with_slot s k q e)) as Hok1.
  { eapply accounts_with_slot; [done|exact Hp|done|cbn; by rewrite length_insert|done| |intros _; split; [done|by left]].
    intros r Hr. destruct r as [b|a|g|a|a].
    - assert (held e (Stack b) = held (env s) (Stack b)) as -> by
        (destruct f; rewrite Hheld; unfold one; rewrite ?decide_False by done; lia). cbn. lia.
    - assert (held e (Space a) = held (env s) (Space a)) as -> by
        (destruct f; rewrite Hheld; unfold one; rewrite ?decide_False by done; lia). cbn. lia.
    - rewrite Huse. destruct f as [g'|]; rewrite Hheld; [|rewrite decide_False by done; lia].
      unfold one. destruct (decide (g' = g)) as [->|Hne]; [rewrite !decide_True by done; lia|].
      rewrite !decide_False by congruence. lia.
    - assert (held e (Active a) = held (env s) (Active a)) as -> by
        (destruct f; rewrite Hheld; unfold one; rewrite ?decide_False by done; lia). cbn. lia.
    - by destruct (Hr a). }
  eapply (IH (S fd) q); [done|by eapply with_slot_lookup|done|lia| |].
  - intros j Hj. cbn. destruct (decide (j = fd)) as [->|Hne].
    + by rewrite list_lookup_insert_eq by (eapply lookup_lt_Some; exact Hf).
    + rewrite list_lookup_insert_ne by done. apply Hdone. lia.
  - intros e'. rewrite with_slot_twice. intros Hok2 Hact. apply (HQ e' Hok2). intros a. rewrite Hact. cbn [env with_slot set_env].
    destruct f; rewrite Hheld; unfold one; rewrite ?decide_False by done; lia.
Qed.

Lemma wp_close_all_files k p s (Q : () → Kernel E → Prop) :
  accounts_ok s → procs s !! k = Some p → state p ≠ Unused →
  (∀ e, accounts_ok (with_slot s k (set_files (replicate NUM_OPEN_FILES None) p) e) →
    (∀ a, held e (Active a) = held (env s) (Active a)) →
    Q () (with_slot s k (set_files (replicate NUM_OPEN_FILES None) p) e)) →
  wp (close_all_files k) s Q.
Proof. intros Hok Hp Hst HQ. eapply wp_close_files; [done|exact Hp|done|done|intros j Hj; lia|exact HQ]. Qed.

(** A change of the slot that leaves the services alone. *)
Lemma wp_modify_process k p f s e (Q : () → Kernel E → Prop) p0 :
  procs s !! k = Some p0 → Q () (with_slot s k (f p) e) → wp (modify_proc k f) (with_slot s k p e) Q.
Proof.
  intros Hp HQ. eapply wp_modify_proc; [by eapply with_slot_lookup|]. by rewrite with_slot_proc.
Qed.

(** Giving back resources of the slot one after the other. *)
Lemma accounts_release s k p q e e' r :
  accounts_ok (with_slot s k p e) → is_Some (procs s !! k) → svc_ok e' → holds_more held e e' (-1) r →
  length (files q) = NUM_OPEN_FILES →
  (state q = Unused → kernel_stack q = None ∧ pml4 q = None ∧ files q = replicate NUM_OPEN_FILES None) →
  (∀ r', uses r' q = uses r' p - one r r') → current s ≠ Some k → accounts_ok (with_slot s k q e').
Proof.
  intros Hok [p0 Hp] He Hh Hf Hu Huse Hc. rewrite <- (with_slot_twice s k p q e e').
  eapply accounts_with_slot; [exact Hok|by eapply with_slot_lookup|done|done|done| |done].
  intros r' _. cbn [env with_slot set_env]. rewrite Hh, Huse. lia.
Qed.

Lemma accounts_same s k p q e e' :
  accounts_ok (with_slot s k p e) → is_Some (procs s !! k) → svc_ok e' → steady held e e' →
  same_resources p q → (state q = Unused → state p = Unused) → accounts_ok (with_slot s k q e').
Proof.
  intros Hok [p0 Hp] He Hh Hs Hu. pose proof Hs as (E1 & E2 & E3).
  pose proof (with_slot_lookup s k p0 p e Hp) as Hp'. rewrite <- (with_slot_twice s k p q e e').
  eapply accounts_with_slot; [exact Hok|exact Hp'|done| | | |].
  - rewrite E3. by eapply (ao_files _ Hok k).
  - intros Hq. rewrite E1, E2, E3. eapply (ao_unused _ Hok k); [exact Hp'|auto].
  - intros r Hr. cbn [env with_slot set_env]. rewrite Hh, (same_resources_uses r p q Hs) by done. lia.
  - intros Hc. split; [|by left]. intros Hq. by apply (accounts_current _ k p Hok Hp' (Hu Hq)).
Qed.

(** The slot once everything has been given back. *)
Definition freed (p : Process) : Process :=
  mkProcess (pid p) Unused (context p) None (entry p) (entry_arg p) (name p) None None None 0 (trap_frame p)
    (replicate NUM_OPEN_FILES None).

Lemma wp_free_process_resources k p s (Q : () → Kernel E → Prop) :
  accounts_ok s → procs s !! k = Some p → state p ≠ Unused → current s ≠ Some k →
  (∀ a, pml4 p = Some a → held (env s) (Active a) = 0) →
  (∀ e, accounts_ok (with_slot s k (freed p) e) → Q () (with_slot s k (freed p) e)) →
  wp (free_process_resources k) s Q.
Proof.
  intros Hok Hp Hst Hcur Hact HQ. assert (is_Some (procs s !! k)) as Hsome by by rewrite Hp.
  unfold free_process_resources. wp_step. apply (wp_close_all_files k p); [done|done|done|].
  set (p1 := set_files _ p). intros e1 Hok1 Hact1. wp_step. eapply wp_proc; [by eapply with_slot_lookup|]. wp_step.
  apply wp_mono with (P := λ _ s', ∃ e, s' = with_slot s k (set_stack None p1) e ∧ accounts_ok s' ∧ ∀ a, held e (Active a) = held e1 (Active a)).
  { cbn [kernel_stack p1 set_files]. destruct (kernel_stack p) as [b|] eqn:Eb.
    - wp_step. apply wp_service. eapply wp_mono; [apply heap_free_spec; [apply Hok1|]|].
      { eapply (held_pos (with_slot s k p1 e1) k p1); [done|by eapply with_slot_lookup|]. cbn. rewrite Eb. by rewrite decide_True. }
      intros [] e2 [He2 Hh2]. rewrite with_slot_env. eapply wp_modify_process; [exact Hp|]. exists e2. split; [done|].
      split; [|intros a; rewrite Hh2; unfold one; rewrite decide_False by done; cbn [env with_slot set_env]; lia].
      eapply accounts_release; [exact Hok1|done|done|exact Hh2|done|done| |done].
      intros r. unfold one. destruct r as [b'|a|f|a|a]; cbn; rewrite ?Eb, ?(decide_False (P := None = Some _)) by done.
      + destruct (decide (Some b = Some b')) as [[= ->]|Hne]; [by rewrite decide_True|]. rewrite decide_False by congruence. lia.
      + rewrite (decide_False (P := Stack b = Space a)) by done. lia.
      + rewrite (decide_False (P := Stack b = OpenFile f)) by done. lia.
      + rewrite (decide_False (P := Stack b = Active a)) by done. lia.
      + rewrite (decide_False (P := Stack b = Filled a)) by done. lia.
    - wp_step. exists e1. replace (set_stack None p1) with p1; [done|]. unfold p1, set_stack, set_files. cbn. by rewrite Eb. }
  intros [] s2 (e2 & -> & Hok2 & Hact2). set (p2 := set_stack None p1) in *. wp_step.
  eapply wp_proc; [by eapply with_slot_lookup|]. wp_step.
  apply wp_mono with (P := λ _ s', ∃ e, s' = with_slot s k p2 e ∧ svc_ok e ∧
    ∀ r, (∀ a, r ≠ Filled a) → held e r = held e2 r - uses r p2 + uses r (set_pml4 None p2)).
  { cbn [pml4 p2 p1 set_files set_stack]. destruct (pml4 p) as [a|] eqn:Ea.
    - apply wp_service. eapply wp_mono; [apply destroy_address_space_spec; [apply Hok2| |]|].
      { eapply (space_held (with_slot s k p2 e2) k p2); [done|by eapply with_slot_lookup|exact Ea]. }
      { cbn [env with_slot set_env]. rewrite Hact2, Hact1. by apply Hact. }
      intros [] e3 [He3 Hh3]. exists e3. split; [done|]. split; [done|]. intros r Hr. rewrite Hh3 by (intros ->; by eapply Hr). cbn [env with_slot set_env].
      unfold one. destruct r as [b|a'|f|a'|a']; cbn; rewrite ?Ea.
      + rewrite (decide_False (P := Space a = Stack b)) by done. lia.
      + rewrite (decide_False (P := None = Some a')) by done. destruct (decide (Some a = Some a')) as [[= ->]|Hne].
        * rewrite decide_True by done. lia.
        * rewrite decide_False by congruence. lia.
      + rewrite (decide_False (P := Space a = OpenFile f)) by done. lia.
      + rewrite (decide_False (P := Space a = Active a')) by done. lia.
      + by destruct (Hr a').
    - wp_step. exists e2. split; [done|]. split; [apply Hok2|]. intros r _. destruct r; cbn; rewrite ?Ea; lia. }
  intros [] s3 (e3 & -> & He3 & Hh3).
  do 4 (wp_step; eapply wp_modify_process; [exact Hp|]). eapply wp_modify_process; [exact Hp|].
  apply HQ. rewrite <- (with_slot_twice s k p2 _ e2 e3).
  eapply accounts_with_slot; [exact Hok2|by eapply with_slot_lookup|done|done|done| |done].
  intros r Hr. rewrite Hh3 by done. by destruct r.
Qed.

(** ** allocate_process *)
Lemma find_unused_spec ps k :
  match find_unused ps k with
  | Some j => (k <= j)%nat ∧ ∃ p, ps !! (j - k)%nat = Some p ∧ state p = Unused ∧
      ∀ i q, (i < j - k)%nat → ps !! i = Some q → state q ≠ Unused
  | None => ∀ i q, ps !! i = Some q → state q ≠ Unused
  end.
Proof.
  revert k. induction ps as [|p ps IH]; intros k; cbn [find_unused]; [done|].
  destruct (decide (state p = Unused)) as [Hu|Hu].
  - split; [done|]. exists p. rewrite Nat.sub_diag. split; [done|]. split; [done|]. intros i q Hi. lia.
  - specialize (IH (S k)). destruct (find_unused ps (S k)) as [j|].
    + destruct IH as (Hle & q & Hq & Hqu & Hfirst). split; [lia|]. exists q.
      replace (j - k)%nat with (S (j - S k)) by lia. split; [done|]. split; [done|].
      intros [|i] x Hi Hx; cbn in Hx; [congruence|]. apply (Hfirst i); [lia|done].
    + intros [|i] x Hx; cbn in Hx; [congruence|]. by eapply IH.
Qed.

(** A slot that has just been prepared. *)
Definition embryo (p : Process) (n : Z) (st pm : option Z) : Process :=
  mkProcess n Embryo (context p) st (entry p) (entry_arg p) (name p) pm None None (exit_status p) None
    (replicate NUM_OPEN_FILES None).

Lemma uses_embryo p n st pm r : uses r (embryo p n st pm) =
  match r with
  | Stack b => if decide (st = Some b) then 1 else 0
  | Space a => if decide (pm = Some a) then 1 else 0
  | _ => 0
  end.
Proof. by destruct r. Qed.

Lemma uses_unused s k p r : accounts_ok s → procs s !! k = Some p → state p = Unused → uses r p = 0.
Proof.
  intros Hok Hp Hu. destruct (ao_unused _ Hok _ _ Hp Hu) as (E1 & E2 & E3). destruct r; cbn; by rewrite ?E1, ?E2, ?E3.
Qed.

(** The state after the next pid has been taken. *)
Definition took_pid s : Kernel E := set_next_pid (next_pid s + 1) s.

Lemma accounts_took_pid s : accounts_ok s → accounts_ok (took_pid s).
Proof. intros [H1 H2 H3 H4 H5 H6]. by split. Qed.

(** An address space nobody has used yet. *)
Definition fresh_space s k (a : Z) (e : E) : Prop :=
  held e (Active a) = 0 ∧ held e (Filled a) = 0 ∧ ∀ j q, j ≠ k → procs s !! j = Some q → pml4 q ≠ Some a.

(** The first slot of the table that is not in use. *)
Definition first_free s k (p : Process) : Prop :=
  procs s !! k = Some p ∧ state p = Unused ∧ ∀ j q, (j < k)%nat → procs s !! j = Some q → state q ≠ Unused.

(** What a new process is given: a kernel stack, then an address space; or that one
    of the two is refused. *)
Definition granted (e : E) (b a : Z) (e' : E) : Prop :=
  ∃ e1, heap_allocate KERNEL_STACK_SIZE e = Some (Some b, e1) ∧ create_address_space e1 = Some (Some a, e').
Definition denied (e : E) : Prop :=
  (∃ e1, heap_allocate KERNEL_STACK_SIZE e = Some (None, e1)) ∨
  (∃ b e1 e2, heap_allocate KERNEL_STACK_SIZE e = Some (Some b, e1) ∧ create_address_space e1 = Some (None, e2)).

Lemma wp_allocate_process s (Q : option nat → Kernel E → Prop) :
  accounts_ok s → 0 <= next_pid s < INT_MAX →
  ((∀ k p, procs s !! k = Some p → state p ≠ Unused) → Q None s) →
  (∀ k p e, first_free s k p → denied (env s) →
    accounts_ok (with_slot (took_pid s) k (freed (embryo p (next_pid s) None None)) e) →
    owns_same held (env s) e →
    Q None (with_slot (took_pid s) k (freed (embryo p (next_pid s) None None)) e)) →
  (∀ k p b a e, first_free s k p → granted (env s) b a e →
    let s' := with_slot (took_pid s) k (embryo p (next_pid s) (Some b) (Some a)) e in
    accounts_ok s' → fresh_space s k a e → Q (Some k) s') →
  wp allocate_process s Q.
Proof.
  intros Hok Hpid Hfull Hnone Hsome. unfold allocate_process. do 2 wp_step.
  pose proof (find_unused_spec (procs s) 0) as Hfind. destruct (find_unused (procs s) 0) as [k|].
  2:{ wp_step. by apply Hfull. }
  destruct Hfind as (_ & p & Hp & Hu & Hfirst). rewrite Nat.sub_0_r in Hp, Hfirst.
  assert (first_free s k p) as Hfree by by repeat split.
  pose proof (accounts_took_pid s Hok) as Hok0. set (s0 := took_pid s) in *.
  assert (procs s0 !! k = Some p) as Hp0 by done. assert (is_Some (procs s0 !! k)) as Hsm by by rewrite Hp0.
  unfold take_pid. do 3 wp_step. replace (next_pid s =? INT_MAX) with false by lia. do 3 wp_step.
  rewrite u64_small by (unfold INT_MAX in *; lia). change (set_next_pid _ s) with s0.
  rewrite <- (with_slot_id s0 k p Hp0). do 8 (wp_step; eapply wp_modify_process; [exact Hp0|]). cbn.
  change (mkProcess _ _ _ _ _ _ _ _ _ _ _ _ _) with (embryo p (next_pid s) None None).
  pose proof (accounts_current s0 k p Hok0 Hp0 Hu) as Hcur.
  assert (∀ st pm e, svc_ok e → (∀ r, (∀ a, r ≠ Filled a) → held e r = held (env s0) r + uses r (embryo p (next_pid s) st pm)) →
    accounts_ok (with_slot s0 k (embryo p (next_pid s) st pm) e)) as Hacc.
  { intros st pm e He Hh. eapply accounts_with_slot; [exact Hok0|exact Hp0|done|done|done| |done].
    intros r Hr. rewrite Hh, (uses_unused s0 k p r) by done. lia. }
  assert (∀ st e, denied (env s) → accounts_ok (with_slot s0 k (embryo p (next_pid s) st None) e) →
    wp (_ ← free_process_resources k; mret None) (with_slot s0 k (embryo p (next_pid s) st None) e) Q) as Hfail.
  { intros st e Hden Hacc1. wp_step. eapply wp_free_process_resources; [exact Hacc1|by eapply with_slot_lookup|done|done|done|].
    intros e' Hok'. rewrite with_slot_twice in *. wp_step. change (freed (embryo p (next_pid s) st None)) with (freed (embryo p (next_pid s) None None)) in *.
    apply (Hnone k p); [done..|]. intros r Hr. pose proof (ao_balance _ Hok' r Hr) as Hb1. pose proof (ao_balance _ Hok0 r Hr) as Hb0. cbn [env with_slot set_env] in Hb1. change (env s0) with (env s) in Hb0. rewrite Hb1, Hb0.
    cbn [procs with_slot set_env set_procs]. rewrite (total_uses_insert r _ k p) by done.
    rewrite (uses_unused s0 k p r) by done. replace (uses r (freed _)) with 0 by by destruct r. lia. }
  assert (∀ r, uses r (embryo p (next_pid s) None None) = 0) as Hz by (intros r; by destruct r).
  wp_step. apply wp_service. eapply wp_mono; [apply wp_ran, heap_allocate_spec; apply Hok0|]. cbn beta.
  intros [b|] e1 (Hrun1 & He1 & Hh1); rewrite with_slot_env; cbn [env with_slot set_env] in Hh1.
  2:{ apply Hfail; [left; by exists e1|]. apply Hacc; [done|]. intros r _. by rewrite Hh1, Hz, Z.add_0_r. }
  destruct Hh1 as [_ Hh1]. wp_step. eapply wp_modify_process; [exact Hp0|].
  change (set_stack _ _) with (embryo p (next_pid s) (Some b) None).
  assert (accounts_ok (with_slot s0 k (embryo p (next_pid s) (Some b) None) e1)) as Hacc1.
  { apply Hacc; [done|]. intros r _. rewrite uses_embryo, Hh1. change (env s0) with (env s). destruct r; one_lia. }
  wp_step. apply wp_service. eapply wp_mono; [apply wp_ran, create_address_space_spec; exact He1|]. cbn beta.
  intros [a|] e2 (Hrun2 & He2 & Hh2); rewrite with_slot_env; wp_step; (eapply wp_modify_process; [exact Hp0|]).
  - change (set_pml4 _ _) with (embryo p (next_pid s) (Some b) (Some a)). cbn [env with_slot set_env] in Hh2.
    destruct Hh2 as (Hs0 & Ha0 & Hf0 & Hh2). wp_step. apply (Hsome k p b a e2); [done|by exists e1| |].
    + apply Hacc; [done|]. intros r _. rewrite uses_embryo, Hh2, Hh1. change (env s0) with (env s). destruct r; one_lia.
    + split; [rewrite Hh2; one_lia|]. split; [rewrite Hh2; one_lia|]. intros j q Hj Hq Hqa.
      assert (procs (with_slot s0 k (embryo p (next_pid s) (Some b) None) e1) !! j = Some q) as Hq1.
      { cbn [procs with_slot set_env set_procs]. by rewrite list_lookup_insert_ne. }
      pose proof (space_held _ _ _ _ Hacc1 Hq1 Hqa) as Hpos. cbn [env with_slot set_env] in Hpos. lia.
  - change (set_pml4 _ _) with (embryo p (next_pid s) (Some b) None). apply Hfail; [right; by exists b, e1, e2|].
    eapply accounts_same; [exact Hacc1|done|done| |done|done]. by apply same_steady.
Qed.
End spec.
