(* ===== verification/ProcessSched.v ===== *)
(** * Scheduling

    The round robin of [schedule], and the effect of switching, sleeping and
    waking up on the table. *)
From stdpp Require Import gmap.
From S2P Require Import Prelude Kstring Process ProcessSpec.

(** The [off]-th slot that is looked at, behind that of [prev]. *)
Definition candidate (prev : option nat) (off : nat) : nat :=
  (match prev with Some k => k + off | None => off - 1 end) mod MAX_PROCESSES.

Definition is_runnable (ps : list Process) (k : nat) : Prop := ∃ p, ps !! k = Some p ∧ state p = Runnable.

Lemma candidate_index prev off :
  (1 <= off <= 64)%nat → (∀ k, prev = Some k → (k < MAX_PROCESSES)%nat) →
  Z.to_nat (u64 (start_index prev + Z.of_nat off) `mod` Z.of_nat MAX_PROCESSES) = candidate prev off.
Proof.
  intros Ho Hk. unfold candidate, start_index, MAX_PROCESSES in *. destruct prev as [k|].
  - specialize (Hk k eq_refl). rewrite u64_small by lia. rewrite <- Nat2Z.inj_add.
    change (Z.of_nat 64) with 64. rewrite <- (Nat2Z.id ((k + off) mod 64)). f_equal. by rewrite Nat2Z.inj_mod.
  - assert (u64 (u64 (-1) + Z.of_nat off) = Z.of_nat (off - 1)) as -> by (unfold u64; lia).
    rewrite <- (Nat2Z.id ((off - 1) mod 64)). f_equal. by rewrite Nat2Z.inj_mod.
Qed.

Lemma candidate_lt prev off : (candidate prev off < MAX_PROCESSES)%nat.
Proof. apply Nat.mod_upper_bound. done. Qed.

Lemma next_runnable_spec ps prev n off :
  length ps = MAX_PROCESSES → (∀ k, prev = Some k → (k < MAX_PROCESSES)%nat) → (1 <= off)%nat → (off + n = 65)%nat →
  match next_runnable n ps (start_index prev) (Z.of_nat off) with
  | Some idx => ∃ o, (off <= o <= 64)%nat ∧ idx = candidate prev o ∧ is_runnable ps idx ∧
      ∀ o', (off <= o' < o)%nat → ¬ is_runnable ps (candidate prev o')
  | None => ∀ o, (off <= o <= 64)%nat → ¬ is_runnable ps (candidate prev o)
  end.
Proof.
  intros Hl Hk. revert off. induction n as [|n IH]; intros off Ho Hn; cbn [next_runnable]; [intros o Hr; lia|].
  rewrite candidate_index by (done || lia).
  destruct (lookup_lt_is_Some_2 ps (candidate prev off)) as [p Hp]; [rewrite Hl; apply candidate_lt|]. rewrite Hp.
  destruct (decide (state p = Runnable)) as [Hr|Hr].
  - exists off. split; [lia|]. split; [done|]. split; [by exists p|]. intros o' Ho'. lia.
  - assert (¬ is_runnable ps (candidate prev off)) as Hnot by (intros (q & Hq & ?); by simplify_eq).
    replace (Z.of_nat off + 1) with (Z.of_nat (S off)) by lia. specialize (IH (S off) ltac:(lia) ltac:(lia)).
    destruct (next_runnable n ps _ _) as [idx|].
    + destruct IH as (o & Ho2 & Hidx & Hrun & Hfirst). exists o. split; [lia|]. split; [done|]. split; [done|].
      intros o' Ho'. destruct (decide (o' = off)) as [->|]; [done|]. apply Hfirst. lia.
    + intros o Ho2. destruct (decide (o = off)) as [->|]; [done|]. apply IH. lia.
Qed.

(** Every slot is looked at. *)
Lemma candidate_onto prev k :
  (k < MAX_PROCESSES)%nat → (∀ j, prev = Some j → (j < MAX_PROCESSES)%nat) →
  ∃ o, (1 <= o <= 64)%nat ∧ candidate prev o = k.
Proof.
  intros Hk Hp. unfold candidate, MAX_PROCESSES in *. destruct prev as [j|].
  - specialize (Hp j eq_refl). destruct (decide (j < k)%nat).
    + exists (k - j)%nat. split; [lia|]. replace (j + (k - j))%nat with k by lia. by apply Nat.mod_small.
    + exists (64 + k - j)%nat. split; [lia|]. replace (j + (64 + k - j))%nat with (k + 1 * 64)%nat by lia.
      rewrite Nat.Div0.mod_add. by apply Nat.mod_small.
  - exists (S k). split; [lia|]. replace (S k - 1)%nat with k by lia. by apply Nat.mod_small.
Qed.

Lemma find_next_spec ps prev :
  length ps = MAX_PROCESSES → (∀ k, prev = Some k → (k < MAX_PROCESSES)%nat) →
  match find_next ps prev with
  | Some idx => ∃ o, (1 <= o <= 64)%nat ∧ idx = candidate prev o ∧ is_runnable ps idx ∧
      ∀ o', (1 <= o' < o)%nat → ¬ is_runnable ps (candidate prev o')
  | None => ∀ k, ¬ is_runnable ps k
  end.
Proof.
  intros Hl Hp. pose proof (next_runnable_spec ps prev 64 1 Hl Hp ltac:(lia) ltac:(lia)) as H.
  unfold find_next. change (Z.of_nat 1) with 1 in H. change MAX_PROCESSES with 64%nat at 1.
  destruct (next_runnable _ _ _ _); [done|]. intros k (p & Hk & Hr).
  pose proof (lookup_lt_Some _ _ _ Hk) as Hlt. rewrite Hl in Hlt.
  destruct (candidate_onto prev k Hlt Hp) as (o & Ho & E). apply (H o Ho). rewrite E. by exists p.
Qed.

Section sched.
Context {E : Type} `{HE : Services E} `{HS : !ServicesSpec E}.
Implicit Types (s : Kernel E) (ps : list Process) (k i j : nat).

(** ** Switching *)

(** The table once slot [idx] has been chosen to run. *)
Definition run_slot (idx : nat) ps : list Process := alter (set_state Running) idx ps.
Definition save_slot (prev : option nat) (point : Point) ps : list Process :=
  match prev with Some k => alter (set_context (Saved point)) k ps | None => ps end.

(** The services once the processor uses the address space of slot [idx]. *)
Definition enters (held : E → Resource → Z) (e e' : E) (space : option Z) : Prop :=
  match space with Some a => activates held e e' a | None => holds_same held e e' end.
Definition dispatched s (idx : nat) (e : E) : Prop :=
  svc_ok e ∧ ∀ p, procs s !! idx = Some p → enters held (env s) e (pml4 p).
Definition spaces_held s : Prop := ∀ k p a, procs s !! k = Some p → pml4 p = Some a → 0 < held (env s) (Space a).

(** How [schedule] ends, [prev]'s context being saved or not. *)
Inductive switched s (prev : option nat) (save : option Point) : Control → Kernel E → Prop :=
| switched_self idx :
    find_next (procs s) prev = Some idx → prev = Some idx → save ≠ None →
    switched s prev save Continue (set_procs (run_slot idx (procs s)) (set_current (Some idx) s))
| switched_to idx e :
    find_next (procs s) prev = Some idx → (prev ≠ Some idx ∨ save = None) → dispatched s idx e →
    switched s prev save (SwitchTo (Some idx))
      (set_env e (set_procs
        (match save with Some pt => save_slot prev pt (run_slot idx (procs s)) | None => run_slot idx (procs s) end)
        (set_scheduler (scheduler_context s || (match prev, save with None, Some _ => true | _, _ => false end))
          (set_current (Some idx) s))))
| switched_out k :
    find_next (procs s) prev = None → prev = Some k →
    switched s prev save (SwitchTo None)
      (set_procs (match save with Some pt => save_slot prev pt (procs s) | None => procs s end) (set_current None s))
| switched_none :
    find_next (procs s) prev = None → prev = None → save ≠ None → switched s prev save Continue s.

Lemma alter_insert f k p ps : ps !! k = Some p → alter f k ps = <[k := f p]> ps.
Proof. intros Hp. apply list_eq. intros j. destruct (decide (j = k)) as [->|Hne].
  - rewrite list_lookup_alter_eq, Hp, list_lookup_insert_eq by (by eapply lookup_lt_Some). done.
  - by rewrite list_lookup_alter_ne, list_lookup_insert_ne by done.
Qed.

Lemma wp_prepare k p s (Q : () → Kernel E → Prop) :
  procs s !! k = Some p → svc_ok (env s) → (∀ a, pml4 p = Some a → 0 < held (env s) (Space a)) →
  (∀ e, svc_ok e → enters held (env s) e (pml4 p) → Q () (set_env e s)) → wp (prepare k) s Q.
Proof.
  intros Hp Hok Hsp HQ. unfold prepare. wp_step. eapply wp_proc; [exact Hp|]. wp_step.
  apply wp_mono with (P := λ _ s', ∃ e, s' = set_env e s ∧ svc_ok e ∧ enters held (env s) e (pml4 p)).
  { destruct (pml4 p) as [a|] eqn:Ea.
    - apply wp_service. eapply wp_mono; [apply switch_address_space_spec; [exact Hok|by apply Hsp]|]. intros [] e [He Hh]. by exists e.
    - wp_step. exists (env s). split; [by destruct s|]. done. }
  intros [] s1 (e & -> & He & Hh). wp_step. eapply wp_proc; [exact Hp|].
  apply wp_service. eapply wp_mono; [apply set_kernel_stack_spec; exact He|]. intros [] e2 [He2 Hh2].
  change (set_env e2 (set_env e s)) with (set_env e2 s). apply HQ; [done|].
  destruct (pml4 p) as [a|]; intros r; rewrite Hh2; apply Hh.
Qed.

(** Runnable and running processes have a context to go on with. *)
Definition contexts_ok ps : Prop := ∀ k p, ps !! k = Some p → state p = Runnable → context p ≠ NoContext.

Lemma is_runnable_lookup ps k : is_runnable ps k → ∃ p, ps !! k = Some p ∧ state p = Runnable.
Proof. done. Qed.

Lemma wp_schedule s prev point (Q : Control → Kernel E → Prop) :
  length (procs s) = MAX_PROCESSES → svc_ok (env s) → spaces_held s → contexts_ok (procs s) →
  (∀ k, prev = Some k → (k < MAX_PROCESSES)%nat ∧ scheduler_context s = true) →
  (∀ c s', switched s prev (Some point) c s' → Q c s') →
  wp (schedule prev point) s Q.
Proof.
  intros Hl Hok Hsp Hctx Hprev HQ. unfold schedule. do 2 wp_step.
  pose proof (find_next_spec (procs s) prev Hl (λ k Hk, proj1 (Hprev k Hk))) as Hf.
  destruct (find_next (procs s) prev) as [idx|] eqn:Ef.
  - destruct Hf as (o & Ho & Hidx & (p & Hp & Hr) & _). do 2 wp_step. wp_step.
    eapply wp_modify_proc; [exact Hp|]. cbn [procs set_current].
    rewrite <- (alter_insert (set_state Running) idx p) by done. change (alter _ _ _) with (run_slot idx (procs s)).
    destruct (decide (prev = Some idx)) as [Hself|Hother].
    + wp_step. apply HQ. apply (switched_self s prev (Some point) idx); [done|done|done].
    + assert (run_slot idx (procs s) !! idx = Some (set_state Running p)) as Hp1.
      { unfold run_slot. by rewrite list_lookup_alter_eq, Hp. }
      wp_step. eapply wp_prepare; [exact Hp1|done|intros a; apply (Hsp idx p a Hp)|]. intros e He Hen.
    assert (dispatched s idx e) as Hh by (split; [done|]; intros q Hq; simplify_eq; exact Hen). unfold switch_to. wp_step.
      eapply wp_proc; [exact Hp1|]. cbn [context set_state].
      pose proof (Hctx idx p Hp Hr) as Hc.
      assert (∀ s', wp (save_context prev point) (set_env e (set_procs (run_slot idx (procs s)) (set_current (Some idx) s)))
        (λ _ s', Q (SwitchTo (Some idx)) s')) as Hsave.
      { intros _. destruct prev as [k|]; cbn [save_context].
        - destruct (Hprev k eq_refl) as [Hk Hsch].
          destruct (lookup_lt_is_Some_2 (run_slot idx (procs s)) k) as [q Hq]; [unfold run_slot; rewrite length_alter; lia|].
          eapply wp_modify_proc; [exact Hq|]. cbn [procs set_env set_procs].
          rewrite <- (alter_insert (set_context (Saved point)) k q) by done.
          specialize (HQ _ _ (switched_to s (Some k) (Some point) idx e Ef ltac:(by left) Hh)).
          rewrite orb_false_r in HQ. exact HQ.
        - wp_step. specialize (HQ _ _ (switched_to s None (Some point) idx e Ef ltac:(by left) Hh)).
          rewrite orb_true_r in HQ. exact HQ. }
      destruct (context p); [done| |]; wp_step; (eapply wp_mono; [apply Hsave; exact s|]); intros [] s' H; by wp_step.
  - destruct prev as [k|].
    + destruct (Hprev k eq_refl) as [Hk Hsch]. do 2 wp_step. unfold switch_to_scheduler. do 2 wp_step.
      cbn [scheduler_context set_current]. rewrite Hsch. wp_step. cbn [save_context].
      destruct (lookup_lt_is_Some_2 (procs s) k) as [q Hq]; [lia|].
      eapply wp_modify_proc; [exact Hq|]. wp_step. cbn [procs set_current].
      rewrite <- (alter_insert (set_context (Saved point)) k q) by done.
      exact (HQ _ _ (switched_out s (Some k) (Some point) k Ef eq_refl)).
    + wp_step. apply HQ. by apply switched_none.
Qed.

Lemma wp_schedule_from_zombie s k (Q : Control → Kernel E → Prop) :
  length (procs s) = MAX_PROCESSES → svc_ok (env s) → spaces_held s → contexts_ok (procs s) →
  current s = Some k → (k < MAX_PROCESSES)%nat → scheduler_context s = true →
  (∀ c s', switched s (Some k) None c s' → Q c s') →
  wp schedule_from_zombie s Q.
Proof.
  intros Hl Hok Hsp Hctx Hcur Hk Hsch HQ. unfold schedule_from_zombie. do 2 wp_step. rewrite Hcur.
  pose proof (find_next_spec (procs s) (Some k) Hl ltac:(by intros ? [= <-])) as Hf.
  destruct (find_next (procs s) (Some k)) as [idx|] eqn:Ef.
  - destruct Hf as (o & Ho & Hidx & (p & Hp & Hr) & _). do 2 wp_step. wp_step.
    eapply wp_modify_proc; [exact Hp|]. cbn [procs set_current].
    rewrite <- (alter_insert (set_state Running) idx p) by done. change (alter _ _ _) with (run_slot idx (procs s)).
    assert (run_slot idx (procs s) !! idx = Some (set_state Running p)) as Hp1.
    { unfold run_slot. by rewrite list_lookup_alter_eq, Hp. }
    wp_step. eapply wp_prepare; [exact Hp1|done|intros a; apply (Hsp idx p a Hp)|]. intros e He Hen.
    assert (dispatched s idx e) as Hh by (split; [done|]; intros q Hq; simplify_eq; exact Hen). unfold switch_to. wp_step.
    eapply wp_proc; [exact Hp1|]. cbn [context set_state]. pose proof (Hctx idx p Hp Hr) as Hc.
    specialize (HQ _ _ (switched_to s (Some k) None idx e Ef ltac:(by right) Hh)). rewrite orb_false_r in HQ.
    destruct (context p); [done| |]; do 2 wp_step; wp_step; exact HQ.
  - do 2 wp_step. unfold switch_to_scheduler. do 2 wp_step. cbn [scheduler_context set_current]. rewrite Hsch.
    do 3 wp_step. pose proof (HQ _ _ (switched_out s (Some k) None k Ef eq_refl)) as H.
    replace (set_current None s) with (set_procs (procs s) (set_current None s)) by by destruct s. exact H.
Qed.

(** ** wakeup *)
Definition wake (ch : Channel) (p : Process) : Process :=
  if decide (state p = Sleeping ∧ sleep_channel p = Some ch) then set_state Runnable p else p.

Lemma wp_wakeup_loop n i ch s (Q : () → Kernel E → Prop) :
  (i + n = length (procs s))%nat →
  Q () (set_procs (take i (procs s) ++ (wake ch <$> drop i (procs s))) s) → wp (wakeup_loop n i ch) s Q.
Proof.
  revert i s. induction n as [|n IH]; intros i s Hn HQ; cbn [wakeup_loop].
  { wp_step. rewrite drop_ge, take_ge in HQ by lia. cbn in HQ. rewrite app_nil_r in HQ. by destruct s. }
  destruct (lookup_lt_is_Some_2 (procs s) i) as [p Hp]; [lia|]. wp_step. eapply wp_proc; [exact Hp|]. wp_step.
  apply wp_mono with (P := λ _ s', s' = set_procs (<[i := wake ch p]> (procs s)) s).
  { unfold wake. case_decide; [by eapply wp_modify_proc|]. wp_step. rewrite list_insert_id by done. by destruct s. }
  intros [] s' ->. apply IH; [cbn; rewrite length_insert; lia|]. cbn [procs set_procs].
  replace (take (S i) (<[i:=wake ch p]> (procs s)) ++ (wake ch <$> drop (S i) (<[i:=wake ch p]> (procs s))))
    with (take i (procs s) ++ (wake ch <$> drop i (procs s))); [exact HQ|].
  rewrite (drop_S _ _ _ Hp), fmap_cons. erewrite take_S_r by (apply list_lookup_insert_eq; by eapply lookup_lt_Some).
  rewrite take_insert_ge, drop_insert_lt by lia. by rewrite <- app_assoc.
Qed.

Lemma wp_wakeup ch s (Q : () → Kernel E → Prop) :
  length (procs s) = MAX_PROCESSES → Q () (set_procs (wake ch <$> procs s) s) → wp (wakeup ch) s Q.
Proof. intros Hl HQ. apply wp_wakeup_loop; [done|]. exact HQ. Qed.
End sched.
