(* ===== verification/ProcessTable.v ===== *)
(** * The process table

    The invariant of the process table between two operations, and the
    operations that put processes to sleep, wake them and end them keep it. The
    part about [wait] says that no wakeup is lost: a process that waits for its
    children has no child that has ended. *)
From stdpp Require Import gmap.
From S2P Require Import Prelude Kstring Process ProcessSpec ProcessSched.

(** A process asleep in [wait]. *)
Definition waiting (p : Process) : Prop := state p = Sleeping ∧ context p = Saved AtWait.

(** A process that can be switched to. *)
Definition built (p : Process) : Prop := context p ≠ NoContext ∧ kernel_stack p ≠ None ∧ pml4 p ≠ None.

Record slots_ok (ps : list Process) : Prop := {
  so_embryo k p : ps !! k = Some p → state p ≠ Embryo;
  so_built k p : ps !! k = Some p → state p ≠ Unused → built p;
  so_sleep k p : ps !! k = Some p → state p = Sleeping →
    (∃ ch, sleep_channel p = Some ch) ∧ (context p = Saved AtSleep ∨ context p = Saved AtWait ∧ sleep_channel p = Some (CProcess k));
  so_wait k p j q : ps !! k = Some p → waiting p → ps !! j = Some q → state q = Zombie → parent q ≠ Some k;
}.

(** No process is running. *)
Definition none_running (ps : list Process) : Prop := ∀ k p, ps !! k = Some p → state p ≠ Running.

(** [q] in the place of [p] in slot [k]. *)
Lemma slots_change ps k p q :
  slots_ok ps → ps !! k = Some p → state q ≠ Embryo → (state q ≠ Unused → built q) →
  (state q = Sleeping → (∃ ch, sleep_channel q = Some ch) ∧
    (context q = Saved AtSleep ∨ context q = Saved AtWait ∧ sleep_channel q = Some (CProcess k))) →
  (waiting q → ∀ j x, <[k := q]> ps !! j = Some x → state x = Zombie → parent x ≠ Some k) →
  (state q = Zombie → ∀ j x, <[k := q]> ps !! j = Some x → waiting x → parent q ≠ Some j) →
  slots_ok (<[k := q]> ps).
Proof.
  intros [H1 H2 H3 H4] Hp He Hc Hs Hw Hz. split.
  - intros j x [(_ & <- & _)|(_ & Hx)]%list_lookup_insert_Some; eauto.
  - intros j x [(_ & <- & _)|(_ & Hx)]%list_lookup_insert_Some; eauto.
  - intros j x [(<- & <- & _)|(_ & Hx)]%list_lookup_insert_Some; eauto.
  - intros i x j y Hx Hwx Hy Hzy. destruct (decide (i = k)) as [->|Hi].
    { rewrite list_lookup_insert_eq in Hx by (by eapply lookup_lt_Some). injection Hx as <-. by eapply Hw. }
    destruct (decide (j = k)) as [->|Hj].
    { rewrite list_lookup_insert_eq in Hy by (by eapply lookup_lt_Some). injection Hy as <-. by eapply Hz. }
    rewrite list_lookup_insert_ne in Hx by done. rewrite list_lookup_insert_ne in Hy by done. by eapply H4.
Qed.

(** The usual case: [q] neither waits nor has ended. *)
Lemma slots_change_live ps k p q :
  slots_ok ps → ps !! k = Some p → state q = Runnable ∨ state q = Running ∨ state q = Unused →
  (state q ≠ Unused → built q) → slots_ok (<[k := q]> ps).
Proof.
  intros Hok Hp Hq Hc. eapply slots_change; [done|exact Hp|..|done| | |].
  all: unfold waiting; destruct Hq as [Hq|[Hq|Hq]]; rewrite Hq; try done; by intros [? _].
Qed.

(** A runnable slot handed over to the processor. *)
Lemma slots_run ps k : slots_ok ps → is_runnable ps k → slots_ok (run_slot k ps).
Proof.
  intros Hok (p & Hp & Hr). unfold run_slot. rewrite (alter_insert _ k p) by done.
  eapply slots_change_live; [done|exact Hp|cbn; auto|]. intros _. cbn. apply (so_built _ Hok k p Hp). congruence.
Qed.

(** ** wakeup *)
Lemma wake_cases ch p :
  wake ch p = p ∧ ¬ (state p = Sleeping ∧ sleep_channel p = Some ch) ∨
  wake ch p = set_state Runnable p ∧ state p = Sleeping ∧ sleep_channel p = Some ch.
Proof. unfold wake. case_decide; [right|left]; tauto. Qed.

Lemma wake_lookup ch (ps : list Process) k x : (wake ch <$> ps) !! k = Some x → ∃ p, ps !! k = Some p ∧ x = wake ch p.
Proof. rewrite list_lookup_fmap. intros (p & Hp & ->)%fmap_Some. eauto. Qed.

(** Whoever still waits was waiting, on something else. *)
Lemma wake_waiting ch p : waiting (wake ch p) → wake ch p = p ∧ waiting p ∧ sleep_channel p ≠ Some ch.
Proof.
  intros [Hs Hc]. destruct (wake_cases ch p) as [[E Hn]|[E [Hp _]]]; rewrite E in *; [|done].
  repeat split; [done|done|]. intros Hch. by apply Hn.
Qed.

Lemma wake_state ch p st : st ≠ Sleeping → st ≠ Runnable → state (wake ch p) = st ↔ state p = st.
Proof.
  intros Hs Hr. destruct (wake_cases ch p) as [[-> _]|(-> & Hp & _)]; [done|]. cbn. split; congruence.
Qed.

Lemma wake_parent ch p : parent (wake ch p) = parent p.
Proof. by destruct (wake_cases ch p) as [[-> _]|[-> _]]. Qed.
Lemma wake_context ch p : context (wake ch p) = context p.
Proof. by destruct (wake_cases ch p) as [[-> _]|[-> _]]. Qed.
Lemma wake_built ch p : built (wake ch p) = built p.
Proof. by destruct (wake_cases ch p) as [[-> _]|[-> _]]. Qed.
Lemma wake_channel ch p : sleep_channel (wake ch p) = sleep_channel p.
Proof. by destruct (wake_cases ch p) as [[-> _]|[-> _]]. Qed.

(** All of the invariant but for the processes that wait for [r]'s end ... *)
Definition slots_ok_but (r : option nat) (ps : list Process) : Prop :=
  (∀ k p, ps !! k = Some p → state p ≠ Embryo) ∧
  (∀ k p, ps !! k = Some p → state p ≠ Unused → built p) ∧
  (∀ k p, ps !! k = Some p → state p = Sleeping → (∃ ch, sleep_channel p = Some ch) ∧
    (context p = Saved AtSleep ∨ context p = Saved AtWait ∧ sleep_channel p = Some (CProcess k))) ∧
  (∀ k p j q, ps !! k = Some p → waiting p → Some k ≠ r → ps !! j = Some q → state q = Zombie → parent q ≠ Some k).

Lemma slots_ok_but_none ps : slots_ok_but None ps ↔ slots_ok ps.
Proof.
  split.
  - intros (H1 & H2 & H3 & H4). split; eauto.
  - intros [H1 H2 H3 H4]. repeat (split; [done|]). eauto.
Qed.

Lemma slots_ok_but_weaken r ps : slots_ok ps → slots_ok_but r ps.
Proof. intros [H1 H2 H3 H4]. repeat (split; [done|]). eauto. Qed.

(** ... which waking it up restores. *)
Lemma slots_wake r ch ps :
  slots_ok_but r ps → (∀ k, r = Some k → ch = CProcess k) → slots_ok (wake ch <$> ps).
Proof.
  intros (H1 & H2 & H3 & H4) Hr. split.
  - intros k x (p & Hp & ->)%wake_lookup. rewrite wake_state by done. eauto.
  - intros k x (p & Hp & ->)%wake_lookup. rewrite wake_state, wake_built by done. eauto.
  - intros k x (p & Hp & ->)%wake_lookup Hs. rewrite wake_context, wake_channel.
    destruct (wake_cases ch p) as [[E _]|[E _]]; rewrite E in Hs; [by apply (H3 k p)|done].
  - intros k x j y (p & Hp & ->)%wake_lookup (_ & Hw & Hch)%wake_waiting (q & Hq & ->)%wake_lookup Hz.
    rewrite wake_state in Hz by done. rewrite wake_parent. apply (H4 k p j q); [done|done| |done|done].
    intros <-. specialize (Hr k eq_refl). subst ch. destruct Hw as [Hw1 Hw2].
    destruct (H3 k p Hp Hw1) as [_ [Hc|[_ Hc]]]; congruence.
Qed.

Lemma none_running_wake ch ps : none_running ps → none_running (wake ch <$> ps).
Proof. intros Hn k x (p & Hp & ->)%wake_lookup. rewrite wake_state by done. eauto. Qed.

Section table.
Context {E : Type} `{HE : Services E} `{HS : !ServicesSpec E}.
Implicit Types (s : Kernel E) (ps : list Process) (k i j : nat).

(** The invariant between two operations: the accounts balance, the slots are
    consistent, and exactly the current process is running. *)
Record table_ok s : Prop := {
  to_accounts : accounts_ok s;
  to_pid : 1 <= next_pid s;
  to_slots : slots_ok (procs s);
  to_current k : current s = Some k → ∃ p, procs s !! k = Some p ∧ state p = Running;
  to_running k p : procs s !! k = Some p → state p = Running → current s = Some k;
  to_scheduler : current s ≠ None → scheduler_context s = true;
}.

Lemma to_length s : table_ok s → length (procs s) = MAX_PROCESSES.
Proof. intros H. apply H. Qed.
Lemma to_none s : table_ok s → current s = None → none_running (procs s).
Proof. intros H Hc k p Hp Hr. rewrite (to_running _ H k p Hp Hr) in Hc. done. Qed.

(** *** Accounts under changes that leave the resources alone *)
Lemma accounts_relate s ps e :
  accounts_ok s → svc_ok e → steady held (env s) e →
  Forall2 (λ p q, same_resources p q ∧ (state q = Unused → state p = Unused)) (procs s) ps →
  accounts_ok (set_env e (set_procs ps s)).
Proof.
  intros [H1 H2 H3 H4 H5 H6] He Hh Hall. split; cbn.
  - by rewrite <- (Forall2_length _ _ _ Hall).
  - done.
  - intros k q Hq. destruct (Forall2_lookup_r _ _ _ _ _ Hall Hq) as (p & Hp & (_ & _ & ->) & _). by eapply H3.
  - intros k q Hq Hu. destruct (Forall2_lookup_r _ _ _ _ _ Hall Hq) as (p & Hp & (-> & -> & ->) & Hs). eapply H4; eauto.
  - intros r Hr. rewrite (steady_owns _ _ _ Hh), H5 by done. symmetry. apply total_uses_same. eapply Forall2_impl; [exact Hall|]. by intros ?? [? _].
  - intros k q Hk Hq. destruct (Forall2_lookup_r _ _ _ _ _ Hall Hq) as (p & Hp & (_ & -> & _) & Hs).
    destruct (H6 k p Hk Hp) as [Hu Ha]. split; [auto|]. intros a Hpa. rewrite Hh by done. by apply Ha.
Qed.

Lemma accounts_fmap s (f : Process → Process) :
  accounts_ok s → (∀ p, same_resources p (f p) ∧ (state (f p) = Unused → state p = Unused)) →
  accounts_ok (set_procs (f <$> procs s) s).
Proof.
  intros Hok Hf. change (accounts_ok (set_env (env s) (set_procs (f <$> procs s) s))).
  apply accounts_relate; [done|apply Hok|done|]. apply Forall2_fmap_r, Forall_Forall2_diag, Forall_true. exact Hf.
Qed.

Lemma accounts_wake s ch : accounts_ok s → accounts_ok (set_procs (wake ch <$> procs s) s).
Proof.
  intros Hok. apply accounts_fmap; [done|]. intros p. rewrite (wake_state ch p Unused) by done. split; [|done].
  by destruct (wake_cases ch p) as [[-> _]|[-> _]].
Qed.

Lemma accounts_alter s (f : Process → Process) k :
  accounts_ok s → (∀ p, procs s !! k = Some p → same_resources p (f p) ∧ (state (f p) = Unused → state p = Unused)) →
  accounts_ok (set_procs (alter f k (procs s)) s).
Proof.
  intros Hok Hf. destruct (procs s !! k) as [p|] eqn:Hp.
  - rewrite (alter_insert f k p) by done. destruct (Hf p eq_refl). by eapply (accounts_slot_same s k p).
  - replace (alter f k (procs s)) with (procs s); [by destruct s|]. apply list_eq. intros j.
    destruct (decide (j = k)) as [->|Hj]; [by rewrite list_lookup_alter_eq, Hp|by rewrite list_lookup_alter_ne].
Qed.

(** ** Switching

    The state before [schedule]: nobody is marked as running, and the slots
    are consistent once the context that is left has been saved. *)
Definition saved prev (save : option Point) ps : list Process :=
  match save with Some pt => save_slot prev pt ps | None => ps end.

Record leaving s (prev : option nat) (save : option Point) : Prop := {
  lv_accounts : accounts_ok s;
  lv_pid : 1 <= next_pid s;
  lv_prev : current s = prev;
  lv_slot k : prev = Some k → (k < MAX_PROCESSES)%nat;
  lv_scheduler : prev ≠ None → scheduler_context s = true;
  lv_saves : prev = None → save ≠ None;
  lv_running : none_running (procs s);
  lv_built k p : procs s !! k = Some p → state p ≠ Unused → built p;
  lv_slots : slots_ok (saved prev save (procs s));
}.

Lemma saved_lookup prev save ps k q :
  saved prev save ps !! k = Some q → ∃ p, ps !! k = Some p ∧ state q = state p ∧ parent q = parent p ∧
    sleep_channel q = sleep_channel p ∧ same_resources p q ∧ (prev ≠ Some k ∨ save = None → q = p).
Proof.
  unfold saved, save_slot. destruct save as [pt|]; [|intros Hq; by exists q].
  destruct prev as [i|]; [|intros Hq; by exists q]. destruct (decide (k = i)) as [->|Hne].
  - rewrite list_lookup_alter_eq. intros (p & Hp & ->)%fmap_Some. exists p.
    split; [done|]. repeat (split; [done|]). intros [?|?]; congruence.
  - rewrite list_lookup_alter_ne by done. intros Hq. by exists q.
Qed.

Lemma saved_runnable prev save ps k : is_runnable ps k → is_runnable (saved prev save ps) k.
Proof.
  intros (p & Hp & Hr). unfold saved, save_slot, is_runnable. destruct save as [pt|]; [|by exists p].
  destruct prev as [i|]; [|by exists p]. destruct (decide (k = i)) as [->|Hne].
  - exists (set_context (Saved pt) p). by rewrite list_lookup_alter_eq, Hp.
  - exists p. by rewrite list_lookup_alter_ne by done.
Qed.

Lemma saved_run prev save ps k : (prev ≠ Some k ∨ save = None) → saved prev save (run_slot k ps) = run_slot k (saved prev save ps).
Proof.
  intros Hne. unfold saved, save_slot, run_slot. destruct save as [pt|]; [|done]. destruct prev as [i|]; [|done].
  apply list_alter_alter_ne. destruct Hne as [Hne|Hne]; [congruence|done].
Qed.

Lemma run_slot_state ps k j q : run_slot k ps !! j = Some q → (j = k ∧ state q = Running) ∨ (j ≠ k ∧ ps !! j = Some q).
Proof.
  unfold run_slot. destruct (decide (j = k)) as [->|Hne].
  - rewrite list_lookup_alter_eq. intros (p & Hp & ->)%fmap_Some. by left.
  - rewrite list_lookup_alter_ne by done. auto.
Qed.

Lemma none_running_saved prev save ps : none_running ps → none_running (saved prev save ps).
Proof. intros Hn k q (p & Hp & -> & _)%saved_lookup. eauto. Qed.

Lemma find_next_runnable s prev save idx :
  leaving s prev save → find_next (procs s) prev = Some idx → is_runnable (procs s) idx.
Proof.
  intros Hl Hf. pose proof (find_next_spec (procs s) prev (ao_length _ (lv_accounts _ _ _ Hl)) (lv_slot _ _ _ Hl)) as H.
  rewrite Hf in H. by destruct H as (_ & _ & _ & Hr & _).
Qed.

(** Who runs next uses its own address space. *)
Lemma accounts_dispatch s idx ps e sc :
  accounts_ok s → dispatched s idx e → is_runnable ps idx →
  Forall2 (λ p q, same_resources p q ∧ (state q = Unused → state p = Unused)) (procs s) ps →
  accounts_ok (set_env e (set_procs ps (set_scheduler sc (set_current (Some idx) s)))).
Proof.
  intros [H1 H2 H3 H4 H5 H6] [He Hen] (q0 & Hq0 & Hrun) Hall.
  destruct (Forall2_lookup_r _ _ _ _ _ Hall Hq0) as (p0 & Hp0 & (_ & Hpm & _) & _). specialize (Hen p0 Hp0).
  split; cbn.
  - by rewrite <- (Forall2_length _ _ _ Hall).
  - done.
  - intros k q Hq. destruct (Forall2_lookup_r _ _ _ _ _ Hall Hq) as (p & Hp & (_ & _ & ->) & _). by eapply H3.
  - intros k q Hq Hu. destruct (Forall2_lookup_r _ _ _ _ _ Hall Hq) as (p & Hp & (-> & -> & ->) & Hs). eapply H4; eauto.
  - intros r Hr. assert (held e r = held (env s) r) as -> by (destruct (pml4 p0); rewrite Hen; by destruct r).
    rewrite H5 by done. symmetry. apply total_uses_same. eapply Forall2_impl; [exact Hall|]. by intros ?? [? _].
  - intros k q [= <-] Hq. simplify_eq. split; [by rewrite Hrun|]. intros a Ha. rewrite <- Hpm, Ha in Hen.
    rewrite Hen. by rewrite decide_True.
Qed.

Lemma accounts_spaces s : accounts_ok s → spaces_held s.
Proof. intros Hok k p a Hp Ha. by eapply space_held. Qed.

(** The state in which process [idx] goes on. *)
Lemma running_ok s idx ps e sc :
  accounts_ok s → 1 <= next_pid s → slots_ok ps → none_running ps → is_runnable ps idx →
  Forall2 (λ p q, same_resources p q ∧ (state q = Unused → state p = Unused)) (procs s) ps →
  dispatched s idx e → sc = true →
  table_ok (set_env e (set_procs (run_slot idx ps) (set_scheduler sc (set_current (Some idx) s)))).
Proof.
  intros Ha Hpid Hsl Hnr Hrun Hall Hdis Hsc. split; cbn; [|done| | | |done].
  - pose proof (accounts_dispatch s idx ps e sc Ha Hdis Hrun Hall) as H1.
    apply (accounts_alter _ (set_state Running) idx) in H1; [exact H1|]. intros p _. by split.
  - by apply slots_run.
  - intros k [= <-]. destruct Hrun as (p & Hp & _). exists (set_state Running p). unfold run_slot.
    by rewrite list_lookup_alter_eq, Hp.
  - intros k p [[-> _]|[_ Hp]]%run_slot_state Hr; [done|]. by edestruct Hnr.
Qed.

Lemma saved_relate prev save ps :
  Forall2 (λ p q, same_resources p q ∧ (state q = Unused → state p = Unused)) ps (saved prev save ps).
Proof.
  apply Forall2_same_length_lookup. split.
  - unfold saved, save_slot. destruct save, prev; by rewrite ?length_alter.
  - intros k p q Hp (p' & Hp' & Hs & _ & _ & Hres & _)%saved_lookup. simplify_eq. split; [done|]. congruence.
Qed.

(** Whatever [schedule] chooses, the invariant holds for whoever runs next. *)
Lemma switched_ok s prev save c s' : leaving s prev save → switched s prev save c s' → table_ok s'.
Proof.
  intros Hl Hsw. pose proof Hl as [Ha Hpid Hprev Hslot Hsch Hsv Hnr Hctx Hsl].
  destruct Hsw as [idx Hf Hself Hsave|idx e Hf Hne Hdis|k Hf Hk|Hf Hno Hsave].
  - destruct (find_next_runnable _ _ _ _ Hl Hf) as (p & Hp & Hr).
    split; cbn; [|done| | | |by intros _; apply Hsch; rewrite Hself].
    + assert (accounts_ok (set_current (Some idx) s)) as H1 by (rewrite <- Hself, <- Hprev; by destruct Ha).
      apply (accounts_alter _ (set_state Running) idx) in H1; [exact H1|]. intros q _. by split.
    + unfold run_slot. rewrite (alter_insert _ idx p) by done. destruct save as [pt|]; [|done].
      assert (<[idx := set_state Running p]> (procs s) = <[idx := set_state Running p]> (saved prev (Some pt) (procs s))) as ->.
      { rewrite Hself. cbn. rewrite (alter_insert _ idx p) by done. by rewrite list_insert_insert_eq. }
      eapply (slots_change_live _ idx (set_context (Saved pt) p)); [done| |cbn; auto|].
      * rewrite Hself. cbn. by rewrite list_lookup_alter_eq, Hp.
      * intros _. cbn. apply (Hctx idx p Hp). congruence.
    + intros k [= <-]. exists (set_state Running p). unfold run_slot. by rewrite list_lookup_alter_eq, Hp.
    + intros k q [[-> _]|[_ Hq]]%run_slot_state Hrq; [done|]. by edestruct Hnr.
  - change (match save with Some pt => save_slot prev pt (run_slot idx (procs s)) | None => run_slot idx (procs s) end)
      with (saved prev save (run_slot idx (procs s))).
    rewrite saved_run by done. apply running_ok; [done|done|done|by apply none_running_saved| |apply saved_relate|done|].
    + apply saved_runnable. by eapply find_next_runnable.
    + destruct prev; [by rewrite (Hsch ltac:(done))|]. destruct save; [by rewrite orb_true_r|].
      by destruct (Hsv eq_refl).
  - change (match save with Some pt => save_slot prev pt (procs s) | None => procs s end) with (saved prev save (procs s)).
    assert (accounts_ok (set_env (env s) (set_procs (saved prev save (procs s)) s))) as H1.
    { apply accounts_relate; [done|apply Ha|done|apply saved_relate]. }
    split; cbn; [destruct H1; by split|done|done|done| |done].
    intros i q Hq Hr. by edestruct (none_running_saved prev save _ Hnr i q).
  - rewrite Hno in Hsl, Hprev. destruct save as [pt|]; [|done]. split; [done|done|exact Hsl| | |].
    + intros k Hk. congruence.
    + intros k p Hp Hr. by edestruct Hnr.
    + intros Hc. congruence.
Qed.

Lemma leaving_contexts s prev save : leaving s prev save → contexts_ok (procs s).
Proof. intros Hl k p Hp Hr. apply (lv_built _ _ _ Hl k p Hp). congruence. Qed.

Lemma wp_schedule_ok s prev point (Q : Control → Kernel E → Prop) :
  leaving s prev (Some point) →
  (∀ c s', table_ok s' → switched s prev (Some point) c s' → Q c s') → wp (schedule prev point) s Q.
Proof.
  intros Hl HQ. pose proof (lv_accounts _ _ _ Hl) as Ha.
  apply wp_schedule; [apply Ha|apply Ha|by apply accounts_spaces|by eapply leaving_contexts| |].
  - intros k ->. split; [by eapply (lv_slot _ _ _ Hl)|]. by apply (lv_scheduler _ _ _ Hl).
  - intros c s' Hsw. apply HQ; [|done]. by eapply switched_ok.
Qed.

Lemma wp_zombie_ok s k (Q : Control → Kernel E → Prop) :
  leaving s (Some k) None →
  (∀ c s', table_ok s' → switched s (Some k) None c s' → Q c s') → wp schedule_from_zombie s Q.
Proof.
  intros Hl HQ. pose proof (lv_accounts _ _ _ Hl) as Ha.
  apply (wp_schedule_from_zombie s k); [apply Ha|apply Ha|by apply accounts_spaces|by eapply leaving_contexts|apply Hl|
    by apply (lv_slot _ _ _ Hl)|by apply (lv_scheduler _ _ _ Hl)|].
  intros c s' Hsw. apply HQ; [|done]. by eapply switched_ok.
Qed.
End table.
