(* ===== verification/ProcessOps.v ===== *)
(** * Yielding, sleeping, waking and ending

    The operations of a process on itself: what they do to the table, and that
    they keep its invariant. *)
From stdpp Require Import gmap.
From S2P Require Import Prelude Kstring Process ProcessSpec ProcessSched ProcessTable.

Section ops.
Context {E : Type} `{HE : Services E} `{HS : !ServicesSpec E}.
Implicit Types (s : Kernel E) (ps : list Process) (k i j : nat).

Lemma current_lt s k p : table_ok s → procs s !! k = Some p → (k < MAX_PROCESSES)%nat.
Proof. intros Hok Hp. rewrite <- (to_length _ Hok). by eapply lookup_lt_Some. Qed.

Lemma current_built s k p : table_ok s → current s = Some k → procs s !! k = Some p → built p.
Proof.
  intros Hok Hc Hp. destruct (to_current _ Hok k Hc) as (p' & Hp' & Hr). simplify_eq.
  apply (so_built _ (to_slots _ Hok) k p Hp). congruence.
Qed.

(** The address space of another process is not the one in use. *)
Lemma space_idle s k i q a :
  table_ok s → current s = Some k → i ≠ k → procs s !! i = Some q → pml4 q = Some a → held (env s) (Active a) = 0.
Proof.
  intros Hok Hc Hik Hq Ha. pose proof (to_accounts _ Hok) as Hacc. destruct (to_current _ Hok k Hc) as (p & Hp & _).
  destruct (current_built s k p Hok Hc Hp) as (_ & _ & Hpm). destruct (pml4 p) as [b|] eqn:Hb; [|done].
  destruct (ao_active _ Hacc k p Hc Hp) as [_ Hact]. specialize (Hact b Hb).
  destruct (decide (held (env s) (Active a) = 0)) as [|Hne]; [done|exfalso].
  pose proof (held_active_one _ b a (ao_services _ Hacc) Hact Hne) as ->.
  pose proof (held_space_once _ a (ao_services _ Hacc)) as Honce. rewrite (ao_balance _ Hacc) in Honce by done.
  pose proof (total_uses_two (Space a) (procs s) i k q p Hik Hq Hp) as Htwo.
  assert (uses (Space a) p = 1) as H1 by (cbn; by rewrite Hb, decide_True).
  assert (uses (Space a) q = 1) as H2 by (cbn; by rewrite Ha, decide_True). lia.
Qed.

(** The current process goes on with other contents of its slot. *)
Lemma table_ok_current s k p q e :
  table_ok s → current s = Some k → procs s !! k = Some p → state q = Running → built q →
  accounts_ok (with_slot s k q e) → table_ok (with_slot s k q e).
Proof.
  intros Hok Hc Hp Hq Hb Ha. split; cbn.
  - done.
  - apply Hok.
  - eapply slots_change_live; [apply Hok|exact Hp|auto|done].
  - intros j Hj. rewrite Hc in Hj. injection Hj as <-. exists q. split; [|done].
    apply list_lookup_insert_eq. by eapply lookup_lt_Some.
  - intros j x [(<- & <- & _)|(_ & Hx)]%list_lookup_insert_Some Hrx; [done|]. by eapply to_running.
  - apply Hok.
Qed.

(** Marking the current process as no longer running. *)
Lemma none_running_stop s k p q :
  table_ok s → current s = Some k → procs s !! k = Some p → state q ≠ Running →
  none_running (<[k := q]> (procs s)).
Proof.
  intros Hok Hc Hp Hq j x [(_ & <- & _)|(Hne & Hx)]%list_lookup_insert_Some; [done|].
  intros Hr. pose proof (to_running _ Hok j x Hx Hr). congruence.
Qed.

(** The current process leaves with a new state [q]. *)
Lemma leaving_current s k p q save :
  table_ok s → current s = Some k → procs s !! k = Some p → same_resources p q → state q ≠ Running →
  state q ≠ Unused → context q = context p → slots_ok (saved (Some k) save (<[k := q]> (procs s))) →
  leaving (set_procs (<[k := q]> (procs s)) s) (Some k) save.
Proof.
  intros Hok Hc Hp Hres Hst Hu Hctx Hsl. destruct (to_current _ Hok k Hc) as (p' & Hp' & Hr). simplify_eq. split; cbn.
  - apply (accounts_slot_same s k p q); [apply Hok|done|done|congruence].
  - apply Hok.
  - done.
  - intros j [= <-]. by eapply current_lt.
  - intros _. apply Hok. congruence.
  - done.
  - by eapply none_running_stop.
  - intros j x [(_ & <- & _)|(_ & Hx)]%list_lookup_insert_Some Hux.
    + destruct (so_built _ (to_slots _ Hok) k p Hp) as [Hb1 Hb2]; [congruence|]. destruct Hres as (Hs & Hpm & _).
      split; [by rewrite Hctx|by rewrite Hs, Hpm].
    + by eapply (so_built _ (to_slots _ Hok)).
  - done.
Qed.

Lemma saved_insert k p pt ps q : ps !! k = Some p →
  saved (Some k) (Some pt) (<[k := q]> ps) = <[k := set_context (Saved pt) q]> ps.
Proof.
  intros Hp. cbn. erewrite alter_insert by (apply list_lookup_insert_eq; by eapply lookup_lt_Some).
  by rewrite list_insert_insert_eq.
Qed.

(** ** yield *)
Definition yielded s : Kernel E :=
  match current s with Some k => set_procs (alter (set_state Runnable) k (procs s)) s | None => s end.

Lemma wp_yield s (Q : Control → Kernel E → Prop) :
  table_ok s → (∀ c s', table_ok s' → switched (yielded s) (current s) (Some AtYield) c s' → Q c s') → wp yield s Q.
Proof.
  intros Hok HQ. unfold yield, yield_at, yielded in *. do 2 wp_step. wp_step. destruct (current s) as [k|] eqn:Hc.
  - destruct (to_current _ Hok k Hc) as (p & Hp & Hr). wp_step. eapply wp_proc; [exact Hp|]. rewrite decide_True by done.
    eapply wp_modify_proc; [exact Hp|]. rewrite (alter_insert _ k p (procs s) Hp) in HQ.
    apply wp_schedule_ok; [|exact HQ]. eapply leaving_current; [done|done|exact Hp|done|done|done|done|].
    rewrite (saved_insert k p) by done. eapply slots_change_live; [apply Hok|exact Hp|cbn; auto|].
    intros _. split; [done|]. by apply (current_built s k p).
  - wp_step. apply wp_schedule_ok; [|exact HQ]. split; try done; try apply Hok.
    + by apply to_none.
Qed.

(** ** sleep *)
Definition slept ch (p : Process) : Process := set_state Sleeping (set_channel (Some ch) p).

(** No child of [k] has ended. *)
Definition no_zombie_child ps k : Prop := ∀ j q, ps !! j = Some q → state q = Zombie → parent q ≠ Some k.

Lemma wp_sleep s ch pt k p (Q : Control → Kernel E → Prop) :
  table_ok s → current s = Some k → procs s !! k = Some p →
  (pt = AtSleep ∨ pt = AtWait ∧ ch = CProcess k ∧ no_zombie_child (procs s) k) →
  (∀ next s', table_ok s' → switched (set_procs (<[k := slept ch p]> (procs s)) s) (Some k) (Some pt) (SwitchTo next) s' →
    Q (SwitchTo next) s') →
  wp (sleep ch pt) s Q.
Proof.
  intros Hok Hc Hp Hpt HQ. unfold sleep. do 2 wp_step. rewrite Hc. wp_step. eapply wp_modify_proc; [exact Hp|].
  wp_step. eapply wp_modify_proc; [cbn; apply list_lookup_insert_eq; by eapply lookup_lt_Some|].
  cbn [procs set_procs]. rewrite list_insert_insert_eq. fold (slept ch p). wp_step.
  change (set_procs ?l (set_procs _ s)) with (set_procs l s).
  apply wp_schedule_ok.
  - eapply leaving_current; [done|done|exact Hp|done|done|done|done|].
    rewrite (saved_insert k p) by done. eapply slots_change; [apply Hok|exact Hp|done| | | |done].
    + intros _. split; [done|]. by apply (current_built s k p).
    + intros _. cbn. split; [by eexists|]. destruct Hpt as [->|(-> & -> & _)]; auto.
    + intros [_ Hw] j x Hx Hz. destruct Hpt as [->|(-> & -> & Hnz)]; [done|].
      apply list_lookup_insert_Some in Hx as [(_ & <- & _)|(_ & Hx)]; [done|]. by eapply Hnz.
  - intros c s' Hok' Hsw. destruct c as [|next]; [|wp_step; by apply HQ]. exfalso. inversion Hsw as [idx Hf [= <-] _| | |? ? H1]; simplify_eq.
    pose proof (find_next_spec (<[k := slept ch p]> (procs s)) (Some k)) as Hn.
    cbn [procs set_procs] in Hf. rewrite Hf in Hn. destruct Hn as (_ & _ & _ & (q & Hq & Hr) & _).
    { rewrite length_insert. exact (to_length s Hok). }
    { intros j Hj. injection Hj as <-. exact (current_lt s k p Hok Hp). }
    rewrite list_lookup_insert_eq in Hq by (by eapply lookup_lt_Some). by injection Hq as <-.
Qed.

Lemma wp_sleep_resume s k p (Q : () → Kernel E → Prop) :
  table_ok s → current s = Some k → procs s !! k = Some p →
  (table_ok (set_procs (<[k := set_channel None p]> (procs s)) s) → Q () (set_procs (<[k := set_channel None p]> (procs s)) s)) →
  wp (sleep_resume k) s Q.
Proof.
  intros Hok Hc Hp HQ. unfold sleep_resume. eapply wp_modify_proc; [exact Hp|]. apply HQ.
  destruct (to_current _ Hok k Hc) as (p' & Hp' & Hr). simplify_eq.
  change (table_ok (with_slot s k (set_channel None p) (env s))).
  apply (table_ok_current s k p); [done|done|done|done|exact (current_built s k p Hok Hc Hp)|].
  apply (accounts_slot_same s k p); [apply Hok|done|done|done].
Qed.

(** ** wakeup *)
Lemma table_ok_wake s ch : table_ok s → table_ok (set_procs (wake ch <$> procs s) s).
Proof.
  intros Hok. split; cbn; [by apply accounts_wake, Hok|apply Hok| | | |apply Hok].
  - apply (slots_wake None); [|done]. by apply slots_ok_but_none, Hok.
  - intros k Hk. destruct (to_current _ Hok k Hk) as (p & Hp & Hr). exists (wake ch p).
    rewrite list_lookup_fmap, Hp. split; [done|]. by apply wake_state.
  - intros k x (p & Hp & ->)%wake_lookup Hr. apply wake_state in Hr; [|done..]. by eapply to_running.
Qed.
End ops.

(** * Ending a process

    What [exit] does to the table: its files are closed, its parent is woken, its
    children are handed over to the init process, and another process runs. *)

(** ** Handing over the children *)

Definition reparent (k : nat) (init : option nat) (p : Process) : Process :=
  if decide (state p = Unused ∨ parent p ≠ Some k) then p else set_parent init p.
Definition zombie_child (k : nat) (p : Process) : bool :=
  bool_decide (state p = Zombie ∧ parent p = Some k).
Definition wake_opt (r : option nat) (ps : list Process) : list Process :=
  match r with Some r => wake (CProcess r) <$> ps | None => ps end.

(** The table once the slots from [i] on have been treated. *)
Definition adopt_from (i k : nat) (init : option nat) (ps : list Process) : list Process :=
  let ps' := take i ps ++ (reparent k init <$> drop i ps) in
  if existsb (zombie_child k) (drop i ps) then wake_opt init ps' else ps'.
Definition adopt (k : nat) (init : option nat) (ps : list Process) : list Process := adopt_from 0 k init ps.

Lemma wake_reparent ch k init p : wake ch (reparent k init p) = reparent k init (wake ch p).
Proof.
  unfold reparent. rewrite wake_parent. pose proof (wake_state ch p Unused ltac:(done) ltac:(done)) as Hu.
  destruct (decide (state p = Unused ∨ parent p ≠ Some k)) as [H|H].
  - rewrite decide_True; [done|]. destruct H; [left; by apply Hu|by right].
  - rewrite decide_False; [|intros [?|?]; apply H; [left; by apply Hu|by right]].
    unfold wake. cbn. by case_decide.
Qed.

Lemma wake_twice ch p : wake ch (wake ch p) = wake ch p.
Proof.
  destruct (wake_cases ch p) as [[E _]|[E _]]; [by rewrite E|]. rewrite E. unfold wake. by rewrite decide_False by (by intros [? _]).
Qed.

Lemma wake_opt_twice r ps : wake_opt r (wake_opt r ps) = wake_opt r ps.
Proof.
  destruct r as [r|]; [|done]. unfold wake_opt. rewrite <- list_fmap_compose. apply list_fmap_ext. intros i p _. cbn. apply wake_twice.
Qed.

Lemma wake_opt_adopt i k r init ps :
  wake_opt r (take i ps ++ (reparent k init <$> drop i ps)) =
  take i (wake_opt r ps) ++ (reparent k init <$> drop i (wake_opt r ps)).
Proof.
  destruct r as [r|]; [|done]. unfold wake_opt. rewrite fmap_app, <- fmap_take, <- fmap_drop. f_equal.
  rewrite <- !list_fmap_compose. apply list_fmap_ext. intros j p _. cbn. apply wake_reparent.
Qed.

Lemma zombie_child_wake ch k p : zombie_child k (wake ch p) = zombie_child k p.
Proof. unfold zombie_child. apply bool_decide_ext. by rewrite wake_state, wake_parent by done. Qed.

Lemma existsb_wake_opt r k ps : existsb (zombie_child k) (wake_opt r ps) = existsb (zombie_child k) ps.
Proof.
  destruct r as [r|]; [|done]. cbn. induction ps as [|p ps IH]; [done|]. cbn. by rewrite zombie_child_wake, IH.
Qed.

Lemma drop_wake_opt i r ps : drop i (wake_opt r ps) = wake_opt r (drop i ps).
Proof. destruct r; [|done]. cbn. by rewrite fmap_drop. Qed.

(** One turn of the loop. *)
Definition adopt_slot (i k : nat) (init : option nat) (p : Process) (ps : list Process) : list Process :=
  let ps' := <[i := reparent k init p]> ps in if zombie_child k p then wake_opt init ps' else ps'.

Lemma adopt_step i k init p ps :
  ps !! i = Some p → adopt_from (S i) k init (adopt_slot i k init p ps) = adopt_from i k init ps.
Proof.
  intros Hp. unfold adopt_from, adopt_slot. set (ps1 := <[i := reparent k init p]> ps).
  assert (take (S i) ps1 ++ (reparent k init <$> drop (S i) ps1) = take i ps ++ (reparent k init <$> drop i ps)) as E1.
  { unfold ps1. rewrite (drop_S _ _ _ Hp), fmap_cons.
    rewrite (take_S_r _ _ (reparent k init p)) by (apply list_lookup_insert_eq; by eapply lookup_lt_Some).
    rewrite take_insert_ge, drop_insert_lt by lia. by rewrite <- app_assoc. }
  assert (existsb (zombie_child k) (drop i ps) = zombie_child k p || existsb (zombie_child k) (drop (S i) ps1)) as E2.
  { unfold ps1. rewrite (drop_S _ _ _ Hp), drop_insert_lt by lia. done. }
  rewrite E2. destruct (zombie_child k p); cbn [orb].
  - rewrite drop_wake_opt, existsb_wake_opt, <- drop_wake_opt, <- wake_opt_adopt, E1.
    clear E2. destruct (existsb _ _); [apply wake_opt_twice|done].
  - by rewrite E1.
Qed.

Section exit.
Context {E : Type} `{HE : Services E} `{HS : !ServicesSpec E}.
Implicit Types (s : Kernel E) (ps : list Process) (k i j : nat).

Lemma wp_wake_opt r s (Q : () → Kernel E → Prop) :
  length (procs s) = MAX_PROCESSES → Q () (set_procs (wake_opt r (procs s)) s) →
  wp (match r with Some r => wakeup (CProcess r) | None => mret () end) s Q.
Proof.
  intros Hl HQ. destruct r as [r|]; [by apply wp_wakeup|]. wp_step. by destruct s.
Qed.

Lemma length_wake_opt r ps : length (wake_opt r ps) = length ps.
Proof. destruct r; [apply length_fmap|done]. Qed.

Lemma wp_reparent_loop n i k s (Q : () → Kernel E → Prop) :
  length (procs s) = MAX_PROCESSES → (i + n = MAX_PROCESSES)%nat →
  Q () (set_procs (adopt_from i k (init_proc s) (procs s)) s) → wp (reparent_loop n i k) s Q.
Proof.
  revert i s. induction n as [|n IH]; intros i s Hl Hn HQ; cbn [reparent_loop].
  { wp_step. unfold adopt_from in HQ. rewrite drop_ge, take_ge in HQ by lia. cbn in HQ. rewrite app_nil_r in HQ. by destruct s. }
  destruct (lookup_lt_is_Some_2 (procs s) i) as [p Hp]; [lia|]. wp_step. eapply wp_proc; [exact Hp|]. wp_step.
  apply wp_mono with (P := λ _ s', s' = set_procs (adopt_slot i k (init_proc s) p (procs s)) s).
  - unfold adopt_slot, reparent, zombie_child. case_decide as Hd.
    + wp_step. rewrite bool_decide_eq_false_2, list_insert_id by (done || (intros [? ?]; destruct Hd; congruence)). by destruct s.
    + assert (state p ≠ Unused ∧ parent p = Some k) as [Hu Hpar] by (split; [tauto|]; destruct (decide (parent p = Some k)); tauto). do 2 wp_step. wp_step. eapply wp_modify_proc; [exact Hp|]. wp_step.
      eapply wp_proc; [cbn; apply list_lookup_insert_eq; by eapply lookup_lt_Some|]. cbn [state set_parent].
      destruct (init_proc s) as [r|] eqn:Er.
      * case_bool_decide as Hz; [rewrite decide_True by tauto|rewrite decide_False by tauto; by wp_step].
        apply wp_wakeup; [cbn; by rewrite length_insert|]. done.
      * wp_step. by case_bool_decide.
  - intros [] s' ->. apply IH; [|lia|].
    + cbn. unfold adopt_slot. destruct (zombie_child k p); by rewrite ?length_wake_opt, length_insert.
    + cbn [procs set_procs init_proc]. rewrite adopt_step by done. exact HQ.
Qed.

(** ** The invariant *)

Lemma adopt_unfold k init ps :
  adopt k init ps = if existsb (zombie_child k) ps then wake_opt init (reparent k init <$> ps) else reparent k init <$> ps.
Proof. unfold adopt, adopt_from. by rewrite drop_0, take_0. Qed.

Lemma reparent_cases k init p :
  reparent k init p = p ∨ reparent k init p = set_parent init p ∧ parent p = Some k ∧ state p ≠ Unused.
Proof.
  unfold reparent. case_decide as H; [by left|]. right. split; [done|].
  split; [destruct (decide (parent p = Some k)); tauto|tauto].
Qed.

Lemma reparent_fields k init p :
  state (reparent k init p) = state p ∧ context (reparent k init p) = context p ∧
  sleep_channel (reparent k init p) = sleep_channel p ∧ same_resources p (reparent k init p).
Proof. by destruct (reparent_cases k init p) as [->|[-> _]]. Qed.

Lemma slots_adopt k init ps : slots_ok ps → slots_ok (adopt k init ps).
Proof.
  intros [H1 H2 H3 H4]. rewrite adopt_unfold.
  set (r := if existsb (zombie_child k) ps then init else None).
  assert (slots_ok_but r (reparent k init <$> ps)) as Hbut.
  { assert (∀ i x, (reparent k init <$> ps) !! i = Some x → ∃ p, ps !! i = Some p ∧ x = reparent k init p) as Hl
      by (intros i x; rewrite list_lookup_fmap; intros (p & Hp & ->)%fmap_Some; eauto).
    split; [|split; [|split]].
    - intros i x (p & Hp & ->)%Hl. destruct (reparent_fields k init p) as (-> & _). eauto.
    - intros i x (p & Hp & ->)%Hl. destruct (reparent_fields k init p) as (-> & Ec & _ & (Es & Em & _)).
      unfold built. rewrite Ec, Es, Em. by apply (H2 i).
    - intros i x (p & Hp & ->)%Hl. destruct (reparent_fields k init p) as (-> & -> & -> & _). by apply H3.
    - intros i x j y (p & Hp & ->)%Hl Hw Hr (q & Hq & ->)%Hl Hz.
      destruct (reparent_fields k init p) as (Es & Ec & _). destruct (reparent_fields k init q) as (Es2 & _).
      assert (waiting p) as Hwp by (unfold waiting in *; by rewrite Es, Ec in Hw).
      rewrite Es2 in Hz. destruct (reparent_cases k init q) as [->|(-> & Hpar & _)]; [by eapply H4|].
      cbn. intros Hinit. apply Hr. unfold r.
      replace (existsb (zombie_child k) ps) with true; [done|]. symmetry. apply existsb_exists. exists q. split.
      + apply list_elem_of_In. by eapply list_elem_of_lookup_2.
      + by apply bool_decide_eq_true_2. }
  unfold r in Hbut. destruct (existsb _ _).
  - destruct init as [i|]; [|by apply slots_ok_but_none]. cbn. eapply slots_wake; [exact Hbut|]. by intros ? [= ->].
  - by apply slots_ok_but_none.
Qed.

Lemma adopt_relate k init ps :
  Forall2 (λ p q, same_resources p q ∧ (state q = Unused → state p = Unused) ∧ (state q = Running → state p = Running))
    ps (adopt k init ps).
Proof.
  rewrite adopt_unfold. assert (∀ f : Process → Process, (∀ p, same_resources p (f p) ∧
    (state (f p) = Unused → state p = Unused) ∧ (state (f p) = Running → state p = Running)) →
    Forall2 (λ p q, same_resources p q ∧ (state q = Unused → state p = Unused) ∧ (state q = Running → state p = Running)) ps (f <$> ps)) as Hf.
  { intros f Hf. apply Forall2_fmap_r, Forall_Forall2_diag, Forall_true. exact Hf. }
  assert (∀ p, same_resources p (reparent k init p) ∧ (state (reparent k init p) = Unused → state p = Unused) ∧
    (state (reparent k init p) = Running → state p = Running)) as Hr.
  { intros p. destruct (reparent_fields k init p) as (-> & _ & _ & ?). auto. }
  destruct (existsb _ _); [|by apply Hf]. destruct init as [i|]; [|by apply Hf]. cbn. rewrite <- list_fmap_compose.
  apply Hf. intros p. cbn. rewrite !(wake_state _ _ Unused), !(wake_state _ _ Running) by done.
  destruct (Hr p) as (Hres & Hr1 & Hr2). split; [|done].
  by destruct (wake_cases (CProcess i) (reparent k (Some i) p)) as [[-> _]|[-> _]].
Qed.

(** ** exit *)
Definition ended (status : Z) (p : Process) : Process :=
  set_state Zombie (set_exit status (set_files (replicate NUM_OPEN_FILES None) p)).

(** The table before the processor is given away. *)
Definition exit_table (status : Z) k p s : list Process :=
  adopt k (init_proc s) (wake_opt (parent p) (<[k := ended status p]> (procs s))).

Lemma slots_ended status k p ps :
  slots_ok ps → ps !! k = Some p → state p = Running →
  slots_ok (wake_opt (parent p) (<[k := ended status p]> ps)).
Proof.
  intros Hok Hp Hr. pose proof Hok as [H1 H2 H3 H4].
  assert (slots_ok_but (parent p) (<[k := ended status p]> ps)) as Hbut.
  { split; [|split; [|split]].
    - intros i x [(_ & <- & _)|(_ & Hx)]%list_lookup_insert_Some; [done|eauto].
    - intros i x [(_ & <- & _)|(_ & Hx)]%list_lookup_insert_Some; [|eauto]. intros _. apply (H2 k p Hp). congruence.
    - intros i x [(_ & <- & _)|(_ & Hx)]%list_lookup_insert_Some; [done|by apply H3].
    - intros i x j y [(_ & <- & _)|(_ & Hx)]%list_lookup_insert_Some Hw Hne; [by destruct Hw|].
      intros [(_ & <- & _)|(_ & Hy)]%list_lookup_insert_Some Hz; [cbn; congruence|by eapply H4]. }
  destruct (parent p) as [r|] eqn:Ep; [|by apply slots_ok_but_none].
  eapply slots_wake; [exact Hbut|]. by intros ? [= ->].
Qed.

Lemma wp_exit status s k p (Q : Control → Kernel E → Prop) :
  table_ok s → current s = Some k → procs s !! k = Some p →
  (∀ c s' e, table_ok s' → svc_ok e →
    switched (set_env e (set_procs (exit_table status k p s) s)) (Some k) None c s' → Q c s') →
  wp (exit status) s Q.
Proof.
  intros Hok Hc Hp HQ. destruct (to_current _ Hok k Hc) as (p' & Hp' & Hr). assert (p' = p) as -> by congruence.
  pose proof (to_slots _ Hok) as Hsl. unfold exit. do 2 wp_step. rewrite Hc. wp_step.
  apply (wp_close_all_files k p); [apply Hok|done|congruence|]. set (p1 := set_files _ p). intros e Ha1 _.
  do 2 (wp_step; eapply wp_modify_process; [exact Hp|]). fold (ended status p). wp_step.
  assert (accounts_ok (with_slot s k (ended status p) e)) as Ha2.
  { rewrite <- (with_slot_twice s k p1 (ended status p) e e). apply (accounts_slot_same (with_slot s k p1 e) k p1);
      [exact Ha1|by eapply with_slot_lookup|done|done]. }
  eapply wp_proc; [by eapply with_slot_lookup|]. wp_step. apply wp_wake_opt; [apply Ha2|].
  set (s2 := set_procs _ (with_slot s k _ e)).
  assert (s2 = set_env e (set_procs (wake_opt (parent p) (<[k := ended status p]> (procs s))) s)) as E2 by done.
  clearbody s2. subst s2. wp_step.
  assert (accounts_ok (set_env e (set_procs (wake_opt (parent p) (<[k := ended status p]> (procs s))) s))) as Ha3.
  { destruct (parent p) as [r|]; [|exact Ha2]. by apply (accounts_wake _ (CProcess r)) in Ha2. }
  apply wp_reparent_loop; [apply Ha3|done|]. fold (exit_table status k p s).
  assert (slots_ok (exit_table status k p s)) as Hsl1 by (apply slots_adopt; by apply slots_ended).
  pose proof (adopt_relate k (init_proc s) (wake_opt (parent p) (<[k := ended status p]> (procs s)))) as Hrel.
  assert (svc_ok e) as He by apply Ha1. eapply (wp_zombie_ok _ k); [|intros c s' ??; by eapply HQ].
  split.
  - apply (accounts_relate _ (exit_table status k p s) e) in Ha3; [exact Ha3|done|done|].
    eapply Forall2_impl; [exact Hrel|]. by intros ?? (? & ? & _).
  - apply Hok.
  - done.
  - intros j [= <-]. by eapply current_lt.
  - intros _. apply Hok. congruence.
  - done.
  - intros j q Hq Hrq. destruct (Forall2_lookup_r _ _ _ _ _ Hrel Hq) as (x & Hx & (_ & _ & Hrun)). specialize (Hrun Hrq).
    assert (none_running (wake_opt (parent p) (<[k := ended status p]> (procs s)))) as Hn; [|by eapply Hn].
    assert (none_running (<[k := ended status p]> (procs s))) as Hn by by eapply none_running_stop.
    destruct (parent p); [by apply none_running_wake|done].
  - apply Hsl1.
  - exact Hsl1.
Qed.

(** ** wait *)

(** The children of [c] that have not been reaped. *)
Definition is_child (c : option nat) (q : Process) : Prop := state q ≠ Unused ∧ parent q = c.

Lemma wp_wait_scan n i b s (Q : nat + bool → Kernel E → Prop) :
  (i + n = length (procs s))%nat →
  (∀ j q, (i <= j)%nat → procs s !! j = Some q → is_child (current s) q → state q = Zombie →
    (∀ j' q', (i <= j' < j)%nat → procs s !! j' = Some q' → ¬ (is_child (current s) q' ∧ state q' = Zombie)) → Q (inl j) s) →
  ((∀ j q, (i <= j)%nat → procs s !! j = Some q → is_child (current s) q → state q ≠ Zombie) →
    ∀ b', (b' = true ↔ b = true ∨ ∃ j q, (i <= j)%nat ∧ procs s !! j = Some q ∧ is_child (current s) q) → Q (inr b') s) →
  wp (wait_scan n i b) s Q.
Proof.
  revert i b. induction n as [|n IH]; intros i b Hn Hin Hout; cbn [wait_scan].
  { wp_step. apply Hout.
    - intros j q Hj Hq. apply lookup_lt_Some in Hq. lia.
    - split; [by left|]. intros [?|(j & q & Hj & Hq & _)]; [done|]. apply lookup_lt_Some in Hq. lia. }
  destruct (lookup_lt_is_Some_2 (procs s) i) as [p Hp]; [lia|]. wp_step. eapply wp_proc; [exact Hp|]. do 2 wp_step.
  assert (∀ b1, ¬ (is_child (current s) p ∧ state p = Zombie) →
    (b1 = true ↔ b = true ∨ is_child (current s) p) → wp (wait_scan n (S i) b1) s Q) as Hnext.
  { intros b1 Hnz Hb1. apply IH; [lia| |].
    - intros j q Hj Hq Hch Hz Hfirst. apply (Hin j q); [lia|done..|]. intros j' q' Hj' Hq'.
      destruct (decide (j' = i)) as [->|]; [congruence|]. apply (Hfirst j'); [lia|done].
    - intros Hno b' Hb'. apply Hout.
      + intros j q Hj Hq Hch Hz. destruct (decide (j = i)) as [->|]; [apply Hnz; split; congruence|]. by apply (Hno j q); [lia|..].
      + rewrite Hb', Hb1. split.
        * intros [[?|?]|(j & q & Hj & ?)]; [by left|right; by exists i, p|right; exists j, q; split; [lia|done]].
        * intros [?|(j & q & Hj & Hq & Hch)]; [by left; left|]. destruct (decide (j = i)) as [->|].
          { left. right. congruence. } right. exists j, q. split; [lia|done]. }
  destruct (decide (state p = Unused)) as [Hu|Hu].
  { apply Hnext; unfold is_child; naive_solver. }
  destruct (decide (parent p ≠ current s)) as [Hpar|Hpar%dec_stable].
  { apply Hnext; unfold is_child; naive_solver. }
  destruct (decide (state p = Zombie)) as [Hz|Hz].
  - wp_step. apply (Hin i p); [done..|]. intros j' q' Hj'. lia.
  - apply Hnext; unfold is_child; naive_solver.
Qed.

(** Reaping a child that has ended. *)
Lemma table_ok_free s i q e :
  table_ok s → procs s !! i = Some q → state q ≠ Running → accounts_ok (with_slot s i (freed q) e) →
  table_ok (with_slot s i (freed q) e).
Proof.
  intros Hok Hq Hz Ha. split; cbn.
  - done.
  - apply Hok.
  - eapply slots_change_live; [apply Hok|exact Hq|cbn; auto|done].
  - intros k Hk. destruct (to_current _ Hok k Hk) as (p & Hp & Hr). exists p. split; [|done].
    rewrite list_lookup_insert_ne; [done|]. intros ->. congruence.
  - intros j x [(_ & <- & _)|(_ & Hx)]%list_lookup_insert_Some Hrx; [done|]. by eapply to_running.
  - apply Hok.
Qed.

(** What one turn of [wait] does: it reaps the first child that has ended; it
    tells that there is no child; or it sleeps until a child ends. *)
Inductive wait_post s : wait_result → Kernel E → Prop :=
| wait_reaped i q e :
    procs s !! i = Some q → is_child (current s) q → state q = Zombie →
    (∀ j x, (j < i)%nat → procs s !! j = Some x → ¬ (is_child (current s) x ∧ state x = Zombie)) →
    table_ok (with_slot s i (freed q) e) →
    wait_post s (Reaped (pid q) (exit_status q)) (with_slot s i (freed q) e)
| wait_none :
    (∀ j x, procs s !! j = Some x → ¬ is_child (current s) x) → wait_post s NoChild s
| wait_asleep k p next s' :
    current s = Some k → procs s !! k = Some p → (∃ j x, procs s !! j = Some x ∧ is_child (Some k) x) →
    no_zombie_child (procs s) k → table_ok s' →
    switched (set_procs (<[k := slept (CProcess k) p]> (procs s)) s) (Some k) (Some AtWait) (SwitchTo next) s' →
    wait_post s (Asleep (SwitchTo next)) s'.

(** A store that only touches memory behind the services. *)
Definition stores (store : Z → M (Kernel E) ()) s : Prop := ∀ code,
  wp (store code) s (λ _ s', ∃ e, s' = set_env e s ∧ svc_ok e ∧ holds_same held (env s) e).

Lemma accounts_env s e : accounts_ok s → svc_ok e → holds_same held (env s) e → accounts_ok (set_env e s).
Proof.
  intros [H1 H2 H3 H4 H5 H6] He Hh. split; cbn; [done..|intros r Hr; by rewrite Hh, H5|].
  intros k p Hc Hp. destruct (H6 k p Hc Hp) as [Hu Ha]. split; [done|]. intros a. rewrite Hh. apply Ha.
Qed.

Lemma table_ok_env s e : table_ok s → svc_ok e → holds_same held (env s) e → table_ok (set_env e s).
Proof. intros [H1 H2 H3 H4 H5 H6] He Hh. split; [by apply accounts_env|done..]. Qed.

Lemma wp_store_opt out code s (Q : () → Kernel E → Prop) :
  accounts_ok s → match out with Some store => stores store s | None => True end →
  (∀ e, svc_ok e → holds_same held (env s) e → Q () (set_env e s)) →
  wp (match out with Some store => store code | None => mret () end) s Q.
Proof.
  intros Hok Hout HQ. destruct out as [store|].
  - eapply wp_mono; [apply Hout|]. intros [] s' (e & -> & He & Hh). by apply HQ.
  - wp_step. replace s with (set_env (env s) s) by by destruct s. apply HQ; [apply Hok|done].
Qed.

Lemma wp_wait_turn_to out s (Q : wait_result → Kernel E → Prop) :
  table_ok s → current s ≠ None → match out with Some store => stores store s | None => True end →
  (∀ r s', wait_post s r s' → Q r s') → wp (wait_turn_to out) s Q.
Proof.
  intros Hok Hcur Hout HQ. unfold wait_turn_to. wp_step. apply wp_wait_scan; [by rewrite (to_length _ Hok)| |].
  - intros i q _ Hq Hch Hz Hfirst. wp_step. eapply wp_proc; [exact Hq|]. cbn zeta. wp_step.
    apply wp_store_opt; [apply Hok|done|]. intros e1 He1 Hh1. wp_step. pose proof (table_ok_env s e1 Hok He1 Hh1) as Hok1.
    assert (current s ≠ Some i) as Hci.
    { intros Hc. destruct (to_current _ Hok i Hc) as (x & Hx & Hr). congruence. }
    apply (wp_free_process_resources i q (set_env e1 s)); [apply Hok1|done|congruence|done| |].
    { intros a Hpm. destruct (current s) as [k|] eqn:Hc; [|done]. apply (space_idle (set_env e1 s) k i q a Hok1); [done|congruence|done|done]. }
    intros e Ha. wp_step.
    change (with_slot (set_env e1 s) i (freed q) e) with (with_slot s i (freed q) e) in *.
    apply HQ. apply wait_reaped; [done|done|done| |by apply table_ok_free; [..|congruence|]].
    intros j x Hj. apply Hfirst. lia.
  - intros Hno b Hb. destruct b.
    + destruct Hb as [Hb _]. destruct (Hb eq_refl) as [?|(j & x & _ & Hx & Hch)]; [done|]. do 2 wp_step. wp_step.
      destruct (current s) as [k|] eqn:Hc; [|done].
      destruct (to_current _ Hok k Hc) as (p & Hp & _).
      { assert (no_zombie_child (procs s) k) as Hnz.
        { intros i q Hq Hz Hpar. apply (Hno i q); [lia|done| |done]. split; congruence. }
        apply (wp_sleep s (CProcess k) AtWait k p); [done|done|done|by right|]. intros next s' Hok' Hsw. wp_step.
        apply HQ. eapply wait_asleep; eauto. }
    + wp_step. apply HQ. apply wait_none. intros j x Hx Hch. destruct Hb as [_ Hb]. discriminate Hb.
      right. exists j, x. split; [lia|done].
Qed.

Lemma wp_wait_turn s (Q : wait_result → Kernel E → Prop) :
  table_ok s → current s ≠ None → (∀ r s', wait_post s r s' → Q r s') → wp wait_turn s Q.
Proof. intros Hok Hc. by apply (wp_wait_turn_to None). Qed.

Lemma wait_post_ok s r s' : table_ok s → wait_post s r s' → table_ok s'.
Proof. by intros Hok []. Qed.
End exit.
