(* ===== verification/ProcessFork.v ===== *)
(** * Creating processes

    What [create_process] and [fork] do: the new process, with what it shares and
    what it copies, and that nothing is left over when they fail. *)
From stdpp Require Import gmap.
From S2P Require Import Prelude Kstring Process ProcessSpec ProcessSched ProcessTable ProcessOps.

Section fork.
Context {E : Type} `{HE : Services E} `{HS : !ServicesSpec E}.
Implicit Types (s : Kernel E) (ps : list Process) (k i j : nat).

(** A slot that was not used becomes a process, or is given back. *)
Lemma table_ok_new s k p q e :
  table_ok s → procs s !! k = Some p → state p = Unused →
  (state q = Unused ∨ state q = Runnable ∧ built q) →
  accounts_ok (with_slot (took_pid s) k q e) → table_ok (with_slot (took_pid s) k q e).
Proof.
  intros Hok Hp Hu Hq Ha. split; cbn.
  - done.
  - pose proof (to_pid _ Hok). lia.
  - eapply slots_change_live; [apply Hok|exact Hp|tauto|]. intros ?. destruct Hq as [?|[_ ?]]; [done|done].
  - intros j Hj. destruct (to_current _ Hok j Hj) as (x & Hx & Hr). exists x. split; [|done].
    rewrite list_lookup_insert_ne; [done|]. intros ->. congruence.
  - intros j x [(_ & <- & _)|(_ & Hx)]%list_lookup_insert_Some Hr; [|by eapply to_running].
    destruct Hq as [Hq|[Hq _]]; congruence.
  - apply Hok.
Qed.

Lemma table_ok_memory s m : table_ok s → table_ok (set_memory m s).
Proof. intros [[H1 H2 H3 H4 H5 H6] H7 H8 H9 H10 H11]. split; [by split|done..]. Qed.

(** Giving back a slot that was being prepared leaves nothing behind. *)
Lemma freed_balance s k p q e :
  accounts_ok s → procs s !! k = Some p → state p = Unused →
  accounts_ok (with_slot (took_pid s) k (freed q) e) → owns_same held (env s) e.
Proof.
  intros Ha Hp Hu Ha' r Hr. rewrite (ao_balance _ Ha) by done. pose proof (ao_balance _ Ha' r Hr) as Hb.
  cbn [env procs with_slot set_env set_procs took_pid set_next_pid] in Hb. rewrite Hb.
  rewrite (total_uses_insert r _ k p) by done. rewrite (uses_unused s k p r) by done.
  replace (uses r (freed q)) with 0 by by destruct r. lia.
Qed.

(** ** Files of the new process *)

(** What the file services return. *)
Definition new_file (e : E) (f : option nat) (e' : E) : Prop :=
  match f with Some f => holds_more held e e' 1 (OpenFile f) | None => holds_same held e e' end.

Definition put_file (fd : nat) (f : option nat) (p : Process) : Process := set_files (<[fd := f]> (files p)) p.

Lemma accounts_new_file s k p fd f e e' :
  accounts_ok (with_slot s k p e) → is_Some (procs s !! k) → state p ≠ Unused → files p !! fd = Some None →
  svc_ok e' → new_file e f e' → accounts_ok (with_slot s k (put_file fd f p) e').
Proof.
  intros Ha [p0 Hp0] Hu Hfd He Hf. rewrite <- (with_slot_twice s k p (put_file fd f p) e e').
  pose proof (with_slot_lookup s k p0 p e Hp0) as Hp.
  eapply accounts_with_slot; [exact Ha|exact Hp|done| |done| |intros _; split; [done|by left]].
  - cbn. rewrite length_insert. by eapply (ao_files _ Ha).
  - intros r Hr. change (env (with_slot s k p e)) with e.
    assert (uses r (put_file fd f p) = uses r p + match f with Some g => one (OpenFile g) r | None => 0 end) as ->.
    { destruct r as [b|a|g|a|a].
      4,5: cbn; destruct f; [unfold one; rewrite decide_False by done|]; lia.
      1: change (uses (Stack b) (put_file fd f p)) with (uses (Stack b) p).
      2: change (uses (Space a) (put_file fd f p)) with (uses (Space a) p).
      1,2: destruct f; [unfold one; rewrite decide_False by done|]; lia.
      change (fd_uses g (<[fd := f]> (files p)) = fd_uses g (files p) + match f with Some h => one (OpenFile h) (OpenFile g) | None => 0 end).
      rewrite (fd_uses_insert g _ fd None f Hfd).
      rewrite (decide_False (P := None = Some g)) by done. destruct f as [h|]; [|one_lia].
      unfold one. destruct (decide (h = g)) as [->|Hne]; [rewrite !decide_True by done; lia|]. rewrite !decide_False by congruence. lia. }
    destruct f as [g|]; cbn in Hf; rewrite Hf; lia.
Qed.

Lemma wp_put_file k p0 fd f p s e (Q : () → Kernel E → Prop) :
  procs s !! k = Some p0 → Q () (with_slot s k (put_file fd f p) e) →
  wp (modify_proc k (λ p, set_files (<[fd := f]> (files p)) p)) (with_slot s k p e) Q.
Proof. intros Hp HQ. eapply wp_modify_process; [exact Hp|exact HQ]. Qed.

(** Only open files have been handed out or taken back. *)
Definition files_only (e e' : E) : Prop := ∀ r, (∀ f, r ≠ OpenFile f) → held e' r = held e r.
Lemma new_file_only e f e' : new_file e f e' → files_only e e'.
Proof. intros Hf r Hr. destruct f as [f|]; cbn in Hf; rewrite Hf; [unfold one; rewrite decide_False by (intros <-; by eapply Hr)|]; lia. Qed.
Lemma files_only_trans e1 e2 e3 : files_only e1 e2 → files_only e2 e3 → files_only e1 e3.
Proof. intros H12 H23 r Hr. by rewrite H23, H12. Qed.

(** The two files of the console, or that one of them is refused. *)
Definition opened (e : E) (f0 f1 : option nat) (e' : E) : Prop :=
  ∃ e1, file_open_console true false e = Some (f0, e1) ∧ file_open_console false true e1 = Some (f1, e').

Lemma wp_open_console_files s k p0 p e (Q : bool → Kernel E → Prop) :
  procs s !! k = Some p0 → accounts_ok (with_slot s k p e) → state p ≠ Unused → files p = replicate NUM_OPEN_FILES None →
  (∀ f0 f1 e', let q := put_file 1 f1 (put_file 0 f0 p) in
    opened e f0 f1 e' → f0 = None ∨ f1 = None → accounts_ok (with_slot s k q e') → files_only e e' → Q false (with_slot s k q e')) →
  (∀ f0 f1 e', let q := set_files ([Some f0; Some f1; Some f1] ++ replicate 13 None) p in
    accounts_ok (with_slot s k q e') → Q true (with_slot s k q e')) →
  wp (open_console_files k) (with_slot s k p e) Q.
Proof.
  intros Hp0 Ha Hu Hfiles Hfail Hdone. assert (is_Some (procs s !! k)) as Hsm by by rewrite Hp0.
  unfold open_console_files. wp_step. apply wp_service. eapply wp_mono; [apply wp_ran, file_open_console_spec, Ha|].
  cbn beta. intros f0 e1 (Hrun0 & He1 & Hf0). rewrite with_slot_env. change (env (with_slot s k p e)) with e in Hf0.
  assert (new_file e f0 e1) as Hnew0 by (destruct f0; [apply Hf0|exact Hf0]).
  assert (accounts_ok (with_slot s k (put_file 0 f0 p) e1)) as Ha1 by (eapply accounts_new_file; [exact Ha|done|done|by rewrite Hfiles|done|done]).
  wp_step. eapply wp_put_file; [exact Hp0|]. wp_step. apply wp_service.
  eapply wp_mono; [apply wp_ran, file_open_console_spec, Ha1|]. cbn beta. intros f1 e2 (Hrun1 & He2 & Hf1). rewrite with_slot_env.
  change (env (with_slot s k (put_file 0 f0 p) e1)) with e1 in Hf1.
  assert (new_file e1 f1 e2) as Hnew1 by (destruct f1; [apply Hf1|exact Hf1]).
  assert (accounts_ok (with_slot s k (put_file 1 f1 (put_file 0 f0 p)) e2)) as Ha2.
  { eapply accounts_new_file; [exact Ha1|done|done|cbn; by rewrite Hfiles|done|done]. }
  assert (files_only e e2) as Honly by (eapply files_only_trans; by eapply new_file_only).
  wp_step. eapply wp_put_file; [exact Hp0|].
  destruct f0 as [f0|]; [|wp_step; apply Hfail; [by exists e1|by left|done|done]].
  destruct f1 as [f1|]; [|wp_step; apply Hfail; [by exists e1|by right|done|done]]. set (q := put_file 1 (Some f1) _) in *.
  wp_step. apply wp_service. eapply wp_mono.
  { apply (file_duplicate_spec _ (Some f1)); [apply Ha2|]. split; [|apply (held_file_bound _ f1 Ha2)].
    eapply (held_pos _ k q); [exact Ha2|by eapply with_slot_lookup|].
    apply (fd_uses_pos f1 _ 1). cbn. by rewrite Hfiles. }
  cbn beta. intros f2 e3 (-> & He3 & Hf2). rewrite with_slot_env. change (env (with_slot s k q e2)) with e2 in Hf2.
  assert (accounts_ok (with_slot s k (put_file 2 (Some f1) q) e3)) as Ha3.
  { eapply accounts_new_file; [exact Ha2|done|done|cbn; by rewrite Hfiles|done|exact Hf2]. }
  wp_step. eapply wp_put_file; [exact Hp0|]. wp_step.
  replace (put_file 2 (Some f1) q) with (set_files ([Some f0; Some f1; Some f1] ++ replicate 13 None) p) in *.
  - by apply Hdone.
  - unfold put_file, q, put_file, set_files. cbn. by rewrite Hfiles.
Qed.

(** The counts of the files a list of descriptors refers to, each one up. *)
Fixpoint duplicated (l : list (option nat)) (e e' : E) : Prop :=
  match l with
  | [] => e' = e
  | f :: l => ∃ f' e1, file_duplicate f e = Some (f', e1) ∧ duplicated l e1 e'
  end.

Lemma wp_duplicate_files s n fd i k pi p0 p e (Q : () → Kernel E → Prop) :
  procs s !! i = Some pi → procs s !! k = Some p0 → i ≠ k → state p ≠ Unused → (fd + n = NUM_OPEN_FILES)%nat →
  accounts_ok (with_slot s k p e) → files p = take fd (files pi) ++ replicate n None →
  (∀ e', let q := set_files (files pi) p in accounts_ok (with_slot s k q e') → files_only e e' → duplicated (drop fd (files pi)) e e' → Q () (with_slot s k q e')) →
  wp (duplicate_files n fd i k) (with_slot s k p e) Q.
Proof.
  intros Hi Hp0 Hik. assert (is_Some (procs s !! k)) as Hsm by by rewrite Hp0.
  revert fd p e. induction n as [|n IH]; intros fd p e Hu Hn Ha Hfiles HQ; cbn [duplicate_files].
  all: assert (procs (with_slot s k p e) !! i = Some pi) as Hi' by (cbn; by rewrite list_lookup_insert_ne).
  all: pose proof (ao_files _ Ha _ _ Hi') as Hlen.
  { wp_step. rewrite app_nil_r, take_ge in Hfiles by lia. cbn zeta in HQ. rewrite <- Hfiles in HQ.
    replace (set_files (files p) p) with p in HQ by by destruct p. apply HQ; [done|done|]. rewrite Hfiles, drop_ge by lia; done. }
  destruct (lookup_lt_is_Some_2 (files pi) fd) as [f Hf]; [lia|].
  wp_step. eapply wp_proc; [exact Hi'|]. wp_step. eapply wp_defined; [exact Hf|]. wp_step. apply wp_service.
  eapply wp_mono.
  { apply wp_ran, file_duplicate_spec; [apply Ha|]. destruct f as [f|]; [|done]. split; [|apply (held_file_bound _ f Ha)].
    eapply (held_pos _ i pi); [exact Ha|exact Hi'|]. by apply (fd_uses_pos f _ fd). }
  cbn beta. intros f' e1 (Hrun & -> & He1 & Hf1). rewrite with_slot_env. change (env (with_slot s k p e)) with e in Hf1.
  assert (files p !! fd = Some None) as Hfd.
  { rewrite Hfiles, lookup_app_r; rewrite length_take; [|lia]. replace (fd - fd `min` _)%nat with 0%nat by lia. done. }
  wp_step. eapply wp_put_file; [exact Hp0|]. eapply IH; [done|lia| | |].
  - eapply accounts_new_file; [exact Ha|done|done|done|done|exact Hf1].
  - cbn [files put_file set_files]. rewrite Hfiles, (take_S_r _ _ _ Hf), insert_app_r_alt; rewrite length_take; [|lia].
    replace (fd - fd `min` _)%nat with 0%nat by lia. cbn. by rewrite <- app_assoc.
  - intros e'. cbn zeta. intros Ha' Honly Hdup. apply (HQ e' Ha'); [eapply files_only_trans; [by eapply new_file_only|exact Honly]|].
    rewrite (drop_S _ _ _ Hf). by exists f, e1.
Qed.

(** ** create_process *)

(** The new process, ready to enter [trampoline], on the stack [b] in the address
    space [a]; its descriptors 0, 1 and 2 are the console. *)
Definition created p n b a f0 f1 (en : option Z) (arg : Z) nm : Process :=
  mkProcess n Runnable
    (Placed (u64 (u64 (b + KERNEL_STACK_SIZE) - sizeof_ProcessContext)) (mkContext 0 0 0 0 0 0 trampoline_address))
    (Some b) en arg nm (Some a) None None (exit_status p) None
    ([Some f0; Some f1; Some f1] ++ replicate 13 None).

Definition refused_console (e : E) : Prop :=
  denied e ∨ ∃ b a e1 f0 f1 e2, granted e b a e1 ∧ opened e1 f0 f1 e2 ∧ (f0 = None ∨ f1 = None).

(** It takes the first free slot and the next pid; when it is refused a stack, an
    address space or the console, everything it has taken is given back. *)
Inductive create_post s en t rest arg : option nat → Kernel E → Prop :=
| create_full : (∀ k p, procs s !! k = Some p → state p ≠ Unused) → create_post s en t rest arg None s
| create_failed k p q e :
    first_free s k p → refused_console (env s) → owns_same held (env s) e →
    create_post s en t rest arg None (with_slot (took_pid s) k (freed q) e)
| create_done k p n b a f0 f1 e :
    first_free s k p → (∃ e1, granted (env s) b a e1) → assign 16 (c_string t rest) (name p) = Some n →
    create_post s en t rest arg (Some k) (with_slot (took_pid s) k (created p (next_pid s) b a f0 f1 en arg n) e).

Lemma wp_free_embryo s k p0 q e (Q : option nat → Kernel E → Prop) :
  table_ok s → procs s !! k = Some p0 → state p0 = Unused → state q ≠ Unused →
  accounts_ok (with_slot (took_pid s) k q e) → (∀ a, pml4 q = Some a → held e (Active a) = 0) →
  (∀ e', table_ok (with_slot (took_pid s) k (freed q) e') → owns_same held (env s) e' →
    Q None (with_slot (took_pid s) k (freed q) e')) →
  wp (_ ← free_process_resources k; mret None) (with_slot (took_pid s) k q e) Q.
Proof.
  intros Hok Hp Hu Hq Ha Hidle HQ. wp_step.
  eapply wp_free_process_resources; [exact Ha|by eapply with_slot_lookup|done|exact (accounts_current s k p0 (to_accounts _ Hok) Hp Hu)|done|].
  intros e' Ha'. rewrite with_slot_twice in *. wp_step. apply HQ.
  - apply (table_ok_new s k p0); [done|done|done|by left|done].
  - apply (freed_balance s k p0 q e'); [apply Hok|done|done|done].
Qed.

Lemma wp_create_process s en t rest arg (Q : option nat → Kernel E → Prop) :
  table_ok s → next_pid s < INT_MAX → (0 ∉ t) →
  (∀ r s', table_ok s' → create_post s en t rest arg r s' → Q r s') →
  wp (create_process en (t ++ 0 :: rest) arg) s Q.
Proof.
  intros Hok Hpid Ht HQ. pose proof (to_pid _ Hok). unfold create_process. wp_step.
  apply wp_allocate_process; [apply Hok|lia|..].
  { intros Hfull. wp_step. apply HQ; [done|by constructor]. }
  { intros k p e Hfree Hden Ha Hh. wp_step. apply HQ; [|by econstructor; [exact Hfree|left|]]. destruct Hfree as (Hp & Hu & _).
    apply (table_ok_new s k p); [done|done|done|by left|done]. }
  intros k p b a e Hfree Hgr. cbn zeta. intros Ha (Hidle & _ & _). pose proof Hfree as (Hp & Hu & _). assert (procs (took_pid s) !! k = Some p) as Hp1 by done.
  wp_step. eapply wp_open_console_files; [exact Hp1|exact Ha|done|done|..].
  { intros f0 f1 e1. cbn zeta. intros Hopen Hnone Ha1 Honly. cbn [negb]. eapply wp_free_embryo; [done|exact Hp|done|done|exact Ha1| |].
    { cbn. intros a' [= <-]. by rewrite Honly. }
    intros e2 Hok2 Hh2. apply HQ; [done|]. econstructor; [exact Hfree| |done]. right. by exists b, a, e, f0, f1, e1. }
  intros f0 f1 e1. cbn zeta. intros Ha1. cbn [negb]. wp_step. eapply wp_modify_process; [exact Hp1|]. wp_step.
  eapply wp_proc; [by eapply with_slot_lookup|]. destruct (assign_defined 16 t rest (name p) Ht) as [n Hn].
  wp_step. eapply wp_defined; [exact Hn|]. do 3 (wp_step; eapply wp_modify_process; [exact Hp1|]). wp_step.
  set (q := set_state Runnable _).
  assert (q = created p (next_pid s) b a f0 f1 en arg n) as -> by done.
  apply HQ; [|econstructor; [exact Hfree|by exists e|done]]. apply (table_ok_new s k p); [done|done|done|by right|].
  eapply accounts_same; [exact Ha1|by rewrite Hp1|apply Ha1|done|done|done].
Qed.

(** ** fork *)

(** What the child has from its parent [pp] in slot [i], whatever its kind. *)
Definition forked p (pp : Process) i n b a ctx tf : Process :=
  mkProcess n Runnable ctx (Some b) (entry pp) (entry_arg pp) (name pp) (Some a) None (Some i) (exit_status p) tf (files pp).

(** The kernel stack of the child holds the bytes of its parent's. *)
Definition stack_copied (m m' : gmap Z Z) (dest src : Z) : Prop :=
  dest + KERNEL_STACK_SIZE <= src ∨ src + KERNEL_STACK_SIZE <= dest →
  ∀ x, m' !! x = if decide (dest <= x < dest + KERNEL_STACK_SIZE) then Some (default 0 (m !! (src + (x - dest)))) else m !! x.

(** What the child is given, with its share of the open files of its parent; and
    that something is refused: the stack, the address space or, for a user process,
    the memory for the copies of its pages. *)
Definition granted_files (pp : Process) (e : E) (b a : Z) (e' : E) : Prop :=
  ∃ e1, granted e b a e1 ∧ duplicated (files pp) e1 e'.
Definition refused_child (pp : Process) (e : E) : Prop :=
  denied e ∨ trap_frame pp ≠ None ∧ ∃ b a e1 e2, granted_files pp e b a e1 ∧
    copy_user_pages (pml4 pp) (Some a) e1 = Some (false, e2).

(** The saved context of a forked kernel thread lies on the child's stack where
    it lies on the parent's; a user process goes on behind [fork_return] with a
    copy of the trap frame in which rax is 0. *)
Inductive fork_post s snap (caller_rsp : Z) i (pp : Process) : Z → Kernel E → Prop :=
| fork_full : (∀ k p, procs s !! k = Some p → state p ≠ Unused) → fork_post s snap caller_rsp i pp (-1) s
| fork_failed k p q e :
    first_free s k p → refused_child pp (env s) → owns_same held (env s) e →
    fork_post s snap caller_rsp i pp (-1) (with_slot (took_pid s) k (freed q) e)
| fork_user_done k p b a e1 e at_ tf :
    first_free s k p → granted_files pp (env s) b a e1 → copy_user_pages (pml4 pp) (Some a) e1 = Some (true, e) →
    trap_frame pp = Some (at_, tf) →
    let frame := u64 (b + KERNEL_STACK_SIZE - sizeof_UserForkFrame) in
    fork_post s snap caller_rsp i pp (next_pid s) (with_slot (took_pid s) k
      (forked p pp i (next_pid s) b a (Placed frame (mkContext 0 0 0 0 0 0 fork_return_address))
        (Some (u64 (frame + sizeof_ProcessContext), set_rax 0 tf))) e)
| fork_kernel_done k p b pb a e m :
    first_free s k p → granted_files pp (env s) b a e → trap_frame pp = None → kernel_stack pp = Some pb →
    stack_copied (memory s) m b pb →
    fork_post s snap caller_rsp i pp (next_pid s) (set_memory m (with_slot (took_pid s) k
      (forked p pp i (next_pid s) b a
        (Placed (u64 (u64 (b + u64 (caller_rsp - pb)) - sizeof_ProcessContext)) snap) None) e)).

Lemma wp_copy_stack n dest src (i : Z) s (Q : () → Kernel E → Prop) :
  (∀ m, ((∀ x y, i <= x < i + Z.of_nat n → i <= y < i + Z.of_nat n → dest + x ≠ src + y) → ∀ x, m !! x =
      if decide (dest + i <= x < dest + i + Z.of_nat n) then Some (default 0 (memory s !! (src + (x - dest)))) else memory s !! x) →
    Q () (set_memory m s)) → wp (copy_stack n dest src i) s Q.
Proof.
  revert i s. induction n as [|n IH]; intros i s HQ; cbn [copy_stack].
  { wp_step. replace s with (set_memory (memory s) s) by by destruct s. apply HQ. intros _ x. rewrite decide_False by lia. done. }
  do 2 wp_step. do 2 wp_step. apply IH. intros m Hm. apply HQ. intros Hd x. rewrite Hm.
  2:{ intros y z Hy Hz. apply Hd; lia. }
  cbn [memory set_memory]. repeat case_decide; try lia.
  - rewrite lookup_insert_ne; [done|]. specialize (Hd i (x - dest)). lia.
  - assert (x = dest + i) as -> by lia. rewrite lookup_insert. rewrite decide_True by done. do 3 f_equal. lia.
  - rewrite lookup_insert_ne by lia. done.
Qed.

Lemma wp_modify_memory k p f s e m (Q : () → Kernel E → Prop) p0 :
  procs s !! k = Some p0 → Q () (set_memory m (with_slot s k (f p) e)) →
  wp (modify_proc k f) (set_memory m (with_slot s k p e)) Q.
Proof.
  intros Hp HQ. eapply wp_modify_proc; [cbn; apply list_lookup_insert_eq; by eapply lookup_lt_Some|].
  rewrite <- (with_slot_twice s k p (f p) e e) in HQ. exact HQ.
Qed.

Lemma wp_fork s snap caller_rsp i pp (Q : Z → Kernel E → Prop) :
  table_ok s → next_pid s < INT_MAX → current s = Some i → procs s !! i = Some pp →
  (∀ r s', table_ok s' → fork_post s snap caller_rsp i pp r s' → Q r s') → wp (fork snap caller_rsp) s Q.
Proof.
  intros Hok Hpid Hc Hi HQ. pose proof (to_pid _ Hok). destruct (to_current _ Hok i Hc) as (pp' & Hpp & Hrun). simplify_eq.
  unfold fork. do 2 wp_step. rewrite Hc. wp_step. apply wp_allocate_process; [apply Hok|lia|..].
  { intros Hfull. wp_step. apply HQ; [done|by constructor]. }
  { intros k p e Hfree Hden Ha Hh. wp_step. apply HQ; [|by econstructor; [exact Hfree|left|]]. destruct Hfree as (Hp & Hu & _).
    apply (table_ok_new s k p); [done|done|done|by left|done]. }
  intros k p b a e Hfree Hgr. cbn zeta. intros Ha (Hidle & Hempty & Hother). pose proof Hfree as (Hp & Hu & _). assert (procs (took_pid s) !! k = Some p) as Hp1 by done.
  assert (i ≠ k) as Hik by congruence. assert (is_Some (procs (took_pid s) !! k)) as Hsm by by rewrite Hp1.
  assert (∀ q e, procs (with_slot (took_pid s) k q e) !! i = Some pp) as Hpi by (intros q e1; cbn; by rewrite list_lookup_insert_ne).
  wp_step. eapply wp_proc; [apply Hpi|]. do 3 (wp_step; eapply wp_modify_process; [exact Hp1|]).
  wp_step. eapply wp_duplicate_files; [exact Hi|exact Hp1|done|done|done| |done|].
  { eapply accounts_same; [exact Ha|done|apply Ha|done|done|done]. }
  intros e1. cbn zeta. set (q := set_files (files pp) _). intros Ha1 Honly Hdup.
  assert (granted_files pp (env s) b a e1) as Hgf by by exists e.
  wp_step. eapply wp_proc; [by eapply with_slot_lookup|]. wp_step.
  eapply wp_defined; [change (kernel_stack q) with (Some b); reflexivity|].
  assert (∀ q' e', state q' = Runnable ∧ built q' → same_resources q q' → svc_ok e' → steady held e1 e' →
    table_ok (with_slot (took_pid s) k q' e')) as Hnew.
  { intros q' e' Hq' Hres He' Hh. apply (table_ok_new s k p); [done|done|done|by right|].
    eapply accounts_same; [exact Ha1|done|done|done|done|]. destruct Hq' as [-> _]. done. }
  destruct (trap_frame pp) as [[at_ tf]|] eqn:Etf.
  - unfold fork_user. wp_step. eapply wp_proc; [apply Hpi|]. wp_step. eapply wp_proc; [by eapply with_slot_lookup|].
    destruct (current_built s i pp Hok Hc Hi) as (_ & _ & Hpm). destruct (pml4 pp) as [src|] eqn:Esrc; [|done].
    wp_step. apply wp_service. change (pml4 q) with (Some a). eapply wp_mono.
    { apply wp_ran, copy_user_pages_spec; [apply Ha1|..].
      - eapply (space_held _ i pp); [exact Ha1|apply Hpi|exact Esrc].
      - eapply (space_held _ k q); [exact Ha1|by eapply with_slot_lookup|done].
      - intros ->. by apply (Hother i pp).
      - change (held e1 (Filled a) = 0). by rewrite Honly. }
    cbn beta. intros ok e2 (Hrun2 & He2 & Hh2).
    change (copy_user_pages (Some src) (Some a) e1 = Some (ok, e2)) in Hrun2. rewrite <- Esrc in Hrun2.
    change (env (with_slot (took_pid s) k q e1)) with e1 in Hh2. rewrite with_slot_env.
    destruct ok; cbn [negb].
    2:{ assert (accounts_ok (with_slot (took_pid s) k q e2)) as Ha2 by (by eapply accounts_same).
        wp_step. eapply wp_free_process_resources; [exact Ha2|by eapply with_slot_lookup|done|exact (accounts_current s k p (to_accounts _ Hok) Hp Hu)| |].
        { intros a' [= <-]. change (held e2 (Active a) = 0). rewrite Hh2 by done. by rewrite Honly. }
        intros e3 Ha3.
        rewrite with_slot_twice in *. wp_step. apply HQ; [apply (table_ok_new s k p); [done|done|done|by left|done]|].
        econstructor; [exact Hfree| |].
        { right. rewrite Etf. split; [done|]. by exists b, a, e1, e2. }
        apply (freed_balance s k p q e3); [apply Hok|done|done|done]. }
    rewrite Etf. wp_step. wp_step. cbn iota beta. do 3 (wp_step; eapply wp_modify_process; [exact Hp1|]).
    wp_step. eapply wp_proc; [by eapply with_slot_lookup|]. wp_step.
    apply HQ; [apply Hnew; [by repeat split|done|done|done]|].
    exact (fork_user_done s snap caller_rsp i pp k p b a e1 e2 at_ tf Hfree Hgf Hrun2 Etf).
  - destruct (current_built s i pp Hok Hc Hi) as (_ & Hst & _). destruct (kernel_stack pp) as [pb|] eqn:Epb; [|done].
    unfold fork_kernel. wp_step. eapply wp_proc; [apply Hpi|]. wp_step. eapply wp_defined; [exact Epb|].
    wp_step. apply wp_copy_stack. intros m Hm. do 2 wp_step.
    change (current (set_memory m (with_slot (took_pid s) k q e1))) with (current s). rewrite Hc, decide_False by congruence.
    do 2 (wp_step; eapply wp_modify_memory; [exact Hp1|]).
    wp_step. eapply wp_proc; [cbn; apply list_lookup_insert_eq; by eapply lookup_lt_Some|]. wp_step.
    apply HQ; [apply table_ok_memory, Hnew; [by repeat split|done|apply Ha1|done]|].
    apply (fork_kernel_done s snap caller_rsp i pp k p b pb a e1 m Hfree Hgf Etf Epb).
    intros Hd x. change (memory (with_slot (took_pid s) k q e1)) with (memory s) in Hm. rewrite Hm.
    + change (Z.of_nat (Z.to_nat KERNEL_STACK_SIZE)) with KERNEL_STACK_SIZE. by rewrite Z.add_0_r.
    + change (Z.of_nat (Z.to_nat KERNEL_STACK_SIZE)) with KERNEL_STACK_SIZE. lia.
Qed.
End fork.
