(* ===== verification/ProcessProps.v ===== *)
(** * Properties of processes

    Round robin without starvation, the handshake of [exit] and [wait], [fork] and
    [create_process], and the invariant of all reachable states: resources are
    neither lost nor shared, one process runs, and no wakeup of [wait] is lost. *)
From stdpp Require Import gmap.
From S2P Require Import Prelude Kstring Process ProcessSpec ProcessSched ProcessTable ProcessOps ProcessFork.

Section properties.
Context {E : Type} `{HE : Services E} `{HS : !ServicesSpec E}.
Implicit Types (s : Kernel E) (ps : list Process) (k i j : nat).

(** How far slot [k] is behind [prev] in the order of the search. *)
Definition distance (prev : option nat) (k : nat) : nat :=
  match prev with Some j => (if decide (j < k)%nat then k - j else 64 + k - j) | None => S k end.

Lemma distance_candidate prev k :
  (k < 64)%nat → (∀ j, prev = Some j → (j < 64)%nat) →
  (1 <= distance prev k <= 64)%nat ∧ candidate prev (distance prev k) = k.
Proof.
  intros Hk Hp. unfold distance, candidate, MAX_PROCESSES. destruct prev as [j|].
  - specialize (Hp j eq_refl). case_decide; (split; [lia|]).
    + replace (j + (k - j))%nat with k by lia. by apply Nat.mod_small.
    + replace (j + (64 + k - j))%nat with (k + 1 * 64)%nat by lia. rewrite Nat.Div0.mod_add. by apply Nat.mod_small.
  - split; [lia|]. replace (S k - 1)%nat with k by lia. by apply Nat.mod_small.
Qed.

Lemma candidate_distance prev o :
  (1 <= o <= 64)%nat → (∀ j, prev = Some j → (j < 64)%nat) → distance prev (candidate prev o) = o.
Proof.
  intros Ho Hp. unfold distance, candidate, MAX_PROCESSES. destruct prev as [j|].
  - specialize (Hp j eq_refl). destruct (decide (j + o < 64)%nat).
    + rewrite Nat.mod_small by lia. case_decide; lia.
    + replace (j + o)%nat with (j + o - 64 + 1 * 64)%nat by lia. rewrite Nat.Div0.mod_add, Nat.mod_small by lia.
      case_decide; lia.
  - rewrite Nat.mod_small by lia. lia.
Qed.

(** Behind the process that has been chosen, the ones not chosen come closer. *)
Lemma distance_decreases prev j k :
  (k < 64)%nat → (j < 64)%nat → (∀ i, prev = Some i → (i < 64)%nat) →
  (distance prev j < distance prev k)%nat → (distance (Some j) k < distance prev k)%nat.
Proof.
  intros Hk Hj Hp. unfold distance. destruct prev as [i|]; [specialize (Hp i eq_refl)|]; repeat case_decide; lia.
Qed.

Lemma run_slot_runnable ps k j : is_runnable ps k → k ≠ j → is_runnable (run_slot j ps) k.
Proof. intros (p & Hp & Hr) Hne. exists p. unfold run_slot. by rewrite list_lookup_alter_ne. Qed.

Lemma yielded_length s : length (procs (yielded s)) = length (procs s).
Proof. unfold yielded. destruct (current s); [apply length_alter|done]. Qed.

Lemma current_bound s : table_ok s → ∀ i, current s = Some i → (i < 64)%nat.
Proof. intros Hok i Hi. destruct (to_current _ Hok i Hi) as (p & Hp & _). by apply (current_lt s i p). Qed.

(** The slot that runs next is the first runnable one behind [prev]. *)
Definition first_runnable ps (prev next : option nat) : Prop :=
  match next with
  | None => ∀ k, ¬ is_runnable ps k
  | Some j => is_runnable ps j ∧ ∀ k, is_runnable ps k → k ≠ j → (distance prev j < distance prev k)%nat
  end.

Lemma find_next_first ps prev :
  length ps = MAX_PROCESSES → (∀ i, prev = Some i → (i < 64)%nat) → first_runnable ps prev (find_next ps prev).
Proof.
  intros Hl Hp. pose proof (find_next_spec ps prev Hl Hp) as Hf. destruct (find_next ps prev) as [idx|]; [|done].
  destruct Hf as (o & Ho & -> & Hr & Hfirst). split; [done|]. intros k Hrk Hne. pose proof Hrk as (p & Hk & _).
  apply lookup_lt_Some in Hk. rewrite Hl in Hk. destruct (distance_candidate prev k Hk Hp) as [Hd Hc].
  rewrite candidate_distance by done. destruct (decide (o = distance prev k)) as [->|]; [congruence|].
  destruct (decide (distance prev k < o)%nat) as [Hlt|]; [|lia]. exfalso. apply (Hfirst (distance prev k)); [lia|].
  by rewrite Hc.
Qed.

(** C13: [yield] returns; the process that runs then was runnable (the current one
    counts as runnable), and it is the first such process behind the current one in
    the cyclic order of the table, the current one coming last; with none, nothing
    runs. It switches exactly when this is another process. No process starves: each
    [yield] runs a runnable process or brings it closer to its turn, so its turn
    comes within 64 of them. *)
Theorem yield_round_robin s :
  table_ok s →
  wp yield s (λ c s', table_ok s' ∧
    (current s ≠ None → current s' ≠ None) ∧
    c = (if decide (current s' = current s) then Continue else SwitchTo (current s')) ∧
    match current s' with
    | None => ∀ k, ¬ is_runnable (procs (yielded s)) k
    | Some j =>
        is_runnable (procs (yielded s)) j ∧ (∃ q, procs s' !! j = Some q ∧ state q = Running) ∧
        ∀ k, is_runnable (procs (yielded s)) k → k ≠ j →
          (distance (current s) j < distance (current s) k)%nat ∧
          is_runnable (procs s') k ∧ (distance (Some j) k < distance (current s) k <= 64)%nat
    end).
Proof.
  intros Hok. apply wp_yield; [done|]. intros c s' Hok' Hsw.
  pose proof (find_next_first (procs (yielded s)) (current s)) as Hf.
  rewrite yielded_length in Hf. specialize (Hf (to_length _ Hok) (current_bound s Hok)).
  assert (∀ idx, find_next (procs (yielded s)) (current s) = Some idx → is_runnable (procs (yielded s)) idx ∧
    ∀ k, is_runnable (procs (yielded s)) k → k ≠ idx →
    (distance (current s) idx < distance (current s) k)%nat ∧ is_runnable (run_slot idx (procs (yielded s))) k ∧
    (distance (Some idx) k < distance (current s) k <= 64)%nat) as Hall.
  { intros idx Ef. rewrite Ef in Hf. destruct Hf as [Hj Hf]. split; [done|]. intros k Hk Hne. pose proof (Hf k Hk Hne) as Hlt.
    split; [done|]. split; [by apply run_slot_runnable|]. destruct Hj as (q & Hj & _), Hk as (p & Hk & _).
    apply lookup_lt_Some in Hj, Hk. rewrite yielded_length, (to_length _ Hok) in Hj, Hk.
    pose proof (distance_candidate (current s) k Hk (current_bound s Hok)) as [Hd _].
    split; [|lia]. by apply distance_decreases; [..|apply current_bound|]. }
  assert (∀ j, current s' = Some j → ∃ q, procs s' !! j = Some q ∧ state q = Running) as Hrun by apply (to_current _ Hok').
  split; [done|]. destruct Hsw as [idx Ef Hself _|idx e Ef Hne Hdis|k Ef Hk|Ef Hno _]; cbn [current procs set_env set_procs set_scheduler set_current] in *.
  - rewrite decide_True by done. split; [done|]. split; [done|]. split; [by apply Hall|]. split; [by apply Hrun|by apply Hall].
  - destruct Hne as [Hne|]; [|done]. rewrite decide_False by done. split; [done|]. split; [done|]. split; [by apply Hall|]. split; [by apply Hrun|].
    intros k Hk Hki. destruct (proj2 (Hall idx Ef) k Hk Hki) as (H1 & H2 & H3). split; [done|]. split; [|done]. by apply (saved_runnable (current s) (Some AtYield)).
  - rewrite Ef in Hf. exfalso. apply (Hf k). destruct (to_current _ Hok k Hk) as (p & Hp & _).
    exists (set_state Runnable p). unfold yielded. rewrite Hk. cbn. by rewrite list_lookup_alter_eq, Hp.
  - rewrite Ef in Hf. split; [done|]. assert (yielded s = s) as Ey by (unfold yielded; by rewrite Hno).
    rewrite Ey in *. rewrite decide_True by done. split; [done|]. rewrite Hno. exact Hf.
Qed.

(** ** exit *)
Definition wake_by (r : option nat) (p : Process) : Process :=
  match r with Some r => wake (CProcess r) p | None => p end.

Lemma wake_opt_lookup r ps j : wake_opt r ps !! j = wake_by r <$> ps !! j.
Proof. destruct r as [r|]; cbn; [by rewrite list_lookup_fmap|]. by destruct (ps !! j). Qed.

(** Whether a wakeup of the children's channel of [r] concerns the process. *)
Definition awaits (r : option nat) (p : Process) : Prop :=
  state p = Sleeping ∧ ∃ i, r = Some i ∧ sleep_channel p = Some (CProcess i).

Lemma wake_by_cases r p :
  wake_by r p = set_state Runnable p ∧ awaits r p ∨ wake_by r p = p ∧ ¬ awaits r p.
Proof.
  destruct r as [r|]; [|right; split; [done|by intros (_ & i & ? & _)]].
  cbn [wake_by]. destruct (wake_cases (CProcess r) p) as [[-> Hn]|(-> & Hs & Hc)].
  - right. split; [done|]. intros (Hs & i & [= <-] & Hc). by apply Hn.
  - left. split; [done|]. by split; [|exists r].
Qed.

(** The process is woken when the one in slot [k], [p], ends: it is asleep on the
    channel on which the parent of [p] waits for its children, or on that of the
    init process when this inherits a child that has ended ([p] itself, should it
    be its own parent, or a zombie). *)
Definition inherits_zombie s k : Prop :=
  ∃ j z, procs s !! j = Some z ∧ (j = k ∨ state z = Zombie) ∧ parent z = Some k.
Definition woken_by_exit s k (p x : Process) : Prop :=
  awaits (parent p) x ∨ awaits (init_proc s) x ∧ inherits_zombie s k.

(** What is left of a process when the one in slot [k] has ended: its state and its
    parent may change, and nothing else. *)
Definition heir s k (x : Process) : option nat :=
  if decide (state x ≠ Unused ∧ parent x = Some k) then init_proc s else parent x.
Definition after_exit s k (p x y : Process) : Prop :=
  ∃ st, y = set_state st (set_parent (heir s k x) x) ∧
    (woken_by_exit s k p x → st = Runnable) ∧ (¬ woken_by_exit s k p x → st = state x).

Lemma zombie_child_inherits s status k p :
  procs s !! k = Some p → state p = Running →
  existsb (zombie_child k) (wake_opt (parent p) (<[k := ended status p]> (procs s))) = true ↔ inherits_zombie s k.
Proof.
  intros Hp Hr. rewrite existsb_wake_opt, existsb_exists. unfold zombie_child. split.
  - intros (z & Hz & [Hs Hpar]%bool_decide_eq_true_1). apply list_elem_of_In, list_elem_of_lookup_1 in Hz as (j & Hj).
    apply list_lookup_insert_Some in Hj as [(<- & <- & _)|(Hne & Hj)]; [by exists k, p; auto|by exists j, z; auto].
  - intros (j & z & Hj & Hs & Hpar). destruct (decide (j = k)) as [->|Hne].
    + assert (z = p) as -> by congruence. exists (ended status p). split; [|by apply bool_decide_eq_true_2].
      apply list_elem_of_In, list_elem_of_lookup_2 with k. apply list_lookup_insert_eq. by eapply lookup_lt_Some.
    + destruct Hs as [|Hs]; [done|]. exists z. split; [|by apply bool_decide_eq_true_2].
      apply list_elem_of_In, list_elem_of_lookup_2 with j. by rewrite list_lookup_insert_ne by done.
Qed.

Lemma set_parent_same p : set_parent (parent p) p = p.
Proof. by destruct p. Qed.
Lemma set_state_same p : set_state (state p) p = p.
Proof. by destruct p. Qed.

Lemma reparent_heir s k x : reparent k (init_proc s) x = set_parent (heir s k x) x.
Proof.
  unfold reparent, heir. destruct (decide (state x = Unused ∨ parent x ≠ Some k)) as [H|H].
  - rewrite decide_False by tauto. by rewrite set_parent_same.
  - rewrite decide_True; [done|]. destruct (decide (parent x = Some k)); tauto.
Qed.

Lemma exit_table_lookup s status k p j x :
  procs s !! k = Some p → state p = Running → procs s !! j = Some x →
  ∃ y, exit_table status k p s !! j = Some y ∧ after_exit s k p (if decide (j = k) then ended status p else x) y.
Proof.
  intros Hp Hr Hx. set (x0 := if decide (j = k) then ended status p else x). unfold exit_table. rewrite adopt_unfold.
  pose proof (zombie_child_inherits s status k p Hp Hr) as Hb.
  set (ps1 := wake_opt (parent p) (<[k := ended status p]> (procs s))) in *.
  assert (ps1 !! j = Some (wake_by (parent p) x0)) as H1.
  { unfold ps1, x0. rewrite wake_opt_lookup. case_decide as Hj.
    - subst j. by rewrite list_lookup_insert_eq by (by eapply lookup_lt_Some).
    - rewrite list_lookup_insert_ne by done. by rewrite Hx. }
  set (b := existsb (zombie_child k) ps1) in *.
  exists (wake_by (if b then init_proc s else None) (reparent k (init_proc s) (wake_by (parent p) x0))). split.
  { destruct b; [rewrite wake_opt_lookup|]; rewrite list_lookup_fmap, H1; [done|]. done. }
  clearbody b ps1 x0. rewrite reparent_heir.
  assert (heir s k (wake_by (parent p) x0) = heir s k x0) as ->.
  { unfold heir. destruct (wake_by_cases (parent p) x0) as [(-> & Hs & _)|(-> & _)]; [|done]. cbn. rewrite Hs.
    by destruct (decide (Runnable ≠ Unused ∧ parent x0 = Some k)), (decide (Sleeping ≠ Unused ∧ parent x0 = Some k)); naive_solver. }
  destruct (wake_by_cases (parent p) x0) as [(-> & Ha)|(-> & Hn)].
  - exists Runnable. destruct (wake_by_cases (if b then init_proc s else None) (set_parent (heir s k x0) (set_state Runnable x0)))
      as [(_ & Hs & _)|(-> & _)]; [done|]. split; [done|]. split; [done|]. intros Hw. destruct Hw. by left.
  - destruct (wake_by_cases (if b then init_proc s else None) (set_parent (heir s k x0) x0)) as [(-> & Ha)|(-> & Hn2)].
    + exists Runnable. split; [done|]. split; [done|]. intros Hw. destruct Hw. right. destruct b; [|by destruct Ha as (_ & i & ? & _)].
      split; [exact Ha|]. by apply Hb.
    + exists (state x0). split; [by destruct x0|]. split; [|done]. intros [Ha|[Ha Hz]]; [done|]. destruct Hn2.
      by rewrite (proj2 Hb Hz).
Qed.

Lemma exit_table_length s status k p : length (exit_table status k p s) = length (procs s).
Proof.
  unfold exit_table. rewrite <- (Forall2_length _ _ _ (adopt_relate _ _ _)). by rewrite length_wake_opt, length_insert.
Qed.

(** C11: [exit] does not return; it keeps the invariant of the table. The process is
    a zombie with its status and without open files. Its children belong to the init
    process. Woken are exactly the processes that sleep on the channel of its parent
    and, when the init process inherits a child that has ended, those that sleep on
    that of the init process; so a parent that waits for its children is runnable or
    runs. The first runnable process in the cyclic order runs, or none when there is
    none. Every other field of every process, the next pid, the init process, the
    kernel stacks and the kernel's own context are as before. *)
Theorem exit_correct s k p status :
  table_ok s → current s = Some k → procs s !! k = Some p →
  wp (exit status) s (λ c s', table_ok s' ∧ c = SwitchTo (current s') ∧ current s' ≠ Some k ∧
    (next_pid s', init_proc s', initialized s', scheduler_context s', memory s') =
      (next_pid s, init_proc s, initialized s, scheduler_context s, memory s) ∧
    (∃ ps, length ps = length (procs s) ∧
      (∀ j x, procs s !! j = Some x → ∃ y, ps !! j = Some y ∧
        after_exit s k p (if decide (j = k) then ended status p else x) y) ∧
      first_runnable ps (Some k) (current s') ∧
      procs s' = match current s' with Some j => alter (set_state Running) j ps | None => ps end) ∧
    (∀ r x, parent p = Some r → procs s !! r = Some x → waiting x → is_runnable (procs s') r ∨ current s' = Some r)).
Proof.
  intros Hok Hc Hp. destruct (to_current _ Hok k Hc) as (p' & Hp' & Hr). simplify_eq.
  eapply wp_exit; [done|done|exact Hp|]. intros c s' e Hok' He Hsw. split; [done|].
  assert (length (exit_table status k p s) = MAX_PROCESSES) as Hl by (rewrite exit_table_length; by apply to_length).
  pose proof (find_next_first (exit_table status k p s) (Some k) Hl) as Hf.
  specialize (Hf ltac:(intros i [= <-]; by apply (current_lt s k p))).
  assert (∀ j x, procs s !! j = Some x → ∃ y, exit_table status k p s !! j = Some y ∧
    after_exit s k p (if decide (j = k) then ended status p else x) y) as Htab by (intros j x Hx; by apply exit_table_lookup).
  assert (¬ is_runnable (exit_table status k p s) k) as Hdead.
  { intros (y & Hy & Hry). destruct (Htab k p Hp) as (y' & Hy' & st & Ey & _ & Hst). rewrite decide_True in Ey, Hst by done.
    simplify_eq. cbn in Hry. rewrite Hst in Hry; [done|]. intros [[? _]|[[? _] _]]; done. }
  set (ps := exit_table status k p s) in *. set (next := find_next ps (Some k)) in *.
  assert (c = SwitchTo next ∧ current s' = next ∧ next ≠ Some k ∧
    (next_pid s', init_proc s', initialized s', scheduler_context s', memory s') =
      (next_pid s, init_proc s, initialized s, scheduler_context s, memory s) ∧
    procs s' = match next with Some j => alter (set_state Running) j ps | None => ps end) as (-> & <- & Hnk & Hglob & Hps).
  { destruct Hsw as [idx _ _ Hsv|idx e1 Hn _ _|j Hn Hj|_ _ Hsv]; [done| | |done].
    all: cbn [procs set_env set_procs] in Hn; fold next in Hn; rewrite Hn in *; split; [done|]; split; [done|].
    - split; [intros [= ->]; by destruct Hf|]. cbn. by rewrite orb_false_r.
    - done. }
  split; [done|]. split; [done|]. split; [done|]. split.
  { exists ps. split; [by rewrite Hl, to_length|]. done. }
  intros r x Hpar Hx Hw. destruct Hw as [Hws Hwc]. destruct (Htab r x Hx) as (y & Hy & st & Ey & Hst & _).
  rewrite decide_False in Ey, Hst by congruence. destruct (so_sleep _ (to_slots _ Hok) r x Hx Hws) as [_ [Hcx|[_ Hch]]]; [congruence|].
  assert (state y = Runnable) as Hry by (rewrite Ey; cbn; apply Hst; left; split; [done|by exists r]).
  destruct (decide (current s' = Some r)) as [|Hne]; [by right|left]. exists y. split; [|done]. rewrite Hps.
  destruct (current s') as [j|]; [|done]. rewrite list_lookup_alter_ne by congruence. done.
Qed.

(** C12: one turn of [wait] returns and keeps the invariant: it reaps the first
    child that has ended, with its pid and status, and gives back everything that
    child held; it tells that there is no child; or, exactly when there are children
    and none has ended, the process sleeps. *)
Theorem wait_correct s : table_ok s → current s ≠ None → wp wait_turn s (λ r s', table_ok s' ∧ wait_post s r s').
Proof.
  intros Hok Hc. apply wp_wait_turn; [done..|]. intros r s' Hpost. split; [by eapply wait_post_ok|done].
Qed.


(** [create_process] returns and keeps the invariant: the new process has
    the console as its files and will enter [trampoline] on a fresh stack; it fails
    only when one of these is refused, and everything that was taken has been given
    back then. *)
Theorem create_process_correct s en t rest arg :
  table_ok s → next_pid s < INT_MAX → (0 ∉ t) →
  wp (create_process en (t ++ 0 :: rest) arg) s (λ r s', table_ok s' ∧ create_post s en t rest arg r s').
Proof. intros Hok Hpid Ht. apply wp_create_process; [done..|]. auto. Qed.
(** ** The reachable states *)

(** The process table in static storage, before [initialize]. *)
Definition static_process : Process :=
  mkProcess 0 Unused NoContext None None 0 (mkKstring (replicate 16 0) 0) None None None 0 None (replicate NUM_OPEN_FILES None).
Definition static_kernel (e : E) : Kernel E :=
  mkKernel (replicate MAX_PROCESSES static_process) 1 false None false None ∅ e.

(** One operation of the current process, of an interrupt handler or of the
    kernel's first context. When a process that was asleep runs again, it leaves
    [sleep] by [step_resume] (and [wait] then takes another turn). *)
Inductive kstep s : Kernel E → Prop :=
| step_yield c s' : yield s = Some (c, s') → kstep s s'
| step_sleep ch k c s' : current s = Some k → sleep ch AtSleep s = Some (c, s') → kstep s s'
| step_resume k p s' : current s = Some k → procs s !! k = Some p → context p = Saved AtSleep ∨ context p = Saved AtWait →
    sleep_resume k s = Some ((), s') → kstep s s'
| step_wakeup ch s' : wakeup ch s = Some ((), s') → kstep s s'
| step_wait r s' : current s ≠ None → wait_turn s = Some (r, s') → kstep s s'
| step_exit k status c s' : current s = Some k → exit status s = Some (c, s') → kstep s s'
| step_fork snap caller_rsp r s' : next_pid s < INT_MAX → fork snap caller_rsp s = Some (r, s') → kstep s s'
| step_create en t rest arg r s' : next_pid s < INT_MAX → (0 ∉ t) → create_process en (t ++ 0 :: rest) arg s = Some (r, s') → kstep s s'
| step_create_init en arg r s' : next_pid s < INT_MAX → create_init_process en arg s = Some (r, s') → kstep s s'.

Lemma table_ok_init s v : table_ok s → table_ok (set_init_proc v s).
Proof. intros [[H1 H2 H3 H4 H5 H6] H7 H8 H9 H10 H11]. split; [by split|done..]. Qed.

Lemma wp_create_init s en arg : table_ok s → next_pid s < INT_MAX →
  wp (create_init_process en arg) s (λ r s', table_ok s' ∧ ∃ s1, create_post s en [105; 110; 105; 116] [] arg r s1 ∧ s' = set_init_proc r s1).
Proof.
  intros Hok Hn. unfold create_init_process. wp_step. apply (wp_create_process s en [105; 110; 105; 116] [] arg); [done|done| |].
  - by apply (bool_decide_unpack _).
  - intros r s1 Hok1 Hpost. do 2 wp_step. wp_step. split; [by apply table_ok_init|]. by exists s1.
Qed.

Lemma kstep_ok s s' : table_ok s → kstep s s' → table_ok s'.
Proof.
  intros Hok Hstep. destruct Hstep as [c s' H|ch k c s' Hc H|k p s' Hc Hp Hpt H|ch s' H|r s' Hc H|k st c s' Hc H|sn rsp r s' Hn H|en t rest arg r s' Hn Ht H|en arg r s' Hn H].
  - revert H. apply (wp_elim _ _ (λ _ s', table_ok s')). apply wp_yield; auto.
  - revert H. apply (wp_elim _ _ (λ _ s', table_ok s')). destruct (to_current _ Hok k Hc) as (p & Hp & _).
    eapply wp_sleep; [done|done|exact Hp|by left|]. auto.
  - revert H. apply (wp_elim _ _ (λ _ s', table_ok s')). eapply wp_sleep_resume; [done|done|exact Hp|]. auto.
  - revert H. apply (wp_elim _ _ (λ _ s', table_ok s')). apply wp_wakeup; [by apply to_length|]. by apply table_ok_wake.
  - revert H. apply (wp_elim _ _ (λ _ s', table_ok s')). apply wp_wait_turn; [done..|]. intros x y. by apply wait_post_ok.
  - revert H. apply (wp_elim _ _ (λ _ s', table_ok s')). destruct (to_current _ Hok k Hc) as (p & Hp & _).
    eapply wp_exit; [done|done|exact Hp|]. auto.
  - revert H. apply (wp_elim _ _ (λ _ s', table_ok s')). destruct (current s) as [i|] eqn:Hc.
    + destruct (to_current _ Hok i Hc) as (p & Hp & _). eapply wp_fork; [done|done|exact Hc|exact Hp|]. auto.
    + unfold fork. do 2 wp_step. rewrite Hc. by wp_step.
  - revert H. apply (wp_elim _ _ (λ _ s', table_ok s')). apply wp_create_process; [done..|]. auto.
  - by destruct (wp_elim _ _ _ _ _ (wp_create_init s en arg Hok Hn) H).
Qed.

Lemma wp_process_initialize e (Q : () → Kernel E → Prop) :
  svc_ok e → (∀ r, owned r → held e r = 0) → (∀ s, table_ok s → Q () s) → wp initialize (static_kernel e) Q.
Proof.
  intros He Hh HQ. unfold initialize. do 2 wp_step. cbn [initialized static_kernel]. do 5 wp_step. apply HQ.
  assert (∀ k p, procs (static_kernel e) !! k = Some p → p = static_process) as Hall by (intros k p Hp; by apply lookup_replicate in Hp as [-> _]).
  replace ((λ p, set_channel None (set_state Unused p)) <$> procs (static_kernel e)) with (procs (static_kernel e)).
  2:{ change (procs (static_kernel e)) with (replicate MAX_PROCESSES static_process). by rewrite fmap_replicate. }
  cbn [current set_current set_procs set_initialized].
  assert (∀ r n, total_uses r (replicate n static_process) = 0) as Huses.
  { intros r n. induction n as [|n IH]; [done|]. cbn [replicate].
    change (uses r static_process + total_uses r (replicate n static_process) = 0). rewrite IH. by destruct r. }
  split; [split|..]; cbn [procs env current next_pid scheduler_context set_current set_procs set_initialized].
  - apply length_replicate.
  - done.
  - by intros k p ->%Hall.
  - by intros k p ->%Hall.
  - intros r Hr. change (procs (static_kernel e)) with (replicate MAX_PROCESSES static_process). rewrite Huses. by apply Hh.
  - done.
  - done.
  - split; [by intros k p ->%Hall..|]. intros k p j q ->%Hall [Hw _]. done.
  - done.
  - by intros k p ->%Hall.
  - done.
Qed.

(** [kernel_main] starts the processes: the state is one that the operations reach
    from [initialize]; the first turn of its loop enters the init process with the
    function it has been given, and when there was none to create, it goes on. *)
Definition started (e : E) : Kernel E := set_initialized true (static_kernel e).
Lemma initialize_static e : initialize (static_kernel e) = Some ((), started e).
Proof. reflexivity. Qed.

Lemma started_slot e k p : procs (started e) !! k = Some p → p = static_process.
Proof. intros Hp. by apply lookup_replicate in Hp as [-> _]. Qed.

Lemma only_runnable e s k p c s' :
  length (procs s) = MAX_PROCESSES → (∀ i q, procs s !! i = Some q → i = k ∨ q = static_process) → procs s !! k = Some p →
  switched s None (Some e) c s' →
  match state p with
  | Runnable => c = SwitchTo (Some k) ∧ current s' = Some k ∧ ∃ q, procs s' !! k = Some q ∧ entry q = entry p ∧ entry_arg q = entry_arg p
  | _ => c = Continue ∧ s' = s
  end.
Proof.
  intros Hl Hall Hp Hsw. pose proof (find_next_spec (procs s) None Hl ltac:(done)) as Hf.
  assert (∀ i, is_runnable (procs s) i → i = k ∧ state p = Runnable) as Hk.
  { intros i (q & Hq & Hr). destruct (Hall i q Hq) as [->| ->]; [|done]. split; [done|congruence]. }
  inversion Hsw as [| idx e' Hn _ _ Hc | |Hn _ _ Hc Hs]; subst; try done; rewrite Hn in Hf.
  - destruct Hf as (_ & _ & _ & Hr & _). destruct (Hk idx Hr) as [-> ->]. split; [done|]. split; [done|].
    exists (set_state Running p). split; [|done]. cbn. unfold run_slot. by rewrite list_lookup_alter_eq, Hp.
  - destruct (state p) eqn:Hr; try done. destruct (Hf k). by exists p.
Qed.

Theorem start_processes_correct e f :
  svc_ok e → (∀ r, owned r → held e r = 0) →
  wp (start_processes f) (static_kernel e) (λ r s,
    table_ok s ∧ rtc kstep (started e) s ∧ init_proc s = r ∧
    wp idle_turn s (λ c s', table_ok s' ∧
      match r with
      | Some k => c = SwitchTo (Some k) ∧ current s' = Some k ∧ wp trampoline_call s' (λ call _, call = Some (f, 0))
      | None => c = Continue ∧ s' = s
      end)).
Proof.
  intros He Hh. unfold start_processes. wp_step. eapply wp_intro; [apply initialize_static|].
  assert (table_ok (started e)) as Hok by exact (wp_elim _ _ _ _ _ (wp_process_initialize e (λ _ s, table_ok s) He Hh (λ s H, H)) (initialize_static e)).
  apply wp_mono with (P := λ r s, table_ok s ∧ kstep (started e) s ∧ init_proc s = r ∧ current s = None ∧
    ∃ k p, (∀ i q, procs s !! i = Some q → i = k ∨ q = static_process) ∧ procs s !! k = Some p ∧
      match r with Some j => j = k ∧ state p = Runnable ∧ entry p = Some f ∧ entry_arg p = 0 | None => state p = Unused end).
  - destruct (wp_create_init (started e) (Some f) 0 Hok ltac:(done)) as (r & s & Hrun & Hok' & s1 & Hpost & ->).
    eapply wp_intro; [exact Hrun|]. split; [done|]. split; [by eapply step_create_init|]. split; [done|].
    assert (∀ k x, (k < MAX_PROCESSES)%nat → procs (started e) = replicate MAX_PROCESSES static_process →
      (∀ i q, <[k := x]> (procs (started e)) !! i = Some q → i = k ∨ q = static_process) ∧ <[k := x]> (procs (started e)) !! k = Some x) as Hins.
    { intros k x Hk _. split; [|by apply list_lookup_insert_eq]. intros i q Hq. destruct (decide (i = k)) as [|Hne]; [by left|right].
      rewrite list_lookup_insert_ne in Hq by done. by eapply started_slot. }
    destruct Hpost as [Hfull|k p q e' (Hp & Hu & _) _ Ho|k p n b a f0 f1 e' (Hp & Hu & _) _ Hn].
    + by destruct (Hfull 0%nat static_process).
    + split; [done|]. exists k, (freed q). destruct (Hins k (freed q)) as [H1 H2]; [|done|by split].
      by apply lookup_lt_Some in Hp.
    + split; [done|]. exists k. eexists. destruct (Hins k (created p (next_pid (started e)) b a f0 f1 (Some f) 0 n)) as [H1 H2]; [|done|].
      { by apply lookup_lt_Some in Hp. }
      split; [exact H1|]. by split; [exact H2|].
  - intros r s (Hok' & Hstep & Hi & Hc & k & p & Hall & Hp & Hr). split; [done|]. split; [by apply rtc_once|]. split; [done|].
    apply wp_yield; [done|]. intros c s' Hok2 Hsw. split; [done|]. unfold yielded in Hsw. rewrite Hc in Hsw.
    pose proof (only_runnable _ s k p c s' (to_length _ Hok') Hall Hp Hsw) as H. destruct r as [j|].
    + destruct Hr as (-> & Hr & He' & Ha). rewrite Hr in H. destruct H as (-> & Hcur & q & Hq & Heq & Haq).
      split; [done|]. split; [done|]. unfold trampoline_call, current_process. do 4 wp_step. rewrite Hcur. wp_step.
      eapply wp_proc; [exact Hq|]. wp_step. by rewrite Heq, Haq, He', Ha.
    + by rewrite Hr in H.
Qed.

(** C4: in every state the kernel reaches, in whatever order its processes call
    these operations: exactly the current process is marked as running; every
    process that may be chosen has a context and a stack; every stack, address space
    and open file handed out is held by exactly the processes that refer to it, so
    none is lost and none is shared unawares; the processor uses the address space
    of the current process; and no wakeup is lost: a process asleep in [wait] has no
    child that has ended. *)
Theorem reachable_ok e s0 s :
  svc_ok e → (∀ r, owned r → held e r = 0) → initialize (static_kernel e) = Some ((), s0) → rtc kstep s0 s →
  table_ok s ∧ (∀ r, owned r → held (env s) r = total_uses r (procs s)) ∧
  (∀ k p a, current s = Some k → procs s !! k = Some p → pml4 p = Some a → 0 < held (env s) (Active a)) ∧
  (∀ k p, procs s !! k = Some p → waiting p → no_zombie_child (procs s) k).
Proof.
  intros He Hh Hinit Hsteps.
  assert (table_ok s0) as H0 by (revert Hinit; apply (wp_elim _ _ (λ _ s, table_ok s)); by apply wp_process_initialize).
  assert (table_ok s) as Hok by (clear Hinit; induction Hsteps as [|a b c Hab _ IH]; [done|]; by apply IH, (kstep_ok a)).
  split; [done|]. split; [apply Hok|]. split; [intros k p a Hc Hp; by apply (ao_active _ (to_accounts _ Hok) k p)|].
  intros k p Hp Hw j q Hq Hz. by apply (so_wait _ (to_slots _ Hok) k p j q).
Qed.
End properties.
