(* ===== verification/ProcessExamples.v ===== *)
(** * A concrete kernel

    Services that only count what they hand out, a small run of the kernel over
    them, at which the properties are applied, and the run that shows what is
    missing at the end of [trampoline]. *)
From stdpp Require Import gmap.
From S2P Require Import Prelude Kstring Process ProcessSpec ProcessSched ProcessTable ProcessOps ProcessFork.
From S2P Require Import ProcessProps.

(** The next unused address, and how often each resource is held. *)
Record Ledger := mkLedger { fresh : Z; count : Resource → Z }.

Definition bump (r : Resource) (n : Z) (l : Ledger) : Ledger :=
  mkLedger (fresh l) (λ r', count l r' + n * one r r').
Definition draw (f : Z → Resource) : M Ledger Z :=
  l ← get; _ ← put (bump (f (fresh l)) 1 (mkLedger (fresh l + 1) (count l))); mret (fresh l).
Definition activate (a : Z) (l : Ledger) : Ledger :=
  mkLedger (fresh l) (λ r, match r with Active b => if decide (a = b) then 1 else 0 | _ => count l r end).
Definition drop_resource (r : Resource) : M Ledger () := modify (bump r (-1)).

#[export] Instance Ledger_Services : Services Ledger := {|
  heap_allocate _ := z ← draw Stack; mret (Some z);
  heap_free b := drop_resource (Stack b);
  create_address_space := z ← draw Space; mret (Some z);
  destroy_address_space a := match a with Some a => drop_resource (Space a) | None => mret () end;
  copy_user_pages _ _ := mret true;
  switch_address_space a := match a with Some a => modify (activate a) | None => mret () end;
  set_kernel_stack _ := mret ();
  file_open_console _ _ := z ← draw (λ z, OpenFile (Z.to_nat z)); mret (Some (Z.to_nat z));
  file_duplicate f := match f with Some g => _ ← modify (bump (OpenFile g) 1); mret f | None => mret None end;
  file_close f := match f with Some g => drop_resource (OpenFile g) | None => mret () end;
  trampoline_address := 1048576;
  fork_return_address := 1052672;
|}.

(** What has not been handed out yet counts nothing. *)
Definition unseen (l : Ledger) (z : Z) : Prop :=
  count l (Stack z) = 0 ∧ count l (Space z) = 0 ∧ count l (OpenFile (Z.to_nat z)) = 0 ∧ count l (Active z) = 0 ∧ count l (Filled z) = 0.
Record ledger_ok (l : Ledger) : Prop := {
  lg_fresh : 0 <= fresh l;
  lg_unseen z : fresh l <= z → unseen l z;
  lg_once z : count l (Space z) <= 1;
  lg_active a b : 0 < count l (Active a) → count l (Active b) ≠ 0 → a = b;
}.

(** What may be counted up or down at will. *)
Definition countable (r : Resource) (n : Z) : Prop :=
  match r with Stack _ | OpenFile _ => True | Space _ => n <= 0 | _ => False end.
Lemma ledger_bump l r n : ledger_ok l → 0 < count l r → countable r n → ledger_ok (bump r n l).
Proof.
  intros [H0 H1 H2 H3] Hr Hn. split; [done|..].
  - intros z Hz. destruct (H1 z Hz) as (E1 & E2 & E3 & E4 & E5). unfold unseen. cbn. unfold one. repeat case_decide; subst; cbn in Hn; lia.
  - intros z. specialize (H2 z). cbn. unfold one. case_decide; subst; cbn in Hn; lia.
  - intros a b. cbn. unfold one. do 2 (rewrite decide_False by (intros ->; exact Hn)). rewrite !Z.mul_0_r, !Z.add_0_r. apply H3.
Qed.

Lemma wp_draw l f (Q : Z → Ledger → Prop) :
  ledger_ok l → (f = Stack ∨ f = Space ∨ f = λ z, OpenFile (Z.to_nat z)) →
  (ledger_ok (bump (f (fresh l)) 1 (mkLedger (fresh l + 1) (count l))) → count l (f (fresh l)) = 0 → unseen l (fresh l) →
    Q (fresh l) (bump (f (fresh l)) 1 (mkLedger (fresh l + 1) (count l)))) → wp (draw f) l Q.
Proof.
  intros [H0 H1 H2 H3] Hf HQ. unfold draw. do 2 wp_step. do 2 wp_step. wp_step.
  pose proof (H1 (fresh l) ltac:(lia)) as Hun. pose proof Hun as (E1 & E2 & E3 & E4 & E5). apply HQ; [|by destruct Hf as [->|[->| ->]]|done].
  split; cbn; [lia|..].
  - intros z Hz. destruct (H1 z) as (F1 & F2 & F3 & F4 & F5); [lia|]. unfold unseen. cbn. unfold one.
    destruct Hf as [->|[->| ->]]; repeat case_decide; simplify_eq; lia.
  - intros z. specialize (H2 z). unfold one. destruct Hf as [->|[->| ->]]; case_decide; simplify_eq; lia.
  - intros a b. unfold one. destruct Hf as [->|[->| ->]]; rewrite !decide_False, !Z.add_0_r by done; apply H3.
Qed.

Lemma ledger_activate l a : ledger_ok l → ¬ fresh l <= a → ledger_ok (activate a l).
Proof.
  intros [H0 H1 H2 H3] Ha. split; [done| |exact H2|].
  - intros z Hz. cbn in Hz. destruct (H1 z Hz) as (E1 & E2 & E3 & E4 & E5). unfold unseen. cbn. rewrite decide_False; [done|]. intros ->. lia.
  - intros b c. cbn. repeat case_decide; [congruence|lia..].
Qed.

#[export] Instance Ledger_ServicesSpec : ServicesSpec Ledger.
Proof.
  refine {| svc_ok := ledger_ok; held := count |}.
  - intros e a He. apply (lg_once e He).
  - intros e a b He. apply (lg_active e He).
  - intros e He. cbn. wp_step. apply wp_draw; [done|by left|]. intros Hok H0 _. wp_step. done.
  - intros e b He Hb. cbn. unfold drop_resource. wp_step. split; [by apply ledger_bump|done].
  - intros e He. cbn. wp_step. apply wp_draw; [done|by right; left|]. intros Hok H0 (_ & _ & _ & H1 & H2). wp_step. done.
  - intros e a He Ha _. cbn. unfold drop_resource. wp_step. split; [by apply ledger_bump|]. intros r _. cbn. lia.
  - intros e src dest He _ _ _ _. cbn. by wp_step.
  - intros e a He Ha. cbn. wp_step. split; [|done]. apply ledger_activate; [done|]. intros Hle.
    destruct (lg_unseen e He a Hle) as (_ & H0 & _). lia.
  - intros e a He. cbn. by wp_step.
  - intros e r w He. cbn. wp_step. apply wp_draw; [done|by right; right|]. intros Hok H0 _. wp_step. done.
  - intros e f He Hf. cbn. destruct f as [g|]; [|by wp_step]. do 2 wp_step. wp_step.
    split; [done|]. split; [apply ledger_bump; [done|apply Hf|done]|done].
  - intros e f He Hf. cbn. destruct f as [g|]; [|by wp_step]. unfold drop_resource. wp_step.
    split; [by apply ledger_bump|done].
Defined.

(** ** A run *)

Definition ledger0 : Ledger := mkLedger 1 (λ _, 0).
Lemma ledger0_ok : svc_ok ledger0 ∧ ∀ r, held ledger0 r = 0.
Proof. by split. Qed.

(** The state an operation leads to. *)
Definition after {A} (m : M (Kernel Ledger) A) (s : Kernel Ledger) : Kernel Ledger :=
  match m s with Some (_, s') => s' | None => s end.
Definition returns {A} (m : M (Kernel Ledger) A) (s : Kernel Ledger) : bool :=
  match m s with Some _ => true | None => false end.
Lemma after_spec {A} (m : M (Kernel Ledger) A) s : returns m s = true → ∃ r, m s = Some (r, after m s).
Proof. unfold returns, after. destruct (m s) as [[r s']|]; [by exists r|done]. Qed.

(** Two processes are created and the first runs, forks a child (in slot 2) and
    waits for it; then the second runs, then the child. *)
Definition create_shell : M (Kernel Ledger) (option nat) := create_process (Some 4096) ([115; 104] ++ 0 :: []) 0.
Definition fork_child : M (Kernel Ledger) Z := fork (mkContext 0 0 0 0 0 0 5000) 8000.
Definition at_boot : Kernel Ledger := after initialize (static_kernel ledger0).
Definition first_runs : Kernel Ledger := after yield (after create_shell (after create_shell at_boot)).
Definition first_waits : Kernel Ledger := after wait_turn (after fork_child first_runs).
Definition child_runs : Kernel Ledger := after yield first_waits.

Lemma at_boot_initialized : initialize (static_kernel ledger0) = Some ((), at_boot).
Proof. destruct (after_spec initialize (static_kernel ledger0)) as [[] H]; [by vm_compute|exact H]. Qed.

Lemma at_boot_ok : table_ok at_boot.
Proof.
  destruct ledger0_ok as [H1 H2].
  exact (wp_elim _ _ (λ _ s, table_ok s) _ _ (wp_process_initialize ledger0 _ H1 (λ r _, H2 r) (λ s H, H)) at_boot_initialized).
Qed.

Lemma step_shell s : (next_pid s <? INT_MAX) && returns create_shell s = true → kstep s (after create_shell s).
Proof.
  intros [Hn [r H]%after_spec]%andb_true_iff. eapply (step_create _ (Some 4096) [115; 104] [] 0); [lia| |exact H].
  by apply (bool_decide_unpack _).
Qed.
Lemma step_yields s : returns yield s = true → kstep s (after yield s).
Proof. intros [r H]%after_spec. by eapply step_yield. Qed.
Lemma step_forks s : (next_pid s <? INT_MAX) && returns fork_child s = true → kstep s (after fork_child s).
Proof. intros [Hn [r H]%after_spec]%andb_true_iff. eapply step_fork; [lia|exact H]. Qed.
Lemma step_waits s : current s ≠ None → returns wait_turn s = true → kstep s (after wait_turn s).
Proof. intros Hc [r H]%after_spec. by eapply step_wait. Qed.

Lemma first_runs_reached : rtc kstep at_boot first_runs.
Proof.
  apply rtc_r with (after create_shell (after create_shell at_boot)); [|apply step_yields; by vm_compute].
  apply rtc_r with (after create_shell at_boot); [|apply step_shell; by vm_compute].
  apply rtc_once, step_shell. by vm_compute.
Qed.

Lemma child_runs_reached : rtc kstep first_runs child_runs.
Proof.
  apply rtc_r with first_waits; [|apply step_yields; by vm_compute].
  apply rtc_r with (after fork_child first_runs); [|apply step_waits; [intros Hc; by vm_compute in Hc|by vm_compute]].
  apply rtc_once, step_forks. by vm_compute.
Qed.

Lemma reached_ok s s' : table_ok s → rtc kstep s s' → table_ok s'.
Proof. intros Hok. induction 1 as [|a b c Hab _ IH]; [done|]. apply IH. by apply (kstep_ok a). Qed.

Lemma first_runs_ok : table_ok first_runs.
Proof. apply (reached_ok at_boot); [apply at_boot_ok|apply first_runs_reached]. Qed.
Lemma child_runs_ok : table_ok child_runs.
Proof. apply (reached_ok first_runs); [apply first_runs_ok|apply child_runs_reached]. Qed.

(** ** The properties at this run *)

Lemma yield_round_robin_witness : wp yield first_runs (λ c s', table_ok s' ∧ current s' ≠ None).
Proof.
  eapply wp_mono; [apply (yield_round_robin first_runs first_runs_ok)|]. intros c s' (Hok & Hc & _).
  split; [exact Hok|]. apply Hc. by vm_compute.
Defined.

Definition child_process : Process := default static_process (procs child_runs !! 2%nat).

Lemma exit_correct_witness : wp (exit 7) child_runs (λ c s', table_ok s' ∧ current s' ≠ Some 2%nat).
Proof.
  eapply wp_mono; [apply (exit_correct child_runs 2%nat child_process 7 child_runs_ok); by vm_compute|].
  intros c s' (Hok & _ & Hc & _). split; [exact Hok|exact Hc].
Defined.

Lemma wait_correct_witness : wp wait_turn first_runs (λ r s', table_ok s' ∧ wait_post first_runs r s').
Proof. apply (wait_correct first_runs first_runs_ok). intros Hc. by vm_compute in Hc. Defined.


Lemma reachable_ok_witness :
  rtc kstep at_boot child_runs ∧ ∀ k p, procs child_runs !! k = Some p → waiting p → no_zombie_child (procs child_runs) k.
Proof.
  assert (rtc kstep at_boot child_runs) as H by (etransitivity; [exact first_runs_reached|exact child_runs_reached]).
  split; [exact H|]. destruct ledger0_ok as [H1 H2].
  apply (reachable_ok ledger0 at_boot child_runs H1 (λ r _, H2 r) at_boot_initialized H).
Defined.

(** ** The end of [trampoline]

    A process whose entry function returns becomes a zombie without its parent
    being woken: the parent, asleep in [wait], stays asleep with a child to reap. *)
Theorem trampoline_end_loses_wakeup :
  rtc kstep at_boot child_runs ∧ current child_runs = Some 2%nat ∧
  ∃ c s' p q, trampoline_end child_runs = Some (c, s') ∧ procs s' !! 0%nat = Some p ∧ waiting p ∧
    procs s' !! 2%nat = Some q ∧ state q = Zombie ∧ parent q = Some 0%nat.
Proof.
  split; [etransitivity; [exact first_runs_reached|exact child_runs_reached]|]. split; [by vm_compute|].
  destruct (after_spec trampoline_end child_runs) as [c H]; [by vm_compute|].
  exists c, (after trampoline_end child_runs).
  exists (default static_process (procs (after trampoline_end child_runs) !! 0%nat)).
  exists (default static_process (procs (after trampoline_end child_runs) !! 2%nat)).
  split; [exact H|]. split; [by vm_compute|]. split; [split; by vm_compute|]. split; [by vm_compute|].
  split; by vm_compute.
Qed.
