(* ===== verification/Systemcall.v ===== *)
(** * System calls (include/systemcall.hpp, include/systemcall.cpp)

    From the trap frame of a user process to the operation it asks for and back.
    The open files, the memory of the user and the console are reached through
    [SystemFiles]. A call of [wait] that goes to sleep ends an operation: the rest
    of it is [wait_again], once the process runs again. *)
From stdpp Require Import gmap strings.
From S2P Require Import Prelude FileSystem Console Process.

(** Namespace [SyscallNo]. *)
Definition kRead : Z := 0.
Definition kWrite : Z := 1.
Definition kClose : Z := 3.
Definition kFork : Z := 57.
Definition kExit : Z := 60.
Definition kWait : Z := 61.

(** [std::numeric_limits<uint32_t>::max()] *)
Definition UINT32_MAX : Z := 4294967295.
(** Conversions to [int] and to [long]. *)
Definition int_of (x : Z) : Z := let y := u32 x in if y <? 2147483648 then y else y - 4294967296.
Definition long_of (x : Z) : Z := signed64 (u64 x).

(** [file_read(file, buffer, count)] and [file_write]; the store through a user's
    [int *]; [syscall_console]. *)
Class SystemFiles (E : Type) := {
  file_read : nat → Z → Z → M E (option Z);
  file_write : nat → Z → Z → M E (option Z);
  store_int : Z → Z → M E ();
  set_color : Color → Color → M E ();
  printf : list Z → list Arg → M E ();
}.

(** How a call ends: with a value for the user, asleep in [wait], or with the end
    of the process. *)
Inductive Outcome := Returned (v : Z) | Waiting (c : Control) | Gone (c : Control).
(** What [handle_syscall] leads to: back to the user with these registers, or
    away from the process. *)
Inductive Return := ToUser (tf : TrapFrame) | Away (c : Control).

Section Systemcall.
Context {E : Type} `{HV : Services E} `{HF : SystemFiles E}.

Definition lookup_file (fd : Z) : M (Kernel E) (option nat) :=
  s ← get;
  match current s with
  | None => mret None
  | Some k =>
      p ← proc k;
      if fd >=? Z.of_nat (length (files p)) then mret None else defined (files p !! Z.to_nat fd)
  end.

Definition sys_read (fd buf len : Z) : M (Kernel E) Z :=
  file ← lookup_file fd;
  match file with
  | None => mret (-1)
  | Some f =>
      if len >? UINT32_MAX then mret (-1)
      else done ← service (file_read f buf (u32 len)); mret (default (-1) done)
  end.

Definition sys_write (fd buf len : Z) : M (Kernel E) Z :=
  file ← lookup_file fd;
  match file with
  | None => mret (-1)
  | Some f =>
      if len >? UINT32_MAX then mret (-1)
      else done ← service (file_write f buf (u32 len)); mret (default (-1) done)
  end.

Definition sys_close (fd : Z) : M (Kernel E) Z :=
  file ← lookup_file fd;
  match file with
  | None => mret (-1)
  | Some f =>
      s ← get;
      k ← defined (current s);
      _ ← modify_proc k (λ p, set_files (<[Z.to_nat fd := None]> (files p)) p);
      _ ← service (file_close (Some f));
      mret 0
  end.

(** A message in a color of its own. *)
Definition report (color : Color) (fmt : list Z) (args : list Arg) : M (Kernel E) () :=
  _ ← service (set_color color Black);
  _ ← service (printf fmt args);
  service (set_color LightGrey Black).

Definition exit_message : list Z := [10] ++ string_bytes "[SYS]  exit(%u) called" ++ [10].
Definition unknown_message : list Z := string_bytes "[SYS]  unknown syscall %u" ++ [10].

(** Without a current process it halts. *)
Definition sys_exit (code : Z) : M (Kernel E) Control :=
  _ ← report Yellow exit_message [AUnsigned (u32 code)];
  s ← get;
  match current s with
  | Some _ => exit (int_of code)
  | None => stuck
  end.

(** [fork_capture] gives [snap] and [caller_rsp] to [fork]. *)
Definition sys_fork (snap : ProcessContext) (caller_rsp : Z) : M (Kernel E) Z := fork snap caller_rsp.

Definition sys_wait (status_ptr : Z) : M (Kernel E) Outcome :=
  r ← wait_turn_to (if status_ptr =? 0 then None else Some (λ code, service (store_int status_ptr code)));
  match r with
  | Reaped pid _ => mret (Returned (long_of pid))
  | NoChild => mret (Returned (-1))
  | Asleep c => mret (Waiting c)
  end.

Definition syscall_dispatch (num a1 a2 a3 : Z) (snap : ProcessContext) (caller_rsp : Z) : M (Kernel E) Outcome :=
  if num =? kRead then v ← sys_read a1 a2 a3; mret (Returned v)
  else if num =? kWrite then v ← sys_write a1 a2 a3; mret (Returned v)
  else if num =? kClose then v ← sys_close a1; mret (Returned v)
  else if num =? kFork then v ← sys_fork snap caller_rsp; mret (Returned v)
  else if num =? kWait then sys_wait a1
  else if num =? kExit then c ← sys_exit a1; mret (Gone c)
  else _ ← report LightRed unknown_message [AUnsigned (u32 num)]; mret (Returned (-1)).

(** The trap frame at [at_], which the current process points to as well. *)
Definition keep_frame (at_ : Z) (tf : TrapFrame) : M (Kernel E) () :=
  s ← get;
  match current s with
  | Some k => modify_proc k (set_trap (Some (at_, tf)))
  | None => mret ()
  end.

(** What [handle_syscall] does with the result. *)
Definition give_back (at_ : Z) (tf : TrapFrame) (o : Outcome) : M (Kernel E) Return :=
  match o with
  | Returned ret =>
      let tf := set_rax (u64 ret) tf in
      _ ← keep_frame at_ tf;
      mret (ToUser tf)
  | Waiting c | Gone c => mret (Away c)
  end.

Definition handle_syscall (at_ : Z) (tf : TrapFrame) (snap : ProcessContext) (caller_rsp : Z) : M (Kernel E) Return :=
  _ ← keep_frame at_ tf;
  o ← syscall_dispatch (tf_rax tf) (tf_rdi tf) (tf_rsi tf) (tf_rdx tf) snap caller_rsp;
  give_back at_ tf o.

(** The rest of a call of [wait] whose process [k] runs again. *)
Definition wait_again (k : nat) (at_ : Z) (tf : TrapFrame) : M (Kernel E) Return :=
  _ ← sleep_resume k;
  o ← sys_wait (tf_rdi tf);
  give_back at_ tf o.
End Systemcall.
