(* ===== verification/Printf.v ===== *)
(** * The types and the meaning of a format

    The grammar of the formats of [vprintf] and the arguments they take; [vprintf]
    returns exactly on well-formed formats with such arguments
    ([vprintf_well_typed]), and what it writes is what the format means in C
    ([vprintf_as_c]), apart from the differences in [format_differs_from_c]. *)
From stdpp Require Import strings.
From S2P Require Import Prelude FileSystem Console.

Inductive ArgType := TInt | TUnsigned | TLong | TULong | TLongLong | TULongLong | TSize | TPointer | TString.
Definition type_of (a : Arg) : ArgType :=
  match a with
  | AInt _ => TInt | AUnsigned _ => TUnsigned | ALong _ => TLong | AULong _ => TULong | ALongLong _ => TLongLong
  | AULongLong _ => TULongLong | ASize _ => TSize | APointer _ => TPointer | AString _ => TString
  end.

(** Values of the types, but for the smallest [long], which cannot be negated. *)
Definition arg_ok (a : Arg) : Prop :=
  match a with
  | AInt v => - 2 ^ 31 <= v < 2 ^ 31
  | ALong v | ALongLong v => - 2 ^ 63 < v < 2 ^ 63
  | AUnsigned v => 0 <= v < 2 ^ 32
  | AULong v | AULongLong v | APointer v => 0 <= v < 2 ^ 64
  | ASize v => 0 <= v < 2 ^ 64 ∧ v ≠ 2 ^ 63
  | AString _ => True
  end.

Definition signed_type (length : Length) : ArgType :=
  match length with LLongLong => TLongLong | LLong => TLong | LSize => TSize | LNone | LChar | LShort => TInt end.
Definition unsigned_type (length : Length) : ArgType :=
  match length with LLongLong => TULongLong | LLong => TULong | LSize => TSize | LNone | LChar | LShort => TUnsigned end.

(** The arguments of a conversion. *)
Definition conv_types (conv : Z) (length : Length) : list ArgType :=
  if (conv =? 100) || (conv =? 105) then [signed_type length]
  else if (conv =? 117) || (conv =? 120) then [unsigned_type length]
  else if conv =? 112 then [TPointer]
  else if conv =? 115 then [TString]
  else if conv =? 99 then [TInt]
  else [].

(** The arguments of a format; [None] when it ends inside a directive. *)
Fixpoint format_types (fuel : nat) (fmt : list Z) : option (list ArgType) :=
  match fuel with
  | O => None
  | S fuel =>
      match fmt with
      | [] => Some []
      | c :: fmt =>
          if negb (c =? 37) then format_types fuel fmt
          else
            match fmt with
            | [] => Some []
            | _ =>
                let '(_, fmt) := parse_pad fmt in
                '(_, fmt) ← parse_width fmt 0;
                let '(length, fmt) := parse_length fmt in
                match fmt with
                | [] => None
                | conv :: fmt => ts ← format_types fuel fmt; Some (conv_types conv length ++ ts)
                end
            end
      end
  end.
Definition types_of_format (fmt : list Z) : option (list ArgType) := format_types (S (length fmt)) fmt.

(** ** The reference formatter

    The text of a format, without buffers and chunks. *)

(** The digits of a number below [base ^ n], and their value. *)
Definition digit_char (d : Z) : Z := if d <? 10 then 48 + d else 87 + d.
Fixpoint numeral (n : nat) (base v : Z) : list Z :=
  match n with
  | O => []
  | S n => if v =? 0 then [] else numeral n base (v / base) ++ [digit_char (v `mod` base)]
  end.
Definition number_text (base v : Z) : list Z := if v =? 0 then [48] else numeral 64 base v.
Definition padded (width pad : Z) (ds : list Z) : list Z := replicate (Z.to_nat (Z.min width 64) - length ds) pad ++ ds.

(** The text of a conversion, and the arguments left. *)
Definition conversion_text (conv : Z) (length : Length) (width pad : Z) (args : list Arg) : option (list Z * list Arg) :=
  if (conv =? 100) || (conv =? 105) then
    '(v, args) ← signed_arg length args;
    Some ((if v <? 0 then [45] else []) ++ padded width pad (number_text 10 (Z.abs v)), args)
  else if (conv =? 117) || (conv =? 120) then
    '(v, args) ← unsigned_arg length args;
    Some (padded width pad (number_text (if conv =? 120 then 16 else 10) v), args)
  else if conv =? 112 then
    match args with APointer v :: args => Some (string_bytes "0x" ++ padded 16 48 (number_text 16 v), args) | _ => None end
  else if conv =? 115 then match args with AString s :: args => Some (s, args) | _ => None end
  else if conv =? 99 then match args with AInt v :: args => Some ([u8 v], args) | _ => None end
  else Some (if conv =? 37 then [37] else [], args).

Fixpoint format_text_loop (fuel : nat) (fmt : list Z) (args : list Arg) : option (list Z) :=
  match fuel with
  | O => None
  | S fuel =>
      match fmt with
      | [] => Some []
      | c :: fmt =>
          if negb (c =? 37) then cons c <$> format_text_loop fuel fmt args
          else
            match fmt with
            | [] => Some []
            | _ =>
                let '(pad, fmt) := parse_pad fmt in
                '(width, fmt) ← parse_width fmt 0;
                let '(length, fmt) := parse_length fmt in
                match fmt with
                | [] => None
                | conv :: fmt => '(t, args) ← conversion_text conv length width pad args; app t <$> format_text_loop fuel fmt args
                end
            end
      end
  end.
Definition format_text (fmt : list Z) (args : list Arg) : option (list Z) := format_text_loop (S (length fmt)) fmt args.

Lemma digits_char d : 0 <= d < 16 → digits !! Z.to_nat d = Some (digit_char d).
Proof.
  intros Hd. assert (Forall (λ d, digits !! Z.to_nat d = Some (digit_char d)) (seqZ 0 16)) as H by by apply (bool_decide_unpack _).
  rewrite Forall_forall in H. apply H, elem_of_seqZ. lia.
Qed.
Lemma digit_char_value d : 0 <= d < 16 → digit_value (digit_char d) = d.
Proof. intros Hd. unfold digit_value, digit_char. destruct (d <? 10) eqn:E; case_match; lia. Qed.

(** The digits have the value of the number. *)
Lemma numeral_value n base v : 2 <= base <= 16 → 0 <= v < base ^ Z.of_nat n → number_value base (numeral n base v) = v.
Proof.
  intros Hb. revert v. induction n as [|n IH]; intros v Hv; cbn [numeral]; [cbn in Hv |- *; lia|].
  destruct (v =? 0) eqn:E; [cbn; lia|]. pose proof (digit_char_value (v `mod` base) ltac:(pose proof (Z.mod_pos_bound v base); lia)) as Hcv.
  rewrite Nat2Z.inj_succ, Z.pow_succ_r in Hv by lia. rewrite number_value_snoc, Hcv, IH; [pose proof (Z.div_mod v base); lia|]. split; [apply Z.div_pos; lia|].
  apply Z.div_lt_upper_bound; lia.
Qed.

Lemma digit_loop_numeral n fuel base v reversed :
  2 <= base <= 16 → 0 <= v < 2 ^ Z.of_nat n → (length reversed + n <= 64)%nat → (n < fuel)%nat →
  digit_loop fuel v base reversed = Some (reversed ++ rev (numeral n base v)).
Proof.
  intros Hb. revert fuel v reversed. induction n as [|n IH]; intros fuel v reversed Hv Hl Hf; (destruct fuel as [|fuel]; [lia|]); cbn [digit_loop numeral].
  { cbn in Hv. replace v with 0 by lia. cbn. by rewrite app_nil_r. }
  destruct (v =? 0) eqn:E; [cbn; by rewrite app_nil_r|]. replace (_ <? 64)%nat with true by (symmetry; apply Nat.ltb_lt; lia). cbn [negb andb].
  rewrite digits_char by (pose proof (Z.mod_pos_bound v base); lia). cbn [mbind option_bind].
  rewrite Nat2Z.inj_succ, Z.pow_succ_r in Hv by lia. rewrite IH; [|split; [apply Z.div_pos; lia|apply Z.div_lt_upper_bound; nia]|rewrite length_app; cbn; lia|lia].
  by rewrite rev_app_distr, <- app_assoc.
Qed.

Lemma length_numeral n base v : (length (numeral n base v) <= n)%nat.
Proof. revert v. induction n as [|n IH]; intros v; cbn [numeral]; [done|]. destruct (v =? 0); [cbn; lia|]. rewrite length_app. specialize (IH (v / base)). cbn. lia. Qed.

Lemma rev_replicate {A} n (x : A) : rev (replicate n x) = replicate n x.
Proof. rewrite rev_alt. apply reverse_replicate. Qed.

Lemma wp_print_number v base width pad c (Q : () → Console → Prop) :
  2 <= base <= 16 → 0 <= v < 2 ^ 64 → Q () (console_write (padded width pad (number_text base v)) c) → wp (print_number v base width pad) c Q.
Proof.
  intros Hb Hv HQ. unfold print_number.
  assert ((if v =? 0 then mret [48] else defined (digit_loop 65 v base [])) = (mret (rev (number_text base v)) : M Console (list Z))) as ->.
  { unfold number_text. destruct (v =? 0); [done|]. rewrite (digit_loop_numeral 64) by (cbn; lia). done. }
  assert (length (rev (number_text base v)) <= 64)%nat as Hlen.
  { rewrite length_rev. unfold number_text. destruct (v =? 0); [cbn; lia|]. apply length_numeral. }
  do 2 wp_step. rewrite (pad_loop_spec 65 width pad _ Hlen) by lia. do 2 wp_step. unfold write. wp_step.
  unfold padded in HQ. rewrite rev_app_distr, rev_involutive, length_rev, rev_replicate. exact HQ.
Qed.

Lemma console_write_write s t c : console_write t (console_write s c) = console_write (s ++ t) c.
Proof. destruct c; [done|]. cbn. by rewrite app_assoc. Qed.
Lemma console_write_nil c : console_write [] c = c.
Proof. destruct c; [done|]. cbn. by rewrite app_nil_r. Qed.

(** An argument of the expected type. *)
Lemma signed_arg_typed length args ts :
  type_of <$> args = signed_type length :: ts → Forall arg_ok args →
  ∃ v args', signed_arg length args = Some (v, args') ∧ - 2 ^ 63 < v < 2 ^ 63 ∧ type_of <$> args' = ts ∧ Forall arg_ok args'.
Proof.
  intros Ht Hok. destruct args as [|a args]; [done|]. injection Ht as Ha Ht. apply Forall_cons in Hok as [Hok Hoks].
  destruct length, a; try done; cbn [arg_ok] in Hok; eexists _, args; (split; [reflexivity|]); (split; [unfold signed64; try case_match; lia|done]).
Qed.
Lemma unsigned_arg_typed length args ts :
  type_of <$> args = unsigned_type length :: ts → Forall arg_ok args →
  ∃ v args', unsigned_arg length args = Some (v, args') ∧ 0 <= v < 2 ^ 64 ∧ type_of <$> args' = ts ∧ Forall arg_ok args'.
Proof.
  intros Ht Hok. destruct args as [|a args]; [done|]. injection Ht as Ha Ht. apply Forall_cons in Hok as [Hok Hoks].
  destruct length, a; try done; cbn [arg_ok] in Hok; eexists _, args; (split; [reflexivity|]); (split; [lia|done]).
Qed.

Lemma wp_convert conv length width pad args ts c (Q : list Arg → Console → Prop) :
  type_of <$> args = conv_types conv length ++ ts → Forall arg_ok args →
  (∀ t args', conversion_text conv length width pad args = Some (t, args') → type_of <$> args' = ts → Forall arg_ok args' →
    Q args' (console_write t c)) → wp (convert conv length width pad args) c Q.
Proof.
  intros Ht Hok HQ. unfold conv_types in Ht. unfold conversion_text in HQ. unfold convert, puts, putchar, write, char_of_int in *.
  destruct (_ || _); [|destruct (_ || _); [|destruct (conv =? 112); [|destruct (conv =? 115); [|destruct (conv =? 99)]]]].
  - destruct (signed_arg_typed length args ts Ht Hok) as (v & args' & Hv & Hr & Ht' & Hok'). wp_step. wp_step. cbn iota beta.
    rewrite Hv in HQ. specialize (HQ _ _ eq_refl Ht' Hok').
    destruct (v <? 0) eqn:E.
    + do 2 wp_step. replace (v =? _) with false by lia. wp_step. apply wp_print_number; [lia|lia|]. wp_step.
      rewrite console_write_write. replace (- v) with (Z.abs v) by lia. exact HQ.
    + wp_step. apply wp_print_number; [lia|lia|]. wp_step. replace v with (Z.abs v) by lia. exact HQ.
  - destruct (unsigned_arg_typed length args ts Ht Hok) as (v & args' & Hv & Hr & Ht' & Hok'). wp_step. wp_step. cbn iota beta.
    rewrite Hv in HQ. specialize (HQ _ _ eq_refl Ht' Hok'). wp_step. apply wp_print_number; [destruct (conv =? 120); lia|lia|]. wp_step. exact HQ.
  - destruct args as [|[] args]; try done. injection Ht as Ht. apply Forall_cons in Hok as [Hv Hok]. specialize (HQ _ _ eq_refl Ht Hok). do 3 wp_step.
    apply wp_print_number; [lia|exact Hv|]. wp_step. rewrite console_write_write. exact HQ.
  - destruct args as [|[] args]; try done. injection Ht as Ht. apply Forall_cons in Hok as [Hv Hok]. specialize (HQ _ _ eq_refl Ht Hok). do 3 wp_step. exact HQ.
  - destruct args as [|[] args]; try done. injection Ht as Ht. apply Forall_cons in Hok as [Hv Hok]. specialize (HQ _ _ eq_refl Ht Hok). do 3 wp_step. exact HQ.
  - specialize (HQ _ _ eq_refl Ht Hok). destruct (conv =? 37); [do 2 wp_step; wp_step; exact HQ|]. wp_step. by rewrite console_write_nil in HQ.
Qed.

(** [chunk] has been read and not been written yet. *)
Lemma wp_vprintf_loop fuel chunk fmt args ts c (Q : () → Console → Prop) :
  format_types fuel fmt = Some ts → ts `prefix_of` (type_of <$> args) → Forall arg_ok args →
  (∀ t, format_text_loop fuel fmt args = Some t → Q () (console_write (chunk ++ t) c)) → wp (vprintf_loop fuel chunk fmt args) c Q.
Proof.
  revert chunk fmt args ts c Q. induction fuel as [|fuel IH]; intros chunk fmt args ts c Q Hf Ht Hok HQ; [done|]. cbn [format_types vprintf_loop format_text_loop] in *.
  assert (∀ R, R () (console_write chunk c) → wp (if (length chunk =? 0)%nat then mret () else write chunk) c R) as Hchunk.
  { intros R HR. unfold write. destruct chunk; cbn [length Nat.eqb]; wp_step; [by rewrite console_write_nil in HR|exact HR]. }
  destruct fmt as [|x fmt]; [apply Hchunk; specialize (HQ [] eq_refl); by rewrite app_nil_r in HQ|]. destruct (negb (x =? 37)).
  { eapply IH; [exact Hf|done|done|]. intros t Htx. rewrite Htx in HQ. specialize (HQ _ eq_refl). by rewrite <- app_assoc. }
  wp_step. apply Hchunk.
  destruct fmt as [|y fmt]; [wp_step; specialize (HQ [] eq_refl); by rewrite app_nil_r in HQ|]. destruct (parse_pad (y :: fmt)) as [pad fmt1]. wp_step.
  destruct (parse_width fmt1 0) as [[width fmt2]|]; [|done]. cbn [mbind option_bind] in Hf, HQ. wp_step.
  destruct (parse_length fmt2) as [len fmt3] eqn:Hlen. destruct fmt3 as [|conv fmt3]; [done|].
  destruct (format_types fuel fmt3) as [ts'|] eqn:E; [|done]. cbn [mbind option_bind] in Hf. injection Hf as <-.
  destruct Ht as [extra Ht]. rewrite <- app_assoc in Ht.
  try wp_step. rewrite ?Hlen. wp_step. eapply wp_convert; [exact Ht|done|]. intros t args' Hconv Ht' Hok'. eapply IH; [exact E|by exists extra|done|].
  intros t' Htx. rewrite Hconv in HQ. cbn [mbind option_bind] in HQ. rewrite Htx in HQ. specialize (HQ _ eq_refl).
  rewrite app_nil_l, !console_write_write. exact HQ.
Qed.

(** The formatter takes these arguments, whatever the console holds. *)
Definition printable (fmt : list Z) (args : list Arg) : Prop := ∀ c, is_Some (vprintf fmt args c).

(** Formats and their types. *)
Lemma wp_vprintf fmt args ts c (Q : () → Console → Prop) :
  types_of_format fmt = Some ts → ts `prefix_of` (type_of <$> args) → Forall arg_ok args →
  (∀ t, format_text fmt args = Some t → Q () (console_write t c)) → wp (vprintf fmt args) c Q.
Proof. intros Hf Ht Hok HQ. unfold vprintf. by eapply wp_vprintf_loop. Qed.

Lemma typed_printable fmt args ts :
  types_of_format fmt = Some ts → ts `prefix_of` (type_of <$> args) → Forall arg_ok args → printable fmt args.
Proof.
  intros Hf Ht Hok c. destruct (wp_vprintf fmt args ts c (λ _ _, True) Hf Ht Hok) as (u & c' & -> & _); [done|]. by eexists.
Qed.
Lemma unsigned_printable fmt v : types_of_format fmt = Some [TUnsigned] → printable fmt [AUnsigned (u32 v)].
Proof.
  intros Hf. apply (typed_printable _ _ _ Hf); [done|]. apply Forall_singleton. pose proof (u32_range v). cbn [arg_ok]. lia.
Qed.

(** ** Directives *)

Definition letters (len : Length) : list Z :=
  match len with
  | LNone => [] | LChar => [104; 104] | LShort => [104] | LLong => [108] | LLongLong => [108; 108] | LSize => [122]
  end.
Definition is_digit (c : Z) : Prop := 48 <= c <= 57.

(** A percent sign, the flag 0 or none, the digits of the width, the letters of the
    length and the conversion character. *)
Definition directive (zero : bool) (ds : list Z) (len : Length) (conv : Z) : list Z :=
  37 :: (if zero then [48] else []) ++ ds ++ letters len ++ [conv].

(** The width fits an [int]; each part is as long as it can be. *)
Definition directive_ok (zero : bool) (ds : list Z) (len : Length) (conv : Z) : Prop :=
  Forall is_digit ds ∧ (zero = false → head ds ≠ Some 48) ∧ number_value 10 ds <= INT_MAX ∧
  match len with
  | LNone => ¬ is_digit conv ∧ conv ∉ [104; 108; 122]
  | LShort => conv ≠ 104
  | LLong => conv ≠ 108
  | LChar | LLongLong | LSize => True
  end.

Definition value_from (acc : Z) (ds : list Z) : Z := foldl (λ acc c, acc * 10 + digit_value c) acc ds.

Lemma value_from_le acc ds : 0 <= acc → Forall is_digit ds → acc <= value_from acc ds.
Proof.
  intros Ha Hd. revert acc Ha. induction Hd as [|c ds Hc _ IH]; intros acc Ha; [cbn; lia|]. unfold is_digit in Hc.
  change (value_from acc (c :: ds)) with (value_from (acc * 10 + digit_value c) ds).
  assert (digit_value c = c - 48) as E by (unfold digit_value; destruct (c <=? 57) eqn:?; lia).
  pose proof (IH (acc * 10 + digit_value c)). lia.
Qed.

Lemma parse_width_digits ds rest acc :
  0 <= acc → Forall is_digit ds → value_from acc ds <= INT_MAX → from_option (λ c, ¬ is_digit c) True (head rest) →
  parse_width (ds ++ rest) acc = Some (value_from acc ds, rest).
Proof.
  intros Ha Hd. revert acc Ha. induction Hd as [|c ds Hc Hds IH]; intros acc Ha Hm Hr; cbn [app parse_width].
  - destruct rest as [|c rest]; [done|]. cbn in Hr. unfold is_digit in Hr. cbn [parse_width].
    by replace ((48 <=? c) && (c <=? 57)) with false by lia.
  - unfold is_digit in Hc. change (value_from acc (c :: ds)) with (value_from (acc * 10 + digit_value c) ds) in *.
    assert (digit_value c = c - 48) as E by (unfold digit_value; destruct (c <=? 57) eqn:?; lia). rewrite E in *.
    replace ((48 <=? c) && (c <=? 57)) with true by lia. cbn zeta.
    pose proof (value_from_le (acc * 10 + (c - 48)) ds ltac:(lia) Hds).
    replace (_ >? INT_MAX) with false by lia. by apply IH; [lia|..].
Qed.

Lemma parse_width_inv fmt acc w rest :
  0 <= acc <= INT_MAX → parse_width fmt acc = Some (w, rest) →
  ∃ ds, fmt = ds ++ rest ∧ Forall is_digit ds ∧ w = value_from acc ds ∧ w <= INT_MAX ∧ from_option (λ c, ¬ is_digit c) True (head rest).
Proof.
  revert acc. induction fmt as [|c fmt IH]; intros acc Ha; cbn [parse_width].
  { intros [= <- <-]. exists []. repeat split; [constructor|cbn; lia]. }
  destruct ((48 <=? c) && (c <=? 57)) eqn:E; [destruct (_ >? INT_MAX) eqn:Eo; [done|]|].
  - intros H. apply IH in H as (ds & -> & Hd & -> & Hw & Hr); [|lia]. exists (c :: ds).
    assert (digit_value c = c - 48) as Ev by (unfold digit_value; destruct (c <=? 57) eqn:?; lia).
    split; [done|]. split; [constructor; [unfold is_digit; lia|done]|]. split; [|done]. cbn. by rewrite Ev.
  - intros [= <- <-]. exists []. repeat split; [constructor|cbn; lia|cbn; unfold is_digit; lia].
Qed.

Lemma parse_length_letters len conv rest :
  match len with LNone => conv ∉ [104; 108; 122] | LShort => conv ≠ 104 | LLong => conv ≠ 108 | _ => True end →
  parse_length (letters len ++ conv :: rest) = (len, conv :: rest).
Proof.
  intros H. destruct len; cbn; try done.
  - rewrite !not_elem_of_cons in H. destruct H as (? & ? & ? & _). by repeat (case_match; [lia|]).
  - by replace (conv =? 104) with false by lia.
  - by replace (conv =? 108) with false by lia.
Qed.

Lemma parse_length_inv fmt len conv rest :
  parse_length fmt = (len, conv :: rest) →
  fmt = letters len ++ conv :: rest ∧
  match len with LNone => conv ∉ [104; 108; 122] | LShort => conv ≠ 104 | LLong => conv ≠ 108 | _ => True end.
Proof.
  destruct fmt as [|c fmt]; cbn [parse_length]; [done|].
  destruct (c =? 104) eqn:E1; [assert (c = 104) as -> by lia|destruct (c =? 108) eqn:E2; [assert (c = 108) as -> by lia|destruct (c =? 122) eqn:E3; [assert (c = 122) as -> by lia|]]].
  - destruct fmt as [|d fmt]; [done|]. destruct (d =? 104) eqn:E.
    + intros [= <- ->]. assert (d = 104) as -> by lia. done.
    + intros [= <- -> ->]. split; [done|lia].
  - destruct fmt as [|d fmt]; [done|]. destruct (d =? 108) eqn:E.
    + intros [= <- ->]. assert (d = 108) as -> by lia. done.
    + intros [= <- -> ->]. split; [done|lia].
  - by intros [= <- ->].
  - intros [= <- -> ->]. split; [done|]. rewrite !not_elem_of_cons. split_and!; [lia..|apply not_elem_of_nil].
Qed.

(** The parts of a directive are what [vprintf] takes it apart into; and whatever it
    takes apart is a directive. *)
Definition pad_of (zero : bool) : Z := if zero then 48 else 32.

Lemma parse_directive zero ds len conv rest :
  directive_ok zero ds len conv →
  ∃ fmt1 fmt2, parse_pad (tail (directive zero ds len conv) ++ rest) = (pad_of zero, fmt1) ∧
    parse_width fmt1 0 = Some (number_value 10 ds, fmt2) ∧ parse_length fmt2 = (len, conv :: rest).
Proof.
  intros (Hd & Hz & Hw & Hl). exists (ds ++ letters len ++ conv :: rest), (letters len ++ conv :: rest). split; [|split].
  - cbn [tail directive]. replace (((if zero then [48] else []) ++ ds ++ letters len ++ [conv]) ++ rest)
      with ((if zero then [48] else []) ++ ds ++ letters len ++ conv :: rest) by (by rewrite <- !app_assoc).
    destruct zero; cbn [app]; [done|]. specialize (Hz eq_refl). unfold parse_pad.
    destruct (ds ++ letters len ++ conv :: rest) as [|c l] eqn:E; [done|]. destruct (c =? 48) eqn:Ec; [|done]. exfalso.
    assert (c = 48) as -> by lia. destruct ds as [|d ds]; [|injection E as -> _; by apply Hz].
    destruct len; cbn in E; try done. injection E as -> _. destruct Hl as [Hl _]. apply Hl. unfold is_digit. lia.
  - apply parse_width_digits; [lia|done|done|]. destruct len; cbn; unfold is_digit in *; try lia.
  - apply parse_length_letters. destruct len; try done. tauto.
Qed.

Lemma parse_directive_inv fmt fmt1 fmt2 pad width len conv rest :
  parse_pad fmt = (pad, fmt1) → parse_width fmt1 0 = Some (width, fmt2) → parse_length fmt2 = (len, conv :: rest) →
  ∃ zero ds, directive_ok zero ds len conv ∧ 37 :: fmt = directive zero ds len conv ++ rest.
Proof.
  intros Hp Hw Hl. apply parse_width_inv in Hw as (ds & -> & Hd & -> & Hmax & Hr); [|unfold INT_MAX; lia].
  apply parse_length_inv in Hl as [-> Hlen].
  assert (∃ zero : bool, fmt = (if zero then [48] else []) ++ ds ++ letters len ++ conv :: rest ∧ (zero = false → head ds ≠ Some 48)) as (zero & -> & Hz).
  { unfold parse_pad in Hp. destruct fmt as [|c fmt]; [injection Hp as _ Hp; by destruct ds, len|].
    destruct (c =? 48) eqn:E; injection Hp as _ Hp.
    - exists true. assert (c = 48) as -> by lia. by rewrite Hp.
    - exists false. rewrite Hp. split; [done|]. intros _ Hh. destruct ds as [|d ds]; [done|]. injection Hh as ->. injection Hp as Hp _. lia. }
  exists zero, ds. split; [|unfold directive; cbn [app]; by rewrite <- !app_assoc].
  split; [done|]. split; [done|]. split; [done|]. destruct len; try done.
Qed.

Lemma format_types_directive fuel zero ds len conv rest :
  directive_ok zero ds len conv →
  format_types (S fuel) (directive zero ds len conv ++ rest) = (ts ← format_types fuel rest; Some (conv_types conv len ++ ts)).
Proof.
  intros Hok. destruct (parse_directive zero ds len conv rest Hok) as (f1 & f2 & H1 & H2 & H3).
  change (directive zero ds len conv ++ rest) with (37 :: tail (directive zero ds len conv) ++ rest). cbn [format_types].
  change (negb (37 =? 37)) with false. cbn iota.
  destruct (tail (directive zero ds len conv) ++ rest) as [|c l] eqn:E.
  { cbn [tail directive] in E. by destruct zero, ds, len. }
  rewrite H1, H2. cbn [mbind option_bind]. by rewrite H3.
Qed.

Lemma format_text_directive fuel zero ds len conv rest args :
  directive_ok zero ds len conv →
  format_text_loop (S fuel) (directive zero ds len conv ++ rest) args =
  ('(t, args) ← conversion_text conv len (number_value 10 ds) (pad_of zero) args; app t <$> format_text_loop fuel rest args).
Proof.
  intros Hok. destruct (parse_directive zero ds len conv rest Hok) as (f1 & f2 & H1 & H2 & H3).
  change (directive zero ds len conv ++ rest) with (37 :: tail (directive zero ds len conv) ++ rest). cbn [format_text_loop].
  change (negb (37 =? 37)) with false. cbn iota.
  destruct (tail (directive zero ds len conv) ++ rest) as [|c l] eqn:E.
  { cbn [tail directive] in E. by destruct zero, ds, len. }
  rewrite H1, H2. cbn [mbind option_bind]. by rewrite H3.
Qed.

(** ** The grammar of formats

    Formats and the types of their arguments: plain characters, directives, and a
    percent sign at the end. *)
Inductive well_formed : list Z → list ArgType → Prop :=
| wf_end : well_formed [] []
| wf_percent : well_formed [37] []
| wf_plain c fmt ts : c ≠ 37 → well_formed fmt ts → well_formed (c :: fmt) ts
| wf_directive zero ds len conv fmt ts :
    directive_ok zero ds len conv → well_formed fmt ts →
    well_formed (directive zero ds len conv ++ fmt) (conv_types conv len ++ ts).

Lemma well_formed_types fmt ts fuel : well_formed fmt ts → (length fmt < fuel)%nat → format_types fuel fmt = Some ts.
Proof.
  intros Hw. revert fuel. induction Hw as [| |c fmt ts Hc Hw IH|zero ds len conv fmt ts Hok Hw IH]; intros [|fuel] Hf; try lia; try done.
  - cbn [format_types]. replace (negb (c =? 37)) with true by lia. apply IH. cbn in Hf. lia.
  - rewrite format_types_directive by done. rewrite IH; [done|]. unfold directive in Hf. rewrite length_app in Hf. cbn in Hf. lia.
Qed.

Ltac take_defined H :=
  lazymatch type of H with (defined (Some ?p) ≫= ?f) ?c = ?r => change (f p c = r) in H end; cbn iota beta in H.

(** A conversion that returns has taken arguments of its types. *)
Lemma convert_types conv len width pad args c args' c' :
  convert conv len width pad args c = Some (args', c') → type_of <$> args = conv_types conv len ++ (type_of <$> args').
Proof.
  assert (∀ (m : M Console ()) l c0, (_ ← m; mret l) c0 = Some (args', c') → l = args') as Hret.
  { intros m l c0. unfold mbind, M_bind. destruct (m c0) as [[u c1]|]; [|done]. by intros [= -> _]. }
  unfold convert, conv_types. intros H.
  destruct (_ || _); [|destruct (_ || _); [|destruct (conv =? 112); [|destruct (conv =? 115); [|destruct (conv =? 99); [|destruct (conv =? 37)]]]]].
  - destruct (signed_arg len args) as [[v l]|] eqn:E; [|done]. take_defined H.
    assert (l = args') as ->.
    { destruct (v <? 0); [|by apply Hret in H]. unfold mbind at 1, M_bind in H. destruct (putchar 45 c) as [[u c1]|]; [|done].
      destruct (v =? _); [done|]. unfold mbind, M_bind in H. destruct (print_number _ _ _ _ c1) as [[]|]; [|done]. by injection H as ->. }
    destruct len, args as [|[] args]; try done; injection E as _ <-; done.
  - destruct (unsigned_arg len args) as [[v l]|] eqn:E; [|done]. take_defined H. apply Hret in H as ->.
    destruct len, args as [|[] args]; try done; injection E as _ <-; done.
  - destruct args as [|[] args]; try done. unfold mbind at 1, M_bind in H. cbn in H. apply Hret in H as ->. done.
  - destruct args as [|[] args]; try done. apply Hret in H as ->. done.
  - destruct args as [|[] args]; try done. apply Hret in H as ->. done.
  - apply Hret in H as ->. done.
  - by injection H as ->.
Qed.

Lemma vprintf_loop_types fuel chunk fmt args c r :
  vprintf_loop fuel chunk fmt args c = Some r → ∃ ts, well_formed fmt ts ∧ ts `prefix_of` (type_of <$> args).
Proof.
  revert chunk fmt args c. induction fuel as [|fuel IH]; intros chunk fmt args c H; [done|]. cbn [vprintf_loop] in H.
  destruct fmt as [|x fmt]; [exists []; split; [constructor|apply prefix_nil]|]. destruct (negb (x =? 37)) eqn:Ex.
  { apply IH in H as (ts & Hw & Hp). exists ts. split; [|done]. constructor; [lia|done]. }
  assert (x = 37) as -> by lia. unfold mbind at 1, M_bind in H. lazymatch type of H with match ?m with _ => _ end = _ => destruct m as [[u c1]|]; [|done] end.
  destruct fmt as [|y fmt]; [exists []; split; [constructor|apply prefix_nil]|]. destruct (parse_pad (y :: fmt)) as [pad f1] eqn:Hpad.
  destruct (parse_width f1 0) as [[width f2]|] eqn:Hwidth; [|discriminate H]. take_defined H. destruct (parse_length f2) as [len f3] eqn:Hlen.
  destruct f3 as [|conv rest]; [done|]. unfold mbind, M_bind in H.
  destruct (convert conv len width pad args c1) as [[args' c2]|] eqn:Hconv; [|done].
  apply convert_types in Hconv. apply IH in H as (ts & Hw & extra & Hp).
  destruct (parse_directive_inv _ _ _ _ _ _ _ _ Hpad Hwidth Hlen) as (zero & ds & Hok & ->).
  exists (conv_types conv len ++ ts). split; [by constructor|]. exists extra. by rewrite Hconv, Hp, app_assoc.
Qed.



(** ** Formats as C reads them

    The pieces of a format with the values they print: a character, a percent sign,
    numbers in decimal and in hexadecimal with the flag 0, the width (0 for none)
    and the length, a pointer, a string and a character. *)
Inductive Piece :=
| PPlain (c : Z)
| PPercent
| PSigned (letter_i zero : bool) (width : Z) (len : Length) (v : Z)
| PUnsigned (hex zero : bool) (width : Z) (len : Length) (v : Z)
| PPointer (v : Z)
| PString (s : list Z)
| PCharacter (v : Z).

Definition width_digits (w : Z) : list Z := if w =? 0 then [] else number_text 10 w.
Definition show (p : Piece) : list Z :=
  match p with
  | PPlain c => [c]
  | PPercent => [37; 37]
  | PSigned i zero w len _ => directive zero (width_digits w) len (if i then 105 else 100)
  | PUnsigned hex zero w len _ => directive zero (width_digits w) len (if hex then 120 else 117)
  | PPointer _ => directive false [] LNone 112
  | PString _ => directive false [] LNone 115
  | PCharacter _ => directive false [] LNone 99
  end.

(** The argument of a piece; a [size_t] holds the bits of its signed counterpart. *)
Definition argument (p : Piece) : list Arg :=
  match p with
  | PPlain _ | PPercent => []
  | PSigned _ _ _ len v =>
      [match len with LLongLong => ALongLong v | LLong => ALong v | LSize => ASize (v mod 2 ^ 64) | _ => AInt v end]
  | PUnsigned _ _ _ len v =>
      [match len with LLongLong => AULongLong v | LLong => AULong v | LSize => ASize v | _ => AUnsigned v end]
  | PPointer v => [APointer v]
  | PString s => [AString s]
  | PCharacter v => [AInt v]
  end.

(** C converts a number to the type the length names; the field is as wide as asked,
    with zeros behind the sign or spaces before it. The form of a pointer is left to
    the implementation: 0x and sixteen digits. *)
Definition c_bits (len : Length) : Z :=
  match len with LChar => 8 | LShort => 16 | LNone => 32 | LLong | LLongLong | LSize => 64 end.
Definition c_unsigned (len : Length) (v : Z) : Z := v mod 2 ^ c_bits len.
Definition c_signed (len : Length) (v : Z) : Z :=
  let u := c_unsigned len v in if u <? 2 ^ (c_bits len - 1) then u else u - 2 ^ c_bits len.
Definition c_field (zero : bool) (width : Z) (sign ds : list Z) : list Z :=
  let fill := (Z.to_nat width - length (sign ++ ds))%nat in
  if zero then sign ++ replicate fill 48 ++ ds else replicate fill 32 ++ sign ++ ds.
Definition c_text (p : Piece) : list Z :=
  match p with
  | PPlain c => [c]
  | PPercent => [37]
  | PSigned _ zero w len v =>
      let x := c_signed len v in c_field zero w (if x <? 0 then [45] else []) (number_text 10 (Z.abs x))
  | PUnsigned hex zero w len v => c_field zero w [] (number_text (if hex then 16 else 10) (c_unsigned len v))
  | PPointer v => [48; 120] ++ c_field true 16 [] (number_text 16 v)
  | PString s => s
  | PCharacter v => [v mod 256]
  end.

(** The pieces that are printed as C does: the value is one of the type that the
    length names (and not the smallest [long]), the width is at most 64, and behind
    a minus sign there is nothing to fill. *)
Definition piece_ok (p : Piece) : Prop :=
  Forall arg_ok (argument p) ∧
  match p with
  | PPlain c => c ≠ 37
  | PSigned _ _ w len v => c_signed len v = v ∧ 0 <= w <= 64 ∧ (v < 0 → w <= Z.of_nat (length (number_text 10 (- v))))
  | PUnsigned _ _ w len v => c_unsigned len v = v ∧ 0 <= w <= 64
  | PPercent | PPointer _ | PString _ | PCharacter _ => True
  end.

Lemma width_digits_ok w : 0 <= w <= 64 →
  Forall is_digit (width_digits w) ∧ head (width_digits w) ≠ Some 48 ∧ number_value 10 (width_digits w) = w.
Proof.
  intros Hw. assert (Forall (λ w, Forall is_digit (width_digits w) ∧ head (width_digits w) ≠ Some 48 ∧ number_value 10 (width_digits w) = w)
    (seqZ 0 65)) as H by (apply (bool_decide_unpack _); by vm_compute).
  rewrite Forall_forall in H. apply H, elem_of_seqZ. lia.
Qed.

Lemma directive_width zero w len conv : 0 <= w <= 64 → conv ∈ [100; 105; 117; 120] → directive_ok zero (width_digits w) len conv.
Proof.
  intros Hw Hc. destruct (width_digits_ok w Hw) as (H1 & H2 & H3). split; [done|]. split; [done|]. split; [unfold INT_MAX; lia|].
  rewrite !elem_of_cons, elem_of_nil in Hc. destruct len; try done; unfold is_digit; rewrite ?not_elem_of_cons;
    split_and?; try lia; apply not_elem_of_nil.
Qed.

(** Every piece but a plain character is a directive. *)
Definition directive_of (p : Piece) : option (bool * list Z * Length * Z) :=
  match p with
  | PPlain _ => None
  | PPercent => Some (false, [], LNone, 37)
  | PSigned i zero w len _ => Some (zero, width_digits w, len, if i then 105 else 100)
  | PUnsigned hex zero w len _ => Some (zero, width_digits w, len, if hex then 120 else 117)
  | PPointer _ => Some (false, [], LNone, 112)
  | PString _ => Some (false, [], LNone, 115)
  | PCharacter _ => Some (false, [], LNone, 99)
  end.

Lemma directive_of_ok p zero ds len conv :
  piece_ok p → directive_of p = Some (zero, ds, len, conv) →
  show p = directive zero ds len conv ∧ directive_ok zero ds len conv ∧ conv_types conv len = type_of <$> argument p.
Proof.
  intros [_ Hp] H. assert (∀ c, ¬ is_digit c → c ∉ [104; 108; 122] → directive_ok false [] LNone c) as Hsimple.
  { intros c H1 H2. split; [constructor|]. by repeat split. }
  destruct p as [c| |i z w l v|h z w l v|v|s|v]; cbn [directive_of] in H; [done|..]; injection H as <- <- <- <-.
  2,3: split; [done|]; split; [apply directive_width; [apply Hp|destruct i || destruct h; rewrite !elem_of_cons; tauto]|].
  2: by destruct i, l.
  2: by destruct h, l.
  all: split; [done|]; split; [|done]; apply Hsimple; [unfold is_digit; lia|]; by apply (bool_decide_unpack _).
Qed.

Lemma padded_field zero w ds : 0 <= w <= 64 → padded w (pad_of zero) ds = c_field zero w [] ds.
Proof. intros Hw. unfold padded, c_field. rewrite Z.min_l by lia. by destruct zero. Qed.

Lemma padded_sign zero w ds : 0 <= w <= 64 → w <= Z.of_nat (length ds) → [45] ++ padded w (pad_of zero) ds = c_field zero w [45] ds.
Proof.
  intros Hw Hl. unfold padded, c_field. rewrite Z.min_l by lia. cbn [app length].
  replace (Z.to_nat w - length ds)%nat with 0%nat by lia. replace (Z.to_nat w - S (length ds))%nat with 0%nat by lia. by destruct zero.
Qed.

Lemma conversion_text_piece p zero ds len conv args :
  piece_ok p → directive_of p = Some (zero, ds, len, conv) →
  conversion_text conv len (number_value 10 ds) (pad_of zero) (argument p ++ args) = Some (c_text p, args).
Proof.
  intros [Ha Hp] H. destruct p as [c| |i z w l v|h z w l v|v|s|v]; cbn [directive_of] in H; [done|..]; injection H as <- <- <- <-; cbn [c_text].
  - done.
  - destruct Hp as (Hv & Hw & Hneg). destruct (width_digits_ok w Hw) as (_ & _ & ->). rewrite Hv.
    assert (signed_arg l (argument (PSigned i z w l v) ++ args) = Some (v, args)) as Hs.
    { destruct l; try done. cbn in Hv |- *. do 2 f_equal. unfold signed64, c_signed, c_unsigned in *. cbn [c_bits] in Hv.
      change (2 ^ (64 - 1)) with 9223372036854775808 in Hv. exact Hv. }
    unfold conversion_text. replace (_ || _) with true by by destruct i. rewrite Hs. cbn [mbind option_bind]. do 2 f_equal.
    destruct (v <? 0) eqn:E; [|by apply padded_field]. replace (Z.abs v) with (- v) by lia. apply padded_sign; [done|lia].
  - destruct Hp as (Hv & Hw). destruct (width_digits_ok w Hw) as (_ & _ & ->). rewrite Hv.
    assert (unsigned_arg l (argument (PUnsigned h z w l v) ++ args) = Some (v, args)) as Hs by by destruct l.
    unfold conversion_text. replace (_ || _) with false by by destruct h. replace (((if h then 120 else 117) =? 117) || _) with true by by destruct h.
    rewrite Hs. cbn [mbind option_bind]. do 2 f_equal. rewrite padded_field by done. by destruct h.
  - done.
  - done.
  - done.
Qed.

Lemma pieces_well_formed ps : Forall piece_ok ps → well_formed (concat (show <$> ps)) (type_of <$> concat (argument <$> ps)).
Proof.
  induction 1 as [|p ps Hp _ IH]; [constructor|]. cbn [fmap list_fmap concat]. rewrite fmap_app.
  destruct (directive_of p) as [[[[zero ds] len] conv]|] eqn:E.
  - destruct (directive_of_ok p zero ds len conv Hp E) as (-> & Hok & <-). by constructor.
  - destruct p; try done. destruct Hp as [_ Hp]. by apply wf_plain.
Qed.

Lemma pieces_text ps fuel : Forall piece_ok ps → (length (concat (show <$> ps)) < fuel)%nat →
  format_text_loop fuel (concat (show <$> ps)) (concat (argument <$> ps)) = Some (concat (c_text <$> ps)).
Proof.
  intros Hps. revert fuel. induction Hps as [|p ps Hp _ IH]; intros [|fuel] Hf; try lia; [done|]. cbn [fmap list_fmap concat] in *.
  destruct (directive_of p) as [[[[zero ds] len] conv]|] eqn:E.
  - destruct (directive_of_ok p zero ds len conv Hp E) as (Es & Hok & _). rewrite Es in *. rewrite format_text_directive by done.
    rewrite (conversion_text_piece p zero ds len conv) by done. cbn [mbind option_bind]. rewrite IH; [done|].
    unfold directive in Hf. rewrite length_app in Hf. cbn in Hf. lia.
  - destruct p as [c| | | | | |]; try done. destruct Hp as [_ Hp]. cbn [show argument c_text app format_text_loop].
    replace (negb (c =? 37)) with true by lia. rewrite IH; [done|]. cbn in Hf. lia.
Qed.

(** C39: What [vprintf] writes, in chunks and through its buffers, is the text that
    the format and its arguments have in C, behind what was there: for any text and
    any sequence of directives with a flag 0, a width of up to 64 and any length,
    when the value is one of the type that the length names (and not the smallest
    [long]) and there is nothing to fill behind a minus sign; strings, characters
    and pointers without flag and width. *)
Theorem vprintf_as_c ps out :
  Forall piece_ok ps →
  vprintf (concat (show <$> ps)) (concat (argument <$> ps)) (LogConsole out) =
    Some ((), LogConsole (out ++ concat (c_text <$> ps))).
Proof.
  intros Hps. assert (Forall arg_ok (concat (argument <$> ps))) as Hok.
  { induction Hps as [|p ps [Hp _] _ IH]; [constructor|]. by apply Forall_app. }
  pose proof (well_formed_types _ _ _ (pieces_well_formed ps Hps) (Nat.lt_succ_diag_r _)) as Ht.
  destruct (wp_vprintf _ _ _ (LogConsole out) (λ _ c, c = LogConsole (out ++ concat (c_text <$> ps))) Ht ltac:(done) Hok)
    as ([] & c' & Hv & ->); [|exact Hv].
  intros t Hs. unfold format_text in Hs. rewrite pieces_text in Hs by (done || lia). by injection Hs as <-.
Qed.

(** "RSP: 0x%016lx, %5hhu%% at %s" *)
Definition sample : list Piece :=
  (PPlain <$> string_bytes "RSP: 0x") ++ [PUnsigned true true 16 LLong 0x7FFFFFFF] ++ (PPlain <$> string_bytes ", ") ++
  [PUnsigned false false 5 LChar 44; PPercent] ++ (PPlain <$> string_bytes " at ") ++ [PString [104; 105]].

Lemma vprintf_as_c_witness :
  Forall piece_ok sample ∧
  vprintf (string_bytes "RSP: 0x%016lx, %5hhu%% at %s") [AULong 0x7FFFFFFF; AUnsigned 44; AString [104; 105]] (LogConsole []) =
    Some ((), LogConsole (string_bytes "RSP: 0x000000007fffffff,    44% at hi")).
Proof.
  assert (Forall piece_ok sample) as H.
  { repeat (apply Forall_cons; split; [split; [repeat constructor; discriminate|
      first [exact I|discriminate|split; [reflexivity|split; discriminate]]]|]). by apply Forall_nil. }
  split; [exact H|]. exact (vprintf_as_c sample [] H).
Defined.

(** Outside of these conditions it differs from C: padding goes between the sign and
    the digits, and a length of [h] or [hh] takes the whole [int]. *)
Theorem format_differs_from_c :
  vprintf (string_bytes "%5d") [AInt (-3)] (LogConsole []) = Some ((), LogConsole (string_bytes "-    3")) ∧
  c_text (PSigned false false 5 LNone (-3)) = string_bytes "   -3" ∧
  vprintf (string_bytes "%hhu") [AUnsigned 300] (LogConsole []) = Some ((), LogConsole (string_bytes "300")) ∧
  c_text (PUnsigned false false 0 LChar 300) = string_bytes "44".
Proof. done. Qed.
