(* ===== verification/SystemcallProps.v ===== *)
(** * Correctness of the system calls

    [handle_syscall] as a whole, from the trap frame to the registers that the
    user finds. *)
From stdpp Require Import gmap strings.
From S2P Require Import Prelude FileSystem Console Printf Process ProcessSpec ProcessSched ProcessTable ProcessOps ProcessFork Systemcall.

(** * What the system calls do

    The contract of [SystemFiles], and [handle_syscall] against it: every call
    returns or leaves the process, keeps the invariant of the process table, and
    does what its number says; an invalid request changes nothing. *)

(** The contract: [can_read], [can_write] and [can_store] tell when an access
    to the user's memory is possible (and input will come); no reference to a file
    is gained or lost, and printing changes nothing but the console. *)
Class SystemFilesSpec (E : Type) `{HE : Services E} `{HS : !ServicesSpec E} `{HF : SystemFiles E} := {
  can_read : E → nat → Z → Z → Prop;
  can_write : E → nat → Z → Z → Prop;
  can_store : E → Z → Prop;
  put_console : Console → E → E;
  put_console_twice e c c' : put_console c (put_console c' e) = put_console c e;
  file_read_spec e f buf n : svc_ok e → 0 < held e (OpenFile f) → 0 <= n <= UINT32_MAX → can_read e f buf n →
    wp (file_read f buf n) e (λ r e', svc_ok e' ∧ holds_same held e e' ∧ from_option (λ m, 0 <= m <= n) True r);
  file_write_spec e f buf n : svc_ok e → 0 < held e (OpenFile f) → 0 <= n <= UINT32_MAX → can_write e f buf n →
    wp (file_write f buf n) e (λ r e', svc_ok e' ∧ holds_same held e e' ∧ from_option (λ m, 0 <= m <= n) True r);
  store_int_spec e ptr v : svc_ok e → can_store e ptr →
    wp (store_int ptr v) e (λ _ e', svc_ok e' ∧ holds_same held e e');
  set_color_spec e fg bg : svc_ok e → wp (set_color fg bg) e (λ _ e', svc_ok e' ∧ holds_same held e e' ∧
    (e' = e ∨ ∃ c, e' = put_console c e));
  printf_spec e fmt args : svc_ok e → printable fmt args →
    wp (printf fmt args) e (λ _ e', svc_ok e' ∧ holds_same held e e' ∧ (e' = e ∨ ∃ c, e' = put_console c e));
}.

Lemma exit_printable v : printable exit_message [AUnsigned (u32 v)].
Proof. by apply unsigned_printable. Qed.
Lemma unknown_printable v : printable unknown_message [AUnsigned (u32 v)].
Proof. by apply unsigned_printable. Qed.

Section syscalls.
Context {E : Type} `{HE : Services E} `{HS : !ServicesSpec E} `{HF : !SystemFiles E} `{HV : !SystemFilesSpec E}.
Implicit Types (s : Kernel E) (k : nat) (p : Process).

(** The open file behind descriptor [fd] of the process [p]. *)
Definition file_at p (fd : Z) : option nat :=
  if fd >=? Z.of_nat (length (files p)) then None else mjoin (files p !! Z.to_nat fd).

Lemma wp_lookup_file s k p fd (Q : option nat → Kernel E → Prop) :
  current s = Some k → procs s !! k = Some p → 0 <= fd → Q (file_at p fd) s → wp (lookup_file fd) s Q.
Proof.
  intros Hc Hp Hfd HQ. unfold lookup_file, file_at in *. do 2 wp_step. rewrite Hc. wp_step. eapply wp_proc; [exact Hp|].
  destruct (fd >=? _) eqn:Ege; [by wp_step|].
  destruct (lookup_lt_is_Some_2 (files p) (Z.to_nat fd)) as [f Hf]; [lia|]. rewrite Hf in HQ. by eapply wp_defined.
Qed.

Lemma file_at_lookup p fd f : 0 <= fd → file_at p fd = Some f → files p !! Z.to_nat fd = Some (Some f).
Proof. intros Hfd. unfold file_at. destruct (_ >=? _); [done|]. by destruct (files p !! Z.to_nat fd) as [[g|]|]; cbn; intros [= ->]. Qed.

Lemma file_held s k p fd f : accounts_ok s → procs s !! k = Some p → 0 <= fd → file_at p fd = Some f → 0 < held (env s) (OpenFile f).
Proof.
  intros Hok Hp Hfd Hf. apply (held_pos s k p (OpenFile f) Hok Hp). apply file_at_lookup in Hf; [|done].
  change (0 < fd_uses f (files p)). pose proof (fd_uses_insert f _ _ _ None Hf) as H. rewrite decide_True in H by done.
  rewrite (decide_False (P := None = Some f)) in H by done. pose proof (fd_uses_bounds f (<[Z.to_nat fd := None]> (files p))). lia.
Qed.

(** An operation behind the services that keeps what is held. *)
Definition harmless {A} (m : M E A) (e : E) (P : A → E → Prop) : Prop :=
  wp m e (λ a e', svc_ok e' ∧ holds_same held e e' ∧ P a e').

Lemma wp_harmless {A} (m : M E A) s P (Q : A → Kernel E → Prop) :
  table_ok s → harmless m (env s) P →
  (∀ a e, table_ok (set_env e s) → svc_ok e → holds_same held (env s) e → m (env s) = Some (a, e) → P a e → Q a (set_env e s)) →
  wp (service m) s Q.
Proof.
  intros Hok Hm HQ. apply wp_service. eapply wp_mono; [apply wp_ran, Hm|]. intros a e (Hrun & He & Hh & HP).
  apply HQ; [by apply table_ok_env|done..].
Qed.

(** A message has been printed: the three operations of [report], one after the
    other, with no effect outside the console. *)
Definition only_console (e e' : E) : Prop := e' = e ∨ ∃ c, e' = put_console c e.
Lemma only_console_trans e1 e2 e3 : only_console e1 e2 → only_console e2 e3 → only_console e1 e3.
Proof.
  intros [->|[c ->]] [->|[c' ->]]; [by left|by right; exists c'|by right; exists c|right; exists c'].
  apply put_console_twice.
Qed.

Definition reported (color : Color) (fmt : list Z) (args : list Arg) (e e' : E) : Prop :=
  (∃ e1 e2, set_color color Black e = Some ((), e1) ∧ printf fmt args e1 = Some ((), e2) ∧
    set_color LightGrey Black e2 = Some ((), e')) ∧ only_console e e'.

Lemma wp_report s color fmt args (Q : () → Kernel E → Prop) :
  table_ok s → printable fmt args →
  (∀ e, table_ok (set_env e s) → svc_ok e → holds_same held (env s) e → reported color fmt args (env s) e → Q () (set_env e s)) →
  wp (report color fmt args) s Q.
Proof.
  intros Hok Hf HQ. unfold report.
  wp_step. eapply wp_harmless; [done|apply set_color_spec, Hok|]. intros [] e1 Hok1 He1 Hh1 Hr1 Ho1.
  wp_step. eapply wp_harmless; [done|by apply printf_spec|]. intros [] e2 Hok2 He2 Hh2 Hr2 Ho2.
  eapply wp_harmless; [exact Hok2|by apply set_color_spec|]. intros [] e3 Hok3 He3 Hh3 Hr3 Ho3.
  apply (HQ e3); [done|done| |].
  - intros r. cbn in *. by rewrite Hh3, Hh2, Hh1.
  - split; [by exists e1, e2|]. eapply only_console_trans; [exact Ho1|]. by eapply only_console_trans.
Qed.

(** What the caller of a request has to provide: memory that is there. *)
Definition request_ok (e : E) p (tf : TrapFrame) : Prop :=
  (tf_rax tf = kRead → ∀ f, file_at p (tf_rdi tf) = Some f → tf_rdx tf <= UINT32_MAX → can_read e f (tf_rsi tf) (tf_rdx tf)) ∧
  (tf_rax tf = kWrite → ∀ f, file_at p (tf_rdi tf) = Some f → tf_rdx tf <= UINT32_MAX → can_write e f (tf_rsi tf) (tf_rdx tf)) ∧
  (tf_rax tf = kWait → tf_rdi tf ≠ 0 → can_store e (tf_rdi tf)).

(** The effect of each call, from the state [s] in which the trap frame is kept. *)
Inductive syscall_post s k p tf snap (rsp : Z) : Outcome → Kernel E → Prop :=
| sc_bad_io : tf_rax tf = kRead ∨ tf_rax tf = kWrite → file_at p (tf_rdi tf) = None ∨ UINT32_MAX < tf_rdx tf →
    syscall_post s k p tf snap rsp (Returned (-1)) s
| sc_io f r e : tf_rax tf = kRead ∨ tf_rax tf = kWrite → file_at p (tf_rdi tf) = Some f → tf_rdx tf <= UINT32_MAX →
    (if decide (tf_rax tf = kRead) then file_read else file_write) f (tf_rsi tf) (tf_rdx tf) (env s) = Some (r, e) →
    from_option (λ m, 0 <= m <= tf_rdx tf) True r → holds_same held (env s) e →
    syscall_post s k p tf snap rsp (Returned (default (-1) r)) (set_env e s)
| sc_bad_close : tf_rax tf = kClose → file_at p (tf_rdi tf) = None → syscall_post s k p tf snap rsp (Returned (-1)) s
| sc_close f e : tf_rax tf = kClose → file_at p (tf_rdi tf) = Some f → file_close (Some f) (env s) = Some ((), e) →
    holds_more held (env s) e (-1) (OpenFile f) →
    syscall_post s k p tf snap rsp (Returned 0) (with_slot s k (set_files (<[Z.to_nat (tf_rdi tf) := None]> (files p)) p) e)
| sc_fork v s' : tf_rax tf = kFork → fork_post s snap rsp k p v s' → syscall_post s k p tf snap rsp (Returned v) s'
| sc_wait r s' o : tf_rax tf = kWait → wait_post s r s' →
    o = match r with Reaped n _ => Returned (long_of n) | NoChild => Returned (-1) | Asleep c => Waiting c end →
    syscall_post s k p tf snap rsp o s'
| sc_exit e e' c s' : tf_rax tf = kExit → reported Yellow exit_message [AUnsigned (u32 (tf_rdi tf))] (env s) e →
    switched (set_env e' (set_procs (exit_table (int_of (tf_rdi tf)) k p (set_env e s)) (set_env e s))) (Some k) None c s' →
    syscall_post s k p tf snap rsp (Gone c) s'
| sc_unknown e : tf_rax tf ∉ [kRead; kWrite; kClose; kFork; kWait; kExit] →
    reported LightRed unknown_message [AUnsigned (u32 (tf_rax tf))] (env s) e →
    syscall_post s k p tf snap rsp (Returned (-1)) (set_env e s).

(** ** The calls *)
Section calls.
Context s k p (tf : TrapFrame) (snap : ProcessContext) (rsp : Z).
Context (Hok : table_ok s) (Hcur : current s = Some k) (Hp : procs s !! k = Some p).
Context (Hregs : 0 <= tf_rdi tf ∧ 0 <= tf_rdx tf).
Abbreviation post := (syscall_post s k p tf snap rsp).

Lemma wp_sys_io (op : nat → Z → Z → M E (option Z)) (Q : Z → Kernel E → Prop) :
  tf_rax tf = kRead ∨ tf_rax tf = kWrite → op = (if decide (tf_rax tf = kRead) then file_read else file_write) →
  (∀ f, file_at p (tf_rdi tf) = Some f → tf_rdx tf <= UINT32_MAX → 0 < held (env s) (OpenFile f) →
    harmless (op f (tf_rsi tf) (tf_rdx tf)) (env s) (λ r _, from_option (λ m, 0 <= m <= tf_rdx tf) True r)) →
  (∀ n s', table_ok s' → post (Returned n) s' → Q n s') →
  wp (file ← lookup_file (tf_rdi tf);
      match file with
      | None => mret (-1)
      | Some f => if tf_rdx tf >? UINT32_MAX then mret (-1)
                  else done ← service (op f (tf_rsi tf) (u32 (tf_rdx tf))); mret (default (-1) done)
      end) s Q.
Proof.
  intros Hnum Eop Hop HQ. wp_step. eapply wp_lookup_file; [exact Hcur|exact Hp|apply Hregs|].
  destruct (file_at p (tf_rdi tf)) as [f|] eqn:Ef; [|wp_step; apply HQ; [done|by apply sc_bad_io; [|left]]].
  destruct (tf_rdx tf >? UINT32_MAX) eqn:El; [wp_step; apply HQ; [done|apply sc_bad_io; [done|right; lia]]|].
  unfold UINT32_MAX in *. rewrite u32_small by lia. wp_step. eapply wp_harmless; [done| |].
  { apply Hop; [done|unfold UINT32_MAX; lia|]. exact (file_held s k p _ f (to_accounts _ Hok) Hp (proj1 Hregs) Ef). }
  intros r e Hok' He Hh Hrun Hr. wp_step. apply HQ; [done|]. subst op.
  eapply sc_io; [done|exact Ef|unfold UINT32_MAX; lia|exact Hrun|done|done].
Qed.

Lemma wp_sys_close (Q : Z → Kernel E → Prop) :
  tf_rax tf = kClose → (∀ n s', table_ok s' → post (Returned n) s' → Q n s') → wp (sys_close (tf_rdi tf)) s Q.
Proof.
  intros Hnum HQ. unfold sys_close. wp_step. eapply wp_lookup_file; [exact Hcur|exact Hp|apply Hregs|].
  destruct (file_at p (tf_rdi tf)) as [f|] eqn:Ef; [|wp_step; apply HQ; [done|by apply sc_bad_close]].
  do 2 wp_step. wp_step. wp_step. wp_step. eapply wp_modify_proc; [exact Hp|]. wp_step. apply wp_service.
  set (q := set_files _ p). change (set_procs _ s) with (with_slot s k q (env s)).
  assert (0 < held (env s) (OpenFile f)) as Hheld by (exact (file_held s k p _ f (to_accounts _ Hok) Hp (proj1 Hregs) Ef)).
  eapply wp_mono; [apply wp_ran, (file_close_spec (env s) (Some f)); [apply Hok|done]|]. cbn beta iota. intros [] e (Hrun & He & Hh). wp_step.
  rewrite with_slot_env. apply HQ; [|by eapply sc_close].
  destruct (to_current _ Hok k Hcur) as (p' & Hp' & Hr). simplify_eq.
  apply (table_ok_current s k p); [done|done|done|done|exact (current_built s k p Hok Hcur Hp)|].
  pose proof (file_at_lookup p _ f (proj1 Hregs) Ef) as Hf. pose proof (fd_uses_insert) as Hins.
  eapply (accounts_with_slot s k p); [apply Hok|exact Hp|done|cbn; rewrite length_insert; by eapply (ao_files _ (to_accounts _ Hok))|cbn; congruence| |intros _; split; [cbn; congruence|by left]].
  intros r Hr0. rewrite Hh. destruct r as [b|a|g|a|a]; cbn [uses q set_files kernel_stack pml4 files]; [one_lia|one_lia| |one_lia|one_lia].
  rewrite (Hins g _ _ _ None Hf), (decide_False (P := None = Some g)) by done. one_lia.
Qed.

Lemma wp_sys_wait (Q : Outcome → Kernel E → Prop) :
  tf_rax tf = kWait → (tf_rdi tf ≠ 0 → can_store (env s) (tf_rdi tf)) →
  (∀ o s', table_ok s' → post o s' → Q o s') → wp (sys_wait (tf_rdi tf)) s Q.
Proof.
  intros Hnum Hst HQ. unfold sys_wait. wp_step. apply wp_wait_turn_to; [done|congruence| |].
  - destruct (tf_rdi tf =? 0) eqn:E0; [done|]. intros code. apply wp_service.
    eapply wp_mono; [apply store_int_spec; [apply Hok|apply Hst; lia]|]. intros [] e [He Hh]. by exists e.
  - intros r s' Hr. pose proof (wait_post_ok _ _ _ Hok Hr) as Hok'.
    destruct r; wp_step; (apply HQ; [done|by eapply sc_wait]).
Qed.

Lemma wp_sys_exit (Q : Control → Kernel E → Prop) :
  tf_rax tf = kExit → (∀ c s', table_ok s' → post (Gone c) s' → Q c s') → wp (sys_exit (tf_rdi tf)) s Q.
Proof.
  intros Hnum HQ. unfold sys_exit. wp_step. apply wp_report; [done|apply exit_printable|]. intros e Hok1 He Hh Hrep.
  do 2 wp_step. change (current (set_env e s)) with (current s). rewrite Hcur.
  apply (wp_exit _ (set_env e s) k p); [done..|]. intros c s' e' Hok' _ Hsw. apply HQ; [done|by eapply sc_exit].
Qed.

Lemma wp_syscall_dispatch (Q : Outcome → Kernel E → Prop) :
  next_pid s < INT_MAX → request_ok (env s) p tf → (∀ o s', table_ok s' → post o s' → Q o s') →
  wp (syscall_dispatch (tf_rax tf) (tf_rdi tf) (tf_rsi tf) (tf_rdx tf) snap rsp) s Q.
Proof.
  intros Hpid (Hrd & Hwr & Hwt) HQ. unfold syscall_dispatch.
  destruct (tf_rax tf =? kRead) eqn:E1.
  { wp_step. apply wp_sys_io; [left; lia|by rewrite decide_True by lia| |intros n s' ??; wp_step; by apply HQ].
    intros f Hf Hl Hh. apply file_read_spec; [apply Hok|done|lia|apply Hrd; [lia|done|done]]. }
  destruct (tf_rax tf =? kWrite) eqn:E2.
  { wp_step. apply wp_sys_io; [right; lia|by rewrite decide_False by lia| |intros n s' ??; wp_step; by apply HQ].
    intros f Hf Hl Hh. apply file_write_spec; [apply Hok|done|lia|apply Hwr; [lia|done|done]]. }
  destruct (tf_rax tf =? kClose) eqn:E3; [wp_step; apply wp_sys_close; [lia|intros n s' ??; wp_step; by apply HQ]|].
  destruct (tf_rax tf =? kFork) eqn:E4.
  { wp_step. apply (wp_fork s snap rsp k p); [done..|]. intros v s' ??. wp_step. apply HQ; [done|]. apply sc_fork; [lia|done]. }
  destruct (tf_rax tf =? kWait) eqn:E5; [apply wp_sys_wait; [lia|apply Hwt; lia|done]|].
  destruct (tf_rax tf =? kExit) eqn:E6; [wp_step; apply wp_sys_exit; [lia|intros c s' ??; wp_step; by apply HQ]|].
  wp_step. apply wp_report; [done|apply unknown_printable|]. intros e Hok1 He Hh Hrep. wp_step. apply HQ; [done|].
  apply sc_unknown; [rewrite !not_elem_of_cons; split_and!; try lia; by apply not_elem_of_nil|done].
Qed.
End calls.
End syscalls.


Section handle.
Context {E : Type} `{HE : Services E} `{HS : !ServicesSpec E} `{HF : !SystemFiles E} `{HV : !SystemFilesSpec E}.
Implicit Types (s : Kernel E) (k : nat) (p : Process).

(** State [s] with the trap frame of process [k] kept. *)
Definition framed s k at_ tf p : Kernel E := with_slot s k (set_trap (Some (at_, tf)) p) (env s).

Lemma wp_keep_frame s k p at_ tf (Q : () → Kernel E → Prop) :
  table_ok s → current s = Some k → procs s !! k = Some p →
  (table_ok (framed s k at_ tf p) → Q () (framed s k at_ tf p)) → wp (keep_frame at_ tf) s Q.
Proof.
  intros Hok Hc Hp HQ. unfold keep_frame. do 2 wp_step. rewrite Hc. eapply wp_modify_proc; [exact Hp|]. apply HQ.
  destruct (to_current _ Hok k Hc) as (p' & Hp' & Hr). simplify_eq.
  apply (table_ok_current s k p); [done|done|done|done|exact (current_built s k p Hok Hc Hp)|].
  by apply (accounts_slot_same s k p); [apply Hok|..].
Qed.

Lemma returned_current s k p tf snap rsp v s' :
  current s = Some k → syscall_post s k p tf snap rsp (Returned v) s' → current s' = Some k.
Proof.
  intros Hc. inversion 1 as [| | | |v' s1 _ Hf|r s1 o _ Hw Ho| |]; subst; try exact Hc.
  - by inversion Hf; subst.
  - destruct r; [| |done]; by inversion Hw; subst.
Qed.

(** What comes of a call made with the registers [tf]: [Away] leaves the frame as
    it is, otherwise the result is in rax, for the user and in the kept frame. *)
Inductive handled s k p at_ tf snap (rsp : Z) : Return → Kernel E → Prop :=
| handled_user v s1 q :
    syscall_post (framed s k at_ tf p) k (set_trap (Some (at_, tf)) p) tf snap rsp (Returned v) s1 →
    current s1 = Some k → procs s1 !! k = Some q →
    handled s k p at_ tf snap rsp (ToUser (set_rax (u64 v) tf)) (framed s1 k at_ (set_rax (u64 v) tf) q)
| handled_away o c s1 :
    o = Waiting c ∨ o = Gone c → syscall_post (framed s k at_ tf p) k (set_trap (Some (at_, tf)) p) tf snap rsp o s1 →
    handled s k p at_ tf snap rsp (Away c) s1.

Lemma wp_give_back s k p at_ tf snap rsp o s1 (Q : Return → Kernel E → Prop) :
  current s = Some k → table_ok s1 →
  syscall_post (framed s k at_ tf p) k (set_trap (Some (at_, tf)) p) tf snap rsp o s1 →
  (∀ r s', table_ok s' → handled s k p at_ tf snap rsp r s' → Q r s') → wp (give_back at_ tf o) s1 Q.
Proof.
  intros Hc Hok Hpost HQ. destruct o as [v|c|c]; cbn [give_back].
  - assert (current s1 = Some k) as Hc1 by by eapply (returned_current (framed s k at_ tf p)).
    destruct (to_current _ Hok k Hc1) as (q & Hq & _). wp_step. eapply wp_keep_frame; [done|exact Hc1|exact Hq|].
    intros Hok1. wp_step. apply HQ; [done|by econstructor].
  - wp_step. apply HQ; [done|]. eapply handled_away; [by left|done].
  - wp_step. apply HQ; [done|]. eapply handled_away; [by right|done].
Qed.

Lemma wp_handle_syscall s k p at_ tf snap rsp :
  table_ok s → next_pid s < INT_MAX → current s = Some k → procs s !! k = Some p →
  0 <= tf_rdi tf ∧ 0 <= tf_rdx tf → request_ok (env s) p tf →
  wp (handle_syscall at_ tf snap rsp) s (λ r s', table_ok s' ∧ handled s k p at_ tf snap rsp r s').
Proof.
  intros Hok Hpid Hc Hp Hregs Hreq. unfold handle_syscall. wp_step. eapply wp_keep_frame; [done|exact Hc|exact Hp|]. intros Hok1.
  wp_step. eapply (wp_syscall_dispatch (framed s k at_ tf p)); [done|done|by eapply with_slot_lookup|done|done|done|].
  intros o s1 Hok2 Hpost. eapply wp_give_back; [exact Hc|done|exact Hpost|]. intros r s' ??. done.
Qed.

(** C14: a system call of the current process comes to an end and keeps the
    invariant of the kernel, provided that the buffers it names lie in accessible
    memory, that a line of input will come for it to read, and that the pids are not
    used up. A bad descriptor or a length of more than 32 bits gives -1 and changes
    nothing, an unknown number gives -1 and prints its message, which changes the
    console alone; reading and writing do what the open file does and give its count
    or -1; [close] empties the descriptor and gives back exactly one reference;
    [fork], [wait] and [exit] do what the operations of the process table do, [exit]
    after its message. The result is in rax when the user goes on, and in the frame
    of the process. *)
Theorem handle_syscall_correct s k p at_ tf snap rsp :
  table_ok s → next_pid s < INT_MAX → current s = Some k → procs s !! k = Some p →
  0 <= tf_rdi tf ∧ 0 <= tf_rdx tf → request_ok (env s) p tf →
  wp (handle_syscall at_ tf snap rsp) s (λ r s', table_ok s' ∧ handled s k p at_ tf snap rsp r s').
Proof. apply wp_handle_syscall. Qed.
End handle.
