(* ===== verification/KernelFiles.v ===== *)
(** * The kernel over its open files

    The services of the processes and of the system calls, put together: the open
    files and the console are those of [File], the rest (heap, address spaces, task
    state segment, memory of the user) is a [Core]. While no file of the disk is
    open (no system call opens one) they keep the contracts of [ServicesSpec] and
    [SystemFilesSpec]. *)
From stdpp Require Import gmap.
From S2P Require Import Prelude BlockStore FsLayout FileSystem Inode Console Process ProcessSpec Systemcall SystemcallProps.
From S2P Require Keyboard File.
From S2P Require Import FileProps.

(** What is left of the services, and the bytes of the current user's memory. *)
Class Core (R : Type) := {
  core_heap_allocate : Z → M R (option Z);
  core_heap_free : Z → M R ();
  core_create_space : M R (option Z);
  core_destroy_space : option Z → M R ();
  core_copy_pages : option Z → option Z → M R bool;
  core_switch_space : option Z → M R ();
  core_set_stack : Z → M R ();
  core_load : R → Z → option Z;
  core_store : Z → Z → M R ();
  core_trampoline : Z;
  core_fork_return : Z;
}.

Record Board (T R : Type) := mkBoard { files : File.Files T; core : R }.
Arguments mkBoard {T R}. Arguments files {T R}. Arguments core {T R}.

Section board.
Context {T R : Type} `{IBlockStore T} `{Core R}.
Implicit Types (b : Board T R).

Definition set_files (v : File.Files T) b := mkBoard v (core b).
Definition set_core (v : R) b := mkBoard (files b) v.
Definition in_files {A} (m : M (File.Files T) A) : M (Board T R) A := zoom files set_files m.
Definition in_core {A} (m : M R A) : M (Board T R) A := zoom core set_core m.

#[export] Instance Board_Services : Services (Board T R) := {|
  heap_allocate n := in_core (core_heap_allocate n);
  heap_free a := in_core (core_heap_free a);
  create_address_space := in_core core_create_space;
  destroy_address_space a := in_core (core_destroy_space a);
  copy_user_pages a a' := in_core (core_copy_pages a a');
  switch_address_space a := in_core (core_switch_space a);
  set_kernel_stack a := in_core (core_set_stack a);
  file_open_console r w := in_files (File.file_open_console r w);
  file_duplicate f := in_files (File.file_duplicate f);
  file_close f := in_files (File.file_close f);
  trampoline_address := core_trampoline;
  fork_return_address := core_fork_return;
|}.

(** The user's bytes from [addr] on, up to [n] of them or the first that cannot be
    read; storing bytes. *)
Fixpoint load_bytes (r : R) (n : nat) (addr : Z) : list Z :=
  match n with
  | O => []
  | S n => match core_load r addr with Some c => c :: load_bytes r n (addr + 1) | None => [] end
  end.
Fixpoint store_bytes (addr : Z) (l : list Z) : M R () :=
  match l with
  | [] => mret ()
  | c :: l => _ ← core_store addr c; store_bytes (addr + 1) l
  end.

(** [syscall_console]: the console that [SystemCall::init] has registered with the
    open files as well. *)
Definition print (fmt : list Z) (args : list Arg) : M (File.Files T) () :=
  s ← get;
  c ← defined (File.file_console s);
  '(_, c) ← defined (vprintf fmt args c);
  put (File.set_file_console (Some c) s).

(** What [SystemCall::init] does first: the console, or the serial port if there is
    none, becomes [syscall_console] and the console of the open files. *)
Definition register_console (serial : Console) (console : option Console) : M (File.Files T) () :=
  modify (File.set_file_console (Some (default serial console))).

#[export] Instance Board_SystemFiles : SystemFiles (Board T R) := {|
  file_read f buf n :=
    '(r, l) ← in_files (File.file_read f n);
    _ ← in_core (store_bytes buf l);
    mret r;
  file_write f buf n :=
    b ← get;
    in_files (File.file_write f (load_bytes (core b) (Z.to_nat n) buf) n);
  store_int ptr v := in_core (store_bytes ptr (le_bytes 4 (u32 v)));
  set_color _ _ := mret ();
  printf fmt args := in_files (print fmt args);
|}.
End board.

(** ** The contracts *)

(** The contract of the core: that of [ServicesSpec] without files; [accessible]
    user memory can be read and written, and stays so. *)
Class CoreSpec (R : Type) `{Core R} := {
  core_ok : R → Prop;
  core_held : R → Resource → Z;
  accessible : R → Z → Prop;
  core_space_once r a : core_ok r → core_held r (Space a) <= 1;
  core_active_one r a b : core_ok r → 0 < core_held r (Active a) → core_held r (Active b) ≠ 0 → a = b;
  core_heap_allocate_spec r : core_ok r → wp (core_heap_allocate KERNEL_STACK_SIZE) r (λ x r', core_ok r' ∧
    match x with
    | Some b => core_held r (Stack b) = 0 ∧ holds_more core_held r r' 1 (Stack b)
    | None => holds_same core_held r r'
    end);
  core_heap_free_spec r b : core_ok r → 0 < core_held r (Stack b) →
    wp (core_heap_free b) r (λ _ r', core_ok r' ∧ holds_more core_held r r' (-1) (Stack b));
  core_create_space_spec r : core_ok r → wp core_create_space r (λ x r', core_ok r' ∧
    match x with
    | Some a => core_held r (Space a) = 0 ∧ core_held r (Active a) = 0 ∧ core_held r (Filled a) = 0 ∧ holds_more core_held r r' 1 (Space a)
    | None => holds_same core_held r r'
    end);
  core_destroy_space_spec r a : core_ok r → 0 < core_held r (Space a) → core_held r (Active a) = 0 →
    wp (core_destroy_space (Some a)) r (λ _ r', core_ok r' ∧ ∀ x, x ≠ Filled a → core_held r' x = core_held r x - one (Space a) x);
  core_copy_pages_spec r src dest : core_ok r →
    0 < core_held r (Space src) → 0 < core_held r (Space dest) → src ≠ dest → core_held r (Filled dest) = 0 →
    wp (core_copy_pages (Some src) (Some dest)) r (λ _ r', core_ok r' ∧ steady core_held r r');
  core_switch_space_spec r a : core_ok r → 0 < core_held r (Space a) →
    wp (core_switch_space (Some a)) r (λ _ r', core_ok r' ∧ activates core_held r r' a);
  core_set_stack_spec r a : core_ok r →
    wp (core_set_stack a) r (λ _ r', core_ok r' ∧ holds_same core_held r r');
  core_load_spec r x : core_ok r → accessible r x → is_Some (core_load r x);
  core_store_spec r x v : core_ok r → accessible r x →
    wp (core_store x v) r (λ _ r', core_ok r' ∧ holds_same core_held r r' ∧ ∀ y, accessible r y → accessible r' y);
}.

Section contracts.
Context {T R : Type} `{HT : IBlockStore T} `{HC : Core R} `{HR : !CoreSpec R}.
Implicit Types (b : Board T R) (ft : list File.File).

(** Every open file is the console, with as many references as the count says. *)
Record console_file (x : File.File) : Prop := {
  cn_refcnt : 0 <= File.refcnt x <= INT_MAX;
  cn_empty : File.refcnt x = 0 → x = File.empty_file;
  cn_type : 0 < File.refcnt x → File.file_type x = File.kConsole;
  cn_inode : File.inode x = None;
}.
Record board_ok b : Prop := {
  bo_core : core_ok (core b);
  bo_files : Forall console_file (File.file_table (files b));
  bo_keyboard : console_ok (files b);
  bo_console : File.file_console (files b) ≠ None;
}.

Definition refs ft (f : nat) : Z := from_option File.refcnt 0 (ft !! f).
Definition board_held b (r : Resource) : Z :=
  match r with OpenFile f => refs (File.file_table (files b)) f | _ => core_held (core b) r end.

(** Changes of the core alone, and of the files alone. *)
Lemma board_core b r : board_ok b → core_ok r → board_ok (set_core r b).
Proof. by intros [] ?. Qed.
Lemma held_core b r n x : (∀ f, x ≠ OpenFile f) → holds_more core_held (core b) r n x → holds_more board_held b (set_core r b) n x.
Proof.
  intros Hx Hh [c|a|f|a|a]; [exact (Hh (Stack c))|exact (Hh (Space a))| |exact (Hh (Active a))|exact (Hh (Filled a))].
  cbn. unfold one. rewrite decide_False by done. lia.
Qed.
Lemma held_core_same b r : holds_same core_held (core b) r → holds_same board_held b (set_core r b).
Proof. intros Hh [c|a|f|a|a]; [exact (Hh (Stack c))|exact (Hh (Space a))|done|exact (Hh (Active a))|exact (Hh (Filled a))]. Qed.

Lemma board_files b s' : board_ok b → Forall console_file (File.file_table s') → console_ok s' → File.file_console s' ≠ None →
  board_ok (set_files s' b).
Proof. by intros [] ???. Qed.

Lemma board_file b k x :
  board_ok b → console_file x → board_ok (set_files (File.set_table (<[k := x]> (File.file_table (files b))) (files b)) b).
Proof.
  intros Hok Hx. apply board_files; [done| | |apply Hok].
  - cbn. apply Forall_insert; [apply Hok|done].
  - destruct (bo_keyboard _ Hok) as [H1 H2 H3]. by split.
Qed.

Lemma held_file b k x y n :
  File.file_table (files b) !! k = Some x → File.refcnt y = File.refcnt x + n →
  holds_more board_held b (set_files (File.set_table (<[k := y]> (File.file_table (files b))) (files b)) b) n (OpenFile k).
Proof.
  intros Hx Hy [c|a|f|a|a]; cbn; unfold one; try (by rewrite decide_False by done; lia). unfold refs.
  destruct (decide (k = f)) as [->|Hne].
  - rewrite list_lookup_insert_eq by (by eapply lookup_lt_Some). rewrite Hx. cbn. rewrite decide_True by done. lia.
  - rewrite list_lookup_insert_ne by done. rewrite decide_False by congruence. lia.
Qed.

Lemma file_refs_pos b f : board_ok b → 0 < board_held b (OpenFile f) →
  ∃ x, File.file_table (files b) !! f = Some x ∧ console_file x ∧ 0 < File.refcnt x.
Proof.
  cbn. unfold refs. intros Hok Hp. destruct (_ !! f) as [x|] eqn:Hx; [|cbn in Hp; lia]. exists x. split; [done|].
  split; [exact (Forall_lookup_1 _ _ _ _ (bo_files _ Hok) Hx)|done].
Qed.

(** ** The operations on open files *)
Lemma console_files_ok ft tbl : Forall console_file ft → files_ok ft tbl.
Proof.
  intros Hft. assert (∀ k x, ft !! k = Some x → console_file x) as Hx by (intros k x; by apply Forall_lookup_1).
  split; [intros k x Hk; apply (Hx k x Hk)..|]. intros i Hu. exfalso. apply Hu. clear -Hft.
  induction Hft as [|x ft [_ _ _ Hi] _ IH]; [done|]. cbn. unfold holds at 1. rewrite Hi, decide_False by done. exact IH.
Qed.

Lemma wp_board_open b r w : board_ok b → wp (in_files (File.file_open_console r w)) b (λ f b', board_ok b' ∧
  match f with
  | Some f => board_held b (OpenFile f) = 0 ∧ holds_more board_held b b' 1 (OpenFile f)
  | None => holds_same board_held b b'
  end).
Proof.
  intros Hok. apply wp_zoom. eapply wp_mono; [apply (file_open_console_correct (files b) r w []), console_files_ok, Hok|].
  intros [k|] s'; cbn beta iota.
  - intros (_ & (x & Hx & H0) & _ & ->). split; [|split].
    + apply board_file; [done|]. split; cbn; unfold INT_MAX; [lia|lia|done|done].
    + cbn. unfold refs. by rewrite Hx.
    + eapply held_file; [exact Hx|]. cbn. lia.
  - intros [-> _]. by destruct b.
Qed.

Lemma wp_board_duplicate b f :
  board_ok b → match f with Some f => 0 < board_held b (OpenFile f) <= 1024 | None => True end →
  wp (in_files (File.file_duplicate f)) b (λ f' b', f' = f ∧ board_ok b' ∧
    match f with Some f => holds_more board_held b b' 1 (OpenFile f) | None => holds_same board_held b b' end).
Proof.
  intros Hok Hf. apply wp_zoom. destruct f as [f|]; cbn [File.file_duplicate]; [|wp_step; by destruct b].
  destruct Hf as [Hp Hle]. destruct (file_refs_pos b f Hok Hp) as (x & Hx & [H1 H2 H3 H4] & Hpos).
  cbn in Hle. unfold refs in Hle. rewrite Hx in Hle. cbn in Hle. wp_step. eapply wp_file_slot; [exact Hx|].
  replace (File.refcnt x =? INT_MAX) with false by (unfold INT_MAX; lia).
  wp_step. eapply wp_modify_file; [exact Hx|]. wp_step. split; [done|]. split.
  - apply board_file; [done|]. split; cbn; unfold INT_MAX in *; [lia|lia|intros _; by apply H3|done].
  - eapply held_file; [exact Hx|]. cbn. lia.
Qed.

Lemma wp_board_close b f :
  board_ok b → match f with Some f => 0 < board_held b (OpenFile f) | None => True end →
  wp (in_files (File.file_close f)) b (λ _ b', board_ok b' ∧
    match f with Some f => holds_more board_held b b' (-1) (OpenFile f) | None => holds_same board_held b b' end).
Proof.
  intros Hok Hp. apply wp_zoom. destruct f as [f|]; cbn [File.file_close]; [|wp_step; by destruct b].
  destruct (file_refs_pos b f Hok Hp) as (x & Hx & Hcx & Hpos). pose proof Hcx as [H1 H2 H3 H4].
  assert (∀ (s1 : File.Files T) y, File.file_table s1 = <[f := y]> (File.file_table (files b)) → File.file_table s1 !! f = Some y) as Hslot.
  { intros s1 y ->. apply list_lookup_insert_eq. by eapply lookup_lt_Some. }
  wp_step. eapply wp_file_slot; [exact Hx|]. replace (File.refcnt x <=? 0) with false by lia.
  wp_step. eapply wp_modify_file; [exact Hx|]. wp_step. eapply wp_file_slot; [by apply Hslot|]. cbn [File.refcnt File.set_refcnt].
  destruct (File.refcnt x - 1 >? 0) eqn:E1.
  { wp_step. split; [|eapply held_file; [exact Hx|]; cbn; lia]. apply board_file; [done|].
    split; cbn; unfold INT_MAX in *; [lia|lia|intros _; by apply H3|done]. }
  wp_step. apply wp_zoom. cbn [File.inode File.set_refcnt]. rewrite H4. cbn [InodeRef_reset]. wp_step.
  do 4 (wp_step; eapply wp_modify_file; [by apply Hslot|]; cbn; rewrite insert_same).
  eapply wp_modify_file; [by apply Hslot|]; cbn; rewrite insert_same.
  assert (∀ n, n = 0 → File.set_offset 0 (File.set_writable false (File.set_readable false (File.set_type File.kNone
    (File.set_inode None (File.set_refcnt n x))))) = File.empty_file) as He by by intros ? ->.
  rewrite He by lia. split.
  - apply board_file; [done|]. by split; cbn; unfold INT_MAX; [lia|..].
  - eapply held_file; [exact Hx|]. cbn. lia.
Qed.

#[export] Instance Board_ServicesSpec : ServicesSpec (Board T R).
Proof.
  refine {| svc_ok := board_ok; held := board_held |}.
  - intros b a Hok. apply (core_space_once (core b)), Hok.
  - intros b a a' Hok. apply (core_active_one (core b)), Hok.
  - intros b Hok. eapply wp_zoom, wp_mono; [apply core_heap_allocate_spec, Hok|]. intros [a|] r [Hr Hh]; (split; [by apply board_core|]).
    + destruct Hh as [H0 Hh]. split; [done|by apply held_core].
    + by apply held_core_same.
  - intros b a Hok Hp. eapply wp_zoom, wp_mono; [apply core_heap_free_spec; [apply Hok|exact Hp]|]. intros [] r [Hr Hh].
    split; [by apply board_core|by apply held_core].
  - intros b Hok. eapply wp_zoom, wp_mono; [apply core_create_space_spec, Hok|]. intros [a|] r [Hr Hh]; (split; [by apply board_core|]).
    + destruct Hh as (H0 & H1 & H2 & Hh). do 3 (split; [done|]). by apply held_core.
    + by apply held_core_same.
  - intros b a Hok Hp Hact. eapply wp_zoom, wp_mono; [apply core_destroy_space_spec; [apply Hok|exact Hp|exact Hact]|]. intros [] r [Hr Hh].
    split; [by apply board_core|]. intros [c|x|f|x|x] Hx; [exact (Hh (Stack c) Hx)|exact (Hh (Space x) Hx)| |exact (Hh (Active x) Hx)|exact (Hh (Filled x) Hx)].
    cbn. unfold one. rewrite decide_False by done. lia.
  - intros b a a' Hok H1 H2 H3 H4. eapply wp_zoom, wp_mono; [apply core_copy_pages_spec; [apply Hok|exact H1|exact H2|exact H3|exact H4]|]. intros x r [Hr Hh].
    split; [by apply board_core|]. intros [c|y|f|y|y] Hy; [exact (Hh (Stack c) Hy)|exact (Hh (Space y) Hy)|done|exact (Hh (Active y) Hy)|exact (Hh (Filled y) Hy)].
  - intros b a Hok Hp. eapply wp_zoom, wp_mono; [apply core_switch_space_spec; [apply Hok|exact Hp]|]. intros x r [Hr Hh].
    split; [by apply board_core|]. intros [c|y|f|y|y]; [exact (Hh (Stack c))|exact (Hh (Space y))|done|exact (Hh (Active y))|exact (Hh (Filled y))].
  - intros b a Hok. eapply wp_zoom, wp_mono; [apply core_set_stack_spec, Hok|]. intros x r [Hr Hh].
    split; [by apply board_core|by apply held_core_same].
  - exact wp_board_open.
  - exact wp_board_duplicate.
  - exact wp_board_close.
Defined.

(** ** The system calls *)
Lemma take_line_length n l l' : take_line n l = Some l' → (length l' <= n)%nat.
Proof.
  revert l l'. induction n as [|n IH]; intros l l'; cbn; [by intros [= <-]|]. destruct l as [|c l]; [done|].
  destruct (c =? 10); [intros [= <-]; cbn; lia|]. destruct (take_line n l) as [l1|] eqn:E; cbn; [|done].
  intros [= <-]. cbn. apply IH in E. lia.
Qed.

Lemma load_length r n addr : core_ok r → (∀ i, 0 <= i < Z.of_nat n → accessible r (addr + i)) → length (load_bytes r n addr) = n.
Proof.
  intros Hok. revert addr. induction n as [|n IH]; intros addr Ha; [done|]. cbn [load_bytes].
  destruct (core_load_spec r addr Hok) as [c Hc]; [replace addr with (addr + 0) by lia; apply Ha; lia|].
  rewrite Hc. cbn. f_equal. apply IH. intros i Hi. replace (addr + 1 + i) with (addr + (i + 1)) by lia. apply Ha. lia.
Qed.

Lemma wp_store_bytes addr l r (Q : () → R → Prop) :
  core_ok r → (∀ i, 0 <= i < Z.of_nat (length l) → accessible r (addr + i)) →
  (∀ r', core_ok r' → holds_same core_held r r' → Q () r') → wp (store_bytes addr l) r Q.
Proof.
  revert addr r. induction l as [|c l IH]; intros addr r Hok Ha HQ; cbn [store_bytes]; [wp_step; by apply HQ|].
  wp_step. eapply wp_mono; [apply core_store_spec; [done|replace addr with (addr + 0) by lia; apply Ha; cbn; lia]|].
  intros [] r1 (Hok1 & Hh1 & Hacc). apply IH; [done| |].
  - intros i Hi. apply Hacc. replace (addr + 1 + i) with (addr + (i + 1)) by lia. apply Ha. cbn. lia.
  - intros r2 Hok2 Hh2. apply HQ; [done|]. intros x. by rewrite Hh2.
Qed.

Lemma held_files b s' : File.file_table s' = File.file_table (files b) → holds_same board_held b (set_files s' b).
Proof. intros Ht [c|a|f|a|a]; [done|done| |done|done]. cbn. by rewrite Ht. Qed.

(** The memory behind a buffer of the user. *)
Definition range_ok b (buf n : Z) : Prop := ∀ i, 0 <= i < n → accessible (core b) (buf + i).

Lemma wp_board_store b buf l : board_ok b → range_ok b buf (Z.of_nat (length l)) →
  wp (in_core (store_bytes buf l)) b (λ _ b', board_ok b' ∧ holds_same board_held b b').
Proof.
  intros Hok Hr. apply wp_zoom. apply wp_store_bytes; [apply Hok|exact Hr|]. intros r Hr' Hh.
  split; [by apply board_core|by apply held_core_same].
Qed.

(** The bytes a read of file [f] stores lie in the buffer, and they will come. *)
Definition read_ready b f buf n : Prop := ∀ x, File.file_table (files b) !! f = Some x → File.readable x = true →
  (∃ l, take_line (Z.to_nat n) (stream (files b)) = Some l) ∧ range_ok b buf n.

Lemma wp_board_read b f buf n : board_ok b → 0 < board_held b (OpenFile f) → 0 <= n <= UINT32_MAX → read_ready b f buf n →
  wp (file_read f buf n) b (λ r b', board_ok b' ∧ holds_same board_held b b' ∧ from_option (λ m, 0 <= m <= n) True r).
Proof.
  intros Hok Hp Hn Hready. destruct (file_refs_pos b f Hok Hp) as (x & Hx & [_ _ Ht _] & Hpos). specialize (Ht Hpos).
  cbn [file_read Board_SystemFiles]. wp_step. apply wp_zoom. unfold File.file_read. wp_step. eapply wp_file_slot; [exact Hx|].
  destruct (File.readable x) eqn:Er; cbn [negb].
  2:{ wp_step. wp_step. eapply wp_mono; [apply (wp_board_store _ buf []); [by destruct b|intros i Hi; cbn in Hi; lia]|].
      intros [] b' [Hok' Hh']. wp_step. by destruct b. }
  rewrite Ht. destruct (Hready x Hx Er) as [[l Hl] Hrange]. pose proof (take_line_length _ _ _ Hl) as Hlen.
  wp_step. apply (wp_console_read_loop _ n 0 [] l); [apply Hok|lia|unfold UINT32_MAX in *; lia|lia|by rewrite Z.sub_0_r|].
  intros s' Hc' _ (kb & irqs & Hf). cbn [app]. wp_step. wp_step.
  assert (board_ok (set_files s' b)) as Hok1 by (subst s'; apply board_files; [done|apply Hok|done|apply Hok]).
  eapply wp_mono; [apply (wp_board_store _ buf l); [done|intros i Hi; apply Hrange; lia]|].
  intros [] b' [Hok' Hh']. wp_step. split; [done|]. split; [|cbn; lia].
  intros r. rewrite Hh'. apply held_files. by subst s'.
Qed.

Definition write_ready b f buf n : Prop := ∀ x, File.file_table (files b) !! f = Some x → File.writable x = true → range_ok b buf n.

Lemma wp_board_write b f buf n : board_ok b → 0 < board_held b (OpenFile f) → 0 <= n <= UINT32_MAX → write_ready b f buf n →
  wp (file_write f buf n) b (λ r b', board_ok b' ∧ holds_same board_held b b' ∧ from_option (λ m, 0 <= m <= n) True r).
Proof.
  intros Hok Hp Hn Hready. destruct (file_refs_pos b f Hok Hp) as (x & Hx & [_ _ Ht _] & Hpos). specialize (Ht Hpos).
  cbn [file_write Board_SystemFiles]. do 2 wp_step. apply wp_zoom. unfold File.file_write. wp_step. eapply wp_file_slot; [exact Hx|].
  destruct (File.writable x) eqn:Ew; cbn [negb]; [|wp_step; by destruct b]. rewrite Ht. wp_step. unfold File.write_console.
  rewrite load_length; [|apply Hok|intros i Hi; apply (Hready x Hx Ew); lia].
  rewrite Z2Nat.id, Z.ltb_irrefl by apply Hn. cbn zeta. do 2 wp_step.
  destruct (File.file_console (files b)) as [c|] eqn:Ec; [|by destruct (bo_console _ Hok)]. wp_step. wp_step.
  split; [|split; [by apply held_files|cbn; lia]]. destruct (bo_keyboard _ Hok). by apply board_files; [|apply Hok|split|].
Qed.

#[export] Instance Board_SystemFilesSpec : SystemFilesSpec (Board T R).
Proof.
  refine {| can_read := read_ready; can_write := write_ready; can_store b ptr := range_ok b ptr 4;
    put_console c b := set_files (File.set_file_console (Some c) (files b)) b |}.
  - done.
  - exact wp_board_read.
  - exact wp_board_write.
  - intros b ptr v Hok Hr. apply wp_board_store; [done|]. by rewrite length_le_bytes.
  - intros b fg bg Hok. cbn [set_color Board_SystemFiles]. wp_step. split; [done|]. split; [done|by left].
  - intros b fmt args Hok Hpr. cbn [printf Board_SystemFiles]. apply wp_zoom. unfold print. do 2 wp_step.
    destruct (File.file_console (files b)) as [c|] eqn:Ec; [|by destruct (bo_console _ Hok)]. wp_step.
    destruct (Hpr c) as [[[] c'] Hv]. do 2 wp_step. eapply wp_defined; [exact Hv|]. cbn iota beta. wp_step.
    split; [|split; [by apply held_files|by right; exists c']]. destruct (bo_keyboard _ Hok). by apply board_files; [|apply Hok|split|].
Defined.
End contracts.
