(* ===== verification/SystemcallExamples.v ===== *)
(** * System calls of a concrete process

    A core that counts what it hands out and holds some bytes of user memory; one
    process over the open files, which prints and reads its console. *)
From stdpp Require Import gmap.
From S2P Require Import Prelude BlockStore RamDisk FsLayout FileSystem Inode Console.
From S2P Require Import Process ProcessSpec ProcessSched ProcessTable ProcessOps ProcessFork ProcessProps.
From S2P Require Import Systemcall SystemcallProps KernelFiles ProcessExamples.
From S2P Require Keyboard File FileProps.

Record Bench := mkBench { ledger : Ledger; user : gmap Z Z }.
Definition on_ledger {A} (m : M Ledger A) : M Bench A := zoom ledger (λ l b, mkBench l (user b)) m.

#[export] Instance Bench_Core : Core Bench := {|
  core_heap_allocate n := on_ledger (heap_allocate n);
  core_heap_free a := on_ledger (heap_free a);
  core_create_space := on_ledger create_address_space;
  core_destroy_space a := on_ledger (destroy_address_space a);
  core_copy_pages a a' := on_ledger (copy_user_pages a a');
  core_switch_space a := on_ledger (switch_address_space a);
  core_set_stack a := on_ledger (set_kernel_stack a);
  core_load r x := user r !! x;
  core_store x v := r ← get; _ ← defined (user r !! x); put (mkBench (ledger r) (<[x := v]> (user r)));
  core_trampoline := 1048576;
  core_fork_return := 1052672;
|}.

#[export] Instance Bench_CoreSpec : CoreSpec Bench.
Proof.
  refine {| core_ok r := svc_ok (ledger r); core_held r := held (ledger r); accessible r x := is_Some (user r !! x) |}.
  - intros r a Hr. exact (held_space_once (ledger r) a Hr).
  - intros r a b Hr. exact (held_active_one (ledger r) a b Hr).
  - intros r Hr. exact (wp_zoom _ _ _ _ _ (heap_allocate_spec (ledger r) Hr)).
  - intros r b Hr Hp. exact (wp_zoom _ _ _ _ _ (heap_free_spec (ledger r) b Hr Hp)).
  - intros r Hr. exact (wp_zoom _ _ _ _ _ (create_address_space_spec (ledger r) Hr)).
  - intros r a Hr Hp Ha. exact (wp_zoom _ _ _ _ _ (destroy_address_space_spec (ledger r) a Hr Hp Ha)).
  - intros r a a' Hr H1 H2 H3 H4. exact (wp_zoom _ _ _ _ _ (copy_user_pages_spec (ledger r) a a' Hr H1 H2 H3 H4)).
  - intros r a Hr Hp. exact (wp_zoom _ _ _ _ _ (switch_address_space_spec (ledger r) a Hr Hp)).
  - intros r a Hr. exact (wp_zoom _ _ _ _ _ (set_kernel_stack_spec (ledger r) a Hr)).
  - intros r x Hr Hx. exact Hx.
  - intros r x v Hr [c Hc]. cbn. do 2 wp_step. wp_step. eapply wp_defined; [exact Hc|]. wp_step. split; [exact Hr|]. split; [done|].
    intros y Hy. cbn. destruct (decide (x = y)) as [->|Hne]; [by rewrite lookup_insert_eq|by rewrite lookup_insert_ne].
Defined.

(** The user has "hi!" at 0x5000; the letter "o" waits in the keyboard, "k" and
    return are about to be typed. *)
Definition board0 : Board RamStore Bench :=
  mkBoard (File.set_file_console (Some (LogConsole [])) FileProps.typing)
    (mkBench ledger0 (list_to_map [(20480, 104); (20481, 105); (20482, 33); (20483, 0); (20484, 0)])).

Lemma board0_ok : svc_ok board0 ∧ ∀ r, held board0 r = 0.
Proof.
  split.
  - split; [apply ledger0_ok| | |done].
    + apply Forall_replicate. split; cbn; unfold INT_MAX; [lia|done|lia|done].
    + destruct FileProps.typing_ok as [H1 H2 H3]. by split.
  - intros [b|a|f|a|a]; [done|done| |done|done]. cbn. unfold refs. change (from_option File.refcnt 0 (replicate File.NUM_FILES File.empty_file !! f) = 0).
    destruct (replicate File.NUM_FILES File.empty_file !! f) as [x|] eqn:Hx; [|done].
    apply lookup_replicate in Hx as [-> _]. done.
Qed.

(** What an operation returns, and where it leads. *)
Definition user_kernel := Kernel (Board RamStore Bench).
Definition result {A} (m : M user_kernel A) (s : user_kernel) : option A := fst <$> m s.
Definition next_state {A} (m : M user_kernel A) (s : user_kernel) : user_kernel :=
  match m s with Some (_, s') => s' | None => s end.
Definition started : user_kernel :=
  next_state yield (next_state (create_process (Some 4096) ([115; 104] ++ 0 :: []) 0) (next_state initialize (static_kernel board0))).

Lemma next_ok {A} (m : M user_kernel A) s (P : A → user_kernel → Prop) a : wp m s P → result m s = Some a → P a (next_state m s).
Proof. intros (b & s' & Hm & HP) Hr. unfold result, next_state in *. rewrite Hm in *. cbn in Hr. by injection Hr as <-. Qed.

Lemma started_ok : table_ok started.
Proof.
  destruct board0_ok as [H1 H2].
  pose proof (next_ok _ _ _ () (wp_process_initialize board0 (λ _ s, table_ok s) H1 (λ r _, H2 r) (λ s H, H)) ltac:(by vm_compute)) as Hs1.
  assert (0 ∉ [115; 104]) as Hn by (apply (bool_decide_unpack _); by vm_compute).
  pose proof (next_ok _ _ _ (Some 0%nat) (wp_create_process (next_state initialize (static_kernel board0)) (Some 4096) [115; 104] [] 0
    (λ _ s, table_ok s) Hs1 ltac:(by vm_compute) Hn (λ r s H _, H)) ltac:(by vm_compute)) as Hs2.
  refine (next_ok yield _ (λ _ s, table_ok s) _ (wp_yield _ _ Hs2 (λ c s' H _, H)) _). by vm_compute.
Qed.

Definition the_process : Process := default static_process (procs started !! 0%nat).
Definition regs (num a1 a2 a3 : Z) : TrapFrame := mkTrapFrame 0 0 0 0 514 0 0 0 0 0 num 4200000 a3 a2 a1 6295536.

(** The console shows what [write] is given. *)
Lemma write_shows : (λ s, File.file_console (files (env s))) <$> (snd <$> handle_syscall 8000 (regs kWrite 1 20480 3) (mkContext 0 0 0 0 0 0 0) 0 started)
  = Some (Some (LogConsole [104; 105; 33])).
Proof. by vm_compute. Qed.

Lemma handle_syscall_correct_witness :
  let tf := regs kRead 0 20482 3 in let s := started in
  (λ p, tf_rax match p with ToUser t => t | Away _ => tf end) <$> result (handle_syscall 8000 tf (mkContext 0 0 0 0 0 0 0) 0) s = Some 3 ∧
  wp (handle_syscall 8000 tf (mkContext 0 0 0 0 0 0 0) 0) s (λ r s', table_ok s' ∧
    handled s 0 the_process 8000 tf (mkContext 0 0 0 0 0 0 0) 0 r s').
Proof.
  cbn zeta. split; [vm_compute; reflexivity|].
  apply (handle_syscall_correct started 0 the_process 8000 (regs kRead 0 20482 3) (mkContext 0 0 0 0 0 0 0) 0).
  - exact started_ok.
  - vm_compute. reflexivity.
  - vm_compute. reflexivity.
  - vm_compute. reflexivity.
  - split; cbn; lia.
  - split; [|split].
    + intros _ f _ _ x _ _. split; [eexists; vm_compute; reflexivity|]. intros i Hi.
      assert (i = 0 ∨ i = 1 ∨ i = 2) as [->|[->| ->]] by (cbn in Hi; lia); eexists; vm_compute; reflexivity.
    + intros H. exfalso. vm_compute in H. discriminate H.
    + intros H. exfalso. vm_compute in H. discriminate H.
Defined.
