(* ===== verification/Cpu.v ===== *)
(** * What the kernel reaches with assembly

    The system registers, set by the routines in assembly and by inline assembly, the
    screen that the initialisation reports to, and the ports of the devices
    (include/io.hpp). *)
From S2P Require Import Prelude Console.

Class Cpu (D : Type) := {
  LoadGDT : Z → Z → M D ();
  LoadTR : Z → M D ();
  lidt : Z → Z → M D ();
  sti : M D ();
  rdmsr : Z → M D Z;
  wrmsr : Z → Z → M D ();
  report_color : Color → Color → M D ();
  report : list Z → M D ();
}.

(** The registers that are loaded, and that reporting leaves them alone. *)
Class CpuSpec (D : Type) `{Cpu D} := {
  gdtr : D → Z * Z;
  task_register : D → Z;
  idtr : D → Z * Z;
  interrupts_on : D → bool;
  msr : D → Z → Z;
  cpu_rest (d d' : D) : Prop := gdtr d' = gdtr d ∧ task_register d' = task_register d ∧ idtr d' = idtr d ∧ (∀ i, msr d' i = msr d i);
  LoadGDT_spec l b d : wp (LoadGDT l b) d (λ _ d', gdtr d' = (l, b) ∧ task_register d' = task_register d ∧ idtr d' = idtr d ∧ ∀ i, msr d' i = msr d i);
  LoadTR_spec v d : wp (LoadTR v) d (λ _ d', task_register d' = v ∧ gdtr d' = gdtr d ∧ idtr d' = idtr d ∧ ∀ i, msr d' i = msr d i);
  lidt_spec l b d : wp (lidt l b) d (λ _ d', idtr d' = (l, b) ∧ gdtr d' = gdtr d ∧ task_register d' = task_register d ∧ ∀ i, msr d' i = msr d i);
  sti_spec d : wp sti d (λ _ d', cpu_rest d d' ∧ interrupts_on d' = true);
  rdmsr_spec i d : wp (rdmsr i) d (λ v d', v = msr d i ∧ cpu_rest d d');
  wrmsr_spec i v d : wp (wrmsr i v) d (λ _ d', gdtr d' = gdtr d ∧ task_register d' = task_register d ∧ idtr d' = idtr d ∧
    ∀ j, msr d' j = if decide (j = i) then v else msr d j);
  report_color_spec f b d : wp (report_color f b) d (λ _ d', cpu_rest d d');
  report_spec s d : wp (report s) d (λ _ d', cpu_rest d d');
}.

(** * Port input and output (include/io.hpp)

    The ports of the machine, as the assembly of io/io.asm reaches them: [D] is
    the state of the devices behind them. *)

Class PortIO (D : Type) := {
  outb : Z → Z → M D ();
  inb : Z → M D Z;
  out16b : Z → Z → M D ();
  in16b : Z → M D Z;
  out32b : Z → Z → M D ();
  in32b : Z → M D Z;
  io_wait : M D ();
}.
