(* ===== verification/Pci.v ===== *)
(** * The PCI bus (include/pci.hpp, include/pci.cpp)

    Access to the configuration space through two ports, and the search for a
    device with its base addresses. *)
From S2P Require Import Prelude Cpu.

Record PCIBarInfo := mkBar {
  base_address : Z; bar_size : Z; is_io_space : bool; is_64bit : bool; is_prefetchable : bool; bar_valid : bool;
}.
Record PCIDevice := mkDevice {
  bus : Z; device : Z; function : Z; vendor_id : Z; device_id : Z; bars : list PCIBarInfo;
}.

Definition CONFIG_ADDRESS_PORT : Z := 0xCF8.
Definition CONFIG_DATA_PORT : Z := 0xCFC.

Definition shift_left (value shift : Z) : Z := u32 (Z.shiftl value shift).
Definition make_pci_address (bus device function offset : Z) : Z :=
  Z.lor (Z.lor (Z.lor (Z.lor (shift_left bus 16) (shift_left device 11)) (shift_left function 8))
    (shift_left (Z.land offset 0xFC) 0)) (shift_left 1 31).

(** What one base address register says. *)
Definition decode_bar (bar_data : Z) : PCIBarInfo :=
  let is_io_space := negb (Z.land bar_data 1 =? 0) in
  mkBar (if is_io_space then Z.land bar_data 0xFFFFFFFC else Z.land bar_data 0xFFFFFFF0) 0 is_io_space
    (negb (Z.land bar_data 4 =? 0)) (negb (Z.land bar_data 8 =? 0)) true.

Section Pci.
Context {D : Type} `{PortIO D}.

Definition read_config (bus device function offset : Z) : M D Z :=
  _ ← out32b CONFIG_ADDRESS_PORT (make_pci_address bus device function offset);
  in32b CONFIG_DATA_PORT.

Definition write_config (bus device function offset value : Z) : M D () :=
  _ ← out32b CONFIG_ADDRESS_PORT (make_pci_address bus device function offset);
  _ ← out32b CONFIG_DATA_PORT value;
  _ ← in32b CONFIG_DATA_PORT;
  mret ().

(** The registers from [bar_index] on. *)
Fixpoint read_bars (n : nat) (bar_index bus device function : Z) : M D (list PCIBarInfo) :=
  match n with
  | O => mret []
  | S n =>
      bar_data ← read_config bus device function (u8 (0x10 + bar_index * 4));
      l ← read_bars n (bar_index + 1) bus device function;
      mret (decode_bar bar_data :: l)
  end.

(** The three loops, each from an index on. *)
Fixpoint scan_functions (n : nat) (bus device function vendor_id device_id : Z) : M D (option PCIDevice) :=
  match n with
  | O => mret None
  | S n =>
      data ← read_config (u8 bus) (u8 device) (u8 function) 0;
      let vid := Z.land data 0xFFFF in
      let did := Z.land (Z.shiftr data 16) 0xFFFF in
      if (vid =? vendor_id) && (did =? device_id) then
        let dev := u8 (Z.land device 0x1F) in
        l ← read_bars 6 0 (u8 bus) dev (u8 function);
        mret (Some (mkDevice (u8 bus) dev (u8 function) vid did l))
      else scan_functions n bus device (function + 1) vendor_id device_id
  end.
Fixpoint scan_devices (n : nat) (bus device vendor_id device_id : Z) : M D (option PCIDevice) :=
  match n with
  | O => mret None
  | S n =>
      found ← scan_functions 8 bus device 0 vendor_id device_id;
      match found with
      | Some d => mret (Some d)
      | None => scan_devices n bus (device + 1) vendor_id device_id
      end
  end.
Fixpoint scan_buses (n : nat) (bus vendor_id device_id : Z) : M D (option PCIDevice) :=
  match n with
  | O => mret None
  | S n =>
      found ← scan_devices 32 bus 0 vendor_id device_id;
      match found with
      | Some d => mret (Some d)
      | None => scan_buses n (bus + 1) vendor_id device_id
      end
  end.
Definition pci_device_exists (vendor_id device_id : Z) : M D (option PCIDevice) :=
  scan_buses 256 0 vendor_id device_id.

Definition enable_bus_master (dev : PCIDevice) : M D () :=
  command ← read_config (bus dev) (device dev) (function dev) 4;
  write_config (bus dev) (device dev) (function dev) 4 (Z.lor command (Z.shiftl 1 2)).
End Pci.

(** * What the search of the PCI bus finds *)

(** The behaviour of the two ports: a write to the first one selects a doubleword
    of the configuration space, reads of the second one give it; nothing else
    changes ([pci_same]) but the number of these reads so far ([reads]). *)
Class ConfigSpace (D : Type) `{PortIO D} := {
  selected : D → Z;
  config : D → Z → Z;
  reads : D → Z;
  pci_same : D → D → Prop;
  pci_same_equiv :: Equivalence pci_same;
  config_same d d' a : pci_same d d' → config d' a = config d a;
  config_range d a : 0 <= config d a < 2 ^ 32;
  select_spec d a : wp (out32b CONFIG_ADDRESS_PORT a) d (λ _ d', pci_same d d' ∧ selected d' = a ∧ reads d' = reads d);
  config_read_spec d : wp (in32b CONFIG_DATA_PORT) d (λ v d', v = config d (selected d) ∧ pci_same d d' ∧ reads d' = reads d + 1);
}.

(** The address of register [offset] of a function. *)
Definition config_address (bus device function offset : Z) : Z :=
  2 ^ 31 + bus * 2 ^ 16 + device * 2 ^ 11 + function * 2 ^ 8 + offset / 4 * 4.

Definition function_ok (bus device function : Z) : Prop := 0 <= bus < 256 ∧ 0 <= device < 32 ∧ 0 <= function < 8.

Lemma make_pci_address_spec bus device function offset :
  function_ok bus device function → 0 <= offset < 256 →
  make_pci_address bus device function offset = config_address bus device function offset.
Proof.
  intros (Hb & Hd & Hf) Ho. unfold make_pci_address, shift_left, config_address.
  assert (Z.land offset 0xFC = offset / 4 * 4) as ->.
  { change 0xFC with (Z.land 255 (Z.lnot (Z.ones 2))). rewrite Z.land_assoc. change 255 with (Z.ones 8). rewrite Z.land_ones by lia.
    rewrite Z.mod_small by (cbn; lia). rewrite <- Z.ldiff_land, Z.ldiff_ones_r, Z.shiftl_mul_pow2, Z.shiftr_div_pow2 by lia. done. }
  rewrite !u32_small by (rewrite !Z.shiftl_mul_pow2; cbn; lia). rewrite Z.shiftl_0_r.
  rewrite (Z.lor_comm _ (Z.shiftl 1 31)).
  rewrite <- !Z.lor_assoc.
  rewrite (lor_field (offset / 4 * 4) function 8) by (cbn; lia).
  rewrite (lor_field _ device 11) by (cbn; lia).
  rewrite (lor_field _ bus 16) by (cbn; lia).
  rewrite (lor_field _ 1 31) by (cbn; lia). lia.
Qed.

Lemma config_address_inj b1 d1 f1 o1 b2 d2 f2 o2 :
  function_ok b1 d1 f1 → function_ok b2 d2 f2 → 0 <= o1 < 256 → 0 <= o2 < 256 →
  config_address b1 d1 f1 o1 = config_address b2 d2 f2 o2 → b1 = b2 ∧ d1 = d2 ∧ f1 = f2 ∧ o1 / 4 = o2 / 4.
Proof. unfold function_ok, config_address. lia. Qed.

Section pci.
Context {D : Type} `{HP : PortIO D} `{HC : !ConfigSpace D}.
Implicit Types (d : D).

(** A base address register, bit by bit: bit 0 is set for ports, of which the lowest
    two bits are no address, and clear for memory, of which the lowest four are none;
    the flags are bits 2 and 3. *)
Definition bar_spec (v : Z) : PCIBarInfo :=
  mkBar (if Z.testbit v 0 then v - v `mod` 4 else v - v `mod` 16) 0 (Z.testbit v 0) (Z.testbit v 2) (Z.testbit v 3) true.

Lemma flag_bit v k : 0 <= k → negb (Z.land v (2 ^ k) =? 0) = Z.testbit v k.
Proof.
  intros Hk. assert (Z.land v (2 ^ k) = if Z.testbit v k then 2 ^ k else 0) as ->.
  { apply Z.bits_inj'. intros n Hn. rewrite Z.land_spec, Z.pow2_bits_eqb by done.
    destruct (Z.eqb_spec k n) as [<-|Hne]; destruct (Z.testbit v k) eqn:E; rewrite ?Z.pow2_bits_eqb, ?Z.testbit_0_l, ?E by done; lia. }
  destruct (Z.testbit v k); [pose proof (Z.pow_pos_nonneg 2 k)|]; lia.
Qed.
Lemma address_bits v k : 0 <= v < 2 ^ 32 → 0 <= k → Z.land v (Z.land (Z.ones 32) (Z.lnot (Z.ones k))) = v - v `mod` 2 ^ k.
Proof.
  intros Hv Hk. rewrite Z.land_assoc, Z.land_ones, Z.mod_small by lia.
  rewrite <- Z.ldiff_land, Z.ldiff_ones_r, Z.shiftl_mul_pow2, Z.shiftr_div_pow2 by lia.
  pose proof (Z.div_mod v (2 ^ k)). lia.
Qed.
Lemma decode_bar_spec v : 0 <= v < 2 ^ 32 → decode_bar v = bar_spec v.
Proof.
  intros Hv. unfold decode_bar, bar_spec. change (Z.land v 1) with (Z.land v (2 ^ 0)).
  change (Z.land v 4) with (Z.land v (2 ^ 2)). change (Z.land v 8) with (Z.land v (2 ^ 3)). rewrite !flag_bit by done.
  change 0xFFFFFFFC with (Z.land (Z.ones 32) (Z.lnot (Z.ones 2))). change 0xFFFFFFF0 with (Z.land (Z.ones 32) (Z.lnot (Z.ones 4))).
  by rewrite !address_bits.
Qed.

(** The identity and the base addresses that the configuration space gives. *)
Definition ids d (bus device function : Z) : Z * Z :=
  let data := config d (config_address bus device function 0) in (field data 0 16, field data 16 16).
Definition bar_of d (bus device function i : Z) : PCIBarInfo :=
  bar_spec (config d (config_address bus device function (0x10 + i * 4))).
Definition describe d (bus device function : Z) : PCIDevice :=
  mkDevice bus device function (fst (ids d bus device function)) (snd (ids d bus device function))
    (bar_of d bus device function <$> [0; 1; 2; 3; 4; 5]).

Lemma same_config d d' : pci_same d d' → ∀ b dv f, ids d' b dv f = ids d b dv f ∧ ∀ i, bar_of d' b dv f i = bar_of d b dv f i.
Proof. intros Hs b dv f. unfold ids, bar_of. rewrite (config_same d d' _ Hs). split; [done|]. intros i. by rewrite (config_same d d' _ Hs). Qed.

Lemma wp_read_config bus device function offset d (Q : Z → D → Prop) :
  function_ok bus device function → 0 <= offset < 256 →
  (∀ d', pci_same d d' → reads d' = reads d + 1 → Q (config d (config_address bus device function offset)) d') → wp (read_config bus device function offset) d Q.
Proof.
  intros Hf Ho HQ. unfold read_config. rewrite make_pci_address_spec by done. wp_step.
  eapply wp_mono; [apply select_spec|]. intros [] d1 (Hs1 & Hsel & Hr1).
  eapply wp_mono; [apply config_read_spec|]. intros v d2 (-> & Hs2 & Hr2). rewrite Hsel, (config_same d d1 _ Hs1).
  apply HQ; [by transitivity d1|lia].
Qed.

Lemma wp_read_bars n i bus device function d (Q : list PCIBarInfo → D → Prop) :
  function_ok bus device function → 0 <= i → i + Z.of_nat n <= 6 →
  (∀ d', pci_same d d' → reads d' = reads d + Z.of_nat n → Q ((λ j, bar_of d bus device function (i + Z.of_nat j)) <$> seq 0 n) d') →
  wp (read_bars n i bus device function) d Q.
Proof.
  intros Hf. revert i d Q. induction n as [|n IH]; intros i d Q Hi Hn HQ; cbn [read_bars].
  { wp_step. apply HQ; [done|lia]. }
  wp_step. rewrite u8_small by lia. apply wp_read_config; [done|lia|]. intros d1 Hs1 Hr1. wp_step. apply IH; [lia|lia|].
  intros d2 Hs2 Hr2. wp_step. rewrite decode_bar_spec by apply config_range. replace (bar_spec _ :: _) with ((λ j, bar_of d bus device function (i + Z.of_nat j)) <$> seq 0 (S n)).
  { apply HQ; [by transitivity d1|lia]. }
  cbn [seq fmap list_fmap]. f_equal; [unfold bar_of; do 3 f_equal; lia|]. rewrite <- fmap_S_seq, <- list_fmap_compose.
  apply list_fmap_ext. intros _ j _. cbn. rewrite (proj2 (same_config d d1 Hs1 _ _ _)). f_equal. lia.
Qed.

(** The functions of all buses in the order of the search. *)
Definition function_at (i : Z) : Z * Z * Z := (i / 256, (i / 8) `mod` 32, i `mod` 8).
Definition hit d (vid did i : Z) : Prop := let '(b, dv, f) := function_at i in ids d b dv f = (vid, did).
Definition describe_at d i : PCIDevice := let '(b, dv, f) := function_at i in describe d b dv f.
#[local] Arguments hit : simpl never.
#[local] Arguments describe_at : simpl never.

(** The result of a search from function [lo] up to [hi]. *)
Definition found d (vid did lo hi : Z) (r : option PCIDevice) : Prop :=
  match r with
  | Some x => ∃ i, lo <= i < hi ∧ hit d vid did i ∧ x = describe_at d i ∧ ∀ j, lo <= j < i → ¬ hit d vid did j
  | None => ∀ j, lo <= j < hi → ¬ hit d vid did j
  end.

(** The place of a function in the order of the search. *)
Definition function_number (x : PCIDevice) : Z := bus x * 256 + device x * 8 + function x.
Lemma described_number d i : 0 <= i → function_number (describe_at d i) = i.
Proof. intros Hi. unfold describe_at, function_at, describe, function_number. cbn. lia. Qed.

Lemma same_hit d d' vid did i : pci_same d d' → hit d' vid did i ↔ hit d vid did i.
Proof. intros Hs. unfold hit. destruct (function_at i) as [[b dv] f]. by rewrite (proj1 (same_config d d' Hs b dv f)). Qed.
Lemma same_describe d d' i : pci_same d d' → describe_at d' i = describe_at d i.
Proof.
  intros Hs. unfold describe_at, describe. destruct (function_at i) as [[b dv] f]. destruct (same_config d d' Hs b dv f) as [-> Hb].
  f_equal. apply list_fmap_ext. auto.
Qed.

(** The registers that a search from function [lo] to [hi] reads: one for each
    function it looks at, and six more of the one it finds. *)
Definition looked_at (lo hi : Z) (r : option PCIDevice) : Z :=
  match r with Some x => function_number x + 1 - lo + 6 | None => hi - lo end.

Lemma found_next d d' vid did lo mid hi r :
  lo <= mid → (∀ j, lo <= j < mid → ¬ hit d vid did j) → pci_same d d' → found d' vid did mid hi r → found d vid did lo hi r.
Proof.
  intros Hle Hno Hs. destruct r as [x|]; cbn.
  - intros (i & Hi & Hhit & -> & Hfirst). exists i. rewrite <- (same_hit d d') by done. split; [lia|]. split; [done|].
    split; [by apply same_describe|]. intros j Hj. destruct (decide (j < mid)); [apply Hno; lia|].
    rewrite <- (same_hit d d') by done. apply Hfirst. lia.
  - intros Hall j Hj. destruct (decide (j < mid)); [apply Hno; lia|]. rewrite <- (same_hit d d') by done. apply Hall. lia.
Qed.
Lemma found_widen d vid did lo mid hi x : mid <= hi → found d vid did lo mid (Some x) → found d vid did lo hi (Some x).
Proof. intros Hle (i & Hi & H). exists i. split; [lia|done]. Qed.

Lemma wp_scan_functions n bus dv f vid did d (Q : option PCIDevice → D → Prop) :
  0 <= bus < 256 → 0 <= dv < 32 → 0 <= f → f + Z.of_nat n = 8 →
  (∀ r d', pci_same d d' → found d vid did (bus * 256 + dv * 8 + f) (bus * 256 + dv * 8 + 8) r →
    reads d' = reads d + looked_at (bus * 256 + dv * 8 + f) (bus * 256 + dv * 8 + 8) r → Q r d') →
  wp (scan_functions n bus dv f vid did) d Q.
Proof.
  intros Hb Hd. revert f d Q. induction n as [|n IH]; intros f d Q Hf Hn HQ; cbn [scan_functions].
  { wp_step. apply HQ; [done|intros j Hj; lia|cbn; lia]. }
  assert (function_at (bus * 256 + dv * 8 + f) = (bus, dv, f)) as Hat by (unfold function_at; f_equal; [f_equal|]; lia).
  assert (function_ok bus dv f) as Hfn by (unfold function_ok; lia).
  wp_step. rewrite !u8_small by lia. apply wp_read_config; [done|lia|]. intros d1 Hs1 Hr1. cbn zeta.
  change 0xFFFF with (Z.ones 16). rewrite (shiftr_land_field _ 16 16) by done.
  set (v := config d _). assert (Z.land v (Z.ones 16) = field v 0 16) as -> by (by rewrite <- shiftr_land_field, Z.shiftr_0_r). destruct ((field v 0 16 =? vid) && (field v 16 16 =? did)) eqn:E.
  - assert (Z.land dv 0x1F = dv) as Edv by (change 0x1F with (Z.ones 5); rewrite Z.land_ones by lia; apply Z.mod_small; cbn; lia).
    rewrite Edv, u8_small by lia. wp_step. apply wp_read_bars; [done|lia|lia|]. intros d2 Hs2 Hr2. wp_step.
    apply HQ; [by transitivity d1| |cbn; unfold function_number; cbn; lia]. exists (bus * 256 + dv * 8 + f). split; [lia|]. unfold hit, describe_at. rewrite Hat.
    assert (ids d bus dv f = (vid, did)) as Hids by (unfold ids; fold v; f_equal; lia). split; [done|]. split; [|intros j Hj; lia].
    unfold describe. rewrite Hids. cbn [fst snd]. f_equal; [lia|lia|]. cbn.
    by rewrite !(proj2 (same_config d d1 Hs1 bus dv f)).
  - apply IH; [lia|lia|]. intros r d2 Hs2 Hr Hc. apply HQ; [by transitivity d1| |destruct r; cbn [looked_at] in *; lia].
    apply (found_next d d1 vid did _ (bus * 256 + dv * 8 + (f + 1))); [lia| |done|done].
    intros j Hj. assert (j = bus * 256 + dv * 8 + f) as -> by lia. unfold hit. rewrite Hat. unfold ids. fold v.
    intros [= Hv Hdid]. lia.
Qed.

Lemma wp_scan_devices n bus dv vid did d (Q : option PCIDevice → D → Prop) :
  0 <= bus < 256 → 0 <= dv → dv + Z.of_nat n = 32 →
  (∀ r d', pci_same d d' → found d vid did (bus * 256 + dv * 8) (bus * 256 + 256) r →
    reads d' = reads d + looked_at (bus * 256 + dv * 8) (bus * 256 + 256) r → Q r d') →
  wp (scan_devices n bus dv vid did) d Q.
Proof.
  intros Hb. revert dv d Q. induction n as [|n IH]; intros dv d Q Hd Hn HQ; cbn [scan_devices].
  { wp_step. apply HQ; [done|intros j Hj; lia|cbn; lia]. }
  wp_step. apply wp_scan_functions; [done|lia|done|done|]. rewrite Z.add_0_r. intros r d1 Hs1 Hr Hc. destruct r as [x|].
  - wp_step. apply HQ; [done| |cbn [looked_at] in *; lia]. apply (found_widen _ _ _ _ (bus * 256 + dv * 8 + 8)); [lia|done].
  - apply IH; [lia|lia|]. intros r d2 Hs2 Hr2 Hc2. apply HQ; [by transitivity d1| |destruct r; cbn [looked_at] in *; lia].
    apply (found_next d d1 vid did _ (bus * 256 + (dv + 1) * 8)); [lia| |done|done]. intros j Hj. apply Hr. lia.
Qed.

Lemma wp_scan_buses n bus vid did d (Q : option PCIDevice → D → Prop) :
  0 <= bus → bus + Z.of_nat n = 256 →
  (∀ r d', pci_same d d' → found d vid did (bus * 256) 65536 r → reads d' = reads d + looked_at (bus * 256) 65536 r → Q r d') →
  wp (scan_buses n bus vid did) d Q.
Proof.
  revert bus d Q. induction n as [|n IH]; intros bus d Q Hb Hn HQ; cbn [scan_buses].
  { wp_step. apply HQ; [done|intros j Hj; lia|cbn; lia]. }
  wp_step. apply wp_scan_devices; [lia|done|done|]. rewrite Z.add_0_r. intros r d1 Hs1 Hr Hc. destruct r as [x|].
  - wp_step. apply HQ; [done| |cbn [looked_at] in *; lia]. apply (found_widen _ _ _ _ (bus * 256 + 256)); [lia|done].
  - apply IH; [lia|lia|]. intros r d2 Hs2 Hr2 Hc2. apply HQ; [by transitivity d1| |destruct r; cbn [looked_at] in *; lia].
    apply (found_next d d1 vid did _ ((bus + 1) * 256)); [lia| |done|done]. intros j Hj. apply Hr. lia.
Qed.

Lemma wp_pci_device_exists vid did d (Q : option PCIDevice → D → Prop) :
  (∀ r d', pci_same d d' → found d vid did 0 65536 r → reads d' = reads d + looked_at 0 65536 r → Q r d') →
  wp (pci_device_exists vid did) d Q.
Proof. intros HQ. by apply wp_scan_buses. Qed.

(** C37: [pci_device_exists] returns: the first function, in the order of bus,
    device and function numbers, that has the identity, with its six base address
    registers taken apart; or that there is none. It reads one register of each
    function up to this one, 65536 at most, and six more of the one it finds; the
    configuration space stays as it was. *)
Theorem pci_device_exists_correct vid did d :
  wp (pci_device_exists vid did) d (λ r d', pci_same d d' ∧ found d vid did 0 65536 r ∧
    (∀ x, r = Some x → reads d' = reads d + function_number x + 7 ∧ 0 <= function_number x < 65536) ∧
    (r = None → reads d' = reads d + 65536)).
Proof.
  apply wp_pci_device_exists. intros r d' Hs Hr Hc. split; [done|]. split; [done|]. destruct r as [x|]; cbn [looked_at] in Hc.
  - split; [|done]. intros _ [= <-]. split; [lia|]. destruct Hr as (i & Hi & _ & -> & _). rewrite described_number; lia.
  - split; [done|]. intros _. lia.
Qed.
End pci.

(** The flag [is_64bit] is bit 2 of the register also for an I/O register, where
    that bit belongs to the port number. *)
Theorem io_bar_called_64bit : is_io_space (decode_bar 0xC005) = true ∧ is_64bit (decode_bar 0xC005) = true ∧
  base_address (decode_bar 0xC005) = 0xC004.
Proof. by vm_compute. Qed.

(** ** A bus with two devices *)

(** The register that the first port has selected and the reads of the second one. *)
Record SmallBus := mkSmallBus { latch : Z; bus_reads : Z }.

(** A bridge is the first function of the bus; the fourth device has, as its second
    function, a controller with ports from 0xC048 and prefetchable memory of 64 bits
    from 0xFE000000. *)
Definition small_config (a : Z) : Z :=
  if a =? config_address 0 0 0 0 then 0x12378086
  else if a =? config_address 0 3 1 0 then 0x10001AF4
  else if a =? config_address 0 3 1 0x10 then 0xC049
  else if a =? config_address 0 3 1 0x14 then 0xFE00000C
  else if (config_address 0 3 1 0x18 <=? a) && (a <=? config_address 0 3 1 0x24) then 0
  else 0xFFFFFFFF.

#[local] Instance small_bus_ports : PortIO SmallBus := {|
  outb _ _ := mret (); inb _ := mret 255; out16b _ _ := mret (); in16b _ := mret 65535;
  out32b p v := modify (λ d, if p =? CONFIG_ADDRESS_PORT then mkSmallBus v (bus_reads d) else d);
  in32b p := d ← get;
    if p =? CONFIG_DATA_PORT then _ ← put (mkSmallBus (latch d) (bus_reads d + 1)); mret (small_config (latch d)) else mret 0;
  io_wait := mret ();
|}.
#[local] Instance small_bus_config : ConfigSpace SmallBus.
Proof.
  refine {| selected := latch; config _ := small_config; reads := bus_reads; pci_same _ _ := True |}.
  - by split.
  - done.
  - intros _ a. unfold small_config. repeat case_match; lia.
  - intros d a. apply wp_modify. done.
  - intros d. cbn. do 2 wp_step. change (_ =? _) with true. wp_step. wp_step. wp_step. done.
Defined.

(** The two identities on this bus. *)
Lemma small_hit v vid did i : 0 <= i → vid ≠ 0xFFFF → (vid, did) ≠ (0, 0) →
  hit (mkSmallBus v 0) vid did i → small_config (config_address (i / 256) ((i / 8) `mod` 32) (i `mod` 8) 0) = did * 65536 + vid ∧
    (i = 0 ∧ vid = 0x8086 ∨ i = 25 ∧ vid = 0x1AF4).
Proof.
  intros Hi Hv Hn. unfold hit, function_at, ids. cbn [config small_bus_config]. unfold small_config, config_address, field.
  repeat case_match; intros [= <- <-]; try done; (split; [by vm_compute|]); lia.
Qed.

(** The controller is the 25th function after the bridge; there is no device 0xFFFF
    of vendor 0. *)
Lemma pci_device_exists_correct_witness :
  (∃ x d', pci_device_exists 0x1AF4 0x1000 (mkSmallBus 0 0) = Some (Some x, d') ∧ bus_reads d' = 32 ∧
    base_address <$> bars x !! 0%nat = Some 0xC048 ∧ base_address <$> bars x !! 1%nat = Some 0xFE000000) ∧
  ∃ d', pci_device_exists 0 0xFFFF (mkSmallBus 0 0) = Some (None, d') ∧ bus_reads d' = 65536.
Proof.
  split.
  - destruct (pci_device_exists_correct 0x1AF4 0x1000 (mkSmallBus 0 0)) as (r & d' & Hrun & _ & Hr & Hsome & _).
    destruct r as [x|]; [|destruct (Hr 25); [lia|vm_compute; reflexivity]].
    destruct Hr as (i & Hi & Hhit & -> & _). destruct (small_hit 0 0x1AF4 0x1000 i) as [_ [[_ ?]|[-> _]]]; [lia|done..|].
    exists (describe_at (mkSmallBus 0 0) 25), d'. split; [exact Hrun|]. clear Hrun. split; [by apply (Hsome _ eq_refl)|by vm_compute].
  - destruct (pci_device_exists_correct 0 0xFFFF (mkSmallBus 0 0)) as (r & d' & Hrun & _ & Hr & _ & Hnone).
    destruct r as [x|]; [|exists d'; split; [exact Hrun|clear Hrun; by apply Hnone]].
    destruct Hr as (i & Hi & Hhit & _). by destruct (small_hit 0 0 0xFFFF i) as [_ [[_ ?]|[_ ?]]]; [lia|done..].
Defined.
