(* ===== verification/Virtio.v ===== *)
(** * The virtio block driver (include/virtioblock.hpp, include/virtioblock.cpp)

    The driver over a [Platform]: ports, and physical memory that the device reads
    and writes as well. The static variables of the driver that the device sees are
    bytes of this memory, at the addresses the linker gave them, reached through
    the [mmu]; the others are the fields of [Virtio]. *)
From stdpp Require Import gmap.
From S2P Require Import Prelude Cpu Pci.

(** [ram] is the physical memory; a [pause] lets the device work. After [horizon]
    pauses nothing changes any more. *)
Class Platform (D : Type) := {
  platform_ports :: PortIO D;
  ram : D → gmap Z Z;
  set_ram : gmap Z Z → D → D;
  pause : M D ();
  horizon : D → nat;
}.

(** Where the variables shared with the device are, and the page tables of the kernel. *)
Class Statics := {
  virtqueue_memory : Z;
  request_header : Z;
  data_buffer : Z;
  status_byte : Z;
  mmu : Z → option Z;
}.

(** Registers, status bits, flags and types, as numbers. *)
Definition DEVICE_FEATURES : Z := 0x00.
Definition DRIVER_FEATURES : Z := 0x04.
Definition QUEUE_ADDRESS : Z := 0x08.
Definition QUEUE_SIZE : Z := 0x0C.
Definition QUEUE_SELECT : Z := 0x0E.
Definition QUEUE_NOTIFY : Z := 0x10.
Definition DEVICE_STATUS : Z := 0x12.
Definition CONFIG_CAPACITY_LOW : Z := 0x14.
Definition CONFIG_CAPACITY_HIGH : Z := 0x18.

Definition RESET : Z := 0.
Definition ACKNOWLEDGE : Z := 1.
Definition DRIVER : Z := 2.
Definition DRIVER_OK : Z := 4.

Definition DESC_F_NEXT : Z := 1.
Definition DESC_F_WRITE : Z := 2.
Definition DESC_F_NONE : Z := 0.

Definition BLK_T_IN : Z := 0.
Definition BLK_T_OUT : Z := 1.

Definition OK : Z := 0.
Definition PENDING : Z := 255.

Definition VIRTIO_VENDOR_ID : Z := 0x1AF4.
Definition VIRTIO_BLK_DEVICE_ID : Z := 0x1001.
Definition SECTOR_SIZE : Z := 512.
Definition VIRTIO_PAGE_SIZE : Z := 4096.
Definition sizeof_virtqueue_memory : Z := 16384.

(** Sizes of the packed structures, and of [VRingUsedElement]. *)
Definition sizeof_VRingDescriptor : Z := 16.
Definition sizeof_VRingUsedElement : Z := 8.
Definition sizeof_VirtIOBlockRequestHeader : Z := 16.

Record VRing := mkVRing { num : Z; desc : Z; avail : Z; used : Z }.

(** [(x + align - 1) & ~(align - 1)] *)
Definition align_to (x align : Z) : Z := Z.land (u64 (x + align - 1)) (u64 (Z.lnot (align - 1))).

Definition vring_size (queue_size align : Z) : Z :=
  align_to (sizeof_VRingDescriptor * queue_size + 2 * (2 + queue_size)) align + 2 * 3 + sizeof_VRingUsedElement * queue_size.

(** [&avail->ring[i]], behind [flags] and [idx]; [&used->idx]. *)
Definition avail_ring (vr : VRing) (i : Z) : Z := avail vr + 4 + 2 * i.
Definition avail_idx (vr : VRing) : Z := avail vr + 2.
Definition used_idx (vr : VRing) : Z := used vr + 2.

Definition vring_init (queue_size p align : Z) : VRing :=
  let av := p + queue_size * sizeof_VRingDescriptor in
  mkVRing queue_size p av (align_to (av + 4 + 2 * queue_size) align).

Record Virtio (D : Type) := mkVirtio {
  io_base : Z;
  queue : VRing;
  ready : bool;
  request_header_phys : option Z;
  data_buffer_phys : option Z;
  status_byte_phys : option Z;
  last_used_index : Z;
  platform : D;
}.
Arguments mkVirtio {D}. Arguments io_base {D}. Arguments queue {D}. Arguments ready {D}. Arguments request_header_phys {D}.
Arguments data_buffer_phys {D}. Arguments status_byte_phys {D}. Arguments last_used_index {D}. Arguments platform {D}.

Section Virtio.
Context {D : Type} `{Platform D} `{Statics}.

Definition set_io_base v (s : Virtio D) : Virtio D := mkVirtio v (queue s) (ready s) (request_header_phys s) (data_buffer_phys s) (status_byte_phys s) (last_used_index s) (platform s).
Definition set_queue v (s : Virtio D) := mkVirtio (io_base s) v (ready s) (request_header_phys s) (data_buffer_phys s) (status_byte_phys s) (last_used_index s) (platform s).
Definition set_ready v (s : Virtio D) := mkVirtio (io_base s) (queue s) v (request_header_phys s) (data_buffer_phys s) (status_byte_phys s) (last_used_index s) (platform s).
Definition set_phys h b st (s : Virtio D) := mkVirtio (io_base s) (queue s) (ready s) h b st (last_used_index s) (platform s).
Definition set_last v (s : Virtio D) := mkVirtio (io_base s) (queue s) (ready s) (request_header_phys s) (data_buffer_phys s) (status_byte_phys s) v (platform s).
Definition set_platform (v : D) (s : Virtio D) := mkVirtio (io_base s) (queue s) (ready s) (request_header_phys s) (data_buffer_phys s) (status_byte_phys s) (last_used_index s) v.

Definition hw {A} (m : M D A) : M (Virtio D) A := zoom platform set_platform m.

(** ** Memory *)

(** The bytes from a virtual address on; an unmapped address is stuck. *)
Fixpoint load (n : nat) (va : Z) : M (Virtio D) (list Z) :=
  match n with
  | O => mret []
  | S n =>
      s ← get;
      pa ← defined (mmu va);
      b ← defined (ram (platform s) !! pa);
      l ← load n (va + 1);
      mret (b :: l)
  end.
Fixpoint store (va : Z) (l : list Z) : M (Virtio D) () :=
  match l with
  | [] => mret ()
  | b :: l =>
      s ← get;
      pa ← defined (mmu va);
      _ ← hw (modify (set_ram (<[pa := b]> (ram (platform s)))));
      store (va + 1) l
  end.
Definition load_int (n : nat) (va : Z) : M (Virtio D) Z := l ← load n va; mret (le_value l).
Definition store_int (n : nat) (va v : Z) : M (Virtio D) () := store va (le_bytes n v).

(** ** Registers *)

Definition port (reg : Z) : M (Virtio D) Z := s ← get; mret (u16 (io_base s + reg)).
Definition write8 (reg v : Z) : M (Virtio D) () := p ← port reg; hw (outb p v).
Definition read8 (reg : Z) : M (Virtio D) Z := p ← port reg; hw (inb p).
Definition write16 (reg v : Z) : M (Virtio D) () := p ← port reg; hw (out16b p v).
Definition read16 (reg : Z) : M (Virtio D) Z := p ← port reg; hw (in16b p).
Definition write32 (reg v : Z) : M (Virtio D) () := p ← port reg; hw (out32b p v).
Definition read32 (reg : Z) : M (Virtio D) Z := p ← port reg; hw (in32b p).

Definition add_device_status (bits : Z) : M (Virtio D) () :=
  v ← read8 DEVICE_STATUS; write8 DEVICE_STATUS (u8 (Z.lor v bits)).

(** ** Initialisation *)

Definition find_device : M (Virtio D) bool :=
  found ← hw (pci_device_exists VIRTIO_VENDOR_ID VIRTIO_BLK_DEVICE_ID);
  match found with
  | None => mret false
  | Some dev =>
      bar ← defined (bars dev !! 0%nat);
      if negb (is_io_space bar) then mret false
      else
        _ ← modify (set_io_base (Z.land (base_address bar) 0xFFFC));
        s ← get;
        if io_base s =? 0 then mret false
        else _ ← hw (enable_bus_master dev); mret true
  end.

Definition resolve_dma_buffers (resolve_physical : Z → option Z) : M (Virtio D) bool :=
  match resolve_physical request_header, resolve_physical data_buffer, resolve_physical status_byte with
  | Some h, Some b, Some st => _ ← modify (set_phys (Some h) (Some b) (Some st)); mret true
  | _, _, _ => mret false
  end.

(** The loop over the pages of the queue from offset [off] on: whether they follow
    each other in physical memory. *)
Fixpoint contiguous (n : nat) (off queue_phys : Z) (resolve_physical : Z → option Z) : bool :=
  match n with
  | O => true
  | S n =>
      match resolve_physical (virtqueue_memory + off) with
      | Some page_phys =>
          if page_phys =? u64 (queue_phys + off) then contiguous n (off + VIRTIO_PAGE_SIZE) queue_phys resolve_physical else false
      | None => false
      end
  end.

Definition virtq_init (resolve_physical : Z → option Z) : M (Virtio D) bool :=
  _ ← write16 QUEUE_SELECT 0;
  queue_size ← read16 QUEUE_SIZE;
  if queue_size =? 0 then mret false
  else if negb (Z.land queue_size (queue_size - 1) =? 0) then mret false
  else if vring_size queue_size VIRTIO_PAGE_SIZE >? sizeof_virtqueue_memory then mret false
  else
    _ ← store virtqueue_memory (replicate (Z.to_nat sizeof_virtqueue_memory) 0);
    _ ← modify (set_last 0);
    _ ← modify (set_queue (vring_init queue_size virtqueue_memory VIRTIO_PAGE_SIZE));
    match resolve_physical virtqueue_memory with
    | None => mret false
    | Some queue_phys =>
        if negb (contiguous 3 VIRTIO_PAGE_SIZE queue_phys resolve_physical) then mret false
        else _ ← write32 QUEUE_ADDRESS (u32 (Z.shiftr queue_phys 12)); mret true
    end.

(** [None] is the null pointer. *)
Definition initialize (resolve_physical : option (Z → option Z)) : M (Virtio D) bool :=
  match resolve_physical with
  | None => mret false
  | Some resolve_physical =>
      ok ← find_device;
      if negb (ok : bool) then mret false
      else
        _ ← write8 DEVICE_STATUS RESET;
        _ ← add_device_status ACKNOWLEDGE;
        _ ← add_device_status DRIVER;
        _ ← read32 DEVICE_FEATURES;
        _ ← write32 DRIVER_FEATURES 0;
        ok ← resolve_dma_buffers resolve_physical;
        if negb (ok : bool) then mret false
        else
          ok ← virtq_init resolve_physical;
          if negb (ok : bool) then mret false
          else
            _ ← add_device_status DRIVER_OK;
            _ ← modify (set_ready true);
            mret true
  end.

(** ** Requests *)

(** The assignment of the members of [queue.desc[i]]. *)
Definition store_desc (i addr len flags next : Z) : M (Virtio D) () :=
  s ← get;
  let d := desc (queue s) + sizeof_VRingDescriptor * i in
  _ ← store_int 8 d addr;
  _ ← store_int 4 (d + 8) len;
  _ ← store_int 2 (d + 12) flags;
  store_int 2 (d + 14) next.

Definition setup_request (type sector : Z) : M (Virtio D) () :=
  _ ← store_int 4 request_header type;
  _ ← store_int 4 (request_header + 4) 0;
  _ ← store_int 8 (request_header + 8) sector;
  _ ← store_int 1 status_byte PENDING;
  s ← get;
  h ← defined (request_header_phys s);
  _ ← store_desc 0 h sizeof_VirtIOBlockRequestHeader DESC_F_NEXT 1;
  b ← defined (data_buffer_phys s);
  _ ← store_desc 1 b SECTOR_SIZE (Z.lor DESC_F_NEXT (if type =? BLK_T_IN then DESC_F_WRITE else DESC_F_NONE)) 2;
  st ← defined (status_byte_phys s);
  store_desc 2 st 1 DESC_F_WRITE 0.

Definition virtq_kick (desc_index : Z) : M (Virtio D) () :=
  s ← get;
  idx ← load_int 2 (avail_idx (queue s));
  _ ← (if num (queue s) =? 0 then stuck else store_int 2 (avail_ring (queue s) (idx `mod` num (queue s))) desc_index);
  _ ← store_int 2 (avail_idx (queue s)) (u16 (idx + 1));
  _ ← write16 QUEUE_NOTIFY 0;
  modify (λ s, set_last (u16 (last_used_index s + 1)) s).

Definition virtq_is_busy : M (Virtio D) bool :=
  _ ← hw pause;
  s ← get;
  idx ← load_int 2 (used_idx (queue s));
  mret (negb (idx =? last_used_index s)).

Fixpoint wait_idle (fuel : nat) : M (Virtio D) () :=
  match fuel with
  | O => stuck
  | S fuel => busy ← virtq_is_busy; if (busy : bool) then wait_idle fuel else mret ()
  end.

Definition do_request (type sector : Z) : M (Virtio D) bool :=
  s ← get;
  if negb (ready s) then mret false
  else
    _ ← setup_request type sector;
    _ ← virtq_kick 0;
    s ← get;
    _ ← wait_idle (horizon (platform s));
    st ← load_int 1 status_byte;
    mret (st =? OK).

Definition capacity : M (Virtio D) Z :=
  s ← get;
  if negb (ready s) then mret 0
  else
    low ← read32 CONFIG_CAPACITY_LOW;
    high ← read32 CONFIG_CAPACITY_HIGH;
    mret (Z.lor (u64 (Z.shiftl high 32)) low).

(** The result and the caller's buffer. *)
Definition read_block (sector : Z) (buf : list Z) : M (Virtio D) (bool * list Z) :=
  ok ← do_request BLK_T_IN sector;
  if negb (ok : bool) then mret (false, buf)
  else l ← load (Z.to_nat SECTOR_SIZE) data_buffer; mret (true, l).

Definition write_block (sector : Z) (buf : list Z) : M (Virtio D) bool :=
  if Z.of_nat (length buf) <? SECTOR_SIZE then stuck
  else
    _ ← store data_buffer (take (Z.to_nat SECTOR_SIZE) buf);
    do_request BLK_T_OUT sector.
End Virtio.
