(* ===== verification/VirtioSpec.v ===== *)
(** * The virtio device and the memory it shares with the driver

    Byte memory with reads and writes of integers; the layout of a ring; and what
    a legacy virtio block device does with a request (virtio 0.9.5, sections 2.4
    and appendix D), as the laws of a class. *)
From stdpp Require Import gmap.
From S2P Require Import Prelude Cpu Pci Virtio.

(** ** Bytes in memory *)
Fixpoint write_ram (pa : Z) (l : list Z) (m : gmap Z Z) : gmap Z Z :=
  match l with
  | [] => m
  | b :: l => write_ram (pa + 1) l (<[pa := b]> m)
  end.
Fixpoint read_ram (n : nat) (pa : Z) (m : gmap Z Z) : option (list Z) :=
  match n with
  | O => Some []
  | S n => b ← m !! pa; l ← read_ram n (pa + 1) m; Some (b :: l)
  end.
Definition read_int (n : nat) (pa : Z) (m : gmap Z Z) : option Z := le_value <$> read_ram n pa m.
Definition write_int (n : nat) (pa v : Z) (m : gmap Z Z) : gmap Z Z := write_ram pa (le_bytes n v) m.

Lemma lookup_write_out pa l m x : x < pa ∨ pa + Z.of_nat (length l) <= x → write_ram pa l m !! x = m !! x.
Proof.
  revert pa m. induction l as [|b l IH]; intros pa m Hx; [done|]. cbn [write_ram length] in *.
  rewrite IH by lia. rewrite lookup_insert_ne by lia. done.
Qed.

Lemma read_write_out n pa pa' l m :
  pa + Z.of_nat n <= pa' ∨ pa' + Z.of_nat (length l) <= pa → read_ram n pa (write_ram pa' l m) = read_ram n pa m.
Proof.
  revert pa. induction n as [|n IH]; intros pa Hd; [done|]. cbn [read_ram]. rewrite lookup_write_out by lia.
  rewrite IH by lia. done.
Qed.

Lemma read_write_same pa l m : read_ram (length l) pa (write_ram pa l m) = Some l.
Proof.
  revert pa m. induction l as [|b l IH]; intros pa m; [done|]. cbn [write_ram length read_ram].
  rewrite lookup_write_out, lookup_insert_eq by lia. cbn. by rewrite IH.
Qed.

Lemma write_present pa l m x : is_Some (m !! x) → is_Some (write_ram pa l m !! x).
Proof.
  revert pa m. induction l as [|b l IH]; intros pa m Hx; [done|]. cbn [write_ram]. apply IH.
  destruct (decide (pa = x)) as [->|]; [by rewrite lookup_insert_eq|by rewrite lookup_insert_ne].
Qed.

(** The memory holds bytes at [pa, pa + n). *)
Definition present (m : gmap Z Z) (pa n : Z) : Prop := ∀ x, pa <= x < pa + n → is_Some (m !! x).

Lemma read_present n pa m : present m pa (Z.of_nat n) → ∃ l, read_ram n pa m = Some l ∧ length l = n.
Proof.
  revert pa. induction n as [|n IH]; intros pa Hp; [by exists []|]. cbn [read_ram].
  destruct (Hp pa ltac:(lia)) as [b ->]. destruct (IH (pa + 1)) as (l & -> & Hl); [intros x Hx; apply Hp; lia|].
  exists (b :: l). cbn. by rewrite Hl.
Qed.

Lemma read_length n pa m l : read_ram n pa m = Some l → length l = n.
Proof.
  revert pa l. induction n as [|n IH]; intros pa l; cbn [read_ram]; [by intros [= <-]|].
  destruct (m !! pa); [|done]. cbn. destruct (read_ram n (pa + 1) m) as [l'|] eqn:E; [|done]. cbn. intros [= <-]. cbn. f_equal. by apply (IH (pa + 1)).
Qed.

Lemma read_same n pa m m' : (∀ x, pa <= x < pa + Z.of_nat n → m' !! x = m !! x) → read_ram n pa m' = read_ram n pa m.
Proof.
  revert pa. induction n as [|n IH]; intros pa Hs; [done|]. cbn [read_ram]. rewrite Hs by lia. rewrite IH; [done|].
  intros x Hx. apply Hs. lia.
Qed.

Lemma read_int_same n pa m m' : (∀ x, pa <= x < pa + Z.of_nat n → m' !! x = m !! x) → read_int n pa m' = read_int n pa m.
Proof. intros Hs. unfold read_int. by rewrite (read_same n pa m m'). Qed.

Lemma read_int_out n k pa pa' v m :
  pa + Z.of_nat n <= pa' ∨ pa' + Z.of_nat k <= pa → read_int n pa (write_int k pa' v m) = read_int n pa m.
Proof. intros Hd. unfold read_int, write_int. rewrite read_write_out; [done|]. by rewrite length_le_bytes. Qed.
Lemma read_int_eq n pa v m : 0 <= v < 256 ^ Z.of_nat n → read_int n pa (write_int n pa v m) = Some v.
Proof.
  intros Hv. unfold read_int, write_int. pose proof (read_write_same pa (le_bytes n v) m) as H.
  rewrite length_le_bytes in H. rewrite H. cbn. by rewrite le_value_le_bytes.
Qed.
Lemma read_zeros pa q n m : q <= pa → pa + 2 <= q + n → read_int 2 pa (write_ram q (replicate (Z.to_nat n) 0) m) = Some 0.
Proof.
  intros Hlo Hhi. assert (∀ x, q <= x < q + n → write_ram q (replicate (Z.to_nat n) 0) m !! x = Some 0) as H.
  { clear pa Hlo Hhi. intros x Hx. assert (0 <= n) as Hn by lia. rewrite <- (Z2Nat.id n) in Hx by done.
    revert q m Hx. induction (Z.to_nat n) as [|k IH]; intros q m Hx; [lia|]. cbn [replicate write_ram].
    destruct (decide (x = q)) as [->|Hne]; [rewrite lookup_write_out by lia; apply lookup_insert_eq|apply IH; lia]. }
  unfold read_int. cbn [read_ram]. rewrite !H by lia. done.
Qed.

(** ** The layout of a ring *)

(** The used ring starts at the first page behind the available ring. *)
Definition used_offset (n : Z) : Z := (18 * n + 4 + 4095) / 4096 * 4096.

Lemma align_to_page x : 0 <= x < 2 ^ 64 - 4096 → align_to x 4096 = (x + 4095) / 4096 * 4096.
Proof.
  intros Hx. unfold align_to. change (u64 (Z.lnot (4096 - 1))) with (u64 (Z.lnot (Z.ones 12))).
  rewrite land_lnot_ones, u64_small by (try apply u64_range; lia). replace (x + 4096 - 1) with (x + 4095) by lia. done.
Qed.

(** The sizes a queue may have here: the powers of two that the check lets pass. *)
Definition queue_fits (n : Z) : Prop :=
  0 < n < 65536 ∧ Z.land n (n - 1) = 0 ∧ vring_size n VIRTIO_PAGE_SIZE <= sizeof_virtqueue_memory.

Lemma queue_fits_cases n : queue_fits n → n ∈ [1; 2; 4; 8; 16; 32; 64; 128; 256].
Proof.
  intros (Hn & Hp & Hs). unfold vring_size, VIRTIO_PAGE_SIZE, sizeof_VRingDescriptor, sizeof_VRingUsedElement, sizeof_virtqueue_memory in Hs.
  rewrite align_to_page in Hs by lia. assert (n < 2048) as Hlt by lia.
  assert (Forall (λ k, Z.land k (k - 1) ≠ 0 ∨ k ∈ [1; 2; 4; 8; 16; 32; 64; 128; 256] ∨ 512 <= k) (seqZ 1 2047)) as Hall.
  { apply (bool_decide_unpack _). vm_compute. done. }
  rewrite Forall_forall in Hall. destruct (Hall n) as [H|[H|H]]; [apply elem_of_seqZ; lia|done|done|]. lia.
Qed.

(** The parts of the ring lie behind each other in the memory of the queue, and the
    word behind the available ring still fits in front of the used ring. *)
Lemma queue_layout n : queue_fits n →
  16 * n + (4 + 2 * n) + 2 <= used_offset n ∧ used_offset n + 4 + 8 * n + 2 <= sizeof_virtqueue_memory ∧ used_offset n `mod` 4096 = 0.
Proof.
  intros Hf%queue_fits_cases. unfold used_offset, sizeof_virtqueue_memory. repeat (apply elem_of_cons in Hf as [->|Hf]; [lia|]).
  by apply elem_of_nil in Hf.
Qed.

(** [vring_init] at the beginning of a page. *)
Lemma vring_init_page n p :
  queue_fits n → 0 <= p → p + sizeof_virtqueue_memory <= 2 ^ 64 → p `mod` 4096 = 0 →
  vring_init n p VIRTIO_PAGE_SIZE = mkVRing n p (p + 16 * n) (p + used_offset n).
Proof.
  intros Hf Hp Hle Ha. pose proof (queue_layout n Hf) as (H1 & H2 & _). destruct Hf as (Hn & _ & _).
  unfold vring_init, VIRTIO_PAGE_SIZE, sizeof_VRingDescriptor, used_offset, sizeof_virtqueue_memory in *.
  rewrite align_to_page by lia. f_equal; lia.
Qed.

(** ** The device *)

(** A request as the device finds it: the ring, how many requests came before, the
    physical addresses of the three buffers, what is asked for. *)
Record Request := mkRequest {
  rq_ring : VRing; rq_index : Z; rq_header : Z; rq_buffer : Z; rq_status : Z; rq_type : Z; rq_sector : Z;
}.

(** Descriptor [i] of the ring in memory. *)
Definition desc_is (m : gmap Z Z) (vr : VRing) (i addr len flags next : Z) : Prop :=
  let d := desc vr + 16 * i in
  read_int 8 d m = Some addr ∧ read_int 4 (d + 8) m = Some len ∧ read_int 2 (d + 12) m = Some flags ∧ read_int 2 (d + 14) m = Some next.

Definition disjoint_areas (x n y k : Z) : Prop := x + n <= y ∨ y + k <= x.

(** The driver has put the request into the memory [m] as the specification wants
    it: a chain of header, data and status, and its head in the available ring. *)
Record posted (m : gmap Z Z) (rq : Request) : Prop := {
  ps_idx : read_int 2 (avail_idx (rq_ring rq)) m = Some (u16 (rq_index rq + 1));
  ps_used : read_int 2 (used_idx (rq_ring rq)) m = Some (rq_index rq);
  ps_chain : ∃ i0 i1 i2 f2, 0 <= i0 < num (rq_ring rq) ∧ 0 <= i1 < num (rq_ring rq) ∧ 0 <= i2 < num (rq_ring rq) ∧
    read_int 2 (avail_ring (rq_ring rq) (rq_index rq `mod` num (rq_ring rq))) m = Some i0 ∧
    desc_is m (rq_ring rq) i0 (rq_header rq) 16 DESC_F_NEXT i1 ∧
    desc_is m (rq_ring rq) i1 (rq_buffer rq) 512 (if rq_type rq =? BLK_T_IN then 3 else 1) i2 ∧
    desc_is m (rq_ring rq) i2 (rq_status rq) 1 DESC_F_WRITE f2;
  ps_type : read_int 4 (rq_header rq) m = Some (rq_type rq) ∧ (rq_type rq = BLK_T_IN ∨ rq_type rq = BLK_T_OUT);
  ps_sector : read_int 8 (rq_header rq + 8) m = Some (rq_sector rq);
  ps_apart : disjoint_areas (used (rq_ring rq)) (6 + 8 * num (rq_ring rq)) (rq_buffer rq) 512 ∧
    disjoint_areas (used (rq_ring rq)) (6 + 8 * num (rq_ring rq)) (rq_status rq) 1 ∧ disjoint_areas (rq_buffer rq) 512 (rq_status rq) 1;
  ps_bytes l : rq_type rq = BLK_T_OUT → read_ram 512 (rq_buffer rq) m = Some l → bytes l;
  ps_present : present m (rq_buffer rq) 512 ∧ present m (rq_status rq) 1 ∧ present m (used (rq_ring rq)) (6 + 8 * num (rq_ring rq));
}.

(** What the device may write for a request. *)
Definition device_writes (rq : Request) (x : Z) : Prop :=
  used (rq_ring rq) <= x < used (rq_ring rq) + 6 + 8 * num (rq_ring rq) ∨
  rq_type rq = BLK_T_IN ∧ rq_buffer rq <= x < rq_buffer rq + 512 ∨ x = rq_status rq.

(** The laws of ports and memory. *)
Class PlatformLaws (D : Type) `{Platform D} := {
  ram_set m d : ram (set_ram m d) = m;
  set_set m m' d : set_ram m (set_ram m' d) = set_ram m d;
  set_ram_id d : set_ram (ram d) d = d;
}.

(** The laws of the device: [live d base ring c] is the device at the ports from
    [base] on, set up with a ring, idle after [c] requests (modulo 2^16); [busy k rq
    d0 d] that it works on a request since [d0], for [k] more pauses; [sectors] is
    what is on the disk. Requests for the [good_sectors] do not fail; there may be none. *)
Class BlockDeviceLaws (D : Type) `{Platform D} := {
  live : D → Z → VRing → Z → Prop;
  busy : nat → Z → Request → D → D → Prop;
  sectors : D → Z → list Z;
  good_sectors : Z;
  sectors_ok d n : length (sectors d n) = 512%nat ∧ bytes (sectors d n);
  live_ram m d base vr c : live d base vr c → live (set_ram m d) base vr c;
  sectors_ram m d : sectors (set_ram m d) = sectors d;
  notify_spec d base rq : live d base (rq_ring rq) (rq_index rq) → posted (ram d) rq →
    wp (out16b (u16 (base + QUEUE_NOTIFY)) 0) d (λ _ d', ram d' = ram d ∧ ∃ k, (k < horizon d')%nat ∧ busy k base rq d d');
  pause_spec k base rq d0 d : busy k base rq d0 d → wp pause d (λ _ d',
    match k with
    | S k => busy k base rq d0 d' ∧ read_int 2 (used_idx (rq_ring rq)) (ram d') = Some (rq_index rq)
    | O => live d' base (rq_ring rq) (u16 (rq_index rq + 1)) ∧
        read_int 2 (used_idx (rq_ring rq)) (ram d') = Some (u16 (rq_index rq + 1)) ∧
        (∀ x, ¬ device_writes rq x → ram d' !! x = ram d0 !! x) ∧ (∀ x, is_Some (ram d0 !! x) → is_Some (ram d' !! x)) ∧
        ∃ st, read_int 1 (rq_status rq) (ram d') = Some st ∧ (0 <= rq_sector rq < good_sectors → st = OK) ∧
          if rq_type rq =? BLK_T_IN
          then sectors d' = sectors d0 ∧ (st = OK → read_ram 512 (rq_buffer rq) (ram d') = Some (sectors d0 (rq_sector rq)))
          else (∀ n, n ≠ rq_sector rq → sectors d' n = sectors d0 n) ∧
            (st = OK → read_ram 512 (rq_buffer rq) (ram d0) = Some (sectors d' (rq_sector rq)))
    end);
}.
