(* ===== verification/VirtioOps.v ===== *)
(** * What a request of the driver does

    The memory after the driver has put a request into the ring, the wait for the
    device, and the result, from the state [driver_ok] back to it. *)
From stdpp Require Import gmap.
From S2P Require Import Prelude Cpu Pci Virtio VirtioSpec.

Section ops.
Context {D : Type} `{HP : Platform D} `{HS : Statics} `{HL : !PlatformLaws D} `{HB : !BlockDeviceLaws D}.
Implicit Types (s : Virtio D) (m : gmap Z Z).

(** ** Access through the page tables *)

(** [n] bytes from the virtual address [va] on lie at [pa] in physical memory. *)
Definition linear (va n pa : Z) : Prop := ∀ i, 0 <= i < n → mmu (va + i) = Some (pa + i).

Lemma linear_sub va n pa off k : linear va n pa → 0 <= off → off + k <= n → linear (va + off) k (pa + off).
Proof. intros H Ho Hk i Hi. rewrite <- !Z.add_assoc. apply H. lia. Qed.

(** State [s] with other contents of the memory. *)
Definition with_ram m s : Virtio D := set_platform (set_ram m (platform s)) s.

Lemma with_ram_twice m m' s : with_ram m (with_ram m' s) = with_ram m s.
Proof. unfold with_ram, set_platform. cbn. by rewrite set_set. Qed.
Lemma with_ram_id s : with_ram (ram (platform s)) s = s.
Proof. unfold with_ram, set_platform. rewrite set_ram_id. by destruct s. Qed.

Lemma wp_hw {A} (h : M D A) s (Q : A → Virtio D → Prop) :
  wp h (platform s) (λ a d, Q a (set_platform d s)) → wp (hw h) s Q.
Proof. intros H. by apply wp_zoom. Qed.

Lemma wp_store_ram va l pa m s (Q : () → Virtio D → Prop) :
  linear va (Z.of_nat (length l)) pa → Q () (with_ram (write_ram pa l m) s) → wp (store va l) (with_ram m s) Q.
Proof.
  revert va pa m. induction l as [|b l IH]; intros va pa m Hl HQ; cbn [store]; [by wp_step|].
  do 2 wp_step. cbn [length] in Hl. pose proof (Hl 0 ltac:(lia)) as H0. rewrite !Z.add_0_r in H0.
  wp_step. wp_step. wp_step. apply wp_hw. wp_step. cbn [platform with_ram set_platform]. rewrite ram_set, set_set.
  change (set_platform _ (with_ram m s)) with (with_ram (<[pa:=b]> m) s). apply (IH _ (pa + 1)); [|done].
  intros i Hi. replace (va + 1 + i) with (va + (i + 1)) by lia. rewrite Hl by lia. f_equal. lia.
Qed.

Lemma wp_store_int n va v pa m s (Q : () → Virtio D → Prop) :
  linear va (Z.of_nat n) pa → Q () (with_ram (write_int n pa v m) s) → wp (store_int n va v) (with_ram m s) Q.
Proof. intros Hl HQ. apply (wp_store_ram _ _ pa); [by rewrite length_le_bytes|done]. Qed.

Lemma wp_load_ram n va pa l s (Q : list Z → Virtio D → Prop) :
  linear va (Z.of_nat n) pa → read_ram n pa (ram (platform s)) = Some l → Q l s → wp (load n va) s Q.
Proof.
  revert va pa l Q. induction n as [|n IH]; intros va pa l Q Hl Hr HQ; cbn [load read_ram] in *; [injection Hr as <-; by wp_step|].
  destruct (ram (platform s) !! pa) as [b|] eqn:Hb; [|done]. cbn in Hr.
  destruct (read_ram n (pa + 1) (ram (platform s))) as [l'|] eqn:Hl'; [|done]. injection Hr as <-.
  do 2 wp_step. pose proof (Hl 0 ltac:(lia)) as H0. rewrite !Z.add_0_r in H0. wp_step. wp_step. wp_step. wp_step. wp_step.
  eapply IH; [|exact Hl'|by wp_step].
  intros i Hi. replace (va + 1 + i) with (va + (i + 1)) by lia. rewrite Hl by lia. f_equal. lia.
Qed.

Lemma wp_load_int n va pa v s (Q : Z → Virtio D → Prop) :
  linear va (Z.of_nat n) pa → read_int n pa (ram (platform s)) = Some v → Q v s → wp (load_int n va) s Q.
Proof.
  unfold read_int. intros Hl Hr HQ. destruct (read_ram n pa _) as [l|] eqn:E; [|done]. injection Hr as <-.
  unfold load_int. wp_step. eapply wp_load_ram; [exact Hl|exact E|]. by wp_step.
Qed.

(** ** The state between two requests *)

(** The physical addresses of the areas shared with the device. *)
Record Areas := mkAreas { ar_queue : Z; ar_header : Z; ar_buffer : Z; ar_status : Z }.
Record areas_ok (a : Areas) : Prop := {
  aa_queue : linear virtqueue_memory sizeof_virtqueue_memory (ar_queue a);
  aa_header : linear request_header 16 (ar_header a);
  aa_buffer : linear data_buffer 512 (ar_buffer a);
  aa_status : linear status_byte 1 (ar_status a);
  aa_page : virtqueue_memory `mod` 4096 = 0 ∧ ar_queue a `mod` 4096 = 0;
  aa_range : 0 <= virtqueue_memory ∧ virtqueue_memory + sizeof_virtqueue_memory <= 2 ^ 64 ∧
    0 <= ar_queue a ∧ ar_queue a + sizeof_virtqueue_memory <= 2 ^ 64 ∧ 0 <= ar_header a < 2 ^ 64 ∧ 0 <= ar_buffer a < 2 ^ 64 ∧ 0 <= ar_status a < 2 ^ 64;
  aa_disjoint : disjoint_areas (ar_queue a) sizeof_virtqueue_memory (ar_header a) 16 ∧
    disjoint_areas (ar_queue a) sizeof_virtqueue_memory (ar_buffer a) 512 ∧ disjoint_areas (ar_queue a) sizeof_virtqueue_memory (ar_status a) 1 ∧
    disjoint_areas (ar_header a) 16 (ar_buffer a) 512 ∧ disjoint_areas (ar_header a) 16 (ar_status a) 1 ∧ disjoint_areas (ar_buffer a) 512 (ar_status a) 1;
}.
Definition areas_present (a : Areas) m : Prop :=
  present m (ar_queue a) sizeof_virtqueue_memory ∧ present m (ar_header a) 16 ∧ present m (ar_buffer a) 512 ∧ present m (ar_status a) 1.

(** The ring as the device sees it, and as the driver sees it. *)
Definition device_ring (a : Areas) n : VRing := mkVRing n (ar_queue a) (ar_queue a + 16 * n) (ar_queue a + used_offset n).
Definition driver_ring n : VRing := mkVRing n virtqueue_memory (virtqueue_memory + 16 * n) (virtqueue_memory + used_offset n).

Record driver_ok s (a : Areas) (n c : Z) : Prop := {
  dk_ready : ready s = true;
  dk_areas : areas_ok a;
  dk_fits : queue_fits n ∧ 3 <= n;
  dk_phys : request_header_phys s = Some (ar_header a) ∧ data_buffer_phys s = Some (ar_buffer a) ∧ status_byte_phys s = Some (ar_status a);
  dk_queue : queue s = driver_ring n;
  dk_last : last_used_index s = c ∧ 0 <= c < 65536;
  dk_live : live (platform s) (io_base s) (device_ring a n) c;
  dk_avail : read_int 2 (avail_idx (device_ring a n)) (ram (platform s)) = Some c;
  dk_used : read_int 2 (used_idx (device_ring a n)) (ram (platform s)) = Some c;
  dk_present : areas_present a (ram (platform s));
}.

(** ** The memory of a request *)
Definition desc_ram (q i addr len flags next : Z) m : gmap Z Z :=
  write_int 2 (q + 16 * i + 14) next (write_int 2 (q + 16 * i + 12) flags (write_int 4 (q + 16 * i + 8) len (write_int 8 (q + 16 * i) addr m))).
Definition header_ram (a : Areas) (type sector : Z) m : gmap Z Z :=
  write_int 1 (ar_status a) PENDING (write_int 8 (ar_header a + 8) sector (write_int 4 (ar_header a + 4) 0 (write_int 4 (ar_header a) type m))).
Definition request_ram (a : Areas) (type sector : Z) m : gmap Z Z :=
  desc_ram (ar_queue a) 2 (ar_status a) 1 DESC_F_WRITE 0
    (desc_ram (ar_queue a) 1 (ar_buffer a) 512 (if type =? BLK_T_IN then 3 else 1) 2
      (desc_ram (ar_queue a) 0 (ar_header a) 16 DESC_F_NEXT 1 (header_ram a type sector m))).
Definition kicked_ram (a : Areas) (n c : Z) m : gmap Z Z :=
  write_int 2 (avail_idx (device_ring a n)) (u16 (c + 1)) (write_int 2 (avail_ring (device_ring a n) (c `mod` n)) 0 m).

Definition request (a : Areas) (n c type sector : Z) : Request :=
  mkRequest (device_ring a n) c (ar_header a) (ar_buffer a) (ar_status a) type sector.

Lemma wp_store_desc i addr len flags next pq m s (Q : () → Virtio D → Prop) :
  0 <= i → linear (desc (queue s) + 16 * i) 16 (pq + 16 * i) →
  Q () (with_ram (desc_ram pq i addr len flags next m) s) → wp (store_desc i addr len flags next) (with_ram m s) Q.
Proof.
  intros Hi Hl HQ. unfold store_desc. do 2 wp_step. change (queue (with_ram m s)) with (queue s). unfold sizeof_VRingDescriptor.
  set (d := desc (queue s) + 16 * i) in *. set (p := pq + 16 * i) in *.
  wp_step. apply (wp_store_int _ _ _ p); [intros j Hj; apply Hl; lia|].
  wp_step. apply (wp_store_int _ _ _ (p + 8)); [apply (linear_sub _ 16); [done|lia|lia]|].
  wp_step. apply (wp_store_int _ _ _ (p + 12)); [apply (linear_sub _ 16); [done|lia|lia]|].
  apply (wp_store_int _ _ _ (p + 14)); [apply (linear_sub _ 16); [done|lia|lia]|exact HQ].
Qed.

Lemma wp_setup_request s a n c type sector (Q : () → Virtio D → Prop) :
  driver_ok s a n c → type = BLK_T_IN ∨ type = BLK_T_OUT →
  Q () (with_ram (request_ram a type sector (ram (platform s))) s) → wp (setup_request type sector) s Q.
Proof.
  intros [_ Ha [Hf H3] (Hph & Hpb & Hps) Hq _ _ _ _ _] Ht HQ. rewrite <- (with_ram_id s). unfold setup_request.
  destruct Ha as [Hlq Hlh _ Hls _ _ _]. pose proof (queue_layout n Hf) as Hlay.
  assert (∀ i, 0 <= i < 3 → linear (desc (queue s) + 16 * i) 16 (ar_queue a + 16 * i)) as Hd.
  { intros i Hi. rewrite Hq. cbn. apply (linear_sub _ sizeof_virtqueue_memory); [done|lia|unfold sizeof_virtqueue_memory in *; lia]. }
  wp_step. apply (wp_store_int _ _ _ (ar_header a)); [intros i Hi; apply Hlh; lia|].
  wp_step. apply (wp_store_int _ _ _ (ar_header a + 4)); [apply (linear_sub _ 16); [done|lia|lia]|].
  wp_step. apply (wp_store_int _ _ _ (ar_header a + 8)); [apply (linear_sub _ 16); [done|lia|lia]|].
  wp_step. apply (wp_store_int _ _ _ (ar_status a)); [intros i Hi; apply Hls; lia|].
  do 2 wp_step. change (request_header_phys (with_ram _ s)) with (request_header_phys s). wp_step. wp_step. wp_step.
  apply (wp_store_desc _ _ _ _ _ (ar_queue a)); [lia|apply Hd; lia|].
  change (data_buffer_phys (with_ram _ s)) with (data_buffer_phys s). wp_step. wp_step. wp_step.
  apply (wp_store_desc _ _ _ _ _ (ar_queue a)); [lia|apply Hd; lia|].
  change (status_byte_phys (with_ram _ s)) with (status_byte_phys s). wp_step. wp_step.
  apply (wp_store_desc _ _ _ _ _ (ar_queue a)); [lia|apply Hd; lia|].
  destruct Ht as [-> | ->]; exact HQ.
Qed.

(** Reads of a memory with writes elsewhere, by the order of the addresses. *)
Ltac ram_read := repeat first [rewrite read_int_eq by lia | rewrite read_int_out by lia].

(** What the writes of a request leave alone: everything outside of the first three
    descriptors, the available ring, the header and the status byte. *)
Lemma kicked_out a n c type sector m k pa :
  areas_ok a → queue_fits n → 3 <= n → 0 <= c →
  disjoint_areas (ar_header a) 16 pa (Z.of_nat k) → disjoint_areas (ar_status a) 1 pa (Z.of_nat k) →
  disjoint_areas (ar_queue a) (16 * n + (4 + 2 * n)) pa (Z.of_nat k) →
  read_ram k pa (kicked_ram a n c (request_ram a type sector m)) = read_ram k pa m.
Proof.
  intros Ha Hf H3 Hc H1 H2 Hq. assert (0 <= c `mod` n < n) as Hj by (apply Z.mod_pos_bound; lia).
  unfold kicked_ram, avail_idx, avail_ring, device_ring. cbn [avail]. remember (c `mod` n) as j eqn:Ej. clear Ej.
  unfold request_ram, desc_ram, header_ram, write_int, disjoint_areas in *.
  rewrite !read_write_out by (rewrite length_le_bytes; lia). done.
Qed.

(** A buffer to be written holds bytes. *)
Definition buffer_bytes a type m : Prop := ∀ l, type = BLK_T_OUT → read_ram 512 (ar_buffer a) m = Some l → bytes l.

Lemma posted_request a n c type sector m :
  buffer_bytes a type m → areas_ok a → queue_fits n → 3 <= n → 0 <= c < 65536 → 0 <= sector < 2 ^ 64 → type = BLK_T_IN ∨ type = BLK_T_OUT →
  read_int 2 (used_idx (device_ring a n)) m = Some c → areas_present a m →
  posted (kicked_ram a n c (request_ram a type sector m)) (request a n c type sector).
Proof.
  intros Hby Ha Hf H3 Hc Hsec Ht Hu Hpr. pose proof (kicked_out a n c type sector m 512 (ar_buffer a) Ha Hf H3 ltac:(lia)) as Hout.
  pose proof (queue_layout n Hf) as (L1 & L2 & _).
  destruct Ha as [_ _ _ _ _ (_ & _ & Rq1 & Rq2 & Rh & Rb & Rs) (Dqh & Dqb & Dqs & Dhb & Dhs & Dbs)].
  assert (0 <= c `mod` n < n) as Hj by (apply Z.mod_pos_bound; lia).
  assert (u16 (c + 1) `mod` 65536 = u16 (c + 1)) as Hu16 by (unfold u16; by rewrite Z.mod_mod).
  pose proof (u16_range (c + 1)) as Hur.
  unfold disjoint_areas, sizeof_virtqueue_memory in *.
  assert (256 ^ Z.of_nat 1 = 256 ∧ 256 ^ Z.of_nat 2 = 65536 ∧ 256 ^ Z.of_nat 4 = 4294967296 ∧ 256 ^ Z.of_nat 8 = 2 ^ 64) as (P1 & P2 & P4 & P8) by done.
  split; cbn [request rq_ring rq_index rq_header rq_buffer rq_status rq_type rq_sector].
  all: unfold kicked_ram, request_ram, desc_ram, header_ram, avail_idx, avail_ring, used_idx, device_ring in *; cbn [num desc avail used] in *.
  all: remember (c `mod` n) as j eqn:Ej; remember (u16 (c + 1)) as c' eqn:Ec'; clear Ej Ec' Hu16.
  - ram_read. done.
  - ram_read. done.
  - exists 0, 1, 2, 0. split; [lia|]. split; [lia|]. split; [lia|]. split; [by ram_read|].
    unfold desc_is; cbn [desc]. split; [|split]; (split; [|split; [|split]]).
    all: destruct Ht as [-> | ->]; cbn [Z.eqb BLK_T_IN BLK_T_OUT Pos.eqb]; unfold DESC_F_NEXT, DESC_F_WRITE; by ram_read.
  - split; [|done]. destruct Ht as [-> | ->]; unfold BLK_T_IN, BLK_T_OUT in *; by ram_read.
  - by ram_read.
  - unfold disjoint_areas. cbn [used num]. clear Hu Hpr Hout Hby. lia.
  - intros l Hty Hl. apply Hby; [done|]. rewrite <- Hl. symmetry. apply Hout; lia.
  - destruct Hpr as (Hpq & Hph & Hpb & Hps). unfold write_int.
    split; [|split]; intros x Hx; repeat apply write_present; [apply Hpb|apply Hps|apply Hpq]; unfold sizeof_virtqueue_memory; lia.
Qed.

(** ** Notifying the device and waiting for it *)
Lemma ring_linear a n off k : areas_ok a → queue_fits n → 0 <= off → off + k <= sizeof_virtqueue_memory →
  linear (virtqueue_memory + off) k (ar_queue a + off).
Proof. intros Ha _ Ho Hk. by apply (linear_sub _ sizeof_virtqueue_memory); [apply Ha|..]. Qed.

Lemma avail_idx_kept a n type sector m :
  areas_ok a → queue_fits n → 3 <= n →
  read_int 2 (avail_idx (device_ring a n)) (request_ram a type sector m) = read_int 2 (avail_idx (device_ring a n)) m.
Proof.
  intros Ha Hf H3. pose proof (queue_layout n Hf) as (L1 & L2 & _). destruct (aa_disjoint a Ha) as (Dqh & _ & Dqs & _).
  unfold read_int. f_equal. unfold request_ram, desc_ram, header_ram, write_int, avail_idx, device_ring, disjoint_areas, sizeof_virtqueue_memory in *.
  cbn [avail]. rewrite !read_write_out by (rewrite length_le_bytes; lia). done.
Qed.

Lemma wp_virtq_kick s a n c type sector (Q : () → Virtio D → Prop) :
  driver_ok s a n c → buffer_bytes a type (ram (platform s)) → type = BLK_T_IN ∨ type = BLK_T_OUT → 0 <= sector < 2 ^ 64 →
  let m := kicked_ram a n c (request_ram a type sector (ram (platform s))) in
  (∀ d k, ram d = m → (k < horizon d)%nat → busy k (io_base s) (request a n c type sector) (set_ram m (platform s)) d →
    Q () (set_last (u16 (c + 1)) (set_platform d s))) →
  wp (virtq_kick 0) (with_ram (request_ram a type sector (ram (platform s))) s) Q.
Proof.
  intros Hok Hby Ht Hsec m HQ. destruct Hok as [_ Ha [Hf H3] _ Hq [Hl Hc] Hlive Hav Hus Hpr].
  pose proof (queue_layout n Hf) as (L1 & L2 & _). destruct Hf as (Hn & Hn'). pose proof (conj Hn Hn' : queue_fits n) as Hf.
  assert (0 <= c `mod` n < n) as Hj by (apply Z.mod_pos_bound; lia).
  unfold virtq_kick. do 2 wp_step. change (queue (with_ram _ s)) with (queue s). rewrite Hq. wp_step.
  unfold avail_idx at 1, driver_ring at 1. cbn [avail]. rewrite <- Z.add_assoc.
  eapply (wp_load_int _ _ _ c); [apply (ring_linear a n _ 2); [done|done|lia|lia]| |].
  { cbn [platform with_ram set_platform]. rewrite ram_set. rewrite <- Hav, <- (avail_idx_kept a n type sector) by done.
    unfold avail_idx, device_ring. cbn [avail]. f_equal. lia. }
  cbn [num driver_ring]. replace (n =? 0) with false by lia. wp_step.
  unfold avail_ring, driver_ring. cbn [avail]. replace (virtqueue_memory + 16 * n + 4 + 2 * (c `mod` n)) with (virtqueue_memory + (16 * n + 4 + 2 * (c `mod` n))) by lia.
  apply (wp_store_int _ _ _ (ar_queue a + (16 * n + 4 + 2 * (c `mod` n)))); [apply (ring_linear a n _ 2); [done|done|lia|lia]|].
  wp_step. unfold avail_idx. cbn [avail]. rewrite <- Z.add_assoc.
  apply (wp_store_int _ _ _ (ar_queue a + (16 * n + 2))); [apply (ring_linear a n _ 2); [done|done|lia|lia]|].
  assert (write_int 2 (ar_queue a + (16 * n + 2)) (u16 (c + 1)) (write_int 2 (ar_queue a + (16 * n + 4 + 2 * (c `mod` n))) 0
    (request_ram a type sector (ram (platform s)))) = m) as ->.
  { unfold m, kicked_ram, avail_idx, avail_ring, device_ring. cbn [avail]. f_equal; [lia|]. f_equal. lia. }
  wp_step. unfold write16, port. wp_step. do 2 wp_step. wp_step.
  apply wp_hw. cbn [io_base with_ram set_platform platform].
  eapply wp_mono; [apply (notify_spec _ _ (request a n c type sector)); cbn [rq_ring rq_index request]|].
  - by apply live_ram.
  - rewrite ram_set. by apply posted_request.
  - intros [] d (Hr & k & Hk & Hb). rewrite ram_set in Hr. wp_step.
    change (Q () (set_last (u16 (last_used_index s + 1)) (set_platform d s))). rewrite Hl. by apply (HQ d k).
Qed.

(** What the device leaves behind when it has served the request. *)
Record served (rq : Request) base (d0 d : D) (st : Z) : Prop := {
  sv_live : live d base (rq_ring rq) (u16 (rq_index rq + 1));
  sv_used : read_int 2 (used_idx (rq_ring rq)) (ram d) = Some (u16 (rq_index rq + 1));
  sv_frame x : ¬ device_writes rq x → ram d !! x = ram d0 !! x;
  sv_present x : is_Some (ram d0 !! x) → is_Some (ram d !! x);
  sv_status : read_int 1 (rq_status rq) (ram d) = Some st;
  sv_good : 0 <= rq_sector rq < good_sectors → st = OK;
  sv_effect : if rq_type rq =? BLK_T_IN
    then sectors d = sectors d0 ∧ (st = OK → read_ram 512 (rq_buffer rq) (ram d) = Some (sectors d0 (rq_sector rq)))
    else (∀ n, n ≠ rq_sector rq → sectors d n = sectors d0 n) ∧
      (st = OK → read_ram 512 (rq_buffer rq) (ram d0) = Some (sectors d (rq_sector rq)));
}.

Lemma wp_wait_idle fuel k rq base d0 d s (Q : () → Virtio D → Prop) :
  busy k base rq d0 d → (k < fuel)%nat → 0 <= rq_index rq < 65536 → last_used_index s = u16 (rq_index rq + 1) →
  linear (used_idx (queue s)) 2 (used_idx (rq_ring rq)) →
  (∀ d' st, served rq base d0 d' st → Q () (set_platform d' s)) → wp (wait_idle fuel) (set_platform d s) Q.
Proof.
  revert k d. induction fuel as [|fuel IH]; intros k d Hb Hk Hi Hlast Hlin HQ; [lia|]. cbn [wait_idle].
  wp_step. unfold virtq_is_busy. wp_step. apply wp_hw. cbn [platform set_platform].
  eapply wp_mono; [by apply (pause_spec k base rq d0)|]. intros [] d'. change (set_platform d' (set_platform d s)) with (set_platform d' s).
  pose proof (u16_range (rq_index rq + 1)) as Hu. destruct k as [|k].
  - intros (H1 & H2 & H3 & H4 & st & H5 & H6 & H7). do 2 wp_step. wp_step. eapply wp_load_int; [exact Hlin|exact H2|]. wp_step.
    change (last_used_index (set_platform d' s)) with (last_used_index s). rewrite Hlast, Z.eqb_refl. cbn [negb]. wp_step.
    by apply (HQ d' st).
  - intros (H1 & H2). do 2 wp_step. wp_step. eapply wp_load_int; [exact Hlin|exact H2|]. wp_step.
    change (last_used_index (set_platform d' s)) with (last_used_index s). rewrite Hlast.
    replace (rq_index rq =? u16 (rq_index rq + 1)) with false by (unfold u16; lia). cbn [negb]. apply (IH k); [done|lia|done..].
Qed.

(** ** Requests *)

(** The state after a request. *)
Definition next_request s c (d : D) : Virtio D := set_last (u16 (c + 1)) (set_platform d s).
Definition request_memory a n c type sector s : gmap Z Z := kicked_ram a n c (request_ram a type sector (ram (platform s))).

Lemma device_spares_driver a n c type sector x :
  areas_ok a → queue_fits n → device_writes (request a n c type sector) x →
  ar_queue a + used_offset n <= x < ar_queue a + sizeof_virtqueue_memory ∨ ar_buffer a <= x < ar_buffer a + 512 ∨ x = ar_status a.
Proof.
  intros Ha Hf. pose proof (queue_layout n Hf) as (L1 & L2 & _). unfold device_writes. cbn. intros [H|[[_ H]|H]]; [left; lia|by right; left|by right; right].
Qed.

Lemma served_ok s a n c type sector d st :
  driver_ok s a n c → served (request a n c type sector) (io_base s) (set_ram (request_memory a n c type sector s) (platform s)) d st →
  driver_ok (next_request s c d) a n (u16 (c + 1)).
Proof.
  intros [Hr Ha [Hf H3] Hph Hq [Hl Hc] Hlive Hav Hus Hpr] [S1 S2 S3 S4 _ _ _].
  pose proof (queue_layout n Hf) as (L1 & L2 & _). destruct (aa_disjoint a Ha) as (Dqh & Dqb & Dqs & _).
  pose proof (u16_range (c + 1)) as Hur. rewrite ram_set in S3, S4.
  assert (∀ x, is_Some (ram (platform s) !! x) → is_Some (ram d !! x)) as Hpres.
  { intros x Hx. apply S4. unfold request_memory, kicked_ram, request_ram, desc_ram, header_ram, write_int. by repeat apply write_present. }
  split; cbn [ready next_request set_last set_platform io_base request_header_phys data_buffer_phys status_byte_phys queue last_used_index platform]; try done.
  - rewrite (read_int_same _ _ (request_memory a n c type sector s)).
    + unfold request_memory, kicked_ram. rewrite read_int_eq; [done|]. change (256 ^ Z.of_nat 2) with 65536. lia.
    + intros x Hx. apply S3. intros Hw%device_spares_driver; [|done..].
      unfold avail_idx, device_ring, disjoint_areas, sizeof_virtqueue_memory in *. cbn [avail] in Hx. lia.
  - destruct Hpr as (P1 & P2 & P3 & P4). split; [|split; [|split]]; intros x Hx; apply Hpres; auto.
Qed.

Lemma wp_do_request s a n c type sector (Q : bool → Virtio D → Prop) :
  driver_ok s a n c → buffer_bytes a type (ram (platform s)) → type = BLK_T_IN ∨ type = BLK_T_OUT → 0 <= sector < 2 ^ 64 →
  (∀ d st, served (request a n c type sector) (io_base s) (set_ram (request_memory a n c type sector s) (platform s)) d st →
    driver_ok (next_request s c d) a n (u16 (c + 1)) → Q (st =? OK) (next_request s c d)) →
  wp (do_request type sector) s Q.
Proof.
  intros Hok Hby Ht Hsec HQ. unfold do_request. do 2 wp_step. rewrite (dk_ready _ _ _ _ Hok). cbn [negb].
  wp_step. apply (wp_setup_request s a n c); [done|done|]. wp_step. apply (wp_virtq_kick s a n c type sector); [done..|]. cbn zeta.
  intros d k Hr Hk Hb. do 2 wp_step. wp_step. cbn [platform set_last set_platform].
  change (set_last (u16 (c + 1)) (set_platform d s)) with (set_platform d (set_last (u16 (c + 1)) s)).
  pose proof Hok as [_ Ha [Hf H3] _ Hq [_ Hc] _ _ _ _]. pose proof (queue_layout n Hf) as (L1 & L2 & _).
  eapply (wp_wait_idle _ k); [exact Hb|exact Hk|exact Hc|done| |].
  { cbn [queue set_last set_platform]. rewrite Hq.
    change (linear (virtqueue_memory + used_offset n + 2) 2 (ar_queue a + used_offset n + 2)).
    rewrite <- !Z.add_assoc. apply (ring_linear a n _ 2); [done|done|lia|lia]. }
  intros d' st Hs. pose proof (served_ok s a n c type sector d' st Hok Hs) as Hok'.
  wp_step. eapply (wp_load_int _ _ (ar_status a) st); [apply Ha|exact (sv_status _ _ _ _ _ Hs)|]. wp_step. by apply HQ.
Qed.

(** [with_ram] on the data buffer alone. *)
Lemma buffer_ok s a n c l : driver_ok s a n c → length l = 512%nat →
  driver_ok (with_ram (write_ram (ar_buffer a) l (ram (platform s))) s) a n c.
Proof.
  intros [Hr Ha [Hf H3] Hph Hq Hl Hlive Hav Hus Hpr] Hlen. pose proof (queue_layout n Hf) as (L1 & L2 & _).
  destruct (aa_disjoint a Ha) as (_ & Dqb & _). unfold disjoint_areas, sizeof_virtqueue_memory in *.
  split; cbn [ready with_ram set_platform io_base request_header_phys data_buffer_phys status_byte_phys queue last_used_index platform];
    rewrite ?ram_set; try done.
  - by apply live_ram.
  - unfold read_int in *. rewrite read_write_out; [done|]. unfold avail_idx, device_ring. cbn [avail]. lia.
  - unfold read_int in *. rewrite read_write_out; [done|]. unfold used_idx, device_ring. cbn [used]. lia.
  - destruct Hpr as (P1 & P2 & P3 & P4). split; [|split; [|split]]; intros x Hx; apply write_present; auto.
Qed.

Lemma wp_virtio_read s a n c sector buf (Q : bool * list Z → Virtio D → Prop) :
  driver_ok s a n c → 0 <= sector < 2 ^ 64 →
  (∀ ok d, sectors d = sectors (platform s) → (0 <= sector < good_sectors → ok = true) → driver_ok (next_request s c d) a n (u16 (c + 1)) →
    Q (ok, if (ok : bool) then sectors (platform s) sector else buf) (next_request s c d)) → wp (read_block sector buf) s Q.
Proof.
  intros Hok Hsec HQ. unfold read_block. wp_step. eapply (wp_do_request s a n c); [done|by intros ? ?|by left|done|].
  intros d st [_ _ _ _ _ Hg He] Hok'. cbn [rq_type rq_sector request] in He, Hg. change (BLK_T_IN =? BLK_T_IN) with true in He. destruct He as [Hsame Hread].
  rewrite sectors_ram in Hsame, Hread. destruct (st =? OK) eqn:Est; cbn [negb].
  - wp_step. eapply wp_load_ram; [apply Hok|apply Hread; unfold OK in *; lia|]. wp_step. exact (HQ true d Hsame (λ _, eq_refl) Hok').
  - wp_step. apply (HQ false d Hsame); [|exact Hok']. intros ->%Hg. done.
Qed.

Lemma wp_virtio_write s a n c sector buf (Q : bool → Virtio D → Prop) :
  driver_ok s a n c → 0 <= sector < 2 ^ 64 → length buf = 512%nat ∧ bytes buf →
  (∀ ok d, (∀ k, k ≠ sector → sectors d k = sectors (platform s) k) → (ok = true → sectors d sector = buf) →
    (0 <= sector < good_sectors → ok = true) → driver_ok (next_request s c d) a n (u16 (c + 1)) → Q ok (next_request s c d)) → wp (write_block sector buf) s Q.
Proof.
  intros Hok Hsec [Hlen Hbuf] HQ. unfold write_block. rewrite Hlen. change (Z.of_nat 512 <? SECTOR_SIZE) with false.
  change (Z.to_nat SECTOR_SIZE) with 512%nat. rewrite take_ge by lia. wp_step. rewrite <- (with_ram_id s).
  apply (wp_store_ram _ _ (ar_buffer a)); [rewrite Hlen; apply Hok|]. set (s1 := with_ram _ s).
  pose proof (buffer_ok s a n c buf Hok Hlen) as Hok1. fold s1 in Hok1.
  eapply (wp_do_request s1 a n c); [done| |by right|done|].
  { intros l _. cbn [platform s1 with_ram set_platform]. rewrite ram_set, <- Hlen, read_write_same. by intros [= <-]. }
  intros d st [_ _ _ _ _ Hg He] Hok'.
  cbn [rq_type rq_buffer rq_sector request] in He, Hg. change (BLK_T_OUT =? BLK_T_IN) with false in He. destruct He as [Hsame Hwr].
  rewrite ram_set in Hwr. assert (∀ k, sectors (set_ram (request_memory a n c BLK_T_OUT sector s1) (platform s1)) k = sectors (platform s) k) as Hs1.
  { intros k. rewrite sectors_ram. cbn [platform s1 with_ram set_platform]. by rewrite sectors_ram. }
  apply (HQ (st =? OK) d); [intros k Hk; rewrite Hsame by done; apply Hs1| |by intros ->%Hg|exact Hok'].
  intros Hst. pose proof Hok as [_ Ha [Hf H3] _ _ [_ Hc] _ _ _ _]. pose proof (queue_layout n Hf) as (L1 & L2 & _).
  destruct (aa_disjoint a Ha) as (Dqh & Dqb & Dqs & Dhb & Dhs & Dbs). unfold disjoint_areas, sizeof_virtqueue_memory in *.
  specialize (Hwr ltac:(unfold OK in *; lia)). unfold request_memory in Hwr.
  rewrite kicked_out in Hwr; [|done|done|done|lia|unfold disjoint_areas; lia..].
  cbn [platform s1 with_ram set_platform] in Hwr. rewrite ram_set in Hwr. rewrite <- Hlen, read_write_same in Hwr. by injection Hwr.
Qed.
End ops.
