(* ===== verification/VirtioInit.v ===== *)
(** * The initialisation of the virtio driver

    From the search of the PCI bus to the state in which requests can be made, over
    the registers of a device behind its ports. *)
From stdpp Require Import gmap.
From S2P Require Import Prelude Cpu Pci Virtio VirtioSpec VirtioOps.

Section init.
Context {D : Type} `{HP : Platform D} `{HS : Statics} `{HL : !PlatformLaws D} `{HB : !BlockDeviceLaws D} `{HC : !ConfigSpace D}.

(** Memory and disk stay as they are. *)
Definition kept (d d' : D) : Prop := ram d' = ram d ∧ ∀ n, sectors d' n = sectors d n.

(** The registers of the device behind the ports from [dev_base] on. [setup d st pg]
    is the device after a reset, with the status [st] and the page [pg] of the queue;
    with the status [ACKNOWLEDGE | DRIVER | DRIVER_OK] it serves requests. *)
Class BlockDeviceRegisters := {
  dev_base : Z;
  dev_queue_size : Z;
  setup : D → Z → option Z → Prop;
  base_range : 0 < dev_base < 65536 - 32;
  dev_capacity : Z;
  capacity_range : 0 <= dev_capacity < 2 ^ 64;
  queue_size_range : 0 <= dev_queue_size < 65536;
  pci_kept d d' : pci_same d d' → kept d d';
  config_write_spec d v : wp (out32b CONFIG_DATA_PORT v) d (λ _ d', kept d d');
  setup_ram m d st pg : setup d st pg → setup (set_ram m d) st pg;
  reset_spec d : wp (outb (dev_base + DEVICE_STATUS) 0) d (λ _ d', kept d d' ∧ setup d' 0 None);
  status_read_spec d st pg : setup d st pg → wp (inb (dev_base + DEVICE_STATUS)) d (λ v d', v = st ∧ kept d d' ∧ setup d' st pg);
  status_write_spec d st pg v : setup d st pg → 0 < v < 256 →
    wp (outb (dev_base + DEVICE_STATUS) v) d (λ _ d', kept d d' ∧ setup d' v pg);
  features_read_spec d st pg : setup d st pg → wp (in32b (dev_base + DEVICE_FEATURES)) d (λ _ d', kept d d' ∧ setup d' st pg);
  features_write_spec d st pg : setup d st pg → wp (out32b (dev_base + DRIVER_FEATURES) 0) d (λ _ d', kept d d' ∧ setup d' st pg);
  select_queue_spec d st pg : setup d st pg → wp (out16b (dev_base + QUEUE_SELECT) 0) d (λ _ d', kept d d' ∧ setup d' st pg);
  queue_size_spec d st pg : setup d st pg →
    wp (in16b (dev_base + QUEUE_SIZE)) d (λ v d', v = dev_queue_size ∧ kept d d' ∧ setup d' st pg);
  queue_address_spec d st pg p : setup d st pg → wp (out32b (dev_base + QUEUE_ADDRESS) p) d (λ _ d', kept d d' ∧ setup d' st (Some p));
  capacity_low_spec d vr c : live d dev_base vr c →
    wp (in32b (dev_base + CONFIG_CAPACITY_LOW)) d (λ v d', v = dev_capacity `mod` 2 ^ 32 ∧ kept d d' ∧ live d' dev_base vr c);
  capacity_high_spec d vr c : live d dev_base vr c →
    wp (in32b (dev_base + CONFIG_CAPACITY_HIGH)) d (λ v d', v = dev_capacity / 2 ^ 32 ∧ kept d d' ∧ live d' dev_base vr c);
  setup_live d p : setup d 7 (Some p) →
    live d dev_base (mkVRing dev_queue_size (p * 4096) (p * 4096 + 16 * dev_queue_size) (p * 4096 + used_offset dev_queue_size)) 0;
}.

(** What the linker and the page tables of the kernel provide: the four variables are
    aligned, apart from each other and mapped page by page, one to one. *)
Record statics_ok : Prop := {
  st_align : virtqueue_memory `mod` 4096 = 0 ∧ request_header `mod` 16 = 0 ∧ data_buffer `mod` 512 = 0;
  st_range : 0 <= virtqueue_memory ∧ virtqueue_memory + sizeof_virtqueue_memory <= 2 ^ 64;
  st_apart : disjoint_areas virtqueue_memory sizeof_virtqueue_memory request_header 16 ∧
    disjoint_areas virtqueue_memory sizeof_virtqueue_memory data_buffer 512 ∧ disjoint_areas virtqueue_memory sizeof_virtqueue_memory status_byte 1 ∧
    disjoint_areas request_header 16 data_buffer 512 ∧ disjoint_areas request_header 16 status_byte 1 ∧ disjoint_areas data_buffer 512 status_byte 1;
  st_mapped va : virtqueue_memory <= va < virtqueue_memory + sizeof_virtqueue_memory ∨ request_header <= va < request_header + 16 ∨
    data_buffer <= va < data_buffer + 512 ∨ va = status_byte → ∃ pa, mmu va = Some pa ∧ 0 <= pa < 2 ^ 44;
  st_page va pa i : mmu va = Some pa → 0 <= i → va `mod` 4096 + i < 4096 → mmu (va + i) = Some (pa + i);
  st_offset va pa : mmu va = Some pa → pa `mod` 4096 = va `mod` 4096;
  st_inj va va' pa : mmu va = Some pa → mmu va' = Some pa → va = va';
}.

Implicit Types (s : Virtio D).

Lemma st_linear va pa n : statics_ok → mmu va = Some pa → va `mod` 4096 + n <= 4096 → linear va n pa.
Proof. intros Hs Hm Hn i Hi. apply (st_page Hs); [done|lia|lia]. Qed.

Lemma linear_apart va n pa va' n' pa' :
  statics_ok → linear va n pa → linear va' n' pa' → 0 < n → 0 < n' → disjoint_areas va n va' n' → disjoint_areas pa n pa' n'.
Proof.
  intros Hs H H' Hn Hn' Hd. unfold disjoint_areas in *. destruct (decide (pa + n <= pa')) as [|H1]; [by left|].
  destruct (decide (pa' + n' <= pa)) as [|H2]; [by right|]. exfalso.
  destruct (decide (pa <= pa')) as [Hle|Hle].
  - pose proof (H (pa' - pa) ltac:(lia)) as A. pose proof (H' 0 ltac:(lia)) as B. rewrite Z.add_0_r in *.
    replace (pa + (pa' - pa)) with pa' in A by lia. rewrite Z.add_0_r in B. pose proof (st_inj Hs _ _ _ A B). lia.
  - pose proof (H' (pa - pa') ltac:(lia)) as A. pose proof (H 0 ltac:(lia)) as B. rewrite Z.add_0_r in *.
    replace (pa' + (pa - pa')) with pa in A by lia. rewrite Z.add_0_r in B. pose proof (st_inj Hs _ _ _ A B). lia.
Qed.

(** [contiguous] is what it says: the whole memory of the queue lies in one piece. *)
Lemma contiguous_spec q : statics_ok → mmu virtqueue_memory = Some q → 0 <= q < 2 ^ 44 →
  contiguous 3 VIRTIO_PAGE_SIZE q mmu = true ↔ linear virtqueue_memory sizeof_virtqueue_memory q.
Proof.
  intros Hs Hq Hr. unfold VIRTIO_PAGE_SIZE, sizeof_virtqueue_memory. cbn [contiguous]. unfold VIRTIO_PAGE_SIZE.
  change (4096 + 4096) with 8192. change (8192 + 4096) with 12288. rewrite !u64_small by lia.
  destruct (st_align Hs) as (Ha & _). pose proof (st_linear virtqueue_memory q 4096 Hs Hq ltac:(lia)) as H0. split.
  - assert (∀ off, off `mod` 4096 = 0 → mmu (virtqueue_memory + off) = Some (q + off) → ∀ i, off <= i < off + 4096 → mmu (virtqueue_memory + i) = Some (q + i)) as Hpg.
    { intros off Ho Hm i Hi. pose proof (st_linear _ _ 4096 Hs Hm ltac:(lia) (i - off) ltac:(lia)) as H.
      replace (virtqueue_memory + off + (i - off)) with (virtqueue_memory + i) in H by lia. rewrite H. f_equal. lia. }
    intros H i Hi. repeat case_match; simplify_eq.
    destruct (decide (i < 4096)); [apply H0; lia|]. destruct (decide (i < 8192)); [apply (Hpg 4096); [done| |lia]; by replace (q + 4096) with z by lia|].
    destruct (decide (i < 12288)); [apply (Hpg 8192); [done| |lia]; by replace (q + 8192) with z0 by lia|].
    apply (Hpg 12288); [done| |lia]. by replace (q + 12288) with z1 by lia.
  - intros H. rewrite !H by lia. by rewrite !Z.eqb_refl.
Qed.

Context `{HR : !BlockDeviceRegisters}.

Lemma kept_refl d : kept d d.
Proof. by split. Qed.
Lemma kept_then d1 d2 d3 : kept d1 d2 → kept d2 d3 → kept d1 d3.
Proof. intros [H1 H2] [H3 H4]. split; [by rewrite H3|]. intros n. by rewrite H4. Qed.

(** ** Finding the device *)

(** The first function with the identity of the device has the ports of the device
    as its first base address. *)
Definition has_device (d : D) : Prop :=
  ∃ i, 0 <= i < 65536 ∧ hit d VIRTIO_VENDOR_ID VIRTIO_BLK_DEVICE_ID i ∧ (∀ j, 0 <= j < i → ¬ hit d VIRTIO_VENDOR_ID VIRTIO_BLK_DEVICE_ID j) ∧
    let '(b, dv, f) := function_at i in let bar := bar_of d b dv f 0 in
    is_io_space bar = true ∧ Z.land (base_address bar) 0xFFFC = dev_base.

Lemma function_at_ok i : 0 <= i < 65536 → let '(b, dv, f) := function_at i in function_ok b dv f.
Proof. intros Hi. unfold function_at, function_ok. lia. Qed.

Lemma wp_enable_bus_master d0 i d (Q : () → D → Prop) :
  0 <= i < 65536 → (∀ d', kept d d' → Q () d') → wp (enable_bus_master (describe_at d0 i)) d Q.
Proof.
  intros Hi HQ. pose proof (function_at_ok i Hi) as Hf. unfold describe_at. destruct (function_at i) as [[b dv] f].
  unfold enable_bus_master, describe. cbn [bus device function]. wp_step. apply wp_read_config; [done|lia|]. intros d1 Hs1 _.
  unfold write_config. wp_step. eapply wp_mono; [apply select_spec|]. intros [] d2 (Hs2 & _).
  wp_step. eapply wp_mono; [apply config_write_spec|]. intros [] d3 H3.
  wp_step. eapply wp_mono; [apply config_read_spec|]. intros v d4 (_ & Hs4 & _). wp_step. apply HQ.
  eapply kept_then; [by apply pci_kept|]. eapply kept_then; [by apply pci_kept|].
  eapply kept_then; [done|by apply pci_kept].
Qed.

Lemma wp_find_device s (Q : bool → Virtio D → Prop) :
  has_device (platform s) → (∀ d, kept (platform s) d → Q true (set_io_base dev_base (set_platform d s))) → wp find_device s Q.
Proof.
  intros (i & Hi & Hhit & Hfirst & Hbar) HQ. unfold find_device. wp_step. apply wp_hw.
  apply wp_pci_device_exists. intros r d1 Hs1 Hr _. destruct r as [x|]; [|by destruct (Hr i Hi)].
  destruct Hr as (j & Hj & Hhitj & -> & Hfirstj). assert (j = i) as ->.
  { destruct (Z.lt_trichotomy j i) as [Hlt|[->|Hlt]]; [|done|]; [by destruct (Hfirst j); [lia|]|by destruct (Hfirstj i); [lia|]]. }
  assert (bars (describe_at (platform s) i) !! 0%nat = Some (let '(b, dv, f) := function_at i in bar_of (platform s) b dv f 0)) as Hb.
  { unfold describe_at. by destruct (function_at i) as [[b dv] f]. }
  unfold function_at in Hb, Hbar. cbn beta iota zeta in Hb, Hbar. destruct Hbar as [Hio Hbase].
  wp_step. eapply wp_defined; [exact Hb|]. rewrite Hio. cbn [negb].
  wp_step. wp_step. do 2 wp_step. rewrite Hbase. cbn [io_base set_io_base]. pose proof base_range. replace (dev_base =? 0) with false by lia.
  wp_step. apply wp_hw. cbn [platform set_io_base set_platform]. apply wp_enable_bus_master; [done|]. intros d2 H2. wp_step.
  apply (HQ d2). eapply kept_then; [by apply pci_kept|done].
Qed.

(** ** The registers *)

(** The driver works on the device at [dev_base]. *)
Definition in_setup s st pg : Prop := io_base s = dev_base ∧ setup (platform s) st pg.

Lemma wp_port {A} reg (k : Z → M D A) s (Q : A → Virtio D → Prop) :
  io_base s = dev_base → 0 <= reg < 32 →
  wp (k (dev_base + reg)) (platform s) (λ a d, Q a (set_platform d s)) → wp (p ← port reg; hw (k p)) s Q.
Proof.
  intros Hb Hr Hk. pose proof base_range. unfold port. wp_step. do 2 wp_step. wp_step. rewrite Hb, u16_small by lia. by apply wp_hw.
Qed.

Lemma wp_add_status s st pg bits (Q : () → Virtio D → Prop) :
  in_setup s st pg → 0 < Z.lor st bits < 256 →
  (∀ d, kept (platform s) d → setup d (Z.lor st bits) pg → Q () (set_platform d s)) → wp (add_device_status bits) s Q.
Proof.
  intros [Hb Hs] Hr HQ. unfold add_device_status. wp_step. apply (wp_port DEVICE_STATUS inb); [done|done|].
  eapply wp_mono; [by apply status_read_spec|]. intros v d1 (-> & Hk1 & Hs1). rewrite u8_small by lia.
  apply (wp_port DEVICE_STATUS (λ p, outb p (Z.lor st bits))); [done|done|]. cbn [platform set_platform].
  eapply wp_mono; [by apply (status_write_spec d1 st pg)|]. intros [] d2 (Hk2 & Hs2).
  apply (HQ d2); [by eapply kept_then|done].
Qed.

(** Stores to mapped memory, wherever it lies. *)
Lemma wp_store_any va l m s (Q : () → Virtio D → Prop) :
  (∀ i, 0 <= i < Z.of_nat (length l) → is_Some (mmu (va + i))) → (∀ m', Q () (with_ram m' s)) → wp (store va l) (with_ram m s) Q.
Proof.
  revert va m. induction l as [|b l IH]; intros va m Hl HQ; cbn [store]; [by wp_step|].
  do 2 wp_step. cbn [length] in Hl. destruct (Hl 0 ltac:(lia)) as [pa H0]. rewrite Z.add_0_r in H0.
  wp_step. wp_step. wp_step. apply wp_hw. wp_step. cbn [platform with_ram set_platform]. rewrite ram_set, set_set.
  change (set_platform _ (with_ram m s)) with (with_ram (<[pa:=b]> m) s). apply IH; [|done].
  intros i Hi. replace (va + 1 + i) with (va + (i + 1)) by lia. apply Hl. lia.
Qed.

(** The size of the queue, checked as [virtq_init] checks it. *)
Definition size_accepted : bool :=
  negb (dev_queue_size =? 0) && (Z.land dev_queue_size (dev_queue_size - 1) =? 0) && negb (vring_size dev_queue_size VIRTIO_PAGE_SIZE >? sizeof_virtqueue_memory).

Lemma size_accepted_fits : size_accepted = true ↔ queue_fits dev_queue_size.
Proof.
  pose proof queue_size_range. unfold size_accepted, queue_fits. rewrite !andb_true_iff, !negb_true_iff.
  generalize (vring_size dev_queue_size VIRTIO_PAGE_SIZE) as v. generalize (Z.land dev_queue_size (dev_queue_size - 1)) as w. lia.
Qed.

(** The memory with the zeros of [memset]. *)
Definition zeroed q (m : gmap Z Z) : gmap Z Z := write_ram q (replicate (Z.to_nat sizeof_virtqueue_memory) 0) m.
Lemma zeroed_int pa q m : q <= pa → pa + 2 <= q + sizeof_virtqueue_memory → read_int 2 pa (zeroed q m) = Some 0.
Proof. apply read_zeros. Qed.
Lemma zeroed_present q m x : is_Some (m !! x) → is_Some (zeroed q m !! x).
Proof. unfold zeroed. generalize (replicate (Z.to_nat sizeof_virtqueue_memory) 0). intros l. apply write_present. Qed.
Lemma wp_zero_queue q m s (Q : () → Virtio D → Prop) : linear virtqueue_memory sizeof_virtqueue_memory q →
  Q () (with_ram (zeroed q m) s) → wp (store virtqueue_memory (replicate (Z.to_nat sizeof_virtqueue_memory) 0)) (with_ram m s) Q.
Proof.
  unfold zeroed. assert (0 <= sizeof_virtqueue_memory) as Hn by (unfold sizeof_virtqueue_memory; lia). revert Hn.
  generalize sizeof_virtqueue_memory as n. intros n Hn Hl HQ. apply (wp_store_ram _ _ q); [|exact HQ].
  rewrite length_replicate, Z2Nat.id by exact Hn. exact Hl.
Qed.
#[local] Opaque zeroed.

(** What [virtq_init] leaves when it succeeds. *)
Definition queue_ready s : Virtio D := set_queue (vring_init dev_queue_size virtqueue_memory VIRTIO_PAGE_SIZE) (set_last 0 s).

Lemma wp_virtq_init s st q (Q : bool → Virtio D → Prop) :
  statics_ok → in_setup s st None → mmu virtqueue_memory = Some q → 0 <= q < 2 ^ 44 →
  (size_accepted && contiguous 3 VIRTIO_PAGE_SIZE q mmu = false → ∀ s', ready s' = ready s → Q false s') →
  (∀ d, queue_fits dev_queue_size → linear virtqueue_memory sizeof_virtqueue_memory q →
    ram d = zeroed q (ram (platform s)) → (∀ n, sectors d n = sectors (platform s) n) → setup d st (Some (q / 4096)) →
    Q true (set_platform d (queue_ready s))) →
  wp (virtq_init mmu) s Q.
Proof.
  intros Hst [Hb Hs] Hq Hr Hno Hyes. unfold virtq_init. wp_step.
  apply (wp_port QUEUE_SELECT (λ p, out16b p 0)); [done|done|]. eapply wp_mono; [by apply select_queue_spec|]. intros [] d1 (Hk1 & Hs1).
  wp_step. apply (wp_port QUEUE_SIZE in16b); [done|done|]. cbn [platform set_platform].
  eapply wp_mono; [by apply (queue_size_spec d1 st None)|]. intros v d2 (-> & Hk2 & Hs2).
  change (set_platform d2 (set_platform d1 s)) with (set_platform d2 s). pose proof (kept_then _ _ _ Hk1 Hk2) as [Hram Hsec].
  unfold size_accepted in Hno. pose proof size_accepted_fits as Hfits. unfold size_accepted in Hfits.
  destruct (dev_queue_size =? 0); cbn [negb andb] in *; [wp_step; by apply Hno|].
  destruct (Z.land dev_queue_size _ =? 0); cbn [negb andb] in *; [|wp_step; by apply Hno].
  destruct (vring_size _ _ >? _); cbn [negb andb] in *; [wp_step; by apply Hno|]. apply proj1 in Hfits. specialize (Hfits eq_refl).
  pose proof (contiguous_spec q Hst Hq Hr) as Hcont. wp_step. rewrite <- (with_ram_id (set_platform d2 s)).
  destruct (contiguous 3 VIRTIO_PAGE_SIZE q mmu) eqn:Ec.
  - pose proof (proj1 Hcont eq_refl) as Hlin. apply (wp_zero_queue q); [exact Hlin|]. do 4 wp_step. rewrite Hq, Ec. cbn [negb].
    wp_step. apply (wp_port QUEUE_ADDRESS (λ p, out32b p (u32 (Z.shiftr q 12)))); [done|done|].
    cbn [platform set_queue set_last with_ram set_platform]. rewrite Hram.
    eapply wp_mono; [apply (queue_address_spec _ st None); by apply setup_ram|]. intros [] d3 ((Hram3 & Hsec3) & Hs3). rewrite ram_set in Hram3.
    assert (u32 (Z.shiftr q 12) = q / 4096) as Eu by (rewrite Z.shiftr_div_pow2 by lia; apply u32_small; change (2 ^ 12) with 4096; lia).
    rewrite Eu in Hs3. wp_step. apply (Hyes d3); [done|done|exact Hram3| |exact Hs3].
    intros n. rewrite Hsec3, sectors_ram. apply Hsec.
  - apply wp_store_any.
    + intros i Hi. destruct (st_mapped Hst (virtqueue_memory + i)) as (pa & Hpa & _); [left|by exists pa].
      rewrite length_replicate in Hi. lia.
    + intros m'. do 4 wp_step. rewrite Hq, Ec. cbn [negb]. wp_step. by apply Hno.
Qed.

(** ** initialize *)

(** There is memory behind the four variables. *)
Definition statics_present (d : D) : Prop := ∀ va pa, mmu va = Some pa →
  virtqueue_memory <= va < virtqueue_memory + sizeof_virtqueue_memory ∨ request_header <= va < request_header + 16 ∨
  data_buffer <= va < data_buffer + 512 ∨ va = status_byte → is_Some (ram d !! pa).

Lemma present_linear d va n pa :
  linear va n pa → (∀ x, va <= x < va + n → virtqueue_memory <= x < virtqueue_memory + sizeof_virtqueue_memory ∨
    request_header <= x < request_header + 16 ∨ data_buffer <= x < data_buffer + 512 ∨ x = status_byte) →
  statics_present d → present (ram d) pa n.
Proof.
  intros Hl Hin Hp x Hx. apply (Hp (va + (x - pa))); [|apply Hin; lia]. rewrite (Hl (x - pa)) by lia. f_equal. lia.
Qed.

(** The buffers do not cross a page, and nothing lies beyond 44 bits. *)
Lemma st_linears q h b st :
  statics_ok → linear virtqueue_memory sizeof_virtqueue_memory q → mmu request_header = Some h → mmu data_buffer = Some b → mmu status_byte = Some st →
  mmu virtqueue_memory = Some q ∧ linear request_header 16 h ∧ linear data_buffer 512 b ∧ linear status_byte 1 st.
Proof.
  intros Hst Hq Hh Hb Hs. destruct (st_align Hst) as (_ & A2 & A3). split_and!.
  - pose proof (Hq 0) as H. rewrite !Z.add_0_r in H. apply H. done.
  - apply st_linear; [done|done|]. clear - A2. lia.
  - apply st_linear; [done|done|]. clear - A3. lia.
  - apply st_linear; [done|done|]. clear. lia.
Qed.
Lemma st_bounds q h b st :
  statics_ok → mmu virtqueue_memory = Some q → mmu request_header = Some h → mmu data_buffer = Some b → mmu status_byte = Some st →
  0 <= q < 2 ^ 44 ∧ 0 <= h < 2 ^ 44 ∧ 0 <= b < 2 ^ 44 ∧ 0 <= st < 2 ^ 44.
Proof.
  intros Hst Hq Hh Hb Hs.
  destruct (st_mapped Hst virtqueue_memory) as (q' & Hq' & Rq); [left; unfold sizeof_virtqueue_memory; clear; lia|].
  destruct (st_mapped Hst request_header) as (h' & Hh' & Rh); [right; left; clear; lia|].
  destruct (st_mapped Hst data_buffer) as (b' & Hb' & Rb); [right; right; left; clear; lia|].
  destruct (st_mapped Hst status_byte) as (st' & Hs' & Rs); [by right; right; right|]. simplify_eq. done.
Qed.

Lemma ready_driver s q h b st d :
  statics_ok → queue_fits dev_queue_size → 3 <= dev_queue_size → linear virtqueue_memory sizeof_virtqueue_memory q →
  mmu request_header = Some h → mmu data_buffer = Some b → mmu status_byte = Some st → statics_present (platform s) →
  io_base s = dev_base → request_header_phys s = Some h ∧ data_buffer_phys s = Some b ∧ status_byte_phys s = Some st →
  ram d = zeroed q (ram (platform s)) → setup d 7 (Some (q / 4096)) →
  driver_ok (set_ready true (set_platform d (queue_ready s))) (mkAreas q h b st) dev_queue_size 0.
Proof.
  intros Hst Hf H3 Hq Hh Hb Hs Hpr Hbase Hphys Hram Hset. pose proof (queue_layout _ Hf) as (L1 & L2 & L3).
  destruct (st_align Hst) as (A1 & A2 & A3). destruct (st_range Hst) as [R1 R2].
  destruct (st_linears q h b st Hst Hq Hh Hb Hs) as (Hq0 & Lh & Lb & Ls).
  destruct (st_bounds q h b st Hst Hq0 Hh Hb Hs) as (Rq & Rh & Rb & Rs).
  assert (q `mod` 4096 = 0) as Qa by (rewrite (st_offset Hst _ _ Hq0); done).
  destruct (st_apart Hst) as (D1 & D2 & D3 & D4 & D5 & D6).
  assert (∀ pa, 0 <= pa → q <= pa → pa + 2 <= q + sizeof_virtqueue_memory → read_int 2 pa (ram d) = Some 0) as Hzero.
  { intros pa Hp Hlo Hhi. rewrite Hram. exact (zeroed_int _ _ _ Hlo Hhi). }
  assert (∀ x, is_Some (ram (platform s) !! x) → is_Some (ram d !! x)) as Hpd.
  { intros x Hx. rewrite Hram. exact (zeroed_present _ _ _ Hx). }
  clear Hram.
  split; cbn [ready set_ready set_platform queue_ready set_queue set_last with_ram queue last_used_index platform io_base
    request_header_phys data_buffer_phys status_byte_phys ar_header ar_buffer ar_status ar_queue]; try done.
  - split; cbn [ar_queue ar_header ar_buffer ar_status]; try done; [clear Hzero; unfold sizeof_virtqueue_memory in *; lia|].
    split_and!; eapply (linear_apart _ _ _ _ _ _ Hst); try exact Hq; try exact Lh; try exact Lb; try exact Ls; done.
  - rewrite vring_init_page by done. done.
  - rewrite Hbase. pose proof (setup_live d _ Hset) as Hl. replace (q / 4096 * 4096) with q in Hl by lia. exact Hl.
  - unfold avail_idx, device_ring. cbn [avail ar_queue]. apply Hzero; unfold sizeof_virtqueue_memory in *; lia.
  - unfold used_idx, device_ring. cbn [used ar_queue]. apply Hzero; unfold sizeof_virtqueue_memory in *; lia.
  - split; [|split; [|split]]; cbn [ar_queue ar_header ar_buffer ar_status]; intros x Hx; apply Hpd; revert x Hx;
      (eapply (present_linear (platform s)); [eassumption| |done]); intros x Hx; [by left|by right; left|by right; right; left|right; right; right; lia].
Qed.

Lemma wp_virtio_initialize s q (Q : bool → Virtio D → Prop) :
  statics_ok → has_device (platform s) → statics_present (platform s) → mmu virtqueue_memory = Some q →
  (size_accepted && contiguous 3 VIRTIO_PAGE_SIZE q mmu = false → ∀ s', ready s' = ready s → Q false s') →
  (size_accepted && contiguous 3 VIRTIO_PAGE_SIZE q mmu = true → ∀ s', (∀ n, sectors (platform s') n = sectors (platform s) n) →
    (3 <= dev_queue_size → io_base s' = dev_base ∧ ∃ a, driver_ok s' a dev_queue_size 0) → Q true s') →
  wp (initialize (Some mmu)) s Q.
Proof.
  intros Hst Hdev Hpr Hq Hno Hyes. unfold initialize.
  assert (0 <= q < 2 ^ 44) as Hqr.
  { destruct (st_mapped Hst virtqueue_memory) as (q' & Hq' & Hr); [left; unfold sizeof_virtqueue_memory; lia|congruence]. }
  destruct (st_mapped Hst request_header) as (h & Hh & _); [right; left; lia|].
  destruct (st_mapped Hst data_buffer) as (b & Hb & _); [right; right; left; lia|].
  destruct (st_mapped Hst status_byte) as (st & Hs & _); [by right; right; right|].
  wp_step. apply wp_find_device; [done|]. intros d0 K0. cbn [negb].
  set (s0 := set_io_base dev_base (set_platform d0 s)). assert (io_base s0 = dev_base) as Eb by done.
  wp_step. apply (wp_port DEVICE_STATUS (λ p, outb p RESET)); [done|done|]. eapply wp_mono; [apply reset_spec|]. intros [] d1 (K1 & S1).
  wp_step. apply (wp_add_status _ 0 None); [done|done|]. intros d2 K2 S2. cbn [platform set_platform] in K2.
  wp_step. apply (wp_add_status _ 1 None); [done|done|]. intros d3 K3 S3. cbn [platform set_platform] in K3.
  wp_step. apply (wp_port DEVICE_FEATURES in32b); [done|done|]. eapply wp_mono; [by apply (features_read_spec d3 3 None)|]. intros _ d4 (K4 & S4).
  wp_step. apply (wp_port DRIVER_FEATURES (λ p, out32b p 0)); [done|done|]. eapply wp_mono; [by apply (features_write_spec d4 3 None)|].
  intros [] d5 (K5 & S5). assert (kept (platform s) d5) as K by (repeat (eapply kept_then; [eassumption|]); apply kept_refl).
  change (set_platform d5 _) with (set_platform d5 s0).
  wp_step. unfold resolve_dma_buffers. rewrite Hh, Hb, Hs. do 2 wp_step. wp_step. cbn [negb].
  set (s5 := set_phys (Some h) (Some b) (Some st) (set_platform d5 s0)).
  wp_step. apply (wp_virtq_init s5 3 q); [done|by split|done|done| |].
  - intros Hf s' Hr. cbn [negb]. wp_step. by apply Hno.
  - intros d6 Hfits Hlin Hram Hsec S6. cbn [negb].
    wp_step. apply (wp_add_status _ 3 (Some (q / 4096))); [split; [exact Eb|exact S6]|split; reflexivity|]. intros d7 [Kr Ks] S7.
    change (set_platform d7 (set_platform d6 (queue_ready s5))) with (set_platform d7 (queue_ready s5)).
    cbn [platform set_platform] in Kr, Ks. do 2 wp_step. wp_step.
    apply Hyes.
    + apply andb_true_iff. split; [by apply size_accepted_fits|]. by apply (contiguous_spec q Hst Hq Hqr).
    + intros n. cbn [platform set_ready set_platform]. rewrite Ks, Hsec. apply K.
    + intros H3. split; [exact Eb|]. eexists. assert (statics_present (platform s5)) as Hp5.
      { intros va pa Hm Hin. cbn [platform s5 set_phys set_platform]. destruct K as [-> _]. exact (Hpr va pa Hm Hin). }
      rewrite Hram in Kr.
      exact (ready_driver s5 q h b st d7 Hst Hfits H3 Hlin Hh Hb Hs Hp5 Eb (conj eq_refl (conj eq_refl eq_refl)) Kr S7).
Qed.

(** ** capacity *)
Lemma driver_kept s a n c d : driver_ok s a n c → kept (platform s) d → live d (io_base s) (device_ring a n) c → driver_ok (set_platform d s) a n c.
Proof. intros [? ? ? ? ? ? _ Hav Hus Hpr] [Hram _] Hlive. split; try done; cbn [platform set_platform]; by rewrite Hram. Qed.

Lemma wp_capacity s a n c (Q : Z → Virtio D → Prop) :
  driver_ok s a n c → io_base s = dev_base →
  (∀ d, kept (platform s) d → driver_ok (set_platform d s) a n c → Q dev_capacity (set_platform d s)) → wp capacity s Q.
Proof.
  intros Hok Hb HQ. pose proof capacity_range as Hcap. pose proof (dk_live _ _ _ _ Hok) as Hl. rewrite Hb in Hl.
  unfold capacity. do 2 wp_step. rewrite (dk_ready _ _ _ _ Hok). cbn [negb].
  wp_step. apply (wp_port CONFIG_CAPACITY_LOW in32b); [done|done|]. eapply wp_mono; [by apply capacity_low_spec|]. intros low d1 (-> & K1 & L1).
  wp_step. apply (wp_port CONFIG_CAPACITY_HIGH in32b); [done|done|]. cbn [platform set_platform].
  eapply wp_mono; [by apply capacity_high_spec|]. intros high d2 (-> & K2 & L2).
  wp_step. rewrite u64_small by (rewrite Z.shiftl_mul_pow2 by lia; lia). rewrite lor_field by lia.
  replace (dev_capacity / 2 ^ 32 * 2 ^ 32 + dev_capacity `mod` 2 ^ 32) with dev_capacity by lia.
  pose proof (kept_then _ _ _ K1 K2) as K. apply (HQ d2 K). apply driver_kept; [done|done|by rewrite Hb].
Qed.
End init.
