(* ===== verification/VirtioProps.v ===== *)
(** * What the virtio driver promises

    Sequences of requests against an array of sectors, the layout of the rings, and
    the initialisation. *)
From stdpp Require Import gmap.
From S2P Require Import Prelude Cpu Pci Virtio VirtioSpec VirtioOps VirtioInit.

(** ** The disk that a client sees *)
Inductive Req := ReadReq (sector : Z) (buf : list Z) | WriteReq (sector : Z) (buf : list Z).
Inductive Ans := ReadAns (ok : bool) (buf : list Z) | WriteAns (ok : bool).

Definition req_ok (r : Req) : Prop :=
  match r with
  | ReadReq k _ => 0 <= k < 2 ^ 64
  | WriteReq k buf => 0 <= k < 2 ^ 64 ∧ length buf = 512%nat ∧ bytes buf
  end.

(** A request on an array of sectors. Any request may fail: a read leaves the buffer
    of the caller alone then, a write leaves every other sector alone. *)
Definition disk_step (disk : Z → list Z) (r : Req) (a : Ans) (disk' : Z → list Z) : Prop :=
  match r, a with
  | ReadReq k buf, ReadAns ok l => (∀ n, disk' n = disk n) ∧ l = if ok then disk k else buf
  | WriteReq k buf, WriteAns ok => (∀ n, n ≠ k → disk' n = disk n) ∧ (ok = true → disk' k = buf)
  | _, _ => False
  end.
Inductive disk_steps : (Z → list Z) → list Req → list Ans → (Z → list Z) → Prop :=
  | steps_nil disk disk' : (∀ n, disk' n = disk n) → disk_steps disk [] [] disk'
  | steps_cons disk r a disk1 rs ans disk2 :
      disk_step disk r a disk1 → disk_steps disk1 rs ans disk2 → disk_steps disk (r :: rs) (a :: ans) disk2.

Section props.
Context {D : Type} `{HP : Platform D} `{HS : Statics} `{HL : !PlatformLaws D} `{HB : !BlockDeviceLaws D}.
Implicit Types (s : Virtio D).

Definition perform (r : Req) : M (Virtio D) Ans :=
  match r with
  | ReadReq k buf => '(ok, l) ← read_block k buf; mret (ReadAns ok l)
  | WriteReq k buf => ok ← write_block k buf; mret (WriteAns ok)
  end.
Fixpoint perform_all (rs : list Req) : M (Virtio D) (list Ans) :=
  match rs with
  | [] => mret []
  | r :: rs => a ← perform r; ans ← perform_all rs; mret (a :: ans)
  end.

(** The contents of the disk in a state of the driver. *)
Definition disk s : Z → list Z := sectors (platform s).

Lemma wp_perform s a n c r (Q : Ans → Virtio D → Prop) :
  driver_ok s a n c → req_ok r →
  (∀ x s', disk_step (disk s) r x (disk s') → driver_ok s' a n (u16 (c + 1)) → Q x s') → wp (perform r) s Q.
Proof.
  intros Hok Hr HQ. destruct r as [k buf|k buf]; cbn [perform req_ok] in *; wp_step.
  - apply (wp_virtio_read s a n c); [done|done|]. intros ok d Hsec _ Hok'. wp_step. apply HQ; [|done].
    split; [|done]. intros m. unfold disk. cbn [platform next_request set_last set_platform]. by rewrite Hsec.
  - destruct Hr as [Hk Hl]. apply (wp_virtio_write s a n c); [done..|]. intros ok d Hsec Hw _ Hok'. wp_step. apply HQ; [|done]. by split.
Qed.

Lemma wp_perform_all rs s a n c (Q : list Ans → Virtio D → Prop) :
  driver_ok s a n c → Forall req_ok rs →
  (∀ ans s', disk_steps (disk s) rs ans (disk s') → driver_ok s' a n (u16 (c + Z.of_nat (length rs))) → Q ans s') →
  wp (perform_all rs) s Q.
Proof.
  revert s c Q. induction rs as [|r rs IH]; intros s c Q Hok Hrs HQ; cbn [perform_all].
  - wp_step. apply HQ; [by constructor|]. cbn [length]. destruct (dk_last _ _ _ _ Hok) as [_ Hc].
    replace (c + Z.of_nat 0) with c by lia. by rewrite u16_small.
  - apply Forall_cons in Hrs as [Hr Hrs]. wp_step. apply (wp_perform s a n c); [done|done|]. intros x s1 Hstep Hok1.
    wp_step. apply (IH s1 (u16 (c + 1))); [done|done|]. intros ans s2 Hsteps Hok2. wp_step. apply HQ; [by econstructor|].
    replace (u16 (c + Z.of_nat (length (r :: rs)))) with (u16 (u16 (c + 1) + Z.of_nat (length rs))); [done|].
    cbn [length]. unfold u16. rewrite Zplus_mod_idemp_l. f_equal. lia.
Qed.

(** C15: The driver refines an array of sectors: from any state between two
    requests, and for any sequence of reads and writes, the driver answers every
    request, never touches undefined memory, and the answers and the contents of the
    disk are those of the array, in which requests may fail. The free-running index
    of the rings counts the requests modulo 2^16, so the sequence may be longer than
    the counter is wide. *)
Theorem requests_correct rs s a n c :
  driver_ok s a n c → Forall req_ok rs →
  wp (perform_all rs) s (λ ans s', disk_steps (disk s) rs ans (disk s') ∧ driver_ok s' a n (u16 (c + Z.of_nat (length rs)))).
Proof. intros Hok Hrs. by apply (wp_perform_all rs s a n c). Qed.

(** Before a successful [initialize] the driver refuses every read, leaves
    the buffer of the caller alone and reports no capacity, without touching the
    device. *)
Theorem not_ready_refused s k buf :
  ready s = false → read_block k buf s = Some ((false, buf), s) ∧ capacity s = Some (0, s).
Proof. intros Hr. split; unfold read_block, do_request, capacity, get; cbn -[load]; unfold mbind, M_bind; cbn -[load]; rewrite Hr; done. Qed.

(** C36: For every queue size that [virtq_init] accepts, the ring the driver lays
    out in [virtqueue_memory] stays inside it: descriptors, available ring, used
    ring follow each other without overlap, with the alignment the device wants, for
    every index of the available ring that [virtq_kick] computes. *)
Theorem ring_in_memory n p i :
  queue_fits n → 0 <= p → p + sizeof_virtqueue_memory <= 2 ^ 64 → p `mod` 4096 = 0 → 0 <= i →
  let vr := vring_init n p VIRTIO_PAGE_SIZE in
  desc vr = p ∧ desc vr + 16 * n <= avail vr ∧ avail_idx vr + 2 <= avail_ring vr (i `mod` n) ∧ avail_ring vr (i `mod` n) + 2 <= used vr ∧
  used vr `mod` 4096 = 0 ∧ used_idx vr + 2 + 8 * n <= p + sizeof_virtqueue_memory.
Proof.
  intros Hf Hp Hle Ha Hi. cbn zeta. rewrite vring_init_page by done. destruct (queue_layout n Hf) as (H1 & H2 & H3). destruct Hf as ((Hn & _) & _).
  assert (0 <= i `mod` n < n) as Hj by (apply Z.mod_pos_bound; lia). remember (i `mod` n) as j eqn:Ej. clear Ej.
  unfold avail_idx, avail_ring, used_idx. cbn [desc avail used]. lia.
Qed.

Lemma read_upper_word pa v m : read_int 2 (pa + 2) (write_int 8 pa v m) = Some (field v 16 16).
Proof.
  unfold read_int, write_int, field. cbn [le_bytes write_ram read_ram]. rewrite <- !Z.add_assoc. cbn [Z.add Pos.add Pos.succ].
  rewrite !(lookup_insert_ne _ (pa + 7)), !(lookup_insert_ne _ (pa + 6)), !(lookup_insert_ne _ (pa + 5)), !(lookup_insert_ne _ (pa + 4)) by lia.
  rewrite lookup_insert_eq. rewrite lookup_insert_ne by lia. rewrite lookup_insert_eq. cbn [mbind option_bind fmap option_fmap option_map le_value foldr].
  f_equal. change (2 ^ 16) with 65536. lia.
Qed.

(** A queue of two entries passes the checks of [virtq_init], and a request needs three
    descriptors: the third one lies on the available ring, whose index becomes a part
    of the address of the status byte. *)
Theorem queue_of_two_overlaps a type sector m :
  queue_fits 2 ∧ read_int 2 (avail_idx (device_ring a 2)) (request_ram a type sector m) = Some (field (ar_status a) 16 16).
Proof.
  split; [split; [lia|by vm_compute]|]. unfold request_ram. unfold desc_ram at 1.
  replace (avail_idx (device_ring a 2)) with (ar_queue a + 16 * 2 + 2) by (unfold avail_idx, device_ring; cbn [avail]; lia).
  rewrite !read_int_out by lia. apply read_upper_word.
Qed.

Context `{HC : !ConfigSpace D} `{HR : !BlockDeviceRegisters}.

(** [initialize] finds the device, resets it and hands it the queue: it succeeds
    exactly when the size of the queue is a power of two that fits
    [virtqueue_memory] and that memory is physically contiguous. Then the sectors of
    the disk are as before and, unless the queue has less than three entries, the
    driver is ready for requests; otherwise [ready] keeps its value. Without a
    device on the bus, or without a resolver, it fails. *)
Theorem virtio_initialize_correct s q :
  statics_ok → has_device (platform s) → statics_present (platform s) → mmu virtqueue_memory = Some q →
  initialize None s = Some (false, s) ∧
  wp (initialize (Some mmu)) s (λ ok s', ok = size_accepted && contiguous 3 VIRTIO_PAGE_SIZE q mmu ∧
    if ok then (∀ n, disk s' n = disk s n) ∧ (3 <= dev_queue_size → io_base s' = dev_base ∧ ∃ a, driver_ok s' a dev_queue_size 0)
    else ready s' = ready s).
Proof.
  intros Hst Hdev Hpr Hq. split; [done|]. apply (wp_virtio_initialize s q); [done..| |].
  - intros Hno s' Hr. by rewrite Hno.
  - intros Hyes s' Hsec Hok. by rewrite Hyes.
Qed.

Lemma initialize_absent s :
  (∀ i, 0 <= i < 65536 → ¬ hit (platform s) VIRTIO_VENDOR_ID VIRTIO_BLK_DEVICE_ID i) →
  wp (initialize (Some mmu)) s (λ ok s', ok = false ∧ ready s' = ready s).
Proof.
  intros Hno. unfold initialize, find_device. wp_step. wp_step. apply wp_hw. apply wp_pci_device_exists.
  intros [x|] d Hsame Hr _; [|wp_step; cbn [negb]; by wp_step]. destruct Hr as (i & Hi & Hhit & _). by destruct (Hno i Hi).
Qed.
End props.
