(* ===== verification/Boot.v ===== *)
(** * How the kernel brings up its storage (kernel/main.cpp)

    The driver, the cache over it and the file system over the cache, in the order of
    [kernel_main]; and what this gives when the device works. *)
From stdpp Require Import strings.
From S2P Require Import Prelude BlockStore BufferCache BufferCacheSpec BufferCacheOps Cpu Pci Virtio VirtioSpec VirtioOps.
From S2P Require Import BufferCacheStore FsLayout FileSystem FileSystemSpec FileSystemFormat FileSystemProps.
From S2P Require Import VirtioInit.

(** * The virtio driver under the buffer cache (kernel/main.cpp)

    The kernel hands [VirtIOBlock::read_block] and [write_block] to the cache. A call
    that the model cannot answer, which [driver_ok] excludes, counts as a failure. *)

Section device.
Context {D : Type} `{HP : Platform D} `{HS : Statics} `{HL : !PlatformLaws D} `{HB : !BlockDeviceLaws D}.
Implicit Types (s : Virtio D).

(** The block number is a [uint64_t]. *)
Definition virtio_read (n : Z) (buf : list Z) s : bool * list Z * Virtio D :=
  if bool_decide (0 <= n < 2 ^ 64) then
    match Virtio.read_block n buf s with
    | Some (ok, l, s') => (ok, l, s')
    | None => (false, buf, s)
    end
  else (false, buf, s).
Definition virtio_write (n : Z) (buf : list Z) s : bool * Virtio D :=
  if bool_decide (0 <= n < 2 ^ 64) then
    match Virtio.write_block n buf s with
    | Some (ok, s') => (ok, s')
    | None => (false, s)
    end
  else (false, s).
Definition virtio_device : BlockDevice (Virtio D) := mkBlockDevice (Some virtio_read) (Some virtio_write).

Definition virtio_ok s : Prop := ∃ a n c, driver_ok s a n c.

#[refine] #[export] Instance virtio_spec : DeviceSpec virtio_device := {|
  dev_read := virtio_read;
  dev_write := virtio_write;
  dev_content s n := sectors (platform s) n;
  dev_ok := virtio_ok;
|}.
Proof.
  - done.
  - done.
  - intros s n _. apply sectors_ok.
  - intros n buf s ok buf' s' Hok Hb. unfold virtio_read. case_bool_decide as Hn; [|by intros [= <- <- <-]].
    destruct Hok as (a & k & c & Hok).
    destruct (wp_virtio_read s a k c n buf (λ r s', virtio_ok s' ∧ block_ok r.2 ∧
      (∀ m, sectors (platform s') m = sectors (platform s) m) ∧ (r.1 = true → r.2 = sectors (platform s) n))) as (r & s1 & -> & H); [done|done| |].
    + intros ok1 d Hsec _ Hok1. split; [by eexists _, _, _|]. split; [destruct ok1; [apply sectors_ok|done]|].
      split; [|cbn [fst snd]; by intros ->]. intros m. cbn [platform next_request set_last set_platform]. by rewrite Hsec.
    + destruct r as [ok1 l]; cbn [fst snd] in H. by intros [= <- <- <-].
  - intros n buf s ok s' Hok Hb. unfold virtio_write. case_bool_decide as Hn; [|by intros [= <- <-]].
    destruct Hok as (a & k & c & Hok).
    destruct (wp_virtio_write s a k c n buf (λ ok s', virtio_ok s' ∧
      (∀ m, m ≠ n → sectors (platform s') m = sectors (platform s) m) ∧ (ok = true → sectors (platform s') n = buf))) as (r & s1 & -> & H); [done|done|apply Hb| |].
    + intros ok1 d Hsec Hw _ Hok1. split; [by eexists _, _, _|]. done.
    + intros [= <- <-]. done.
Defined.

(** The good sectors within the reach of a [uint64_t] never fail. *)
#[refine] #[export] Instance virtio_reliable : ReliableDevice virtio_device := {|
  dev_blocks := Z.min good_sectors (2 ^ 64);
|}.
Proof.
  - intros n buf s ok buf' s' (a & k & c & Hok) Hn. cbn [dev_read virtio_spec]. unfold virtio_read. rewrite bool_decide_eq_true_2 by lia.
    destruct (wp_virtio_read s a k c n buf (λ r _, r.1 = true)) as ([ok1 l] & s1 & -> & H); [done|lia| |].
    + intros ok1 d _ Hg _. apply Hg. lia.
    + cbn [fst] in H. by intros [= <- _ _].
  - intros n buf s ok s' (a & k & c & Hok) Hb Hn. cbn [dev_write virtio_spec]. unfold virtio_write. rewrite bool_decide_eq_true_2 by lia.
    destruct (wp_virtio_write s a k c n buf (λ ok _, ok = true)) as (ok1 & s1 & -> & H); [done|lia|apply Hb| |by intros [= <- _]].
    intros ok1 d _ _ Hg _. apply Hg. lia.
Defined.
End device.


Definition virtio_failed : list Z := string_bytes "VirtIO block device initialization failed" ++ [10].
Definition cache_failed : list Z := string_bytes "BufferCache initialization failed" ++ [10].
Definition fs_failed : list Z := string_bytes "FileSystem initialization failed" ++ [10].

(** The message of a step that has failed. The [hlt] behind it waits for one
    interrupt, and [kernel_main] goes on. *)
Definition complain (ok : bool) (message : list Z) (con : Console) : Console :=
  if ok then con else console_write message con.

Section boot.
Context {D : Type} `{HP : Platform D} `{HS : Statics}.
Abbreviation Store := (Cache (Virtio D)).

Definition boot_storage (con : Console) (s : Store) (fs : Fs (StorePtr Store)) : option (bool * Fs (StorePtr Store)) :=
  '(ok, v) ← Virtio.initialize (Some mmu) (BufferCache.disk s);
  let con := complain ok virtio_failed con in
  '(ok, s) ← BufferCache.initialize virtio_device (BufferCache.set_disk v s);
  let con := complain ok cache_failed con in
  '(n, v) ← capacity (BufferCache.disk s);
  '(ok, fs) ← FileSystem.initialize n (Some (BufferCache.set_disk v s)) (Some con) fs;
  Some (ok : bool, set_console (complain ok fs_failed (console fs)) fs).

Context `{HL : !PlatformLaws D} `{HB : !BlockDeviceLaws D} `{HC : !ConfigSpace D} `{HR : !BlockDeviceRegisters}.

(** The cache does not notice that the driver has looked at the device. *)
Lemma fresh_set_disk (c : Store) v :
  fresh (dev := virtio_device) c → virtio_ok v → (∀ n, sectors (platform v) n = sectors (platform (BufferCache.disk c)) n) →
  fresh (dev := virtio_device) (BufferCache.set_disk v c) ∧ ∀ n, view (dev := virtio_device) (BufferCache.set_disk v c) n = view (dev := virtio_device) c n.
Proof.
  intros ([Hlru Hbuf Huniq Hclean Hdev _ Hinit] & Hcl & Hst) Hv Hsec. split; [split; [|done]|].
  - split; try done. intros n i b Hc Hr Hd. rewrite (Hclean n i b Hc Hr Hd). symmetry. apply Hsec.
  - intros n. unfold view. change (find_block (BufferCache.set_disk v c) n) with (find_block c n). destruct (find_block c n) as [[i b]|]; [done|]. apply Hsec.
Qed.

Abbreviation store_ok := (lending (dev := virtio_device) []).
Abbreviation store_view := (view (dev := virtio_device)).

(** The conditions for a boot: the device is there, with a queue of a size that the
    driver can use, and it does not fail. *)
Record bootable (v : Virtio D) : Prop := {
  bo_statics : statics_ok;
  bo_device : has_device (platform v);
  bo_memory : statics_present (platform v);
  bo_queue : queue_fits dev_queue_size ∧ 3 <= dev_queue_size;
  bo_contiguous : ∃ q, mmu virtqueue_memory = Some q ∧ contiguous 3 VIRTIO_PAGE_SIZE q mmu = true;
  bo_capacity : 27 + (dev_capacity + 4095) / 4096 < dev_capacity <= 4294967296 - 4096;
  bo_good : dev_capacity <= good_sectors;
}.

Lemma cache_boot v :
  bootable v → ∃ v' c, Virtio.initialize (Some mmu) v = Some (true, v') ∧
    BufferCache.initialize virtio_device (BufferCache.set_disk v' (initial_cache v)) = Some (true, c) ∧
    wp capacity (BufferCache.disk c) (λ n v2, n = dev_capacity ∧ store_ok (BufferCache.set_disk v2 c) ∧
      ∀ k, store_view (BufferCache.set_disk v2 c) k = sectors (platform v) k).
Proof.
  intros [Hst Hdev Hmem [Hf H3] (q & Hq & Hcont) _ _].
  destruct (wp_virtio_initialize v q (λ ok v', ok = true ∧ (∀ n, sectors (platform v') n = sectors (platform v) n) ∧
    io_base v' = dev_base ∧ ∃ a, driver_ok v' a dev_queue_size 0)) as (ok & v' & Hrun & -> & Hsec & Hbase & a & Hok); [done..| | |].
  { rewrite Hcont. by rewrite (proj2 size_accepted_fits Hf). }
  { intros _ s' Hsec Hd. split; [done|]. split; [done|]. by apply Hd. }
  destruct (BufferCacheOps.wp_initialize (dev := virtio_device) (BufferCache.set_disk v' (initial_cache v))) as (ok & c & Hinit & -> & Hfresh & Hdisk & Hview);
    [done|done|intros i b [-> _]%lookup_replicate_1; by apply filled_ok|by eexists _, _, _|].
  exists v', c. split; [done|]. split; [done|]. cbn [BufferCache.disk BufferCache.set_disk] in Hdisk. rewrite Hdisk.
  apply (wp_capacity v' a dev_queue_size 0); [done|done|]. intros d [_ Hkept] Hok'. split; [done|].
  destruct (fresh_set_disk c (set_platform d v') Hfresh) as [Hfresh' Hview']; [by eexists _, _, _|by rewrite Hdisk|].
  split; [by apply fresh_lending|]. intros k. rewrite Hview', Hview. apply Hsec.
Qed.

Lemma boot_run con v (fs : Fs (StorePtr Store)) v' c v2 fs' n :
  Virtio.initialize (Some mmu) (BufferCache.disk (initial_cache v)) = Some (true, v') →
  BufferCache.initialize virtio_device (BufferCache.set_disk v' (initial_cache v)) = Some (true, c) →
  capacity (BufferCache.disk c) = Some (n, v2) →
  FileSystem.initialize n (Some (BufferCache.set_disk v2 c)) (Some con) fs = Some (true, fs') →
  boot_storage con (initial_cache v) fs = Some (true, set_console (console fs') fs').
Proof.
  unfold boot_storage. generalize (Virtio.initialize (D := D) (Some mmu)) as f1.
  generalize (BufferCache.initialize virtio_device) as f2. generalize (capacity (D := D)) as f3.
  generalize (FileSystem.initialize (T := Store)) as f4. generalize (initial_cache v) as c0.
  intros c0 f4 f3 f2 f1 Hv Hc Hn Hfs. rewrite Hv. cbn [mbind option_bind complain].
  rewrite Hc. cbn [mbind option_bind complain]. rewrite Hn. cbn [mbind option_bind complain]. rewrite Hfs. reflexivity.
Qed.

(** C16: The storage part of [kernel_main], driver, cache and file system together:
    on a machine with a working disk it ends with a mounted file system and no
    message about a failure; a disk with the magic number is mounted as it is, every
    block as the device holds it; any other disk is formatted over its whole
    capacity. *)
Theorem boot_storage_correct con v (fs : Fs (StorePtr Store)) :
  bootable v →
  ∃ fs' store, boot_storage con (initial_cache v) fs = Some (true, fs') ∧ block_store fs' = inl store ∧ store_ok store ∧
    if decide (magic (bytes_superblock (sectors (platform v) 1)) = FS_MAGIC) then
      console fs' = con ∧ superblock fs' = bytes_superblock (sectors (platform v) 1) ∧
      (∀ b, 0 <= b < good_sectors `min` 2 ^ 64 → store_view store b = sectors (platform v) b)
    else
      console fs' = console_write not_formatted con ∧ superblock fs' = (format_superblock dev_capacity).1 ∧
      inode_table fs' = inode_table fs ∧ formatted (superblock fs') (store_view store).
Proof.
  intros Hb. destruct (cache_boot v Hb) as (v' & c & Hv & Hc & n & v2 & Hn & -> & Hok & Hview).
  pose proof (bo_capacity _ Hb). pose proof (bo_good _ Hb). pose proof capacity_range.
  destruct (wp_fs_initialize (BufferCache_spec (dev := virtio_device)) dev_capacity (BufferCache.set_disk v2 c) con fs) as (ok & fs' & Hfs & -> & store & Hs & Hok' & Hres);
    [done|cbn; lia|cbn; lia|done|].
  exists (set_console (console fs') fs'), store. split.
  { exact (boot_run con v fs v' c v2 fs' _ Hv Hc Hn Hfs). }
  cbn [bs_view BufferCache_spec] in Hres. rewrite Hview in Hres. split; [done|]. split; [done|].
  destruct (decide _); cbn [console superblock inode_table set_console].
  - destruct Hres as (? & ? & Hsame). split; [done|]. split; [done|]. intros b Hbr. rewrite Hsame by (cbn; lia). apply Hview.
  - destruct Hres as (R1 & R2 & R3 & _ & R4). exact (conj R1 (conj R2 (conj R3 R4))).
Qed.
End boot.
