(* ===== verification/VirtioSim.v ===== *)
(** * A simulated disk

    A machine with a virtio disk that follows the rings in its memory, as a concrete
    platform: it satisfies what the driver assumes of its device, and the properties
    of the driver can be run on it. *)
From stdpp Require Import gmap.
From S2P Require Import BlockStore BufferCache BufferCacheSpec BufferCacheOps FsLayout FileSystem FileSystemSpec FileSystemFormat.
From S2P Require Import Prelude Cpu Pci Virtio VirtioSpec VirtioOps VirtioInit.
From S2P Require Import VirtioProps Boot.

(** [sim_pending] counts the pauses until a request is served; [sim_index] counts
    the requests modulo 2^16; [sim_bus] is the register selected on the PCI bus and
    the number of reads so far. *)
Record Sim := mkSim {
  sim_ram : gmap Z Z; sim_disk : gmap Z (list Z); sim_status : Z; sim_page : option Z;
  sim_index : Z; sim_pending : option nat; sim_bus : Z * Z;
}.

Definition SIM_BASE : Z := 0xC000.
Definition SIM_QUEUE : Z := 8.
Definition SIM_SECTORS : Z := 1000.

Definition sim_set_ram v (d : Sim) := mkSim v (sim_disk d) (sim_status d) (sim_page d) (sim_index d) (sim_pending d) (sim_bus d).
Definition sim_set_page v (d : Sim) := mkSim (sim_ram d) (sim_disk d) (sim_status d) v (sim_index d) (sim_pending d) (sim_bus d).
Definition sim_set_status v (d : Sim) := mkSim (sim_ram d) (sim_disk d) v (sim_page d) (sim_index d) (sim_pending d) (sim_bus d).
Definition sim_set_pending v (d : Sim) := mkSim (sim_ram d) (sim_disk d) (sim_status d) (sim_page d) (sim_index d) v (sim_bus d).
Definition sim_set_bus v (d : Sim) := mkSim (sim_ram d) (sim_disk d) (sim_status d) (sim_page d) (sim_index d) (sim_pending d) v.
Definition sim_reset (d : Sim) := mkSim (sim_ram d) (sim_disk d) 0 None 0 None (sim_bus d).

(** The disk is the third device of the first bus. *)
Definition sim_config (a : Z) : Z :=
  if a =? config_address 0 3 0 0 then 0x10011AF4 else if a =? config_address 0 3 0 0x10 then 0xC001 else 0xFFFFFFFF.

#[export] Instance sim_ports : PortIO Sim := {|
  outb p v := modify (λ d, if p =? SIM_BASE + DEVICE_STATUS then if v =? 0 then sim_reset d else sim_set_status v d else d);
  inb p := gets (λ d, if p =? SIM_BASE + DEVICE_STATUS then sim_status d else 255);
  out16b p v := modify (λ d, if p =? SIM_BASE + QUEUE_NOTIFY then sim_set_pending (Some 2%nat) d else d);
  in16b p := gets (λ d, if p =? SIM_BASE + QUEUE_SIZE then SIM_QUEUE else 65535);
  out32b p v := modify (λ d, if p =? CONFIG_ADDRESS_PORT then sim_set_bus (v, snd (sim_bus d)) d
    else if p =? SIM_BASE + QUEUE_ADDRESS then sim_set_page (Some v) d else d);
  in32b p := if p =? CONFIG_DATA_PORT then
      _ ← modify (λ d, sim_set_bus (fst (sim_bus d), snd (sim_bus d) + 1) d); gets (λ d, sim_config (fst (sim_bus d)))
    else gets (λ d, if p =? SIM_BASE + CONFIG_CAPACITY_LOW then SIM_SECTORS else if p =? SIM_BASE + CONFIG_CAPACITY_HIGH then 0 else 0);
  io_wait := mret ();
|}.

(** ** Serving a request *)
Definition sim_ring (p : Z) : VRing := mkVRing SIM_QUEUE (p * 4096) (p * 4096 + 16 * SIM_QUEUE) (p * 4096 + used_offset SIM_QUEUE).

Definition zero_sector : list Z := replicate 512 0.
Definition is_sector (l : list Z) : Prop := length l = 512%nat ∧ bytes l.
#[export] Instance is_sector_dec l : Decision (is_sector l).
Proof. unfold is_sector. apply _. Defined.
Definition sim_sectors (d : Sim) (n : Z) : list Z :=
  match sim_disk d !! n with
  | Some l => if decide (is_sector l) then l else zero_sector
  | None => zero_sector
  end.

(** Address and successor of a descriptor. *)
Definition read_desc (m : gmap Z Z) (vr : VRing) (i : Z) : option (Z * Z) :=
  a ← read_int 8 (desc vr + 16 * i) m; n ← read_int 2 (desc vr + 16 * i + 14) m; Some (a, n).

(** Memory, disk and status after the transfer. *)
Definition transfer (d : Sim) (type sector buf : Z) (l : list Z) : gmap Z Z * gmap Z (list Z) * Z :=
  if (0 <=? sector) && (sector <? SIM_SECTORS) then
    if type =? BLK_T_IN then (write_ram buf (sim_sectors d sector) (sim_ram d), sim_disk d, 0)
    else if decide (is_sector l) then (sim_ram d, <[sector := l]> (sim_disk d), 0) else (sim_ram d, sim_disk d, 1)
  else (sim_ram d, sim_disk d, 1).

Definition complete (vr : VRing) (idx i0 st status : Z) (m : gmap Z Z) : gmap Z Z :=
  write_int 2 (used_idx vr) (u16 (idx + 1))
    (write_int 4 (used vr + 4 + 8 * (idx `mod` num vr)) i0 (write_int 4 (used vr + 8 + 8 * (idx `mod` num vr)) 513
      (write_int 1 st status m))).

Definition serve (d : Sim) : option Sim :=
  p ← sim_page d;
  let vr := sim_ring p in
  i0 ← read_int 2 (avail_ring vr (sim_index d `mod` num vr)) (sim_ram d);
  '(h, i1) ← read_desc (sim_ram d) vr i0;
  '(buf, i2) ← read_desc (sim_ram d) vr i1;
  '(st, _) ← read_desc (sim_ram d) vr i2;
  type ← read_int 4 h (sim_ram d);
  sector ← read_int 8 (h + 8) (sim_ram d);
  l ← read_ram 512 buf (sim_ram d);
  let '(m, dk, status) := transfer d type sector buf l in
  Some (mkSim (complete vr (sim_index d) i0 st status m) dk (sim_status d) (sim_page d) (u16 (sim_index d + 1)) None (sim_bus d)).

Definition sim_pause (d : Sim) : Sim :=
  match sim_pending d with
  | None => d
  | Some (S k) => sim_set_pending (Some k) d
  | Some O => default (sim_set_pending None d) (serve (sim_set_pending None d))
  end.

#[export] Instance sim_platform : Platform Sim := {|
  ram := sim_ram; set_ram := sim_set_ram; pause := modify sim_pause; horizon _ := 3%nat;
|}.
#[export] Instance sim_platform_laws : PlatformLaws Sim.
Proof. split; [done|done|]. intros []. done. Qed.

(** ** The laws of the device *)
Definition sim_live (d : Sim) (base : Z) (vr : VRing) (c : Z) : Prop :=
  base = SIM_BASE ∧ sim_status d = 7 ∧ (∃ p, sim_page d = Some p ∧ vr = sim_ring p) ∧ sim_index d = c ∧ 0 <= c < 65536 ∧ sim_pending d = None.
Definition sim_busy (k : nat) (base : Z) (rq : Request) (d0 d : Sim) : Prop :=
  sim_live d0 base (rq_ring rq) (rq_index rq) ∧ posted (sim_ram d0) rq ∧ d = sim_set_pending (Some k) d0.

Lemma sim_sectors_ok d n : length (sim_sectors d n) = 512%nat ∧ bytes (sim_sectors d n).
Proof.
  assert (is_sector zero_sector) as Hz by (split; [done|by apply Forall_replicate]).
  unfold sim_sectors. destruct (sim_disk d !! n); [|exact Hz]. case_decide; [done|exact Hz].
Qed.

(** A posted request is found in the ring. *)
Lemma serve_posted d rq base :
  sim_live d base (rq_ring rq) (rq_index rq) → posted (sim_ram d) rq → ∃ i0 l,
    read_ram 512 (rq_buffer rq) (sim_ram d) = Some l ∧
    let '(m, dk, status) := transfer d (rq_type rq) (rq_sector rq) (rq_buffer rq) l in
    serve d = Some (mkSim (complete (rq_ring rq) (rq_index rq) i0 (rq_status rq) status m) dk (sim_status d) (sim_page d)
      (u16 (rq_index rq + 1)) None (sim_bus d)).
Proof.
  intros (_ & _ & (p & Hp & Hr) & Hi & _ & _) [_ _ (i0 & i1 & i2 & f2 & _ & _ & _ & Hav & D0 & D1 & D2) [Hty _] Hsec _ _ (Hpb & _ & _)].
  destruct (read_present 512 _ _ Hpb) as (l & Hl & _). exists i0, l. split; [done|].
  unfold serve. rewrite Hp, Hi. cbn [mbind option_bind]. cbn zeta. rewrite <- Hr, Hav. cbn [mbind option_bind].
  unfold read_desc. destruct D0 as (-> & _ & _ & ->). cbn [mbind option_bind].
  destruct D1 as (-> & _ & _ & ->). cbn [mbind option_bind]. destruct D2 as (-> & _ & _ & ->). cbn [mbind option_bind].
  rewrite Hty, Hsec, Hl. cbn [mbind option_bind]. by destruct (transfer _ _ _ _ _) as [[m dk] status].
Qed.

(** What the completion leaves alone. *)
Lemma complete_out vr idx i0 st status m x :
  0 < num vr → 0 <= idx → ¬ (used vr <= x < used vr + 6 + 8 * num vr) → x ≠ st → complete vr idx i0 st status m !! x = m !! x.
Proof.
  intros Hn Hi Hx Hst. assert (0 <= idx `mod` num vr < num vr) as Hj by (by apply Z.mod_pos_bound). unfold complete, write_int, used_idx.
  remember (idx `mod` num vr) as j eqn:Ej. clear Ej. rewrite !lookup_write_out by (rewrite length_le_bytes; lia). done.
Qed.

Lemma complete_used vr idx i0 st status m : read_int 2 (used_idx vr) (complete vr idx i0 st status m) = Some (u16 (idx + 1)).
Proof. apply read_int_eq. pose proof (u16_range (idx + 1)). change (256 ^ Z.of_nat 2) with 65536. lia. Qed.

Lemma complete_status vr idx i0 st status m :
  0 < num vr → 0 <= idx → disjoint_areas (used vr) (6 + 8 * num vr) st 1 → 0 <= status < 256 →
  read_int 1 st (complete vr idx i0 st status m) = Some status.
Proof.
  intros Hn Hi Hd Hs. assert (0 <= idx `mod` num vr < num vr) as Hj by (by apply Z.mod_pos_bound). unfold complete, used_idx, disjoint_areas in *.
  remember (idx `mod` num vr) as j eqn:Ej. clear Ej. rewrite !read_int_out by lia. rewrite read_int_eq; [done|]. change (256 ^ Z.of_nat 1) with 256. lia.
Qed.

Lemma complete_present vr idx i0 st status m x : is_Some (m !! x) → is_Some (complete vr idx i0 st status m !! x).
Proof. intros Hx. unfold complete, write_int. by repeat apply write_present. Qed.

(** A transfer touches one sector or the buffer. *)
Lemma transfer_spec d rq l m dk status :
  transfer d (rq_type rq) (rq_sector rq) (rq_buffer rq) l = (m, dk, status) → rq_type rq = BLK_T_IN ∨ rq_type rq = BLK_T_OUT →
  length l = 512%nat → (rq_type rq = BLK_T_OUT → bytes l) → ∀ ix pg pn lt ss,
  let d' := mkSim m dk ss pg ix pn lt in
  (∀ x, ¬ (rq_type rq = BLK_T_IN ∧ rq_buffer rq <= x < rq_buffer rq + 512) → m !! x = sim_ram d !! x) ∧
  (∀ x, is_Some (sim_ram d !! x) → is_Some (m !! x)) ∧ (status = 0 ∨ status = 1) ∧ (0 <= rq_sector rq < SIM_SECTORS → status = 0) ∧
  if rq_type rq =? BLK_T_IN then sim_sectors d' = sim_sectors d ∧ (status = OK → read_ram 512 (rq_buffer rq) m = Some (sim_sectors d (rq_sector rq)))
  else (∀ n, n ≠ rq_sector rq → sim_sectors d' n = sim_sectors d n) ∧ (status = OK → l = sim_sectors d' (rq_sector rq)).
Proof.
  intros Ht Hty Hlen Hby ix pg pn lt ss d'. unfold transfer in Ht. pose proof (sim_sectors_ok d (rq_sector rq)) as [Hsl _].
  destruct ((0 <=? rq_sector rq) && (rq_sector rq <? SIM_SECTORS)) eqn:Eg.
  - destruct Hty as [Hty|Hty]; rewrite Hty in *.
    + change (BLK_T_IN =? BLK_T_IN) with true in *. injection Ht as <- <- <-. split_and!; try done; [| |by left|].
      * intros x Hx. apply lookup_write_out. rewrite Hsl. lia.
      * intros x Hx. by apply write_present.
      * intros _. rewrite <- Hsl at 1. apply read_write_same.
    + change (BLK_T_OUT =? BLK_T_IN) with false in *. rewrite decide_True in Ht by (split; auto). injection Ht as <- <- <-.
      split_and!; try done; [by left| |].
      * intros n Hn. unfold sim_sectors. cbn [sim_disk d']. by rewrite lookup_insert_ne.
      * intros _. unfold sim_sectors. cbn [sim_disk d']. rewrite lookup_insert_eq, decide_True; [done|split; auto].
  - injection Ht as <- <- <-. split_and!; try done; [by right|lia|]. destruct (rq_type rq =? BLK_T_IN); split; done.
Qed.

Lemma sim_pause_done base rq d0 d : sim_busy 0 base rq d0 d → let d' := sim_pause d in
  sim_live d' base (rq_ring rq) (u16 (rq_index rq + 1)) ∧ read_int 2 (used_idx (rq_ring rq)) (sim_ram d') = Some (u16 (rq_index rq + 1)) ∧
  (∀ x, ¬ device_writes rq x → sim_ram d' !! x = sim_ram d0 !! x) ∧ (∀ x, is_Some (sim_ram d0 !! x) → is_Some (sim_ram d' !! x)) ∧
  ∃ st, read_int 1 (rq_status rq) (sim_ram d') = Some st ∧ (0 <= rq_sector rq < SIM_SECTORS → st = OK) ∧
    if rq_type rq =? BLK_T_IN then sim_sectors d' = sim_sectors d0 ∧ (st = OK → read_ram 512 (rq_buffer rq) (sim_ram d') = Some (sim_sectors d0 (rq_sector rq)))
    else (∀ n, n ≠ rq_sector rq → sim_sectors d' n = sim_sectors d0 n) ∧ (st = OK → read_ram 512 (rq_buffer rq) (sim_ram d0) = Some (sim_sectors d' (rq_sector rq))).
Proof.
  intros (Hlive & Hpost & ->). cbn zeta. unfold sim_pause. cbn [sim_pending sim_set_pending].
  change (sim_set_pending None _) with (sim_set_pending None d0).
  replace (sim_set_pending None d0) with d0 by (destruct Hlive as (_ & _ & _ & _ & _ & E); destruct d0; cbn in *; by subst).
  destruct (serve_posted d0 rq base Hlive Hpost) as (i0 & l & Hl & Hs).
  destruct (transfer d0 (rq_type rq) (rq_sector rq) (rq_buffer rq) l) as [[m dk] status] eqn:Et. rewrite Hs. cbn [from_option id sim_ram].
  destruct Hpost as [_ Hus _ [_ Hty] _ (A1 & A2 & A3) Hby _]. destruct Hlive as (Hb & H7 & Hp & Hi & Hc & _).
  assert (num (rq_ring rq) = 8) as Hnum by (destruct Hp as (p & _ & ->); done).
  pose proof (read_length _ _ _ _ Hl) as Hlen.
  destruct (transfer_spec d0 rq l m dk status Et Hty Hlen (λ H, Hby l H Hl) (u16 (rq_index rq + 1)) (sim_page d0) None (sim_bus d0) (sim_status d0)) as (T1 & T2 & T3 & T4 & T5).
  split_and!.
  - split; [done|]. split; [done|]. split; [done|]. split; [done|]. split; [apply u16_range|done].
  - apply complete_used.
  - intros x Hx. unfold device_writes in Hx. rewrite complete_out by (try lia; rewrite Hnum in *; lia). apply T1. tauto.
  - intros x Hx. by apply complete_present, T2.
  - exists status. split; [apply complete_status; [lia|lia|done|lia]|]. split; [exact T4|].
    destruct (rq_type rq =? BLK_T_IN); [|by rewrite Hl; destruct T5 as [T5 T6]; split; [exact T5|intros ->%T6]].
    destruct T5 as [T5 T6]. split; [exact T5|]. intros Hst. rewrite <- T6 by done. apply read_same.
    intros x Hx. unfold disjoint_areas in *. apply complete_out; rewrite ?Hnum in *; lia.
Qed.

#[export] Instance sim_block_laws : BlockDeviceLaws Sim.
Proof.
  refine {| live := sim_live; busy := sim_busy; sectors := sim_sectors; good_sectors := SIM_SECTORS |}.
  - exact sim_sectors_ok.
  - done.
  - done.
  - intros d base rq Hlive Hpost. destruct Hlive as (-> & Hlive). cbn -[sim_set_pending]. wp_step.
    change (_ =? _) with true. cbn beta iota. split; [done|]. exists 2%nat. split; [cbn; lia|]. split; [by split|]. by split.
  - intros k base rq d0 d Hb. apply wp_modify. destruct k as [|k]; [exact (sim_pause_done base rq d0 d Hb)|].
    destruct Hb as (Hlive & Hpost & ->). split; [|apply Hpost]. split; [done|]. by split.
Defined.

(** ** The bus and the registers *)
Definition sim_same (d d' : Sim) : Prop := d' = sim_set_bus (sim_bus d') d.
#[export] Instance sim_config_space : ConfigSpace Sim.
Proof.
  refine {| selected d := fst (sim_bus d); config _ a := sim_config a; reads d := snd (sim_bus d); pci_same := sim_same |}.
  - split; unfold sim_same.
    + by intros [].
    + intros d d' ->. by destruct d.
    + intros d1 d2 d3 -> ->. by destruct d1.
  - done.
  - intros _ a. unfold sim_config. repeat case_match; lia.
  - intros d a. apply wp_modify. change (CONFIG_ADDRESS_PORT =? CONFIG_ADDRESS_PORT) with true. done.
  - intros d. cbn. wp_step. apply wp_modify. apply wp_gets. done.
Defined.

Definition sim_setup (d : Sim) (st : Z) (pg : option Z) : Prop :=
  sim_status d = st ∧ sim_page d = pg ∧ sim_index d = 0 ∧ sim_pending d = None.

#[export] Instance sim_registers : BlockDeviceRegisters (D := Sim).
Proof.
  refine {| dev_base := SIM_BASE; dev_queue_size := SIM_QUEUE; setup := sim_setup; dev_capacity := SIM_SECTORS |}.
  all: try (unfold SIM_BASE, SIM_SECTORS, SIM_QUEUE; lia).
  - intros d d' ->. by split.
  - intros d v. by apply wp_modify.
  - done.
  - intros d. by apply wp_modify.
  - intros d st pg Hs. apply wp_gets. split; [apply Hs|done].
  - intros d st pg v (H1 & H2 & H3 & H4) Hv. apply wp_modify. change (_ =? SIM_BASE + DEVICE_STATUS) with true. cbn beta iota.
    replace (v =? 0) with false by lia. done.
  - intros d st pg Hs. by apply wp_gets.
  - intros d st pg Hs. by apply wp_modify.
  - intros d st pg Hs. by apply wp_modify.
  - intros d st pg Hs. by apply wp_gets.
  - intros d st pg p (H1 & H2 & H3 & H4). by apply wp_modify.
  - intros d vr c Hl. by apply wp_gets.
  - intros d vr c Hl. by apply wp_gets.
  - intros d p (H1 & H2 & H3 & H4). split; [done|]. split; [done|]. split; [by exists p|]. done.
Defined.

(** ** The memory of the kernel *)
#[export] Instance sim_statics : Statics := {|
  virtqueue_memory := 0x10000; request_header := 0x20000; data_buffer := 0x20200; status_byte := 0x20400;
  mmu va := if (0x10000 <=? va) && (va <? 0x21000) then Some (va + 0x100000) else None;
|}.

Lemma sim_mmu va pa : mmu va = Some pa ↔ 0x10000 <= va < 0x21000 ∧ pa = va + 0x100000.
Proof. cbn. destruct ((0x10000 <=? va) && (va <? 0x21000)) eqn:E; split; [intros [= <-]|intros [_ ->]|done|intros [? _]]; try done; lia. Qed.

Lemma sim_statics_ok : statics_ok.
Proof.
  split; unfold disjoint_areas, sizeof_virtqueue_memory; cbn [virtqueue_memory request_header data_buffer status_byte sim_statics]; try lia.
  - intros va Hva. exists (va + 0x100000). rewrite sim_mmu. lia.
  - intros va pa i [Hr ->]%sim_mmu Hi Hp. rewrite sim_mmu. lia.
  - intros va pa [Hr ->]%sim_mmu. lia.
  - intros va va' pa [_ ->]%sim_mmu [_ H]%sim_mmu. lia.
Qed.

Lemma write_ram_here l pa m x : pa <= x < pa + Z.of_nat (length l) → is_Some (write_ram pa l m !! x).
Proof.
  revert pa m. induction l as [|b l IH]; intros pa m Hx; cbn [length write_ram] in *; [lia|].
  destruct (decide (x = pa)) as [->|]; [|apply IH; lia]. rewrite lookup_write_out, lookup_insert_eq by lia. by eexists.
Qed.

(** A machine that has just been switched on. *)
Definition sim_memory : gmap Z Z := write_ram 0x110000 (replicate (Z.to_nat 0x11000) 0) ∅.
Definition sim_on (dk : gmap Z (list Z)) : Sim := mkSim sim_memory dk 0 None 0 None (0, 0).
Definition virtio_off (d : Sim) : Virtio Sim := mkVirtio 0 (mkVRing 0 0 0 0) false None None None 0 d.

Lemma sim_present dk : statics_present (sim_on dk).
Proof.
  intros va pa [Hr ->]%sim_mmu _. change (ram (sim_on dk)) with sim_memory. unfold sim_memory. apply write_ram_here.
  rewrite length_replicate, Z2Nat.id by lia. lia.
Qed.

Lemma sim_device dk : has_device (sim_on dk).
Proof.
  exists 24. split; [lia|]. split; [vm_compute; done|]. split; [|vm_compute; done].
  intros j Hj Hhit. assert (Forall (λ j, ¬ hit (sim_on dk) VIRTIO_VENDOR_ID VIRTIO_BLK_DEVICE_ID j) (seqZ 0 24)) as Hall.
  { repeat (apply Forall_cons; split; [by vm_compute|]). done. }
  rewrite Forall_forall in Hall. apply (Hall j); [apply elem_of_seqZ; lia|done].
Qed.

Lemma sim_contiguous : mmu virtqueue_memory = Some 0x110000 ∧ contiguous 3 VIRTIO_PAGE_SIZE 0x110000 mmu = true.
Proof. split; by vm_compute. Qed.
Lemma sim_queue_fits : queue_fits SIM_QUEUE.
Proof. split; [done|split; [done|by vm_compute]]. Qed.
Lemma sim_size_accepted : size_accepted (D := Sim) = true.
Proof. by vm_compute. Qed.

(** * The driver on the simulated disk *)

Abbreviation off := (virtio_off (sim_on ∅)).

Lemma virtio_initialize_correct_witness :
  wp (Virtio.initialize (Some mmu)) off (λ ok s, ok = true ∧ ∃ a, driver_ok s a SIM_QUEUE 0).
Proof.
  eapply wp_mono; [apply (virtio_initialize_correct off 0x110000 sim_statics_ok (sim_device ∅) (sim_present ∅) (proj1 sim_contiguous))|].
  intros ok s [-> H]. rewrite sim_size_accepted, (proj2 sim_contiguous) in *. split; [reflexivity|].
  apply H. discriminate.
Defined.

(** The driver after a successful start. *)
Lemma sim_started : ∃ s a, Virtio.initialize (Some mmu) off = Some (true, s) ∧ driver_ok s a SIM_QUEUE 0.
Proof.
  destruct (wp_virtio_initialize off 0x110000 (λ ok s, ok = true ∧ ∃ a, driver_ok s a SIM_QUEUE 0)) as (ok & s & Hrun & -> & a & Hok);
    [exact sim_statics_ok|exact (sim_device ∅)|exact (sim_present ∅)|exact (proj1 sim_contiguous)| | |exists s, a; exact (conj Hrun Hok)].
  - rewrite sim_size_accepted, (proj2 sim_contiguous). done.
  - intros _ s _ Hok. split; [done|]. apply Hok. discriminate.
Qed.

Definition two_requests : list Req := [WriteReq 3 (replicate 512 7); ReadReq 3 (replicate 512 0)].

Lemma two_requests_ok : Forall req_ok two_requests.
Proof.
  unfold two_requests. apply Forall_cons. split; [|apply Forall_cons; split; [|apply Forall_nil; exact I]]; unfold req_ok; [|lia].
  split; [lia|]. split; [by rewrite length_replicate|]. by apply Forall_replicate.
Qed.

Lemma requests_correct_witness :
  ∃ s a, Virtio.initialize (Some mmu) off = Some (true, s) ∧
    wp (perform_all two_requests) s (λ ans s', disk_steps (VirtioProps.disk s) two_requests ans (VirtioProps.disk s') ∧ driver_ok s' a SIM_QUEUE (u16 (0 + Z.of_nat (length two_requests)))).
Proof.
  destruct sim_started as (s & a & Hrun & Hok). exists s, a. split; [exact Hrun|].
  apply (requests_correct two_requests s a SIM_QUEUE 0 Hok).
  exact two_requests_ok.
Defined.

Lemma not_ready_refused_witness :
  Virtio.read_block 5 (replicate 512 1) off = Some ((false, replicate 512 1), off) ∧ capacity off = Some (0, off).
Proof. apply (not_ready_refused off 5 (replicate 512 1)). reflexivity. Defined.

Lemma ring_in_memory_witness :
  let vr := vring_init 256 0x10000 VIRTIO_PAGE_SIZE in
  desc vr = 0x10000 ∧ desc vr + 16 * 256 <= avail vr ∧ avail_idx vr + 2 <= avail_ring vr (65535 `mod` 256) ∧
  avail_ring vr (65535 `mod` 256) + 2 <= used vr ∧ used vr `mod` 4096 = 0 ∧ used_idx vr + 2 + 8 * 256 <= 0x10000 + sizeof_virtqueue_memory.
Proof.
  apply (ring_in_memory 256 0x10000 65535).
  - split; [lia|split; [reflexivity|vm_compute; discriminate]].
  - lia.
  - unfold sizeof_virtqueue_memory. lia.
  - reflexivity.
  - lia.
Defined.

Lemma sim_bootable : bootable off.
Proof.
  split; [exact sim_statics_ok|exact (sim_device ∅)|exact (sim_present ∅)|split; [exact sim_queue_fits|discriminate]| |split; [reflexivity|discriminate]|discriminate].
  exists 0x110000. exact sim_contiguous.
Qed.

Definition no_fs : Fs (StorePtr (Cache (Virtio Sim))) := initial_fs (inr NullBlockStore_instance).

Lemma boot_storage_correct_witness :
  ∃ fs (store : Cache (Virtio Sim)), boot_storage (LogConsole []) (initial_cache off) no_fs = Some (true, fs) ∧ block_store fs = inl store.
Proof.
  destruct (boot_storage_correct (LogConsole []) off no_fs sim_bootable) as (fs & store & H & Hs & _).
  exists fs, store. exact (conj H Hs).
Defined.
