(* ===== verification/Serial.v ===== *)
(** * The serial port (include/serial.hpp, include/serial.cpp)

    Output over COM1 with polling, and what arrives at the other end. *)
From S2P Require Import Prelude Cpu.

Definition PORT : Z := 0x3F8.

(** After [uart_horizon] looks at its status register the transmitter is empty. *)
Class Uart (D : Type) `{PortIO D} := { uart_horizon : D → nat }.

Section Serial.
Context {D : Type} `{HP : PortIO D} `{HU : !Uart D}.

(** The constructor. *)
Definition serial_construct : M D () :=
  _ ← outb (PORT + 1) 0x00;
  _ ← outb (PORT + 3) 0x80;
  _ ← outb (PORT + 0) 0x03;
  _ ← outb (PORT + 1) 0x00;
  _ ← outb (PORT + 3) 0x03;
  _ ← outb (PORT + 2) 0xC7;
  outb (PORT + 4) 0x0B.

Definition tx_ready : M D bool :=
  v ← inb (PORT + 5);
  mret (negb (Z.land v 0x20 =? 0)).

(** [while (!tx_ready())] *)
Fixpoint wait_tx (fuel : nat) : M D () :=
  match fuel with
  | O => stuck
  | S fuel => r ← tx_ready; if (r : bool) then mret () else wait_tx fuel
  end.

Definition serial_put (c : Z) : M D () :=
  _ ← (if c =? 10 then
         d ← get;
         _ ← wait_tx (uart_horizon d);
         outb PORT 13
       else mret ());
  d ← get;
  _ ← wait_tx (uart_horizon d);
  outb PORT (u8 c).

(** The loop over the characters. *)
Fixpoint serial_write (s : list Z) : M D () :=
  match s with
  | [] => mret ()
  | c :: s => _ ← serial_put c; serial_write s
  end.

(** ** The UART

    The registers behind the seven ports; bytes leave one after the other. The
    divisor of the baud rate is behind the first two ports while bit 7 of the line
    control register is set. *)
Class UartSpec := {
  divisor : D → Z;
  line_control : D → Z;
  sent : D → list Z;
  uart_ready : nat → D → Prop;
  uart_same (d d' : D) : Prop := sent d' = sent d ∧ divisor d' = divisor d ∧ line_control d' = line_control d;
  polled d : 0 < divisor d → ∃ k, (k < uart_horizon d)%nat ∧ uart_ready k d;
  poll_spec k d : uart_ready k d → wp (inb (PORT + 5)) d (λ v d',
    uart_same d d' ∧ match k with O => Z.testbit v 5 = true ∧ uart_ready 0 d' | S k => Z.testbit v 5 = false ∧ uart_ready k d' end);
  send_spec d b : uart_ready 0 d → 0 < divisor d → Z.testbit (line_control d) 7 = false → 0 <= b < 256 → wp (outb PORT b) d (λ _ d',
    sent d' = sent d ++ [b] ∧ divisor d' = divisor d ∧ line_control d' = line_control d);
  line_spec d v : wp (outb (PORT + 3) v) d (λ _ d', sent d' = sent d ∧ divisor d' = divisor d ∧ line_control d' = v);
  low_spec d v : Z.testbit (line_control d) 7 = true → 0 <= v < 256 → wp (outb PORT v) d (λ _ d',
    sent d' = sent d ∧ divisor d' = divisor d / 256 * 256 + v ∧ line_control d' = line_control d);
  high_spec d v : Z.testbit (line_control d) 7 = true → 0 <= v < 256 → wp (outb (PORT + 1) v) d (λ _ d',
    sent d' = sent d ∧ divisor d' = v * 256 + divisor d `mod` 256 ∧ line_control d' = line_control d);
  interrupts_spec d v : Z.testbit (line_control d) 7 = false → wp (outb (PORT + 1) v) d (λ _ d', uart_same d d');
  fifo_spec d v : wp (outb (PORT + 2) v) d (λ _ d', uart_same d d');
  modem_spec d v : wp (outb (PORT + 4) v) d (λ _ d', uart_same d d');
}.
Context `{HS : !UartSpec}.

(** Ready to send characters. *)
Definition serial_ok (d : D) : Prop := 0 < divisor d ∧ Z.testbit (line_control d) 7 = false.

Lemma uart_same_trans d1 d2 d3 : uart_same d1 d2 → uart_same d2 d3 → uart_same d1 d3.
Proof. intros (A & B & C) (A' & B' & C'). split; [by rewrite A'|]. split; [by rewrite B'|by rewrite C']. Qed.

Lemma wp_wait_tx fuel k d (Q : () → D → Prop) :
  uart_ready k d → (k < fuel)%nat → (∀ d', uart_same d d' → uart_ready 0 d' → Q () d') → wp (wait_tx fuel) d Q.
Proof.
  revert k d. induction fuel as [|fuel IH]; intros k d Hr Hk HQ; [lia|]. cbn [wait_tx]. wp_step. unfold tx_ready. wp_step.
  eapply wp_mono; [by apply (poll_spec k)|]. intros v d1 [Hs Hv]. wp_step.
  assert (Z.land v 32 = if Z.testbit v 5 then 32 else 0) as ->.
  { change 32 with (2 ^ 5). apply Z.bits_inj'. intros n Hn. rewrite Z.land_spec, Z.pow2_bits_eqb by lia.
    destruct (decide (n = 5)) as [->|]; [|replace (5 =? n) with false by lia; rewrite andb_false_r; destruct (Z.testbit v 5);
      [rewrite Z.pow2_bits_false by lia|rewrite Z.bits_0]; done].
    rewrite andb_true_r. by destruct (Z.testbit v 5). }
  destruct k as [|k]; destruct Hv as [-> Hv]; cbn [Z.eqb negb].
  - wp_step. by apply HQ.
  - apply (IH k); [done|lia|]. intros d2 Hs2. apply HQ. by apply (uart_same_trans d d1).
Qed.

(** What a character is on the line. *)
Definition on_line (c : Z) : list Z := if c =? 10 then [13; 10] else [c].

Lemma wp_send b d (Q : () → D → Prop) :
  serial_ok d → 0 <= b < 256 → (∀ d', serial_ok d' → sent d' = sent d ++ [b] → divisor d' = divisor d → Q () d') →
  wp (d ← get; _ ← wait_tx (uart_horizon d); outb PORT b) d Q.
Proof.
  intros [Hok Hl] Hb HQ. do 2 wp_step. destruct (polled d Hok) as (k & Hk & Hr). wp_step. apply (wp_wait_tx _ k); [done|done|].
  intros d1 (E1 & E2 & E3) Hr1. eapply wp_mono; [apply send_spec; [done|by rewrite E2|by rewrite E3|done]|].
  intros [] d2 (F1 & F2 & F3). apply HQ; [split; [by rewrite F2, E2|by rewrite F3, E3]|by rewrite F1, E1|by rewrite F2].
Qed.

Lemma wp_serial_put c d (Q : () → D → Prop) :
  serial_ok d → 0 <= c < 256 → (∀ d', serial_ok d' → sent d' = sent d ++ on_line c → Q () d') → wp (serial_put c) d Q.
Proof.
  intros Hok Hc HQ. unfold serial_put, on_line in *. rewrite u8_small by done. destruct (c =? 10) eqn:E; wp_step.
  - apply wp_send; [done|lia|]. intros d1 Hok1 H1 _. apply wp_send; [done|done|]. intros d2 Hok2 H2 _.
    apply HQ; [done|]. rewrite H2, H1, <- app_assoc. cbn. by replace c with 10 by lia.
  - wp_step. apply wp_send; [done|done|]. auto.
Qed.

Lemma wp_serial_write s d (Q : () → D → Prop) :
  serial_ok d → bytes s → (∀ d', serial_ok d' → sent d' = sent d ++ mjoin (on_line <$> s) → Q () d') → wp (serial_write s) d Q.
Proof.
  revert d. induction s as [|c s IH]; intros d Hok Hs HQ; cbn [serial_write].
  - wp_step. apply HQ; [done|]. cbn. by rewrite app_nil_r.
  - apply Forall_cons in Hs as [Hc Hs]. wp_step. apply wp_serial_put; [done|done|]. intros d1 Hok1 H1.
    apply IH; [done|done|]. intros d2 Hok2 H2. apply HQ; [done|]. rewrite H2, H1, <- app_assoc. done.
Qed.

(** The constructor sets 38400 baud (a divisor of 3), eight bits, no parity, one stop
    bit, whatever the state of the port was, and sends nothing. *)
Lemma wp_serial_construct d (Q : () → D → Prop) :
  (∀ d', serial_ok d' → sent d' = sent d → divisor d' = 3 → line_control d' = 3 → Q () d') → wp serial_construct d Q.
Proof.
  intros HQ. unfold serial_construct. replace (PORT + 0) with PORT by lia. wp_step.
  assert (wp (outb (PORT + 1) 0) d (λ _ d', sent d' = sent d)) as H1.
  { destruct (Z.testbit (line_control d) 7) eqn:E0; (eapply wp_mono; [first [by apply high_spec | by apply interrupts_spec]|]); by intros [] d' (? & _). }
  eapply wp_mono; [exact H1|]. clear H1. intros [] d1 S1. wp_step. eapply wp_mono; [apply line_spec|]. intros [] d2 (S2 & _ & L2).
  wp_step. eapply wp_mono; [apply low_spec; [by rewrite L2|done]|]. intros [] d3 (S3 & V3 & L3).
  wp_step. eapply wp_mono; [apply high_spec; [by rewrite L3, L2|done]|]. intros [] d4 (S4 & V4 & L4).
  wp_step. eapply wp_mono; [apply line_spec|]. intros [] d5 (S5 & V5 & L5).
  wp_step. eapply wp_mono; [apply fifo_spec|]. intros [] d6 (S6 & V6 & L6).
  eapply wp_mono; [apply modem_spec|]. intros [] d7 (S7 & V7 & L7).
  assert (divisor d7 = 3) as HV by (rewrite V7, V6, V5, V4, V3; lia). assert (line_control d7 = 3) as HL by (by rewrite L7, L6).
  apply HQ; [split; [lia|by rewrite HL]|congruence|done|done].
Qed.
End Serial.
