(* ===== verification/Vga.v ===== *)
(** * The text screen (include/vga.hpp, include/vga.cpp)

    The screen memory of 80 by 25 cells with the position of the next character, the
    hardware cursor behind two ports, and the copy of all output on the serial port. *)
From S2P Require Import Prelude Cpu Console Serial.

Definition WIDTH : Z := 80.
Definition HEIGHT : Z := 25.

Definition decide_colorcode_vga (color : Color) : Z :=
  match color with
  | Black => 0 | Blue => 1 | Green => 2 | Cyan => 3 | Red => 4 | Magenta => 5 | Brown => 6 | LightGrey => 7
  | DarkGrey => 8 | LightBlue => 9 | LightGreen => 10 | LightCyan => 11 | LightRed => 12 | LightMagenta => 13
  | Yellow => 14 | White => 15
  end.

Definition make_attr (foreground background : Color) : Z :=
  u8 (Z.lor (Z.shiftl (decide_colorcode_vga background) 4) (Z.land (decide_colorcode_vga foreground) 0x0F)).
Definition make_entry (c attr : Z) : Z := u16 (Z.lor (u8 c) (Z.shiftl attr 8)).

(** [cells] is the memory at 0xB8000; [mirror] whether [serial::serial] is set. *)
Record VGA (D : Type) := mkVGA {
  attr_ : Z;
  cells : list Z;
  row_ : Z;
  col_ : Z;
  mirror : bool;
  io : D;
}.
Arguments mkVGA {D}. Arguments attr_ {D}. Arguments cells {D}. Arguments row_ {D}. Arguments col_ {D}. Arguments mirror {D}. Arguments io {D}.

Section VGA.
Context {D : Type} `{HP : PortIO D} `{HU : !Uart D}.

Definition set_attr v (s : VGA D) := mkVGA v (cells s) (row_ s) (col_ s) (mirror s) (io s).
Definition set_cells v (s : VGA D) := mkVGA (attr_ s) v (row_ s) (col_ s) (mirror s) (io s).
Definition set_row v (s : VGA D) := mkVGA (attr_ s) (cells s) v (col_ s) (mirror s) (io s).
Definition set_col v (s : VGA D) := mkVGA (attr_ s) (cells s) (row_ s) v (mirror s) (io s).
Definition set_io (v : D) (s : VGA D) := mkVGA (attr_ s) (cells s) (row_ s) (col_ s) (mirror s) v.
Definition ports {A} (m : M D A) : M (VGA D) A := zoom io set_io m.

(** [b[i]]; outside of the screen memory the model is stuck. *)
Definition cell (i : Z) : M (VGA D) Z := s ← get; defined (cells s !! Z.to_nat i).
Definition set_cell (i v : Z) : M (VGA D) () :=
  s ← get;
  if (0 <=? i) && (i <? Z.of_nat (length (cells s))) then put (set_cells (<[Z.to_nat i := v]> (cells s)) s) else stuck.

Definition move_cursor : M (VGA D) () :=
  s ← get;
  let pos := u16 (row_ s * WIDTH + col_ s) in
  _ ← ports (out32b 0x3D4 0x0F);
  _ ← ports (out32b 0x3D5 (u8 (Z.land pos 0xFF)));
  _ ← ports (out32b 0x3D4 0x0E);
  ports (out32b 0x3D5 (u8 (Z.shiftr pos 8))).

(** The two loops of [scroll]: [n] cells from index [i] on. *)
Fixpoint copy_up (n : nat) (i : Z) : M (VGA D) () :=
  match n with
  | O => mret ()
  | S n => v ← cell (i + WIDTH); _ ← set_cell i v; copy_up n (i + 1)
  end.
Fixpoint blank (n : nat) (i : Z) : M (VGA D) () :=
  match n with
  | O => mret ()
  | S n => s ← get; _ ← set_cell i (make_entry 32 (attr_ s)); blank n (i + 1)
  end.
Definition scroll : M (VGA D) () :=
  _ ← copy_up (Z.to_nat ((HEIGHT - 1) * WIDTH)) 0;
  _ ← blank (Z.to_nat WIDTH) ((HEIGHT - 1) * WIDTH);
  modify (set_row (HEIGHT - 1)).

(** [if (++row_ >= HEIGHT) scroll();] *)
Definition next_row : M (VGA D) () :=
  s ← get;
  _ ← put (set_row (row_ s + 1) s);
  if row_ s + 1 >=? HEIGHT then scroll else mret ().

Definition put_char (c : Z) : M (VGA D) () :=
  _ ← (if c =? 10 then _ ← modify (set_col 0); next_row
       else if c =? 13 then modify (set_col 0)
       else if c =? 9 then
         s ← get;
         let col := Z.land (col_ s + 8) (u64 (u32 (Z.lnot 7))) in
         if col >=? WIDTH then _ ← put (set_col 0 s); next_row else put (set_col col s)
       else if c =? 8 then
         s ← get;
         _ ← (if col_ s >? 0 then put (set_col (col_ s - 1) s)
              else if row_ s >? 0 then put (set_row (row_ s - 1) (set_col (WIDTH - 1) s))
              else mret ());
         s ← get;
         set_cell (row_ s * WIDTH + col_ s) (make_entry 32 (attr_ s))
       else
         s ← get;
         _ ← set_cell (row_ s * WIDTH + col_ s) (make_entry c (attr_ s));
         let col := col_ s + 1 in
         if col >=? WIDTH then _ ← modify (set_col 0); next_row else modify (set_col col));
  move_cursor.

Fixpoint put_all (s : list Z) : M (VGA D) () :=
  match s with
  | [] => mret ()
  | c :: s => _ ← put_char c; put_all s
  end.

Definition vga_write (s : list Z) : M (VGA D) () :=
  v ← get;
  _ ← (if mirror v then ports (serial_write s) else mret ());
  put_all s.

Definition set_color (foreground background : Color) : M (VGA D) () := modify (set_attr (make_attr foreground background)).

Definition vga_construct : M (VGA D) () :=
  _ ← modify (set_attr (make_attr LightGreen Black));
  _ ← modify (λ s, set_row 0 (set_col 0 s));
  _ ← blank (Z.to_nat (WIDTH * HEIGHT)) 0;
  move_cursor.
End VGA.
