(* ===== verification/VgaProps.v ===== *)
(** * The properties of the screen *)
From stdpp Require Import gmap.
From S2P Require Import Prelude Cpu Console Serial Vga.

(** * What is on the screen

    The screen as a window on a tape: all the rows ever written, of which the window
    shows the last twenty-five. Writing goes on at a position of the tape; a row that
    has left the window does not change any more. *)

Record Tape := mkTape { t_cells : list Z; t_pos : Z; t_top : Z; t_attr : Z }.

(** One more blank row when the position has left the window. *)
Definition settle (t : Tape) : Tape :=
  if t_pos t >=? WIDTH * (t_top t + HEIGHT)
  then mkTape (t_cells t ++ replicate (Z.to_nat WIDTH) (make_entry 32 (t_attr t))) (t_pos t) (t_top t + 1) (t_attr t)
  else t.
Definition move_to (p : Z) (t : Tape) : Tape := mkTape (t_cells t) p (t_top t) (t_attr t).
Definition write_at (p c : Z) (t : Tape) : Tape :=
  mkTape (<[Z.to_nat p := make_entry c (t_attr t)]> (t_cells t)) (t_pos t) (t_top t) (t_attr t).

Definition tape_put (t : Tape) (c : Z) : Tape :=
  let p := t_pos t in
  if c =? 10 then settle (move_to ((p / WIDTH + 1) * WIDTH) t)
  else if c =? 13 then move_to (p / WIDTH * WIDTH) t
  else if c =? 9 then settle (move_to ((p / 8 + 1) * 8) t)
  else if c =? 8 then let p := Z.max (p - 1) (WIDTH * t_top t) in write_at p 32 (move_to p t)
  else settle (move_to (p + 1) (write_at p c t)).

(** The position is in the window, and the tape ends with the window. *)
Record tape_ok (t : Tape) : Prop := {
  to_top : 0 <= t_top t;
  to_pos : WIDTH * t_top t <= t_pos t < WIDTH * (t_top t + HEIGHT);
  to_length : Z.of_nat (length (t_cells t)) = WIDTH * (t_top t + HEIGHT);
}.

Section screen.
Context {D : Type} `{HP : PortIO D} `{HU : !Uart D} `{HS : !UartSpec}.
Implicit Types (s : VGA D) (t : Tape).

(** The window on the tape. *)
Record shows s t : Prop := {
  sh_tape : tape_ok t;
  sh_cells : cells s = drop (Z.to_nat (WIDTH * t_top t)) (t_cells t);
  sh_row : 0 <= row_ s < HEIGHT;
  sh_col : 0 <= col_ s < WIDTH;
  sh_pos : t_pos t = WIDTH * (t_top t + row_ s) + col_ s;
  sh_attr : attr_ s = t_attr t;
}.

(** The registers of the screen controller: the one that is selected, and their
    contents. A write of 32 bits to the first port may reach the register it has
    just selected. Nothing of this reaches the serial port. *)
Class ScreenSpec := {
  crt_index : D → Z;
  crt_register : D → Z → Z;
  index_spec d v : wp (out32b 0x3D4 v) d (λ _ d', uart_same d d' ∧ crt_index d' = v `mod` 256 ∧
    ∀ i, i ≠ v `mod` 256 → crt_register d' i = crt_register d i);
  data_spec d v : wp (out32b 0x3D5 v) d (λ _ d', uart_same d d' ∧ crt_index d' = crt_index d ∧ crt_register d' (crt_index d) = v `mod` 256 ∧
    ∀ i, i ≠ crt_index d → crt_register d' i = crt_register d i);
}.
Context `{HC : !ScreenSpec}.

(** The hardware cursor is at the position of the next character. *)
Definition cursor_at s : Prop :=
  crt_register (io s) 0x0E * 256 + crt_register (io s) 0x0F = row_ s * WIDTH + col_ s.

Lemma wp_move_cursor s (Q : () → VGA D → Prop) :
  0 <= row_ s < HEIGHT → 0 <= col_ s < WIDTH →
  (∀ d, uart_same (io s) d → cursor_at (set_io d s) → Q () (set_io d s)) → wp move_cursor s Q.
Proof.
  intros Hr Hc HQ. unfold WIDTH, HEIGHT in *. unfold move_cursor. do 2 wp_step. rewrite u16_small by (unfold WIDTH; lia).
  set (pos := row_ s * WIDTH + col_ s). assert (0 <= pos < 2000) as Hp by (unfold pos, WIDTH; lia).
  change 255 with (Z.ones 8). rewrite Z.land_ones by lia. rewrite Z.shiftr_div_pow2 by lia. change (2 ^ 8) with 256.
  rewrite !u8_small by lia.
  wp_step. apply wp_zoom. eapply wp_mono; [apply index_spec|]. intros [] d1 (S1 & I1 & _).
  wp_step. apply wp_zoom. eapply wp_mono; [apply data_spec|]. cbn [io set_io]. intros [] d2 (S2 & I2 & R2 & _).
  wp_step. apply wp_zoom. eapply wp_mono; [apply index_spec|]. cbn [io set_io]. intros [] d3 (S3 & I3 & R3).
  apply wp_zoom. eapply wp_mono; [apply data_spec|]. cbn [io set_io]. intros [] d4 (S4 & I4 & R4 & O4).
  change (set_io d4 (set_io _ _)) with (set_io d4 s). apply HQ; [by repeat (eapply uart_same_trans; [eassumption|])|].
  unfold cursor_at. cbn [io set_io row_ col_]. rewrite I3 in R4, O4. change (14 `mod` 256) with 14 in *. change (15 `mod` 256) with 15 in *.
  rewrite R4, (O4 15), R3, <- I1, R2 by lia. fold pos. lia.
Qed.

(** ** Scrolling *)
Lemma wp_set_cell i v s (Q : () → VGA D → Prop) :
  0 <= i < Z.of_nat (length (cells s)) → Q () (set_cells (<[Z.to_nat i := v]> (cells s)) s) → wp (set_cell i v) s Q.
Proof. intros Hi HQ. unfold set_cell. do 2 wp_step. replace ((0 <=? i) && (i <? Z.of_nat (length (cells s)))) with true by lia. by wp_step. Qed.

Lemma wp_copy_up n i s (Q : () → VGA D → Prop) :
  0 <= i → i + Z.of_nat n + WIDTH <= Z.of_nat (length (cells s)) →
  (∀ l, length l = length (cells s) →
    (∀ j, l !! j = if decide (i <= Z.of_nat j < i + Z.of_nat n) then cells s !! (j + 80)%nat else cells s !! j) → Q () (set_cells l s)) →
  wp (copy_up n i) s Q.
Proof.
  revert i s. induction n as [|n IH]; intros i s Hi Hn HQ; cbn [copy_up].
  - wp_step. replace s with (set_cells (cells s) s) by (by destruct s). apply HQ; [done|]. intros j. rewrite decide_False by lia. done.
  - unfold WIDTH in *. wp_step. unfold cell. do 2 wp_step. destruct (lookup_lt_is_Some_2 (cells s) (Z.to_nat (i + 80))) as [v Hv]; [lia|].
    wp_step. wp_step. apply wp_set_cell; [lia|]. apply IH; [lia|cbn [cells set_cells]; rewrite length_insert; lia|].
    cbn [cells set_cells]. intros l Hl Hj. apply HQ; [by rewrite Hl, length_insert|]. intros j. rewrite Hj.
    destruct (decide (j = Z.to_nat i)) as [->|Hne].
    + rewrite decide_False by lia. rewrite list_lookup_insert_eq by lia. rewrite decide_True by lia. rewrite <- Hv. f_equal. lia.
    + destruct (decide (i + 1 <= Z.of_nat j < i + 1 + Z.of_nat n)); [rewrite decide_True by lia|rewrite decide_False by lia];
        rewrite list_lookup_insert_ne by lia; done.
Qed.

Lemma wp_blank n i s (Q : () → VGA D → Prop) :
  0 <= i → i + Z.of_nat n <= Z.of_nat (length (cells s)) →
  (∀ l, length l = length (cells s) →
    (∀ j, l !! j = if decide (i <= Z.of_nat j < i + Z.of_nat n) then Some (make_entry 32 (attr_ s)) else cells s !! j) → Q () (set_cells l s)) →
  wp (blank n i) s Q.
Proof.
  revert i s. induction n as [|n IH]; intros i s Hi Hn HQ; cbn [blank].
  - wp_step. replace s with (set_cells (cells s) s) by (by destruct s). apply HQ; [done|]. intros j. rewrite decide_False by lia. done.
  - do 2 wp_step. wp_step. apply wp_set_cell; [lia|]. apply IH; [lia|cbn [cells set_cells]; rewrite length_insert; lia|].
    cbn [cells set_cells attr_]. intros l Hl Hj. apply HQ; [by rewrite Hl, length_insert|]. intros j. rewrite Hj.
    destruct (decide (j = Z.to_nat i)) as [->|Hne].
    + rewrite decide_False by lia. rewrite list_lookup_insert_eq by lia. by rewrite decide_True by lia.
    + destruct (decide (i + 1 <= Z.of_nat j < i + 1 + Z.of_nat n)); [by rewrite decide_True by lia|rewrite decide_False by lia].
      by rewrite list_lookup_insert_ne by lia.
Qed.

(** ** Moving on *)
Lemma shows_length s t : shows s t → length (cells s) = 2000%nat.
Proof. intros [[? ? Hl] -> _ _ _ _]. rewrite length_drop. unfold WIDTH, HEIGHT in *. lia. Qed.

Lemma shows_col s t c : shows s t → 0 <= c < WIDTH → shows (set_col c s) (move_to (t_pos t - col_ s + c) t).
Proof.
  intros [[H1 H2 H3] Hc Hr Hcol Hp Ha] Hc'. unfold WIDTH, HEIGHT in *. split; cbn; try done; unfold WIDTH, HEIGHT; [|lia]. split; cbn; [done| |done].
  unfold WIDTH, HEIGHT. lia.
Qed.

Lemma move_to_id t : move_to (t_pos t) t = t.
Proof. by destruct t. Qed.
Lemma move_to_twice p q t : move_to p (move_to q t) = move_to p t.
Proof. done. Qed.

(** The screen after [scroll], by cells. *)
Lemma scrolled (l l1 l2 : list Z) b :
  length l = 2000%nat → length l1 = length l → length l2 = length l1 →
  (∀ j, l1 !! j = if decide (0 <= Z.of_nat j < 0 + 1920) then l !! (j + 80)%nat else l !! j) →
  (∀ j, l2 !! j = if decide (1920 <= Z.of_nat j < 1920 + 80) then Some b else l1 !! j) →
  l2 = drop 80 l ++ replicate 80 b.
Proof.
  intros H0 H1 H2 HA HB. apply list_eq. intros j. rewrite HB. destruct (decide _).
  - rewrite lookup_app_r by (rewrite length_drop; lia). rewrite length_drop. rewrite lookup_replicate_2 by lia. done.
  - rewrite HA. destruct (decide _).
    + rewrite lookup_app_l by (rewrite length_drop; lia). rewrite lookup_drop. f_equal. lia.
    + rewrite !lookup_ge_None_2; [done|rewrite length_app, length_drop, length_replicate; lia|lia].
Qed.

Lemma wp_next_row s t (Q : () → VGA D → Prop) :
  shows s t → (∀ s', shows s' (settle (move_to (t_pos t + WIDTH) t)) → io s' = io s → mirror s' = mirror s → Q () s') → wp next_row s Q.
Proof.
  intros Hs HQ. pose proof (shows_length s t Hs) as Hlen. destruct Hs as [[H1 H2 H3] Hc Hr Hcol Hp Ha].
  unfold next_row. do 4 wp_step. unfold settle in HQ. cbn [t_pos t_top move_to] in HQ. unfold WIDTH, HEIGHT in *.
  destruct (row_ s + 1 >=? 25) eqn:E.
  - replace (t_pos t + 80 >=? 80 * (t_top t + 25)) with true in HQ by lia. unfold scroll, WIDTH, HEIGHT.
    change (Z.to_nat ((25 - 1) * 80)) with 1920%nat. change (Z.to_nat 80) with 80%nat. change ((25 - 1) * 80) with 1920.
    wp_step. apply wp_copy_up; [lia|cbn [cells set_row]; unfold WIDTH; lia|]. cbn [cells set_row]. intros l1 Hl1 HA.
    wp_step. apply wp_blank; [lia|cbn [cells set_cells]; lia|]. cbn [cells set_cells attr_ set_row]. intros l2 Hl2 HB.
    wp_step. pose proof (scrolled (cells s) l1 l2 (make_entry 32 (attr_ s)) Hlen Hl1 Hl2 HA HB) as ->. apply HQ; [|done|done].
    split; cbn; try done; unfold WIDTH, HEIGHT; [| |lia].
    + split; cbn; unfold WIDTH, HEIGHT; [lia|lia|rewrite length_app, length_replicate; lia].
    + rewrite Hc, drop_drop, drop_app_le by lia. f_equal; [f_equal; lia|by rewrite Ha].
  - replace (t_pos t + 80 >=? 80 * (t_top t + 25)) with false in HQ by lia. wp_step. apply HQ; [|done|done].
    split; cbn; try done; unfold WIDTH, HEIGHT; [|lia|lia]. split; cbn; unfold WIDTH, HEIGHT; [lia|lia|lia].
Qed.

Lemma shows_write s t c :
  shows s t → shows (set_cells (<[Z.to_nat (row_ s * WIDTH + col_ s) := make_entry c (attr_ s)]> (cells s)) s) (write_at (t_pos t) c t).
Proof.
  intros [[H1 H2 H3] Hc Hr Hcol Hp Ha]. unfold WIDTH, HEIGHT in *. split; cbn; try done.
  - split; cbn; [done|done|by rewrite length_insert].
  - unfold WIDTH; rewrite drop_insert_ge by lia. rewrite Hc, Ha. f_equal. unfold WIDTH. lia.
Qed.

(** The tab goes to the next multiple of eight columns. *)
Lemma tab_stop col : 0 <= col < WIDTH → Z.land (col + 8) (u64 (u32 (Z.lnot 7))) = (col / 8 + 1) * 8.
Proof.
  intros Hc. unfold WIDTH in Hc. assert (Forall (λ c, Z.land (c + 8) (u64 (u32 (Z.lnot 7))) = (c / 8 + 1) * 8) (seqZ 0 80)) as Hall
    by (apply (bool_decide_unpack _); vm_compute; done).
  rewrite Forall_forall in Hall. apply Hall, elem_of_seqZ. lia.
Qed.

(** One character, before the cursor follows. *)
Lemma wp_backspace s t (Q : () → VGA D → Prop) :
  shows s t → (∀ s', shows s' (tape_put t 8) → io s' = io s → mirror s' = mirror s → Q () s') →
  wp (s ← get;
      _ ← (if col_ s >? 0 then put (set_col (col_ s - 1) s)
           else if row_ s >? 0 then put (set_row (row_ s - 1) (set_col (WIDTH - 1) s))
           else mret ());
      s ← get;
      set_cell (row_ s * WIDTH + col_ s) (make_entry 32 (attr_ s))) s Q.
Proof.
  intros Hs HQ. pose proof (shows_length s t Hs) as Hlen. do 3 wp_step. set (p := Z.max (t_pos t - 1) (WIDTH * t_top t)).
  assert (∀ s1, shows s1 (move_to p t) → io s1 = io s → mirror s1 = mirror s →
    wp (s ← get; set_cell (row_ s * WIDTH + col_ s) (make_entry 32 (attr_ s))) s1 Q) as Hw.
  { intros s1 Hs1 E1 E2. do 2 wp_step. pose proof (shows_length s1 _ Hs1) as Hlen1. pose proof (sh_row s1 _ Hs1). pose proof (sh_col s1 _ Hs1).
    unfold WIDTH, HEIGHT in *. apply wp_set_cell; [lia|]. apply HQ; [|done|done].
    change (tape_put t 8) with (write_at p 32 (move_to p t)). by apply (shows_write s1 (move_to p t) 32). }
  pose proof Hs as [[H1 H2 H3] Hc Hr Hcol Hp Ha]. unfold WIDTH, HEIGHT in *.
  destruct (col_ s >? 0) eqn:E; [|destruct (row_ s >? 0) eqn:E']; wp_step; apply Hw; try done.
  - assert (p = t_pos t - col_ s + (col_ s - 1)) as -> by (unfold p, WIDTH; lia). apply shows_col; [done|unfold WIDTH; lia].
  - split; cbn; try done; unfold WIDTH, HEIGHT, p, WIDTH; [|lia|lia]. split; cbn; unfold WIDTH, HEIGHT, p, WIDTH; [done|lia|done].
  - replace p with (t_pos t) by (unfold p, WIDTH; lia). by rewrite move_to_id.
Qed.

(** The beginning of the next row. *)
Lemma wp_newline s t (Q : () → VGA D → Prop) :
  shows s t → (∀ s', shows s' (settle (move_to ((t_pos t / WIDTH + 1) * WIDTH) t)) → io s' = io s → mirror s' = mirror s → Q () s') →
  wp (_ ← modify (set_col 0); next_row) s Q.
Proof.
  intros Hs HQ. do 2 wp_step. pose proof (sh_col s t Hs) as Hcol. pose proof (sh_pos s t Hs) as Hp.
  eapply wp_next_row; [apply (shows_col s t 0); [done|unfold WIDTH; lia]|]. intros s' Hs' E1 E2. apply HQ; [|done|done].
  cbn [t_pos move_to] in Hs'. rewrite move_to_twice in Hs'. unfold WIDTH in *.
  replace ((t_pos t / 80 + 1) * 80) with (t_pos t - col_ s + 0 + 80) by lia. exact Hs'.
Qed.

(** One character. *)
Lemma wp_put_char c s t (Q : () → VGA D → Prop) :
  shows s t → (∀ s', shows s' (tape_put t c) → cursor_at s' → uart_same (io s) (io s') → mirror s' = mirror s → Q () s') → wp (put_char c) s Q.
Proof.
  intros Hs HQ. unfold put_char. wp_step.
  assert (∀ s1, shows s1 (tape_put t c) → io s1 = io s → mirror s1 = mirror s → wp move_cursor s1 Q) as Hcur.
  { intros s1 Hs1 E1 E2. apply wp_move_cursor; [apply Hs1|apply Hs1|]. intros d Hd Hat. apply HQ; [|done|by rewrite <- E1|done]. by destruct Hs1. }
  clear HQ. pose proof (sh_col s t Hs) as Hcol. pose proof (sh_pos s t Hs) as Hp. pose proof (sh_row s t Hs) as Hr.
  pose proof (to_top t (sh_tape s t Hs)) as Htop. pose proof (shows_length s t Hs) as Hlen.
  unfold tape_put in Hcur. destruct (c =? 10); [|destruct (c =? 13); [|destruct (c =? 9); [|destruct (c =? 8) eqn:E8]]].
  - by apply (wp_newline s t).
  - wp_step. apply Hcur; [|done|done]. pose proof (shows_col s t 0 Hs ltac:(unfold WIDTH; lia)) as Hs0. unfold WIDTH in *.
    replace (t_pos t / 80 * 80) with (t_pos t - col_ s + 0) by lia. exact Hs0.
  - do 2 wp_step. cbn zeta. rewrite tab_stop by done. unfold WIDTH in *. destruct ((col_ s / 8 + 1) * 8 >=? 80) eqn:Et.
    + change (wp (_ ← modify (set_col 0); next_row) s (λ _ s', wp move_cursor s' Q)). apply (wp_newline s t); [done|].
      intros s' Hs' E1 E2. apply Hcur; [|done|done]. unfold WIDTH in Hs'. replace ((t_pos t / 8 + 1) * 8) with ((t_pos t / 80 + 1) * 80) by lia. done.
    + wp_step. apply Hcur; [|done|done]. pose proof (shows_col s t ((col_ s / 8 + 1) * 8) Hs ltac:(unfold WIDTH; lia)) as Hs1.
      unfold settle. cbn [t_pos t_top move_to]. unfold WIDTH, HEIGHT in *. replace ((t_pos t / 8 + 1) * 8) with (t_pos t - col_ s + (col_ s / 8 + 1) * 8) by lia.
      replace (_ >=? _) with false by lia. exact Hs1.
  - apply (wp_backspace s t); [done|]. intros s' Hs'. by apply Hcur.
  - do 2 wp_step. wp_step. unfold WIDTH, HEIGHT in *. apply wp_set_cell; [lia|]. cbn zeta.
    pose proof (shows_write s t c Hs) as Hw. unfold WIDTH in Hw. destruct (col_ s + 1 >=? 80) eqn:Et.
    + eapply wp_newline; [exact Hw|]. cbn [t_pos write_at io mirror set_cells]. intros s' Hs' E1 E2. apply Hcur; [|done|done].
      unfold WIDTH in Hs'. replace (t_pos t + 1) with ((t_pos t / 80 + 1) * 80) by lia. exact Hs'.
    + wp_step. apply Hcur; [|done|done]. pose proof (shows_col _ _ (col_ s + 1) Hw ltac:(unfold WIDTH; lia)) as Hs1.
      cbn [t_pos write_at col_ set_cells] in Hs1. unfold settle. cbn [t_pos t_top move_to write_at]. unfold WIDTH, HEIGHT in *.
      replace (t_pos t + 1) with (t_pos t - col_ s + (col_ s + 1)) by lia. replace (_ >=? _) with false by lia. exact Hs1.
Qed.
End screen.


Section props.
Context {D : Type} `{HP : PortIO D} `{HU : !Uart D} `{HS : !UartSpec} `{HC : !ScreenSpec}.
Implicit Types (s : VGA D) (t : Tape).

Lemma wp_put_all text s t (Q : () → VGA D → Prop) :
  shows s t →
  (∀ s', shows s' (foldl tape_put t text) → (text ≠ [] ∨ cursor_at s → cursor_at s') → uart_same (io s) (io s') → mirror s' = mirror s → Q () s') →
  wp (put_all text) s Q.
Proof.
  revert s t. induction text as [|c text IH]; intros s t Hs HQ; cbn [put_all].
  - wp_step. apply HQ; [done|intros [?|?]; done|done|done].
  - wp_step. apply (wp_put_char c s t); [done|]. intros s1 Hs1 Hcur Hu Hm. apply (IH s1 (tape_put t c)); [done|].
    intros s2 Hs2 Hcur2 Hu2 Hm2. apply HQ; [done|auto|by eapply uart_same_trans|by rewrite Hm2].
Qed.

(** Writing a text. *)
Lemma wp_vga_write s t text :
  shows s t → bytes text → (mirror s = true → serial_ok (io s)) →
  wp (vga_write text) s (λ _ s', shows s' (foldl tape_put t text) ∧ (text ≠ [] → cursor_at s') ∧
    sent (io s') = sent (io s) ++ (if mirror s then mjoin (on_line <$> text) else []) ∧
    mirror s' = mirror s ∧ (mirror s = true → serial_ok (io s'))).
Proof.
  intros Hs Ht Hser. unfold vga_write. do 3 wp_step. destruct (mirror s) eqn:Em.
  - apply wp_zoom. apply wp_serial_write; [auto|done|]. intros d Hd Hsent. assert (shows (set_io d s) t) as Hs1 by (destruct Hs; done).
    apply (wp_put_all text _ t); [done|]. intros s2 Hs2 Hcur (U1 & U2 & U3) Hm. split; [done|]. split; [auto|].
    cbn [io set_io] in *. split; [by rewrite U1|]. split; [by rewrite Hm|]. intros _. destruct Hd. split; [by rewrite U2|by rewrite U3].
  - wp_step. apply (wp_put_all text s t); [done|]. intros s2 Hs2 Hcur (U1 & U2 & U3) Hm. split; [done|]. split; [auto|].
    split; [by rewrite app_nil_r|]. split; [by rewrite Hm|]. done.
Qed.

(** C27: The screen refines the tape: after any text, with tabs, backspaces, returns
    and any number of scrolled rows, the screen shows the last twenty-five rows of
    the tape on which the text was written, the next character goes to the position
    of the tape, the hardware cursor blinks there, and the serial port has sent the
    same text with a carriage return before every newline. No write leaves the
    memory of the screen. *)
Theorem vga_refines_tape s t text :
  shows s t → bytes text → (mirror s = true → serial_ok (io s)) →
  wp (vga_write text) s (λ _ s', shows s' (foldl tape_put t text) ∧ (text ≠ [] → cursor_at s') ∧
    sent (io s') = sent (io s) ++ (if mirror s then mjoin (on_line <$> text) else []) ∧
    mirror s' = mirror s ∧ (mirror s = true → serial_ok (io s'))).
Proof. apply wp_vga_write. Qed.

(** A blank tape. *)
Definition blank_tape (attr : Z) : Tape := mkTape (replicate (Z.to_nat (WIDTH * HEIGHT)) (make_entry 32 attr)) 0 0 attr.

(** The constructor blanks the screen, whatever was on it, with the next character at
    the top left, in light green on black. *)
Theorem vga_construct_correct s :
  Z.of_nat (length (cells s)) = WIDTH * HEIGHT →
  wp vga_construct s (λ _ s', shows s' (blank_tape 10) ∧ cursor_at s' ∧ uart_same (io s) (io s')).
Proof.
  intros Hlen. unfold vga_construct. do 4 wp_step. unfold WIDTH, HEIGHT in *. wp_step. apply wp_blank; [lia|cbn; lia|].
  cbn [cells attr_ set_row set_col set_attr]. intros l Hl Hj. apply wp_move_cursor; [done|done|]. intros d Hd Hcur. split; [|done].
  assert (l = replicate 2000 (make_entry 32 10)) as ->.
  { apply list_eq. intros j. rewrite Hj. change (make_attr LightGreen Black) with 10. destruct (decide _).
    - by rewrite lookup_replicate_2 by lia.
    - rewrite !lookup_ge_None_2; [done|rewrite length_replicate; lia|lia]. }
  split; cbn [cells row_ col_ attr_ set_io set_cells set_row set_col set_attr blank_tape t_top t_cells t_pos t_attr]; unfold WIDTH, HEIGHT; try lia.
  - split; cbn [blank_tape t_top t_cells t_pos]; unfold WIDTH, HEIGHT; [lia|lia|rewrite length_replicate; lia].
  - done.
  - done.
Qed.

(** A row that has left the window stays as it is. *)
Lemma settle_kept t j : (j < length (t_cells t))%nat → t_cells (settle t) !! j = t_cells t !! j.
Proof. intros Hj. unfold settle. destruct (_ >=? _); [|done]. cbn. by rewrite lookup_app_l. Qed.

Lemma tape_put_kept t c j : tape_ok t → Z.of_nat j < WIDTH * t_top t → t_cells (tape_put t c) !! j = t_cells t !! j.
Proof.
  intros [H1 H2 H3] Hj. unfold WIDTH, HEIGHT in *. unfold tape_put, WIDTH.
  repeat case_match; rewrite ?settle_kept; cbn [t_cells move_to write_at t_top t_pos]; rewrite ?length_insert; try lia; try done; apply list_lookup_insert_ne; lia.
Qed.

(** The two colours of an attribute can be told from it. *)
Theorem make_attr_colours fg bg :
  field (make_attr fg bg) 0 4 = decide_colorcode_vga fg ∧ field (make_attr fg bg) 4 4 = decide_colorcode_vga bg.
Proof. by destruct fg, bg; vm_compute. Qed.
End props.

(** ** A desk: a screen controller and a serial port that is busy for two looks after
    each byte *)
Record Desk := mkDesk { dk_sent : list Z; dk_divisor : Z; dk_line : Z; dk_index : Z; dk_regs : gmap Z Z; dk_busy : nat }.

Definition desk_outb (p v : Z) (d : Desk) : Desk :=
  if p =? PORT then
    if Z.testbit (dk_line d) 7 then mkDesk (dk_sent d) (dk_divisor d / 256 * 256 + v) (dk_line d) (dk_index d) (dk_regs d) (dk_busy d)
    else mkDesk (dk_sent d ++ [v]) (dk_divisor d) (dk_line d) (dk_index d) (dk_regs d) 2
  else if p =? PORT + 1 then
    if Z.testbit (dk_line d) 7 then mkDesk (dk_sent d) (v * 256 + dk_divisor d `mod` 256) (dk_line d) (dk_index d) (dk_regs d) (dk_busy d) else d
  else if p =? PORT + 3 then mkDesk (dk_sent d) (dk_divisor d) v (dk_index d) (dk_regs d) (dk_busy d)
  else d.
Definition desk_inb (p : Z) (d : Desk) : option (Z * Desk) :=
  if p =? PORT + 5 then
    match dk_busy d with
    | O => Some (32, d)
    | S k => Some (0, mkDesk (dk_sent d) (dk_divisor d) (dk_line d) (dk_index d) (dk_regs d) k)
    end
  else Some (255, d).
Definition desk_out32b (p v : Z) (d : Desk) : Desk :=
  if p =? 0x3D4 then mkDesk (dk_sent d) (dk_divisor d) (dk_line d) (v `mod` 256) (<[v `mod` 256 := (v / 256) `mod` 256]> (dk_regs d)) (dk_busy d)
  else if p =? 0x3D5 then mkDesk (dk_sent d) (dk_divisor d) (dk_line d) (dk_index d) (<[dk_index d := v `mod` 256]> (dk_regs d)) (dk_busy d)
  else d.

#[export] Instance desk_ports : PortIO Desk := {|
  outb p v := modify (desk_outb p v);
  inb := desk_inb;
  out16b _ _ := mret ();
  in16b _ := mret 65535;
  out32b p v := modify (desk_out32b p v);
  in32b _ := mret 4294967295;
  io_wait := mret ();
|}.
#[export] Instance desk_uart : Uart Desk := {| uart_horizon d := S (dk_busy d) |}.

#[export] Instance desk_uart_spec : UartSpec (D := Desk).
Proof.
  refine {| divisor := dk_divisor; line_control := dk_line; sent := dk_sent; uart_ready k d := dk_busy d = k |}.
  - intros d _. exists (dk_busy d). split; [cbn; lia|done].
  - intros k d Hk. unfold wp. cbn [inb desk_ports]. unfold desk_inb. change (PORT + 5 =? PORT + 5) with true. cbn iota. rewrite Hk. destruct k; eexists _, _; done.
  - intros d b _ _ Hl _. apply wp_modify. unfold desk_outb. change (PORT =? PORT) with true. by rewrite Hl.
  - intros d v. by apply wp_modify.
  - intros d v Hl _. apply wp_modify. unfold desk_outb. change (PORT =? PORT) with true. by rewrite Hl.
  - intros d v Hl _. apply wp_modify. unfold desk_outb. change (PORT + 1 =? PORT) with false. change (PORT + 1 =? PORT + 1) with true. by rewrite Hl.
  - intros d v Hl. apply wp_modify. unfold desk_outb. change (PORT + 1 =? PORT) with false. change (PORT + 1 =? PORT + 1) with true. by rewrite Hl.
  - intros d v. by apply wp_modify.
  - intros d v. by apply wp_modify.
Defined.

#[export] Instance desk_screen : ScreenSpec (D := Desk).
Proof.
  refine {| crt_index := dk_index; crt_register d i := default 0 (dk_regs d !! i) |}.
  - intros d v. apply wp_modify. split; [done|]. split; [done|]. intros i Hi. cbn. by rewrite lookup_insert_ne.
  - intros d v. apply wp_modify. split; [done|]. split; [done|]. cbn. split; [by rewrite lookup_insert_eq|]. intros i Hi. by rewrite lookup_insert_ne.
Defined.

Definition desk_off : VGA Desk := mkVGA 0 (replicate (Z.to_nat (WIDTH * HEIGHT)) 0) 0 0 true (mkDesk [] 0 3 0 ∅ 0).

Lemma vga_construct_correct_witness :
  wp vga_construct desk_off (λ _ s', shows s' (blank_tape 10) ∧ cursor_at s').
Proof.
  eapply wp_mono; [apply (vga_construct_correct desk_off); vm_compute; reflexivity|]. intros _ s' (H1 & H2 & _). exact (conj H1 H2).
Defined.

(** The constructors of the serial port and of the screen, in the order of the kernel. *)
Definition desk_on : VGA Desk := mkVGA 10 (replicate (Z.to_nat (WIDTH * HEIGHT)) (make_entry 32 10)) 0 0 true (mkDesk [] 3 3 0 ∅ 0).

Lemma desk_on_shows : shows desk_on (blank_tape 10).
Proof. by split. Qed.

Lemma vga_refines_tape_witness :
  wp (vga_write [72; 10; 105]) desk_on (λ _ s', shows s' (foldl tape_put (blank_tape 10) [72; 10; 105]) ∧ sent (io s') = [72; 13; 10; 105]).
Proof.
  eapply wp_mono; [apply (vga_refines_tape desk_on (blank_tape 10) [72; 10; 105] desk_on_shows)|].
  - repeat constructor; discriminate.
  - intros _. split; reflexivity.
  - intros _ s' (H1 & _ & H2 & _). exact (conj H1 H2).
Defined.
