(* ===== verification/UserMode.v ===== *)
(** * User mode (include/usermode.hpp, include/usermode.cpp)

    [map_user_space] gives a process its program and its stack: the pages of the
    program are those of the kernel's image, opened to user mode but not to writing;
    the stack is a fresh page of the process. The program text lies in the kernel's
    half, so opening its pages reaches every address space. [init_func]
    (include/init.cpp) is the first process: it prepares its address space and enters
    the program [init_main] (user/init.cpp), whose loop is at the end. *)
From stdpp Require Import gmap strings.
From S2P Require Import Prelude Cpu FileSystem Console Serial Vga VgaProps Process Vmm VmmSpec VmmMap VmmVisit VmmCopy VmmSpace VmmKernel VmmPmm.
From S2P Require Pmm.

Definition kUserStack : Z := 0x600000.
Definition kUserStackTop : Z := kUserStack + PAGE_SIZE - 16.
Abbreviation stack_path := (table_path kUserStack).
Abbreviation stack_index := (page_entry kUserStack).

Section user.
Context {P : Type} `{HP : FrameAllocator P}.
(** The symbols of the linker around the section [.user]. *)
Context (__user_start __user_end : Z).

(** The loop over the pages of the program from [va] on. *)
Fixpoint map_code (n : nat) (pml4 : option Z) (va : Z) : M (Vmm P) bool :=
  if va <? __user_end then
    match n with
    | O => stuck
    | S n =>
        phys ← virtual_to_physical va;
        match phys with
        | None => mret false
        | Some _ =>
            ok ← map_page_in pml4 va phys (Z.lor Present User);
            if negb (ok : bool) then mret false else map_code n pml4 (u64 (va + PAGE_SIZE))
        end
    end
  else mret true.

Definition first_page : Z := Z.land __user_start PAGE_MASK.
(** Turns of the loop that are enough. *)
Definition page_count : nat := Z.to_nat ((__user_end - first_page) / PAGE_SIZE + 1).

(** What follows the loop. *)
Definition map_stack (pml4 : option Z) : M (Vmm P) bool :=
  stack_phys ← in_pmm frame_allocate;
  match stack_phys with
  | None => mret false
  | Some _ =>
      ok ← map_page_in pml4 kUserStack stack_phys (Z.lor (Z.lor Present Writable) User);
      if negb (ok : bool) then _ ← in_pmm (frame_free stack_phys); mret false
      else mret true
  end.

Definition map_user_space (pml4 : option Z) : M (Vmm P) bool :=
  code ← map_code page_count pml4 first_page;
  if negb (code : bool) then mret false else map_stack pml4.
End user.

(** ** Addresses of the kernel's half *)
Definition kernel_va (q : list nat) (j : nat) : Z :=
  match q with [a; b] => KERNEL_BASE + page_address a b j | _ => 0 end.

Lemma kernel_va_path va : KERNEL_BASE <= va < 2 ^ 64 → va `mod` 4096 = 0 → kernel_va (kernel_path va) (page_entry va) = va.
Proof.
  intros Hva Hal. destruct (index_range va) as (_ & H1 & H2 & H3). unfold kernel_va, kernel_path, page_entry.
  rewrite page_address_eq by lia. rewrite !Z2Nat.id by lia. unfold KERNEL_BASE, pdpt_index, pd_index, pt_index in *. rewrite !index_eq by lia.
  change (2 ^ 30) with 1073741824. change (2 ^ 21) with 2097152. change (2 ^ 12) with 4096. lia.
Qed.

Lemma kernel_path_va a b j va : (a < 512)%nat → (b < 512)%nat → (j < 512)%nat → kernel_va [a; b] j = va →
  kernel_path va = [a; b] ∧ page_entry va = j.
Proof.
  intros Ha Hb Hj <-. unfold kernel_va. rewrite page_address_eq by done. unfold kernel_path, page_entry, pdpt_index, pd_index, pt_index, KERNEL_BASE.
  rewrite !index_eq by lia. change (2 ^ 30) with 1073741824. change (2 ^ 21) with 2097152. change (2 ^ 12) with 4096.
  set (x := _ + _).
  assert ((x / 1073741824) `mod` 512 = Z.of_nat a ∧ (x / 2097152) `mod` 512 = Z.of_nat b ∧ (x / 4096) `mod` 512 = Z.of_nat j) as (-> & -> & ->) by (unfold x; lia).
  by rewrite !Nat2Z.id.
Qed.

Lemma page_mask_aligned x : Z.land x PAGE_MASK `mod` 4096 = 0.
Proof.
  change 4096 with (2 ^ 12). rewrite <- Z.land_ones by lia. rewrite <- Z.land_assoc. by rewrite Z.land_0_r.
Qed.
Lemma page_mask_below x : 0 <= x < 2 ^ 64 → Z.land x PAGE_MASK = x - x `mod` 4096.
Proof. intros Hx. unfold PAGE_MASK. rewrite (land_lnot_ones _ 12) by lia. change (2 ^ 12) with 4096. lia. Qed.

Section spec.
Context {P : Type} `{HP : FrameAllocator P} `{HS : !FrameAllocatorSpec P}.
Implicit Types (s : Vmm P) (own : Owners) (kt : KTables).

Lemma kslot_index s own kt top boot a b j x :
  kernel_ok s own kt top boot → kslot (frames s) kt [a; b] j x → (a < 512)%nat ∧ (b < 512)%nat ∧ (j < 512)%nat.
Proof.
  intros Hk Hx. assert (∀ q i y, kslot (frames s) kt q i y → (i < 512)%nat) as Hlt.
  { intros q i y (f & Hf & He & _). destruct (ko_frame _ _ _ _ _ Hk _ _ Hf) as (_ & (_ & _ & t & Ht & Hl) & _).
    rewrite (entry_at_Some _ _ _ _ Ht) in He. apply lookup_lt_Some in He. idx_lia. }
  destruct (kslot_up s own kt top boot [a] _ _ _ Hk Hx) as (y & Hy & _). destruct (kslot_up s own kt top boot [] _ _ _ Hk Hy) as (z & Hz & _).
  split; [|split]; by eapply Hlt.
Qed.

(** The entry of a page of the program: its frame, readable in user mode. *)
Definition user_code_entry (x : Z) : Z := Z.lor (phys x) (Z.lor Present User).

Lemma phys_user_code x : phys (user_code_entry x) = phys x.
Proof.
  unfold user_code_entry. rewrite phys_or. change (phys (Z.lor Present User)) with 0. rewrite Z.lor_0_r.
  unfold phys. by rewrite <- Z.land_assoc.
Qed.
Lemma user_code_flags x : has (user_code_entry x) Present = true ∧ has (user_code_entry x) User = true ∧ has (user_code_entry x) Writable = false.
Proof.
  assert (∀ k, 0 <= k < 12 → Z.testbit (user_code_entry x) k = Z.testbit (Z.lor Present User) k) as Hbit.
  { intros k Hk. unfold user_code_entry. rewrite Z.lor_spec, testbit_phys by lia. replace (12 <=? k) with false by lia. by rewrite andb_false_r. }
  rewrite has_Present, has_User, (has_bit _ 1) by done. by rewrite !Hbit by lia.
Qed.

(** What is stored for the page [va], whose translation is that of the entry [x]. *)
Lemma code_entry x va : va `mod` 4096 = 0 →
  Z.lor (Z.lor (Z.land (Z.lor (phys x) (Z.land va 0xFFF)) PAGE_MASK) (Z.lor Present User)) Present = user_code_entry x.
Proof.
  intros Hva. change 0xFFF with (Z.ones 12). rewrite Z.land_ones by lia. change (2 ^ 12) with 4096. rewrite Hva, Z.lor_0_r.
  assert (Z.land (phys x) PAGE_MASK = phys x) as -> by (unfold phys; by rewrite <- Z.land_assoc).
  unfold user_code_entry. by rewrite <- Z.lor_assoc.
Qed.

(** The pages from [lo] to [hi] are opened to user mode. *)
Definition code_leaf s kt (lo hi : Z) (q : list nat) (j : nat) (x : Z) : Prop :=
  if (lo <=? kernel_va q j) && (kernel_va q j <? hi) then ∃ x0, kslot (frames s) kt q j x0 ∧ x = user_code_entry x0
  else kslot (frames s) kt q j x.

Lemma code_leaf_next s own kt top boot lo va x0 q j x :
  kernel_ok s own kt top boot → KERNEL_BASE <= lo <= va → va < 2 ^ 64 → va `mod` 4096 = 0 → length q = 2%nat →
  kslot (frames s) kt (kernel_path va) (page_entry va) x0 →
  (if decide ((q, j) = (kernel_path va, page_entry va)) then x = user_code_entry x0 else code_leaf s kt lo va q j x) ↔
  code_leaf s kt lo (va + 4096) q j x.
Proof.
  intros Hk Hlo Hva Hal Hq Hx0. destruct q as [|a [|b [|]]]; try done. case_decide as Hd.
  - injection Hd as -> -> ->. unfold code_leaf. fold (kernel_path va). rewrite kernel_va_path by lia.
    replace ((lo <=? va) && (va <? va + 4096)) with true by lia. split; [by exists x0|]. intros (y & Hy & ->).
    by rewrite (kslot_fun _ _ _ _ _ _ _ _ _ Hk Hy Hx0).
  - assert (∀ y, kslot (frames s) kt [a; b] j y → (lo <=? kernel_va [a; b] j) && (kernel_va [a; b] j <? va + 4096) =
      (lo <=? kernel_va [a; b] j) && (kernel_va [a; b] j <? va)) as Heq.
    { intros y Hy. destruct (kslot_index _ _ _ _ _ _ _ _ _ Hk Hy) as (Ha & Hb & Hj). f_equal.
      destruct (kernel_path_va a b j _ Ha Hb Hj eq_refl) as [E1 E2].
      assert (kernel_va [a; b] j ≠ va) by (intros H; rewrite H in *; congruence).
      assert (kernel_va [a; b] j `mod` 4096 = 0) by (unfold kernel_va, KERNEL_BASE; rewrite page_address_eq by done; lia). lia. }
    unfold code_leaf. destruct ((lo <=? kernel_va [a; b] j) && (kernel_va [a; b] j <? va)) eqn:E1.
    + replace ((lo <=? kernel_va [a; b] j) && (kernel_va [a; b] j <? va + 4096)) with true by lia. done.
    + destruct ((lo <=? kernel_va [a; b] j) && (kernel_va [a; b] j <? va + 4096)) eqn:E2; [|done].
      split; [intros Hy; by pose proof (Heq _ Hy)|intros (y & Hy & _); by pose proof (Heq _ Hy)].
Qed.

(** A page of the program was mapped. *)
Definition was_mapped s kt (va : Z) : Prop := ∃ x, kslot (frames s) kt (kernel_path va) (page_entry va) x.

Section loop.
Context (__user_start __user_end : Z) (s : Vmm P) (own : Owners) (kt : KTables) (top boot root c : Z).
Context (Hok : vm_ok s own) (Hk : kernel_ok s own kt top boot).
Context (Hroot : is_root own boot root) (Hc : is_root own boot c) (Hcur : pml4_phys_ s = Some c).
Context (lo : Z) (Hlo : KERNEL_BASE <= lo) (Hloa : lo `mod` 4096 = 0) (Hend : __user_end + 4096 <= 2 ^ 64).

(** The pages up to [va] are done. *)
Definition opened (va : Z) (s1 : Vmm P) : Prop :=
  kchange top boot s own kt s1 kt (code_leaf s kt lo va) ∧
  ∀ v, lo <= v < va → v `mod` 4096 = 0 → was_mapped s kt v ∧ kopen (frames s1) kt root v.

Lemma opened_none : opened lo s.
Proof using Hok Hk.
  split; [|intros v Hv; lia]. eapply kchange_leaf; [by apply kstep_refl|]. intros q j x _. unfold code_leaf.
  replace ((lo <=? kernel_va q j) && (kernel_va q j <? lo)) with false by lia. done.
Qed.

Lemma wp_map_code n va s1 :
  lo <= va < 2 ^ 64 → va `mod` 4096 = 0 → opened va s1 → (Z.to_nat ((__user_end - va + 4095) / 4096) <= n)%nat →
  wp (map_code __user_end n (Some root) va) s1 (λ b s', ∃ hi, opened hi s' ∧ hi `mod` 4096 = 0 ∧
    if b then lo <= hi ∧ __user_end <= hi < Z.max (va + 1) (__user_end + 4096) else lo <= hi < __user_end ∧ ¬ was_mapped s kt hi).
Proof using Hok Hk Hroot Hc Hcur Hlo Hloa Hend.
  revert va s1. induction n as [|n IH]; intros va s1 Hva Hal [Hch Hwas] Hn; cbn [map_code].
  { replace (va <? __user_end) with false by lia. wp_step. exists va. split; [by split|]. split; [done|]. lia. }
  destruct (va <? __user_end) eqn:E; [|wp_step; exists va; split; [by split|]; split; [done|]; lia].
  pose proof (kc_kernel _ _ _ _ _ _ _ _ Hch) as Hk1. pose proof (kc_ok _ _ _ _ _ _ _ _ Hch) as Hok1.
  pose proof (kernel_index va ltac:(lia)) as Hidx.
  assert (∀ x, kslot (frames s1) kt (kernel_path va) (page_entry va) x ↔ kslot (frames s) kt (kernel_path va) (page_entry va) x) as Hnow.
  { intros x. rewrite (kc_leaf _ _ _ _ _ _ _ _ Hch) by done. unfold code_leaf. rewrite kernel_va_path by lia.
    replace ((lo <=? va) && (va <? va)) with false by lia. done. }
  wp_step. eapply wp_mono; [eapply (wp_kernel_translate s1 own kt top boot c va Hok1 Hk1 Hc); [by rewrite (proj1 (kc_regs _ _ _ _ _ _ _ _ Hch))|done]|].
  intros [pa|] s' [-> Htr]; cbn in Htr.
  2:{ wp_step. exists va. split; [by split|]. split; [done|]. split; [lia|]. intros [x Hx]. by apply (Htr x), Hnow. }
  destruct Htr as (x0 & Hx0 & ->). pose proof Hx0 as Hs0. rewrite Hnow in Hs0.
  destruct (root_frame _ _ _ _ _ _ Hok1 Hk1 Hroot) as ((_ & Hrr & _) & _).
  wp_step. unfold map_page_in. rewrite pointer_nonzero by done. eapply (wp_kernel_map s1 own kt top boot root va); [done..| |].
  { intros s2 kt' _ _ Hno. by destruct (Hno x0). }
  intros s2 kt' Hch2 Hkt Hopen. rewrite (Hkt x0 Hx0) in Hch2. cbn [negb]. rewrite code_entry in Hch2 by done.
  rewrite u64_small by (unfold PAGE_SIZE, KERNEL_BASE in *; lia). unfold PAGE_SIZE.
  eapply wp_mono; [apply IH; [lia|lia| |]|].
  - split.
    + eapply (kchange_leaf _ _ _ _ _ _ _ (page_leaf s1 kt va (user_code_entry x0))); [by eapply kchange_trans|].
      intros q j x Hq. rewrite <- (code_leaf_next s own kt top boot lo va x0) by (done || lia). unfold page_leaf.
      case_decide; [done|]. by apply (kc_leaf _ _ _ _ _ _ _ _ Hch).
    + intros v Hv Hva'. destruct (decide (v = va)) as [->|]; [split; [by exists x0|]|].
      * rewrite (Hkt x0 Hx0) in Hopen. by apply Hopen.
      * destruct (Hwas v ltac:(lia) Hva') as [Hm Ho]. split; [done|]. by eapply kopen_change.
  - lia.
  - intros b s3 (hi & Hop & Hhi & Hb). exists hi. split; [done|]. split; [done|]. destruct b; [lia|done].
Qed.
End loop.

(** ** The stack *)
Definition stack_entry (a : Z) : Z := Z.lor a (Z.lor (Z.lor Present Writable) User).

Lemma stack_entry_facts a : a `mod` 4096 = 0 → 0 <= a < 2 ^ 52 →
  phys (stack_entry a) = a ∧ Z.lor (Z.lor a (Z.land (stack_entry a) 0xFFF)) Present = stack_entry a ∧
  has (stack_entry a) User = true ∧ has (stack_entry a) Writable = true.
Proof.
  intros Ha Hr. split; [by apply phys_entry|]. split; [|rewrite has_User, has_Writable; unfold stack_entry; by rewrite !Z.lor_spec, !orb_true_r]. unfold stack_entry. rewrite Z.land_lor_distr_l.
  assert (Z.land a 0xFFF = 0) as ->; [change 0xFFF with (Z.ones 12); rewrite Z.land_ones by lia; done|].
  rewrite Z.lor_0_l, <- Z.lor_assoc. done.
Qed.

Lemma wp_map_stack s own root (Q : bool → Vmm P → Prop) :
  vm_ok s own → own !! root = Some (Table root []) →
  (∀ x, slot (frames s) own root stack_path stack_index x → has x User = false) →
  (∀ s' own', extends root s own s' own' → short s' → Q false s') →
  (∀ a s' own', copied root s own kUserStack (stack_entry a) a s' own' → Q true s') →
  wp (map_stack (Some root)) s Q.
Proof.
  intros Hok Hroot Hold Hfail Hdone. unfold map_stack. wp_step. apply wp_in_pmm.
  eapply wp_mono; [apply frame_allocate_spec, Hok|]. intros [a|] p' (Hal & Hman & Hr).
  2:{ wp_step. destruct Hr as [Hav Hno]. eapply Hfail; [by apply set_pmm_extends|]. intros x y Hx. cbn in Hx. by apply Hav, Hno in Hx. }
  destruct Hr as (Hma & Hav & Hav'). destruct (vo_available _ _ Hok a Hav) as [(Ham & Har & _) _].
  destruct (frame_taken_ok s own a p' Hok Hal Hman Hma Hav Hav') as (t & Ht & Hl & -> & Hok1 & Hla & Hsame & Hfr & Hfok).
  destruct (stack_entry_facts a Ham ltac:(lia)) as (Hph & Hse & _). destruct (owned_frame _ _ _ _ Hok Hroot) as (Hrr & _).
  wp_step. unfold map_page_in. rewrite pointer_nonzero by done.
  apply (wp_map_below (filled s a t p') own root kUserStack a); [done..| | |].
  - intros x Hx. apply Hold. by apply Hsame.
  - intros s' own' Hex Hno. cbn [negb]. pose proof (loose_extends _ _ _ _ _ _ Hex Hla) as (_ & Hna & Hmanaged & _).
    wp_step. apply wp_in_pmm. eapply wp_mono; [apply frame_free_spec; [apply Hex|done|done]|]. intros [] p2 (Hal2 & Hman2 & Hav2). wp_step.
    apply (Hfail _ own'); [exact (extends_give_up root s own a t p' s' own' p2 Hok Hl Hal Hman Hma Hav Hav' Hex Hal2 Hman2 Hav2)|]. intros x y Hx Hy. cbn in Hx, Hy. apply Hav2 in Hx as [Hx| ->]; [by apply Hno in Hx|].
    by apply Hav2 in Hy as [Hy| ->]; [apply Hno in Hy|].
  - intros s' own' Hm. cbn [negb]. wp_step. eapply (Hdone a s' own'). eapply copied_mapped; try done; [by rewrite Hph|].
    rewrite Hse. by rewrite <- Z.lor_assoc in Hm.
Qed.

(** ** Both together *)
Section space.
Context (__user_start __user_end : Z) (s : Vmm P) (own : Owners) (kt : KTables) (top boot root c : Z).
Context (Hok : vm_ok s own) (Hk : kernel_ok s own kt top boot).
Context (Hroot : own !! root = Some (Table root [])) (Hcur : pml4_phys_ s = Some c) (Hc : is_root own boot c).
Context (Hstart : KERNEL_BASE <= __user_start <= __user_end) (Hend : __user_end + 4096 <= 2 ^ 64).
Abbreviation first := (first_page __user_start).

Lemma first_facts : KERNEL_BASE <= first ∧ first `mod` 4096 = 0 ∧ first <= __user_start < first + 4096.
Proof using Hstart Hend.
  assert (first = __user_start - __user_start `mod` 4096) as Hf by (apply page_mask_below; unfold KERNEL_BASE in *; lia).
  split; [|split; [apply page_mask_aligned|]]; rewrite Hf; unfold KERNEL_BASE in *; lia.
Qed.

(** After the loop, the lower half of [root] has been changed from [s1] on. *)
Lemma after_code hi s1 s' own' :
  opened s own kt top boot root first hi s1 → confined root s1 own s' own' →
  vm_ok s' own' ∧ kernel_ok s' own' kt top boot ∧ (∀ f, available (pmm s') f ↔ available (pmm s) f ∧ own' !! f = None) ∧
  (∀ q j x, length q = 2%nat → kslot (frames s') kt q j x ↔ code_leaf s kt first hi q j x) ∧
  (∀ f r, own !! f = Some r → own' !! f = Some r) ∧ pml4_phys_ s' = pml4_phys_ s ∧
  (∀ va, was_mapped s kt va → was_mapped s' kt va).
Proof using Hk Hroot Hstart.
  intros [Hch _] Hconf. destruct (kernel_confined _ _ _ _ _ _ _ _ (kc_kernel _ _ _ _ _ _ _ _ Hch) Hroot Hconf) as [Hk' Hs].
  assert (∀ q j x, length q = 2%nat → kslot (frames s') kt q j x ↔ code_leaf s kt first hi q j x) as Hleaf.
  { intros q j x Hq. rewrite Hs. by apply (kc_leaf _ _ _ _ _ _ _ _ Hch). }
  split; [apply Hconf|]. split; [done|]. split; [|split; [done|split; [apply Hconf|split]]].
  - intros f. rewrite (cf_avail _ _ _ _ _ Hconf), (kc_avail _ _ _ _ _ _ _ _ Hch). split; [tauto|]. intros [Hf Hf']. split; [|done]. split; [done|].
    destruct (kt !! f) as [q|] eqn:E; [|done]. by destruct (ko_frame _ _ _ _ _ Hk _ _ E) as (_ & _ & _ & ?).
  - by rewrite (proj1 (cf_regs _ _ _ _ _ Hconf)), (proj1 (kc_regs _ _ _ _ _ _ _ _ Hch)).
  - intros va [x Hx]. unfold was_mapped. setoid_rewrite Hleaf; [|done]. unfold code_leaf. destruct (_ && _); [by exists (user_code_entry x), x|by exists x].
Qed.

(** The program's pages, and the others of the kernel. *)
Lemma code_pages hi s1 s' own' : opened s own kt top boot root first hi s1 → confined root s1 own s' own' → hi `mod` 4096 = 0 → __user_end <= hi < __user_end + 4096 →
  (∀ q j x, length q = 2%nat → kslot (frames s') kt q j x ↔ code_leaf s kt first hi q j x) →
  (∀ va, first <= va < __user_end → va `mod` 4096 = 0 → ∃ x, kslot (frames s) kt (kernel_path va) (page_entry va) x ∧
    kslot (frames s') kt (kernel_path va) (page_entry va) (user_code_entry x) ∧ user_walk (frames s') root va = Some (phys x, false)) ∧
  ∀ q j x, length q = 2%nat → ¬ (first <= kernel_va q j < __user_end) → kslot (frames s') kt q j x ↔ kslot (frames s) kt q j x.
Proof using Hk Hroot Hstart Hend.
  destruct first_facts as (Hf1 & Hf2 & _). intros [Hch Hwas] Hconf Hhi Hr Hs. split.
  - intros va Hva Hal. destruct (Hwas va ltac:(lia) Hal) as [[x Hx] Hopen]. exists x. split; [done|].
    assert (kslot (frames s') kt (kernel_path va) (page_entry va) (user_code_entry x)) as Hx'.
    { apply Hs; [done|]. unfold code_leaf. rewrite kernel_va_path by lia. replace ((first <=? va) && (va <? hi)) with true by lia. by exists x. }
    split; [done|]. pose proof (kc_kernel _ _ _ _ _ _ _ _ Hch) as Hk1. destruct (kernel_confined _ _ _ _ _ _ _ _ Hk1 Hroot Hconf) as [Hk' _].
    destruct (user_code_flags x) as (_ & Hu & Hw). rewrite <- phys_user_code.
    eapply (user_walk_kernel s' own' kt top boot root); [done|left; by eapply (cf_own _ _ _ _ _ Hconf)|lia| |done..]. by eapply (kopen_confined s1).
  - intros q j x Hq Hout. rewrite Hs by done. unfold code_leaf. destruct ((first <=? kernel_va q j) && (kernel_va q j <? hi)) eqn:E; [|done].
    destruct q as [|a [|b [|]]]; try done.
    assert (∀ y, ¬ kslot (frames s) kt [a; b] j y) as Hno; [|split; [intros (y & Hy & _); by destruct (Hno y)|intros Hy; by destruct (Hno x)]].
    intros y Hy. destruct (kslot_index _ _ _ _ _ _ _ _ _ Hk Hy) as (Ha & Hb & Hj).
    assert (kernel_va [a; b] j `mod` 4096 = 0) by (unfold kernel_va, KERNEL_BASE; rewrite page_address_eq by done; lia). lia.
Qed.

(** The user space of [root] after [map_user_space] has returned [b]. *)
Record user_space (b : bool) s' own' : Prop := {
  us_ok : vm_ok s' own';
  us_kernel : kernel_ok s' own' kt top boot;
  us_avail f : available (pmm s') f ↔ available (pmm s) f ∧ own' !! f = None;
  us_own f r : own !! f = Some r → own' !! f = Some r;
  us_regs : pml4_phys_ s' = pml4_phys_ s;
  us_mapped va : was_mapped s kt va → was_mapped s' kt va;
  us_new f r : own' !! f = Some r → own !! f = Some r ∨ available (pmm s) f ∧ root_of r = root;
  us_other r q j x : length q = 3%nat → (r, q, j) ≠ (root, stack_path, stack_index) → slot (frames s') own' r q j x ↔ slot (frames s) own r q j x;
  us_code va : b = true → first <= va < __user_end → va `mod` 4096 = 0 → ∃ x, kslot (frames s) kt (kernel_path va) (page_entry va) x ∧
    kslot (frames s') kt (kernel_path va) (page_entry va) (user_code_entry x) ∧ user_walk (frames s') root va = Some (phys x, false);
  us_kept q j x : b = true → length q = 2%nat → ¬ (first <= kernel_va q j < __user_end) → kslot (frames s') kt q j x ↔ kslot (frames s) kt q j x;
  us_stack : b = true → ∃ a, available (pmm s) a ∧ own' !! a = Some (Page root (stack_path ++ [stack_index])) ∧
    slot (frames s') own' root stack_path stack_index (stack_entry a) ∧ user_walk (frames s') root kUserStack = Some (a, true);
  us_tables f r : b = false → own' !! f = Some r → own !! f = Some r ∨ ∃ p, r = Table root p;
  us_reason : b = false → short s' ∨ ∃ va, first <= va < __user_end ∧ va `mod` 4096 = 0 ∧ ¬ was_mapped s kt va;
}.

Lemma wp_map_user_space :
  (∀ x, slot (frames s) own root stack_path stack_index x → has x User = false) →
  wp (map_user_space __user_start __user_end (Some root)) s (λ b s', ∃ own', user_space b s' own').
Proof using Hok Hk Hroot Hcur Hc Hstart Hend.
  intros Hold. destruct first_facts as (Hf1 & Hf2 & Hf3). unfold map_user_space. wp_step. eapply wp_mono.
  { eapply (wp_map_code __user_end s own kt top boot root c Hok Hk (or_introl Hroot) Hc Hcur first Hf1 Hf2 Hend); [lia|done|by apply opened_none|].
    unfold page_count, PAGE_SIZE. lia. }
  intros b s1 (hi & Hop & Hhi & Hb). pose proof (proj1 Hop) as Hch. pose proof (kc_ok _ _ _ _ _ _ _ _ Hch) as Hok1.
  assert (∀ r q j x, length q = 3%nat → slot (frames s1) own r q j x ↔ slot (frames s) own r q j x) as Hlow.
  { intros r q j x Hq. apply (kc_low _ _ _ _ _ _ _ _ Hch). intros [= -> _]. done. }
  assert (∀ f, available (pmm s1) f → available (pmm s) f) as Hav by (intros f Hf; by apply (kc_avail _ _ _ _ _ _ _ _ Hch) in Hf as [? _]).
  destruct b; cbn [negb].
  2:{ wp_step. exists own. destruct (after_code hi s1 s1 own Hop (confined_refl root s1 own Hok1)) as (A1 & A2 & A3 & A4 & A5 & A6 & A7).
      split; try done; [by left|by auto|by left|]. intros _. right. exists hi. destruct Hb as [Hb Hno]. split; [lia|done]. }
  apply (wp_map_stack s1 own root); [done|done|intros x Hx; by apply Hold, Hlow| |].
  - intros s' own' Hex Hsh. exists own'. destruct (after_code hi s1 s' own' Hop (extends_confined _ _ _ _ _ Hex)) as (A1 & A2 & A3 & A4 & A5 & A6 & A7).
    split; try done; [| | |by left].
    + intros f r [Hf|[Hf [p ->]]]%(ex_new _ _ _ _ _ Hex); [by left|right; auto].
    + intros r q j x Hq _. rewrite (ex_leaf _ _ _ _ _ Hex) by (by left). by apply Hlow.
    + intros f r _ [Hf|[_ Hp]]%(ex_new _ _ _ _ _ Hex); [by left|by right].
  - intros a s' own' Hcp. exists own'. destruct (after_code hi s1 s' own' Hop (copied_confined _ _ _ _ _ _ _ _ Hcp)) as (A1 & A2 & A3 & A4 & A5 & A6 & A7).
    destruct (code_pages hi s1 s' own' Hop (copied_confined _ _ _ _ _ _ _ _ Hcp) Hhi ltac:(lia) A4) as [B1 B2]. pose proof (cp_fresh _ _ _ _ _ _ _ _ Hcp) as Hfresh.
    split; try done; [| |by auto|by auto|].
    + intros f r [Hf|[Hf Hr]]%(cp_new _ _ _ _ _ _ _ _ Hcp); [by left|right; auto].
    + intros r q j x Hq Hne. rewrite (cp_leaf _ _ _ _ _ _ _ _ Hcp) by (by left). rewrite decide_False by done. by apply Hlow.
    + intros _. exists a. split; [by apply Hav|]. split; [apply (cp_page _ _ _ _ _ _ _ _ Hcp)|].
      destruct (vo_available _ _ Hok1 a Hfresh) as [(Ham & Har & _) _]. destruct (stack_entry_facts a Ham ltac:(lia)) as (Hph & Hse & Hu & Hw).
      assert (slot (frames s') own' root stack_path stack_index (stack_entry a)) as Hst.
      { apply (cp_leaf _ _ _ _ _ _ _ _ Hcp); [by left|]. by rewrite decide_True. }
      split; [done|]. replace (Some (a, true)) with (Some (phys (stack_entry a), has (stack_entry a) Writable)) by congruence. apply (user_walk_slot _ own'); [apply (vo_tables _ _ A1)|by eapply (cp_own _ _ _ _ _ _ _ _ Hcp)|done|apply (cp_open _ _ _ _ _ _ _ _ Hcp)|done..].
Qed.

(** C19: A process gets its program and its stack: for each page of the program and
    for the stack, the walk of the processor in user mode, which wants the bit
    [User] in the entry of each of the four levels, ends at the page; the program
    keeps its frames and cannot be written, the stack can. Every other page of the
    kernel stays as it was. The stack is a free frame that belongs to the process
    now, and no other page of any address space changes. It fails only when a page
    of the program is not mapped or no two frames are left, and then every frame
    that was taken is a table of the process. The program is in the kernel's half
    and the process has no stack yet. *)
Theorem map_user_space_correct :
  (∀ x, slot (frames s) own root stack_path stack_index x → has x User = false) →
  wp (map_user_space __user_start __user_end (Some root)) s (λ b s', ∃ own', user_space b s' own').
Proof using Hok Hk Hroot Hcur Hc Hstart Hend. apply wp_map_user_space. Qed.
End space.
End spec.

(** * The first process (include/init.cpp) *)

(** What [init_func] does in the end: it returns, or it is in user mode at an address
    with a stack pointer. *)
Inductive Outcome := Returned | InUserMode (entry user_stack : Z).
Definition entered (o : Outcome) : bool := match o with Returned => false | InUserMode _ _ => true end.

Section init.
Context {P : Type} `{HP : FrameAllocator P} {D : Type} `{HD : PortIO D} `{HU : !Uart D}.

(** Virtual memory and the screen. *)
Record Machine := mkMachine { vm : Vmm P; screen : VGA D }.
Definition set_vm v (m : Machine) := mkMachine v (screen m).
Definition set_screen v (m : Machine) := mkMachine (vm m) v.

(** [enter], up to the change of the privilege level in assembly. *)
Definition enter (entry user_stack : Z) : M (VGA D) Outcome :=
  _ ← set_color LightGreen Black;
  _ ← vga_write (string_bytes "[USER] ");
  _ ← set_color LightGrey Black;
  _ ← vga_write (string_bytes "entering ring 3..." ++ [10]);
  mret (InUserMode entry user_stack).

(** [self] is the current process, [init_main] the address of the program. *)
Definition init_func (__user_start __user_end init_main : Z) (self : Process) : M Machine Outcome :=
  ok ← zoom vm set_vm (map_user_space __user_start __user_end (pml4 self));
  if negb (ok : bool) then mret Returned
  else zoom screen set_screen (enter init_main kUserStackTop).
End init.

(** ** The program (user/init.cpp) *)
Definition LINE_BUFFER_SIZE : nat := 1024.
Definition prompt : list Z := string_bytes "> ".

(** The system calls [read(0, &c, 1)], which gives a character or nothing, and
    [write(1, text, length)]. *)
Class UserSyscall (K : Type) := {
  user_read : M K (option Z);
  user_write : list Z → M K ();
}.

Section main.
Context {K : Type} `{HK : UserSyscall K}.

(** The inner loop; [line] holds the characters stored in the buffer. *)
Fixpoint read_line (n : nat) (line : list Z) : M K (list Z) :=
  match n with
  | O => stuck
  | S n =>
      r ← user_read;
      match r with
      | None => mret line
      | Some c =>
          _ ← user_write [c];
          _ ← (if (length line <? LINE_BUFFER_SIZE)%nat then mret () else stuck);
          let line := line ++ [c] in
          if (c =? 10) || (length line =? LINE_BUFFER_SIZE)%nat then mret line else read_line n line
      end
  end.

(** One turn of the endless loop of [init_main]. *)
Definition init_main_turn : M K () :=
  _ ← user_write prompt;
  line ← read_line LINE_BUFFER_SIZE [];
  let empty_line := (length line =? 1)%nat && (default 0 (line !! 0%nat) =? 10) in
  if (0 <? length line)%nat && negb empty_line then user_write line else mret ().
End main.

(** ** What they do *)
Section init_spec.
Context {P : Type} `{HP : FrameAllocator P} `{HS : !FrameAllocatorSpec P}.
Context {D : Type} `{HD : PortIO D} `{HU : !Uart D} `{HUS : !UartSpec} `{HSS : !ScreenSpec}.
Implicit Types (s : Vmm P) (v : VGA D) (t : Tape).

Definition recolor (fg bg : Color) (t : Tape) : Tape := mkTape (t_cells t) (t_pos t) (t_top t) (make_attr fg bg).

Lemma wp_set_color fg bg v t (Q : () → VGA D → Prop) :
  shows v t → (∀ v', shows v' (recolor fg bg t) → mirror v' = mirror v → io v' = io v → Q () v') → wp (set_color fg bg) v Q.
Proof. intros [[H1 H2 H3] H4 H5 H6 H7 H8] HQ. unfold set_color. wp_step. by apply HQ. Qed.

(** The message of [enter] on the tape. *)
Definition entering (t : Tape) : Tape :=
  let t := foldl tape_put (recolor LightGreen Black t) (string_bytes "[USER] ") in
  foldl tape_put (recolor LightGrey Black t) (string_bytes "entering ring 3..." ++ [10]).

Lemma wp_enter entry user_stack v t :
  shows v t → (mirror v = true → serial_ok (io v)) →
  wp (enter entry user_stack) v (λ o v', o = InUserMode entry user_stack ∧ shows v' (entering t)).
Proof.
  intros Hv Hser. unfold enter. wp_step. eapply wp_set_color; [done|]. intros v1 Hv1 Hm1 Hi1. wp_step.
  eapply wp_mono; [eapply (wp_vga_write v1 _ (string_bytes "[USER] ") Hv1); [repeat (constructor; [by vm_compute|]); constructor|by rewrite Hm1, Hi1]|].
  intros [] v2 (Hv2 & _ & _ & Hm2 & Hser2). wp_step. eapply wp_set_color; [done|]. intros v3 Hv3 Hm3 Hi3. wp_step.
  eapply wp_mono; [eapply (wp_vga_write v3 _ (string_bytes "entering ring 3..." ++ [10]) Hv3); [repeat (constructor; [by vm_compute|]); constructor|]|].
  { rewrite Hm3, Hi3, Hm2. done. }
  intros [] v4 (Hv4 & _). by wp_step.
Qed.

(** The first process enters its program only with the program readable in user mode
    and not writable, a stack pointer that is aligned and inside of the stack page,
    the message on the screen, and otherwise what [map_user_space] promises; when the
    address space cannot be prepared it returns and the screen stays. *)
Theorem init_func_correct (__user_start __user_end init_main : Z) s own kt top boot root c v t (self : Process) :
  vm_ok s own → kernel_ok s own kt top boot → own !! root = Some (Table root []) → pml4_phys_ s = Some c → is_root own boot c →
  KERNEL_BASE <= __user_start <= __user_end → __user_end + 4096 <= 2 ^ 64 →
  (∀ x, slot (frames s) own root stack_path stack_index x → has x User = false) →
  pml4 self = Some root → __user_start <= init_main < __user_end →
  shows v t → (mirror v = true → serial_ok (io v)) →
  wp (init_func __user_start __user_end init_main self) (mkMachine s v) (λ o m, ∃ own',
    user_space __user_start __user_end s own kt top boot root (entered o) (vm m) own' ∧
    match o with
    | Returned => screen m = v
    | InUserMode entry sp =>
        entry = init_main ∧ sp `mod` 16 = 0 ∧ table_path (sp - 8) = stack_path ∧ page_entry (sp - 8) = stack_index ∧
        (∃ x, kslot (frames (vm m)) kt (kernel_path entry) (page_entry entry) x ∧ has x User = true ∧ has x Writable = false) ∧
        shows (screen m) (entering t)
    end).
Proof.
  intros Hok Hk Hroot Hcur Hc Hstart Hend Hold Hself Hmain Hv Hser. unfold init_func. rewrite Hself. wp_step. apply wp_zoom.
  eapply wp_mono; [by eapply (wp_map_user_space __user_start __user_end s own kt top boot root c)|].
  intros b s' (own' & Hus). destruct b; cbn [negb].
  2:{ wp_step. exists own'. split; [exact Hus|done]. }
  apply wp_zoom. eapply wp_mono; [by apply wp_enter|]. intros o v' (-> & Hv'). exists own'. split; [exact Hus|].
  do 2 (split; [done|]). do 2 (split; [by vm_compute|]). split; [|done]. cbn [vm set_screen].
  destruct (first_facts __user_start __user_end Hstart Hend) as (H1 & H2 & H3).
  set (va := init_main - init_main `mod` 4096). assert (va `mod` 4096 = 0) as Hal by (unfold va; lia).
  destruct (us_code _ _ _ _ _ _ _ _ _ _ _ Hus va eq_refl) as (x & _ & Hx & _); [unfold va; lia|done|].
  destruct (user_code_flags x) as (_ & Hu & Hw). exists (user_code_entry x). split; [|done].
  assert (kernel_path init_main = kernel_path va ∧ page_entry init_main = page_entry va) as [-> ->]; [|done].
  unfold kernel_path, page_entry, pdpt_index, pd_index, pt_index. rewrite !index_eq by lia.
  change (2 ^ 30) with 1073741824. change (2 ^ 21) with 2097152. change (2 ^ 12) with 4096. unfold va.
  assert ((init_main - init_main `mod` 4096) / 1073741824 = init_main / 1073741824) as -> by lia.
  assert ((init_main - init_main `mod` 4096) / 2097152 = init_main / 2097152) as -> by lia.
  by assert ((init_main - init_main `mod` 4096) / 4096 = init_main / 4096) as -> by lia.
Qed.
End init_spec.

(** The program against a terminal: the characters still to come, and what it has
    shown. *)
Class Terminal (K : Type) `{UserSyscall K} := {
  typed : K → list Z;
  shown : K → list Z;
  user_read_spec k : wp user_read k (λ r k', shown k' = shown k ∧
    match r with Some c => typed k = c :: typed k' | None => typed k = [] ∧ typed k' = [] end);
  user_write_spec k text : wp (user_write text) k (λ _ k', typed k' = typed k ∧ shown k' = shown k ++ text);
}.

(** The first line of [l] with its newline, at most [n] characters. *)
Fixpoint first_line (n : nat) (l : list Z) : list Z :=
  match n, l with
  | S n, c :: l => if c =? 10 then [c] else c :: first_line n l
  | _, _ => []
  end.

Section main_spec.
Context {K : Type} `{HK : UserSyscall K} `{HT : !Terminal K}.

Lemma wp_read_line n line k :
  (length line + n = LINE_BUFFER_SIZE)%nat → (0 < n)%nat →
  wp (read_line n line) k (λ r k', r = line ++ first_line n (typed k) ∧ typed k = first_line n (typed k) ++ typed k' ∧
    shown k' = shown k ++ first_line n (typed k)).
Proof.
  revert line k. induction n as [|n IH]; intros line k Hn Hpos; [lia|]. cbn [read_line].
  wp_step. eapply wp_mono; [apply user_read_spec|]. intros [c|] k1 (Hs1 & Ht1).
  2:{ wp_step. destruct Ht1 as [-> ->]. cbn [first_line]. by rewrite !app_nil_r. }
  wp_step. eapply wp_mono; [apply user_write_spec|]. intros [] k2 (Ht2 & Hs2). wp_step.
  rewrite (proj2 (Nat.ltb_lt (length line) LINE_BUFFER_SIZE)) by lia. wp_step. rewrite Ht1. cbn [first_line]. rewrite length_app. cbn [length].
  destruct (c =? 10) eqn:Ec; cbn [orb]; [wp_step; by rewrite Ht2, Hs2, Hs1|].
  destruct (Nat.eqb_spec (length line + 1) LINE_BUFFER_SIZE) as [El|El].
  - wp_step. assert (n = 0%nat) as -> by lia. cbn [first_line]. by rewrite Ht2, Hs2, Hs1.
  - eapply wp_mono; [apply IH; [rewrite length_app; cbn; lia|lia]|]. intros r k3 (-> & Ht3 & Hs3). rewrite Ht2 in *.
    split; [by rewrite <- app_assoc|]. split; [by rewrite Ht3 at 1|]. by rewrite Hs3, Hs2, Hs1, <- !app_assoc.
Qed.

(** One turn of [init_main]: the prompt, each character as it is typed, and, when the
    line is not empty, the line once more; a line ends at its newline, at the end of
    the input or with its 1024th character, so the buffer is never overrun, and the
    next turn goes on with the next character. *)
Theorem init_main_turn_correct k :
  wp init_main_turn k (λ _ k', let line := first_line LINE_BUFFER_SIZE (typed k) in
    typed k = line ++ typed k' ∧
    shown k' = shown k ++ prompt ++ line ++ (if bool_decide (line = [] ∨ line = [10]) then [] else line)).
Proof.
  unfold init_main_turn. wp_step. eapply wp_mono; [apply user_write_spec|]. intros [] k1 (Ht1 & Hs1). wp_step.
  eapply wp_mono; [apply (wp_read_line LINE_BUFFER_SIZE [] k1); unfold LINE_BUFFER_SIZE; cbn; lia|].
  intros r k2 (-> & Ht2 & Hs2). rewrite Ht1 in *. set (line := first_line LINE_BUFFER_SIZE (typed k)) in *. cbn [app].
  assert ((0 <? length line)%nat && negb ((length line =? 1)%nat && (default 0 (line !! 0%nat) =? 10)) = negb (bool_decide (line = [] ∨ line = [10]))) as ->.
  { destruct line as [|c [|d l]]; cbn.
    - done.
    - destruct (c =? 10) eqn:E; [rewrite bool_decide_true; [done|right; f_equal; lia]|rewrite bool_decide_false; [done|]]. intros [[=]|[= ->]]. done.
    - rewrite bool_decide_false; [done|]. by intros [?|?]. }
  destruct (bool_decide _); cbn [negb].
  - wp_step. split; [done|]. by rewrite Hs2, Hs1, app_nil_r, <- app_assoc.
  - eapply wp_mono; [apply user_write_spec|]. intros [] k3 (Ht3 & Hs3). split; [by rewrite Ht3|]. by rewrite Hs3, Hs2, Hs1, <- !app_assoc.
Qed.
End main_spec.

(** * On a machine *)

Definition user_text : Z := 0xFFFFFFFF80100000.

Lemma kvm1_ready : ∃ own, vm_ok kvm1 own ∧ kernel_ok kvm1 own ktab (kpage 1) (kpage 0) ∧ own !! kroot = Some (Table kroot []) ∧
  ∀ x, slot (frames kvm1) own kroot stack_path stack_index x → has x User = false.
Proof.
  destruct kvm1_created as (own & Hcr). destruct (kernel_created _ _ _ _ _ _ _ _ _ kvm0_ok kvm0_kernel (or_intror eq_refl) Hcr) as [Hk _].
  destruct Hcr as (Hconf & _ & _ & Hown & Hempty & _). pose proof (cf_ok _ _ _ _ _ Hconf) as Hok.
  assert (own !! kroot = Some (Table kroot [])) as Hroot by (rewrite Hown; apply lookup_insert_eq).
  exists own. do 3 (split; [done|]). intros x Hs. destruct (has x User) eqn:Eu; [|done]. exfalso.
  assert ((kUserStack, x) ∈ user_pages (frames kvm1) kroot) as Hin.
  { apply (elem_user_pages _ own); [apply (vo_tables _ _ Hok)|done|]. exists 0%nat, 3%nat, 0%nat. do 3 (split; [lia|]). done. }
  rewrite Hempty in Hin. by apply elem_of_nil in Hin.
Qed.

Lemma map_user_space_correct_witness :
  result (map_user_space user_text (user_text + 4096) (Some kroot)) kvm1 = Some true ∧
  wp (map_user_space user_text (user_text + 4096) (Some kroot)) kvm1 (λ b s', b = true →
    user_walk (frames s') kroot user_text = Some (kpage 4, false) ∧
    ∃ a, available (pmm kvm1) a ∧ user_walk (frames s') kroot kUserStack = Some (a, true)).
Proof.
  split; [by vm_compute|]. destruct kvm1_ready as (own & Hok & Hk & Hroot & Hold).
  assert (pml4_phys_ kvm1 = Some (kpage 0)) as Hcur by (by vm_compute).
  assert (KERNEL_BASE <= user_text <= user_text + 4096) as Hstart by (unfold KERNEL_BASE, user_text; lia).
  assert (user_text + 4096 + 4096 <= 2 ^ 64) as Hend by (unfold user_text; lia).
  eapply wp_mono; [exact (map_user_space_correct user_text (user_text + 4096) kvm1 own ktab (kpage 1) (kpage 0) kroot (kpage 0)
    Hok Hk Hroot Hcur (or_intror eq_refl) Hstart Hend Hold)|].
  intros b s' (own' & Hus) ->. split.
  - destruct (us_code _ _ _ _ _ _ _ _ _ _ _ Hus user_text eq_refl) as (x & Hx & Hx' & Hw); [split; by vm_compute|by vm_compute|].
    change (kernel_path user_text) with [510%nat; 0%nat] in Hx, Hx'. change (page_entry user_text) with 256%nat in Hx, Hx'.
    assert (x = kpage 4 + 3) as ->; [|exact Hw].
    destruct Hx as (f & Hf & He & _). apply ktab_cases in Hf as [[_ ?]|[[_ ?]|[-> _]]]; [done..|].
    assert (entry_at (frames kvm1) (kpage 3) 256 = Some (kpage 4 + 3)) as He' by (by vm_compute). rewrite He' in He. by injection He.
  - destruct (us_stack _ _ _ _ _ _ _ _ _ _ _ Hus eq_refl) as (a & Ha & _ & _ & Hs). exists a. split; [exact Ha|exact Hs].
Defined.
