(* ===== verification/Pic.v ===== *)
(** * Interrupt controllers and timer (include/pic.hpp, include/pic.cpp)

    The two 8259A, of which the second hangs on line 2 of the first, and channel 0 of
    the 8254, programmed through their ports. *)
From S2P Require Import Prelude Cpu.

Definition PIC1_COMMAND : Z := 0x20.
Definition PIC1_DATA : Z := 0x21.
Definition PIC2_COMMAND : Z := 0xA0.
Definition PIC2_DATA : Z := 0xA1.
Definition PIC_EOI : Z := 0x20.
Definition PIT_CHANNEL0 : Z := 0x40.
Definition PIT_COMMAND : Z := 0x43.
Definition PIT_FREQUENCY : Z := 1193182.

Definition Icw4Needed : Z := 0x01.
Definition Initialize : Z := 0x10.
Definition Mode8086 : Z := 0x01.

Definition CASCADE_IRQ : Z := 2.
Definition MASTER_CASCADE_MASK : Z := u8 (Z.shiftl 1 CASCADE_IRQ).
Definition SLAVE_CASCADE_ID : Z := CASCADE_IRQ.

Inductive PitChannel := Channel0 | Channel1 | Channel2 | ReadBack.
Inductive PitAccess := LatchCount | LowByteOnly | HighByteOnly | LowThenHighByte.
Inductive PitMode :=
| InterruptOnTerminalCount | HardwareRetriggerableOneShot | RateGenerator | SquareWave | SoftwareTriggeredStrobe | HardwareTriggeredStrobe.
Inductive PitCounterFormat := Binary | Bcd.

Definition channel_bits (c : PitChannel) : Z := match c with Channel0 => 0 | Channel1 => 1 | Channel2 => 2 | ReadBack => 3 end.
Definition access_bits (a : PitAccess) : Z := match a with LatchCount => 0 | LowByteOnly => 1 | HighByteOnly => 2 | LowThenHighByte => 3 end.
Definition mode_bits (m : PitMode) : Z :=
  match m with
  | InterruptOnTerminalCount => 0 | HardwareRetriggerableOneShot => 1 | RateGenerator => 2 | SquareWave => 3
  | SoftwareTriggeredStrobe => 4 | HardwareTriggeredStrobe => 5
  end.
Definition format_bits (f : PitCounterFormat) : Z := match f with Binary => 0 | Bcd => 1 end.

Record PitCommand := mkPitCommand { channel : PitChannel; access : PitAccess; mode : PitMode; counter_format : PitCounterFormat }.
(** [operator uint8_t] *)
Definition pit_command_byte (c : PitCommand) : Z :=
  u8 (Z.lor (Z.lor (Z.lor (Z.shiftl (channel_bits (channel c)) 6) (Z.shiftl (access_bits (access c)) 4))
    (Z.shiftl (mode_bits (mode c)) 1)) (format_bits (counter_format c))).

Section Pic.
Context {D : Type} `{PortIO D}.

Definition InitializePIC (offset1 offset2 : Z) : M D () :=
  m1 ← inb PIC1_DATA;
  m2 ← inb PIC2_DATA;
  _ ← outb PIC1_COMMAND (Z.lor Initialize Icw4Needed);
  _ ← io_wait;
  _ ← outb PIC2_COMMAND (Z.lor Initialize Icw4Needed);
  _ ← io_wait;
  _ ← outb PIC1_DATA offset1;
  _ ← io_wait;
  _ ← outb PIC2_DATA offset2;
  _ ← io_wait;
  _ ← outb PIC1_DATA MASTER_CASCADE_MASK;
  _ ← io_wait;
  _ ← outb PIC2_DATA SLAVE_CASCADE_ID;
  _ ← io_wait;
  _ ← outb PIC1_DATA Mode8086;
  _ ← io_wait;
  _ ← outb PIC2_DATA Mode8086;
  _ ← io_wait;
  _ ← outb PIC1_DATA m1;
  outb PIC2_DATA m2.

(** A division by zero is undefined. *)
Definition InitializePIT (hz : Z) : M D () :=
  _ ← outb PIT_COMMAND (pit_command_byte (mkPitCommand Channel0 LowThenHighByte SquareWave Binary));
  if hz =? 0 then stuck
  else
    let divisor := u16 (PIT_FREQUENCY / hz) in
    _ ← outb PIT_CHANNEL0 (Z.land divisor 0xFF);
    outb PIT_CHANNEL0 (Z.land (Z.shiftr divisor 8) 0xFF).

(** Controller and line of an interrupt. *)
Definition data_port (irq : Z) : Z := if irq <? 8 then PIC1_DATA else PIC2_DATA.
Definition line_of (irq : Z) : Z := if irq >=? 8 then irq - 8 else irq.

(** A shift of an [int] by 32 bits or more is undefined. *)
Definition mask_irq (irq : Z) : M D () :=
  m ← inb (data_port irq);
  if line_of irq >=? 32 then stuck else outb (data_port irq) (u8 (Z.lor m (Z.shiftl 1 (line_of irq)))).
Definition unmask_irq (irq : Z) : M D () :=
  m ← inb (data_port irq);
  if line_of irq >=? 32 then stuck else outb (data_port irq) (u8 (Z.land m (Z.lnot (Z.shiftl 1 (line_of irq))))).

Definition send_eoi (irq : Z) : M D () :=
  _ ← (if irq >=? 8 then outb PIC2_COMMAND PIC_EOI else mret ());
  outb PIC1_COMMAND PIC_EOI.
End Pic.

(** * What the controllers do with the commands

    The 8259A and the 8254 as state machines over the bytes they are given, and what
    the functions of pic.cpp make of any state of the three chips. *)

(** ** The 8259A

    [I8259 n] waits for the initialisation word [n]; [vector] is the first vector,
    [cascade] what it was told about the other chip, [imr] the mask and [isr] the
    lines in service, the highest priority being line 0. *)
Inductive Phase := WaitIcw (n : Z) | Ready.
Record I8259 := mkI8259 { phase : Phase; icw4 : bool; vector : Z; cascade : Z; mode86 : bool; imr : Z; isr : list Z }.

Definition pic_command (v : Z) (c : I8259) : I8259 :=
  if Z.testbit v 4 then mkI8259 (WaitIcw 2) (Z.testbit v 0) (vector c) (cascade c) false 0 []
  else if v =? 0x20 then mkI8259 (phase c) (icw4 c) (vector c) (cascade c) (mode86 c) (imr c) (tail (isr c))
  else c.
Definition pic_data (v : Z) (c : I8259) : I8259 :=
  match phase c with
  | WaitIcw 2 => mkI8259 (WaitIcw 3) (icw4 c) (v / 8 * 8) (cascade c) (mode86 c) (imr c) (isr c)
  | WaitIcw 3 => mkI8259 (if icw4 c then WaitIcw 4 else Ready) (icw4 c) (vector c) v (mode86 c) (imr c) (isr c)
  | WaitIcw _ => mkI8259 Ready (icw4 c) (vector c) (cascade c) (Z.testbit v 0) (imr c) (isr c)
  | Ready => mkI8259 Ready (icw4 c) (vector c) (cascade c) (mode86 c) v (isr c)
  end.

(** ** Channel 0 of the 8254

    [counter] is the divisor, 0 meaning 65536; [latched] the low byte while the high
    one is missing. *)
Record I8254 := mkI8254 { square_wave : bool; low_high : bool; latched : option Z; counter : Z }.
Definition pit_command (v : Z) (c : I8254) : I8254 :=
  if field v 6 2 =? 0 then mkI8254 (field v 1 3 =? 3) (field v 4 2 =? 3) None (counter c) else c.
Definition pit_data (v : Z) (c : I8254) : I8254 :=
  if low_high c then
    match latched c with
    | None => mkI8254 (square_wave c) true (Some v) (counter c)
    | Some low => mkI8254 (square_wave c) true None (v * 256 + low)
    end
  else c.

(** ** The board *)
Record Chips := mkChips { master : I8259; slave : I8259; pit : I8254; key : Z }.
Definition chips_outb (p v : Z) (c : Chips) : Chips :=
  if p =? PIC1_COMMAND then mkChips (pic_command v (master c)) (slave c) (pit c) (key c)
  else if p =? PIC1_DATA then mkChips (pic_data v (master c)) (slave c) (pit c) (key c)
  else if p =? PIC2_COMMAND then mkChips (master c) (pic_command v (slave c)) (pit c) (key c)
  else if p =? PIC2_DATA then mkChips (master c) (pic_data v (slave c)) (pit c) (key c)
  else if p =? PIT_COMMAND then mkChips (master c) (slave c) (pit_command v (pit c)) (key c)
  else if p =? PIT_CHANNEL0 then mkChips (master c) (slave c) (pit_data v (pit c)) (key c)
  else c.
Definition chips_inb (p : Z) (c : Chips) : Z :=
  if p =? PIC1_DATA then imr (master c) else if p =? PIC2_DATA then imr (slave c) else if p =? 0x60 then key c else 255.

#[export] Instance chips_ports : PortIO Chips := {|
  outb p v := modify (chips_outb p v);
  inb p := gets (chips_inb p);
  out16b _ _ := mret ();
  in16b _ := mret 65535;
  out32b _ _ := mret ();
  in32b _ := mret 4294967295;
  io_wait := mret ();
|}.

(** The four initialisation words and the mask. *)
Lemma icw_sequence c offset cas m :
  pic_data m (pic_data Mode8086 (pic_data cas (pic_data offset (pic_command 17 c)))) = mkI8259 Ready true (offset / 8 * 8) cas true m [].
Proof. reflexivity. Qed.

(** [InitializePIC] brings both controllers, from any state, into 8086 mode with
    the given first vectors, tells them how they are connected, forgets interrupts in
    service and leaves the masks as they were. *)
Theorem InitializePIC_correct c offset1 offset2 :
  offset1 `mod` 8 = 0 → offset2 `mod` 8 = 0 →
  InitializePIC offset1 offset2 c = Some ((), mkChips
    (mkI8259 Ready true offset1 (2 ^ CASCADE_IRQ) true (imr (master c)) [])
    (mkI8259 Ready true offset2 CASCADE_IRQ true (imr (slave c)) []) (pit c) (key c)).
Proof.
  intros H1 H2. assert (offset1 / 8 * 8 = offset1 ∧ offset2 / 8 * 8 = offset2) as [E1 E2] by lia.
  unfold InitializePIC, mbind, M_bind. cbn. unfold modify, chips_outb. cbn. do 2 f_equal.
  change (Z.lor Initialize Icw4Needed) with 17. rewrite !icw_sequence. by rewrite E1, E2.
Qed.

(** [InitializePIT] sets channel 0 to a square wave; the divisor is the one for
    [hz] interrupts a second, rounded down, for every frequency from 19 Hz on that the
    timer can reach. *)
Theorem InitializePIT_correct c hz :
  19 <= hz <= PIT_FREQUENCY →
  InitializePIT hz c = Some ((), mkChips (master c) (slave c) (mkI8254 true true None (PIT_FREQUENCY / hz)) (key c)) ∧
  PIT_FREQUENCY / hz * hz <= PIT_FREQUENCY < (PIT_FREQUENCY / hz + 1) * hz.
Proof.
  intros Hhz. unfold PIT_FREQUENCY in *. assert (0 < 1193182 / hz < 65536) as Hd.
  { split; [apply Z.div_str_pos; lia|apply Z.div_lt_upper_bound; lia]. }
  pose proof (Z.mul_div_le 1193182 hz ltac:(lia)). pose proof (Z.mul_succ_div_gt 1193182 hz ltac:(lia)). split; [|lia].
  unfold InitializePIT, mbind, M_bind. replace (hz =? 0) with false by lia. unfold PIT_FREQUENCY. rewrite u16_small by lia.
  cbn -[Z.div Z.mul Z.land Z.shiftr]. change 255 with (Z.ones 8). rewrite !Z.land_ones, Z.shiftr_div_pow2 by lia.
  change (2 ^ 8) with 256. revert Hd. generalize (1193182 / hz) as d. intros d Hd.
  replace d with ((d / 256) `mod` 256 * 256 + d `mod` 256) at 3 by lia. reflexivity.
Qed.

(** Below 19 Hz the divisor does not fit into 16 bits: the timer runs fast. *)
Theorem pit_divisor_wraps c : InitializePIT 18 c = Some ((), mkChips (master c) (slave c) (mkI8254 true true None 751) (key c)).
Proof. reflexivity. Qed.

(** The mask of a line after [mask_irq] or [unmask_irq]. *)
Definition masked (c : Chips) (irq : Z) : bool := Z.testbit (imr (if irq <? 8 then master c else slave c)) (line_of irq).

(** One bit set or cleared in a byte. *)
Lemma testbit_set m i n : 0 <= i < 8 → 0 <= n < 8 →
  Z.testbit (u8 (Z.lor m (Z.shiftl 1 i))) n = if decide (n = i) then true else Z.testbit m n.
Proof.
  intros Hi Hn. rewrite testbit_u8, Z.lor_spec, Z.shiftl_1_l, Z.pow2_bits_eqb by lia.
  destruct (decide (n = i)) as [->|]; [by rewrite Z.eqb_refl, orb_true_r|]. replace (i =? n) with false by lia. apply orb_false_r.
Qed.
Lemma testbit_clear m i n : 0 <= i < 8 → 0 <= n < 8 →
  Z.testbit (u8 (Z.land m (Z.lnot (Z.shiftl 1 i)))) n = if decide (n = i) then false else Z.testbit m n.
Proof.
  intros Hi Hn. rewrite testbit_u8, Z.land_spec, Z.lnot_spec, Z.shiftl_1_l, Z.pow2_bits_eqb by lia.
  destruct (decide (n = i)) as [->|]; [by rewrite Z.eqb_refl, andb_false_r|]. replace (i =? n) with false by lia. apply andb_true_r.
Qed.

(** A mask written to the controller of a line. *)
Lemma masked_write c irq v j :
  phase (master c) = Ready → phase (slave c) = Ready → 0 <= j < 16 →
  masked (chips_outb (data_port irq) v c) j = if decide ((irq <? 8) = (j <? 8)) then Z.testbit v (line_of j) else masked c j.
Proof.
  intros Hm Hs Hj. unfold masked, data_port. destruct (irq <? 8); unfold chips_outb; cbn; unfold pic_data; rewrite ?Hm, ?Hs; by destruct (j <? 8).
Qed.

(** [mask_irq] and [unmask_irq] set and clear the mask of their line and leave all
    the others of both controllers as they are. *)
Theorem mask_unmask_correct c irq :
  0 <= irq < 16 → phase (master c) = Ready → phase (slave c) = Ready →
  wp (mask_irq irq) c (λ _ c', ∀ j, 0 <= j < 16 → masked c' j = if decide (j = irq) then true else masked c j) ∧
  wp (unmask_irq irq) c (λ _ c', ∀ j, 0 <= j < 16 → masked c' j = if decide (j = irq) then false else masked c j).
Proof.
  intros Hirq Hm Hs. unfold mask_irq, unmask_irq. assert (0 <= line_of irq < 8) as Hl by (unfold line_of; destruct (irq >=? 8) eqn:?; lia).
  assert (chips_inb (data_port irq) c = imr (if irq <? 8 then master c else slave c)) as Hin by (unfold data_port; by destruct (irq <? 8)).
  assert (∀ j, 0 <= j < 16 → 0 <= line_of j < 8 ∧ (j = irq ↔ (irq <? 8) = (j <? 8) ∧ line_of j = line_of irq)) as Hline.
  { intros j Hj. unfold line_of. destruct (j >=? 8) eqn:?, (irq >=? 8) eqn:?, (j <? 8) eqn:?, (irq <? 8) eqn:?; lia. }
  split; (wp_step; apply wp_gets; rewrite Hin; replace (_ >=? 32) with false by lia; apply wp_modify; intros j Hj; rewrite masked_write by done;
    destruct (Hline j Hj) as [Hlj Heq]; rewrite ?testbit_set, ?testbit_clear by done).
  - repeat case_decide; try tauto. unfold masked. by replace (irq <? 8) with (j <? 8).
  - repeat case_decide; try tauto. unfold masked. by replace (irq <? 8) with (j <? 8).
Qed.

(** [send_eoi] ends the interrupt with the highest priority on the controller of the
    line, and for a line of the second controller the one on the first, through which
    it came, as well. *)
Theorem send_eoi_correct c irq :
  wp (send_eoi irq) c (λ _ c', isr (master c') = tail (isr (master c)) ∧
    isr (slave c') = (if irq <? 8 then isr (slave c) else tail (isr (slave c))) ∧
    imr (master c') = imr (master c) ∧ imr (slave c') = imr (slave c) ∧ pit c' = pit c ∧ key c' = key c).
Proof.
  unfold send_eoi. destruct (irq >=? 8) eqn:E; wp_step; [apply wp_modify|wp_step]; apply wp_modify.
  - replace (irq <? 8) with false by lia. done.
  - replace (irq <? 8) with true by lia. done.
Qed.

(** The chips as the firmware leaves them. *)
Definition firmware : Chips := mkChips (mkI8259 Ready true 8 4 true 0xB8 [0]) (mkI8259 Ready true 0x70 2 true 0x8F []) (mkI8254 true true None 0) 0x1E.

Lemma InitializePIC_correct_witness :
  InitializePIC 0x20 0x28 firmware = Some ((), mkChips (mkI8259 Ready true 0x20 4 true 0xB8 []) (mkI8259 Ready true 0x28 2 true 0x8F []) (pit firmware) 0x1E).
Proof. apply (InitializePIC_correct firmware 0x20 0x28); reflexivity. Defined.

Lemma InitializePIT_correct_witness :
  InitializePIT 100 firmware = Some ((), mkChips (master firmware) (slave firmware) (mkI8254 true true None 11931) 0x1E).
Proof. apply (InitializePIT_correct firmware 100). split; discriminate. Defined.

Lemma mask_unmask_correct_witness :
  wp (unmask_irq 1) firmware (λ _ c', masked c' 1 = false ∧ masked c' 3 = masked firmware 3).
Proof.
  eapply wp_mono; [apply (mask_unmask_correct firmware 1); [lia|reflexivity|reflexivity]|].
  intros u c' H. pose proof (H 1 ltac:(lia)) as H1. pose proof (H 3 ltac:(lia)) as H3. exact (conj H1 H3).
Defined.
