(* ===== verification/Multiboot2.v ===== *)
(** * The information of the boot loader (include/multiboot2.hpp, include/multiboot2.cpp)

    The walk over the tags, on a memory of bytes ([mem va] is the byte at a virtual
    address, if there is one), and the entries of the memory map as the constructor
    of the physical memory manager reads them. *)
From S2P Require Import Prelude.
From S2P Require Pmm.

Definition MULTIBOOT2_TAG_END : Z := 0.
Definition MULTIBOOT2_TAG_TYPE_MEMORY_MAP : Z := 6.
Definition DIRECT_MAP_BASE : Z := 0xFFFF800000000000.

(** [Multiboot2Tag], without the flags. *)
Record Multiboot2Tag := mkTag { type : Z; size : Z }.

Section Multiboot2.
Context (mem : Z → option Z).

Fixpoint read_bytes (n : nat) (va : Z) : option (list Z) :=
  match n with
  | O => Some []
  | S n => b ← mem va; l ← read_bytes n (va + 1); Some (b :: l)
  end.
Definition read_int (n : nat) (va : Z) : option Z := le_value <$> read_bytes n va.

(** The tag at an address: 16 bits of type, 16 bits of flags, 32 bits of size. *)
Definition tag_at (va : Z) : option Multiboot2Tag :=
  ty ← read_int 2 va; sz ← read_int 4 (va + 4); Some (mkTag ty sz).

Definition find_next_tag (va : Z) : option Z :=
  t ← tag_at va; Some (u64 (va + Z.land (u32 (size t + 7)) (u32 (Z.lnot 7)))).

(** The loop of [find_mmap]; [Some None] is the null pointer. *)
Fixpoint walk_tags (fuel : nat) (va : Z) : option (option Z) :=
  match fuel with
  | O => None
  | S fuel =>
      t ← tag_at va;
      if type t =? MULTIBOOT2_TAG_END then Some None
      else if type t =? MULTIBOOT2_TAG_TYPE_MEMORY_MAP then Some (Some va)
      else next ← find_next_tag va; walk_tags fuel next
  end.
Definition find_mmap (fuel : nat) (multiboot_address : Z) : option (option Z) :=
  walk_tags fuel (u64 (multiboot_address + DIRECT_MAP_BASE) + 8).

Definition multiboot_info_size (multiboot_address : Z) : option Z :=
  if multiboot_address =? 0 then Some 0 else read_int 4 (u64 (multiboot_address + DIRECT_MAP_BASE)).

(** The entries of the map at [va]: [n] of them from number [i] on. *)
Definition sizeof_Multiboot2MemoryMapTag : Z := 16.
Fixpoint read_entries (n : nat) (i va entry_size : Z) : option (list Pmm.MemoryMapEntry) :=
  match n with
  | O => Some []
  | S n =>
      let e := va + sizeof_Multiboot2MemoryMapTag + u32 (i * entry_size) in
      b ← read_int 8 e;
      l ← read_int 8 (e + 8);
      t ← read_int 4 (e + 16);
      rest ← read_entries n (i + 1) va entry_size;
      Some (Pmm.mkMemoryMapEntry b l t :: rest)
  end.
Definition memory_map_entries (va : Z) : option (list Pmm.MemoryMapEntry) :=
  size ← read_int 4 (va + 4);
  entry_size ← read_int 4 (va + 8);
  if entry_size =? 0 then None
  else
    let num_page := u32 (u64 (size - sizeof_Multiboot2MemoryMapTag) / entry_size) in
    read_entries (Z.to_nat num_page) 0 va entry_size.
End Multiboot2.

(** ** The information in memory *)

(** A tag has a type and a payload and starts at a multiple of eight bytes. *)
Definition Tag : Type := Z * list Z.
Definition tag_length (t : Tag) : Z := 8 + Z.of_nat (length t.2).
Definition padded (n : Z) : Z := (n + 7) / 8 * 8.
Definition tag_image (t : Tag) : list Z :=
  le_bytes 2 t.1 ++ le_bytes 2 0 ++ le_bytes 4 (tag_length t) ++ t.2 ++ replicate (Z.to_nat (padded (tag_length t) - tag_length t)) 0.
Definition image (tags : list Tag) : list Z := mjoin (tag_image <$> tags) ++ tag_image (MULTIBOOT2_TAG_END, []).
Definition info_image (tags : list Tag) : list Z :=
  le_bytes 4 (8 + Z.of_nat (length (image tags))) ++ le_bytes 4 0 ++ image tags.

(** The memory map as a tag. *)
Definition entry_image (e : Pmm.MemoryMapEntry) : list Z :=
  le_bytes 8 (Pmm.base_addr e) ++ le_bytes 8 (Pmm.entry_length e) ++ le_bytes 4 (Pmm.entry_type e) ++ le_bytes 4 0.
Definition map_tag (entries : list Pmm.MemoryMapEntry) : Tag :=
  (MULTIBOOT2_TAG_TYPE_MEMORY_MAP, le_bytes 4 24 ++ le_bytes 4 0 ++ mjoin (entry_image <$> entries)).

(** Where the first memory map is. *)
Fixpoint map_address (va : Z) (tags : list Tag) : option Z :=
  match tags with
  | [] => None
  | t :: tags => if t.1 =? MULTIBOOT2_TAG_TYPE_MEMORY_MAP then Some va else map_address (va + padded (tag_length t)) tags
  end.

Definition holds (mem : Z → option Z) (va : Z) (l : list Z) : Prop := ∀ i b, l !! i = Some b → mem (va + Z.of_nat i) = Some b.
Definition tag_ok (t : Tag) : Prop := 0 < t.1 < 65536 ∧ tag_length t < 2 ^ 31.
Definition entry_ok (e : Pmm.MemoryMapEntry) : Prop :=
  0 <= Pmm.base_addr e < 2 ^ 64 ∧ 0 <= Pmm.entry_length e < 2 ^ 64 ∧ 0 <= Pmm.entry_type e < 2 ^ 32.

Section reads.
Context (mem : Z → option Z).

Lemma holds_app va l l' : holds mem va (l ++ l') ↔ holds mem va l ∧ holds mem (va + Z.of_nat (length l)) l'.
Proof.
  split.
  - intros H. split; intros i b Hi.
    + apply H. rewrite lookup_app_l; [done|by apply lookup_lt_Some in Hi].
    + replace (va + Z.of_nat (length l) + Z.of_nat i) with (va + Z.of_nat (length l + i)) by lia. apply H.
      rewrite lookup_app_r by lia. rewrite <- Hi. f_equal. lia.
  - intros [H1 H2] i b Hi. destruct (decide (i < length l)%nat).
    + apply H1. by rewrite lookup_app_l in Hi.
    + rewrite lookup_app_r in Hi by lia. apply H2 in Hi. rewrite <- Hi. f_equal. lia.
Qed.

Lemma read_held l va : holds mem va l → read_bytes mem (length l) va = Some l.
Proof.
  revert va. induction l as [|b l IH]; intros va H; [done|]. cbn [length read_bytes].
  pose proof (H 0%nat b eq_refl) as H0. replace (va + Z.of_nat 0) with va in H0 by lia. rewrite H0. cbn.
  rewrite IH; [done|]. intros i b' Hi. pose proof (H (S i) b' Hi) as H1. rewrite <- H1. f_equal. lia.
Qed.

Lemma read_int_held n v va : holds mem va (le_bytes n v) → 0 <= v < 256 ^ Z.of_nat n → read_int mem n va = Some v.
Proof.
  intros H Hv. apply read_held in H. rewrite length_le_bytes in H. unfold read_int. rewrite H. cbn. by rewrite le_value_le_bytes.
Qed.

Lemma tag_held va t : holds mem va (tag_image t) → 0 <= t.1 < 65536 → tag_length t < 2 ^ 31 → tag_at mem va = Some (mkTag t.1 (tag_length t)).
Proof.
  intros H Ht Hl. unfold tag_image in H. rewrite !holds_app, !length_le_bytes in H. destruct H as (H1 & _ & H2 & _).
  unfold tag_at. rewrite (read_int_held 2 t.1 va) by (done || (change (256 ^ Z.of_nat 2) with 65536; lia)). cbn [mbind option_bind].
  replace (va + Z.of_nat 2 + Z.of_nat 2) with (va + 4) in H2 by lia.
  rewrite (read_int_held 4 (tag_length t) (va + 4)); [done|done|]. unfold tag_length in *. change (256 ^ Z.of_nat 4) with (2 ^ 32). lia.
Qed.

Lemma round_up_8 x : 0 <= x → x + 7 < 4294967296 → Z.land (u32 (x + 7)) (u32 (Z.lnot 7)) = padded x.
Proof.
  intros Hx Hlt. rewrite u32_small by lia. unfold u32, padded. change 7 with (Z.ones 3) at 2. change 4294967296 with (2 ^ 32).
  rewrite <- Z.land_ones by lia. rewrite (Z.land_comm (Z.lnot _)), Z.land_assoc, Z.land_ones, Z.mod_small by (change (2 ^ 32) with 4294967296; lia).
  rewrite <- Z.ldiff_land, Z.ldiff_ones_r, Z.shiftl_mul_pow2, Z.shiftr_div_pow2 by lia. done.
Qed.

Lemma length_tag_image t : Z.of_nat (length (tag_image t)) = padded (tag_length t).
Proof. unfold tag_image. rewrite !length_app, !length_le_bytes, length_replicate. unfold padded, tag_length in *. lia. Qed.

Lemma walk_tags_image tags va :
  holds mem va (image tags) → Forall tag_ok tags → 0 <= va → va + Z.of_nat (length (image tags)) <= 2 ^ 64 →
  walk_tags mem (S (length tags)) va = Some (map_address va tags).
Proof.
  revert va. induction tags as [|t tags IH]; intros va H Hok Hva Hle; cbn [length walk_tags].
  - rewrite (tag_held va (MULTIBOOT2_TAG_END, []) H) by (vm_compute; done). done.
  - unfold image in H, Hle. cbn [fmap list_fmap mjoin list_join] in H, Hle. rewrite <- app_assoc in H, Hle.
    change (mjoin (tag_image <$> tags) ++ tag_image (MULTIBOOT2_TAG_END, [])) with (image tags) in H, Hle.
    rewrite length_app, Nat2Z.inj_add, length_tag_image in Hle. apply holds_app in H as [H1 H2]. rewrite length_tag_image in H2.
    apply Forall_cons in Hok as [[Ht Hl] Hok]. rewrite (tag_held va t H1) by lia. cbn [mbind option_bind type map_address].
    replace (t.1 =? MULTIBOOT2_TAG_END) with false by (unfold MULTIBOOT2_TAG_END; lia).
    destruct (t.1 =? MULTIBOOT2_TAG_TYPE_MEMORY_MAP); [done|].
    unfold find_next_tag. rewrite (tag_held va t H1) by lia. cbn [mbind option_bind size].
    assert (0 < tag_length t ∧ tag_length t <= padded (tag_length t)) as [Hp Hp'] by (unfold padded, tag_length; lia).
    rewrite round_up_8 by lia. rewrite u64_small; [apply IH; [done|done|lia|lia]|].
    assert (0 < Z.of_nat (length (image tags))); [|lia]. unfold image. rewrite length_app, Nat2Z.inj_add, length_tag_image. vm_compute (padded _). lia.
Qed.

(** The entries of a memory map. *)
Lemma length_entry_image e : length (entry_image e) = 24%nat.
Proof. unfold entry_image. by rewrite !length_app, !length_le_bytes. Qed.

Lemma length_entry_images es : Z.of_nat (length (mjoin (entry_image <$> es))) = Z.of_nat (length es) * 24.
Proof.
  induction es as [|e es IH]; [done|]. change (mjoin (entry_image <$> e :: es)) with (entry_image e ++ mjoin (entry_image <$> es)).
  rewrite length_app, length_entry_image. cbn [length]. lia.
Qed.

Lemma read_entries_image es va i :
  holds mem (va + 16 + i * 24) (mjoin (entry_image <$> es)) → Forall entry_ok es → 0 <= i → (i + Z.of_nat (length es)) * 24 < 2 ^ 32 →
  read_entries mem (length es) i va 24 = Some es.
Proof.
  revert i. induction es as [|[b l ty] es IH]; intros i H Hok Hi Hlt; [done|]. cbn [length read_entries fmap list_fmap mjoin list_join] in *.
  apply Forall_cons in Hok as [(Hb & Hl & Ht) Hok]. cbn [Pmm.base_addr Pmm.entry_length Pmm.entry_type] in *.
  apply holds_app in H as [H1 H2]. rewrite length_entry_image in H2. unfold entry_image in H1.
  cbn [Pmm.base_addr Pmm.entry_length Pmm.entry_type] in H1. rewrite !holds_app, !length_le_bytes in H1. destruct H1 as (A & B & C & _).
  assert (0 <= b < 256 ^ Z.of_nat 8) as Hb' by exact Hb. assert (0 <= l < 256 ^ Z.of_nat 8) as Hl' by exact Hl.
  assert (0 <= ty < 256 ^ Z.of_nat 4) as Ht' by exact Ht.
  rewrite u32_small by lia. unfold sizeof_Multiboot2MemoryMapTag.
  change (Z.of_nat 8) with 8 in B, C. rewrite (read_int_held 8 b _ A Hb'). cbn [mbind option_bind].
  rewrite (read_int_held 8 l _ B Hl'). cbn [mbind option_bind].
  replace (va + 16 + i * 24 + 8 + 8) with (va + 16 + i * 24 + 16) in C by lia.
  rewrite (read_int_held 4 ty _ C Ht'). cbn [mbind option_bind].
  rewrite (IH (i + 1)); [done| |done|lia|lia]. replace (va + 16 + (i + 1) * 24) with (va + 16 + i * 24 + Z.of_nat 24) by lia. done.
Qed.

Lemma memory_map_image es va :
  holds mem va (tag_image (map_tag es)) → Forall entry_ok es → Z.of_nat (length es) * 24 < 2 ^ 31 - 16 →
  memory_map_entries mem va = Some es.
Proof.
  intros H Hok Hlt. pose proof (length_entry_images es) as Hlen.
  assert (tag_length (map_tag es) = 16 + Z.of_nat (length es) * 24) as Htl.
  { unfold tag_length, map_tag. cbn [snd]. rewrite !length_app, !length_le_bytes. lia. }
  unfold tag_image in H. rewrite Htl in H. cbn [map_tag fst snd] in H. rewrite <- !app_assoc, !holds_app, !length_le_bytes in H.
  destruct H as (_ & _ & A & B & _ & C & _). unfold memory_map_entries.
  assert (256 ^ Z.of_nat 4 = 2 ^ 32) as P4 by done.
  rewrite (read_int_held 4 (16 + Z.of_nat (length es) * 24) (va + 4)); [|replace (va + 4) with (va + Z.of_nat 2 + Z.of_nat 2) by lia; exact A|lia].
  cbn [mbind option_bind]. rewrite (read_int_held 4 24 (va + 8)); [|replace (va + 8) with (va + Z.of_nat 2 + Z.of_nat 2 + Z.of_nat 4) by lia; exact B|done].
  cbn [mbind option_bind Z.eqb Pos.eqb]. unfold sizeof_Multiboot2MemoryMapTag.
  replace (16 + Z.of_nat (length es) * 24 - 16) with (Z.of_nat (length es) * 24) by lia. rewrite u64_small by lia.
  rewrite Z.div_mul by lia. rewrite u32_small, Nat2Z.id by lia. apply read_entries_image; [|done|lia|lia].
  replace (va + 16 + 0 * 24) with (va + Z.of_nat 2 + Z.of_nat 2 + Z.of_nat 4 + Z.of_nat 4 + Z.of_nat 4) by lia. done.
Qed.

(** The first memory map behind other tags. *)
Lemma map_address_found tags es rest va :
  holds mem va (image (tags ++ map_tag es :: rest)) → Forall (λ t, t.1 ≠ MULTIBOOT2_TAG_TYPE_MEMORY_MAP) tags →
  ∃ va', map_address va (tags ++ map_tag es :: rest) = Some va' ∧ holds mem va' (tag_image (map_tag es)).
Proof.
  revert va. induction tags as [|t tags IH]; intros va H Hno; cbn [app map_address]; unfold image in H;
    cbn [app fmap list_fmap mjoin list_join] in H; rewrite <- app_assoc, holds_app, length_tag_image in H; destruct H as [H1 H2].
  - exists va. done.
  - apply Forall_cons in Hno as [Ht Hno]. replace (t.1 =? MULTIBOOT2_TAG_TYPE_MEMORY_MAP) with false by lia. by apply IH.
Qed.

(** [find_mmap] on the information the boot loader leaves, any list of tags behind a
    header, each at the next multiple of eight bytes: the walk ends with the address
    of the first memory map, or the null pointer when there is none; the entries
    that the memory manager reads at that address are those the map was made of; and
    [multiboot_info_size] is the size of all of it. *)
Theorem find_mmap_correct all addr :
  let base := addr + DIRECT_MAP_BASE in
  0 < addr < 2 ^ 32 → Forall tag_ok all → Z.of_nat (length (info_image all)) < 2 ^ 32 → holds mem base (info_image all) →
  find_mmap mem (S (length all)) addr = Some (map_address (base + 8) all) ∧
  multiboot_info_size mem addr = Some (Z.of_nat (length (info_image all))) ∧
  (∀ tags es rest, all = tags ++ map_tag es :: rest → Forall (λ t, t.1 ≠ MULTIBOOT2_TAG_TYPE_MEMORY_MAP) tags → Forall entry_ok es →
    ∃ va, map_address (base + 8) all = Some va ∧ memory_map_entries mem va = Some es).
Proof.
  intros base Haddr Hok Hlen H. unfold info_image in H, Hlen. rewrite !length_app, !length_le_bytes in Hlen.
  rewrite !holds_app, !length_le_bytes in H. destruct H as (H1 & _ & H2). replace (base + Z.of_nat 4 + Z.of_nat 4) with (base + 8) in H2 by lia.
  assert (u64 base = base ∧ 0 <= base ∧ base + 2 ^ 33 < 2 ^ 64) as (Hb & Hb0 & Hb1) by (unfold base, DIRECT_MAP_BASE; split; [apply u64_small|]; lia).
  split; [|split].
  - unfold find_mmap. fold base. rewrite Hb. apply walk_tags_image; [done|done|lia|lia].
  - unfold multiboot_info_size. fold base. rewrite Hb. replace (addr =? 0) with false by lia.
    unfold info_image. rewrite !length_app, !length_le_bytes. replace (Z.of_nat (4 + (4 + length (image all)))) with (8 + Z.of_nat (length (image all))) by lia.
    apply read_int_held; [done|]. change (256 ^ Z.of_nat 4) with (2 ^ 32). lia.
  - intros tags es rest -> Hno Hes. destruct (map_address_found tags es rest (base + 8) H2 Hno) as (va & Hva & Ht). exists va. split; [done|].
    apply memory_map_image; [done|done|]. apply Forall_app in Hok as [_ [[_ Hl] _]%Forall_cons]. unfold tag_length, map_tag in Hl. cbn [snd] in Hl.
    rewrite !length_app, !length_le_bytes in Hl. pose proof (length_entry_images es). lia.
Qed.
End reads.

(** A boot with a command line and one megabyte of memory. *)
Definition boot_tags : list Tag := [(1, [104; 105; 0]); map_tag [Pmm.mkMemoryMapEntry 0x100000 0x100000 1]].
Definition boot_memory (va : Z) : option Z :=
  if va <? 0x9000 + DIRECT_MAP_BASE then None else info_image boot_tags !! Z.to_nat (va - (0x9000 + DIRECT_MAP_BASE)).

Lemma boot_memory_holds : holds boot_memory (0x9000 + DIRECT_MAP_BASE) (info_image boot_tags).
Proof.
  intros i b Hi. unfold boot_memory. generalize (0x9000 + DIRECT_MAP_BASE) as base. intros base.
  rewrite (proj2 (Z.ltb_ge (base + Z.of_nat i) base)) by (clear Hi; lia).
  replace (Z.to_nat (base + Z.of_nat i - base)) with i by (clear Hi; lia). exact Hi.
Qed.

Lemma find_mmap_correct_witness :
  find_mmap boot_memory 3 0x9000 = Some (Some (0x9018 + DIRECT_MAP_BASE)) ∧
  memory_map_entries boot_memory (0x9018 + DIRECT_MAP_BASE) = Some [Pmm.mkMemoryMapEntry 0x100000 0x100000 1].
Proof.
  destruct (find_mmap_correct boot_memory boot_tags 0x9000) as (H1 & _ & H2).
  - split; reflexivity.
  - repeat constructor; vm_compute; (reflexivity || discriminate).
  - vm_compute. reflexivity.
  - exact boot_memory_holds.
  - destruct (H2 [(1, [104; 105; 0])] [Pmm.mkMemoryMapEntry 0x100000 0x100000 1] []) as (va & Hva & He).
    + reflexivity.
    + repeat constructor. discriminate.
    + repeat constructor; vm_compute; (reflexivity || discriminate).
    + injection Hva as <-. split; [exact H1|exact He].
Defined.
