(* ===== verification/KernelMemory.v ===== *)
(** * The memory of the kernel

    The heap over the page tables over the frame allocator: the heap lies in the
    kernel's half, its pages are mapped for every address space, and growing it keeps
    all that the page tables promise. [start_memory] is the part of [kernel_main]
    (kernel/main.cpp) that sets the three up from the boot loader's memory map. *)
From stdpp Require Import gmap.
From S2P Require Import Prelude Vmm VmmSpec VmmMap VmmVisit VmmCopy VmmSpace VmmKernel VmmPmm.
From S2P Require Heap HeapSpec HeapOps HeapProps Pmm Multiboot2.
Import Heap HeapSpec HeapProps(Op, Allocate, Free, op_ok, client, safe, fresh_heap, heap_client_safe, wp_heap_client).

Section paged.
Context {P : Type} `{HP : FrameAllocator P} `{HS : !FrameAllocatorSpec P}.
Implicit Types (s : Vmm P) (own : Owners) (kt : KTables).

(** [pmm_ptr_->allocate()] and [vmm_ptr_->map_page(va, pa, Present | Writable)]. *)
#[export] Instance Vmm_PageServices : PageServices (Vmm P) := {|
  page_allocate := in_pmm frame_allocate;
  page_map va pa := map_page va (Some pa) (Z.lor Present Writable);
|}.

(** The machine runs in an address space with the kernel's half. *)
Definition kernel_running s own kt top boot c : Prop :=
  vm_ok s own ∧ kernel_ok s own kt top boot ∧ pml4_phys_ s = Some c ∧ is_root own boot c.
Definition vmm_ready s : Prop := ∃ own kt top boot c, kernel_running s own kt top boot c.
(** In particular with the owners [own], in the address space [c], the entries of the
    lower halves being [low]. *)
Definition vmm_with own (c : Z) (low : Z → list nat → nat → Z → Prop) s : Prop := ∃ kt top boot, kernel_running s own kt top boot c ∧
  ∀ r q j x, (q, j) ≠ ([], KERNEL_INDEX) → slot (frames s) own r q j x ↔ low r q j x.
Lemma ready_with s own kt top boot c : kernel_running s own kt top boot c → vmm_with own c (slot (frames s) own) s.
Proof. intros H. by exists kt, top, boot. Qed.
Lemma with_ready own c low s : vmm_with own c low s → vmm_ready s.
Proof. intros (kt & top & boot & H & _). by exists own, kt, top, boot, c. Qed.

(** An address of the kernel's half for which the walk finds a page. *)
Definition vmm_mapped s (va : Z) : Prop :=
  KERNEL_BASE <= va < 2 ^ 64 ∧ ∃ a, wp (virtual_to_physical va) s (λ r _, r = Some a).
Definition vmm_held s (pa : Z) : Prop := frame_ok (frames s) pa ∧ ¬ available (pmm s) pa.

Lemma mapped_kslot s own kt top boot c va :
  kernel_running s own kt top boot c →
  vmm_mapped s va ↔ KERNEL_BASE <= va < 2 ^ 64 ∧ ∃ x, kslot (frames s) kt (kernel_path va) (page_entry va) x.
Proof.
  intros (Hok & Hk & Hcur & Hc). unfold vmm_mapped. split; (intros [Hva H]; split; [done|]);
    destruct (wp_kernel_translate s own kt top boot c va Hok Hk Hc Hcur (kernel_index va Hva)) as (r & s' & Hr & -> & Ht).
  - destruct H as (a & r' & s' & Hr' & ->). rewrite Hr in Hr'. injection Hr' as -> _. destruct Ht as (x & Hx & _). by exists x.
  - destruct H as [x Hx]. destruct r as [a|]; [|by destruct (Ht x)]. exists a. by eapply wp_intro.
Qed.

(** A step that keeps the kernel's pages keeps what is mapped. *)
Lemma mapped_step s own kt top boot c s' own' kt' top' boot' c' :
  kernel_running s own kt top boot c → kernel_running s' own' kt' top' boot' c' →
  (∀ va x, kslot (frames s) kt (kernel_path va) (page_entry va) x → ∃ y, kslot (frames s') kt' (kernel_path va) (page_entry va) y) →
  ∀ va, vmm_mapped s va → vmm_mapped s' va.
Proof.
  intros Hr Hr' Hs va Hm. eapply mapped_kslot in Hm as [Hva [x Hx]]; [|done]. eapply mapped_kslot; [done|]. split; [done|]. by eapply Hs.
Qed.

Lemma wp_vmm_allocate_with own c low s : vmm_with own c low s →
  wp (in_pmm frame_allocate) s (λ r s', vmm_with own c low s' ∧ (∀ v, vmm_mapped s v → vmm_mapped s' v) ∧
    match r with Some pa => vmm_held s' pa | None => ∀ x, ¬ available (pmm s') x end).
Proof.
  intros (kt & top & boot & Hrun & Hlow). pose proof Hrun as (Hok & Hk & Hcur & Hc). apply wp_in_pmm.
  eapply wp_mono; [apply frame_allocate_spec, Hok|]. intros [a|] p' (Hal & Hman & Hr).
  - destruct Hr as (Hma & Hav & Hav').
    destruct (frame_taken_ok s own a p' Hok Hal Hman Hma Hav Hav') as (t & Ht & Hl & -> & Hok1 & (_ & Hna & _ & Hfa) & _ & Hfr & _).
    assert (∀ f, frames (filled s a t p') !! f = frames s !! f) as Hsame.
    { intros f. destruct (decide (f = a)) as [->|]; [|by apply Hfr]. cbn. by rewrite lookup_insert_eq. }
    destruct (kernel_keep s own kt top boot (filled s a t p') own Hk) as [Hk' Hs].
    { intros f Hf Hnf. split; [done|]. split; [done|]. cbn. rewrite Hav'. tauto. }
    { intros r Hr. exists r. split; [by left|]. unfold entry_at. by rewrite Hsame. }
    assert (kernel_running (filled s a t p') own kt top boot c) as Hrun' by done.
    split; [exists kt, top, boot; split; [done|]; intros r q j x Hq; rewrite <- Hlow by done; unfold slot, entry_at; by setoid_rewrite Hsame|].
    split; [|done]. eapply mapped_step; [exact Hrun|exact Hrun'|]. intros va x Hx. exists x. by apply Hs.
  - destruct Hr as [Hav Hno]. pose proof (set_pmm_extends 0 s own p' Hok Hal Hman Hav) as Hex.
    destruct (kernel_keep s own kt top boot (set_pmm p' s) own Hk) as [Hk' Hs].
    { intros f Hf Hnf. split; [done|]. split; [done|]. cbn. by rewrite Hav. }
    { intros r Hr. exists r. split; [by left|done]. }
    assert (kernel_running (set_pmm p' s) own kt top boot c) as Hrun' by (split; [apply Hex|done]).
    split; [by exists kt, top, boot|]. split; [|intros x; cbn; by rewrite Hav].
    eapply mapped_step; [exact Hrun|exact Hrun'|]. intros va x Hx. exists x. by apply Hs.
Qed.

Lemma wp_vmm_map_with own c low s va pa : vmm_with own c low s → KERNEL_BASE <= va < 2 ^ 64 →
  wp (map_page va (Some pa) (Z.lor Present Writable)) s (λ ok s', vmm_with own c low s' ∧ (∀ v, vmm_mapped s v → vmm_mapped s' v) ∧
    if ok then vmm_mapped s' va else ∀ x, ¬ available (pmm s') x).
Proof.
  intros (kt & top & boot & Hrun & Hlow) Hva. pose proof Hrun as (Hok & Hk & Hcur & Hc).
  destruct (root_frame _ _ _ _ _ _ Hok Hk Hc) as ((_ & Hrr & _) & _).
  unfold map_page. do 2 wp_step. rewrite Hcur, pointer_nonzero by done.
  assert (∀ s' kt' leaf, kchange top boot s own kt s' kt' leaf → kernel_running s' own kt' top boot c) as Hrun'.
  { intros s' kt' leaf Hch. split; [apply Hch|]. split; [apply Hch|]. split; [|done]. by rewrite (proj1 (kc_regs _ _ _ _ _ _ _ _ Hch)). }
  assert (∀ s' kt' leaf, kchange top boot s own kt s' kt' leaf → vmm_with own c low s') as Hwith.
  { intros s' kt' leaf Hch. exists kt', top, boot. split; [by eapply Hrun'|]. intros r q j x Hq. by rewrite (kc_low _ _ _ _ _ _ _ _ Hch), Hlow. }
  eapply (wp_kernel_map s own kt top boot c va pa); [done..|by apply kernel_index|done|done| |].
  - intros s' kt' Hch Hno _. pose proof (Hrun' _ _ _ Hch) as Hr'. split; [by eapply Hwith|]. split; [|done].
    eapply mapped_step; [exact Hrun|exact Hr'|]. intros v x Hx. exists x. by apply (kc_leaf _ _ _ _ _ _ _ _ Hch).
  - intros s' kt' Hch _ _. pose proof (Hrun' _ _ _ Hch) as Hr'. split; [by eapply Hwith|]. split.
    + eapply mapped_step; [exact Hrun|exact Hr'|]. intros v x Hx. destruct (decide ((kernel_path v, page_entry v) = (kernel_path va, page_entry va))) as [Hd|Hd].
      * eexists. apply (kc_leaf _ _ _ _ _ _ _ _ Hch); [done|]. unfold page_leaf. by rewrite decide_True.
      * exists x. apply (kc_leaf _ _ _ _ _ _ _ _ Hch); [done|]. unfold page_leaf. by rewrite decide_False.
    + eapply mapped_kslot; [exact Hr'|]. split; [done|]. eexists. apply (kc_leaf _ _ _ _ _ _ _ _ Hch); [done|]. unfold page_leaf. by rewrite decide_True.
Qed.

(** The page services of a heap while nothing else changes in the page tables. *)
Definition page_services_with own (c : Z) (low : Z → list nat → nat → Z → Prop) : PageServicesSpec (Vmm P).
Proof.
  refine {| page_ok := vmm_with own c low; page_mapped := vmm_mapped; page_held := vmm_held; page_place va := KERNEL_BASE <= va < 2 ^ 64;
            page_short s := ∀ x, ¬ available (pmm s) x |}.
  - apply wp_vmm_allocate_with.
  - intros s va pa Hs _ Hva _. by apply wp_vmm_map_with.
Defined.

#[export] Instance Vmm_PageServicesSpec : PageServicesSpec (Vmm P).
Proof.
  refine {| page_ok := vmm_ready; page_mapped := vmm_mapped; page_held := vmm_held; page_place va := KERNEL_BASE <= va < 2 ^ 64;
            page_short s := ∀ x, ¬ available (pmm s) x |}.
  - intros s (own & kt & top & boot & c & Hs). eapply wp_mono; [by eapply wp_vmm_allocate_with, ready_with|].
    intros r s' [Hs' Hr]. split; [by eapply with_ready|done].
  - intros s va pa (own & kt & top & boot & c & Hs) _ Hva _. eapply wp_mono; [eapply wp_vmm_map_with; [by eapply ready_with|done]|].
    intros r s' [Hs' Hr]. split; [by eapply with_ready|done].
Defined.

Lemma heap_ok_with own c low (h : Heap (Vmm P)) l :
  heap_ok (HS := page_services_with own c low) h l ↔ heap_ok h l ∧ vmm_with own c low (env h).
Proof.
  split.
  - intros [H1 H2 H3 H4 H5 H6 H7 H8 H9]. split; [|exact H8].
    split; [done..|exact H7|exact (with_ready _ _ _ _ H8)|exact H9].
  - intros [[H1 H2 H3 H4 H5 H6 H7 H8 H9] Hw]. split; [done..|exact H7|exact Hw|exact H9].
Qed.

Lemma kernel_heap_range v : KERNEL_HEAP_BASE <= v < KERNEL_HEAP_END → KERNEL_BASE <= v < 2 ^ 64.
Proof. unfold KERNEL_HEAP_END, KERNEL_HEAP_SIZE, KERNEL_HEAP_BASE, KERNEL_BASE. lia. Qed.
(** The memory as the start leaves it: nothing has been handed out, neither address
    spaces nor blocks of the heap; without any frame there is no heap. *)
Record memory_started (h : Heap (Vmm P)) : Prop := {
  ms_tables : ∃ kt top boot c, kernel_running (env h) ∅ kt top boot c;
  ms_end : virt_end_ h = KERNEL_HEAP_END;
  ms_heap : (∃ l, heap_ok h l ∧ ∀ p n, ¬ in_use l p n) ∨ head_ h = 0 ∧ ∀ x, ¬ available (pmm (env h)) x;
}.

Lemma wp_heap_start s kt top boot c : kernel_running s ∅ kt top boot c →
  wp (Heap.construct KERNEL_HEAP_BASE KERNEL_HEAP_END) (fresh_heap s) (λ _ h, memory_started h).
Proof.
  intros Hs. pose proof (ready_with _ _ _ _ _ _ Hs) as Hw. set (HS' := page_services_with ∅ c (slot (frames s) ∅)).
  eapply wp_mono; [apply (HeapProps.wp_construct (HS := HS') KERNEL_HEAP_BASE KERNEL_HEAP_END s Hw); try done; exact kernel_heap_range|].
  intros [] h (Hend & (kt' & top' & boot' & Hrun & _) & Hrest). split; [by exists kt', top', boot', c|done|].
  destruct Hrest as [Hl|[Hd [Hlt|Hshort]]].
  - left. eexists. split; [by apply heap_ok_with in Hl as [Hl _]|]. intros p n (t & ->%list_elem_of_singleton & Hf & _). done.
  - exfalso. revert Hlt. unfold KERNEL_HEAP_END, KERNEL_HEAP_SIZE, Heap.PAGE_SIZE. lia.
  - by right.
Qed.

(** The kernel's heap on the page tables: whatever a client asks for and frees, its
    blocks are apart from each other and lie on pages that the walk through the page
    tables finds, and the page tables of all address spaces stay in order. *)
Theorem heap_on_page_tables s ops :
  vmm_ready s → Forall (op_ok KERNEL_HEAP_END) ops →
  wp (_ ← Heap.construct KERNEL_HEAP_BASE KERNEL_HEAP_END; client ops ∅) (fresh_heap s) (λ live h, safe h live ∧ vmm_ready (env h)).
Proof.
  intros Hs Hops. assert (page_ok (E := Vmm P) s) as Hsv by exact Hs.
  eapply wp_mono; [apply (wp_heap_client KERNEL_HEAP_BASE KERNEL_HEAP_END s ops Hsv); try done|by intros live h []].
  intros v. cbn. unfold KERNEL_HEAP_END, KERNEL_HEAP_SIZE, KERNEL_HEAP_BASE, KERNEL_BASE. lia.
Qed.
End paged.

(** ** The start of the memory (kernel/main.cpp) *)
Inductive MemoryStart := NoMemoryMap | MemoryReady.

(** Without a memory map the kernel prints a message and halts. *)
Definition start_memory (mem : Z → option Z) (fuel : nat) (mb_addr kernel_phys_end : Z) : M (Heap (Vmm Pmm.Pmm)) MemoryStart :=
  mmap ← defined (Multiboot2.find_mmap mem fuel mb_addr);
  match mmap with
  | None => mret NoMemoryMap
  | Some mmap =>
      entries ← defined (Multiboot2.memory_map_entries mem mmap);
      total_size ← defined (Multiboot2.multiboot_info_size mem mb_addr);
      _ ← service (in_pmm (Pmm.construct entries kernel_phys_end mb_addr total_size));
      _ ← service Vmm.construct;
      _ ← Heap.construct KERNEL_HEAP_BASE KERNEL_HEAP_END;
      mret MemoryReady
  end.

(** The page tables that the boot code has made: in the kernel's image, with the
    kernel's half in order. *)
Definition no_frames : Pmm.Pmm := Pmm.mkPmm [] 0 0 0.
Record boot_tables (v : Vmm Pmm.Pmm) (kt : KTables) (top kernel_end : Z) : Prop := {
  bt_kernel : kernel_ok (set_pmm no_frames v) ∅ kt top (cr3 v);
  bt_image f q : kt !! f = Some q → f < kernel_end;
  bt_root : cr3 v < kernel_end;
}.

(** The memory that the map calls usable is there, within the direct map. *)
Definition ram_present (v : Vmm Pmm.Pmm) (entries : list Pmm.MemoryMapEntry) : Prop :=
  ∀ e start stop f, e ∈ entries → Pmm.entry_pages e = Some (start, stop) → start <= f < stop → f `mod` 4096 = 0 → frame_ok (frames v) f.

Lemma wp_vmm_start v p kt top entries kernel_end info info_end (Q : () → Vmm Pmm.Pmm → Prop) :
  boot_tables v kt top kernel_end → ram_present v entries → Pmm.pmm_ok p →
  (∀ j, 0 <= j < Pmm.pages_ p → Pmm.page_used p j = false → Pmm.free_at_boot p entries kernel_end info info_end j = true) →
  (∀ s', kernel_running s' ∅ kt top (cr3 v) (cr3 v) → Q () s') → wp Vmm.construct (set_pmm p v) Q.
Proof.
  intros [Hk Himg Hroot] Hram Hp Hfree HQ. unfold Vmm.construct. wp_step. apply HQ.
  assert (∀ f, available p f → kernel_end <= f ∧ frame_ok (frames v) f) as Hav.
  { intros f (j & [Hj ->] & Hu). apply Hfree in Hu; [|done]. unfold Pmm.free_at_boot in Hu.
    apply andb_true_iff in Hu as [[[Hus Hend]%andb_true_iff _]%andb_true_iff _]. unfold Pmm.page_start, Pmm.PAGE_SIZE in *. split; [lia|].
    unfold Pmm.usable in Hus. apply existsb_exists in Hus as (e & He & Hin). apply list_elem_of_In in He. unfold Pmm.in_entry in Hin.
    destruct (Pmm.entry_pages e) as [[start stop]|] eqn:E; [|done]. unfold Pmm.page_start, Pmm.PAGE_SIZE in Hin.
    eapply Hram; [exact He|exact E|lia|]. pose proof (Pmm.po_aligned _ Hp). unfold Pmm.PAGE_SIZE in *. lia. }
  split; [|split; [|split; [done|by right]]].
  - split; cbn [pmm set_pml4_phys set_pmm frames]; [done|intros f Hf; split; [by apply Hav|done]|intros f r Hf; by rewrite lookup_empty in Hf|].
    split; [intros root q i e r (f & Hf & _); by rewrite lookup_empty in Hf|intros f r Hf; by rewrite lookup_empty in Hf].
  - destruct Hk as [K1 K2 K3 K4 K5 K6]. split; cbn [pmm set_pml4_phys set_pmm frames cr3] in *; try done.
    + intros f q Hf. destruct (K2 f q Hf) as (H1 & H2 & H3 & _). do 3 (split; [done|]). intros [Hle _]%Hav. pose proof (Himg f q Hf). lia.
    + destruct K5 as (H1 & H2 & _ & H4). do 2 (split; [done|]). split; [|done]. intros [Hle _]%Hav. lia.
Qed.

(** C17: The memory part of the start: on a machine whose boot loader has left a
    memory map and whose boot code has made the kernel's page tables, the frame
    allocator, the page tables and the heap are ready, in this order, and what
    follows may use the heap; no table of the kernel is ever handed out as a frame.
    *)
Theorem start_memory_correct mem v kt top tags es rest mb_addr kernel_end :
  let all := tags ++ Multiboot2.map_tag es :: rest in
  0 < mb_addr → mb_addr + Z.of_nat (length (Multiboot2.info_image all)) < 2 ^ 32 →
  Forall Multiboot2.tag_ok all → Multiboot2.holds mem (mb_addr + Multiboot2.DIRECT_MAP_BASE) (Multiboot2.info_image all) →
  Forall (λ t, t.1 ≠ Multiboot2.MULTIBOOT2_TAG_TYPE_MEMORY_MAP) tags → Forall Multiboot2.entry_ok es →
  Forall Pmm.entry_ok es → Z.of_nat (length es) <= 1048576 → 0 < Pmm.usable_pages es → Pmm.address_ok kernel_end →
  boot_tables v kt top kernel_end → ram_present v es →
  wp (start_memory mem (S (length all)) mb_addr kernel_end) (fresh_heap v) (λ r h, r = MemoryReady ∧ memory_started h).
Proof.
  intros all Hmb Hlen Htags Hmem Hno Hes Hes' Hle Hpages Hend Hboot Hram.
  destruct (Multiboot2.find_mmap_correct mem all mb_addr) as (Hfind & Hsize & Hmap); [lia|done|lia|done|].
  destruct (Hmap tags es rest eq_refl Hno Hes) as (va & Hva & Hentries). rewrite Hva in Hfind.
  unfold start_memory. wp_step. eapply wp_defined; [exact Hfind|]. cbn beta iota. wp_step. eapply wp_defined; [exact Hentries|].
  wp_step. eapply wp_defined; [exact Hsize|]. wp_step. apply wp_heap_service, wp_in_pmm. cbn [env fresh_heap].
  eapply wp_mono; [apply (Pmm.wp_pmm_construct (pmm v) es kernel_end mb_addr); [done|done|done|lia..]|]. intros [] p (Hn & Hp).
  destruct Hp as (Hok & _ & Hfree); [rewrite Hn; unfold Pmm.MAX_PAGES; lia|].
  wp_step. apply wp_heap_service. cbn [env fresh_heap Heap.set_env].
  eapply (wp_vmm_start v p kt top es kernel_end); [done..|intros j Hj Hu; by apply (Hfree j Hj)|]. intros s' Hs'.
  wp_step. change (Heap.set_env s' _) with (fresh_heap s').
  eapply wp_mono; [by eapply wp_heap_start|]. intros [] h Hh. by wp_step.
Qed.

(** ** On a machine *)
Lemma kvm0_ready : page_ok (E := Vmm Pmm.Pmm) kvm0.
Proof.
  exists ∅, ktab, (kpage 1), (kpage 0), (kpage 0). split; [exact kvm0_ok|]. split; [exact kvm0_kernel|]. split; [reflexivity|]. right. reflexivity.
Qed.

(** Three blocks, two of them freed and joined, one large block that makes the
    heap grow. *)
Definition ops1 : list Op :=
  [Allocate 100; Allocate 1; Allocate 200; Free (KERNEL_HEAP_BASE + 32); Free (KERNEL_HEAP_BASE + 168); Allocate 10000; Allocate 120].

Lemma heap_client_safe_witness :
  fst <$> ((_ ← Heap.construct KERNEL_HEAP_BASE KERNEL_HEAP_END; client ops1 ∅) (fresh_heap kvm0))
    = Some (list_to_map [(KERNEL_HEAP_BASE + 32, 120); (KERNEL_HEAP_BASE + 208, 200); (KERNEL_HEAP_BASE + 440, 10000)]) ∧
  wp (_ ← Heap.construct KERNEL_HEAP_BASE KERNEL_HEAP_END; client ops1 ∅) (fresh_heap kvm0) (λ live s, safe s live ∧ page_ok (env s)).
Proof.
  split; [vm_compute; reflexivity|]. apply (heap_client_safe (E := Vmm Pmm.Pmm) KERNEL_HEAP_BASE KERNEL_HEAP_END kvm0 ops1).
  - exact kvm0_ready.
  - intros v Hv. revert Hv. cbn. unfold KERNEL_HEAP_END, KERNEL_HEAP_SIZE, KERNEL_HEAP_BASE, KERNEL_BASE. lia.
  - reflexivity.
  - unfold KERNEL_HEAP_END, KERNEL_HEAP_BASE, KERNEL_HEAP_SIZE. lia.
  - unfold KERNEL_HEAP_END, KERNEL_HEAP_BASE, KERNEL_HEAP_SIZE, Heap.PAGE_SIZE. lia.
  - unfold ops1. repeat constructor; unfold KERNEL_HEAP_END, KERNEL_HEAP_BASE, KERNEL_HEAP_SIZE, Heap.PAGE_SIZE; lia.
Defined.

(** A boot with one tag in front of the memory map, which has the memory of the
    machine; the kernel's image is its first five pages. *)
Definition kmap : list Pmm.MemoryMapEntry := [Pmm.mkMemoryMapEntry ram_base 131072 1].
Definition ktags : list Multiboot2.Tag := [(1, [104; 105; 0])].
Definition kinfo (va : Z) : option Z :=
  let base := 0x9000 + Multiboot2.DIRECT_MAP_BASE in
  if va <? base then None else Multiboot2.info_image (ktags ++ [Multiboot2.map_tag kmap]) !! Z.to_nat (va - base).

Lemma kinfo_holds : Multiboot2.holds kinfo (0x9000 + Multiboot2.DIRECT_MAP_BASE) (Multiboot2.info_image (ktags ++ [Multiboot2.map_tag kmap])).
Proof.
  intros i b Hi. unfold kinfo. generalize (0x9000 + Multiboot2.DIRECT_MAP_BASE) as base. intros base.
  rewrite (proj2 (Z.ltb_ge (base + Z.of_nat i) base)) by (clear Hi; lia).
  replace (Z.to_nat (base + Z.of_nat i - base)) with i by (clear Hi; lia). exact Hi.
Qed.

Lemma kvm0_boot : boot_tables kvm0 ktab (kpage 1) (kpage 5).
Proof.
  assert (∀ f, ¬ available no_frames f) as Hno by (intros f (i & [Hi _] & _); cbn in Hi; lia).
  destruct kvm0_kernel as [K1 K2 K3 K4 K5 K6]. split; [split; try done| |done].
  - intros f q Hf. destruct (K2 f q Hf) as (H1 & H2 & H3 & _). split; [done|]. split; [done|]. split; [done|apply Hno].
  - destruct K5 as (H1 & H2 & _ & H4). split; [done|]. split; [done|]. split; [apply Hno|done].
  - intros f q Hf. apply ktab_cases in Hf as [[-> _]|[[-> _]|[-> _]]]; unfold kpage; lia.
Qed.

Lemma kvm0_ram : ram_present kvm0 kmap.
Proof.
  intros e start stop f He Hep Hf Hal. apply list_elem_of_singleton in He as ->.
  assert (start = ram_base ∧ stop = ram_base + 131072) as [-> ->] by (vm_compute in Hep; injection Hep as <- <-; done).
  replace f with (kpage ((f - ram_base) / 4096)) by (unfold kpage, ram_base in *; lia). apply kram_frame. unfold ram_base in *. lia.
Qed.

Lemma start_memory_correct_witness :
  fst <$> start_memory kinfo 3 0x9000 (kpage 5) (fresh_heap kvm0) = Some MemoryReady ∧
  wp (start_memory kinfo 3 0x9000 (kpage 5)) (fresh_heap kvm0) (λ r h, r = MemoryReady ∧ memory_started h).
Proof.
  split; [vm_compute; reflexivity|]. apply (start_memory_correct kinfo kvm0 ktab (kpage 1) ktags kmap [] 0x9000 (kpage 5)).
  - reflexivity.
  - vm_compute. reflexivity.
  - repeat constructor; vm_compute; (reflexivity || discriminate).
  - exact kinfo_holds.
  - repeat constructor. discriminate.
  - repeat constructor; vm_compute; (reflexivity || discriminate).
  - repeat constructor; vm_compute; (reflexivity || discriminate).
  - vm_compute. discriminate.
  - vm_compute. reflexivity.
  - split; vm_compute; discriminate.
  - exact kvm0_boot.
  - exact kvm0_ram.
Defined.
