(* ===== verification/Machine.v ===== *)
(** * The kernel on its own memory

    The parts put together: processes and system calls over the open files, the heap,
    the page tables and the frame allocator. [Machine] is a [Core] whose heap is the
    heap on the page tables and whose address spaces are those of [Vmm]; the user's
    memory is what the current address space maps. In every state that is reached by
    operations of the processes, system calls, the preparation of user spaces and
    stores of user code, the stacks and address spaces in use are exactly those of
    the processes, and no frame is lost. *)
From stdpp Require Import gmap.
From S2P Require Import Prelude Vmm VmmSpec VmmMap VmmVisit VmmCopy VmmSpace VmmKernel VmmProps VmmPmm.
From S2P Require Heap HeapSpec HeapOps HeapProps Pmm.
From S2P Require Import KernelMemory.
From S2P Require Process ProcessSpec.
From S2P Require Import KernelFiles.
From S2P Require UserMode.
Import ProcessSpec(Resource(..), holds_more, holds_same, steady, activates, one).

(** ** The processor's accesses to mapped memory *)
Section access.
Context {P : Type} `{HP : FrameAllocator P} `{HS : !FrameAllocatorSpec P}.
Implicit Types (s : Vmm P) (own : Owners).

(** The byte at a physical address: byte [pa mod 8] of an entry of a frame. *)
Definition frame_base (pa : Z) : Z := pa - pa `mod` 4096.
Definition word_index (pa : Z) : nat := Z.to_nat (pa `mod` 4096 / 8).
Definition load_byte s (va : Z) : option Z :=
  '(r, _) ← virtual_to_physical va s;
  pa ← r;
  w ← entry_at (frames s) (frame_base pa) (word_index pa);
  Some (w / 256 ^ (pa `mod` 8) `mod` 256).
Definition put_byte (k v w : Z) : Z := w + (u8 v - w / 256 ^ k `mod` 256) * 256 ^ k.
Definition store_byte (va v : Z) : M (Vmm P) () :=
  r ← virtual_to_physical va;
  pa ← defined r;
  s ← get;
  t ← defined (frames s !! frame_base pa);
  w ← defined (t !! word_index pa);
  put (set_frames (<[frame_base pa := <[word_index pa := put_byte (pa `mod` 8) v w]> t]> (frames s)) s).

(** A byte of a user page of the address space [c]. *)
Definition user_byte s (c va : Z) : Prop :=
  pml4_index va = 0 ∧ ∃ x, x ∈ user_pages (frames s) c ∧ table_path va = table_path x.1 ∧ page_entry va = page_entry x.1.

Lemma user_byte_frame s own c va : vm_ok s own → own !! c = Some (Table c []) → pml4_phys_ s = Some c → user_byte s c va →
  ∃ pa f p, wp (virtual_to_physical va) s (λ r s', r = Some pa ∧ s' = s) ∧ frame_base pa = f ∧ own !! f = Some (Page c p) ∧
    ∃ t w, frames s !! f = Some t ∧ t !! word_index pa = Some w.
Proof.
  intros Hok Hc Hcur (Hva & x & Hx & Hpath & Hentry).
  destruct (user_page_facts s own c x Hok Hc Hx) as (i & j & k & _ & _ & _ & _ & _ & Hp & He & _ & Hpage & Hslot).
  destruct (wp_virtual_to_physical s own c va Hok Hc Hcur Hva) as (r & s' & Hrun & -> & Ht).
  assert (r = Some (Z.lor (phys x.2) (Z.land va 0xFFF))) as ->.
  { set (last := slot (frames s) own c (table_path va) (page_entry va)) in *. apply (found_same last last va); [intros y z Hy Hz; exact (slot_fun _ _ _ _ _ _ _ (vo_tables _ _ Hok) Hy Hz)|done|exact Ht|]. unfold last. exists x.2. split; [|done].
    by rewrite Hpath, Hentry, Hp, He. }
  destruct (owned_frame _ _ _ _ Hok Hpage) as (Hr & Hm & t & Hft & Hl).
  assert (0 <= Z.land va 0xFFF < 4096) as Hoff by (change 0xFFF with (Z.ones 12); rewrite Z.land_ones by lia; change (2 ^ 12) with 4096; lia).
  assert (Z.lor (phys x.2) (Z.land va 0xFFF) = phys x.2 + Z.land va 0xFFF) as Hsum.
  { replace (phys x.2) with (Z.shiftl (phys x.2 / 4096) 12) by (rewrite Z.shiftl_mul_pow2 by lia; change (2 ^ 12) with 4096; lia).
    rewrite lor_shiftl by (change (2 ^ 12) with 4096; lia). rewrite Z.shiftl_mul_pow2 by lia. done. }
  rewrite Hsum in *. set (off := Z.land va 0xFFF) in *. exists (phys x.2 + off), (phys x.2), [0%nat; i; j; k].
  split; [by eapply wp_intro|]. assert (frame_base (phys x.2 + off) = phys x.2) as Hb by (unfold frame_base; lia).
  split; [done|]. split; [done|]. exists t. destruct (lookup_lt_is_Some_2 t (word_index (phys x.2 + off))) as [w Hw].
  - unfold word_index. rewrite Hl. unfold ENTRIES_PER_TABLE. lia.
  - by exists w.
Qed.

Lemma load_user_byte s own c va : vm_ok s own → own !! c = Some (Table c []) → pml4_phys_ s = Some c → user_byte s c va →
  is_Some (load_byte s va).
Proof.
  intros Hok Hc Hcur Hu. destruct (user_byte_frame s own c va Hok Hc Hcur Hu) as (pa & f & p & (r & s' & Hrun & -> & ->) & Hb & _ & t & w & Ht & Hw).
  unfold load_byte. rewrite Hrun. cbn. rewrite Hb, (entry_at_Some _ _ _ _ Ht), Hw. by eexists.
Qed.

(** Changing the contents of a page leaves all tables alone. *)
Lemma page_written s own f c p t t' : vm_ok s own → own !! f = Some (Page c p) → frames s !! f = Some t → length t' = length t →
  let s' := set_frames (<[f := t']> (frames s)) s in
  vm_ok s' own ∧ same_slots (frames s) own (frames s') own ∧
  ∀ g r q, own !! g = Some (Table r q) → frames s' !! g = frames s !! g.
Proof.
  intros Hok Hf Ht Hl s'. assert (∀ g r q, own !! g = Some (Table r q) → frames s' !! g = frames s !! g) as Htab.
  { intros g r q Hg. apply lookup_insert_ne. congruence. }
  assert (same_slots (frames s) own (frames s') own) as Hs by (apply slots_same_frames; intros g r q Hg; by eapply Htab).
  split; [|done]. assert (∀ g, frame_ok (frames s) g → frame_ok (frames s') g) as Hfr.
  { intros g Hg. apply frame_ok_insert; [done|]. intros <-. destruct Hg as (_ & _ & t0 & Ht0 & Hl0). congruence. }
  destruct Hok as [H1 H2 H3 H4]. split; [done|intros g Hg; split; [by apply Hfr, H2|by apply H2]| |by eapply tables_same].
  intros g r Hg. destruct (H3 g r Hg) as [H5 H6]. split; [by apply Hfr|done].
Qed.

Lemma wp_store_user_byte s own c va v : vm_ok s own → own !! c = Some (Table c []) → pml4_phys_ s = Some c → user_byte s c va →
  wp (store_byte va v) s (λ _ s', ∃ f p t t', own !! f = Some (Page c p) ∧ frames s !! f = Some t ∧ length t' = length t ∧
    s' = set_frames (<[f := t']> (frames s)) s).
Proof.
  intros Hok Hc Hcur Hu. destruct (user_byte_frame s own c va Hok Hc Hcur Hu) as (pa & f & p & Hva & Hb & Hf & t & w & Ht & Hw).
  unfold store_byte. wp_step. eapply wp_mono; [exact Hva|]. intros r s' [-> ->]. wp_step. eapply wp_defined; [done|]. wp_step. wp_step. wp_step.
  rewrite Hb. eapply wp_defined; [exact Ht|]. wp_step. eapply wp_defined; [exact Hw|]. wp_step.
  exists f, p, t. eexists. split; [done|]. split; [done|]. split; [|done]. apply length_insert.
Qed.
End access.

(** ** The machine *)

(** The heap with the page tables and the frames below it; what [set_kernel_stack] has
    been given; and, for the accounts, the stacks and the roots of the address spaces
    that have been handed out and not given back, and the frame allocator before and
    after each block that the heap was asked for. *)
Record Machine (P : Type) := mkMachine {
  heap : Heap.Heap (Vmm P); stack_top : Z; stacks : gset Z; spaces : gset Z; grown : list (P * P) }.
Arguments mkMachine {P}. Arguments heap {P}. Arguments stack_top {P}. Arguments stacks {P}. Arguments spaces {P}. Arguments grown {P}.

(** The addresses of [trampoline] and [fork_return], from the linker. *)
Class KernelImage := { image_trampoline : Z; image_fork_return : Z }.

Section machine.
Context {P : Type} `{HP : FrameAllocator P} `{HI : KernelImage}.
Implicit Types (m : Machine P).

Definition set_heap (h : Heap.Heap (Vmm P)) m := mkMachine h (stack_top m) (stacks m) (spaces m) (grown m).
Definition set_stack_top v m := mkMachine (heap m) v (stacks m) (spaces m) (grown m).
Definition set_stacks v m := mkMachine (heap m) (stack_top m) v (spaces m) (grown m).
Definition set_spaces v m := mkMachine (heap m) (stack_top m) (stacks m) v (grown m).
Definition set_grown v m := mkMachine (heap m) (stack_top m) (stacks m) (spaces m) v.
Definition in_heap {A} (c : M (Heap.Heap (Vmm P)) A) : M (Machine P) A := zoom heap set_heap c.
Definition in_vmm {A} (c : M (Vmm P) A) : M (Machine P) A := in_heap (Heap.service c).
Abbreviation vmm m := (Heap.env (heap m)).

#[export] Instance Machine_Core : Core (Machine P) := {|
  core_heap_allocate n :=
    m ← get;
    r ← in_heap (Heap.allocate n);
    _ ← modify (λ m', set_grown ((pmm (vmm m), pmm (vmm m')) :: grown m') m');
    _ ← match r with Some b => modify (λ m, set_stacks ({[b]} ∪ stacks m) m) | None => mret () end;
    mret r;
  core_heap_free b := _ ← in_heap (Heap.heap_free b); modify (λ m, set_stacks (stacks m ∖ {[b]}) m);
  core_create_space :=
    r ← in_vmm create_address_space;
    _ ← match r with Some a => modify (λ m, set_spaces ({[a]} ∪ spaces m) m) | None => mret () end;
    mret r;
  core_destroy_space a :=
    _ ← in_vmm (destroy_address_space a);
    match a with Some a => modify (λ m, set_spaces (spaces m ∖ {[a]}) m) | None => mret () end;
  core_copy_pages src dest := in_vmm (copy_user_pages src dest);
  core_switch_space a := in_vmm (switch_address_space a);
  core_set_stack rsp := modify (set_stack_top rsp);
  core_load m va := load_byte (vmm m) va;
  core_store va v := in_vmm (store_byte va v);
  core_trampoline := image_trampoline;
  core_fork_return := image_fork_return;
|}.
End machine.

Section invariant.
Context {P : Type} `{HP : FrameAllocator P} `{HS : !FrameAllocatorSpec P} `{HI : KernelImage}.
Implicit Types (m : Machine P) (own : Owners) (kt : KTables) (l : list HeapSpec.Tile).
Abbreviation vmm m := (Heap.env (heap m)).

(** The blocks of the heap; without memory at the start there is none. *)
Definition blocks_ok (h : Heap.Heap (Vmm P)) l : Prop :=
  Heap.virt_end_ h = Heap.KERNEL_HEAP_END ∧ (HeapSpec.heap_ok h l ∨ Heap.head_ h = 0 ∧ l = []).

(** A frame that was free at the start, with the allocator [p0], and that the heap has
    not taken since, is free unless it belongs to an address space. *)
Context (p0 : P).
Definition accounted m own : Prop := ∀ f, available p0 f → own !! f = None →
  (∀ p p', (p, p') ∈ grown m → available p f → available p' f) → available (pmm (vmm m)) f.

(** The stacks handed out are the blocks in use, and the address spaces handed out
    those whose tables and pages are owned. *)
Record machine_with m own kt (top boot c : Z) l : Prop := {
  mw_running : kernel_running (vmm m) own kt top boot c;
  mw_blocks : blocks_ok (heap m) l;
  mw_spaces a : a ∈ spaces m ↔ own !! a = Some (Table a []);
  mw_stacks b : b ∈ stacks m ↔ ∃ n, HeapSpec.in_use l b n;
  mw_size b n : HeapSpec.in_use l b n → Process.KERNEL_STACK_SIZE <= n;
  mw_frames : accounted m own;
}.
Definition machine_ok m : Prop := ∃ own kt top boot c l, machine_with m own kt top boot c l.

Definition filled m (a : Z) : bool := bool_decide (a ∈ spaces m) && negb (bool_decide (user_pages (frames (vmm m)) a = [])).
Definition machine_held m (r : Resource) : Z :=
  match r with
  | Stack b => if decide (b ∈ stacks m) then 1 else 0
  | Space a => if decide (a ∈ spaces m) then 1 else 0
  | OpenFile _ => 0
  | Active a => if decide (pml4_phys_ (vmm m) = Some a) then 1 else 0
  | Filled a => if filled m a then 1 else 0
  end.
Definition machine_accessible m (va : Z) : Prop :=
  ∃ c, pml4_phys_ (vmm m) = Some c ∧ c ∈ spaces m ∧ user_byte (vmm m) c va.

(** *** Page services of the heap while nothing else changes *)
Lemma blocks_with own c low (h : Heap.Heap (Vmm P)) l : blocks_ok h l → vmm_with own c low (Heap.env h) →
  Heap.head_ h = 0 ∧ l = [] ∨ HeapSpec.heap_ok (HS := page_services_with own c low) h l.
Proof. intros [_ [Hl|Hd]] Hw; [right; by apply heap_ok_with|by left]. Qed.

(** The page tables have changed, but not the kernel's half. *)
Lemma blocks_step (h : Heap.Heap (Vmm P)) l s' : blocks_ok h l → vmm_ready s' →
  (∀ va, vmm_mapped (Heap.env h) va → vmm_mapped s' va) → blocks_ok (Heap.set_env s' h) l.
Proof. intros [He [Hl|Hd]] Hs Hm; (split; [done|]); [left|by right]. by apply HeapOps.heap_ok_env. Qed.

Lemma kslots_mapped (s s' : Vmm P) own kt top boot c own' kt' top' boot' c' :
  kernel_running s own kt top boot c → kernel_running s' own' kt' top' boot' c' →
  (∀ q j x, kslot (frames s') kt' q j x ↔ kslot (frames s) kt q j x) → ∀ va, vmm_mapped s va → vmm_mapped s' va.
Proof. intros Hr Hr' Hs. eapply mapped_step; [exact Hr|exact Hr'|]. intros va x Hx. exists x. by apply Hs. Qed.

(** The user pages of an address space are there or not, as its entries say. *)
Lemma same_filled (s s' : Vmm P) own own' a :
  vm_ok s own → vm_ok s' own' → own !! a = Some (Table a []) → own' !! a = Some (Table a []) →
  (∀ q j e, length q = 3%nat → slot (frames s') own' a q j e ↔ slot (frames s) own a q j e) →
  user_pages (frames s') a = [] ↔ user_pages (frames s) a = [].
Proof.
  intros Hok Hok' Ha Ha' Hs. assert (∀ x, x ∈ user_pages (frames s') a ↔ x ∈ user_pages (frames s) a) as He
    by (intros x; by eapply same_user_pages).
  split; intros H; apply elem_of_nil_inv; intros x Hx; apply He in Hx; rewrite H in Hx; by apply elem_of_nil in Hx.
Qed.

Lemma wp_machine_vmm {A} (f : M (Vmm P) A) m (Q : A → Machine P → Prop) :
  wp f (vmm m) (λ a s, Q a (set_heap (Heap.set_env s (heap m)) m)) → wp (in_vmm f) m Q.
Proof. intros H. apply wp_zoom. by apply HeapSpec.wp_heap_service. Qed.

(** *** The heap *)
Lemma held_filled m a o : a ∈ spaces m → user_pages (frames (vmm m)) a = [] ↔ o = [] → filled m a = negb (bool_decide (o = ([] : list (Z * Z)))).
Proof. intros Ha Ho. unfold filled. rewrite bool_decide_eq_true_2 by done. cbn. f_equal. by apply bool_decide_ext. Qed.

Lemma filled_same m m' : spaces m' = spaces m →
  (∀ a, a ∈ spaces m → user_pages (frames (vmm m')) a = [] ↔ user_pages (frames (vmm m)) a = []) → ∀ a, filled m' a = filled m a.
Proof.
  intros Hs Hu a. unfold filled. rewrite Hs. case_bool_decide as Ha; [|done]. cbn. f_equal. apply bool_decide_ext. by apply Hu.
Qed.

Lemma held_heap m own kt top boot c l h S :
  machine_with m own kt top boot c l → vmm_with own c (slot (frames (vmm m)) own) (Heap.env h) →
  ∀ g r, (∀ b, r ≠ Stack b) → machine_held (set_stacks S (set_grown g (set_heap h m))) r = machine_held m r.
Proof.
  intros Hm (kt' & top' & boot' & Hrun' & Hlow) g r Hr. destruct r as [b|a|f|a|a]; [by destruct (Hr b)|done|done| |].
  - cbn. destruct Hrun' as (_ & _ & -> & _). by destruct (mw_running _ _ _ _ _ _ _ Hm) as (_ & _ & -> & _).
  - cbn. rewrite (filled_same m); [done|done|]. intros x Hx. apply (mw_spaces _ _ _ _ _ _ _ Hm) in Hx.
    eapply same_filled; [apply (mw_running _ _ _ _ _ _ _ Hm)|apply Hrun'|exact Hx|exact Hx|].
    intros q j e Hq. apply Hlow. intros [= ->]. done.
Qed.

Lemma wp_machine_allocate m : machine_ok m →
  wp (core_heap_allocate Process.KERNEL_STACK_SIZE) m (λ x m', machine_ok m' ∧
    match x with
    | Some b => machine_held m (Stack b) = 0 ∧ holds_more machine_held m m' 1 (Stack b)
    | None => holds_same machine_held m m'
    end).
Proof.
  intros (own & kt & top & boot & c & l & Hm). pose proof (mw_blocks _ _ _ _ _ _ _ Hm) as Hb.
  pose proof (ready_with _ _ _ _ _ _ (mw_running _ _ _ _ _ _ _ Hm)) as Hw. pose proof (proj1 Hb) as Hend.
  assert (∀ h S own', (∀ f, own' !! f = own !! f) → accounted (set_stacks S (set_grown ((pmm (vmm m), pmm (Heap.env h)) :: grown m) (set_heap h m))) own') as Hacc.
  { intros h S own' Hown f Hf0 Hf Hg. cbn in *. rewrite Hown in Hf. apply (Hg _ _ (list_elem_of_here _ _)).
    apply (mw_frames _ _ _ _ _ _ _ Hm); [done|done|]. intros p p' Hp. apply Hg. by apply list_elem_of_further. }
  cbn [core_heap_allocate Machine_Core]. wp_step. wp_step. wp_step. apply wp_zoom. destruct (blocks_with _ _ _ _ _ Hb Hw) as [[Hd Hl]|Hl].
  { unfold Heap.allocate. cbn [Heap.allocate_rec]. do 2 wp_step. rewrite Hd. cbn [orb]. rewrite orb_true_r. wp_step. wp_step.
    wp_step. wp_step. wp_step. wp_step. split; [|by intros []].
    exists own, kt, top, boot, c, l. destruct Hm as [H1 H2 H3 H4 H5 H6]. split; [done..|]. exact (Hacc (heap m) (stacks m) own (λ _, eq_refl)). }
  eapply wp_mono; [apply (HeapOps.wp_heap_allocate (HS := page_services_with own c _) (heap m) l Process.KERNEL_STACK_SIZE Hl)|].
  { unfold Process.KERNEL_STACK_SIZE, Heap.PAGE_SIZE. lia. }
  { rewrite Hend. unfold Heap.KERNEL_HEAP_END, Heap.KERNEL_HEAP_SIZE, Heap.KERNEL_HEAP_BASE, Process.KERNEL_STACK_SIZE, Heap.PAGE_SIZE. lia. }
  intros r h (_ & Hend' & l' & Hok' & Hr). apply heap_ok_with in Hok' as [Hok' Hw'].
  pose proof Hw' as (kt' & top' & boot' & Hrun' & _).
  assert (blocks_ok h l') as Hb' by (split; [by rewrite Hend'|by left]).
  destruct r as [b|].
  - destruct Hr as (_ & n & Hn & Hin & Hnew). do 5 wp_step. split; [|split].
    + exists own, kt', top', boot', c, l'. split; [done|done|apply Hm| | |by apply Hacc].
      * intros x. cbn. rewrite elem_of_union, elem_of_singleton, (mw_stacks _ _ _ _ _ _ _ Hm). split.
        -- intros [->|[k Hk]]; [exists n; apply Hin; by right|exists k; apply Hin; by left].
        -- intros [k [Hk|[-> _]]%Hin]; [right; by exists k|by left].
      * intros x k [Hx|[_ ->]]%Hin; [by eapply (mw_size _ _ _ _ _ _ _ Hm)|done].
    + cbn. rewrite decide_False; [done|]. intros [k Hk]%(mw_stacks _ _ _ _ _ _ _ Hm). by apply (Hnew k).
    + intros r. destruct r as [x|a|f|a|a]; [|rewrite (held_heap _ _ _ _ _ _ _ _ _ Hm Hw' _) by done; unfold one; rewrite decide_False by done; lia..].
      cbn. unfold one. destruct (decide (b = x)) as [->|Hne].
      * rewrite (decide_True (P := Stack x = Stack x)) by done. rewrite decide_True by set_solver.
        rewrite decide_False; [lia|]. intros [k Hk]%(mw_stacks _ _ _ _ _ _ _ Hm). by apply (Hnew k).
      * rewrite (decide_False (P := Stack b = Stack x)) by congruence. rewrite Z.mul_0_r, Z.add_0_r.
        destruct (decide (x ∈ stacks m)); [rewrite decide_True by set_solver|rewrite decide_False by set_solver]; done.
  - destruct Hr as [Hin _]. do 5 wp_step. split.
    + exists own, kt', top', boot', c, l'. split; [done|done|apply Hm| | |by apply (Hacc h (stacks m))].
      * intros x. cbn. rewrite (mw_stacks _ _ _ _ _ _ _ Hm). by setoid_rewrite Hin.
      * intros x k Hx%Hin. by eapply (mw_size _ _ _ _ _ _ _ Hm).
    + intros r. destruct r as [x|a|f|a|a]; [done|apply (held_heap _ _ _ _ _ _ _ h (stacks m) Hm Hw' ((pmm (vmm m), pmm (Heap.env h)) :: grown m)); done..].
Qed.

Lemma wp_machine_free m b : machine_ok m → 0 < machine_held m (Stack b) →
  wp (core_heap_free b) m (λ _ m', machine_ok m' ∧ holds_more machine_held m m' (-1) (Stack b)).
Proof.
  intros (own & kt & top & boot & c & l & Hm) Hb. cbn in Hb. destruct (decide (b ∈ stacks m)) as [Hin|]; [|lia].
  pose proof (proj1 (mw_stacks _ _ _ _ _ _ _ Hm b) Hin) as [n Hn]. pose proof (mw_blocks _ _ _ _ _ _ _ Hm) as [Hend Hl].
  assert (HeapSpec.heap_ok (heap m) l) as Hok by (destruct Hl as [|[_ ->]]; [done|by destruct Hn as (t & Ht%elem_of_nil & _)]).
  cbn [core_heap_free Machine_Core]. wp_step. apply wp_zoom. eapply wp_mono; [by eapply HeapOps.wp_heap_free|].
  intros [] h' (hs & l' & -> & Hok' & Hu). wp_step. split.
  - exists own, kt, top, boot, c, l'. split; [exact (mw_running _ _ _ _ _ _ _ Hm)|split; [done|by left]|apply Hm| | |exact (mw_frames _ _ _ _ _ _ _ Hm)].
    + intros x. cbn. rewrite elem_of_difference, elem_of_singleton, (mw_stacks _ _ _ _ _ _ _ Hm). split.
      * intros [[k Hk] Hne]. exists k. by apply Hu.
      * intros [k [Hk Hne]%Hu]. split; [by exists k|done].
    + intros x k [Hx _]%Hu. by eapply (mw_size _ _ _ _ _ _ _ Hm).
  - intros r. destruct r as [x|a|f|a|a]; unfold one; try (by rewrite (decide_False (P := Stack b = _)), Z.mul_0_r, Z.add_0_r by done).
    cbn. destruct (decide (b = x)) as [->|Hne].
    + rewrite (decide_True (P := Stack x = Stack x)), (decide_True (P := x ∈ stacks m)) by done. rewrite decide_False by set_solver. lia.
    + rewrite (decide_False (P := Stack b = Stack x)) by congruence.
      destruct (decide (x ∈ stacks m)); [rewrite decide_True by set_solver|rewrite decide_False by set_solver]; lia.
Qed.

(** *** Address spaces *)

(** Changes of the page tables outside of the kernel's half. *)
Lemma machine_step m own kt top boot c l s' own' c' S :
  machine_with m own kt top boot c l → kernel_running s' own' kt top boot c' →
  (∀ q j x, kslot (frames s') kt q j x ↔ kslot (frames (vmm m)) kt q j x) →
  (∀ a, a ∈ S ↔ own' !! a = Some (Table a [])) →
  (∀ f, own' !! f = None → (own !! f = None → available (pmm (vmm m)) f) → available (pmm s') f) →
  machine_with (set_spaces S (set_heap (Heap.set_env s' (heap m)) m)) own' kt top boot c' l.
Proof.
  intros Hm Hrun Hs HS' Hav. split; [done| |done|apply Hm|apply Hm|].
  2:{ intros f Hf0 Hf Hg. apply Hav; [done|]. intros Hf'. by apply (mw_frames _ _ _ _ _ _ _ Hm). }
  cbn. apply blocks_step; [apply Hm|by exists own', kt, top, boot, c'|].
  eapply kslots_mapped; [apply Hm|done|exact Hs].
Qed.

Lemma confined_frames root (s s' : Vmm P) own own' f : confined root s own s' own' →
  own' !! f = None → (own !! f = None → available (pmm s) f) → available (pmm s') f.
Proof.
  intros Hc Hf Hav. rewrite (cf_avail _ _ _ _ _ Hc). split; [|done]. apply Hav.
  destruct (own !! f) as [r|] eqn:E; [|done]. apply (cf_own _ _ _ _ _ Hc) in E. congruence.
Qed.

Lemma filled_at m s' S a :
  filled (set_spaces S (set_heap (Heap.set_env s' (heap m)) m)) a = bool_decide (a ∈ S) && negb (bool_decide (user_pages (frames s') a = [])).
Proof. done. Qed.

(** What is held is the same where the entries of the page tables are. *)
Lemma held_step m own kt top boot c l s' own' r :
  machine_with m own kt top boot c l → vm_ok s' own' → pml4_phys_ s' = pml4_phys_ (vmm m) →
  (∀ a, r = Filled a → a ∈ spaces m → own' !! a = Some (Table a []) ∧
    ∀ q j e, length q = 3%nat → slot (frames s') own' a q j e ↔ slot (frames (vmm m)) own a q j e) →
  machine_held (set_heap (Heap.set_env s' (heap m)) m) r = machine_held m r.
Proof.
  intros Hm Hok' Hreg Hr. destruct r as [b|a|f|a|a]; [done|done|done|cbn; by rewrite Hreg|]. unfold machine_held.
  change (filled (set_heap ?h m) a) with (filled (set_spaces (spaces m) (set_heap h m)) a). rewrite filled_at. unfold filled.
  case_bool_decide as Ha; [|done]. cbn [andb]. destruct (Hr a eq_refl Ha) as [Hoa Hs].
  rewrite (bool_decide_ext _ (user_pages (frames (vmm m)) a = [])); [done|].
  eapply same_filled; [apply (mw_running _ _ _ _ _ _ _ Hm)|exact Hok'|by apply (mw_spaces _ _ _ _ _ _ _ Hm)|exact Hoa|exact Hs].
Qed.

Lemma running_frame s own kt top boot c : kernel_running s own kt top boot c → frame_ok (frames s) c ∧ ¬ available (pmm s) c.
Proof. intros (Hok & Hk & _ & Hc). by destruct (root_frame _ _ _ _ _ _ Hok Hk Hc) as (? & ? & _). Qed.

Lemma wp_machine_create m : machine_ok m →
  wp core_create_space m (λ x m', machine_ok m' ∧
    match x with
    | Some a => machine_held m (Space a) = 0 ∧ machine_held m (Active a) = 0 ∧ machine_held m (Filled a) = 0 ∧ holds_more machine_held m m' 1 (Space a)
    | None => holds_same machine_held m m'
    end).
Proof.
  intros (own & kt & top & boot & c & l & Hm). pose proof (mw_running _ _ _ _ _ _ _ Hm) as Hrun. pose proof Hrun as (Hok & Hk & Hcur & Hc).
  destruct (running_frame _ _ _ _ _ _ Hrun) as [Hcf Hca]. cbn [core_create_space Machine_Core]. wp_step. apply wp_machine_vmm.
  eapply wp_mono; [by apply (wp_create (vmm m) own c)|]. intros [a|] s' Hr.
  - destruct Hr as (own' & Hcr). pose proof Hcr as (Hconf & Hoa & Hav & -> & Hempty & _).
    destruct (kernel_created _ _ _ _ _ _ _ _ _ Hok Hk Hc Hcr) as [Hk' Hs].
    assert (a ∉ spaces m) as Hna by (rewrite (mw_spaces _ _ _ _ _ _ _ Hm); congruence).
    assert (c ≠ a) as Hne by congruence. pose proof (proj1 (cf_regs _ _ _ _ _ Hconf)) as Hreg.
    wp_step. wp_step. wp_step. split; [|split; [|split; [|split]]].
    + do 6 eexists. eapply (machine_step m own kt top boot c l s' _ c ({[a]} ∪ spaces m)); [exact Hm| |exact Hs| |by intros f; eapply confined_frames].
      * split; [apply Hconf|]. split; [done|]. split; [by rewrite Hreg|]. destruct Hc as [Hc|Hc]; [left; by rewrite lookup_insert_ne|by right].
      * intros x. rewrite elem_of_union, elem_of_singleton, (mw_spaces _ _ _ _ _ _ _ Hm). destruct (decide (x = a)) as [->|Hx].
        -- rewrite lookup_insert_eq. tauto.
        -- rewrite lookup_insert_ne by done. tauto.
    + cbn. by rewrite decide_False.
    + cbn. rewrite Hcur, decide_False by congruence. done.
    + cbn. unfold filled. by rewrite bool_decide_eq_false_2.
    + intros r. destruct r as [x|x|f|x|x]; unfold one; try (rewrite (decide_False (P := Space a = _)) by done).
      1,2,3,4: cbn.
      * lia.
      * destruct (decide (a = x)) as [->|Hx].
        -- rewrite (decide_True (P := Space x = Space x)) by done. rewrite decide_True by set_solver. rewrite decide_False by done. lia.
        -- rewrite (decide_False (P := Space a = Space x)) by congruence. destruct (decide (x ∈ spaces m)); [rewrite decide_True by set_solver|rewrite decide_False by set_solver]; lia.
      * lia.
      * rewrite Hreg. lia.
      * unfold machine_held. rewrite Z.mul_0_r, Z.add_0_r, filled_at. unfold filled. change (spaces (set_heap _ m)) with (spaces m). destruct (decide (x = a)) as [->|Hxa].
        -- rewrite Hempty, (bool_decide_eq_true_2 ([] = [])), andb_false_r by done. by rewrite bool_decide_eq_false_2.
        -- rewrite (bool_decide_ext (x ∈ {[a]} ∪ spaces m) (x ∈ spaces m)) by set_solver. case_bool_decide as Hx; [|done].
           apply (mw_spaces _ _ _ _ _ _ _ Hm) in Hx. cbn [andb]. rewrite (bool_decide_ext _ (user_pages (frames (vmm m)) x = [])); [done|].
           eapply same_filled; [exact Hok|apply Hconf|exact Hx|by rewrite lookup_insert_ne|]. intros q j e Hq.
           apply (cf_other _ _ _ _ _ Hconf); [by left|by left].
  - destruct Hr as (Hno0 & Hfr & Hok' & Hno & Hreg). wp_step. wp_step. wp_step.
    destruct (kernel_keep (vmm m) own kt top boot s' own Hk) as [Hk' Hs].
    { intros f Hf _. rewrite Hfr. split; [done|]. split; [done|apply Hno]. }
    { intros r Hr. exists r. split; [by left|by rewrite Hfr]. }
    split.
    + exists own, kt, top, boot, c, l. apply (machine_step m own kt top boot c l s' own c (spaces m)); [done| |done|apply Hm|].
      * split; [done|]. split; [done|]. by rewrite Hreg.
      * intros f Hf Hav. by destruct (Hno0 f (Hav Hf)).
    + intros r. eapply held_step; [exact Hm|exact Hok'|done|]. intros a -> Ha. split; [by apply Hm|]. intros q j e _. by rewrite Hfr.
Qed.

Lemma held_space m a : 0 < machine_held m (Space a) → a ∈ spaces m.
Proof. cbn. case_decide; [done|lia]. Qed.

Lemma wp_machine_destroy m a : machine_ok m → 0 < machine_held m (Space a) → machine_held m (Active a) = 0 →
  wp (core_destroy_space (Some a)) m (λ _ m', machine_ok m' ∧ ∀ r, r ≠ Filled a → machine_held m' r = machine_held m r - one (Space a) r).
Proof.
  intros (own & kt & top & boot & c & l & Hm) Ha%held_space Hact. pose proof (mw_running _ _ _ _ _ _ _ Hm) as Hrun. pose proof Hrun as (Hok & Hk & Hcur & Hc).
  pose proof (proj1 (mw_spaces _ _ _ _ _ _ _ Hm a) Ha) as Hoa.
  assert (c ≠ a) as Hca by (intros ->; cbn in Hact; rewrite Hcur, decide_True in Hact by done; lia).
  cbn [core_destroy_space Machine_Core]. wp_step. apply wp_machine_vmm. eapply wp_mono; [by eapply destroy_wp|].
  intros [] s' (Hok' & Hfr & Hav & Hreg). destruct (kernel_destroyed _ _ _ _ _ a s' Hok Hk Hfr Hav) as [Hk' Hs].
  set (own' := filter _ own) in *. wp_step.
  assert (∀ x, own' !! x = Some (Table x []) ↔ own !! x = Some (Table x []) ∧ x ≠ a) as Hroots by (intros x; apply map_lookup_filter_Some).
  split.
  - exists own', kt, top, boot, c, l. apply (machine_step m own kt top boot c l s' own' c (spaces m ∖ {[a]})); [done| |done| |].
    + split; [done|]. split; [done|]. split; [by rewrite Hreg|]. destruct Hc as [Hc|Hc]; [left; by apply Hroots|by right].
    + intros x. by rewrite elem_of_difference, elem_of_singleton, (mw_spaces _ _ _ _ _ _ _ Hm), Hroots.
    + intros f Hf Hfree. apply Hav. destruct (own !! f) as [r|] eqn:Ef; [right; exists r; split; [done|]|left; by apply Hfree].
      destruct (decide (root_of r = a)) as [|Hra]; [done|]. assert (own' !! f = Some r) by (by apply map_lookup_filter_Some). congruence.
  - intros r Hr. destruct r as [x|x|f|x|x]; unfold one; try (rewrite (decide_False (P := Space a = _)) by done).
    1,2,3,4: cbn.
    + lia.
    + destruct (decide (a = x)) as [->|Hx].
      * rewrite (decide_True (P := Space x = Space x)), (decide_True (P := x ∈ spaces m)) by done. rewrite decide_False by set_solver. lia.
      * rewrite (decide_False (P := Space a = Space x)) by congruence.
        destruct (decide (x ∈ spaces m)); [rewrite decide_True by set_solver|rewrite decide_False by set_solver]; lia.
    + lia.
    + rewrite Hreg. lia.
    + assert (x ≠ a) as Hxa by congruence. unfold machine_held. rewrite filled_at, Hfr. unfold filled.
      rewrite (bool_decide_ext (x ∈ spaces m ∖ {[a]}) (x ∈ spaces m)) by set_solver. lia.
Qed.

Lemma wp_machine_copy m src dest : machine_ok m → 0 < machine_held m (Space src) → 0 < machine_held m (Space dest) → src ≠ dest →
  machine_held m (Filled dest) = 0 →
  wp (core_copy_pages (Some src) (Some dest)) m (λ _ m', machine_ok m' ∧ steady machine_held m m').
Proof.
  intros (own & kt & top & boot & c & l & Hm) Hsrc%held_space Hdest%held_space Hne Hfill.
  pose proof (mw_running _ _ _ _ _ _ _ Hm) as Hrun. pose proof Hrun as (Hok & Hk & Hcur & Hc).
  assert (user_pages (frames (vmm m)) dest = []) as Hempty.
  { unfold machine_held, filled in Hfill. rewrite bool_decide_eq_true_2 in Hfill by done. by case_bool_decide. }
  apply (mw_spaces _ _ _ _ _ _ _ Hm) in Hsrc. pose proof (proj1 (mw_spaces _ _ _ _ _ _ _ Hm dest) Hdest) as Hod.
  cbn [core_copy_pages Machine_Core]. apply wp_machine_vmm. eapply wp_mono; [by eapply (wp_copy_user_pages (vmm m) own src dest)|].
  intros b s' Hb. assert (∃ own', confined dest (vmm m) own s' own') as (own' & Hconf).
  { destruct b; [destruct Hb as (own' & H2 & _)|destruct Hb as [(own' & H2) _]]; by exists own'. }
  destruct (kernel_confined _ _ _ _ _ _ _ _ Hk Hod Hconf) as [Hk' Hs]. pose proof (proj1 (cf_regs _ _ _ _ _ Hconf)) as Hreg.
  split.
  - exists own', kt, top, boot, c, l. apply (machine_step m own kt top boot c l s' own' c (spaces m)); [done| |done| |by intros f; eapply confined_frames].
    + split; [apply Hconf|]. split; [done|]. split; [by rewrite Hreg|]. destruct Hc as [Hc|Hc]; [left; by apply (cf_own _ _ _ _ _ Hconf)|by right].
    + intros x. rewrite (mw_spaces _ _ _ _ _ _ _ Hm). split; [apply (cf_own _ _ _ _ _ Hconf)|].
      intros Hx. destruct (cf_new _ _ _ _ _ Hconf _ _ Hx) as [|[_ Hr]]; [done|]. cbn in Hr. by subst x.
  - intros r Hr. eapply held_step; [exact Hm|apply Hconf|done|]. intros a -> _. by destruct (Hr a).
Qed.

Lemma wp_machine_switch m a : machine_ok m → 0 < machine_held m (Space a) →
  wp (core_switch_space (Some a)) m (λ _ m', machine_ok m' ∧ activates machine_held m m' a).
Proof.
  intros (own & kt & top & boot & c & l & Hm) Ha%held_space. pose proof (mw_running _ _ _ _ _ _ _ Hm) as (Hok & Hk & Hcur & Hc).
  cbn [core_switch_space Machine_Core]. apply wp_machine_vmm. unfold switch_address_space. wp_step.
  set (s' := set_cr3 a (set_pml4_phys (Some a) (vmm m))).
  assert (vm_ok s' own) as Hok' by (destruct Hok; by split).
  assert (kernel_ok s' own kt top boot) as Hk' by (destruct Hk; by split).
  split.
  - exists own, kt, top, boot, a, l. apply (machine_step m own kt top boot c l s' own a (spaces m)); [done| |done|apply Hm|intros f Hf Hav; by apply Hav].
    split; [done|]. split; [done|]. split; [done|]. left. by apply Hm.
  - intros r. destruct r as [x|x|f|x|x]; [done|done|done| |done]. cbn. destruct (decide (a = x)) as [->|Hx]; [by rewrite decide_True|].
    by rewrite decide_False by congruence.
Qed.

Lemma wp_machine_set_stack m rsp : machine_ok m →
  wp (core_set_stack rsp) m (λ _ m', machine_ok m' ∧ holds_same machine_held m m').
Proof.
  intros (own & kt & top & boot & c & l & [H1 H2 H3 H4 H5 H6]). cbn [core_set_stack Machine_Core]. wp_step.
  split; [|by intros []]. exists own, kt, top, boot, c, l. by split.
Qed.

(** *** The memory of the user *)
Lemma user_byte_same (s s' : Vmm P) own own' c va :
  vm_ok s own → vm_ok s' own' → own !! c = Some (Table c []) → own' !! c = Some (Table c []) →
  (∀ q j e, length q = 3%nat → slot (frames s') own' c q j e ↔ slot (frames s) own c q j e) → user_byte s c va → user_byte s' c va.
Proof.
  intros Hok Hok' Hc Hc' Hs (Hva & x & Hx & Hp). split; [done|]. exists x. split; [|done]. by apply (same_user_pages s own s' own' c x Hok Hok' Hc Hc' Hs).
Qed.

Lemma machine_load m va : machine_ok m → machine_accessible m va → is_Some (core_load m va).
Proof.
  intros (own & kt & top & boot & c & l & Hm) (c' & Hcur' & Hin & Hu). pose proof (mw_running _ _ _ _ _ _ _ Hm) as (Hok & _ & Hcur & _).
  eapply load_user_byte; [exact Hok|by apply Hm|done|done].
Qed.

Lemma wp_machine_store m va v : machine_ok m → machine_accessible m va →
  wp (core_store va v) m (λ _ m', machine_ok m' ∧ holds_same machine_held m m' ∧
    ∀ y, machine_accessible m y → machine_accessible m' y).
Proof.
  intros (own & kt & top & boot & c & l & Hm) (c' & Hcur' & Hin & Hu). pose proof (mw_running _ _ _ _ _ _ _ Hm) as (Hok & Hk & Hcur & Hc).
  pose proof (proj1 (mw_spaces _ _ _ _ _ _ _ Hm c') Hin) as Hoc.
  cbn [core_store Machine_Core]. apply wp_machine_vmm. eapply wp_mono; [by eapply (wp_store_user_byte (vmm m) own c')|].
  intros [] s' (f & p & t & t' & Hf & Ht & Hl & ->). destruct (page_written (vmm m) own f c' p t t' Hok Hf Ht Hl) as (Hok' & Hsl & Htab).
  set (s' := set_frames _ (vmm m)) in *. destruct (kernel_keep (vmm m) own kt top boot s' own Hk) as [Hk' Hs].
  { intros g Hg Hn. split; [|done]. apply lookup_insert_ne. congruence. }
  { intros r Hr. exists r. split; [by left|]. unfold entry_at. by rewrite (Htab r r []). }
  split; [|split].
  - exists own, kt, top, boot, c, l. apply (machine_step m own kt top boot c l s' own c (spaces m)); [exact Hm| |exact Hs|apply Hm|intros g Hg Hav; by apply Hav].
    split; [exact Hok'|]. split; [exact Hk'|]. split; [exact Hcur|exact Hc].
  - intros r. eapply held_step; [exact Hm|exact Hok'|done|]. intros a -> Ha. split; [by apply Hm|]. intros q j e _. apply Hsl.
  - intros y (d & Hd & Hdin & Hy). exists d. split; [done|]. split; [done|]. apply (mw_spaces _ _ _ _ _ _ _ Hm) in Hdin.
    eapply user_byte_same; [exact Hok|exact Hok'|exact Hdin|exact Hdin| |exact Hy]. intros q j e _. apply Hsl.
Qed.

(** *** The program of a process *)

(** The current process has no stack page yet. *)
Definition no_stack m (a : Z) : Prop := Forall (λ x, x.1 ≠ UserMode.kUserStack) (user_pages (frames (vmm m)) a).

Lemma wp_machine_user_space user_start user_end m a :
  KERNEL_BASE <= user_start <= user_end → user_end + 4096 <= 2 ^ 64 → machine_ok m → a ∈ spaces m → no_stack m a →
  wp (in_vmm (UserMode.map_user_space user_start user_end (Some a))) m (λ _ m', machine_ok m' ∧ steady machine_held m m').
Proof.
  intros Hstart Hend (own & kt & top & boot & c & l & Hm) Ha Hno. pose proof (mw_running _ _ _ _ _ _ _ Hm) as Hrun. pose proof Hrun as (Hok & Hk & Hcur & Hc).
  pose proof (proj1 (mw_spaces _ _ _ _ _ _ _ Hm a) Ha) as Hoa. apply wp_machine_vmm.
  eapply wp_mono; [apply (UserMode.wp_map_user_space user_start user_end (vmm m) own kt top boot a c); [done..|]|].
  { intros x Hx. destruct (has x User) eqn:Eu; [|done]. exfalso. refine (proj1 (Forall_forall _ _) Hno (UserMode.kUserStack, x) _ eq_refl).
    apply (elem_user_pages _ own); [apply (vo_tables _ _ Hok)|done|]. exists 0%nat, 3%nat, 0%nat. do 3 (split; [lia|]). done. }
  intros b s' (own' & Hus). pose proof (UserMode.us_ok _ _ _ _ _ _ _ _ _ _ _ Hus) as Hok'. pose proof (UserMode.us_regs _ _ _ _ _ _ _ _ _ _ _ Hus) as Hreg.
  assert (kernel_running s' own' kt top boot c) as Hrun'.
  { split; [done|]. split; [apply Hus|]. split; [by rewrite Hreg|]. destruct Hc as [Hc| ->]; [left; by apply (UserMode.us_own _ _ _ _ _ _ _ _ _ _ _ Hus)|by right]. }
  split.
  - exists own', kt, top, boot, c, l. split; [done| |intros x; cbn; rewrite (mw_spaces _ _ _ _ _ _ _ Hm)|apply Hm|apply Hm|].
    + apply blocks_step; [apply Hm|by exists own', kt, top, boot, c|]. eapply mapped_step; [exact Hrun|exact Hrun'|].
      intros va x Hx. by apply (UserMode.us_mapped _ _ _ _ _ _ _ _ _ _ _ Hus); exists x.
    + split; [apply (UserMode.us_own _ _ _ _ _ _ _ _ _ _ _ Hus)|]. intros Hx.
      destruct (UserMode.us_new _ _ _ _ _ _ _ _ _ _ _ Hus _ _ Hx) as [|[_ Hr]]; [done|]. cbn in Hr. by subst x.
    + intros f Hf0 Hf Hg. apply (UserMode.us_avail _ _ _ _ _ _ _ _ _ _ _ Hus). split; [|done]. apply (mw_frames _ _ _ _ _ _ _ Hm); [done| |done].
      destruct (own !! f) as [r|] eqn:E; [|done]. apply (UserMode.us_own _ _ _ _ _ _ _ _ _ _ _ Hus) in E. congruence.
  - intros r Hr. eapply held_step; [exact Hm|exact Hok'|done|]. intros x -> _. by destruct (Hr x).
Qed.

(** The contract of the core, for a start with the allocator [p0]. *)
Definition Machine_CoreSpec : CoreSpec (Machine P).
Proof.
  refine {| core_ok := machine_ok; core_held := machine_held; accessible := machine_accessible |}.
  - intros m a _. cbn. case_decide; lia.
  - intros m a b _. cbn. intros Ha Hb. case_decide; [|lia]. case_decide; [congruence|lia].
  - exact wp_machine_allocate.
  - exact wp_machine_free.
  - exact wp_machine_create.
  - exact wp_machine_destroy.
  - exact wp_machine_copy.
  - exact wp_machine_switch.
  - exact wp_machine_set_stack.
  - exact machine_load.
  - exact wp_machine_store.
Defined.
End invariant.

(** ** The processes on the machine *)
From S2P Require Import BlockStore Process ProcessSpec ProcessSched ProcessTable ProcessOps ProcessFork ProcessProps.
From S2P Require Import Systemcall SystemcallProps.
From S2P Require File FileProps.

Section processes.
Context {T P : Type} `{HT : IBlockStore T} `{HP : FrameAllocator P} `{HS : !FrameAllocatorSpec P} `{HI : KernelImage}.
Implicit Types (s : Kernel (Board T (Machine P))).

(** Before the first process: no file is open, no stack and no address space has been
    handed out. *)
Record files_started (fs : File.Files T) : Prop := {
  fs_empty : Forall (λ x, x = File.empty_file) (File.file_table fs);
  fs_keyboard : FileProps.console_ok fs;
  fs_console : File.file_console fs ≠ None;
}.
Definition machine_at_start (h : Heap.Heap (Vmm P)) : Machine P := mkMachine h 0 ∅ ∅ [].

(** The memory at the start. *)
Context (h : Heap.Heap (Vmm P)).
#[local] Instance started_core : CoreSpec (Machine P) := Machine_CoreSpec (pmm (Heap.env h)).

Lemma board_started fs : memory_started h → files_started fs →
  svc_ok (mkBoard fs (machine_at_start h)) ∧ ∀ r, owned r → held (mkBoard fs (machine_at_start h)) r = 0.
Proof.
  intros [(kt & top & boot & c & Hrun) Hend Hheap] [He Hk Hc]. split.
  - split; [|eapply Forall_impl; [exact He|]; intros x ->; by split; cbn; unfold INT_MAX; [lia|..]|done|done].
    exists ∅, kt, top, boot, c. destruct Hheap as [(l & Hl & Hu)|[Hd _]]; [exists l|exists []]; (split; [done| | | | |]).
    + split; [done|by left].
    + intros a. cbn. rewrite lookup_empty. set_solver.
    + intros b. cbn. split; [set_solver|]. intros [n Hn]. by destruct (Hu b n).
    + intros b n Hn. by destruct (Hu b n).
    + by intros f Hf _ _.
    + split; [done|by right].
    + intros a. cbn. rewrite lookup_empty. set_solver.
    + intros b. cbn. split; [set_solver|]. by intros (n & t & Ht%elem_of_nil & _).
    + by intros b n (t & Ht%elem_of_nil & _).
    + by intros f Hf _ _.
  - intros [b|a|f|a|a] Hr; [done|done| |done|done]. cbn. unfold refs. destruct (File.file_table fs !! f) as [x|] eqn:Hx; [|done].
    by rewrite (Forall_lookup_1 _ _ _ _ He Hx).
Qed.

(** Who uses a resource that is held once. *)
Lemma held_by s r : accounts_ok s → owned r → held (env s) r <= 1 →
  (0 < held (env s) r ↔ ∃ k p, procs s !! k = Some p ∧ 0 < uses r p) ∧
  ∀ i j p q, procs s !! i = Some p → procs s !! j = Some q → 0 < uses r p → 0 < uses r q → i = j.
Proof.
  intros Hok Hr Hle. rewrite (ao_balance _ Hok r Hr) in *. split.
  - split; [apply total_uses_exists|]. intros (k & p & Hp & Hu). pose proof (uses_total r _ _ _ Hp). lia.
  - intros i j p q Hp Hq Hup Huq. destruct (decide (i = j)) as [|Hij]; [done|]. pose proof (total_uses_two r _ i j p q Hij Hp Hq). lia.
Qed.

Lemma uses_space a p : 0 < uses (Space a) p ↔ pml4 p = Some a.
Proof. cbn. case_decide; split; (done || lia). Qed.
Lemma uses_stack b p : 0 < uses (Stack b) p ↔ kernel_stack p = Some b.
Proof. cbn. case_decide; split; (done || lia). Qed.

(** *** What can happen *)
Context (user_start user_end : Z) (Huser : KERNEL_BASE <= user_start <= user_end) (Huser_end : user_end + 4096 <= 2 ^ 64).
Abbreviation memory s := (core (env s)).

Definition prepare_space (a : Z) : M (Kernel (Board T (Machine P))) bool :=
  service (in_core (in_vmm (UserMode.map_user_space user_start user_end (Some a)))).
Definition user_store (va v : Z) : M (Kernel (Board T (Machine P))) () := service (in_core (core_store va v)).

(** An operation on the processes; a system call of the current process, or the
    preparation of its user space when it has no stack yet, or a store of its user
    code into one of its pages; input that arrives, and output. *)
Inductive mstep s : Kernel (Board T (Machine P)) → Prop :=
| mstep_process s' : kstep s s' → mstep s s'
| mstep_call k p at_ tf snap rsp r s' : current s = Some k → procs s !! k = Some p → next_pid s < INT_MAX →
    0 <= tf_rdi tf ∧ 0 <= tf_rdx tf → request_ok (env s) p tf → handle_syscall at_ tf snap rsp s = Some (r, s') → mstep s s'
| mstep_space k p a b s' : current s = Some k → procs s !! k = Some p → pml4 p = Some a → no_stack (memory s) a →
    prepare_space a s = Some (b, s') → mstep s s'
| mstep_store va v s' : machine_accessible (memory s) va → user_store va v s = Some ((), s') → mstep s s'
| mstep_devices fs : File.file_table fs = File.file_table (KernelFiles.files (env s)) → FileProps.console_ok fs → File.file_console fs ≠ None →
    mstep s (set_env (KernelFiles.set_files fs (env s)) s).

Lemma table_ok_steady s e : table_ok s → svc_ok e → steady held (env s) e → table_ok (set_env e s).
Proof.
  intros [H1 H2 H3 H4 H5 H6] He Hh. split; [|done..]. replace (set_env e s) with (set_env e (set_procs (procs s) s)) by by destruct s.
  apply accounts_relate; [done..|]. apply Forall_Forall2_diag, Forall_true. by split.
Qed.

(** A change of the memory alone. *)
Lemma wp_memory {A} (c : M (Machine P) A) s : table_ok s →
  wp c (memory s) (λ _ m', core_ok m' ∧ steady core_held (memory s) m') → wp (service (in_core c)) s (λ _ s', table_ok s').
Proof.
  intros Hok Hc. apply wp_service, wp_zoom. eapply wp_mono; [exact Hc|]. intros _ m' [Hm Hh]. apply table_ok_steady; [done| |].
  - apply board_core; [apply Hok|done].
  - intros [b|a|f|a|a] Hr; [by apply (Hh (Stack b))|by apply (Hh (Space a))|done|by apply (Hh (Active a))|by destruct (Hr a)].
Qed.

Lemma mstep_ok s s' : table_ok s → mstep s s' → table_ok s'.
Proof using Huser Huser_end.
  intros Hok [s1 H|k p at_ tf snap rsp r s1 Hc Hp Hn Hregs Hreq H|k p a b s1 Hc Hp Ha Hno H|va v s1 Hva H|fs Hft Hfk Hfc].
  - by eapply kstep_ok.
  - by destruct (wp_elim _ _ _ _ _ (wp_handle_syscall s k p at_ tf snap rsp Hok Hn Hc Hp Hregs Hreq) H).
  - revert H. apply (wp_elim _ _ (λ _ s, table_ok s)). apply wp_memory; [done|].
    apply (wp_machine_user_space (pmm (Heap.env h))); [done|done|apply (bo_core _ (ao_services _ (to_accounts _ Hok)))| |done].
    apply held_space. pose proof (held_pos s k p (Space a) (to_accounts _ Hok) Hp) as Hpos. apply Hpos. by apply uses_space.
  - revert H. apply (wp_elim _ _ (λ _ s, table_ok s)). apply wp_memory; [done|].
    eapply wp_mono; [apply (core_store_spec (memory s) va v); [apply (bo_core _ (ao_services _ (to_accounts _ Hok)))|done]|].
    intros _ m' (Hm & Hh & _). split; [done|by apply same_steady].
  - apply table_ok_steady; [done| |].
    + apply board_files; [apply Hok| |done|done]. rewrite Hft. apply (bo_files _ (ao_services _ (to_accounts _ Hok))).
    + intros r _. by apply held_files.
Qed.

End processes.

(** ** A run *)
From S2P Require FileSystem.

#[local] Instance image : KernelImage := {| image_trampoline := 0xFFFFFFFF80102000; image_fork_return := 0xFFFFFFFF80103000 |}.

(** The heap of the small machine. *)
Definition boot_heap : Heap.Heap (Vmm Pmm.Pmm) :=
  match Heap.construct Heap.KERNEL_HEAP_BASE Heap.KERNEL_HEAP_END (HeapProps.fresh_heap kvm0) with
  | Some (_, h) => h
  | None => HeapProps.fresh_heap kvm0
  end.
Lemma boot_heap_started : memory_started boot_heap.
Proof.
  destruct (wp_heap_start kvm0 ktab (kpage 1) (kpage 0) (kpage 0)) as ([] & h & Hrun & Hh).
  { split; [exact kvm0_ok|]. split; [exact kvm0_kernel|]. split; [reflexivity|]. right. reflexivity. }
  unfold boot_heap. by rewrite Hrun.
Qed.

Definition boot_files : File.Files RamStore := File.set_file_console (Some (FileSystem.LogConsole [])) FileProps.typing.
Lemma boot_files_started : files_started boot_files.
Proof. split; [by apply Forall_replicate| |done]. destruct FileProps.typing_ok as [H1 H2 H3]. by split. Qed.

Definition small_kernel := Kernel (Board RamStore (Machine Pmm.Pmm)).
Definition goes {A} (m : M small_kernel A) (s : small_kernel) : small_kernel := match m s with Some (_, s') => s' | None => s end.
Definition shell : M small_kernel (option nat) := create_process (Some 4096) ([115; 104] ++ 0 :: []) 0.
Definition booted : small_kernel := goes initialize (static_kernel (mkBoard boot_files (machine_at_start boot_heap))).

(** A process is created and runs; it prepares its user space, stores a byte on its
    stack, forks a child by a system call and waits for it; the child runs and ends,
    and its parent reaps it. *)
Definition shell_space : Z := 1097728.
Definition prepare : M small_kernel bool := prepare_space UserMode.user_text (UserMode.user_text + 4096) shell_space.
Definition store : M small_kernel () := user_store (UserMode.kUserStackTop - 8) 65.
Definition fork_regs : TrapFrame := mkTrapFrame 0 0 0 0 514 0 0 0 0 0 kFork 4200000 0 0 0 6295536.
Definition call_fork : M small_kernel Return := handle_syscall 8000 fork_regs (mkContext 0 0 0 0 0 0 5000) 0xFFFFFFFF90003000.
Definition prepared_shell : small_kernel := goes prepare (goes yield (goes shell booted)).
Definition waiting_shell : small_kernel := goes wait_turn (goes call_fork (goes store prepared_shell)).
Definition shell_again : small_kernel := goes wait_turn (goes (sleep_resume 0) (goes (exit 7) waiting_shell)).

Definition runs {A} (m : M small_kernel A) (s : small_kernel) : bool := match m s with Some _ => true | None => false end.
Lemma goes_spec {A} (m : M small_kernel A) s : runs m s = true → ∃ r, m s = Some (r, goes m s).
Proof. unfold runs, goes. destruct (m s) as [[r s']|]; [by exists r|done]. Qed.

Lemma booted_runs : initialize (static_kernel (mkBoard boot_files (machine_at_start boot_heap))) = Some ((), booted).
Proof. destruct (goes_spec initialize (static_kernel (mkBoard boot_files (machine_at_start boot_heap)))) as [[] H]; [by vm_compute|exact H]. Qed.

Abbreviation small_step := (mstep boot_heap UserMode.user_text (UserMode.user_text + 4096)).

Lemma shell_step s : (next_pid s <? INT_MAX) && runs shell s = true → small_step s (goes shell s).
Proof.
  intros [Hn [r H]%goes_spec]%andb_true_iff. apply mstep_process. eapply (step_create _ (Some 4096) [115; 104] [] 0); [lia| |exact H].
  by apply (bool_decide_unpack _).
Qed.
Lemma yield_step s : runs yield s = true → small_step s (goes yield s).
Proof. intros [r H]%goes_spec. apply mstep_process. by eapply step_yield. Qed.
Lemma wait_step s : bool_decide (current s ≠ None) && runs wait_turn s = true → small_step s (goes wait_turn s).
Proof. intros [Hc%bool_decide_eq_true [r H]%goes_spec]%andb_true_iff. apply mstep_process. by eapply step_wait. Qed.
Lemma exit_step s k st : bool_decide (current s = Some k) && runs (exit st) s = true → small_step s (goes (exit st) s).
Proof. intros [Hc%bool_decide_eq_true [r H]%goes_spec]%andb_true_iff. apply mstep_process. by eapply step_exit. Qed.
Lemma resume_step s k p : procs s !! k = Some p → context p = Saved AtWait →
  bool_decide (current s = Some k) && runs (sleep_resume k) s = true → small_step s (goes (sleep_resume k) s).
Proof. intros Hp Hx [Hc%bool_decide_eq_true [[] H]%goes_spec]%andb_true_iff. apply mstep_process. eapply step_resume; [done|exact Hp|by right|exact H]. Qed.
Lemma prepare_step s k p : current s = Some k → procs s !! k = Some p → pml4 p = Some shell_space →
  forallb (λ x, negb (x.1 =? UserMode.kUserStack)) (user_pages (frames (Heap.env (heap (core (env s))))) shell_space) && runs prepare s = true →
  small_step s (goes prepare s).
Proof.
  intros Hc Hp Ha [Hno [b H]%goes_spec]%andb_true_iff. eapply mstep_space; [exact Hc|exact Hp|exact Ha| |exact H].
  apply Forall_forall. intros x Hx. apply list_elem_of_In in Hx. apply (proj1 (forallb_forall _ _) Hno) in Hx. lia.
Qed.
Lemma call_step s k p : current s = Some k → procs s !! k = Some p → (next_pid s <? INT_MAX) && runs call_fork s = true →
  small_step s (goes call_fork s).
Proof.
  intros Hc Hp [Hn [r H]%goes_spec]%andb_true_iff. eapply mstep_call; [exact Hc|exact Hp|lia| | |exact H]; [split; by vm_compute|].
  split_and!; intros Hnum; by vm_compute in Hnum.
Qed.

(** The address space of the process, with its stack. *)
Definition first_page (s : small_kernel) (a : Z) : Z * Z := default (0, 0) (user_pages (frames (Heap.env (heap (core (env s))))) a !! 0%nat).
Lemma store_step s : machine_accessible (core (env s)) (UserMode.kUserStackTop - 8) → runs store s = true → small_step s (goes store s).
Proof. intros Ha [[] H]%goes_spec. by eapply mstep_store. Qed.
Lemma stack_accessible : machine_accessible (core (env prepared_shell)) (UserMode.kUserStackTop - 8).
Proof.
  exists shell_space. split; [by vm_compute|]. split; [by apply (bool_decide_unpack _); vm_compute|].
  split; [by vm_compute|]. exists (first_page prepared_shell shell_space).
  split; [apply (list_elem_of_lookup_2 _ 0); by vm_compute|split; by vm_compute].
Qed.

Lemma prepared_shell_reached : rtc small_step booted prepared_shell.
Proof.
  apply rtc_r with (goes yield (goes shell booted)).
  2:{ apply (prepare_step _ 0 (default static_process (procs (goes yield (goes shell booted)) !! 0%nat))); by vm_compute. }
  apply rtc_r with (goes shell booted); [|apply yield_step; by vm_compute].
  apply rtc_once, shell_step. by vm_compute.
Qed.
Lemma waiting_shell_reached : rtc small_step prepared_shell waiting_shell.
Proof.
  apply rtc_r with (goes call_fork (goes store prepared_shell)); [|apply wait_step; by vm_compute].
  apply rtc_r with (goes store prepared_shell); [apply rtc_once, store_step; [exact stack_accessible|by vm_compute]|].
  apply (call_step _ 0 (default static_process (procs (goes store prepared_shell) !! 0%nat))); by vm_compute.
Qed.
Lemma shell_again_reached : rtc small_step waiting_shell shell_again.
Proof.
  apply rtc_r with (goes (sleep_resume 0) (goes (exit 7) waiting_shell)); [|apply wait_step; by vm_compute].
  apply rtc_r with (goes (exit 7) waiting_shell).
  - apply rtc_once, (exit_step _ 1). by vm_compute.
  - apply (resume_step _ 0 (default static_process (procs (goes (exit 7) waiting_shell) !! 0%nat))); by vm_compute.
Qed.

Lemma spaces_in x ps k p a : forallb (λ p, match pml4 p with Some a => a =? x | None => true end) ps = true →
  ps !! k = Some p → pml4 p = Some a → a = x.
Proof.
  intros H Hp Ha. apply (proj1 (forallb_forall _ _)) with (x := p) in H; [|apply list_elem_of_In; by eapply list_elem_of_lookup_2].
  rewrite Ha in H. lia.
Qed.
Lemma one_space k p a : procs shell_again !! k = Some p → pml4 p = Some a → a = shell_space.
Proof. apply spaces_in. by vm_compute. Qed.

