(* ===== verification/Gdt.v ===== *)
(** * Segments and the task state (include/gdt.hpp, include/gdt.cpp)

    The global descriptor table as the bytes the processor reads, the task state
    segment, the two places for the kernel stack, and the registers of the system
    call instruction. *)
From stdpp Require Import strings.
From S2P Require Import Prelude FileSystem Console Cpu.
From S2P Require Import Printf.

Definition kKernelCode : Z := Z.shiftl 1 3.
Definition kKernelData : Z := Z.shiftl 2 3.
Definition kUserData : Z := Z.lor (Z.shiftl 3 3) 0x03.
Definition kUserCode : Z := Z.lor (Z.shiftl 4 3) 0x03.
Definition kTSS : Z := Z.shiftl 5 3.
Definition index_of (selector : Z) : Z := Z.shiftr selector 3.

Record GlobalDescriptorTableEntry := mkEntry {
  limit_low : Z; base_low : Z; base_middle : Z; access : Z; granularity : Z; base_high : Z;
}.
Definition entry_bytes (e : GlobalDescriptorTableEntry) : list Z :=
  le_bytes 2 (limit_low e) ++ le_bytes 2 (base_low e) ++ le_bytes 1 (base_middle e) ++ le_bytes 1 (access e) ++
  le_bytes 1 (granularity e) ++ le_bytes 1 (base_high e).
(** The first half of a [TaskStateSegmentDescriptor] is laid out like an entry. *)
Definition tss_descriptor_bytes (e : GlobalDescriptorTableEntry) (base_upper reserved : Z) : list Z :=
  entry_bytes e ++ le_bytes 4 base_upper ++ le_bytes 4 reserved.

(** Only the fields that the code sets; the others stay zero. *)
Record TaskStateSegment := mkTSS { rsp : list Z; io_map_base_address : Z }.
Definition sizeof_TaskStateSegment : Z := 104.
Definition sizeof_GlobalDescriptorTableEntry : Z := 8.
Definition GDT_ENTRIES : Z := 7.

Inductive PrivilegeLevel := Ring0 | Ring3.
Definition privilege_bits (p : PrivilegeLevel) : Z := match p with Ring0 => 0 | Ring3 => 3 end.

(** Bit fields of one bit are booleans. *)
Record Access := mkAccess {
  present : bool; descriptor_privilege_level : PrivilegeLevel; descriptor_type : bool; executable : bool;
  direction_conforming : bool; readable_writable : bool; accessed : bool;
}.
Definition bit (b : bool) : Z := Z.b2z b.
Definition access_byte (a : Access) : Z :=
  u8 (Z.lor (Z.lor (Z.lor (Z.lor (Z.lor (Z.lor (Z.shiftl (bit (present a)) 7) (Z.shiftl (privilege_bits (descriptor_privilege_level a)) 5))
    (Z.shiftl (bit (descriptor_type a)) 4)) (Z.shiftl (bit (executable a)) 3)) (Z.shiftl (bit (direction_conforming a)) 2))
    (Z.shiftl (bit (readable_writable a)) 1)) (bit (accessed a))).

Record Granularity := mkGranularity { page_units : bool; default_operand_size : bool; long_mode : bool; available : bool }.
Definition granularity_byte (g : Granularity) : Z :=
  u8 (Z.lor (Z.lor (Z.lor (Z.shiftl (bit (page_units g)) 7) (Z.shiftl (bit (default_operand_size g)) 6)) (Z.shiftl (bit (long_mode g)) 5))
    (Z.shiftl (bit (available g)) 4)).

Inductive SystemDescriptorType := AvailableTss | BusyTss.
Definition system_type_bits (t : SystemDescriptorType) : Z := match t with AvailableTss => 0x9 | BusyTss => 0xB end.
Record SystemAccess := mkSystemAccess { sys_present : bool; sys_privilege : PrivilegeLevel; sys_descriptor_type : bool; sys_type : SystemDescriptorType }.
Definition system_access_byte (a : SystemAccess) : Z :=
  u8 (Z.lor (Z.lor (Z.lor (Z.shiftl (bit (sys_present a)) 7) (Z.shiftl (privilege_bits (sys_privilege a)) 5))
    (Z.shiftl (bit (sys_descriptor_type a)) 4)) (Z.land (system_type_bits (sys_type a)) 0x0F)).

(** The fields of an entry for a segment; the base of a task state segment has 64 bits. *)
Definition entry_for (acc gran base limit : Z) : GlobalDescriptorTableEntry :=
  mkEntry (Z.land limit 0xFFFF) (Z.land base 0xFFFF) (Z.land (Z.shiftr base 16) 0xFF) acc
    (Z.lor (Z.land (Z.shiftr limit 16) 0x0F) gran) (Z.land (Z.shiftr base 24) 0xFF).

(** The static variables; [gdt_entries] are the bytes of the array. *)
Record Gdt (D : Type) := mkGdt {
  gdt_entries : list Z;
  tss : TaskStateSegment;
  gdt_ptr : Z * Z;
  syscall_kernel_rsp : Z;
  cpu : D;
}.
Arguments mkGdt {D}. Arguments gdt_entries {D}. Arguments tss {D}. Arguments gdt_ptr {D}. Arguments syscall_kernel_rsp {D}. Arguments cpu {D}.

(** Where the linker put the table and the segment. *)
Class GdtAddresses := { gdt_entries_address : Z; tss_address : Z }.

Section Gdt.
Context {D : Type} `{Cpu D} `{GdtAddresses}.

Definition set_gdt_entries v (s : Gdt D) := mkGdt v (tss s) (gdt_ptr s) (syscall_kernel_rsp s) (cpu s).
Definition set_tss v (s : Gdt D) := mkGdt (gdt_entries s) v (gdt_ptr s) (syscall_kernel_rsp s) (cpu s).
Definition set_gdt_ptr v (s : Gdt D) := mkGdt (gdt_entries s) (tss s) v (syscall_kernel_rsp s) (cpu s).
Definition set_syscall_kernel_rsp v (s : Gdt D) := mkGdt (gdt_entries s) (tss s) (gdt_ptr s) v (cpu s).
Definition set_cpu (v : D) (s : Gdt D) := mkGdt (gdt_entries s) (tss s) (gdt_ptr s) (syscall_kernel_rsp s) v.
Definition in_cpu {A} (m : M D A) : M (Gdt D) A := zoom cpu set_cpu m.

(** Bytes written to the table; outside of it the model is stuck. *)
Definition write_table (index : Z) (l : list Z) : M (Gdt D) () :=
  s ← get;
  let off := 8 * index in
  if (0 <=? index) && (off + Z.of_nat (length l) <=? Z.of_nat (length (gdt_entries s)))
  then put (set_gdt_entries (splice (Z.to_nat off) l (gdt_entries s)) s) else stuck.

Definition set_entry (index : Z) (acc : Access) (gran : Granularity) (base limit : Z) : M (Gdt D) () :=
  write_table index (entry_bytes (entry_for (access_byte acc) (granularity_byte gran) base limit)).

Definition set_tss_entry (index base limit : Z) : M (Gdt D) () :=
  write_table index (tss_descriptor_bytes
    (entry_for (system_access_byte (mkSystemAccess true Ring0 false AvailableTss)) (granularity_byte (mkGranularity false false false false)) base limit)
    (Z.land (Z.shiftr base 32) 0xFFFFFFFF) 0).

Definition code_or_data (dpl : PrivilegeLevel) (exec : bool) : Access := mkAccess true dpl true exec false true false.
Definition long (l : bool) : Granularity := mkGranularity false false l false.

Definition initialize_gdt : M (Gdt D) () :=
  _ ← set_entry 0 (mkAccess false Ring0 false false false false false) (long false) 0 0;
  _ ← set_entry (index_of kKernelCode) (code_or_data Ring0 true) (long true) 0 0;
  _ ← set_entry (index_of kKernelData) (code_or_data Ring0 false) (long false) 0 0;
  _ ← set_entry (index_of kUserData) (code_or_data Ring3 false) (long false) 0 0;
  _ ← set_entry (index_of kUserCode) (code_or_data Ring3 true) (long true) 0 0;
  _ ← modify (set_tss (mkTSS [0; 0; 0] sizeof_TaskStateSegment));
  _ ← set_tss_entry (index_of kTSS) tss_address (sizeof_TaskStateSegment - 1);
  _ ← modify (set_gdt_ptr (sizeof_GlobalDescriptorTableEntry * GDT_ENTRIES - 1, gdt_entries_address));
  s ← get;
  _ ← in_cpu (LoadGDT (gdt_ptr s).1 (gdt_ptr s).2);
  _ ← in_cpu (LoadTR kTSS);
  _ ← in_cpu (report_color LightGreen Black);
  _ ← in_cpu (report (string_bytes "[GDT]  "));
  _ ← in_cpu (report_color LightGrey Black);
  in_cpu (report (string_bytes "rebuilt with user segments + TSS" ++ [10])).

Definition set_kernel_stack (rsp0 : Z) : M (Gdt D) () :=
  _ ← modify (λ s, set_tss (mkTSS (<[0%nat := rsp0]> (rsp (tss s))) (io_map_base_address (tss s))) s);
  modify (set_syscall_kernel_rsp rsp0).
End Gdt.

(** * What the processor reads in the descriptor table

    The format of descriptors (Intel SDM, volume 3A, 3.4.5 and 8.2.3), and the table
    after [initialize_gdt]. *)

Record Descriptor := mkDescriptor {
  d_base : Z; d_limit : Z; d_type : Z; d_s : Z; d_dpl : Z; d_p : Z; d_avl : Z; d_l : Z; d_db : Z; d_g : Z;
}.
(** Eight bytes as the processor takes them apart. *)
Definition decode (l : list Z) : Descriptor :=
  let x := le_value l in
  mkDescriptor (field x 16 24 + field x 56 8 * 2 ^ 24) (field x 0 16 + field x 48 4 * 2 ^ 16) (field x 40 4) (field x 44 1) (field x 45 2)
    (field x 47 1) (field x 52 1) (field x 53 1) (field x 54 1) (field x 55 1).
(** A descriptor of a system segment has 32 more bits of base. *)
Definition decode_system (l : list Z) : Descriptor :=
  let d := decode (take 8 l) in
  mkDescriptor (d_base d + field (le_value (drop 8 l)) 0 32 * 2 ^ 32) (d_limit d) (d_type d) (d_s d) (d_dpl d) (d_p d) (d_avl d) (d_l d) (d_db d) (d_g d).

Lemma access_byte_spec a :
  access_byte a = bit (accessed a) + 2 * bit (readable_writable a) + 4 * bit (direction_conforming a) + 8 * bit (executable a) +
    16 * bit (descriptor_type a) + 32 * privilege_bits (descriptor_privilege_level a) + 128 * bit (present a).
Proof. by destruct a as [[] [] [] [] [] [] []]. Qed.
Lemma granularity_byte_spec g :
  granularity_byte g = 16 * (bit (available g) + 2 * bit (long_mode g) + 4 * bit (default_operand_size g) + 8 * bit (page_units g)).
Proof. by destruct g as [[] [] [] []]. Qed.
Lemma bit_range b : 0 <= bit b <= 1.
Proof. by destruct b. Qed.
Lemma privilege_range p : 0 <= privilege_bits p <= 3.
Proof. by destruct p. Qed.

(** The value of the bytes of an entry. *)
Lemma entry_value acc g base limit :
  0 <= acc < 256 → 0 <= g < 16 → 0 <= base → 0 <= limit →
  let lim := limit `mod` 2 ^ 20 in let b := base `mod` 2 ^ 32 in
  le_value (entry_bytes (entry_for acc (16 * g) base limit)) =
    lim `mod` 2 ^ 16 + b `mod` 2 ^ 24 * 2 ^ 16 + acc * 2 ^ 40 + (lim / 2 ^ 16) * 2 ^ 48 + g * 2 ^ 52 + b / 2 ^ 24 * 2 ^ 56.
Proof.
  intros Hacc Hg Hb Hl lim b. unfold entry_bytes, entry_for. cbn [limit_low base_low base_middle access granularity base_high].
  assert (Z.lor (Z.land (Z.shiftr limit 16) 15) (16 * g) = (limit / 2 ^ 16) `mod` 16 + g * 16) as ->.
  { change 15 with (Z.ones 4). rewrite Z.land_ones, Z.shiftr_div_pow2 by lia. change (2 ^ 4) with 16.
    replace (16 * g) with (Z.shiftl g 4) by (rewrite Z.shiftl_mul_pow2; lia). rewrite lor_field' by (change (2 ^ 4) with 16; lia). lia. }
  change 65535 with (Z.ones 16). change 255 with (Z.ones 8). rewrite !Z.land_ones, !Z.shiftr_div_pow2 by lia.
  cbn [le_bytes app le_value foldr]. unfold lim, b. change (2 ^ 16) with 65536. change (2 ^ 8) with 256. change (2 ^ 24) with 16777216.
  change (2 ^ 20) with 1048576. change (2 ^ 32) with 4294967296. change (2 ^ 40) with 1099511627776. change (2 ^ 48) with 281474976710656.
  change (2 ^ 52) with 4503599627370496. change (2 ^ 56) with 72057594037927936. lia.
Qed.

(** Entries and their descriptors. *)
Lemma decode_entry acc g base limit :
  0 <= acc < 256 → 0 <= g < 16 → 0 <= base → 0 <= limit →
  decode (entry_bytes (entry_for acc (16 * g) base limit)) =
    mkDescriptor (base `mod` 2 ^ 32) (limit `mod` 2 ^ 20) (field acc 0 4) (field acc 4 1) (field acc 5 2) (field acc 7 1)
      (field g 0 1) (field g 1 1) (field g 2 1) (field g 3 1).
Proof.
  intros Hacc Hg Hb Hl. unfold decode. rewrite entry_value by done. cbn zeta.
  assert (0 <= limit `mod` 2 ^ 20 < 2 ^ 20 ∧ 0 <= base `mod` 2 ^ 32 < 2 ^ 32) as [Hlim Hbase] by lia. clear Hb Hl.
  revert Hlim Hbase. generalize (limit `mod` 2 ^ 20) as lim. generalize (base `mod` 2 ^ 32) as b. intros b lim Hlim Hbase.
  unfold field. change (2 ^ 0) with 1. change (2 ^ 1) with 2. change (2 ^ 2) with 4. change (2 ^ 3) with 8. change (2 ^ 4) with 16. change (2 ^ 5) with 32.
  change (2 ^ 7) with 128. change (2 ^ 8) with 256. change (2 ^ 16) with 65536. change (2 ^ 20) with 1048576 in *. change (2 ^ 24) with 16777216.
  change (2 ^ 32) with 4294967296 in *. change (2 ^ 40) with 1099511627776. change (2 ^ 44) with 17592186044416. change (2 ^ 45) with 35184372088832.
  change (2 ^ 47) with 140737488355328. change (2 ^ 48) with 281474976710656. change (2 ^ 52) with 4503599627370496. change (2 ^ 53) with 9007199254740992.
  change (2 ^ 54) with 18014398509481984. change (2 ^ 55) with 36028797018963968. change (2 ^ 56) with 72057594037927936.
  f_equal; lia.
Qed.

(** The descriptor that [set_entry] is asked for. *)
Definition described (a : Access) (g : Granularity) (base limit : Z) : Descriptor :=
  mkDescriptor base limit (bit (accessed a) + 2 * bit (readable_writable a) + 4 * bit (direction_conforming a) + 8 * bit (executable a))
    (bit (descriptor_type a)) (privilege_bits (descriptor_privilege_level a)) (bit (present a))
    (bit (available g)) (bit (long_mode g)) (bit (default_operand_size g)) (bit (page_units g)).

Lemma decode_described a g base limit :
  0 <= base < 2 ^ 32 → 0 <= limit < 2 ^ 20 →
  decode (entry_bytes (entry_for (access_byte a) (granularity_byte g) base limit)) = described a g base limit.
Proof.
  intros Hb Hl. assert (0 <= access_byte a < 256) as Ha by (by destruct a as [[] [] [] [] [] [] []]).
  assert (∃ v, granularity_byte g = 16 * v ∧ 0 <= v < 16 ∧ field v 0 1 = bit (available g) ∧ field v 1 1 = bit (long_mode g) ∧
    field v 2 1 = bit (default_operand_size g) ∧ field v 3 1 = bit (page_units g)) as (v & -> & Hv & F0 & F1 & F2 & F3).
  { exists (granularity_byte g / 16). by destruct g as [[] [] [] []]. }
  rewrite decode_entry by lia. rewrite !Z.mod_small by lia. rewrite F0, F1, F2, F3. unfold described.
  assert (field (access_byte a) 0 4 = bit (accessed a) + 2 * bit (readable_writable a) + 4 * bit (direction_conforming a) + 8 * bit (executable a) ∧
    field (access_byte a) 4 1 = bit (descriptor_type a) ∧ field (access_byte a) 5 2 = privilege_bits (descriptor_privilege_level a) ∧
    field (access_byte a) 7 1 = bit (present a)) as (-> & -> & -> & ->) by (by destruct a as [[] [] [] [] [] [] []]).
  done.
Qed.

Lemma length_gdt_entry e : length (entry_bytes e) = 8%nat.
Proof. done. Qed.

Section table.
Context {D : Type} `{HC : Cpu D} `{HA : GdtAddresses}.
Implicit Types (s : Gdt D).

(** Entry [i] of the table, and the system descriptor there. *)
Definition segment s (i : Z) : Descriptor := decode (slice (Z.to_nat (8 * i)) 8 (gdt_entries s)).
Definition system_segment s (i : Z) : Descriptor := decode_system (slice (Z.to_nat (8 * i)) 16 (gdt_entries s)).
Definition table_ok s : Prop := length (gdt_entries s) = 56%nat.

Lemma wp_gdt_write i l s (Q : () → Gdt D → Prop) :
  table_ok s → 0 <= i → 8 * i + Z.of_nat (length l) <= 56 →
  Q () (set_gdt_entries (splice (Z.to_nat (8 * i)) l (gdt_entries s)) s) → wp (write_table i l) s Q.
Proof.
  intros Hs Hi Hl HQ. unfold write_table, table_ok in *. do 2 wp_step. replace ((0 <=? i) && _) with true by lia. by wp_step.
Qed.

Lemma wp_set_entry i a g base limit s (Q : () → Gdt D → Prop) :
  table_ok s → 0 <= i < 7 → 0 <= base < 2 ^ 32 → 0 <= limit < 2 ^ 20 →
  (∀ s', table_ok s' → segment s' i = described a g base limit → (∀ j, 0 <= j < 7 → j ≠ i → segment s' j = segment s j) →
    tss s' = tss s ∧ gdt_ptr s' = gdt_ptr s ∧ syscall_kernel_rsp s' = syscall_kernel_rsp s ∧ cpu s' = cpu s → Q () s') →
  wp (set_entry i a g base limit) s Q.
Proof.
  intros Hs Hi Hb Hl HQ. unfold set_entry. apply wp_gdt_write; [done|lia|rewrite length_gdt_entry; lia|]. unfold table_ok in *.
  apply HQ; [|..|done].
  - unfold table_ok. cbn [gdt_entries set_gdt_entries]. rewrite length_splice; [done|]. rewrite length_gdt_entry. lia.
  - unfold segment. cbn [gdt_entries set_gdt_entries]. rewrite <- (length_gdt_entry (entry_for (access_byte a) (granularity_byte g) base limit)) at 1.
    rewrite slice_splice_same by (rewrite length_gdt_entry; lia). by apply decode_described.
  - intros j Hj Hne. unfold segment. cbn [gdt_entries set_gdt_entries]. rewrite slice_splice_disjoint; [done|..]; rewrite ?length_gdt_entry; lia.
Qed.

(** [set_entry] writes what it is asked for: the processor, taking the eight bytes
    apart, finds the base, the limit, the kind, the privilege and the flags of the
    segment, and every other entry of the table stays as it is. *)
Theorem set_entry_correct i a g base limit s :
  table_ok s → 0 <= i < 7 → 0 <= base < 2 ^ 32 → 0 <= limit < 2 ^ 20 →
  wp (set_entry i a g base limit) s (λ _ s', table_ok s' ∧ segment s' i = described a g base limit ∧
    ∀ j, 0 <= j < 7 → j ≠ i → segment s' j = segment s j).
Proof. intros Hs Hi Hb Hl. apply wp_set_entry; [done..|]. intros s' Hs' Hseg Hother _. done. Qed.

(** The task state segment, of which [base] may lie anywhere. *)
Lemma wp_set_tss_entry i base limit s (Q : () → Gdt D → Prop) :
  table_ok s → 0 <= i < 6 → 0 <= base < 2 ^ 64 → 0 <= limit < 2 ^ 20 →
  (∀ s', table_ok s' → system_segment s' i = mkDescriptor base limit 9 0 0 1 0 0 0 0 →
    (∀ j, 0 <= j < 7 → j ≠ i → j ≠ i + 1 → segment s' j = segment s j) →
    tss s' = tss s ∧ gdt_ptr s' = gdt_ptr s ∧ syscall_kernel_rsp s' = syscall_kernel_rsp s ∧ cpu s' = cpu s → Q () s') →
  wp (set_tss_entry i base limit) s Q.
Proof.
  intros Hs Hi Hb Hl HQ. unfold set_tss_entry.
  change (system_access_byte _) with 0x89. change (granularity_byte _) with (16 * 0).
  set (bs := tss_descriptor_bytes _ _ _). assert (length bs = 16%nat) as Hlen by done.
  apply wp_gdt_write; [done|lia|lia|]. unfold table_ok in *. apply HQ; [|..|done].
  - unfold table_ok. cbn [gdt_entries set_gdt_entries]. rewrite length_splice; [done|]. lia.
  - unfold system_segment. cbn [gdt_entries set_gdt_entries]. rewrite <- Hlen at 1. rewrite slice_splice_same by lia.
    unfold decode_system, bs, tss_descriptor_bytes.
    rewrite take_app_length' by done. rewrite drop_app_length' by done. rewrite decode_entry by lia. cbn [d_base d_limit d_type d_s d_dpl d_p d_avl d_l d_db d_g].
    rewrite (Z.mod_small limit) by lia. f_equal. change 0xFFFFFFFF with (Z.ones 32). rewrite Z.land_ones, Z.shiftr_div_pow2 by lia.
    change (le_bytes 4 0) with [0; 0; 0; 0]. cbn [le_bytes app le_value foldr]. unfold field. change (2 ^ 0) with 1. change (2 ^ 32) with 4294967296. lia.
  - intros j Hj Hne Hne'. unfold segment. cbn [gdt_entries set_gdt_entries]. rewrite slice_splice_disjoint; [done|..]; lia.
Qed.
End table.

(** * The registers of the system call instruction (include/systemcall.hpp, systemcall.cpp)

    What [SystemCall::init] tells the processor. *)

Definition EFER : Z := 0xC0000080.
Definition STAR : Z := 0xC0000081.
Definition LSTAR : Z := 0xC0000082.
Definition FMASK : Z := 0xC0000084.

Definition kSyscallBase : Z := kKernelCode.
Definition kSysretBase : Z := Z.land kUserData (Z.lnot 0x03) - 0x08.

(** The text of a console that keeps what is written. *)
Definition console_output (c : Console) : list Z := match c with NullConsole => [] | LogConsole out => out end.

Section Msr.
Context {D : Type} `{Cpu D}.

(** What [printf] writes; a format that does not fit its arguments is stuck. *)
Definition report_format (fmt : list Z) (args : list Arg) : M D () :=
  match vprintf fmt args (LogConsole []) with
  | Some (_, c) => report (console_output c)
  | None => stuck
  end.

(** [init] behind the registration of the console; [syscall_entry] is the address of the
    entry in assembly. *)
Definition init_msrs (syscall_entry : Z) : M D () :=
  efer ← rdmsr EFER;
  _ ← wrmsr EFER (Z.lor efer 1);
  _ ← wrmsr STAR (Z.lor (u64 (Z.shiftl kSyscallBase 32)) (u64 (Z.shiftl kSysretBase 48)));
  _ ← wrmsr LSTAR syscall_entry;
  _ ← wrmsr FMASK (Z.shiftl 1 9);
  _ ← report_color LightGreen Black;
  _ ← report (string_bytes "[SYS]  ");
  _ ← report_color LightGrey Black;
  report_format (string_bytes "syscall enabled  LSTAR=0x%x" ++ [10]) [AUnsigned (u32 syscall_entry)].
End Msr.

(** * Segments, privileges and the kernel stack *)

Section props.
Context {D : Type} `{HC : Cpu D} `{HA : GdtAddresses} `{HS : !CpuSpec D}.
Implicit Types (s : Gdt D).

(** A code or data segment of the kernel or of the user. *)
Definition flat (dpl type : Z) (l : Z) : Descriptor := mkDescriptor 0 0 type 1 dpl 1 0 l 0 0.

(** C28: [initialize_gdt] leaves a table in which the processor finds, at each
    selector of [SegmentSelector], the segment its name says: code or data, ring 0
    or 3, 64-bit code where it is code; the task state segment at its address with
    its 104 bytes, not yet in use; nothing at selector 0. The registers are loaded
    with this table and this segment. *)
Theorem initialize_gdt_correct s :
  table_ok s → 0 <= tss_address < 2 ^ 64 →
  wp initialize_gdt s (λ _ s', table_ok s' ∧
    d_p (segment s' 0) = 0 ∧ segment s' (index_of kKernelCode) = flat 0 10 1 ∧ segment s' (index_of kKernelData) = flat 0 2 0 ∧
    segment s' (index_of kUserData) = flat 3 2 0 ∧ segment s' (index_of kUserCode) = flat 3 10 1 ∧
    system_segment s' (index_of kTSS) = mkDescriptor tss_address 103 9 0 0 1 0 0 0 0 ∧
    tss s' = mkTSS [0; 0; 0] 104 ∧ gdtr (cpu s') = (55, gdt_entries_address) ∧ task_register (cpu s') = kTSS).
Proof.
  intros Hs Ha. unfold initialize_gdt. change (index_of kKernelCode) with 1. change (index_of kKernelData) with 2.
  change (index_of kUserData) with 3. change (index_of kUserCode) with 4. change (index_of kTSS) with 5.
  wp_step. apply wp_set_entry; [done|lia|lia|lia|]. intros s0 H0 A0 O0 _.
  wp_step. apply wp_set_entry; [done|lia|lia|lia|]. intros s1 H1 A1 O1 _.
  wp_step. apply wp_set_entry; [done|lia|lia|lia|]. intros s2 H2 A2 O2 _.
  wp_step. apply wp_set_entry; [done|lia|lia|lia|]. intros s3 H3 A3 O3 _.
  wp_step. apply wp_set_entry; [done|lia|lia|lia|]. intros s4 H4 A4 O4 _.
  do 2 wp_step. wp_step. apply wp_set_tss_entry; [done|lia|done|unfold sizeof_TaskStateSegment; lia|]. intros s5 H5 A5 O5 (E1 & _ & _ & _).
  do 2 wp_step. do 2 wp_step. wp_step. apply wp_zoom. eapply wp_mono; [apply LoadGDT_spec|]. intros [] d1 (G1 & _).
  wp_step. apply wp_zoom. eapply wp_mono; [apply LoadTR_spec|]. intros [] d2 (T2 & G2 & _).
  wp_step. apply wp_zoom. eapply wp_mono; [apply report_color_spec|]. intros [] d3 (G3 & T3 & _).
  wp_step. apply wp_zoom. eapply wp_mono; [apply report_spec|]. intros [] d4 (G4 & T4 & _).
  wp_step. apply wp_zoom. eapply wp_mono; [apply report_color_spec|]. intros [] d5 (G5 & T5 & _).
  apply wp_zoom. eapply wp_mono; [apply report_spec|]. intros [] d6 (G6 & T6 & _).
  assert (∀ i, 0 <= i < 5 → segment (set_gdt_ptr (sizeof_GlobalDescriptorTableEntry * GDT_ENTRIES - 1, gdt_entries_address) s5) i = segment s4 i) as Hseg.
  { intros i Hi. transitivity (segment s5 i); [done|]. rewrite O5 by lia. done. }
  assert (∀ (d : D) (x : Gdt D) i, segment (set_cpu d x) i = segment x i) as Hcpu by done.
  rewrite !Hcpu, !Hseg by lia. split; [exact H5|]. rewrite (O4 0), (O3 0), (O2 0), (O1 0), A0 by lia.
  rewrite (O4 1), (O3 1), (O2 1), A1 by lia. rewrite (O4 2), (O3 2), A2 by lia. rewrite (O4 3), A3 by lia. rewrite A4.
  split; [done|]. split; [done|]. split; [done|]. split; [done|]. split; [done|].
  split; [exact A5|]. split; [exact E1|]. cbn [cpu set_cpu] in *. split; [by rewrite G6, G5, G4, G3, G2, G1|by rewrite T6, T5, T4, T3, T2].
Qed.

(** [set_kernel_stack] puts the stack where both ways into the kernel look for it:
    into the task state segment for interrupts from ring 3, and into the variable of
    the entry of system calls; nothing else changes. *)
Theorem set_kernel_stack_correct s rsp0 :
  (length (rsp (tss s)) = 3)%nat →
  wp (set_kernel_stack rsp0) s (λ _ s', rsp (tss s') !! 0%nat = Some rsp0 ∧ syscall_kernel_rsp s' = rsp0 ∧
    (∀ k, k ≠ 0%nat → rsp (tss s') !! k = rsp (tss s) !! k) ∧ io_map_base_address (tss s') = io_map_base_address (tss s) ∧
    gdt_entries s' = gdt_entries s ∧ cpu s' = cpu s).
Proof.
  intros Hl. unfold set_kernel_stack. do 3 wp_step. cbn. split; [by rewrite list_lookup_insert_eq by lia|]. split; [done|].
  split; [|done]. intros k Hk. by rewrite list_lookup_insert_ne.
Qed.

(** ** System calls *)

(** The segments that [syscall] and [sysret] take from STAR (AMD64 manual, volume 2,
    6.1.1). *)
Definition syscall_cs (star : Z) : Z := field star 32 16.
Definition syscall_ss (star : Z) : Z := field star 32 16 + 8.
Definition sysret_cs (star : Z) : Z := Z.lor (field star 48 16 + 16) 3.
Definition sysret_ss (star : Z) : Z := Z.lor (field star 48 16 + 8) 3.

(** [init] turns the system call instruction on: the selectors that [syscall] and
    [sysret] derive from STAR are those of the kernel and of the user in the table,
    the entry is [syscall_entry], of the flags exactly the interrupt flag is
    cleared, and of EFER exactly the lowest bit is set. *)
Theorem init_msrs_correct syscall_entry (d : D) :
  wp (init_msrs syscall_entry) d (λ _ d',
    (∀ n, 0 <= n → Z.testbit (msr d' EFER) n = (n =? 0) || Z.testbit (msr d EFER) n) ∧
    syscall_cs (msr d' STAR) = kKernelCode ∧ syscall_ss (msr d' STAR) = kKernelData ∧
    sysret_cs (msr d' STAR) = kUserCode ∧ sysret_ss (msr d' STAR) = kUserData ∧
    msr d' LSTAR = syscall_entry ∧ (∀ n, 0 <= n → Z.testbit (msr d' FMASK) n = (n =? 9)) ∧
    gdtr d' = gdtr d ∧ task_register d' = task_register d).
Proof.
  unfold init_msrs. wp_step. eapply wp_mono; [apply rdmsr_spec|]. intros efer d1 (-> & G1 & T1 & _ & M1).
  wp_step. eapply wp_mono; [apply wrmsr_spec|]. intros [] d2 (G2 & T2 & _ & M2). wp_step. eapply wp_mono; [apply wrmsr_spec|]. intros [] d3 (G3 & T3 & _ & M3).
  wp_step. eapply wp_mono; [apply wrmsr_spec|]. intros [] d4 (G4 & T4 & _ & M4). wp_step. eapply wp_mono; [apply wrmsr_spec|]. intros [] d5 (G5 & T5 & _ & M5).
  wp_step. eapply wp_mono; [apply report_color_spec|]. intros [] d6 (G6 & T6 & _ & M6). wp_step. eapply wp_mono; [apply report_spec|]. intros [] d7 (G7 & T7 & _ & M7).
  wp_step. eapply wp_mono; [apply report_color_spec|]. intros [] d8 (G8 & T8 & _ & M8).
  assert (printable (string_bytes "syscall enabled  LSTAR=0x%x" ++ [10]) [AUnsigned (u32 syscall_entry)]) as Hp. by apply unsigned_printable.
  unfold report_format. destruct (Hp (LogConsole [])) as [[u c] ->].
  eapply wp_mono; [apply report_spec|]. intros [] d9 (G9 & T9 & _ & M9).
  assert (∀ i, msr d9 i = msr d5 i) as Hm by (intros i; by rewrite M9, M8, M7, M6). 
  assert (msr d9 EFER = Z.lor (msr d EFER) 1) as -> by (rewrite Hm, M5, M4, M3, M2; reflexivity).
  assert (msr d9 STAR = Z.lor (u64 (Z.shiftl kSyscallBase 32)) (u64 (Z.shiftl kSysretBase 48))) as -> by (rewrite Hm, M5, M4, M3; reflexivity).
  assert (msr d9 LSTAR = syscall_entry) as -> by (rewrite Hm, M5, M4; reflexivity).
  assert (msr d9 FMASK = Z.shiftl 1 9) as -> by (rewrite Hm, M5; reflexivity). split.
  { intros n Hn. change 1 with (2 ^ 0) at 1. rewrite Z.lor_spec, Z.pow2_bits_eqb by lia. rewrite Z.eqb_sym. apply orb_comm. }
  do 4 (split; [by vm_compute|]). split; [done|]. split.
  { intros n Hn. change (Z.shiftl 1 9) with (2 ^ 9). rewrite Z.pow2_bits_eqb by lia. apply Z.eqb_sym. }
  split; congruence.
Qed.
End props.
