(* ===== verification/Idt.v ===== *)
(** * The interrupt descriptor table (include/idt.hpp, include/idt.cpp)

    The 256 entries of the table, of which the constructor fills those of the
    exceptions and of the two interrupt controllers. *)
From S2P Require Import Prelude FileSystem Console Cpu Gdt.

Definition kInterruptGate : Z := 14.
Definition kTrapGate : Z := 15.

(** [InterruptDescriptorAttribute], by the bit fields of its 16 bits. *)
Record Attribute := mkAttribute { interrupt_stack_table : Z; gate_type : Z; gate_privilege : Z; gate_present : Z }.
Definition attribute_word (a : Attribute) : Z :=
  interrupt_stack_table a `mod` 2 ^ 3 + gate_type a `mod` 2 ^ 4 * 2 ^ 8 + gate_privilege a `mod` 2 ^ 2 * 2 ^ 13 + gate_present a `mod` 2 * 2 ^ 15.

Definition IDT_INTERRUPT_GATE : Attribute := mkAttribute 0 kInterruptGate 0 1.
Definition IDT_TRAP_GATE : Attribute := mkAttribute 0 kTrapGate 0 1.

Record InterruptDescriptorTableEntry := mkGate {
  offset_low : Z; segment_selector : Z; attribute : Z; offset_middle : Z; offset_high : Z; reserved : Z;
}.
Definition sizeof_InterruptDescriptorTableEntry : Z := 16.

(** [handler_console] is the one of exception.cpp; [serial] what stands for a null pointer. *)
Record Idt (D : Type) := mkIdt {
  entries : list InterruptDescriptorTableEntry;
  idt_ptr : Z * Z;
  handler_console : Console;
  idt_cpu : D;
}.
Arguments mkIdt {D}. Arguments entries {D}. Arguments idt_ptr {D}. Arguments handler_console {D}. Arguments idt_cpu {D}.

(** The stubs in assembly, and where the table is. *)
Class IdtAddresses := { isr_stubs : list Z; irq_stubs : list Z; entries_address : Z; serial_console : Console }.

Section Idt.
Context {D : Type} `{Cpu D} `{IdtAddresses}.

Definition set_entries v (s : Idt D) := mkIdt v (idt_ptr s) (handler_console s) (idt_cpu s).
Definition set_idt_ptr v (s : Idt D) := mkIdt (entries s) v (handler_console s) (idt_cpu s).
Definition set_handler_console v (s : Idt D) := mkIdt (entries s) (idt_ptr s) v (idt_cpu s).
Definition set_idt_cpu (v : D) (s : Idt D) := mkIdt (entries s) (idt_ptr s) (handler_console s) v.

(** [exception::set_console] *)
Definition set_console (console : option Console) : M (Idt D) () := modify (set_handler_console (default serial_console console)).

Definition gate_for (attr : Attribute) (handler : Z) : InterruptDescriptorTableEntry :=
  mkGate (Z.land handler 0xFFFF) kKernelCode (attribute_word attr) (Z.land (Z.shiftr handler 16) 0xFFFF)
    (Z.land (Z.shiftr handler 32) 0xFFFFFFFF) 0.

Definition set_idt (idx : Z) (attr : Attribute) (handler : Z) : M (Idt D) () :=
  s ← get;
  if Z.of_nat (length (entries s)) <=? idx then stuck
  else put (set_entries (<[Z.to_nat idx := gate_for attr handler]> (entries s)) s).

(** The two loops: [n] stubs of [stubs] from number [i] on, at [first + i]. *)
Fixpoint set_gates (n : nat) (i first : Z) (stubs : list Z) : M (Idt D) () :=
  match n with
  | O => mret ()
  | S n =>
      handler ← defined (stubs !! Z.to_nat i);
      _ ← set_idt (u8 (first + i)) IDT_INTERRUPT_GATE handler;
      set_gates n (i + 1) first stubs
  end.

Definition idt_construct (console : option Console) : M (Idt D) () :=
  _ ← set_console console;
  _ ← set_gates 32 0 0 isr_stubs;
  _ ← set_gates 16 0 0x20 irq_stubs;
  s ← get;
  _ ← put (set_idt_ptr (sizeof_InterruptDescriptorTableEntry * Z.of_nat (length (entries s)) - 1, entries_address) s);
  s ← get;
  _ ← zoom idt_cpu set_idt_cpu (lidt (idt_ptr s).1 (idt_ptr s).2);
  zoom idt_cpu set_idt_cpu sti.
End Idt.

(** * What the processor finds in the interrupt descriptor table *)

(** The sixteen bytes of an entry, and what the processor reads there (Intel SDM,
    volume 3A, 6.14.1). *)
Definition gate_bytes (e : InterruptDescriptorTableEntry) : list Z :=
  le_bytes 2 (offset_low e) ++ le_bytes 2 (segment_selector e) ++ le_bytes 2 (attribute e) ++ le_bytes 2 (offset_middle e) ++
  le_bytes 4 (offset_high e) ++ le_bytes 4 (reserved e).
Record Gate := mkGateInfo { g_offset : Z; g_selector : Z; g_ist : Z; g_type : Z; g_dpl : Z; g_present : Z }.
Definition decode_gate (l : list Z) : Gate :=
  let x := le_value (take 8 l) in
  mkGateInfo (field x 0 16 + field x 48 16 * 2 ^ 16 + field (le_value (drop 8 l)) 0 32 * 2 ^ 32) (field x 16 16) (field x 32 3) (field x 40 4)
    (field x 45 2) (field x 47 1).

(** A gate through which ring 0 runs [handler] with interrupts off. *)
Definition interrupt_gate (handler : Z) : Gate := mkGateInfo handler kKernelCode 0 14 0 1.

Lemma decode_gate_for handler :
  0 <= handler < 2 ^ 64 → decode_gate (gate_bytes (gate_for IDT_INTERRUPT_GATE handler)) = interrupt_gate handler.
Proof.
  intros Hh. unfold decode_gate, gate_bytes, gate_for. cbn [offset_low segment_selector attribute offset_middle offset_high reserved].
  change (attribute_word IDT_INTERRUPT_GATE) with 36352. change kKernelCode with 8.
  change 0xFFFFFFFF with (Z.ones 32). change 0xFFFF with (Z.ones 16). rewrite !Z.land_ones, !Z.shiftr_div_pow2 by lia.
  cbn [le_bytes app take drop le_value foldr]. unfold field, interrupt_gate.
  change (2 ^ 0) with 1. change (2 ^ 1) with 2. change (2 ^ 2) with 4. change (2 ^ 3) with 8. change (2 ^ 4) with 16.
  change (2 ^ 16) with 65536. change (2 ^ 32) with 4294967296. change (2 ^ 40) with 1099511627776. change (2 ^ 45) with 35184372088832.
  change (2 ^ 47) with 140737488355328. change (2 ^ 48) with 281474976710656. change (2 ^ 64) with 18446744073709551616 in *.
  change kKernelCode with 8. f_equal; lia.
Qed.

Section props.
Context {D : Type} `{HC : Cpu D} `{HA : IdtAddresses} `{HS : !CpuSpec D}.
Implicit Types (s : Idt D).

(** The gate of a vector. *)
Definition gate s (v : Z) : option Gate := decode_gate <$> (gate_bytes <$> entries s !! Z.to_nat v).

Lemma wp_set_gates n i first stubs s (Q : () → Idt D → Prop) :
  length (entries s) = 256%nat → 0 <= i → 0 <= first → first + i + Z.of_nat n <= 256 → (Z.to_nat i + n <= length stubs)%nat →
  Forall (λ h, 0 <= h < 2 ^ 64) stubs →
  (∀ l, length l = 256%nat →
    (∀ v, 0 <= v < 256 → l !! Z.to_nat v = if decide (first + i <= v < first + i + Z.of_nat n)
      then gate_for IDT_INTERRUPT_GATE <$> stubs !! Z.to_nat (v - first) else entries s !! Z.to_nat v) → Q () (set_entries l s)) →
  wp (set_gates n i first stubs) s Q.
Proof.
  revert i s. induction n as [|n IH]; intros i s Hl Hi Hf Hn Hlen Hall HQ; cbn [set_gates].
  - wp_step. replace s with (set_entries (entries s) s) by (by destruct s). apply HQ; [done|]. intros v Hv. by rewrite decide_False by lia.
  - wp_step. destruct (lookup_lt_is_Some_2 stubs (Z.to_nat i)) as [h Hh]; [lia|]. wp_step. unfold set_idt. wp_step. do 2 wp_step.
    rewrite u8_small by lia. replace (_ <=? _) with false by lia. wp_step. apply IH; [cbn; by rewrite length_insert|lia|done|lia|lia|done|].
    cbn [entries set_entries]. intros l Hl' Hv. apply HQ; [done|]. intros v Hvr. rewrite Hv by done.
    destruct (decide (v = first + i)) as [->|Hne].
    + rewrite decide_False by lia. rewrite list_lookup_insert_eq by lia. rewrite decide_True by lia.
      replace (Z.to_nat (first + i - first)) with (Z.to_nat i) by lia. by rewrite Hh.
    + rewrite list_lookup_insert_ne by lia. destruct (decide _); [rewrite decide_True by lia|rewrite decide_False by lia]; done.
Qed.

(** The constructor gives each of the 32 exceptions and of the 16 lines of the
    interrupt controllers (at the vectors from 32 on, where [InitializePIC] puts
    them) an interrupt gate to its stub, in the code segment of the kernel, for ring
    0, registers the console first and turns interrupts on last. The other vectors
    keep whatever the memory of the table held before. *)
Theorem idt_construct_correct s console :
  length (entries s) = 256%nat → length isr_stubs = 32%nat → length irq_stubs = 16%nat →
  Forall (λ h, 0 <= h < 2 ^ 64) isr_stubs → Forall (λ h, 0 <= h < 2 ^ 64) irq_stubs →
  wp (idt_construct console) s (λ _ s',
    (∀ v, 0 <= v < 32 → gate s' v = interrupt_gate <$> isr_stubs !! Z.to_nat v) ∧
    (∀ v, 32 <= v < 48 → gate s' v = interrupt_gate <$> irq_stubs !! Z.to_nat (v - 32)) ∧
    (∀ v, 48 <= v < 256 → gate s' v = gate s v) ∧
    handler_console s' = default serial_console console ∧ idtr (idt_cpu s') = (4095, entries_address) ∧ interrupts_on (idt_cpu s') = true).
Proof.
  intros Hl H1 H2 A1 A2. unfold idt_construct, set_console. do 2 wp_step. wp_step. apply wp_set_gates; [done|lia|lia|lia|lia|done|]. intros l1 L1 V1.
  wp_step. apply wp_set_gates; [done|lia|lia|lia|lia|done|]. intros l2 L2 V2. do 2 wp_step. wp_step. wp_step. wp_step. wp_step.
  wp_step. apply wp_zoom. eapply wp_mono; [apply lidt_spec|]. intros [] d1 (I1 & _). apply wp_zoom. eapply wp_mono; [apply sti_spec|].
  intros [] d2 [(_ & _ & I2 & _) Hon]. cbn [entries set_entries set_handler_console set_idt_ptr set_idt_cpu idt_cpu idt_ptr fst snd] in *.
  unfold gate. cbn [entries set_idt_cpu set_idt_ptr set_entries].
  assert (∀ stubs k, Forall (λ h, 0 <= h < 2 ^ 64) stubs →
    decode_gate <$> (gate_bytes <$> (gate_for IDT_INTERRUPT_GATE <$> stubs !! k)) = interrupt_gate <$> stubs !! k) as Hdec.
  { intros stubs k Hall. destruct (stubs !! k) as [h|] eqn:E; [|done]. cbn. f_equal. apply decode_gate_for. exact (Forall_lookup_1 _ _ _ _ Hall E). }
  split_and!; try done.
  - intros v Hv. rewrite V2, decide_False, V1, decide_True by lia. rewrite Z.sub_0_r. by apply Hdec.
  - intros v Hv. rewrite V2, decide_True by lia. by apply Hdec.
  - intros v Hv. rewrite V2, decide_False, V1, decide_False by lia. done.
  - by rewrite I2, I1, L2.
Qed.
End props.
