(* ===== verification/CpuExamples.v ===== *)
(** * A processor with registers

    The registers of one processor as values: an instance of the interface in Cpu.v, on
    which the theorems about segments, system calls and interrupts are applied. *)
From stdpp Require Import strings.
From S2P Require Import Prelude FileSystem Console Cpu Gdt Idt.

Record Registers := mkRegisters { r_gdtr : Z * Z; r_tr : Z; r_idtr : Z * Z; r_if : bool; r_msr : gmap Z Z; r_log : list Z }.
Definition read_msr (d : Registers) (i : Z) : Z := default 0 (r_msr d !! i).

#[export] Instance registers_cpu : Cpu Registers := {|
  LoadGDT l b := modify (λ d, mkRegisters (l, b) (r_tr d) (r_idtr d) (r_if d) (r_msr d) (r_log d));
  LoadTR v := modify (λ d, mkRegisters (r_gdtr d) v (r_idtr d) (r_if d) (r_msr d) (r_log d));
  lidt l b := modify (λ d, mkRegisters (r_gdtr d) (r_tr d) (l, b) (r_if d) (r_msr d) (r_log d));
  sti := modify (λ d, mkRegisters (r_gdtr d) (r_tr d) (r_idtr d) true (r_msr d) (r_log d));
  rdmsr i := gets (λ d, read_msr d i);
  wrmsr i v := modify (λ d, mkRegisters (r_gdtr d) (r_tr d) (r_idtr d) (r_if d) (<[i := v]> (r_msr d)) (r_log d));
  report_color _ _ := mret ();
  report s := modify (λ d, mkRegisters (r_gdtr d) (r_tr d) (r_idtr d) (r_if d) (r_msr d) (r_log d ++ s));
|}.

#[export] Instance registers_spec : CpuSpec Registers.
Proof.
  refine {| gdtr := r_gdtr; task_register := r_tr; idtr := r_idtr; interrupts_on := r_if; msr := read_msr |}; intros; eexists _, _; (split; [reflexivity|]); try done.
  cbn. split_and!; try done. intros j. unfold read_msr. cbn [r_msr]. destruct (decide (j = i)) as [->|Hne].
  - by rewrite lookup_insert_eq.
  - by rewrite lookup_insert_ne.
Defined.

(** The processor as the boot code leaves it: system calls off, some tables loaded. *)
Definition reset : Registers := mkRegisters (23, 0x1000) 0 (0, 0) false (list_to_map [(EFER, 0x500); (FMASK, 0)]) [].

#[export] Instance linked : GdtAddresses := {| gdt_entries_address := 0xFFFFFFFF80110000; tss_address := 0xFFFFFFFF80110040 |}.
#[export] Instance linked_stubs : IdtAddresses :=
  {| isr_stubs := (λ i, 0xFFFFFFFF80100000 + Z.of_nat i * 16) <$> seq 0 32; irq_stubs := (λ i, 0xFFFFFFFF80100800 + Z.of_nat i * 16) <$> seq 0 16;
     entries_address := 0xFFFFFFFF80120000; serial_console := LogConsole [] |}.

Definition gdt0 : Gdt Registers := mkGdt (replicate 56 0) (mkTSS [0; 0; 0] 0) (0, 0) 0 reset.
Definition idt0 : Idt Registers := mkIdt (replicate 256 (mkGate 0 0 0 0 0 0)) (0, 0) NullConsole reset.

Lemma initialize_gdt_correct_witness :
  wp initialize_gdt gdt0 (λ _ s', segment s' 1 = flat 0 10 1 ∧ segment s' 4 = flat 3 10 1 ∧ system_segment s' 5 = mkDescriptor 0xFFFFFFFF80110040 103 9 0 0 1 0 0 0 0).
Proof.
  eapply wp_mono; [apply (initialize_gdt_correct gdt0); [reflexivity|split; [discriminate|reflexivity]]|].
  intros u s' (_ & _ & H1 & _ & _ & H4 & H5 & _). exact (conj H1 (conj H4 H5)).
Defined.

Lemma set_entry_correct_witness :
  wp (set_entry 2 (code_or_data Ring3 false) (mkGranularity true true false false) 0x12345678 0xABCDE) gdt0 (λ _ s', segment s' 2 = mkDescriptor 0x12345678 0xABCDE 2 1 3 1 0 0 1 1).
Proof.
  eapply wp_mono; [apply (set_entry_correct 2 (code_or_data Ring3 false) (mkGranularity true true false false) 0x12345678 0xABCDE gdt0)|].
  - reflexivity.
  - split; [discriminate|reflexivity].
  - split; [discriminate|reflexivity].
  - split; [discriminate|reflexivity].
  - intros u s' (_ & H & _). exact H.
Defined.

Lemma set_kernel_stack_correct_witness :
  wp (set_kernel_stack 0xFFFFFFFF90002000) gdt0 (λ _ s', rsp (tss s') !! 0%nat = Some 0xFFFFFFFF90002000 ∧ syscall_kernel_rsp s' = 0xFFFFFFFF90002000).
Proof.
  eapply wp_mono; [apply (set_kernel_stack_correct gdt0 0xFFFFFFFF90002000); reflexivity|]. intros u s' (H1 & H2 & _). exact (conj H1 H2).
Defined.

Lemma init_msrs_correct_witness :
  wp (init_msrs 0xFFFFFFFF80105000) reset (λ _ d', msr d' LSTAR = 0xFFFFFFFF80105000 ∧ syscall_cs (msr d' STAR) = 0x08 ∧
    sysret_cs (msr d' STAR) = 0x23 ∧ Z.testbit (msr d' EFER) 8 = true ∧ Z.testbit (msr d' EFER) 0 = true).
Proof.
  eapply wp_mono; [apply (init_msrs_correct 0xFFFFFFFF80105000 reset)|]. intros u d' (H1 & H2 & _ & H4 & _ & H6 & _).
  split; [exact H6|]. split; [exact H2|]. split; [exact H4|]. split; [rewrite (H1 8) by lia; reflexivity|rewrite (H1 0) by lia; reflexivity].
Defined.

Lemma idt_construct_correct_witness :
  wp (idt_construct (Some (LogConsole []))) idt0 (λ _ s', gate s' 14 = Some (interrupt_gate 0xFFFFFFFF801000E0) ∧ gate s' 33 = Some (interrupt_gate 0xFFFFFFFF80100810)).
Proof.
  eapply wp_mono; [apply (idt_construct_correct idt0 (Some (LogConsole [])))|].
  - reflexivity.
  - reflexivity.
  - reflexivity.
  - apply (bool_decide_unpack _). vm_compute. exact I.
  - apply (bool_decide_unpack _). vm_compute. exact I.
  - intros u s' (H1 & H2 & _). clear -H1 H2. split.
    + rewrite (H1 14) by lia. vm_compute. reflexivity.
    + rewrite (H2 33) by lia. vm_compute. reflexivity.
Defined.
