(* ===== verification/Exception.v ===== *)
(** * Exceptions and interrupts (include/exception.hpp, include/exception.cpp)

    What the stubs of the interrupt table call: the report of an exception, the timer
    and the lines of the interrupt controllers. *)
From stdpp Require Import strings.
From S2P Require Import Prelude FileSystem Console Cpu Keyboard Pic.
From S2P Require Import Printf.

Inductive ExceptionType :=
| DivideByZero | Debug_ | NonMaskableInterrupt | Breakpoint | Overflow | BoundRangeExceeded | InvalidOpcode | DeviceNotAvailable
| DoubleFault | CoprocessorSegmentOverrun | InvalidTSS | SegmentNotPresent | StackSegmentFault | GeneralProtectionFault | PageFault
| Reserved | FloatingPointException | AlignmentCheck | MachineCheck | SIMDException | VirtualizationException
| ControlProtectionException | Sentinel.

(** The values in their order, from 0 on: [static_cast] in both directions. *)
Definition exception_types : list ExceptionType :=
  [DivideByZero; Debug_; NonMaskableInterrupt; Breakpoint; Overflow; BoundRangeExceeded; InvalidOpcode; DeviceNotAvailable;
   DoubleFault; CoprocessorSegmentOverrun; InvalidTSS; SegmentNotPresent; StackSegmentFault; GeneralProtectionFault; PageFault;
   Reserved; FloatingPointException; AlignmentCheck; MachineCheck; SIMDException; VirtualizationException;
   ControlProtectionException; Sentinel].
Definition kSentinel : Z := 22.
Definition kPageFault : Z := 14.

Definition exception_name (type : ExceptionType) : list Z :=
  string_bytes match type with
  | DivideByZero => "Division By Zero"
  | Debug_ => "Debug"
  | NonMaskableInterrupt => "Non Maskable Interrupt"
  | Breakpoint => "Breakpoint"
  | Overflow => "Into Detected Overflow"
  | BoundRangeExceeded => "Bound Range Exceeded"
  | InvalidOpcode => "Invalid Opcode"
  | DeviceNotAvailable => "Device Not Available"
  | DoubleFault => "Double Fault"
  | CoprocessorSegmentOverrun => "Coprocessor Segment Overrun"
  | InvalidTSS => "Invalid TSS"
  | SegmentNotPresent => "Segment Not Present"
  | StackSegmentFault => "Stack-Segment Fault"
  | GeneralProtectionFault => "General Protection Fault"
  | PageFault => "Page Fault"
  | Reserved => "Reserved"
  | FloatingPointException => "x87 Floating-Point Exception"
  | AlignmentCheck => "Alignment Check"
  | MachineCheck => "Machine Check"
  | SIMDException => "SIMD Floating-Point Exception"
  | VirtualizationException => "Virtualization Exception"
  | ControlProtectionException => "Control Protection Exception"
  | Sentinel => "Unknown Exception"
  end.

Record register_state_t := mkRegs {
  r15 : Z; r14 : Z; r13 : Z; r12 : Z; r11 : Z; r10 : Z; r9 : Z; r8 : Z;
  rbp : Z; rdi : Z; rsi : Z; rdx : Z; rcx : Z; rbx : Z; rax : Z;
  int_no : Z; err_code : Z;
  rip : Z; cs : Z; rflags : Z; rsp : Z; ss : Z;
}.

(** [handler_console] with the colours it writes in. *)
Record Output := mkOutput { console : Console; colours : Color * Color }.
Definition set_console (v : Console) (s : Output) : Output := mkOutput v (colours s).
Definition set_color (fg bg : Color) : M Output () := modify (λ s, mkOutput (console s) (fg, bg)).
Definition printf (fmt : list Z) (args : list Arg) : M Output () := zoom console set_console (vprintf fmt args).

(** [isr_common_handler] up to its last loop, which halts for ever; [cr2] is what
    [read_cr2] returns. *)
Definition isr_common_handler (regs : register_state_t) (cr2 : Z) : M Output () :=
  _ ← set_color White Red;
  _ ← printf (string_bytes "**Exception **") [];
  name ← (if int_no regs <? kSentinel then
            type ← defined (exception_types !! Z.to_nat (int_no regs)); mret (exception_name type)
          else mret (string_bytes "Unknown Exception"));
  _ ← printf (string_bytes ": %s" ++ [10]) [AString name];
  _ ← printf (string_bytes "RIP: 0x%016lx, CS=0x%016lx, RFLAGS=0x%016lx" ++ [10]) [AULong (rip regs); AULong (cs regs); AULong (rflags regs)];
  _ ← printf (string_bytes "RSP: 0x%016lx, SS=0x%016lx, ERR=0x%lx, INT=%lu" ++ [10])
        [AULong (rsp regs); AULong (ss regs); AULong (err_code regs); AULong (int_no regs)];
  if int_no regs =? kPageFault then printf (string_bytes "Page Fault Address: 0x%016lx" ++ [10]) [AULong cr2] else mret ().

(** The ticks of the timer, the keyboard driver and the ports. *)
Record Handlers (D : Type) := mkHandlers { timer_ticks : Z; keyboard : Keyboard; ports : D }.
Arguments mkHandlers {D}. Arguments timer_ticks {D}. Arguments keyboard {D}. Arguments ports {D}.

Section Handlers.
Context {D : Type} `{PortIO D}.

Definition set_timer_ticks v (s : Handlers D) := mkHandlers v (keyboard s) (ports s).
Definition set_keyboard v (s : Handlers D) := mkHandlers (timer_ticks s) v (ports s).
Definition set_ports (v : D) (s : Handlers D) := mkHandlers (timer_ticks s) (keyboard s) v.

(** Built without [TIMER_TEST]: the hundredth tick prints nothing. *)
Definition irq0_handler : M (Handlers D) () :=
  _ ← modify (λ s, set_timer_ticks (u64 (timer_ticks s + 1)) s);
  zoom ports set_ports (send_eoi 0).

(** [keyboard::handle_irq] reads the scan code first. *)
Definition irq_handler (irq_number : Z) : M (Handlers D) () :=
  _ ← (if irq_number =? 1 then
         scancode ← zoom ports set_ports (inb 0x60);
         zoom keyboard set_keyboard (handle_irq scancode)
       else mret ());
  zoom ports set_ports (send_eoi (u8 irq_number)).
End Handlers.

(** * What the handlers of exceptions and interrupts do *)

(** ** The report of an exception *)

Definition word_ok (v : Z) : Prop := 0 <= v < 2 ^ 64.
Definition regs_ok (regs : register_state_t) : Prop :=
  word_ok (rip regs) ∧ word_ok (cs regs) ∧ word_ok (rflags regs) ∧ word_ok (rsp regs) ∧ word_ok (ss regs) ∧
  word_ok (err_code regs) ∧ word_ok (int_no regs).

(** Sixteen hexadecimal digits. *)
Definition hex16 (v : Z) : list Z := padded 16 48 (number_text 16 v).
Definition name_of (int_no : Z) : list Z := default (string_bytes "Unknown Exception") (exception_name <$> exception_types !! Z.to_nat int_no).

Definition report_text (regs : register_state_t) (cr2 : Z) : list Z :=
  string_bytes "**Exception **: " ++ name_of (int_no regs) ++ [10] ++
  string_bytes "RIP: 0x" ++ hex16 (rip regs) ++ string_bytes ", CS=0x" ++ hex16 (cs regs) ++ string_bytes ", RFLAGS=0x" ++ hex16 (rflags regs) ++ [10] ++
  string_bytes "RSP: 0x" ++ hex16 (rsp regs) ++ string_bytes ", SS=0x" ++ hex16 (ss regs) ++ string_bytes ", ERR=0x" ++ number_text 16 (err_code regs) ++
  string_bytes ", INT=" ++ number_text 10 (int_no regs) ++ [10] ++
  (if int_no regs =? kPageFault then string_bytes "Page Fault Address: 0x" ++ hex16 cr2 ++ [10] else []).

Lemma padded_0 pad ds : padded 0 pad ds = ds.
Proof. done. Qed.

(** One call of [printf] whose text is known. *)
Lemma wp_printf fmt args ts text s (Q : () → Output → Prop) :
  types_of_format fmt = Some ts → type_of <$> args = ts → Forall arg_ok args → format_text fmt args = Some text →
  Q () (mkOutput (console_write text (console s)) (colours s)) → wp (printf fmt args) s Q.
Proof.
  intros Hf Ht Hok Htext HQ. unfold printf. apply wp_zoom. eapply wp_vprintf; [exact Hf|by rewrite Ht|exact Hok|]. intros t Hs.
  rewrite Htext in Hs. injection Hs as <-. exact HQ.
Qed.

(** The text of a format with symbolic arguments. *)
Ltac text_lazy := lazy -[padded number_text app name_of int_no err_code rip cs rflags rsp ss].
Ltac text_equal := rewrite !console_write_write; f_equal; rewrite ?padded_0; text_lazy; repeat (progress (rewrite <- ?app_assoc; cbn [app])); reflexivity.
Ltac format_eval :=
  lazymatch goal with
  | |- format_text ?fmt _ = _ => let l := eval vm_compute in fmt in change fmt with l
  end; text_lazy; reflexivity.
Ltac words_ok := repeat (apply Forall_cons; split; [first [assumption|exact I]|]); apply Forall_nil; exact I.

Lemma wp_name s n (Q : list Z → Output → Prop) :
  0 <= n → Q (name_of n) s →
  wp (if n <? kSentinel then type ← defined (exception_types !! Z.to_nat n); mret (exception_name type) else mret (string_bytes "Unknown Exception")) s Q.
Proof.
  intros Hn HQ. unfold name_of, kSentinel in *. destruct (n <? 22) eqn:E.
  - destruct (lookup_lt_is_Some_2 exception_types (Z.to_nat n)) as [t Ht]; [cbn; lia|]. rewrite Ht in HQ. wp_step. wp_step. wp_step. exact HQ.
  - wp_step. destruct (decide (n = 22)) as [->|Hne]; [exact HQ|].
    assert (exception_types !! Z.to_nat n = None) as Hnone by (apply lookup_ge_None_2; cbn; lia). by rewrite Hnone in HQ.
Qed.

(** The handler of exceptions reports, in white on red, the exception by its name (any
    other number as unknown), where it happened, with which stack, error code and
    number, and for a page fault the address: every value in full, whatever the
    registers hold and whatever had been printed. *)
Theorem isr_report_correct regs cr2 s :
  regs_ok regs → word_ok cr2 →
  wp (isr_common_handler regs cr2) s (λ _ s', colours s' = (White, Red) ∧ console s' = console_write (report_text regs cr2) (console s)).
Proof.
  intros (Hrip & Hcs & Hfl & Hrsp & Hss & Herr & Hint) Hcr. unfold isr_common_handler, set_color.
  do 2 wp_step. wp_step. eapply wp_printf; [reflexivity|done|done|format_eval|].
  wp_step. apply wp_name; [apply Hint|].
  wp_step. eapply wp_printf; [reflexivity|done|words_ok|format_eval|].
  wp_step. eapply wp_printf; [reflexivity|done|words_ok|format_eval|].
  wp_step. eapply wp_printf; [reflexivity|done|words_ok|format_eval|].
  unfold report_text. destruct (int_no regs =? kPageFault).
  - eapply wp_printf; [reflexivity|done|words_ok|format_eval|]. split; [done|]. cbn [console]. text_equal.
  - wp_step. split; [done|]. cbn [console]. text_equal.
Qed.

Lemma isr_report_correct_witness :
  wp (isr_common_handler (mkRegs 0 0 0 0 0 0 0 0 0 0 0 0 0 0 0 14 2 0x401000 0x23 0x202 0x600FF0 0x1B) 0xDEAD) (mkOutput (LogConsole []) (LightGrey, Black))
    (λ _ s', colours s' = (White, Red)).
Proof.
  eapply wp_mono; [apply (isr_report_correct (mkRegs 0 0 0 0 0 0 0 0 0 0 0 0 0 0 0 14 2 0x401000 0x23 0x202 0x600FF0 0x1B) 0xDEAD)|].
  - unfold regs_ok, word_ok. cbn. repeat split; discriminate.
  - split; [discriminate|reflexivity].
  - intros u s' H. exact (proj1 H).
Defined.

(** ** Interrupts *)

(** The timer counts every interrupt and ends it; its lines and the keyboard stay. *)
Theorem irq0_handler_correct (s : Handlers Chips) :
  wp irq0_handler s (λ _ s', timer_ticks s' = u64 (timer_ticks s + 1) ∧ keyboard s' = keyboard s ∧
    isr (master (ports s')) = tail (isr (master (ports s))) ∧ slave (ports s') = slave (ports s)).
Proof. by eexists (), _. Qed.

(** C29: An interrupt of the controllers: line 1 hands the byte of the keyboard to
    the driver, which queues its character; any line is ended on the controllers it
    came through, so that the next interrupt can come; masks and the timer stay. *)
Theorem irq_handler_correct (s : Handlers Chips) n :
  0 <= n < 16 → keyboard_ok (keyboard s) → byte_ok (key (ports s)) →
  wp (irq_handler n) s (λ _ s',
    (if n =? 1 then produced (keyboard s) (keyboard s') (irq (key (ports s)) (input_of (keyboard s))) else keyboard s' = keyboard s) ∧
    isr (master (ports s')) = tail (isr (master (ports s))) ∧
    isr (slave (ports s')) = (if n <? 8 then isr (slave (ports s)) else tail (isr (slave (ports s)))) ∧
    imr (master (ports s')) = imr (master (ports s)) ∧ imr (slave (ports s')) = imr (slave (ports s)) ∧
    timer_ticks s' = timer_ticks s).
Proof.
  intros Hn Hk Hb. unfold irq_handler. rewrite u8_small by lia. wp_step. destruct (n =? 1) eqn:E.
  - apply Z.eqb_eq in E as ->. wp_step. apply wp_zoom, wp_gets. apply wp_zoom. cbn [set_ports keyboard ports timer_ticks].
    apply wp_handle_irq; [done|done|]. intros k' Hk'. apply wp_zoom. eapply wp_mono; [apply send_eoi_correct|]. by intros [] c' (H1 & H2 & H3 & H4 & _).
  - wp_step. apply wp_zoom. eapply wp_mono; [apply send_eoi_correct|]. by intros [] c' (H1 & H2 & H3 & H4 & _).
Qed.

Lemma irq_handler_correct_witness :
  wp (irq_handler 1) (mkHandlers 7 boot (mkChips (mkI8259 Ready true 0x20 4 true 0xB8 [1]) (mkI8259 Ready true 0x28 2 true 0x8F []) (pit firmware) 0x1E))
    (λ _ s', input_of (keyboard s') = mkInput [97] false false ∧ isr (master (ports s')) = []).
Proof.
  eapply wp_mono; [apply (irq_handler_correct (mkHandlers 7 boot (mkChips _ _ _ 0x1E)) 1)|].
  - split; [discriminate|reflexivity].
  - split; [reflexivity|split; [discriminate|reflexivity]|split; [discriminate|reflexivity]].
  - split; [discriminate|reflexivity].
  - intros u s' (H1 & H2 & _). split; [exact (proj1 (proj2 H1))|exact H2].
Defined.
